(* ===== verification/_CoqProject ===== *)
-Q . S2P
Prelude.v
GoStd.v
GoJson.v
GoPath.v
Dag.v
Tx.v
ForkChoice.v
Chain.v
Pool.v
Confirm.v
ConfirmSpec.v
History.v
HistorySpec.v
Explorer.v
ExplorerSpec.v
TxPool.v
Boundary.v
BoundarySpec.v
PeerSpec.v
Mempool.v
MempoolSpec.v
CoreRpc.v
CoreCalls.v
CoreCallsSpec.v
Sha256.v
Deals.v
DealsSpec.v
ContactEconomy.v
ContactEconomySpec.v
Ownership.v
Messaging.v
MessagingSpec.v
MessagingLive.v
Nodes.v
NodesSpec.v
PeerSockets.v
RateLimit.v
Rating.v
RatingSpec.v
Rewards.v
RewardsSpec.v
Votes.v
VotesSpec.v
L1Validate.v
Consensus.v
ConsensusSpec.v
Nonce.v
Voter.v
VoterSpec.v
Admission.v
AdmissionSpec.v
ContactHandlers.v
ContactHandlersSpec.v
Sync.v
SyncSpec.v
Startup.v
AutoBlock.v
AutoBlockSpec.v
ChainLog.v
TxLife.v
DagExchange.v
Faucet.v
ChannelIdentity.v
GoText.v
ChainRpc.v
ChainRpcSpec.v
ExplorerRoutes.v
ExplorerRoutesSpec.v
ExploreMetrics.v
ExploreMetricsSpec.v
Accounts.v
Doctor.v
Daemon.v
HttpGates.v
WalletRoutes.v
StatusRoutes.v
AiProxy.v
EconomyFile.v
GatewayInit.v
Program.v
