(* ===== verification/Prelude.v ===== *)
(** * Platarium Gateway: verification library (root file)

    The gateway is the Go front of a Platarium node. It admits signed
    transactions into a mempool, packs them into blocks in two voting rounds (L1
    collects, L2 confirms), has the Rust program PlatariumCore execute them, and
    keeps an explorer of the chain in memory, in chain.json and in Core's
    RocksDB. Around the chain it runs a network of peers, a rating of nodes, a
    distribution of fees, panels of volunteers for disputed deals, messages and
    paid first contact between users, a faucet and a registry of channels, and
    serves pages, a JSON-RPC and metrics of the chain. This library models those
    parts as executable functions on explicit states and proves what they promise.
    Paths below are under src/internal/, except main.go.

    ** How the parts interact

    [handlers/] drives everything. An L1 run prunes the mempool, asks Core for a
    selection, validates it, holds a vote round with a committee drawn from the
    node registry, and moves the selection into the pending block. An L2 run
    holds a second round on the pending block, confirms it (Core applies the
    batch while the chain lock is released, then the explorer and chain.json
    follow), finalises it (header, RocksDB, removal of Core's backup, or undo of
    everything) and shares its fees among the voters. A worker starts both runs,
    or forwards them to the node selected for them. Blocks of peers, announced or
    asked for in a sync, enter through the same confirm boundary; the node manager
    carries those messages and drops copies. Transactions enter the mempool through
    one function, [admitToMempool], from the submission routes, the escrow and deal
    routes, the websocket server and peers. The contact routes and the websocket
    server share one store of contact requests. At start the gateway rebuilds its
    state from chain.json, RocksDB and the durable pool. [main] starts PlatariumCore
    under a lock file, opens the handler with its stores, puts guards before the
    consensus and laboratory routes, serves until a signal and shuts down. The pages only read, with a few exceptions that
    the models show.

    ** Files

    - Prelude: [result] for Go's (value, error), wrap-around of int64 and uint64
      ([i64], [u64]), [GoRange] (the order in which a Go map is iterated, a class
      so that theorems hold for every order), list and map lemmas, the hint
      databases and tactics of the library.
    - GoStd: strings, strconv, sort.SliceStable as the source uses them.
    - GoJson: decoded JSON objects, float64 values and their conversions; what the
      language leaves open about them is the class [GoConv].
    - GoPath: path/filepath on Unix.
    - CoreRpc: core/rpc_client.go, the connection to PlatariumCore; what
      the network does to a call is an argument ([Net]).
    - CoreCalls, CoreCallsSpec: the commands of PlatariumCore (core/rust_core.go,
      arg_spill.go, consensus.go, block_proposal.go, kernel.go, block_cycle.go,
      ledger.go, rocks_store.go): arguments out, parsed answers in. The other files
      take Core as records of functions ([RustCore], [L1Core], ...) on decoded
      values, one per command.
    - Sha256: crypto/sha256, hex and big-endian words, computed in the model.
    - Tx, Dag: blockchain.go (Transaction, BlockRecord), tx_core.go, token_xp.go;
      core/dag.go (reordering by digests).
    - Chain, Pool: the [Blockchain] struct and the pool operations of
      blockchain.go and mempool_snapshot.go; their invariant and contracts.
      A transaction is shared by pointer between mempool, pending block and
      index; the one field written through that pointer, BlockNumber, is kept
      in a store of its own keyed by the pointer ([tx_ref]).
    - ForkChoice: fork_choice.go, tip_freeze.go, commit_invariant.go,
      blocks_page.go, consistency.go and the height conversion of
      core/rocks_store.go.
    - Confirm, ConfirmSpec: batch application, L2ConfirmBlock,
      ConfirmMempoolToChain, AddConfirmedBlock, undo, persistChain. [World] is
      the chain with Core's state file, its backup and chain.json; [Faults]
      chooses where copies and writes fail; what other goroutines do to the
      chain while the lock is released is a function argument [meanwhile].
    - History, HistorySpec: chain_store.go, rocks_reads.go, chain_sync.go.
    - Explorer, ExplorerSpec: lookups, listings and counters of blockchain.go.
    - TxPool: txpool/store.go. Mempool, MempoolSpec: mempool_prune.go,
      txpool_restore.go.
    - Boundary, BoundarySpec, PeerSpec: handlers/apply_confirmed_block.go and
      rocks_commit.go, and the contracts of peer blocks.
    - Deals, DealsSpec: deals/. ContactEconomy, ContactEconomySpec:
      contacteconomy/. RateLimit: ratelimit/limiter.go.
    - Rating, RatingSpec: rating/ (reputation at 64-bit width, the float64
      uptime penalty by the Standard Library's IEEE 754 specification, the
      random source as the class [GoRand]).
    - Rewards, RewardsSpec: rewards/ and distributePool, recordEarnings,
      applyOperatorBlockReward of handlers/handlers.go.
    - Votes, VotesSpec: the vote rounds of handlers.go and handlers_consensus.go,
      the vote messages of nodes/identity.go.
    - Voter, VoterSpec: the answering side of the rounds and the key file of a node
      (submitL1Vote, submitL2Vote, the proposal callbacks, nodes/identity.go).
    - DagExchange: the rest of core/dag.go and of block_logic.go.
    - L1Validate, Consensus, ConsensusSpec: validateTxsForL1 with its readers of
      error texts, l1CollectBlockRun and l2ConfirmBlockRun as a whole.
    - Nonce: allocateNonceLocked, releaseNonceLocked, clearReservedNonceLocked.
    - Ownership: protocol/, escrow/ and the ownership checks of the contact routes.
    - Messaging, MessagingSpec, MessagingLive: websocket/. Sessions are shared
      through pointers, so clients live in a store of their own; writes to sockets
      are effects, and the outcome of each write is an argument.
    - Nodes, NodesSpec: nodes/nodes.go and nodes/discovery.go.
    - PeerSockets: where the websocket server and the node manager meet (peers and
      clients told apart, announcements, the list of sockets and its JSON).
    - Admission, AdmissionSpec: the way of a transaction into the mempool
      (handlers.go), handlers_escrow_submit.go, handlers_deals.go. [Gateway] is the
      state that these routes share.
    - ContactHandlers, ContactHandlersSpec: handlers_contact_economy.go and
      handlers_escrow.go, over [Gateway] and the websocket server.
    - Sync, SyncSpec: chain_sync.go, handlers_sync.go, onBlockConfirmed and
      onFeeDistribution.
    - Startup: initChainPersistence and what it calls.
    - AutoBlock, AutoBlockSpec: auto_block.go and the consensus routes.
    - ChainLog: the abstract log of heights, the gateway as a transition system
      ([gateway_step]) and the refinement between the two.
    - TxLife: the way of one transaction through all of them, from admission over the
      pools and the runs to its block ([life_step]).
    - Faucet: faucet/cooldown.go and the faucet routes.
    - ChannelIdentity: channelidentity/store.go and its routes.
    - GoText: fields, numbers and formats of texts, and the page arithmetic, for the
      files below.
    - ChainRpc, ChainRpcSpec: handlers/chain_rpc.go and the account reads behind it.
    - ExplorerRoutes, ExplorerRoutesSpec: the explorer pages of handlers.go; a lookup that writes into the shared
      transaction object does so in the model.
    - ExploreMetrics, ExploreMetricsSpec: handlers/explore_metrics.go, rates in float64.
    - Accounts: blockchain/accounts_index.go and its route.
    - Doctor: the consistency diagnostic (blockchain/, core/ and
      handlers/consistency.go) and metrics/counters.go.
    - Daemon: core/daemon.go and NewRustCore. [OS] has files, locks and
      processes; [Machine] has several gateways, for which [daemon_step] interleaves
      starts, stops and crashes.
    - HttpGates: the table of routes, the guards and the settings of main.go,
      handlers/lab_endpoints.go.
    - WalletRoutes: balance, wallet, nonce and demo routes.
    - StatusRoutes: legacy confirmation, rewards, ratings, status
      and statistics, and the pings and metrics of nodes/nodes.go.
    - AiProxy: handlers/ai.go, handlers_e2ee.go, rewards/reporter.go.
    - EconomyFile: the file and the configuration of contacteconomy/store.go.
    - GatewayInit: NewHandler and the paths of a node's files.
    - Program: main.go from flags to exit, with logger/logger.go, network/tls.go and
      the start and stop of the servers. [boot] runs up to the listeners; then
      [event]s interleave listeners, peers, the signal and the shutdown; [system_step]
      runs several programs on one machine.

    ** What the theorems show

    - Confirmation (ConfirmSpec, BoundarySpec, PeerSpec): a confirmation with
      its finalisation is all or nothing; what a confirmed block is; a failure
      restores Core, chain.json and the explorer; the fence against changes of
      the pending block; the head of chain.json never decreases; a peer's block
      is adopted, known or refused.
    - Pools (Pool, MempoolSpec, Nonce): transactions in flight never conflict
      and are never lost; pruning and the restore at start-up; the lowest free
      nonce is allocated.
    - Reads (ForkChoice, HistorySpec, TxPool): fork choice is a strict total
      order; pages partition the history; reads never lead RocksDB; round trips
      of chain.json and of the durable pool.
    - Consensus (VotesSpec, ConsensusSpec, RatingSpec, RewardsSpec): whose votes
      an accepted round counts; the effect of whole L1 and L2 runs; scores stay
      in range and suspensions are permanent; committees are well formed; the
      fees of a block are fully accounted for.
    - Deals and contacts (DealsSpec, ContactEconomySpec): invariants over all
      sequences of operations, exact and final quorums, deterministic panels,
      the life cycle of a request, free messages exactly after acceptance.
    - Admission and routes (AdmissionSpec, ContactHandlersSpec, Ownership): what
      an admitted transaction was checked for; signed amounts; balanced nonce
      reservations; disputed deals need their quorum; a contact from the lock to
      the settlement.
    - The chain between gateways and over time (SyncSpec, ChainLog, Startup):
      the sync format round trips, one response catches up, the history refines an
      append-only log under every mix of own and foreign blocks, a restart restores
      the fee totals.
    - The life of a transaction (TxLife): confirmed at most once and for good; an
      admitted transaction that a run confirms is found at its height ever after.
    - Core (CoreRpc, CoreCallsSpec): a mutating request is served at most once;
      command lines, large arguments and requests to sign reach Core as given; path
      arguments stay in their directory.
    - Voters (VoterSpec, DagExchange): an honest vote counts, a yes stands for the
      node's own validation, an honest node is never slashed for equivocation;
      gateways agree on a committed order.
    - The worker (AutoBlockSpec): ticks terminate, a pending block never gets stuck.
    - Network and messages (MessagingSpec, MessagingLive, NodesSpec, PeerSockets): filing of
      sessions and peers, delivery of messages, rate bounds, events handled once,
      exactly which messages panic.
    - Faucet and channels (Faucet, ChannelIdentity): the cooldown holds under
      all failures; the registry survives a restart.
    - Opening and guarding a gateway (Daemon, HttpGates, GatewayInit): two
      gateways never own one Core; exactly which requests reach the guarded handlers;
      the files of a node do not collide; what a handler starts with.
    - The program as a whole (Program): nothing serves before it is complete; an
      orderly end leaves the machine as it was, any other at most the started Core;
      programs on one machine refine the machine of Daemon.
    - Nonce leases (WalletRoutes): open leases are exclusive under every
      interleaving of routes and admissions.
    - Pages and reports (ChainRpcSpec, ExplorerRoutesSpec, Accounts, StatusRoutes,
      Doctor): views of one block agree and never lead RocksDB; pages partition their
      lists without a panic; the explorer list and the ranking are exact; when the
      diagnostic says CONSISTENT.
    - Metrics and limits (ExploreMetricsSpec, AiProxy): peaks are maxima, rates are
      exact until a window is full, the limit of the proxy equals its definition.
    - Files (EconomyFile): the contact economy survives a restart and failed writes.
    - Behaviour that differs from what comments say: [undo_leaves_tip_in_chain_file],
      [peer_block_race_duplicates_height], [l1_moves_unvoted_transaction],
      [core_failure_verdict], [rounds_never_suspend],
      [page_offset_wraps_and_panics], and the examples [forged_block_number],
      [amount_rounded], [deal_lock_without_guarantor], [sync_leaves_gap],
      [announced_height_leaves_gap], [faucet_credits_refused_request],
      [channel_takeover], [yes_with_unready_transaction],
      [vote_not_bound_to_transactions], [propose_sent_twice],
      [dashed_value_becomes_flag], [full_window_goes_blind], [core_not_ok_unnoticed],
      [foreign_user_socket_removed], [volunteer_routes_open],
      [foreign_release_duplicates], [legacy_confirm_takes_unapplied],
      [volunteer_book_forgotten], [lookup_stamps_shared_object],
      [client_forgotten_at_once], [legacy_confirms_twice],
      [bodiless_block_confirms_twice], [peer_block_repeats_hash],
      [port_taken_leaves_core], [doctor_leaves_core],
      [failed_handshake_leaves_core], [certificate_without_key] and
      [stop_before_start].

    Components promise things to each other through classes and records:
    [GoRange] and [GoRand] for the run-time system, [RustCore], [RocksReads],
    [RocksStoreClient], [L1Core] and [ConsensusCore] for PlatariumCore, whose
    source is not in the repository. Every theorem holds for all their
    instances; witnesses use concrete ones.

    ** Bounds and fuel

    Recursion is structural except in a few loops with fuel: the trimming of
    spaces and the blocks of SHA-256 (fuel: the length of the input, which each
    turn shortens; [trim_left_fuel_spec] proves that it is enough), the exchange
    sort of the explorer (fuel: the length of the list) and the search for a free
    nonce (257 turns, the loop's own bound, which
    [allocated_nonce_exact] covers). The rounds of a worker's tick are bounded by
    the configured limit, as in the source ([tick_terminates]). Theorems about them
    state results, not only partial correctness. Integers wrap where the source's
    do; hypotheses such as [is_i64] say where a statement needs that they do not.

    ** What is not modelled

    The places that write log lines (the logger itself is in Program), the timers that
    start ticks and passes, the web pages, and PlatariumCore itself: input and output
    around the modelled operations. Callbacks are modelled as the set of fields
    that are not nil. The cryptography of TLS and of Ed25519 is a parameter. Helpers that
    nothing calls (extractApplyTxHash, parseStringSlice, sendRewardCreditL1) and getters
    of one field are left out. JSON is
    modelled by its fields, not its bytes;
    [JUint] also stands for the integers a handler puts in a row or a file.
    Strings are byte strings and ToLower and EqualFold are those of ASCII text.
    Locks are modelled by the places where they are released. The text of a waiting
    time is exact for cooldowns of up to some 200 days, where its float64 steps are.
    Errors of reading single files of the durable pool are left out. *)

From stdpp Require Export base gmap strings option numbers tactics list.
From stdpp Require Import sorting.

#[local] Open Scope Z_scope.

(** ** Go's error results

    A Go function that returns [(T, error)] becomes a function into
    [result T]: [Ok v] when the error is nil, [Err m] with the message of the
    [fmt.Errorf] (formatted arguments left out) otherwise. *)

Inductive result (A : Type) : Type :=
| Ok (a : A)
| Err (msg : string).
Arguments Ok {A} _.
Arguments Err {A} _.

Declare Scope go_scope.
Delimit Scope go_scope with go.

Notation "'let!' x := c1 'in' c2" :=
  (match c1 with Ok x => c2 | Err e => Err e end)
  (at level 10, x pattern, c1 at level 200, c2 at level 200) : go_scope.

Notation "'guard!' b 'else' m ;; c" :=
  (if b then c else Err m)
  (at level 10, b at level 200, m at level 9, c at level 200) : go_scope.

Definition is_ok {A} (r : result A) : bool :=
  match r with Ok _ => true | Err _ => false end.

#[export] Instance result_eq_dec {A} `{EqDecision A} : EqDecision (result A).
Proof. solve_decision. Defined.

(** ** Machine integers

    [int], [int64] and [time.Duration] are 64-bit two's complement, [uint64]
    is unsigned 64-bit. Values are kept in [Z]; an operation that can leave
    the range is followed by the wrap of its type. *)

Definition two64 : Z := 18446744073709551616.
Definition two63 : Z := 9223372036854775808.
Definition maxInt64 : Z := 9223372036854775807.
Definition minInt64 : Z := -9223372036854775808.
Definition maxUint64 : Z := 18446744073709551615.

Definition u64 (z : Z) : Z := z mod two64.
Definition i64 (z : Z) : Z := (z + two63) mod two64 - two63.

Definition is_u64 (z : Z) : Prop := 0 <= z < two64.
Definition is_i64 (z : Z) : Prop := - two63 <= z < two63.

Lemma u64_range z : is_u64 (u64 z).
Proof. unfold is_u64, u64, two64. apply Z.mod_pos_bound. lia. Qed.

Lemma i64_range z : is_i64 (i64 z).
Proof.
  unfold is_i64, i64, two64, two63.
  pose proof (Z.mod_pos_bound (z + 9223372036854775808) 18446744073709551616). lia.
Qed.

Lemma u64_small z : is_u64 z -> u64 z = z.
Proof. apply Z.mod_small. Qed.

Lemma i64_small z : is_i64 z -> i64 z = z.
Proof. unfold is_i64, i64, two63. intros H. rewrite Z.mod_small; unfold two64; lia. Qed.

(** Wrapping once at the end or after every addition is the same. *)
Lemma i64_add_l a b : i64 (i64 a + b) = i64 (a + b).
Proof.
  unfold i64. f_equal.
  replace ((a + two63) mod two64 - two63 + b + two63)
    with ((a + two63) mod two64 + b) by lia.
  rewrite Z.add_mod_idemp_l by (unfold two64; lia). f_equal. lia.
Qed.

Lemma i64_add_r a b : i64 (a + i64 b) = i64 (a + b).
Proof. rewrite Z.add_comm, i64_add_l. f_equal. lia. Qed.

Lemma i64_idemp a : i64 (i64 a) = i64 a.
Proof. apply i64_small, i64_range. Qed.

(** ** Iteration over a Go map

    [for k, v := range m] visits every entry once, in an order the language
    leaves open. The development is parametric in that order: [range] is any
    function that lists the entries of a map, and [range_perm] is all the
    language promises. Theorems hold for every instance; witnesses use
    [canonical_range]. *)

Class GoRange := {
  range : forall {A : Type}, gmap string A -> list (string * A);
  range_perm : forall {A : Type} (m : gmap string A), range m ≡ₚ map_to_list m
}.

Definition canonical_range : GoRange :=
  {| range := fun A m => map_to_list m; range_perm := fun A m => reflexivity _ |}.

Section range_lemmas.
Context {R : GoRange} {A : Type}.
Implicit Types m : gmap string A.

Lemma elem_of_range m k v : (k, v) ∈ range m <-> m !! k = Some v.
Proof. rewrite range_perm. apply elem_of_map_to_list. Qed.

Lemma range_keys_nodup m : NoDup (range m).*1.
Proof. rewrite range_perm. apply NoDup_fst_map_to_list. Qed.

Lemma range_length m : length (range m) = size m.
Proof. rewrite range_perm. apply length_map_to_list. Qed.

Lemma range_empty : range (∅ : gmap string A) = [].
Proof. apply Permutation_nil_r. by rewrite range_perm, map_to_list_empty. Qed.
End range_lemmas.

(** ** Counting occurrences, and counters kept in a map *)

Definition occ (l : list string) (h : string) : Z := Z.of_nat (count_occ String.string_dec l h).

Lemma occ_cons x l h : occ (x :: l) h = occ l h + (if decide (x = h) then 1 else 0).
Proof. unfold occ. simpl. destruct (String.string_dec x h), (decide (x = h)); done || lia. Qed.

Lemma occ_nonneg l h : 0 <= occ l h.
Proof. unfold occ. lia. Qed.

Definition cnt (m : gmap string Z) (h : string) : Z := default 0 (m !! h).

Lemma cnt_insert m k v h : cnt (<[k := v]> m) h = if decide (k = h) then v else cnt m h.
Proof. unfold cnt. rewrite lookup_insert. by case_decide. Qed.

Lemma occ_perm l1 l2 : (forall h, occ l1 h = occ l2 h) <-> l1 ≡ₚ l2.
Proof.
  rewrite (Permutation_count_occ String.string_dec). unfold occ.
  split; intros H h; specialize (H h); lia.
Qed.

(** ** Filling a map from a list *)

Lemma foldl_insert_lookup {A V} (key : A -> string) (val : A -> V) (l : list A) (m : gmap string V) k v :
  NoDup (key <$> l) ->
  foldl (fun m x => <[key x := val x]> m) m l !! k = Some v <->
  (exists x, x ∈ l /\ key x = k /\ val x = v) \/ (k ∉ key <$> l /\ m !! k = Some v).
Proof.
  revert m. induction l as [|x l IH]; intros m Hnd; cbn [foldl].
  { split; [intros ?; right; split; [apply not_elem_of_nil|done]|].
    intros [(y & Hy & _)|[_ ?]]; [by apply elem_of_nil in Hy|done]. }
  rewrite fmap_cons in *. apply NoDup_cons in Hnd as [Hx Hnd]. rewrite (IH _ Hnd).
  assert (Hxl : forall y, y ∈ l -> key y <> key x).
  { intros y Hy He. apply Hx. rewrite <- He. apply list_elem_of_fmap. by exists y. }
  destruct (decide (key x = k)) as [<-|Hne].
  - rewrite lookup_insert_eq. split.
    + intros [(y & Hy & Hk & _)|[_ [= <-]]]; [by destruct (Hxl y Hy)|]. left. exists x. split; [by left|done].
    + intros [(y & [->|Hy]%elem_of_cons & Hk & <-)|[Hn _]]; [by right|by destruct (Hxl y Hy)|].
      exfalso. apply Hn. by left.
  - rewrite lookup_insert_ne by done. split.
    + intros [(y & Hy & ?)|[? ?]]; [left; exists y; split; [by right|done]|right; split; [|done]].
      by apply not_elem_of_cons.
    + intros [(y & [->|Hy]%elem_of_cons & Hk & Hv)|[Hn ?]]; [done|left; by exists y|right].
      apply not_elem_of_cons in Hn as [_ ?]. done.
Qed.

(** ** Tactics and hint databases of the development *)

Create HintDb gateway.
Create Rewrite HintDb gateway.
Create Rewrite HintDb wrap.
#[export] Hint Resolve u64_range i64_range : gateway.
#[export] Hint Rewrite @elem_of_range : gateway.
#[export] Hint Rewrite i64_add_l i64_add_r i64_idemp : wrap.

(** [case_if]: split the [if]/[match] that blocks the goal or a hypothesis,
    keeping the equation, then clean up. *)
Ltac split_match :=
  match goal with
  | H : context [match ?x with _ => _ end] |- _ => destruct x eqn:?; simplify_eq/=
  | |- context [match ?x with _ => _ end] => destruct x eqn:?; simplify_eq/=
  end.

Ltac crush := intros; repeat split_match; try done; eauto with gateway.

(** Turn boolean tests over [Z] and strings into propositions. *)
Ltac bools :=
  repeat match goal with
  | H : (_ && _) = true |- _ => apply andb_true_iff in H; destruct H
  | H : (_ || _) = false |- _ => apply orb_false_iff in H; destruct H
  | H : negb _ = true |- _ => apply negb_true_iff in H
  | H : negb _ = false |- _ => apply negb_false_iff in H
  | H : (_ <? _) = true |- _ => apply Z.ltb_lt in H
  | H : (_ <? _) = false |- _ => apply Z.ltb_ge in H
  | H : (_ <=? _) = true |- _ => apply Z.leb_le in H
  | H : (_ <=? _) = false |- _ => apply Z.leb_gt in H
  | H : (_ =? _) = true |- _ => apply Z.eqb_eq in H
  | H : (_ =? _) = false |- _ => apply Z.eqb_neq in H
  | H : String.eqb _ _ = true |- _ => apply String.eqb_eq in H
  | H : String.eqb _ _ = false |- _ => apply String.eqb_neq in H
  | H : bool_decide _ = true |- _ => apply bool_decide_eq_true in H
  | H : bool_decide _ = false |- _ => apply bool_decide_eq_false in H
  end.
