(* ===== verification/GoStd.v ===== *)
(** * The Go standard library functions the gateway uses

    Strings are byte strings. [strings.ToLower] and [strings.EqualFold] are
    given on ASCII letters and leave every other byte alone (the addresses,
    keys and tags they are applied to are ASCII); [strings.TrimSpace] is exact
    on UTF-8 ([space_runes] lists the encodings of the white-space runes).
    [strconv.ParseInt]/[ParseUint] are base 10, bit size 64. *)

From S2P Require Import Prelude.
From stdpp Require Import pretty sorting.
From Stdlib Require Import Ascii.

#[local] Open Scope Z_scope.

(** ** strings *)

Definition len (s : string) : Z := Z.of_nat (String.length s).

Definition HasPrefix (s p : string) : bool := String.prefix p s.

Fixpoint str_drop (n : nat) (s : string) : string :=
  match n, s with
  | O, _ => s
  | S n', String _ s' => str_drop n' s'
  | S _, EmptyString => EmptyString
  end.

Fixpoint str_take (n : nat) (s : string) : string :=
  match n, s with
  | S n', String c s' => String c (str_take n' s')
  | _, _ => EmptyString
  end.

Definition TrimPrefix (s p : string) : string :=
  if HasPrefix s p then str_drop (String.length p) s else s.

Definition lower_ascii (c : ascii) : ascii :=
  let n := N_of_ascii c in
  if ((65 <=? n) && (n <=? 90))%N then ascii_of_N (n + 32) else c.

Fixpoint ToLower (s : string) : string :=
  match s with
  | EmptyString => EmptyString
  | String c s' => String (lower_ascii c) (ToLower s')
  end.

Definition EqualFold (a b : string) : bool := String.eqb (ToLower a) (ToLower b).

(** Byte-wise order, Go's [<] on strings. *)
Definition str_ltb (a b : string) : bool :=
  match String.compare a b with Lt => true | _ => false end.

Definition bytes (l : list N) : string := foldr (fun n s => String (ascii_of_N n) s) EmptyString l.

(** UTF-8 encodings of the runes for which [unicode.IsSpace] holds. *)
Definition space_runes : list string :=
  map bytes
    ([[9]; [10]; [11]; [12]; [13]; [32]; [194; 133]; [194; 160]; [225; 154; 128]]
     ++ map (fun b => [226; 128; b]) [128; 129; 130; 131; 132; 133; 134; 135; 136; 137; 138; 168; 169; 175]
     ++ [[226; 129; 159]; [227; 128; 128]])%N.

Definition strip_one (ps : list string) (s : string) : option string :=
  match filter (fun p => HasPrefix s p = true) ps with
  | p :: _ => Some (str_drop (String.length p) s)
  | [] => None
  end.

Fixpoint trim_left_fuel (ps : list string) (fuel : nat) (s : string) : string :=
  match fuel with
  | O => s
  | S f => match strip_one ps s with Some s' => trim_left_fuel ps f s' | None => s end
  end.

Definition trim_left (ps : list string) (s : string) : string :=
  trim_left_fuel ps (String.length s) s.

Fixpoint str_rev_app (s acc : string) : string :=
  match s with EmptyString => acc | String c s' => str_rev_app s' (String c acc) end.

Definition str_rev (s : string) : string := str_rev_app s EmptyString.

Definition trim_right (ps : list string) (s : string) : string :=
  str_rev (trim_left (map str_rev ps) (str_rev s)).

Definition TrimSpace (s : string) : string :=
  trim_right space_runes (trim_left space_runes s).

(** [strings.Index]: position of the first occurrence, -1 when absent. *)
Fixpoint index_from (i : Z) (s p : string) : Z :=
  if HasPrefix s p then i
  else match s with EmptyString => -1 | String _ s' => index_from (i + 1) s' p end.

Definition Index (s p : string) : Z := index_from 0 s p.

Definition Contains (s p : string) : bool := 0 <=? Index s p.

(** ** strconv *)

Definition digit (c : ascii) : option Z :=
  let n := Z.of_N (N_of_ascii c) in
  if (48 <=? n) && (n <=? 57) then Some (n - 48) else None.

Fixpoint digits_value (acc : Z) (s : string) : option Z :=
  match s with
  | EmptyString => Some acc
  | String c s' =>
      match digit c with Some d => digits_value (acc * 10 + d) s' | None => None end
  end.

(** Base-10 magnitude of a non-empty digit string. *)
Definition parse_digits (s : string) : option Z :=
  match s with EmptyString => None | _ => digits_value 0 s end.

(** A number parser returns a value together with the error flag: on a range
    error [strconv] still returns the saturated value. *)
Definition ParseUint (s : string) : Z * bool :=
  match parse_digits s with
  | None => (0, false)
  | Some n => if n <=? maxUint64 then (n, true) else (maxUint64, false)
  end.

Definition split_sign (s : string) : bool * string :=
  match s with
  | String "+" s' => (false, s')
  | String "-" s' => (true, s')
  | _ => (false, s)
  end.

Definition ParseInt (s : string) : Z * bool :=
  let '(neg, body) := split_sign s in
  match parse_digits body with
  | None => (0, false)
  | Some n =>
      if neg then (if n <=? two63 then (- n, true) else (minInt64, false))
      else (if n <=? maxInt64 then (n, true) else (maxInt64, false))
  end.

Definition FormatUint (z : Z) : string := pretty (Z.to_N z).
Definition FormatInt (z : Z) : string := if z <? 0 then "-" +:+ FormatUint (- z) else FormatUint z.

(** ** Facts *)

Lemma str_eq_dec_eqb a b : String.eqb a b = bool_decide (a = b).
Proof.
  destruct (String.eqb a b) eqn:E; bools;
    symmetry; [by apply bool_decide_eq_true | by apply bool_decide_eq_false].
Qed.

Lemma ascii_compare_refl c : Ascii.compare c c = Eq.
Proof. apply N.compare_refl. Qed.

Lemma str_compare_refl s : String.compare s s = Eq.
Proof. induction s as [|c s IH]; simpl; [done|]. by rewrite ascii_compare_refl. Qed.

Lemma str_ltb_irrefl s : str_ltb s s = false.
Proof. unfold str_ltb. by rewrite str_compare_refl. Qed.

Lemma str_ltb_asym a b : str_ltb a b = true -> str_ltb b a = false.
Proof.
  unfold str_ltb. rewrite String.compare_antisym.
  by destruct (String.compare b a).
Qed.

Lemma str_ltb_total a b : str_ltb a b = false -> str_ltb b a = false -> a = b.
Proof.
  unfold str_ltb. rewrite (String.compare_antisym a b).
  destruct (String.compare b a) eqn:E; simpl; try done.
  intros _ _. symmetry. by apply String.compare_eq_iff.
Qed.

Lemma ascii_compare_lt_trans a b c :
  Ascii.compare a b = Lt -> Ascii.compare b c = Lt -> Ascii.compare a c = Lt.
Proof. unfold Ascii.compare. rewrite !N.compare_lt_iff. lia. Qed.

Lemma str_ltb_trans a b c : str_ltb a b = true -> str_ltb b c = true -> str_ltb a c = true.
Proof.
  unfold str_ltb. revert b c.
  induction a as [|x a IH]; intros [|y b] [|z c]; simpl; try done.
  destruct (Ascii.compare x y) eqn:Exy; try done;
    destruct (Ascii.compare y z) eqn:Eyz; try done; intros Hab Hbc.
  - apply Ascii.compare_eq_iff in Exy, Eyz. subst.
    rewrite ascii_compare_refl.
    by apply (IH b c).
  - apply Ascii.compare_eq_iff in Exy. subst. by rewrite Eyz.
  - apply Ascii.compare_eq_iff in Eyz. subst. by rewrite Exy.
  - by rewrite (ascii_compare_lt_trans _ _ _ Exy Eyz).
Qed.

Lemma EqualFold_refl a : EqualFold a a = true.
Proof. apply String.eqb_refl. Qed.

Lemma EqualFold_sym a b : EqualFold a b = EqualFold b a.
Proof. apply String.eqb_sym. Qed.

Lemma EqualFold_trans a b c : EqualFold a b = true -> EqualFold b c = true -> EqualFold a c = true.
Proof. unfold EqualFold. intros. bools. apply String.eqb_eq. congruence. Qed.

Lemma lower_ascii_idemp c : lower_ascii (lower_ascii c) = lower_ascii c.
Proof. by destruct c as [[] [] [] [] [] [] [] []]. Qed.

Lemma ToLower_idemp s : ToLower (ToLower s) = ToLower s.
Proof. induction s as [|c s IH]; simpl; [done|]. by rewrite lower_ascii_idemp, IH. Qed.

Lemma digit_range c d : digit c = Some d -> 0 <= d <= 9.
Proof. unfold digit. destruct (_ && _) eqn:E; intros; simplify_eq/=. bools. lia. Qed.

Lemma digits_value_nonneg s acc n : 0 <= acc -> digits_value acc s = Some n -> acc <= n.
Proof.
  revert acc. induction s as [|c s IH]; simpl; intros acc Ha H; [simplify_eq; lia|].
  destruct (digit c) eqn:E; [|done]. apply digit_range in E. apply IH in H; lia.
Qed.

Lemma ParseUint_range s : is_u64 (ParseUint s).1.
Proof.
  unfold ParseUint, is_u64, two64, maxUint64. destruct (parse_digits s) as [n|] eqn:E; simpl; [|lia].
  assert (0 <= n).
  { unfold parse_digits in E. destruct s; [done|]. by apply digits_value_nonneg in E. }
  destruct (_ <=? _) eqn:H'; bools; simpl; lia.
Qed.

Lemma ParseInt_range s : is_i64 (ParseInt s).1.
Proof.
  unfold ParseInt, is_i64, two63, maxInt64, minInt64.
  assert (Hb : forall b n, parse_digits b = Some n -> 0 <= n).
  { intros b n H. unfold parse_digits in H. destruct b; [done|]. by apply digits_value_nonneg in H. }
  destruct (split_sign s) as [neg body].
  destruct (parse_digits body) as [n|] eqn:E; simpl; [|lia].
  apply Hb in E. destruct neg; destruct (_ <=? _) eqn:H'; bools; simpl; lia.
Qed.

(** ** Trimming *)

Lemma str_app_cons x (a b : string) : String x a +:+ b = String x (a +:+ b).
Proof. done. Qed.

Lemma str_app_assoc (a b c : string) : (a +:+ b) +:+ c = a +:+ (b +:+ c).
Proof. induction a as [|x a IH]; [done|]. by rewrite !str_app_cons, IH. Qed.

Lemma str_app_empty (a : string) : a +:+ "" = a.
Proof. induction a as [|x a IH]; [done|]. by rewrite !str_app_cons, IH. Qed.

Lemma str_rev_app_eq s acc : str_rev_app s acc = str_rev s +:+ acc.
Proof.
  unfold str_rev. revert acc. induction s as [|x s IH]; intros acc; [done|]. simpl.
  by rewrite (IH (String x acc)), (IH (String x "")), str_app_assoc, str_app_cons.
Qed.

Lemma str_rev_append a b : str_rev (a +:+ b) = str_rev b +:+ str_rev a.
Proof.
  induction a as [|x a IH]; [by rewrite str_app_empty|].
  rewrite str_app_cons. unfold str_rev at 1 3. simpl. by rewrite !str_rev_app_eq, IH, str_app_assoc.
Qed.

Lemma str_rev_involutive s : str_rev (str_rev s) = s.
Proof.
  induction s as [|x s IH]; [done|]. unfold str_rev at 2. simpl.
  by rewrite str_rev_app_eq, str_rev_append, IH.
Qed.

Lemma prefix_app p s t : HasPrefix s p = true -> HasPrefix (s +:+ t) p = true.
Proof.
  unfold HasPrefix. revert s. induction p as [|c p IH]; intros [|d s]; try done; [by destruct t|].
  rewrite str_app_cons. simpl. destruct (ascii_dec c d); [apply IH|done].
Qed.

Lemma strip_one_none ps s : strip_one ps s = None <-> forall p, p ∈ ps -> HasPrefix s p = false.
Proof.
  unfold strip_one. split.
  - destruct (filter _ ps) as [|q l] eqn:E; [|done]. intros _ p Hp.
    destruct (HasPrefix s p) eqn:Hs; [|done].
    assert (p ∈ filter (fun p => HasPrefix s p = true) ps) as Hin by by apply list_elem_of_filter.
    rewrite E in Hin. by apply elem_of_nil in Hin.
  - intros H. destruct (filter _ ps) as [|q l] eqn:E; [done|]. exfalso.
    assert (q ∈ filter (fun p => HasPrefix s p = true) ps) as [Hq Hin]%list_elem_of_filter by (rewrite E; by left).
    rewrite H in Hq; done.
Qed.

Lemma str_drop_suffix n s : exists a, s = a +:+ str_drop n s.
Proof.
  revert s. induction n as [|n IH]; intros s; [by exists ""|]. destruct s as [|c s]; [by exists ""|].
  destruct (IH s) as [a Ha]. exists (String c a). simpl. by rewrite str_app_cons, <- Ha.
Qed.

Lemma str_drop_length n s : (0 < n)%nat -> s <> "" -> (String.length (str_drop n s) < String.length s)%nat.
Proof.
  revert s. induction n as [|n IH]; [lia|]. intros [|c s] _ Hs; [done|]. simpl.
  destruct n as [|n], s as [|d s]; try (simpl; lia).
  assert (String.length (str_drop (S n) (String d s)) < String.length (String d s))%nat; [|lia].
  apply IH; [lia|done].
Qed.

Lemma strip_one_shorter ps s s' :
  (forall p, p ∈ ps -> p <> "") -> strip_one ps s = Some s' ->
  (String.length s' < String.length s)%nat /\ exists a, s = a +:+ s'.
Proof.
  intros Hps. unfold strip_one. destruct (filter _ ps) as [|q l] eqn:E; [done|]. intros [= <-].
  assert (q ∈ filter (fun p => HasPrefix s p = true) ps) as [Hq Hin]%list_elem_of_filter by (rewrite E; by left).
  split; [|apply str_drop_suffix]. specialize (Hps q Hin). destruct q as [|c q]; [done|].
  apply str_drop_length; [simpl; lia|]. by destruct s.
Qed.

Lemma trim_left_fuel_spec ps n s :
  (forall p, p ∈ ps -> p <> "") -> (String.length s <= n)%nat ->
  strip_one ps (trim_left_fuel ps n s) = None /\ exists a, s = a +:+ trim_left_fuel ps n s.
Proof.
  intros Hps. revert s. induction n as [|n IH]; intros s Hn; simpl.
  - split; [|by exists ""]. destruct s; [|simpl in Hn; lia]. apply strip_one_none. intros p Hp.
    specialize (Hps p Hp). by destruct p.
  - destruct (strip_one ps s) as [s'|] eqn:E; [|split; [done|by exists ""]].
    destruct (strip_one_shorter _ _ _ Hps E) as [Hl [a ->]]. destruct (IH s') as [H1 [b Hb]]; [lia|].
    split; [done|]. exists (a +:+ b). rewrite str_app_assoc. by rewrite <- Hb.
Qed.

Lemma trim_left_done ps s : strip_one ps s = None -> trim_left ps s = s.
Proof. unfold trim_left. intros H. destruct (String.length s); simpl; [done|]. by rewrite H. Qed.

Lemma str_rev_empty s : str_rev s = "" -> s = "".
Proof. intros H. by rewrite <- (str_rev_involutive s), H. Qed.

Lemma trim_right_spec ps s :
  (forall p, p ∈ ps -> p <> "") ->
  (exists a, s = trim_right ps s +:+ a) /\ trim_right ps (trim_right ps s) = trim_right ps s.
Proof.
  intros Hps. unfold trim_right.
  assert (Hr : forall p, p ∈ map str_rev ps -> p <> "").
  { intros p (q & -> & Hq)%list_elem_of_fmap ->%str_rev_empty. by apply (Hps ""). }
  destruct (trim_left_fuel_spec _ _ (str_rev s) Hr (le_n _)) as [H1 [a Ha]]. fold (trim_left (map str_rev ps) (str_rev s)) in *.
  split.
  - exists (str_rev a). rewrite <- str_rev_append, <- Ha. by rewrite str_rev_involutive.
  - rewrite str_rev_involutive. by rewrite (trim_left_done _ _ H1).
Qed.

Lemma space_runes_nonempty p : p ∈ space_runes -> p <> "".
Proof.
  intros Hp ->. revert Hp. apply (bool_decide_unpack _). vm_compute. done.
Qed.

Lemma TrimSpace_idemp s : TrimSpace (TrimSpace s) = TrimSpace s.
Proof.
  unfold TrimSpace. pose proof space_runes_nonempty as Hps.
  destruct (trim_left_fuel_spec _ _ s Hps (le_n _)) as [H1 _]. fold (trim_left space_runes s) in *.
  set (t := trim_left space_runes s) in *.
  destruct (trim_right_spec _ t Hps) as [[a Ha] Hi].
  rewrite (trim_left_done _ (trim_right space_runes t)); [done|].
  apply strip_one_none. intros p Hp. destruct (HasPrefix _ p) eqn:E; [|done].
  apply (prefix_app _ _ a) in E. rewrite <- Ha in E. by rewrite (proj1 (strip_one_none _ _) H1 p Hp) in E.
Qed.

(** *** Graphic ASCII bytes are not trimmed *)

Definition graphic (c : ascii) : bool := let n := N_of_ascii c in ((33 <=? n) && (n <=? 126))%N.

Fixpoint has_byte (c : ascii) (s : string) : bool :=
  match s with EmptyString => false | String d s' => Ascii.eqb c d || has_byte c s' end.

Lemma space_runes_not_graphic c p : graphic c = true -> p ∈ space_runes -> has_byte c p = false.
Proof.
  intros Hc Hp. assert (H : forallb (fun p => forallb (fun n => negb (has_byte (ascii_of_N n) p))
    (N.of_nat <$> seq 33 94)) space_runes = true) by (vm_compute; reflexivity).
  rewrite forallb_forall in H. specialize (H p). rewrite <- list_elem_of_In, forallb_forall in H.
  specialize (H Hp (N_of_ascii c)). rewrite <- list_elem_of_In in H. rewrite ascii_N_embedding in H.
  apply negb_true_iff, H. apply list_elem_of_fmap. exists (N.to_nat (N_of_ascii c)).
  unfold graphic in Hc. apply andb_true_iff in Hc as [H1%N.leb_le H2%N.leb_le].
  split; [by rewrite N2Nat.id|]. apply elem_of_seq. lia.
Qed.

Lemma has_byte_app c a b : has_byte c (a +:+ b) = has_byte c a || has_byte c b.
Proof. induction a as [|d a IH]; [done|]. rewrite str_app_cons. simpl. by rewrite IH, orb_assoc. Qed.

Lemma has_byte_rev c s : has_byte c (str_rev s) = has_byte c s.
Proof.
  induction s as [|d s IH]; [done|]. change (str_rev (String d s)) with (str_rev_app s (String d "")).
  rewrite str_rev_app_eq, has_byte_app, IH. simpl. by rewrite orb_false_r, orb_comm.
Qed.

Lemma prefix_split s p : HasPrefix s p = true -> s = p +:+ str_drop (String.length p) s.
Proof.
  unfold HasPrefix. revert s. induction p as [|c p IH]; intros s Hs; [done|]. destruct s as [|d s]; [done|].
  simpl in Hs. destruct (ascii_dec c d) as [->|]; [|done]. simpl. by rewrite str_app_cons, <- IH.
Qed.

Lemma prefix_of_app p t : HasPrefix (p +:+ t) p = true.
Proof. apply prefix_app. unfold HasPrefix. induction p as [|c p IH]; [done|]. simpl. by destruct (ascii_dec c c). Qed.

Lemma str_drop_app p t : str_drop (String.length p) (p +:+ t) = t.
Proof. induction p as [|c p IH]; [done|]. rewrite str_app_cons. apply IH. Qed.

Lemma TrimPrefix_app p t : TrimPrefix (p +:+ t) p = t.
Proof. unfold TrimPrefix. by rewrite prefix_of_app, str_drop_app. Qed.

Lemma trim_fuel_keeps ps c n s :
  (forall p, p ∈ ps -> has_byte c p = false) -> has_byte c s = true -> has_byte c (trim_left_fuel ps n s) = true.
Proof.
  intros Hps. revert s. induction n as [|n IH]; intros s Hs; [done|]. simpl.
  destruct (strip_one ps s) as [s'|] eqn:E; [|done]. apply IH. unfold strip_one in E.
  destruct (filter _ ps) as [|q l] eqn:F; [done|]. simplify_eq/=.
  assert (q ∈ filter (fun p => HasPrefix s p = true) ps) as [Hq Hin]%list_elem_of_filter by (rewrite F; by left).
  rewrite (prefix_split _ _ Hq), has_byte_app, (Hps _ Hin) in Hs. done.
Qed.

(** A graphic byte of a string is still there after trimming. *)
Lemma TrimSpace_keeps c s : graphic c = true -> has_byte c s = true -> has_byte c (TrimSpace s) = true.
Proof.
  intros Hc Hs. unfold TrimSpace, trim_right, trim_left. rewrite has_byte_rev. apply trim_fuel_keeps.
  - intros p (q & -> & Hq)%list_elem_of_fmap. rewrite has_byte_rev. by apply space_runes_not_graphic.
  - rewrite has_byte_rev. apply trim_fuel_keeps; [|done]. intros p. by apply space_runes_not_graphic.
Qed.

Lemma TrimSpace_nonempty c s : graphic c = true -> has_byte c s = true -> TrimSpace s <> "".
Proof. intros Hc Hs H. pose proof (TrimSpace_keeps c s Hc Hs) as Hk. by rewrite H in Hk. Qed.

(** Strings that start and end with graphic bytes are trimmed already. *)
Lemma strip_graphic ps c s :
  (forall p, p ∈ ps -> p <> "" /\ has_byte c p = false) -> strip_one ps (String c s) = None.
Proof.
  intros H. apply strip_one_none. intros p Hp. destruct (H p Hp) as [Hne Hb]. destruct p as [|d p]; [done|].
  unfold HasPrefix. simpl in *. destruct (ascii_dec d c) as [->|]; [|done]. by rewrite Ascii.eqb_refl in Hb.
Qed.

Lemma TrimSpace_graphic c s d t :
  graphic c = true -> graphic d = true -> str_rev (String c s) = String d t -> TrimSpace (String c s) = String c s.
Proof.
  intros Hc Hd Hr. unfold TrimSpace, trim_right.
  assert (Hps : forall e p, graphic e = true -> p ∈ space_runes -> p <> "" /\ has_byte e p = false)
    by (intros e p He Hp; split; [by apply space_runes_nonempty|by apply space_runes_not_graphic]).
  rewrite (trim_left_done space_runes) by (apply strip_graphic; intros p; by apply Hps).
  rewrite Hr, trim_left_done; [by rewrite <- Hr, str_rev_involutive|]. apply strip_graphic.
  intros p (q & -> & Hq)%list_elem_of_fmap. rewrite has_byte_rev. destruct (Hps d q Hd Hq) as [Hne ?].
  split; [|done]. by intros ?%str_rev_empty.
Qed.

(** ** sort

    [sort.SliceStable]: insertion that places an element before the elements
    that are not less than it, from the right; stable. [sort.Slice] gives some
    sorted permutation; the models use the stable one where the keys are
    distinct, or state only sortedness and permutation. *)
Section Sort.
Context {T : Type} (less : T -> T -> bool).

Fixpoint insertStable (x : T) (l : list T) : list T :=
  match l with
  | [] => [x]
  | y :: l' => if less y x then y :: insertStable x l' else x :: y :: l'
  end.

Definition SliceStable (l : list T) : list T := foldr insertStable [] l.

Definition notLess (a b : T) : Prop := less b a = false.

Lemma insertStable_perm x l : insertStable x l ≡ₚ x :: l.
Proof.
  induction l as [|y l IH]; simpl; [done|]. destruct (less y x); [|done].
  rewrite IH. apply Permutation_swap.
Qed.

Lemma SliceStable_perm l : SliceStable l ≡ₚ l.
Proof. induction l as [|x l IH]; simpl; [done|]. by rewrite insertStable_perm, IH. Qed.

Hypothesis less_asym : forall a b, less a b = true -> less b a = false.
Hypothesis notLess_trans : forall a b c, notLess a b -> notLess b c -> notLess a c.

Lemma insertStable_sorted x l : StronglySorted notLess l -> StronglySorted notLess (insertStable x l).
Proof.
  induction 1 as [|y l Hl IH Hy]; simpl.
  { constructor; [constructor|constructor]. }
  destruct (less y x) eqn:E.
  - constructor; [done|]. rewrite insertStable_perm. constructor; [|done].
    by apply less_asym.
  - constructor; [by constructor|]. constructor; [done|].
    eapply Forall_impl; [done|]. intros z Hz. by apply notLess_trans with y.
Qed.

Lemma SliceStable_sorted l : StronglySorted notLess (SliceStable l).
Proof. induction l as [|x l IH]; simpl; [constructor|]. by apply insertStable_sorted. Qed.

(** Sorting is canonical when ties are equal elements: the outcome does not
    depend on the order of arrival. *)
Lemma SliceStable_canonical l1 l2 :
  (forall a b, a ∈ l1 -> b ∈ l1 -> notLess a b -> notLess b a -> a = b) ->
  l1 ≡ₚ l2 -> SliceStable l1 = SliceStable l2.
Proof.
  intros Hanti Hp.
  apply (StronglySorted_unique_strong notLess); [|apply SliceStable_sorted..|].
  - intros a b Ha Hb. rewrite SliceStable_perm in Ha, Hb. apply Hanti; [done|by rewrite Hp].
  - by rewrite !SliceStable_perm.
Qed.
End Sort.
