(* ===== verification/GoJson.v ===== *)
(** * Decoded JSON: Go's map[string]interface{} and float64

    encoding/json decodes a number into a float64. Doubles are the Standard
    Library's IEEE 754 specification (53 bits of precision, exponent bound
    1024); [float64_exact] shows that integers up to 2^53 survive the trip and
    [float64_inexact] that the next one does not. A type assertion such as
    [data["x"].(string)] is a reader that yields the zero value when the field
    is absent or of another type. *)

From S2P Require Import Prelude GoStd.
From Stdlib Require Import Floats.SpecFloat.

#[local] Open Scope Z_scope.

(** ** float64 *)

(** [float64(z)] and [int64(f)]: truncation towards zero; a value outside of
    the 64-bit range converts to the smallest [int64], as the hardware
    conversion does. *)
Definition float64 (z : Z) : spec_float := binary_normalize 53 1024 z 0 (z <? 0).

Definition float_mul (a b : spec_float) : spec_float := SFmul 53 1024 a b.

(** The integer part of a finite double. *)
Definition float_trunc (neg : bool) (m : positive) (e : Z) : Z :=
  let v := if 0 <=? e then Z.pos m * 2 ^ e else Z.pos m / 2 ^ (- e) in
  if neg then - v else v.

Definition int64_of_float (f : spec_float) : Z :=
  match f with
  | S754_zero _ => 0
  | S754_finite neg m e =>
      let v := float_trunc neg m e in
      if (minInt64 <=? v) && (v <=? maxInt64) then v else minInt64
  | S754_infinity _ | S754_nan => minInt64
  end.

(** [uint64(f)]. The language leaves the result open when the truncated value
    is not a uint64: [u64_open] is that choice of the implementation.
    [float_digits] is the integer that encoding/json writes for an integral double
    of 2^53 or more, the shortest digits that read back as the same double. *)
Class GoConv := {
  u64_open : spec_float -> Z;
  u64_open_range : forall f, is_u64 (u64_open f);
  float_digits : spec_float -> Z
}.

Definition uint64_of_float {C : GoConv} (f : spec_float) : Z :=
  match f with
  | S754_zero _ => 0
  | S754_finite neg m e =>
      let v := float_trunc neg m e in
      if (0 <=? v) && (v <=? maxUint64) then v else u64_open f
  | S754_infinity _ | S754_nan => u64_open f
  end.

Definition zero_conv : GoConv.
Proof.
  refine {| u64_open := fun _ => 0; u64_open_range := _; float_digits := int64_of_float |}.
  intros _. unfold is_u64, two64. lia.
Defined.

(** [v <= 0] and [v != math.Trunc(v)]. *)
Definition float_pos (f : spec_float) : bool := SFltb (S754_zero false) f.

Definition float_integral (f : spec_float) : bool :=
  match f with
  | S754_zero _ => true
  | S754_finite _ m e => (0 <=? e) || (Z.pos m mod 2 ^ (- e) =? 0)
  | S754_infinity _ => true
  | S754_nan => false
  end.

(** The integer literal that encoding/json writes for a double, if it writes one:
    a fraction or a value from 10^21 on is written with a point or an exponent. *)
Definition float_literal {C : GoConv} (f : spec_float) : option Z :=
  match f with
  | S754_zero _ => Some 0
  | S754_finite neg m e =>
      let v := float_trunc neg m e in
      if negb (float_integral f) || (10 ^ 21 <=? Z.abs v) then None
      else Some (if Z.abs v <? 2 ^ 53 then v else float_digits f)
  | S754_infinity _ | S754_nan => None
  end.

(** ** Values

    [JUint] is a [uint64] that the gateway itself puts into a decoded object. *)

Inductive jval :=
| JNull
| JUint (n : Z)
| JBool (b : bool)
| JNumber (f : spec_float)
| JString (s : string)
| JArray (l : list jval)
| JObject (m : list (string * jval)).

(** A decoded object. The model lists its entries; the last entry of a key is
    the one that counts, as when a decoder assigns them in turn. *)
Notation jobj := (list (string * jval)).

Fixpoint jget (m : jobj) (k : string) : option jval :=
  match m with
  | [] => None
  | (k', v) :: m' =>
      match jget m' k with
      | Some w => Some w
      | None => if String.eqb k k' then Some v else None
      end
  end.

(** [v, _ := data[k].(string)] and its companions. *)
Definition getString (m : jobj) (k : string) : string :=
  match jget m k with Some (JString s) => s | _ => "" end.

Definition getFloat (m : jobj) (k : string) : option spec_float :=
  match jget m k with Some (JNumber f) => Some f | _ => None end.

Definition getBool (m : jobj) (k : string) : option bool :=
  match jget m k with Some (JBool b) => Some b | _ => None end.

Definition getObject (m : jobj) (k : string) : jobj :=
  match jget m k with Some (JObject o) => o | _ => [] end.

Definition getArray (m : jobj) (k : string) : option (list jval) :=
  match jget m k with Some (JArray l) => Some l | _ => None end.

Definition getInt (m : jobj) (k : string) : Z :=
  match getFloat m k with Some f => int64_of_float f | None => 0 end.

Definition getUint64 {C : GoConv} (m : jobj) (k : string) : Z :=
  match jget m k with
  | Some (JNumber f) => uint64_of_float f
  | Some (JString s) => if String.eqb s "" then 0 else let '(v, ok) := ParseUint s in if ok then v else 0
  | _ => 0
  end.

(** ** Unmarshalling a decoded object into a struct

    [json.Marshal] writes the keys in order; [json.Unmarshal] assigns each entry
    to the field whose name equals the key up to case, a later one over an
    earlier one. A value of the wrong type is an error; null leaves strings and
    numbers alone and empties slices and pointers. *)
Definition keyLess (a b : string * jval) : bool := str_ltb a.1 b.1.

Definition fieldEntries (m : jobj) (tag : string) : list jval :=
  snd <$> filter (fun kv => EqualFold kv.1 tag = true)
            (SliceStable keyLess (map_to_list (list_to_map (reverse m) : gmap string jval))).

Definition field {A} (assign : A -> jval -> option A) (zero : A) (m : jobj) (tag : string) : option A :=
  foldl (fun acc v => a ← acc; assign a v) (Some zero) (fieldEntries m tag).

Definition asString (old : string) (v : jval) : option string :=
  match v with JString s => Some s | JNull => Some old | _ => None end.

(** The literal of a number, and whether it carries a minus sign. *)
Definition literal {C : GoConv} (v : jval) : option (Z * bool) :=
  match v with
  | JNumber f => n ← float_literal f; Some (n, match f with S754_zero s => s | _ => n <? 0 end)
  | JUint n => Some (n, false)
  | _ => None
  end.

Definition asInt64 {C : GoConv} (old : Z) (v : jval) : option Z :=
  match v with
  | JNull => Some old
  | _ => '(n, _) ← literal v; if (minInt64 <=? n) && (n <=? maxInt64) then Some n else None
  end.

Definition asUnsigned {C : GoConv} (bound : Z) (v : jval) : option Z :=
  '(n, minus) ← literal v; if negb minus && (n <=? bound) then Some n else None.

Definition asUint64 {C : GoConv} (old : Z) (v : jval) : option Z :=
  match v with JNull => Some old | _ => asUnsigned maxUint64 v end.

Definition asUint8Ptr {C : GoConv} (old : option Z) (v : jval) : option (option Z) :=
  match v with JNull => Some None | _ => Some <$> asUnsigned 255 v end.

Definition asStrings (old : list string) (v : jval) : option (list string) :=
  match v with
  | JNull => Some []
  | JArray l => mapM (asString "") l
  | _ => None
  end.

(** What an encoder writes for an integer and a decoder reads back. *)
Definition jint (z : Z) : jval := JNumber (float64 z).

(** ** Exactness of float64 on integers *)

Lemma digits2_pos_bound p : 2 ^ (Z.pos (digits2_pos p) - 1) <= Z.pos p < 2 ^ Z.pos (digits2_pos p).
Proof.
  induction p as [p IH|p IH|]; cbn [digits2_pos].
  - rewrite Pos2Z.inj_succ. replace (Z.succ (Z.pos (digits2_pos p)) - 1) with (Z.succ (Z.pos (digits2_pos p) - 1)) by lia.
    rewrite !Z.pow_succ_r by lia. lia.
  - rewrite Pos2Z.inj_succ. replace (Z.succ (Z.pos (digits2_pos p)) - 1) with (Z.succ (Z.pos (digits2_pos p) - 1)) by lia.
    rewrite !Z.pow_succ_r by lia. lia.
  - simpl. lia.
Qed.

Lemma digits2_pos_shift p d : digits2_pos (Pos.iter xO p d) = (digits2_pos p + d)%positive.
Proof.
  induction d as [|d IH] using Pos.peano_ind; simpl; [lia|]. rewrite Pos.iter_succ. simpl. rewrite IH. lia.
Qed.

Lemma iter_xO p d : Z.pos (Pos.iter xO p d) = Z.pos p * 2 ^ Z.pos d.
Proof.
  induction d as [|d IH] using Pos.peano_ind; [simpl; lia|].
  rewrite Pos.iter_succ, Pos2Z.inj_succ, Z.pow_succ_r by lia. rewrite Pos2Z.inj_xO, IH. lia.
Qed.

Lemma digits_small p k : 0 <= k -> Z.pos p < 2 ^ k -> Z.pos (digits2_pos p) <= k.
Proof.
  intros Hk Hp. destruct (Z.le_gt_cases (Z.pos (digits2_pos p)) k) as [|Hgt]; [done|].
  pose proof (digits2_pos_bound p) as [Hlo _].
  assert (2 ^ k <= 2 ^ (Z.pos (digits2_pos p) - 1)) by (apply Z.pow_le_mono_r; lia). lia.
Qed.

(** A mantissa of at most 53 bits is rounded to itself. *)
Lemma round_aux_exact neg m e :
  fexp 53 1024 (Z.pos (digits2_pos m) + e) = e -> e <= 971 ->
  binary_round_aux 53 1024 neg (Z.pos m) e loc_Exact = S754_finite neg m e.
Proof.
  intros Hf He. unfold binary_round_aux, shr_fexp. simpl Zdigits2. rewrite Hf, Z.sub_diag. simpl.
  rewrite Hf, Z.sub_diag. simpl. by rewrite (proj2 (Z.leb_le _ _)) by lia.
Qed.

Lemma binary_round_int neg p :
  Z.pos p < 2 ^ 53 ->
  exists m e, binary_round 53 1024 neg p 0 = S754_finite neg m e /\ e <= 0 /\ Z.pos m = Z.pos p * 2 ^ (- e).
Proof.
  intros Hp. pose proof (digits_small p 53 ltac:(lia) Hp) as Hd.
  assert (Hf : fexp 53 1024 (Z.pos (digits2_pos p) + 0) = Z.pos (digits2_pos p) - 53)
    by (unfold fexp, emin; lia).
  unfold binary_round, shl_align. rewrite Hf.
  destruct (Z.pos (digits2_pos p) - 53 - 0) as [|d|d] eqn:E; try lia.
  - exists p, 0. rewrite round_aux_exact; [|unfold fexp, emin; lia|lia]. repeat split; lia.
  - exists (Pos.iter xO p d), (Z.neg d). replace (Z.pos (digits2_pos p) - 53) with (Z.neg d) by lia.
    rewrite round_aux_exact; [split; [done|split; [lia|apply iter_xO]]| |lia].
    rewrite digits2_pos_shift, Pos2Z.inj_add. unfold fexp, emin. lia.
Qed.

Lemma float_trunc_int neg m e p :
  e <= 0 -> Z.pos m = Z.pos p * 2 ^ (- e) -> float_trunc neg m e = if neg then Z.neg p else Z.pos p.
Proof.
  intros He Hm. unfold float_trunc.
  assert (Hv : (if 0 <=? e then Z.pos m * 2 ^ e else Z.pos m / 2 ^ (- e)) = Z.pos p).
  { destruct (Z.leb_spec 0 e) as [H0|H0].
    - replace e with 0 in * by lia. rewrite Hm. simpl. lia.
    - rewrite Hm, Z.div_mul; [done|]. apply Z.pow_nonzero; lia. }
  rewrite Hv. by destruct neg.
Qed.

(** Integers below 2^53 in absolute value pass through float64 unchanged. *)
Lemma float64_exact z : Z.abs z < 2 ^ 53 -> int64_of_float (float64 z) = z.
Proof.
  intros Hz. unfold float64. destruct z as [|p|p]; [done| |]; cbn [binary_normalize].
  - destruct (binary_round_int false p) as (m & e & -> & He & Hm); [lia|]. cbn [int64_of_float uint64_of_float].
    rewrite (float_trunc_int _ _ _ p) by done. cbv iota. unfold minInt64, maxInt64. destruct (_ && _) eqn:E; [done|]. apply andb_false_iff in E. rewrite !Z.leb_gt in E. lia.
  - change (Z.pos p < 2 ^ 53) in Hz. destruct (binary_round_int true p) as (m & e & -> & He & Hm); [lia|]. cbn [int64_of_float uint64_of_float].
    rewrite (float_trunc_int _ _ _ p) by done. cbv iota. unfold minInt64, maxInt64.
    destruct (_ && _) eqn:E; [done|]. apply andb_false_iff in E. rewrite !Z.leb_gt in E. lia.
Qed.

Lemma float64_u64_exact {C : GoConv} z : 0 <= z < 2 ^ 53 -> uint64_of_float (float64 z) = z.
Proof.
  intros Hz. unfold float64. destruct z as [|p|p]; [done| |lia]; cbn [binary_normalize].
  destruct (binary_round_int false p) as (m & e & -> & He & Hm); [lia|]. cbn [int64_of_float uint64_of_float].
  rewrite (float_trunc_int _ _ _ p) by done. cbv iota. unfold maxUint64. destruct (_ && _) eqn:E; [done|]. apply andb_false_iff in E. rewrite !Z.leb_gt in E. lia.
Qed.

Example float64_inexact : int64_of_float (float64 (2 ^ 53 + 1)) = 2 ^ 53.
Proof. vm_compute. reflexivity. Qed.

#[export] Hint Rewrite float64_exact @float64_u64_exact using lia : gateway.

(** ** Decoding a field that the gateway has set

    Among the keys that equal a lower-case name up to case, the name itself comes
    last in the order of the keys, so its value is the one that is assigned last. *)
Lemma fold_before k : str_ltb k (ToLower k) = true \/ k = ToLower k.
Proof.
  induction k as [|c k IH]; [by right|]. cbn [ToLower]. unfold str_ltb in *. cbn [String.compare].
  destruct (decide (lower_ascii c = c)) as [->|Hc].
  - replace (Ascii.compare c c) with Eq by (symmetry; unfold Ascii.compare; apply N.compare_refl).
    destruct IH as [IH|IH]; [by left|right; by f_equal].
  - left. replace (Ascii.compare c (lower_ascii c)) with Lt; [done|].
    destruct c as [[] [] [] [] [] [] [] []]; try (by vm_compute); by destruct Hc.
Qed.

Lemma keyLess_asym a b : keyLess a b = true -> keyLess b a = false.
Proof. apply str_ltb_asym. Qed.

Lemma keyLess_trans a b c : notLess keyLess a b -> notLess keyLess b c -> notLess keyLess a c.
Proof.
  unfold notLess, keyLess. intros H1 H2. destruct (str_ltb c.1 a.1) eqn:E; [|done].
  destruct (str_ltb b.1 c.1) eqn:E2; [by rewrite (str_ltb_trans _ _ _ E2 E) in H1|].
  rewrite (str_ltb_total _ _ H2 E2) in E. congruence.
Qed.

Lemma field_set_last (m : jobj) tag v : ToLower tag = tag -> exists l, fieldEntries (m ++ [(tag, v)]) tag = l ++ [v].
Proof.
  intros Ht. unfold fieldEntries. set (M := list_to_map (reverse (m ++ [(tag, v)])) : gmap string jval).
  assert (HM : M !! tag = Some v) by (unfold M; rewrite reverse_app; simpl; by rewrite lookup_insert_eq).
  pose proof (SliceStable_perm keyLess (map_to_list M)) as Hp.
  pose proof (SliceStable_sorted keyLess keyLess_asym keyLess_trans (map_to_list M)) as Hs.
  set (L := SliceStable keyLess (map_to_list M)) in *. clearbody L.
  assert (Hin : (tag, v) ∈ L) by (rewrite Hp; by apply elem_of_map_to_list).
  apply list_elem_of_split in Hin as (l1 & l2 & ->).
  exists (snd <$> filter (fun kv => EqualFold kv.1 tag = true) l1).
  rewrite filter_app, filter_cons_True, fmap_app, fmap_cons by (apply EqualFold_refl). simpl. do 2 f_equal.
  destruct (filter _ l2) as [|[k w] rest] eqn:Ef; [done|exfalso].
  assert (Hkw : (k, w) ∈ filter (fun kv => EqualFold kv.1 tag = true) l2) by (rewrite Ef; by left).
  apply list_elem_of_filter in Hkw as [Hf Hk].
  assert (Hnd : NoDup (l1 ++ (tag, v) :: l2).*1) by (rewrite Hp; apply NoDup_fst_map_to_list).
  assert (Hne : k <> tag).
  { intros ->. rewrite fmap_app, fmap_cons in Hnd. apply NoDup_app in Hnd as (_ & _ & Hnd). apply NoDup_cons in Hnd as [Hnd _].
    apply Hnd, list_elem_of_fmap. by exists (tag, w). }
  assert (Hle : notLess keyLess (tag, v) (k, w)).
  { clear -Hs Hk. induction l1 as [|x l1 IH]; simpl in Hs; inversion Hs as [|? ? Hs' Hx]; subst; [|by apply IH].
    by apply (proj1 (Forall_forall _ _) Hx). }
  unfold EqualFold in Hf. simpl in Hf. apply String.eqb_eq in Hf. rewrite Ht in Hf. unfold notLess, keyLess in Hle. simpl in Hle.
  destruct (fold_before k) as [Hk'|Hk']; rewrite Hf in Hk'; congruence.
Qed.

Lemma field_last {A} (assign : A -> jval -> option A) zero m tag x l v :
  fieldEntries m tag = l ++ [v] -> field assign zero m tag = Some x -> exists a, assign a v = Some x.
Proof.
  unfold field. intros ->. rewrite foldl_app. simpl. intros (a & _ & Ha)%bind_Some. by exists a.
Qed.

Lemma uint_field_set {C : GoConv} (m : jobj) tag n x :
  ToLower tag = tag -> field asUint64 0 (m ++ [(tag, JUint n)]) tag = Some x -> x = n.
Proof.
  intros Ht Hf. destruct (field_set_last m tag (JUint n) Ht) as [l Hl].
  destruct (field_last _ _ _ _ _ _ _ Hl Hf) as [a Ha]. simpl in Ha. unfold asUnsigned in Ha. simpl in Ha.
  destruct (n <=? maxUint64); by simplify_eq.
Qed.
