(* ===== verification/GoPath.v ===== *)
(** * path/filepath on Unix, as the gateway uses it

    Lexical cleaning of paths: [Clean], [Join], [Dir] and [Abs] with the working
    directory as an argument. *)

From S2P Require Import Prelude GoStd.

#[local] Open Scope Z_scope.

Definition slash : Ascii.ascii := Ascii.ascii_of_N 47.

(** The parts between slashes. *)
Fixpoint splitSlash (s : string) : list string :=
  match s with
  | EmptyString => [""]
  | String c s' =>
      match splitSlash s' with
      | part :: parts => if Ascii.eqb c slash then "" :: part :: parts else String c part :: parts
      | [] => [""]
      end
  end.

Fixpoint joinSlash (l : list string) : string :=
  match l with
  | [] => ""
  | [x] => x
  | x :: l' => x +:+ String slash (joinSlash l')
  end.

(** The cleaned parts, last one first: ".." removes the part before it, is dropped at
    the root and kept at the start of a relative path. *)
Definition cleanStep (rooted : bool) (out : list string) (part : string) : list string :=
  if String.eqb part "" || String.eqb part "." then out
  else if String.eqb part ".." then
    match out with
    | [] => if rooted then [] else [".."]
    | last :: rest => if String.eqb last ".." then ".." :: out else rest
    end
  else part :: out.

Definition IsAbs (path : string) : bool := HasPrefix path "/".

Definition cleanParts (path : string) : list string := reverse (foldl (cleanStep (IsAbs path)) [] (splitSlash path)).

Definition Clean (path : string) : string :=
  if IsAbs path then String slash (joinSlash (cleanParts path))
  else match cleanParts path with [] => "." | parts => joinSlash parts end.

(** [filepath.Join]: empty elements are left out. *)
Definition PathJoin (elems : list string) : string :=
  match filter (fun e => e <> "") elems with [] => "" | l => Clean (joinSlash l) end.

(** [filepath.Dir]: everything before the last slash, cleaned. *)
Definition PathDir (path : string) : string :=
  match reverse (tail (reverse (splitSlash path))) with
  | [] => "."
  | before => Clean (joinSlash before +:+ "/")
  end.

Definition Abs (cwd path : string) : string := if IsAbs path then Clean path else PathJoin [cwd; path].

Example clean1 : Clean "/a/b/../../../c//./d/" = "/c/d". Proof. vm_compute. reflexivity. Qed.
Example clean2 : Clean "../../a/.." = "../..". Proof. vm_compute. reflexivity. Qed.
Example clean3 : Clean "" = "." /\ Clean "/" = "/" /\ Clean "a/.." = ".". Proof. vm_compute. done. Qed.
Example dir1 : PathDir "data/core-state.json" = "data" /\ PathDir "x.json" = "." /\ PathDir "/x" = "/". Proof. vm_compute. done. Qed.

(** ** Parts of clean paths *)

Definition plain (part : string) : Prop := part <> "" /\ part <> "." /\ part <> "..".

Lemma clean_rooted_plain parts out : Forall plain out -> Forall plain (foldl (cleanStep true) out parts).
Proof.
  revert out. induction parts as [|p parts IH]; intros out Hout; [done|]. simpl. apply IH. unfold cleanStep.
  destruct (String.eqb_spec p ""); simpl; [done|]. destruct (String.eqb_spec p "."); simpl; [done|].
  destruct (String.eqb_spec p ".."); [|by constructor].
  destruct Hout as [|last rest (? & ? & Hl) Hr]; [done|]. by rewrite (proj2 (String.eqb_neq _ _) Hl).
Qed.

Lemma cleanParts_abs_plain path : IsAbs path = true -> Forall plain (cleanParts path).
Proof. intros Ha. unfold cleanParts. rewrite Ha. apply Forall_reverse. by apply clean_rooted_plain. Qed.

(** ** Splitting and joining *)

Definition noSlash (part : string) : Prop := splitSlash part = [part].

Lemma split_noSlash s : Forall noSlash (splitSlash s).
Proof.
  induction s as [|c s IH]; [by repeat constructor|]. cbn [splitSlash]. destruct (splitSlash s) as [|part parts]; [by repeat constructor|].
  apply Forall_cons in IH as [Hp Hps]. destruct (Ascii.eqb c slash) eqn:E; [by repeat constructor|]. constructor; [|done].
  unfold noSlash in *. cbn [splitSlash]. by rewrite Hp, E.
Qed.

Lemma split_nonempty s : splitSlash s <> [].
Proof. destruct s as [|c s]; [done|]. cbn [splitSlash]. destruct (splitSlash s); [done|]. by destruct (Ascii.eqb c slash). Qed.

Lemma split_append part s : noSlash part -> splitSlash (part +:+ String slash s) = part :: splitSlash s.
Proof.
  unfold noSlash. revert s. induction part as [|c part IH]; intros s Hp.
  - change ("" +:+ String slash s) with (String slash s). cbn [splitSlash]. destruct (splitSlash s) eqn:E; [by destruct (split_nonempty s)|].
    by rewrite Ascii.eqb_refl.
  - rewrite str_app_cons. cbn [splitSlash] in *. destruct (splitSlash part) as [|q qs] eqn:E; [by destruct (split_nonempty part)|].
    destruct (Ascii.eqb c slash) eqn:Ec; [done|]. injection Hp as -> ->. by rewrite IH.
Qed.

Lemma split_join parts : parts <> [] -> Forall noSlash parts -> splitSlash (joinSlash parts) = parts.
Proof.
  intros Hne Hp. induction Hp as [|p parts Hp Hps IH]; [done|]. destruct parts as [|q parts]; [done|].
  cbn [joinSlash]. rewrite split_append by done. f_equal. by apply IH.
Qed.

Lemma cleanStep_from parts : forall out, Forall noSlash out -> Forall noSlash parts -> Forall noSlash (foldl (cleanStep true) out parts).
Proof.
  induction parts as [|p parts IH]; intros out Ho Hp; [done|]. apply Forall_cons in Hp as [Hp Hps]. simpl. apply IH; [|done].
  unfold cleanStep. destruct (_ || _); [done|]. destruct (String.eqb p ".."); [|by constructor].
  destruct Ho as [|last rest Hl Hr]; [done|]. destruct (String.eqb last ".."); [|done]. by repeat constructor.
Qed.

(** The parts of a clean absolute path: none of them goes up. *)
Lemma Clean_parts path : IsAbs path = true -> ".." ∉ splitSlash (Clean path).
Proof.
  intros Ha. unfold Clean. rewrite Ha. pose proof (cleanParts_abs_plain path Ha) as Hpl.
  assert (Hns : Forall noSlash (cleanParts path)).
  { unfold cleanParts. rewrite Ha. apply Forall_reverse, cleanStep_from; [done|apply split_noSlash]. }
  change (String slash (joinSlash (cleanParts path))) with ("" +:+ String slash (joinSlash (cleanParts path))).
  rewrite split_append by done. rewrite elem_of_cons. intros [|Hin]; [done|].
  destruct (decide (cleanParts path = [])) as [He|He]; [rewrite He in Hin; by apply list_elem_of_singleton in Hin|].
  rewrite split_join in Hin by done. rewrite Forall_forall in Hpl. by apply Hpl in Hin as (_ & _ & ?).
Qed.

Lemma Abs_no_up cwd path : IsAbs cwd = true -> ".." ∉ splitSlash (Abs cwd path).
Proof.
  intros Hc. unfold Abs. destruct (IsAbs path) eqn:Hp; [by apply Clean_parts|]. unfold PathJoin.
  rewrite filter_cons_True by (by intros ->). destruct (decide (path = "")) as [->|Hne].
  - rewrite filter_cons_False by (by intros []). by apply Clean_parts.
  - rewrite filter_cons_True by done. apply Clean_parts. cbn [filter list_filter joinSlash]. revert Hc. unfold IsAbs, HasPrefix.
    destruct cwd as [|c cwd]; [done|]. by destruct cwd.
Qed.
