(* ===== verification/Dag.v ===== *)
(** * internal/core/dag.go: digest order of a batch

    The pure parts of the DAG client: the overlap count, the reordering of a
    batch along a committed digest order and the committee list. The RPC calls
    to Core ([DagPropose], [DagIngest], ...) are not modelled. *)

From S2P Require Import Prelude GoStd.
From stdpp Require Import sorting.

#[local] Open Scope Z_scope.

(** [DigestOverlapCount]: how many commit digests occur in the batch. *)
Definition digest_set (l : list string) : gset string :=
  list_to_set (filter (fun d => d <> "") l).

Definition DigestOverlapCount (commitDigests batchDigests : list string) : Z :=
  let set := digest_set batchDigests in
  Z.of_nat (length (filter (fun d => d ∈ set) commitDigests)).

(** [PermuteByDigests]: the index of the first item carrying each hash, the
    pass along the digests that marks items used, the tail of unused items. *)
Section Permute.
Context {T : Type} (hashOf : T -> string).

Fixpoint firstIndex (i : nat) (items : list T) : gmap string nat :=
  match items with
  | [] => ∅
  | it :: rest =>
      let m := firstIndex (S i) rest in
      if String.eqb (hashOf it) "" then m else <[hashOf it := i]> m
  end.

(** The loop over [orderedDigests]: positions taken, in order, and the set of
    positions already used. *)
Fixpoint takeOrdered (index : gmap string nat) (used : gset nat) (ds : list string)
  : list nat * gset nat :=
  match ds with
  | [] => ([], used)
  | d :: ds' =>
      match index !! d with
      | Some i =>
          if decide (i ∈ used) then takeOrdered index used ds'
          else let '(out, used') := takeOrdered index ({[i]} ∪ used) ds' in (i :: out, used')
      | None => takeOrdered index used ds'
      end
  end.

Definition PermuteByDigests (orderedDigests : list string) (items : list T) : list T :=
  if decide (length items <= 1)%nat then items
  else match orderedDigests with
  | [] => items
  | _ =>
      let index := firstIndex 0 items in
      let '(front, used) := takeOrdered index ∅ orderedDigests in
      let back := filter (fun i => i ∉ used) (seq 0 (length items)) in
      omap (fun i => items !! i) (front ++ back)
  end.

(** ** Lemmas *)

Lemma firstIndex_bounds i items h k :
  firstIndex i items !! h = Some k ->
  (i <= k < i + length items)%nat /\ exists it, items !! (k - i)%nat = Some it /\ hashOf it = h.
Proof.
  revert i. induction items as [|it rest IH]; intros i; simpl; [done|].
  assert (IH' : firstIndex (S i) rest !! h = Some k ->
    (i <= k < i + S (length rest))%nat /\
    exists it', (it :: rest) !! (k - i)%nat = Some it' /\ hashOf it' = h).
  { intros H. apply IH in H as [Hb (it' & Hl & He)]. split; [lia|]. exists it'.
    replace (k - i)%nat with (S (k - S i)) by lia. done. }
  destruct (String.eqb _ _) eqn:E; [exact IH'|]. bools.
  destruct (decide (hashOf it = h)) as [<-|Hne].
  - rewrite lookup_insert_eq. intros [= <-]. split; [lia|].
    exists it. by rewrite Nat.sub_diag.
  - rewrite lookup_insert_ne by done. exact IH'.
Qed.

Lemma takeOrdered_spec index used ds out used' :
  takeOrdered index used ds = (out, used') ->
  NoDup out /\ (forall i, i ∈ out -> i ∉ used) /\
  (forall i, i ∈ used' <-> i ∈ used \/ i ∈ out) /\
  (forall i, i ∈ out -> exists d, index !! d = Some i).
Proof.
  revert used out used'. induction ds as [|d ds IH]; simpl; intros used out used' H.
  { simplify_eq. repeat split; try set_solver. constructor. }
  destruct (index !! d) as [i|] eqn:Ei; [|by apply IH].
  case_decide as Hi; [by apply IH|].
  destruct (takeOrdered _ _ ds) as [out1 used1] eqn:E. simplify_eq.
  apply IH in E as (Hnd & Hdis & Hu & Hix).
  repeat split.
  - constructor; [|done]. intros Hin. apply Hdis in Hin. set_solver.
  - intros j [->|Hj]%elem_of_cons; [done|]. apply Hdis in Hj. set_solver.
  - rewrite Hu. set_solver.
  - rewrite Hu. set_solver.
  - intros j [->|Hj]%elem_of_cons; eauto.
Qed.

Lemma omap_lookup_seq (items : list T) :
  omap (fun i => items !! i) (seq 0 (length items)) = items.
Proof.
  assert (H : forall k l, (forall j, items !! (k + j)%nat = l !! j) ->
    omap (fun i => items !! i) (seq k (length l)) = l).
  { intros k l. revert k. induction l as [|x l IH]; intros k Hl; [done|]. simpl.
    pose proof (Hl 0%nat) as H0. rewrite Nat.add_0_r in H0. rewrite H0. simpl. f_equal.
    apply IH. intros j. specialize (Hl (S j)). simpl in Hl.
    by rewrite Nat.add_succ_r in Hl. }
  by apply H.
Qed.

Lemma front_back_perm (front : list nat) (used : gset nat) n :
  NoDup front -> (forall i, i ∈ used <-> i ∈ front) -> (forall i, i ∈ front -> (i < n)%nat) ->
  front ++ filter (fun i => i ∉ used) (seq 0 n) ≡ₚ seq 0 n.
Proof.
  intros Hnd Hu Hlt. apply NoDup_Permutation.
  - apply NoDup_app. split; [done|]. split; [|apply NoDup_filter, NoDup_seq].
    intros i Hi Hf. apply list_elem_of_filter in Hf as [Hf _]. set_solver.
  - apply NoDup_seq.
  - intros i. rewrite elem_of_app, list_elem_of_filter, elem_of_seq.
    destruct (decide (i ∈ front)) as [Hi|Hi].
    + apply Hlt in Hi as Hi'. split; [lia|]. by left.
    + assert (i ∉ used) by set_solver. split; [intros [?|[??]]; [done|lia]|]. right. split; [done|lia].
Qed.

(** The reordering neither drops nor duplicates an item. *)
Lemma PermuteByDigests_perm ds items : PermuteByDigests ds items ≡ₚ items.
Proof.
  unfold PermuteByDigests. case_decide; [done|]. destruct ds as [|d ds']; [done|].
  destruct (takeOrdered _ _ _) as [front used] eqn:E.
  apply takeOrdered_spec in E as (Hnd & _ & Hu & Hix).
  rewrite (front_back_perm front used (length items)); [by rewrite omap_lookup_seq|done|..].
  - intros i. rewrite Hu. set_solver.
  - intros i Hi. destruct (Hix i Hi) as [d' Hd]. apply firstIndex_bounds in Hd. lia.
Qed.
End Permute.

(** [BuildDagCommittee]: sorted unique node ids of this node and its peers. *)
Definition str_le (a b : string) : Prop := str_ltb b a = false.
#[export] Instance str_le_dec a b : Decision (str_le a b).
Proof. unfold str_le. apply _. Defined.

#[export] Instance str_le_total : Total str_le.
Proof.
  intros a b. unfold str_le. destruct (str_ltb b a) eqn:E; [|by left].
  right. by apply str_ltb_asym.
Qed.

#[export] Instance str_le_trans : Transitive str_le.
Proof.
  unfold str_le. intros a b c Hab Hbc.
  destruct (str_ltb c a) eqn:Hca; [|done].
  destruct (str_ltb b c) eqn:Hb'.
  - by rewrite (str_ltb_trans b c a) in Hab.
  - assert (b = c) as -> by (apply str_ltb_total; done). congruence.
Qed.

Definition SortStrings (l : list string) : list string := merge_sort str_le l.

Definition BuildDagCommittee (selfID : string) (peerIDs : list string) : list string :=
  SortStrings (elements (digest_set (selfID :: peerIDs))).
