(* ===== verification/Tx.v ===== *)
(** * Transactions and block records (internal/blockchain)

    [Transaction] and [BlockRecord] of blockchain.go, the fee and amount
    readers, the Core JSON view of tx_core.go, the asset names of token_xp.go.

    A [*Transaction] is shared between the index, the pools and the address
    lists, and one of its fields, [BlockNumber], is assigned through the
    pointer. The record below holds the identity of the object ([tx_ref]) and
    the fields that are never assigned once the object is built; [BlockNumber]
    lives in the chain's store, keyed by [tx_ref] (file Chain). A possibly nil
    pointer is an [option Transaction]. *)

From S2P Require Import Prelude GoStd.
From stdpp Require Import pretty.

#[local] Open Scope Z_scope.

Record Transaction := mkTx {
  tx_ref : positive;
  tx_Hash : string;
  tx_From : string;
  tx_To : string;
  tx_Value : string;
  tx_Fee : string;
  tx_Nonce : Z;
  tx_Timestamp : Z;
  tx_Type : string;
  tx_AssetType : string;
  tx_ContractAddress : string;
  tx_SigMain : string;
  tx_SigDerived : string;
  tx_PubMain : string;
  tx_PubDerived : string;
  tx_Asset : string;
  tx_AmountUplp : Z;
  tx_FeeUplp : Z;
  tx_Reads : list string;
  tx_Writes : list string;
  tx_RequestIDHash : string;
  tx_EscrowID : string;
  tx_Purpose : string;
  tx_ExpiresAt : Z;
  tx_SettleOutcome : option Z;
  tx_SettleOutcomeKey : string;
  tx_SettlePayee : string;
  tx_SettleNode : string
}.

#[export] Instance Transaction_eq_dec : EqDecision Transaction.
Proof. solve_decision. Defined.

Record BlockRecord := mkBlock {
  b_BlockNumber : Z;
  b_Timestamp : Z;
  b_TxHashes : list string;
  b_TxCount : Z;
  b_TotalFees : Z;
  b_BlockHash : string;
  b_MerkleRoot : string;
  b_StateRoot : string;
  b_PreviousHash : string;
  b_ProducerNodeID : string;
  b_L1Yes : Z;
  b_L1No : Z;
  b_L2Yes : Z;
  b_L2No : Z;
  b_DurationMs : Z;
  b_L1Beneficiary : string;
  b_L2Confirmer : string;
  b_L1Votes : gmap string bool;
  b_L2Votes : gmap string bool
}.

#[export] Instance BlockRecord_eq_dec : EqDecision BlockRecord.
Proof. solve_decision. Defined.

(** [BlockRecord{}]: Go's zero value. *)
Definition zeroBlock : BlockRecord :=
  mkBlock 0 0 [] 0 0 "" "" "" "" "" 0 0 0 0 0 "" "" ∅ ∅.

Definition FaucetAddress : string := "faucet".
Definition MicroPLPPerPLP : Z := 1000000.

(** [parseFee]: the error of [ParseInt] is dropped, so an out-of-range text
    yields the saturated bound; negative values become 0. *)
Definition parseFee (fee : string) : Z :=
  if String.eqb fee "" then 0
  else let n := (ParseInt fee).1 in if n <? 0 then 0 else n.

(** The fee charged to the block: the decimal field, or [FeeUplp] converted to
    [int64] when that field is empty or zero. *)
Definition confirmFee (tx : Transaction) : Z :=
  let fee := parseFee (tx_Fee tx) in
  if (fee =? 0) && (0 <? tx_FeeUplp tx) then i64 (tx_FeeUplp tx) else fee.

Definition parseAmount (tx : Transaction) : Z :=
  if 0 <? tx_AmountUplp tx then tx_AmountUplp tx
  else if String.eqb (tx_Value tx) "" then 0
  else let '(n, ok) := ParseUint (tx_Value tx) in if ok then n else 0.

(** ** Core JSON *)

Inductive json :=
| JStr (s : string)
| JNum (n : Z)
| JStrs (l : list string).

#[export] Instance json_eq_dec : EqDecision json.
Proof. solve_decision. Defined.

(** The JSON object handed to Core, as the map [ToCoreJSON] marshals. *)
Notation coreJSON := (gmap string json).

Definition putIf (b : bool) (k : string) (v : json) (m : coreJSON) : coreJSON :=
  if b then <[k := v]> m else m.

Definition nonEmpty (s : string) : bool := negb (String.eqb s "").

Definition parseUintOr0 (s : string) : Z :=
  if String.eqb s "" then 0 else let '(n, ok) := ParseUint s in if ok then n else 0.

Definition escrowKind (t : string) : bool :=
  bool_decide (t ∈ ["escrow_lock"; "escrow_settle"; "escrow_refund"; "escrow_cancel";
                    "contact_escrow_lock"; "contact_escrow_settle"]).

Definition coreAsset (tx : Transaction) : string :=
  if String.eqb (tx_Asset tx) "" then "PLP" else tx_Asset tx.

Definition coreAmount (tx : Transaction) : Z :=
  if tx_AmountUplp tx =? 0 then parseUintOr0 (tx_Value tx) else tx_AmountUplp tx.

Definition coreFee (tx : Transaction) : Z :=
  let f := if tx_FeeUplp tx =? 0 then parseUintOr0 (tx_Fee tx) else tx_FeeUplp tx in
  if f =? 0 then 1 else f.

Definition coreEscrowID (tx : Transaction) : string :=
  let rid := tx_EscrowID tx in
  let rid := if String.eqb rid "" then tx_RequestIDHash tx else rid in
  if String.eqb rid "" && nonEmpty (tx_ContractAddress tx) && escrowKind (tx_Type tx)
  then tx_ContractAddress tx else rid.

Definition coreFields (tx : Transaction) : coreJSON :=
  list_to_map
    [("hash", JStr (tx_Hash tx)); ("from", JStr (tx_From tx)); ("to", JStr (tx_To tx));
     ("asset", JStr (coreAsset tx)); ("amount", JNum (coreAmount tx));
     ("fee_uplp", JNum (coreFee tx)); ("nonce", JNum (tx_Nonce tx));
     ("reads", JStrs (tx_Reads tx)); ("writes", JStrs (tx_Writes tx));
     ("sig_main", JStr (tx_SigMain tx)); ("sig_derived", JStr (tx_SigDerived tx))].

Definition coreOptional (tx : Transaction) (m : coreJSON) : coreJSON :=
  let rid := coreEscrowID tx in
  let m := putIf (0 <? tx_Timestamp tx) "timestamp" (JNum (tx_Timestamp tx)) m in
  let m := putIf (nonEmpty (tx_PubMain tx)) "pub_main" (JStr (tx_PubMain tx)) m in
  let m := putIf (nonEmpty (tx_PubDerived tx)) "pub_derived" (JStr (tx_PubDerived tx)) m in
  let m := putIf (escrowKind (tx_Type tx)) "tx_kind" (JStr (tx_Type tx)) m in
  let m := putIf (nonEmpty rid) "escrow_id" (JStr rid) m in
  let m := putIf (nonEmpty rid) "request_id_hash" (JStr rid) m in
  let m := putIf (nonEmpty (tx_Purpose tx)) "purpose" (JStr (tx_Purpose tx)) m in
  let m := putIf (0 <? tx_ExpiresAt tx) "expires_at" (JNum (tx_ExpiresAt tx)) m in
  let m := putIf (nonEmpty (tx_SettleOutcomeKey tx)) "settle_outcome_key"
                 (JStr (tx_SettleOutcomeKey tx)) m in
  let m := match tx_SettleOutcome tx with
           | Some o => <["settle_outcome" := JNum o]> m | None => m end in
  let m := putIf (nonEmpty (tx_SettlePayee tx)) "settle_payee" (JStr (tx_SettlePayee tx)) m in
  putIf (nonEmpty (tx_SettleNode tx)) "settle_node" (JStr (tx_SettleNode tx)) m.

(** [ToCoreJSON]: refused for nil, faucet and unsigned transactions. *)
Definition ToCoreJSON (p : option Transaction) : option coreJSON :=
  match p with
  | None => None
  | Some tx =>
      if String.eqb (tx_From tx) FaucetAddress then None
      else if String.eqb (tx_SigMain tx) "" then None
      else Some (coreOptional tx (coreFields tx))
  end.

(** ** Asset names (token_xp.go) *)

Definition TokenXP : string := "Token:XP".

Definition CanonicalAsset (asset : string) : string :=
  let a := TrimSpace asset in
  if String.eqb a "" || EqualFold a "PLP" then "PLP"
  else if HasPrefix (ToLower a) "token:" then
    let sym := TrimSpace (str_drop (String.length "Token:") a) in
    if EqualFold sym "XP" then TokenXP else "Token:" +:+ sym
  else if EqualFold a "XP" then TokenXP
  else "Token:" +:+ a.

Definition IsNonTransferableAsset (asset : string) : bool :=
  String.eqb (CanonicalAsset asset) TokenXP.

Definition TokenXPFromMap (tokens : gmap string string) : string :=
  match tokens !! TokenXP with
  | Some v => if nonEmpty v then v
              else match tokens !! "XP" with
                   | Some w => if nonEmpty w then w else "0" | None => "0" end
  | None => match tokens !! "XP" with
            | Some w => if nonEmpty w then w else "0" | None => "0" end
  end.

(** ** Classification of escrow rows (mempool_prune.go, chain_store.go) *)

Definition isIndexedDeal (tx : Transaction) : bool :=
  String.eqb (tx_Purpose tx) "deal" || String.eqb (tx_Type tx) "escrow_lock".

(** [bn] is the object's current [BlockNumber]. *)
Definition escrowAwaitingBlock (tx : Transaction) (bn : Z) : bool :=
  if String.eqb (tx_Hash tx) "" || String.eqb (tx_SigMain tx) "" then false
  else if 0 <? bn then false
  else bool_decide (tx_Type tx ∈ ["escrow_lock"; "escrow_settle"; "escrow_cancel"; "escrow_refund"])
       || String.eqb (tx_Purpose tx) "deal".

(** ** Lemmas *)

Lemma parseFee_range fee : 0 <= parseFee fee < two63.
Proof.
  unfold parseFee. pose proof (ParseInt_range fee) as H. unfold is_i64, two63 in *.
  destruct (String.eqb fee ""); [lia|].
  destruct (_ <? _) eqn:E; bools; lia.
Qed.

Lemma coreFee_positive tx : 0 <= tx_FeeUplp tx -> 1 <= coreFee tx.
Proof.
  unfold coreFee. intros H.
  assert (0 <= parseUintOr0 (tx_Fee tx)).
  { unfold parseUintOr0. destruct (String.eqb _ _); [lia|].
    pose proof (ParseUint_range (tx_Fee tx)) as Hr. unfold is_u64 in Hr.
    destruct (ParseUint (tx_Fee tx)) as [n []]; simpl in *; lia. }
  set (f := if tx_FeeUplp tx =? 0 then parseUintOr0 (tx_Fee tx) else tx_FeeUplp tx).
  assert (0 <= f) by (subst f; destruct (tx_FeeUplp tx =? 0); lia).
  destruct (f =? 0) eqn:E2; bools; lia.
Qed.

Lemma lookup_putIf_ne b k k' v m : k' <> k -> putIf b k' v m !! k = m !! k.
Proof. intros H. unfold putIf. destruct b; [by rewrite lookup_insert_ne|done]. Qed.

Definition optionalKeys : list string :=
  ["timestamp"; "pub_main"; "pub_derived"; "tx_kind"; "escrow_id"; "request_id_hash"; "purpose";
   "expires_at"; "settle_outcome_key"; "settle_outcome"; "settle_payee"; "settle_node"].

Lemma lookup_coreOptional tx m k : k ∉ optionalKeys -> coreOptional tx m !! k = m !! k.
Proof.
  intros Hk. unfold coreOptional. cbv zeta.
  assert (Hne : forall k', k' ∈ optionalKeys -> k' <> k) by (intros k' Hin ->; done).
  rewrite !lookup_putIf_ne by (apply Hne; unfold optionalKeys; set_solver).
  destruct (tx_SettleOutcome tx);
    [rewrite lookup_insert_ne by (apply Hne; unfold optionalKeys; set_solver)|];
    by rewrite !lookup_putIf_ne by (apply Hne; unfold optionalKeys; set_solver).
Qed.
