(* ===== verification/ForkChoice.v ===== *)
(** * Fork choice, tip freeze, commit invariant, block pages, layer consistency

    internal/blockchain: fork_choice.go, tip_freeze.go, commit_invariant.go,
    blocks_page.go, consistency.go and the height conversions of
    internal/core/rocks_store.go. *)

From S2P Require Import Prelude GoStd Tx.
From stdpp Require Import sorting.

#[local] Open Scope Z_scope.

(** ** fork_choice.go *)

Definition countYes (votes : gmap string bool) : Z :=
  Z.of_nat (length (filter (fun kv => kv.2 = true) (map_to_list votes))).

Definition PreferBlock (existing incoming : BlockRecord) : bool :=
  if negb (b_L2Yes incoming =? b_L2Yes existing) then b_L2Yes existing <? b_L2Yes incoming
  else
  let inL2 := countYes (b_L2Votes incoming) in
  let exL2 := countYes (b_L2Votes existing) in
  if negb (inL2 =? exL2) then exL2 <? inL2
  else if negb (b_L1Yes incoming =? b_L1Yes existing) then b_L1Yes existing <? b_L1Yes incoming
  else
  let inL1 := countYes (b_L1Votes incoming) in
  let exL1 := countYes (b_L1Votes existing) in
  if negb (inL1 =? exL1) then exL1 <? inL1
  else str_ltb (b_BlockHash existing) (b_BlockHash incoming).

(** ** tip_freeze.go *)

Definition CanonicalHeadNumber (memHead rocksHead : Z) (rocksOK : bool) : Z :=
  if rocksOK then rocksHead else memHead.

Definition FreezeBlockHistory (history : list BlockRecord) (rocksGatewayHead : Z) (rocksOK : bool)
  : list BlockRecord :=
  if negb rocksOK then history
  else match history with
  | [] => history
  | _ => if rocksGatewayHead <? 0 then []
         else filter (fun b => b_BlockNumber b <= rocksGatewayHead) history
  end.

Definition TipLeadsRocks (memHead rocksHead : Z) (rocksOK : bool) : bool :=
  if negb rocksOK then false else rocksHead <? memHead.

(** ** rocks_store.go: gateway block numbers (0-based) and Core heights (1-based) *)

Definition GatewayBlockToRocksHeight (blockNumber : Z) : Z := u64 (blockNumber + 1).

Definition RocksHeightToGatewayBlock (height : Z) : Z :=
  if height =? 0 then -1 else i64 (i64 height - 1).

(** ** commit_invariant.go *)

Definition CheckCommitHeightHashInvariant
    (explorerHeight : Z) (explorerHash : string) (rocksHeight : Z) (rocksHash : string)
    (explorerStateRoot rocksStateRoot : string) : result unit :=
  if negb (explorerHeight =? rocksHeight) then Err "commit invariant height diverge"
  else if String.eqb explorerHash "" || String.eqb rocksHash ""
  then Err "commit invariant missing hash"
  else if negb (String.eqb explorerHash rocksHash) then Err "commit invariant hash diverge"
  else if nonEmpty explorerStateRoot && nonEmpty rocksStateRoot
          && negb (String.eqb explorerStateRoot rocksStateRoot)
  then Err "commit invariant state_root diverge"
  else Ok tt.

(** ** blocks_page.go *)

Record BlockPageQuery := mkPageQuery {
  q_Limit : Z; q_Page : Z; q_From : option Z; q_To : option Z; q_Full : bool
}.

Definition DefaultBlockPageLimit : Z := 50.

Definition inWindow (q : BlockPageQuery) (b : BlockRecord) : bool :=
  match q_From q with Some f => negb (b_BlockNumber b <? f) | None => true end
  && match q_To q with Some t => negb (t <? b_BlockNumber b) | None => true end.

(** The insertion sort of the source: element [i] moves left past strictly
    smaller block numbers. [sinkLeft x racc] is that move on the sorted prefix
    held in reverse. *)
Fixpoint sinkLeft (x : BlockRecord) (racc : list BlockRecord) : list BlockRecord :=
  match racc with
  | [] => [x]
  | y :: r => if b_BlockNumber y <? b_BlockNumber x then y :: sinkLeft x r else x :: racc
  end.

Definition newestFirst (l : list BlockRecord) : list BlockRecord :=
  rev (foldl (fun racc x => sinkLeft x racc) [] l).

Definition pageLimit (q : BlockPageQuery) : Z :=
  let limit := if q_Limit q <=? 0 then DefaultBlockPageLimit else q_Limit q in
  if 200 <? limit then 200 else limit.

Definition pageNumber (q : BlockPageQuery) : Z := if q_Page q <? 1 then 1 else q_Page q.

(** [PageBlocks]; [None] is the slice-bounds panic of [filtered[start:end]]
    with a negative [start]. *)
Definition PageBlocks (blocks : list BlockRecord) (q : BlockPageQuery) : option (list BlockRecord) :=
  let filtered := newestFirst (filter (fun b => inWindow q b = true) blocks) in
  if q_Full q then Some filtered
  else
  let n := Z.of_nat (length filtered) in
  let start := i64 ((pageNumber q - 1) * pageLimit q) in
  if n <=? start then Some []
  else
  let end_ := i64 (start + pageLimit q) in
  let end_ := if n <? end_ then n else end_ in
  if (0 <=? start) && (start <=? end_)
  then Some (take (Z.to_nat (end_ - start)) (drop (Z.to_nat start) filtered))
  else None.

(** ** consistency.go *)

Record LayerTip := mkTip {
  t_Height : Z; t_BlockHash : string; t_StateRoot : string; t_Present : bool
}.

Definition rootsDiffer (a b : string) : bool := nonEmpty a && nonEmpty b && negb (String.eqb a b).

Definition EvaluateLayerConsistency (rocks chainJSON stateFile : LayerTip) : list string :=
  (if t_Present rocks && t_Present chainJSON && (0 <? t_Height chainJSON) then
     (if negb (t_Height rocks =? t_Height chainJSON) then ["height_mismatch"] else [])
     ++ (if rootsDiffer (t_BlockHash rocks) (t_BlockHash chainJSON) then ["hash_mismatch"] else [])
     ++ (if rootsDiffer (t_StateRoot rocks) (t_StateRoot chainJSON) then ["state_root_mismatch"] else [])
   else [])
  ++ (if t_Present rocks && t_Present stateFile && rootsDiffer (t_StateRoot rocks) (t_StateRoot stateFile)
      then ["state_file_vs_rocks_root"] else []).

Definition ConsistencyStatusConsistent : string := "CONSISTENT".
Definition ConsistencyStatusDiverged : string := "DIVERGED".

Definition StatusFromReasons (reasons : list string) : string :=
  match reasons with [] => ConsistencyStatusConsistent | _ => ConsistencyStatusDiverged end.

(** ** Fork choice is a strict order that decides every conflict *)

Lemma str_ltb_flip a b : a <> b -> str_ltb a b = negb (str_ltb b a).
Proof.
  intros Hne. destruct (str_ltb b a) eqn:E; simpl; [by apply str_ltb_asym|].
  destruct (str_ltb a b) eqn:E'; [done|]. by destruct Hne; apply str_ltb_total.
Qed.

Lemma ltb_flip (a b : Z) : a <> b -> (a <? b) = negb (b <? a).
Proof. intros. destruct (b <? a) eqn:E; bools; simpl; lia. Qed.

Lemma PreferBlock_flip a b :
  b_BlockHash a <> b_BlockHash b -> PreferBlock a b = negb (PreferBlock b a).
Proof.
  intros Hh. unfold PreferBlock.
  rewrite (Z.eqb_sym (b_L2Yes b)), (Z.eqb_sym (countYes (b_L2Votes b))),
    (Z.eqb_sym (b_L1Yes b)), (Z.eqb_sym (countYes (b_L1Votes b))).
  repeat match goal with |- context [negb (?x =? ?y)] => destruct (x =? y) eqn:?; simpl; bools end;
    auto using ltb_flip, str_ltb_flip.
Qed.

Lemma PreferBlock_trans a b c :
  PreferBlock a b = true -> PreferBlock b c = true -> PreferBlock a c = true.
Proof.
  unfold PreferBlock.
  repeat match goal with
  | |- context [negb (?x =? ?y)] => destruct (x =? y) eqn:?; simpl; bools; try lia
  end; rewrite ?Z.ltb_lt; try lia; eauto using str_ltb_trans.
Qed.

Lemma PreferBlock_irrefl a : PreferBlock a a = false.
Proof. unfold PreferBlock. rewrite !Z.eqb_refl. simpl. apply str_ltb_irrefl. Qed.

(** ** Block pages *)

Lemma sinkLeft_perm x r : sinkLeft x r ≡ₚ x :: r.
Proof.
  induction r as [|y r IH]; simpl; [done|]. destruct (_ <? _); [|done].
  rewrite IH. apply Permutation_swap.
Qed.

Lemma foldl_sink_perm l racc : foldl (fun racc x => sinkLeft x racc) racc l ≡ₚ racc ++ l.
Proof.
  revert racc. induction l as [|x l IH]; intros racc; simpl; [by rewrite app_nil_r|].
  rewrite IH, sinkLeft_perm. by rewrite <- Permutation_middle.
Qed.

Lemma newestFirst_perm l : newestFirst l ≡ₚ l.
Proof.
  unfold newestFirst. rewrite <- Permutation_rev. by rewrite foldl_sink_perm.
Qed.

Definition numLe (a b : BlockRecord) : Prop := b_BlockNumber a <= b_BlockNumber b.
Definition numGe (a b : BlockRecord) : Prop := b_BlockNumber b <= b_BlockNumber a.

Lemma sinkLeft_sorted x r : StronglySorted numLe r -> StronglySorted numLe (sinkLeft x r).
Proof.
  induction 1 as [|y r Hr IH Hy]; simpl; [repeat constructor|].
  destruct (_ <? _) eqn:E; bools.
  - constructor; [done|]. rewrite sinkLeft_perm. constructor; [unfold numLe; lia|done].
  - repeat (constructor; try done). eapply Forall_impl; [done|]. unfold numLe. lia.
Qed.

Lemma StronglySorted_rev {A} (R : relation A) l :
  StronglySorted R l -> StronglySorted (flip R) (rev l).
Proof.
  induction 1 as [|x l Hl IH Hx]; simpl; [constructor|].
  apply StronglySorted_app_2; [|done|repeat constructor].
  intros a b Ha Hb. apply list_elem_of_singleton in Hb as ->. unfold flip.
  rewrite Forall_forall in Hx. apply Hx. by rewrite <- Permutation_rev in Ha.
Qed.

Lemma newestFirst_sorted l : StronglySorted numGe (newestFirst l).
Proof.
  unfold newestFirst. apply (StronglySorted_rev numLe).
  assert (H : forall racc, StronglySorted numLe racc ->
    StronglySorted numLe (foldl (fun racc x => sinkLeft x racc) racc l)); [|apply H; constructor].
  induction l as [|x l IH]; intros racc Hr; simpl; [done|]. by apply IH, sinkLeft_sorted.
Qed.

Definition pageWindow (blocks : list BlockRecord) (q : BlockPageQuery) : list BlockRecord :=
  newestFirst (filter (fun b => inWindow q b = true) blocks).

Definition withPage (q : BlockPageQuery) (p : Z) : BlockPageQuery :=
  mkPageQuery (q_Limit q) p (q_From q) (q_To q) false.

Lemma pageLimit_range q : 1 <= pageLimit q <= 200.
Proof.
  unfold pageLimit, DefaultBlockPageLimit.
  destruct (q_Limit q <=? 0) eqn:E; simpl; bools; [lia|].
  destruct (200 <? q_Limit q) eqn:E'; bools; lia.
Qed.

Lemma take_drop_clip {A} (n m : nat) (l : list A) :
  take (Nat.min m (length l) - n) (drop n l) = take (m - n) (drop n l).
Proof.
  destruct (decide (m <= length l)%nat); [by rewrite Nat.min_l|].
  rewrite Nat.min_r by lia. rewrite !take_ge; rewrite ?length_drop; done || lia.
Qed.

(** A page whose end fits an [int] is the plain slice. *)
Lemma PageBlocks_slice blocks q p :
  1 <= p -> p * pageLimit q < two63 ->
  PageBlocks blocks (withPage q p) =
  Some (take (Z.to_nat (pageLimit q))
             (drop (Z.to_nat ((p - 1) * pageLimit q)) (pageWindow blocks q))).
Proof.
  intros Hp Hb. pose proof (pageLimit_range q) as Hl. unfold PageBlocks. simpl.
  change (newestFirst _) with (pageWindow blocks q). set (l := pageWindow blocks q).
  assert (Hpn : pageNumber (withPage q p) = p).
  { unfold pageNumber. simpl. destruct (p <? 1) eqn:E; bools; lia. }
  change (pageLimit (withPage q p)) with (pageLimit q). rewrite Hpn.
  set (L := pageLimit q) in *. unfold two63 in *.
  assert (Hr : 0 <= (p - 1) * L /\ (p - 1) * L + L = p * L) by nia.
  rewrite (i64_small ((p - 1) * L)) by (unfold is_i64, two63; lia).
  destruct (_ <=? _) eqn:E1; bools.
  { rewrite drop_ge by lia. by rewrite take_nil. }
  rewrite (i64_small (_ + L)) by (unfold is_i64, two63; lia).
  assert (He : (if Z.of_nat (length l) <? (p - 1) * L + L then Z.of_nat (length l)
                else (p - 1) * L + L) = Z.min ((p - 1) * L + L) (Z.of_nat (length l))).
  { destruct (_ <? _) eqn:E2; bools; lia. }
  rewrite He.
  replace (0 <=? (p - 1) * L) with true by (symmetry; apply Z.leb_le; lia).
  replace ((p - 1) * L <=? _) with true by (symmetry; apply Z.leb_le; lia). simpl. f_equal.
  transitivity (take (Z.to_nat ((p - 1) * L) + Z.to_nat L - Z.to_nat ((p - 1) * L))
                     (drop (Z.to_nat ((p - 1) * L)) l)); [|f_equal; lia].
  rewrite <- take_drop_clip. f_equal. lia.
Qed.

Definition pagesUpTo (blocks : list BlockRecord) (q : BlockPageQuery) (k : nat)
  : option (list BlockRecord) :=
  mjoin <$> mapM (fun i => PageBlocks blocks (withPage q (Z.of_nat i + 1))) (seq 0 k).

Definition pageSlice (L : nat) (l : list BlockRecord) (i : nat) : list BlockRecord :=
  take L (drop (i * L) l).

Lemma pageSlice_join L l k : mjoin (pageSlice L l <$> seq 0 k) = take (k * L) l.
Proof.
  induction k as [|k IH]; [done|].
  rewrite seq_S, fmap_app, join_app, IH. simpl. rewrite app_nil_r. unfold pageSlice.
  rewrite take_take_drop. f_equal. lia.
Qed.

(** ** Claims *)

(** fork choice is deterministic over the network. Of two competing blocks
    with different hashes exactly one is preferred, whichever of them a node
    already holds, and the preference is irreflexive and transitive (a strict
    total order on block hashes). *)
Theorem fork_choice_strict_order :
  (forall a, PreferBlock a a = false) /\
  (forall a b c, PreferBlock a b = true -> PreferBlock b c = true -> PreferBlock a c = true) /\
  (forall a b, b_BlockHash a <> b_BlockHash b -> PreferBlock a b = negb (PreferBlock b a)).
Proof.
  repeat split; [apply PreferBlock_irrefl|apply PreferBlock_trans|apply PreferBlock_flip].
Qed.

(** as long as the page end fits a 64-bit int, reading pages 1..k in turn
    returns the first [k * limit] blocks of the window, newest first, with
    nothing skipped or repeated; no page exceeds 200 blocks, and the window is
    a sorted permutation of the blocks in range. *)
Theorem pages_partition_history (blocks : list BlockRecord) (q : BlockPageQuery) (k : nat)
  (Hk : Z.of_nat k * pageLimit q < two63) :
  pagesUpTo blocks q k = Some (take (k * Z.to_nat (pageLimit q)) (pageWindow blocks q)) /\
  pageWindow blocks q ≡ₚ filter (fun b => inWindow q b = true) blocks /\
  StronglySorted numGe (pageWindow blocks q) /\
  1 <= pageLimit q <= 200.
Proof.
  repeat split; [|apply newestFirst_perm|apply newestFirst_sorted|apply pageLimit_range..].
  pose proof (pageLimit_range q) as Hl. unfold pagesUpTo.
  rewrite (mapM_Some_2 _ _ (pageSlice (Z.to_nat (pageLimit q)) (pageWindow blocks q) <$> seq 0 k)).
  { simpl. by rewrite pageSlice_join. }
  apply Forall2_fmap_r, Forall_Forall2_diag, Forall_forall. intros i Hi%elem_of_seq.
  rewrite PageBlocks_slice by nia. unfold pageSlice. do 3 f_equal. nia.
Qed.

(** a page number near the end of the int range makes [(page-1)*limit]
    wrap to a negative offset, and the slice expression panics, whatever the
    history: the request handler passes any positive page through. *)
Theorem page_offset_wraps_and_panics (blocks : list BlockRecord) :
  PageBlocks blocks (mkPageQuery DefaultBlockPageLimit maxInt64 None None false) = None.
Proof.
  unfold PageBlocks. cbn -[newestFirst i64].
  replace (i64 _) with (-100) by reflexivity.
  destruct (_ <=? -100) eqn:E; bools; [lia|]. done.
Qed.

(** the 0-based gateway number and the 1-based Core height convert back
    and forth without loss over the whole int64 range of a chain, and the empty
    store (height 0) is block -1. *)
Theorem height_conversion_roundtrip :
  RocksHeightToGatewayBlock 0 = -1 /\ GatewayBlockToRocksHeight (-1) = 0 /\
  (forall n, 0 <= n < maxInt64 -> RocksHeightToGatewayBlock (GatewayBlockToRocksHeight n) = n) /\
  (forall h, 0 <= h < two63 -> GatewayBlockToRocksHeight (RocksHeightToGatewayBlock h) = h).
Proof.
  unfold RocksHeightToGatewayBlock, GatewayBlockToRocksHeight.
  repeat split; try reflexivity.
  - intros n Hn. unfold maxInt64 in Hn.
    rewrite (u64_small (n + 1)) by (unfold is_u64, two64; lia).
    destruct (_ =? 0) eqn:E; bools; [lia|].
    rewrite !i64_small by (unfold is_i64, two63; try rewrite i64_small; unfold is_i64, two63; lia). lia.
  - intros h Hh. unfold two63 in Hh. destruct (h =? 0) eqn:E; bools; [by subst|].
    rewrite (i64_small h) by (unfold is_i64, two63; lia).
    rewrite i64_small by (unfold is_i64, two63; lia).
    rewrite u64_small by (unfold is_u64, two64; lia). lia.
Qed.

Lemma status_consistent_nil reasons :
  StatusFromReasons reasons = ConsistencyStatusConsistent <-> reasons = [].
Proof. by destruct reasons. Qed.

Lemma if_reason_nil (b : bool) (r : string) : (if b then [r] else []) = [] <-> b = false.
Proof. by destruct b. Qed.

(** the diagnostic reports CONSISTENT exactly when no pair of present
    layers with known values disagrees: heights (when chain.json has blocks),
    block hashes, and state roots against both chain.json and the state file. *)
Theorem consistency_status_exact (rocks chain state : LayerTip) :
  StatusFromReasons (EvaluateLayerConsistency rocks chain state) = ConsistencyStatusConsistent <->
  (t_Present rocks = true -> t_Present chain = true -> 0 < t_Height chain ->
     t_Height rocks = t_Height chain /\
     rootsDiffer (t_BlockHash rocks) (t_BlockHash chain) = false /\
     rootsDiffer (t_StateRoot rocks) (t_StateRoot chain) = false) /\
  (t_Present rocks = true -> t_Present state = true ->
     rootsDiffer (t_StateRoot rocks) (t_StateRoot state) = false).
Proof.
  rewrite status_consistent_nil. unfold EvaluateLayerConsistency.
  rewrite app_nil, if_reason_nil.
  destruct (t_Present rocks), (t_Present chain), (t_Present state); simpl;
    try (destruct (0 <? t_Height chain) eqn:E1; bools);
    rewrite ?app_nil, ?if_reason_nil, ?negb_false_iff, ?Z.eqb_eq; naive_solver lia.
Qed.

(** Witness: 75 blocks in pages of 30. *)
Definition demoBlock (n : Z) : BlockRecord :=
  mkBlock n 0 [] 0 0 "" "" "" "" "" 0 0 0 0 0 "" "" ∅ ∅.

Lemma pages_partition_history_witness :
  let q := mkPageQuery 30 1 None None false in
  let blocks := demoBlock <$> (Z.of_nat <$> seq 0 75) in
  Z.of_nat 2 * pageLimit q < two63 /\
  pagesUpTo blocks q 2 = Some (take 60 (pageWindow blocks q)).
Proof.
  intros q blocks. split; [reflexivity|].
  apply (pages_partition_history blocks q 2). reflexivity.
Defined.
