(* ===== verification/Chain.v ===== *)
(** * internal/blockchain/blockchain.go: chain state, pools and L1 collection

    [Blockchain] is the struct of the same name without its mutex, its ledger
    and its Rocks client (those are parameters, see file Confirm). Its slices
    and maps hold non-nil pointers: every entry point of the source skips nil,
    which the types record (a list that comes from outside is a list of
    options). Each operation is the body run under the lock.

    [blockNumberOf] is the shared store of the [BlockNumber] fields: assigning
    [tx.BlockNumber] through one pointer is visible through all. *)

From S2P Require Import Prelude GoStd Dag Tx ForkChoice.
From stdpp Require Import sorting.

#[local] Open Scope Z_scope.

Record Blockchain := mkBC {
  blockNumberOf : gmap positive Z;
  transactions : gmap string Transaction;
  mempool : list Transaction;
  pendingBlock : list Transaction;
  addressTxs : gmap string (list Transaction);
  lastTx : option Transaction;
  blockCounter : Z;
  blockHistory : list BlockRecord;
  totalFeesCollected : Z;
  chainFile : string;
  durableHead : Z;
  confirmedHashes : gset string;
  dagCommitDigests : list string;
  dagCommitAnchor : string;
  explorerOnlyConfirm : bool;
  peerConfirmInject : string
}.

(** Field updates. *)

Definition set_blockNumberOf (v : gmap positive Z) (bc : Blockchain) : Blockchain :=
  mkBC v (transactions bc) (mempool bc) (pendingBlock bc) (addressTxs bc) (lastTx bc) (blockCounter bc) (blockHistory bc) (totalFeesCollected bc) (chainFile bc) (durableHead bc) (confirmedHashes bc) (dagCommitDigests bc) (dagCommitAnchor bc) (explorerOnlyConfirm bc) (peerConfirmInject bc).

Definition set_transactions (v : gmap string Transaction) (bc : Blockchain) : Blockchain :=
  mkBC (blockNumberOf bc) v (mempool bc) (pendingBlock bc) (addressTxs bc) (lastTx bc) (blockCounter bc) (blockHistory bc) (totalFeesCollected bc) (chainFile bc) (durableHead bc) (confirmedHashes bc) (dagCommitDigests bc) (dagCommitAnchor bc) (explorerOnlyConfirm bc) (peerConfirmInject bc).

Definition set_mempool (v : list Transaction) (bc : Blockchain) : Blockchain :=
  mkBC (blockNumberOf bc) (transactions bc) v (pendingBlock bc) (addressTxs bc) (lastTx bc) (blockCounter bc) (blockHistory bc) (totalFeesCollected bc) (chainFile bc) (durableHead bc) (confirmedHashes bc) (dagCommitDigests bc) (dagCommitAnchor bc) (explorerOnlyConfirm bc) (peerConfirmInject bc).

Definition set_pendingBlock (v : list Transaction) (bc : Blockchain) : Blockchain :=
  mkBC (blockNumberOf bc) (transactions bc) (mempool bc) v (addressTxs bc) (lastTx bc) (blockCounter bc) (blockHistory bc) (totalFeesCollected bc) (chainFile bc) (durableHead bc) (confirmedHashes bc) (dagCommitDigests bc) (dagCommitAnchor bc) (explorerOnlyConfirm bc) (peerConfirmInject bc).

Definition set_addressTxs (v : gmap string (list Transaction)) (bc : Blockchain) : Blockchain :=
  mkBC (blockNumberOf bc) (transactions bc) (mempool bc) (pendingBlock bc) v (lastTx bc) (blockCounter bc) (blockHistory bc) (totalFeesCollected bc) (chainFile bc) (durableHead bc) (confirmedHashes bc) (dagCommitDigests bc) (dagCommitAnchor bc) (explorerOnlyConfirm bc) (peerConfirmInject bc).

Definition set_lastTx (v : option Transaction) (bc : Blockchain) : Blockchain :=
  mkBC (blockNumberOf bc) (transactions bc) (mempool bc) (pendingBlock bc) (addressTxs bc) v (blockCounter bc) (blockHistory bc) (totalFeesCollected bc) (chainFile bc) (durableHead bc) (confirmedHashes bc) (dagCommitDigests bc) (dagCommitAnchor bc) (explorerOnlyConfirm bc) (peerConfirmInject bc).

Definition set_blockCounter (v : Z) (bc : Blockchain) : Blockchain :=
  mkBC (blockNumberOf bc) (transactions bc) (mempool bc) (pendingBlock bc) (addressTxs bc) (lastTx bc) v (blockHistory bc) (totalFeesCollected bc) (chainFile bc) (durableHead bc) (confirmedHashes bc) (dagCommitDigests bc) (dagCommitAnchor bc) (explorerOnlyConfirm bc) (peerConfirmInject bc).

Definition set_blockHistory (v : list BlockRecord) (bc : Blockchain) : Blockchain :=
  mkBC (blockNumberOf bc) (transactions bc) (mempool bc) (pendingBlock bc) (addressTxs bc) (lastTx bc) (blockCounter bc) v (totalFeesCollected bc) (chainFile bc) (durableHead bc) (confirmedHashes bc) (dagCommitDigests bc) (dagCommitAnchor bc) (explorerOnlyConfirm bc) (peerConfirmInject bc).

Definition set_totalFeesCollected (v : Z) (bc : Blockchain) : Blockchain :=
  mkBC (blockNumberOf bc) (transactions bc) (mempool bc) (pendingBlock bc) (addressTxs bc) (lastTx bc) (blockCounter bc) (blockHistory bc) v (chainFile bc) (durableHead bc) (confirmedHashes bc) (dagCommitDigests bc) (dagCommitAnchor bc) (explorerOnlyConfirm bc) (peerConfirmInject bc).

Definition set_chainFile (v : string) (bc : Blockchain) : Blockchain :=
  mkBC (blockNumberOf bc) (transactions bc) (mempool bc) (pendingBlock bc) (addressTxs bc) (lastTx bc) (blockCounter bc) (blockHistory bc) (totalFeesCollected bc) v (durableHead bc) (confirmedHashes bc) (dagCommitDigests bc) (dagCommitAnchor bc) (explorerOnlyConfirm bc) (peerConfirmInject bc).

Definition set_durableHead (v : Z) (bc : Blockchain) : Blockchain :=
  mkBC (blockNumberOf bc) (transactions bc) (mempool bc) (pendingBlock bc) (addressTxs bc) (lastTx bc) (blockCounter bc) (blockHistory bc) (totalFeesCollected bc) (chainFile bc) v (confirmedHashes bc) (dagCommitDigests bc) (dagCommitAnchor bc) (explorerOnlyConfirm bc) (peerConfirmInject bc).

Definition set_confirmedHashes (v : gset string) (bc : Blockchain) : Blockchain :=
  mkBC (blockNumberOf bc) (transactions bc) (mempool bc) (pendingBlock bc) (addressTxs bc) (lastTx bc) (blockCounter bc) (blockHistory bc) (totalFeesCollected bc) (chainFile bc) (durableHead bc) v (dagCommitDigests bc) (dagCommitAnchor bc) (explorerOnlyConfirm bc) (peerConfirmInject bc).

Definition set_dagCommitDigests (v : list string) (bc : Blockchain) : Blockchain :=
  mkBC (blockNumberOf bc) (transactions bc) (mempool bc) (pendingBlock bc) (addressTxs bc) (lastTx bc) (blockCounter bc) (blockHistory bc) (totalFeesCollected bc) (chainFile bc) (durableHead bc) (confirmedHashes bc) v (dagCommitAnchor bc) (explorerOnlyConfirm bc) (peerConfirmInject bc).

Definition set_dagCommitAnchor (v : string) (bc : Blockchain) : Blockchain :=
  mkBC (blockNumberOf bc) (transactions bc) (mempool bc) (pendingBlock bc) (addressTxs bc) (lastTx bc) (blockCounter bc) (blockHistory bc) (totalFeesCollected bc) (chainFile bc) (durableHead bc) (confirmedHashes bc) (dagCommitDigests bc) v (explorerOnlyConfirm bc) (peerConfirmInject bc).

Definition set_explorerOnlyConfirm (v : bool) (bc : Blockchain) : Blockchain :=
  mkBC (blockNumberOf bc) (transactions bc) (mempool bc) (pendingBlock bc) (addressTxs bc) (lastTx bc) (blockCounter bc) (blockHistory bc) (totalFeesCollected bc) (chainFile bc) (durableHead bc) (confirmedHashes bc) (dagCommitDigests bc) (dagCommitAnchor bc) v (peerConfirmInject bc).

Definition set_peerConfirmInject (v : string) (bc : Blockchain) : Blockchain :=
  mkBC (blockNumberOf bc) (transactions bc) (mempool bc) (pendingBlock bc) (addressTxs bc) (lastTx bc) (blockCounter bc) (blockHistory bc) (totalFeesCollected bc) (chainFile bc) (durableHead bc) (confirmedHashes bc) (dagCommitDigests bc) (dagCommitAnchor bc) (explorerOnlyConfirm bc) v.

(** [NewBlockchain]. *)
Definition NewBlockchain : Blockchain :=
  mkBC ∅ ∅ [] [] ∅ None 0 [] 0 "" (-1) ∅ [] "" false "".

(** The current [BlockNumber] of an object (0 until assigned). *)
Definition BlockNumber (bc : Blockchain) (tx : Transaction) : Z :=
  default 0 (blockNumberOf bc !! tx_ref tx).

Definition setBlockNumber (tx : Transaction) (n : Z) (bc : Blockchain) : Blockchain :=
  set_blockNumberOf (<[tx_ref tx := n]> (blockNumberOf bc)) bc.

Definition addrTxs (bc : Blockchain) (a : string) : list Transaction := default [] (addressTxs bc !! a).

(** [bc.addressTxs[a] = append(bc.addressTxs[a], tx)]. *)
Definition appendAddr (a : string) (tx : Transaction) (bc : Blockchain) : Blockchain :=
  set_addressTxs (<[a := addrTxs bc a ++ [tx]]> (addressTxs bc)) bc.

Definition hashes (txs : list Transaction) : list string := tx_Hash <$> txs.

(** The non-nil entries of a slice of pointers. *)
Definition nonNil (ps : list (option Transaction)) : list Transaction := omap id ps.

(** ** DAG commit cache *)

Definition SetDagCommitDigests (anchor : string) (digests : list string) (bc : Blockchain) : Blockchain :=
  set_dagCommitDigests digests (set_dagCommitAnchor anchor bc).

Definition ClearDagCommitDigests (bc : Blockchain) : Blockchain :=
  set_dagCommitDigests [] (set_dagCommitAnchor "" bc).

(** ** Admission *)

Definition AddTransaction (tx : Transaction) (bc : Blockchain) : result Blockchain :=
  if String.eqb (tx_Hash tx) "" then Err "transaction hash is required"
  else
  let bc := set_transactions (<[tx_Hash tx := tx]> (transactions bc)) bc in
  let bc := set_lastTx (Some tx) bc in
  let bc := appendAddr (tx_From tx) tx bc in
  Ok (appendAddr (tx_To tx) tx bc).

(** The two duplicate scans of [AddToMempool]: stop at the first entry with
    the same hash (silent no-op) or the same sender and nonce (error). *)
Inductive scan := ScanFree | ScanSame | ScanNonce.

Fixpoint scanPool (tx : Transaction) (pool : list Transaction) : scan :=
  match pool with
  | [] => ScanFree
  | t :: pool' =>
      if String.eqb (tx_Hash t) (tx_Hash tx) then ScanSame
      else if String.eqb (tx_From t) (tx_From tx) && (tx_Nonce t =? tx_Nonce tx) then ScanNonce
      else scanPool tx pool'
  end.

Definition AddToMempool (tx : Transaction) (bc : Blockchain) : result Blockchain :=
  if String.eqb (tx_Hash tx) "" then Err "transaction hash is required"
  else if bool_decide (tx_Hash tx ∈ confirmedHashes bc) then Ok bc
  else match scanPool tx (pendingBlock bc) with
  | ScanSame => Ok bc
  | ScanNonce => Err "nonce is already in L1 pending"
  | ScanFree =>
      match scanPool tx (mempool bc) with
      | ScanSame => Ok bc
      | ScanNonce => Err "nonce is already in mempool"
      | ScanFree => Ok (set_mempool (mempool bc ++ [tx]) bc)
      end
  end.

(** [HighestInFlightNonce]: maximum nonce of the sender over both pools. *)
Definition consider (address : string) (acc : option Z) (tx : Transaction) : option Z :=
  if String.eqb (tx_From tx) address then
    match acc with
    | None => Some (tx_Nonce tx)
    | Some m => if m <? tx_Nonce tx then Some (tx_Nonce tx) else Some m
    end
  else acc.

Definition HighestInFlightNonce (bc : Blockchain) (address : string) : option Z :=
  foldl (consider address) (foldl (consider address) None (mempool bc)) (pendingBlock bc).

Definition holdsNonce (address : string) (nonce : Z) (tx : Transaction) : bool :=
  String.eqb (tx_From tx) address && (tx_Nonce tx =? nonce).

Definition HasInFlightNonce (bc : Blockchain) (address : string) (nonce : Z) : bool :=
  existsb (holdsNonce address nonce) (mempool bc) || existsb (holdsNonce address nonce) (pendingBlock bc).

(** [GetMempool]: stable sort by timestamp, sender, nonce, hash. *)
Definition txLess (a b : Transaction) : bool :=
  if negb (tx_Timestamp a =? tx_Timestamp b) then tx_Timestamp a <? tx_Timestamp b
  else if negb (String.eqb (tx_From a) (tx_From b)) then str_ltb (tx_From a) (tx_From b)
  else if negb (tx_Nonce a =? tx_Nonce b) then tx_Nonce a <? tx_Nonce b
  else str_ltb (tx_Hash a) (tx_Hash b).

Definition GetMempool (bc : Blockchain) : list Transaction := SliceStable txLess (mempool bc).

(** ** Pool maintenance *)

Definition keepHash (drop : gset string) (tx : Transaction) : Prop := tx_Hash tx ∉ drop.
#[export] Instance keepHash_dec drop tx : Decision (keepHash drop tx).
Proof. unfold keepHash. apply _. Defined.

(** [delete(bc.transactions, h)] for the removed, unconfirmed, non-empty hashes. *)
Definition purgeIndex (bc : Blockchain) (removed : list Transaction) : gmap string Transaction :=
  foldl (fun m tx => if nonEmpty (tx_Hash tx) && negb (bool_decide (tx_Hash tx ∈ confirmedHashes bc))
                     then delete (tx_Hash tx) m else m)
        (transactions bc) removed.

Definition RemoveFromMempool (hs : list string) (bc : Blockchain) : Blockchain :=
  match hs with
  | [] => bc
  | _ =>
      let remove : gset string := list_to_set hs in
      let dropped := filter (fun tx => tx_Hash tx ∈ remove) (mempool bc) in
      set_mempool (filter (keepHash remove) (mempool bc))
        (set_transactions (purgeIndex bc dropped) bc)
  end.

Definition SyncPendingBlock (txs : list (option Transaction)) (bc : Blockchain) : Blockchain :=
  let pend := nonNil txs in
  let hs : gset string := list_to_set (hashes pend) in
  let bc := set_pendingBlock pend bc in
  if bool_decide (hs = ∅) then bc
  else set_mempool (filter (keepHash hs) (mempool bc)) bc.

Definition SetPendingBlock (txs : list (option Transaction)) (bc : Blockchain) : Blockchain :=
  let pend := nonNil txs in
  let hs : gset string := list_to_set (hashes pend) in
  set_mempool (filter (keepHash hs) (mempool bc)) (set_pendingBlock pend bc).

(** The map [byHash] over the mempool: the last entry with a hash wins. *)
Definition byHash (pool : list Transaction) : gmap string Transaction :=
  foldl (fun m tx => if nonEmpty (tx_Hash tx) then <[tx_Hash tx := tx]> m else m) ∅ pool.

Definition GetMempoolTxsByHashes (bc : Blockchain) (hs : list string) : option (list Transaction) :=
  mapM (fun h => byHash (mempool bc) !! h) hs.

Definition SelectTxsByHashes (bc : Blockchain) (hs : list string) : list Transaction :=
  omap (fun h => byHash (mempool bc) !! h) hs.

(** [PendingBlockMatchesHashes]: the multiset comparison with the counter map
    [remaining]; each pending hash must still have a positive count. *)
Definition remainingOf (hs : list string) : gmap string Z :=
  foldl (fun m h => <[h := default 0 (m !! h) + 1]> m) ∅ hs.

Fixpoint consumeAll (remaining : gmap string Z) (pool : list Transaction) : option (gmap string Z) :=
  match pool with
  | [] => Some remaining
  | tx :: pool' =>
      let c := default 0 (remaining !! tx_Hash tx) - 1 in
      if c <? 0 then None else consumeAll (<[tx_Hash tx := c]> remaining) pool'
  end.

Definition PendingBlockMatchesHashes (bc : Blockchain) (hs : list string) : bool :=
  if negb (Nat.eqb (length hs) (length (pendingBlock bc))) then false
  else match consumeAll (remainingOf hs) (pendingBlock bc) with
  | None => false
  | Some rem => bool_decide (map_Forall (fun _ c => c = 0) rem)
  end.

(** ** L1 collection *)

(** [L1CollectBlockLimit] (limit <= 0 = all); [L1CollectBlock] is limit 0. *)
Definition L1CollectBlockLimit (limit : Z) (bc : Blockchain) : list Transaction * Blockchain :=
  let n := length (mempool bc) in
  let n := if (0 <? limit) && (limit <? Z.of_nat n) then Z.to_nat limit else n in
  let moved := take n (mempool bc) in
  (moved, set_mempool (drop n (mempool bc)) (set_pendingBlock moved bc)).

(** [L1CollectSelected]: the first mempool entry of each picked hash moves. *)
Fixpoint pickOut (pick : gset string) (pool : list Transaction) : list Transaction * list Transaction :=
  match pool with
  | [] => ([], [])
  | tx :: pool' =>
      if decide (tx_Hash tx ∈ pick) then
        let '(moved, rest) := pickOut (pick ∖ {[tx_Hash tx]}) pool' in (tx :: moved, rest)
      else
        let '(moved, rest) := pickOut pick pool' in (moved, tx :: rest)
  end.

Definition L1CollectSelected (selected : list (option Transaction)) (bc : Blockchain)
  : list Transaction * Blockchain :=
  match selected with
  | [] => ([], bc)
  | _ =>
      let pick : gset string := list_to_set (filter (fun h => h <> "") (hashes (nonNil selected))) in
      let '(moved, rest) := pickOut pick (mempool bc) in
      (moved, set_pendingBlock moved (set_mempool rest bc))
  end.

(** [AbandonPendingBlock]: returned and dropped counts and the new state. *)
Definition AbandonPendingBlock (drop : list string) (bc : Blockchain) : (nat * nat) * Blockchain :=
  match pendingBlock bc with
  | [] => ((0%nat, 0%nat), bc)
  | pend =>
      let dropSet : gset string := list_to_set (filter (fun h => h <> "") drop) in
      let live := filter (fun tx => tx_Hash tx <> "") pend in
      let dropped := filter (fun tx => tx_Hash tx ∈ dropSet) live in
      let returned := filter (keepHash dropSet) live in
      ((length returned, length dropped),
       set_pendingBlock [] (set_mempool (mempool bc ++ returned)
         (set_transactions (purgeIndex bc dropped) bc)))
  end.
