(* ===== verification/Pool.v ===== *)
(** * The transaction pools: invariants and contracts of the pool operations

    Proofs about the mempool and the L1 pending block of file Chain: no two
    transactions in flight share a hash or a (sender, nonce) pair, nothing is
    lost between the pools, reads are canonical. *)

From S2P Require Import Prelude GoStd Dag Tx ForkChoice Chain.
From stdpp Require Import sorting.

#[local] Open Scope Z_scope.

Definition inflight (bc : Blockchain) : list Transaction := mempool bc ++ pendingBlock bc.

Definition senderNonce (tx : Transaction) : string * Z := (tx_From tx, tx_Nonce tx).

(** What the pools promise to the block builder. *)
Record pools_wf (bc : Blockchain) : Prop := mkPoolsWf {
  wf_hashes : NoDup (hashes (inflight bc));
  wf_nonces : NoDup (senderNonce <$> inflight bc);
  wf_nonempty : Forall (fun tx => tx_Hash tx <> "") (inflight bc);
  wf_fresh : Forall (fun tx => tx_Hash tx ∉ confirmedHashes bc) (inflight bc)
}.

(** Every local pool operation shrinks or permutes the transactions in flight,
    except admission; this lemma carries the invariant through all of them. *)
Lemma pools_wf_submseteq bc bc' :
  pools_wf bc -> inflight bc' ⊆+ inflight bc -> confirmedHashes bc' = confirmedHashes bc ->
  pools_wf bc'.
Proof.
  intros [H1 H2 H3 H4] Hs Hc.
  assert (Hf : forall P, Forall P (inflight bc) -> Forall P (inflight bc')).
  { intros P HP. rewrite Forall_forall in HP |- *. intros x Hx.
    apply HP. by apply (elem_of_submseteq _ _ _ Hx Hs). }
  destruct (submseteq_Permutation _ _ Hs) as [k Hk].
  unfold hashes in H1. rewrite Hk, fmap_app in H1. rewrite Hk, fmap_app in H2.
  split; [apply NoDup_app in H1 as [? _]; done|apply NoDup_app in H2 as [? _]; done|auto|].
  rewrite Hc. auto.
Qed.

Lemma NoDup_fmap_snoc {A B} (f : A -> B) (l : list A) (x : A) :
  NoDup (f <$> l) -> (forall y, y ∈ l -> f y <> f x) -> NoDup (f <$> (l ++ [x])).
Proof.
  intros Hl Hx. rewrite fmap_app. apply NoDup_app. split; [done|]. split; [|apply NoDup_singleton].
  intros z (y & -> & Hy)%list_elem_of_fmap Hz. simpl in Hz. apply list_elem_of_singleton in Hz.
  by apply (Hx y).
Qed.

(** ** Admission *)

Lemma scanPool_free tx pool :
  scanPool tx pool = ScanFree <->
  Forall (fun t => tx_Hash t <> tx_Hash tx /\ senderNonce t <> senderNonce tx) pool.
Proof.
  induction pool as [|t pool IH]; simpl; [done|]. rewrite Forall_cons, <- IH. unfold senderNonce.
  destruct (String.eqb (tx_Hash t) (tx_Hash tx)) eqn:E1; bools; [naive_solver|].
  destruct (_ && _) eqn:E2; bools; simplify_eq/=; [naive_solver congruence|].
  apply andb_false_iff in E2 as [E2|E2]; bools; naive_solver.
Qed.

Lemma AddToMempool_cases tx bc bc' :
  AddToMempool tx bc = Ok bc' ->
  bc' = bc \/
  (tx_Hash tx <> "" /\ tx_Hash tx ∉ confirmedHashes bc /\
   Forall (fun t => tx_Hash t <> tx_Hash tx /\ senderNonce t <> senderNonce tx) (inflight bc) /\
   bc' = set_mempool (mempool bc ++ [tx]) bc).
Proof.
  unfold AddToMempool. intros H.
  destruct (String.eqb _ _) eqn:E1; [done|]. case_bool_decide as E2; [by left; simplify_eq|].
  destruct (scanPool tx (pendingBlock bc)) eqn:E3; [|by left; simplify_eq|done].
  destruct (scanPool tx (mempool bc)) eqn:E4; [|by left; simplify_eq|done].
  simplify_eq. right. bools. unfold inflight. rewrite Forall_app, <- !scanPool_free. done.
Qed.

Lemma AddToMempool_wf tx bc bc' : pools_wf bc -> AddToMempool tx bc = Ok bc' -> pools_wf bc'.
Proof.
  intros Hwf [->|(Hne & Hc & Hfree & ->)]%AddToMempool_cases; [done|].
  destruct Hwf as [H1 H2 H3 H4].
  assert (Hp : inflight (set_mempool (mempool bc ++ [tx]) bc) ≡ₚ inflight bc ++ [tx]).
  { unfold inflight. simpl. rewrite <- !app_assoc. f_equiv. apply Permutation_app_comm. }
  rewrite Forall_forall in Hfree.
  split; unfold hashes; rewrite ?Hp; simpl.
  - apply NoDup_fmap_snoc; [done|]. intros y Hy. by apply Hfree.
  - apply NoDup_fmap_snoc; [done|]. intros y Hy. by apply Hfree.
  - apply Forall_app. split; [done|]. by constructor.
  - apply Forall_app. split; [done|]. by constructor.
Qed.

(** ** Removal and collection *)

Lemma filter_submseteq {A} (P : A -> Prop) `{!forall x, Decision (P x)} (l : list A) : filter P l ⊆+ l.
Proof. apply sublist_submseteq, sublist_filter. Qed.

Lemma RemoveFromMempool_wf hs bc : pools_wf bc -> pools_wf (RemoveFromMempool hs bc).
Proof.
  intros H. destruct hs; simpl; [done|].
  apply (pools_wf_submseteq bc); [done| |done]. unfold inflight. simpl.
  apply submseteq_app; [apply filter_submseteq|done].
Qed.

Lemma L1CollectBlockLimit_split limit bc moved bc' :
  L1CollectBlockLimit limit bc = (moved, bc') ->
  moved ++ mempool bc' = mempool bc /\ pendingBlock bc' = moved /\
  confirmedHashes bc' = confirmedHashes bc.
Proof. unfold L1CollectBlockLimit. intros. simplify_eq. simpl. by rewrite take_drop. Qed.

Lemma pickOut_perm pick pool moved rest :
  pickOut pick pool = (moved, rest) -> moved ++ rest ≡ₚ pool.
Proof.
  revert pick moved rest. induction pool as [|tx pool IH]; simpl; intros pick moved rest H;
    [by simplify_eq|].
  case_decide; destruct (pickOut _ pool) as [m r] eqn:E; simplify_eq; apply IH in E; simpl.
  - by rewrite E.
  - by rewrite <- Permutation_middle, E.
Qed.

Lemma pickOut_moved pick pool moved rest :
  pickOut pick pool = (moved, rest) ->
  NoDup (hashes moved) /\ Forall (fun tx => tx_Hash tx ∈ pick) moved.
Proof.
  revert pick moved rest. induction pool as [|tx pool IH]; simpl; intros pick moved rest H.
  { simplify_eq. split; constructor. }
  case_decide; destruct (pickOut _ pool) as [m r] eqn:E; simplify_eq; apply IH in E as [Hnd Hin];
    [|done].
  rewrite Forall_forall in Hin. split.
  - simpl. constructor; [|done]. intros (y & Hy & Hm)%list_elem_of_fmap.
    apply Hin in Hm. set_solver.
  - constructor; [done|]. apply Forall_forall. intros y Hy%Hin. set_solver.
Qed.

Lemma L1CollectSelected_split selected bc moved bc' :
  L1CollectSelected selected bc = (moved, bc') -> selected <> [] ->
  moved ++ mempool bc' ≡ₚ mempool bc /\ pendingBlock bc' = moved /\
  NoDup (hashes moved) /\ Forall (fun tx => tx_Hash tx ∈ hashes (nonNil selected)) moved.
Proof.
  unfold L1CollectSelected. intros H Hne. destruct selected as [|p sel]; [done|].
  destruct (pickOut _ _) as [m rest] eqn:E. simplify_eq. simpl.
  pose proof (pickOut_perm _ _ _ _ E) as Hp. apply pickOut_moved in E as [Hnd Hin].
  repeat split; try done. eapply Forall_impl; [done|].
  intros tx Htx. rewrite elem_of_list_to_set, list_elem_of_filter in Htx. tauto.
Qed.

Lemma L1CollectBlockLimit_wf limit bc : pools_wf bc -> pools_wf (L1CollectBlockLimit limit bc).2.
Proof.
  intros H. destruct (L1CollectBlockLimit limit bc) as [moved bc'] eqn:E.
  apply L1CollectBlockLimit_split in E as (Hs & Hp & Hc). simpl.
  apply (pools_wf_submseteq bc); [done| |done].
  unfold inflight. rewrite Hp, (Permutation_app_comm (mempool bc')), Hs.
  apply submseteq_inserts_r. done.
Qed.

Lemma L1CollectSelected_wf selected bc : pools_wf bc -> pools_wf (L1CollectSelected selected bc).2.
Proof.
  intros H. unfold L1CollectSelected. destruct selected; [done|].
  destruct (pickOut _ _) as [m rest] eqn:E. simpl. apply pickOut_perm in E.
  apply (pools_wf_submseteq bc); [done| |done]. unfold inflight. simpl.
  rewrite (Permutation_app_comm rest), E. by apply submseteq_inserts_r.
Qed.

Lemma AbandonPendingBlock_spec drop bc r d bc' :
  pools_wf bc -> AbandonPendingBlock drop bc = ((r, d), bc') ->
  exists back gone,
    pendingBlock bc ≡ₚ back ++ gone /\ mempool bc' = mempool bc ++ back /\ pendingBlock bc' = [] /\
    Forall (fun tx => tx_Hash tx ∈ drop) gone /\ Forall (fun tx => tx_Hash tx ∉ drop) back /\
    r = length back /\ d = length gone /\ confirmedHashes bc' = confirmedHashes bc.
Proof.
  intros Hwf. unfold AbandonPendingBlock. destruct (pendingBlock bc) as [|t pend] eqn:E.
  { intros. simplify_eq. exists [], []. rewrite !app_nil_r, E. repeat split; done || constructor. }
  intros H. injection H as <- <- <-.
  set (ds := list_to_set (filter (fun h => h <> "") drop) : gset string).
  assert (Hlive : filter (fun tx => tx_Hash tx <> "") (t :: pend) = t :: pend).
  { destruct Hwf as [_ _ H3 _]. unfold inflight in H3. rewrite E in H3.
    apply Forall_app in H3 as [_ H3]. revert H3. generalize (t :: pend).
    induction 1 as [|x l Hx _ IH]; [done|]. rewrite filter_cons_True by done. by rewrite IH. }
  exists (filter (keepHash ds) (t :: pend)), (filter (fun tx => tx_Hash tx ∈ ds) (t :: pend)).
  assert (Hds : forall tx, tx ∈ t :: pend -> (tx_Hash tx ∈ ds <-> tx_Hash tx ∈ drop)).
  { intros tx Hin. unfold ds. rewrite elem_of_list_to_set, list_elem_of_filter.
    destruct Hwf as [_ _ H3 _]. unfold inflight in H3. rewrite E, Forall_app, (Forall_forall _ (t :: pend)) in H3.
    destruct H3 as [_ H3]. specialize (H3 tx Hin). naive_solver. }
  rewrite Hlive. cbn -[filter]. repeat split; try done.
  - rewrite Permutation_app_comm, <- (filter_app_complement (fun tx => tx_Hash tx ∈ ds) (t :: pend)) at 1.
    by rewrite (list_filter_iff (keepHash ds) (fun tx => tx_Hash tx ∉ ds)).
  - apply Forall_forall. intros tx [Hd Hin]%list_elem_of_filter. by apply Hds.
  - apply Forall_forall. intros tx [Hd Hin]%list_elem_of_filter. by rewrite <- Hds.
Qed.

(** ** Reads *)

Lemma txLess_asym a b : txLess a b = true -> txLess b a = false.
Proof.
  unfold txLess. rewrite (Z.eqb_sym (tx_Timestamp b)), (String.eqb_sym (tx_From b)), (Z.eqb_sym (tx_Nonce b)).
  destruct (tx_Timestamp a =? tx_Timestamp b) eqn:E1; simpl; bools; [|rewrite Z.ltb_lt, Z.ltb_ge; lia].
  destruct (String.eqb (tx_From a) (tx_From b)) eqn:E2; simpl; bools; [|apply str_ltb_asym].
  destruct (tx_Nonce a =? tx_Nonce b) eqn:E3; simpl; bools; [|rewrite Z.ltb_lt, Z.ltb_ge; lia].
  apply str_ltb_asym.
Qed.

(** Component-wise view of [txLess b a = false]: a is at most b. *)
Lemma notLess_lex a b :
  notLess txLess a b <->
  tx_Timestamp a < tx_Timestamp b \/ (tx_Timestamp a = tx_Timestamp b /\
  (str_ltb (tx_From a) (tx_From b) = true \/ (tx_From a = tx_From b /\
  (tx_Nonce a < tx_Nonce b \/ (tx_Nonce a = tx_Nonce b /\ str_le (tx_Hash a) (tx_Hash b)))))).
Proof.
  unfold notLess, txLess, str_le.
  destruct (tx_Timestamp b =? tx_Timestamp a) eqn:E1; simpl; bools; [|rewrite Z.ltb_ge; lia].
  destruct (String.eqb (tx_From b) (tx_From a)) eqn:E2; simpl; bools.
  2:{ rewrite (str_ltb_flip (tx_From b)) by done. rewrite negb_false_iff. intuition (lia || congruence). }
  rewrite E2, str_ltb_irrefl.
  destruct (tx_Nonce b =? tx_Nonce a) eqn:E3; simpl; bools; [|rewrite Z.ltb_ge; intuition (try done; lia)].
  intuition (try done; lia).
Qed.

Lemma txLess_notLess_trans a b c :
  notLess txLess a b -> notLess txLess b c -> notLess txLess a c.
Proof.
  rewrite !notLess_lex.
  intros [Ht|[Ht [Hf|[Hf [Hn|[Hn Hh]]]]]] [Ht'|[Ht' [Hf'|[Hf' [Hn'|[Hn' Hh']]]]]];
    rewrite ?Ht, ?Ht', ?Hf, ?Hf', ?Hn, ?Hn' in *; try (left; lia); right; (split; [lia|]);
    try (left; by eauto using str_ltb_trans); right; (split; [done|]); try (left; lia);
    right; (split; [lia|]); by apply (str_le_trans _ (tx_Hash b)).
Qed.

Lemma notLess_antisym_hash a b : notLess txLess a b -> notLess txLess b a -> tx_Hash a = tx_Hash b.
Proof.
  rewrite !notLess_lex. unfold str_le.
  intros [?|[? [Hf|[Hf [?|[? Hh]]]]]] [?|[? [Hf'|[Hf' [?|[? Hh']]]]]]; try lia;
    try (apply str_ltb_asym in Hf; congruence); rewrite ?Hf, ?Hf', ?str_ltb_irrefl in *; try done.
  by apply str_ltb_total.
Qed.

Lemma NoDup_fmap_inj_on {A B} (f : A -> B) (l : list A) a b :
  NoDup (f <$> l) -> a ∈ l -> b ∈ l -> f a = f b -> a = b.
Proof.
  intros Hnd [i Hi]%list_elem_of_lookup [j Hj]%list_elem_of_lookup Heq.
  assert (i = j) as ->; [|by simplify_eq].
  eapply NoDup_lookup; [done|by rewrite list_lookup_fmap, Hi|]. rewrite list_lookup_fmap, Hj. simpl. by rewrite Heq.
Qed.

(** ** PendingBlockMatchesHashes *)

Lemma remainingOf_cnt hs h : cnt (remainingOf hs) h = occ hs h.
Proof.
  unfold remainingOf.
  assert (H : forall m, cnt (foldl (fun m h => <[h := default 0 (m !! h) + 1]> m) m hs) h = cnt m h + occ hs h).
  { induction hs as [|x hs IH]; intros m; simpl; [unfold occ; simpl; lia|].
    rewrite IH, cnt_insert, occ_cons. unfold cnt. case_decide; subst; lia. }
  rewrite H. unfold cnt. rewrite lookup_empty. simpl. lia.
Qed.

Lemma consumeAll_cnt m pool m' h :
  consumeAll m pool = Some m' -> cnt m' h = cnt m h - occ (hashes pool) h.
Proof.
  revert m. induction pool as [|tx pool IH]; simpl; intros m H.
  { simplify_eq. unfold occ. simpl. lia. }
  destruct (_ <? 0) eqn:E; [done|]. bools. apply IH in H. rewrite H, cnt_insert, occ_cons.
  change (default 0 (m !! tx_Hash tx)) with (cnt m (tx_Hash tx)). case_decide; subst; lia.
Qed.

Lemma consumeAll_total m pool :
  (forall h, occ (hashes pool) h <= cnt m h) -> is_Some (consumeAll m pool).
Proof.
  revert m. induction pool as [|tx pool IH]; simpl; intros m H; [done|].
  change (default 0 (m !! tx_Hash tx)) with (cnt m (tx_Hash tx)).
  pose proof (H (tx_Hash tx)) as H0. rewrite occ_cons, decide_True in H0 by done.
  pose proof (occ_nonneg (hashes pool) (tx_Hash tx)).
  destruct (_ <? 0) eqn:E; bools; [lia|]. apply IH. intros h. specialize (H h).
  rewrite occ_cons in H. rewrite cnt_insert. case_decide; subst; lia.
Qed.

Lemma PendingBlockMatchesHashes_spec bc hs :
  PendingBlockMatchesHashes bc hs = true <-> hs ≡ₚ hashes (pendingBlock bc).
Proof.
  unfold PendingBlockMatchesHashes. split.
  - destruct (Nat.eqb _ _); simpl; [|done].
    destruct (consumeAll _ _) as [rem|] eqn:E; [|done]. intros Hz%bool_decide_eq_true.
    apply occ_perm. intros h. apply (consumeAll_cnt _ _ _ h) in E. rewrite remainingOf_cnt in E.
    assert (cnt rem h = 0); [|lia]. unfold cnt. destruct (rem !! h) eqn:Eh; [|done]. by apply Hz in Eh.
  - intros Hp. pose proof (Permutation_length Hp) as Hl. unfold hashes in Hl. rewrite length_fmap in Hl.
    rewrite Hl, Nat.eqb_refl. simpl.
    destruct (consumeAll_total (remainingOf hs) (pendingBlock bc)) as [rem Hrem].
    { intros h. rewrite remainingOf_cnt, (proj2 (occ_perm _ _) Hp). done. }
    rewrite Hrem. apply bool_decide_eq_true. intros h c Hc. apply (consumeAll_cnt _ _ _ h) in Hrem.
    unfold cnt at 1 in Hrem. rewrite Hc, remainingOf_cnt, (proj2 (occ_perm _ _) Hp) in Hrem. simpl in Hrem. lia.
Qed.

(** ** Selection by hash *)

Lemma byHash_lookup pool h tx : byHash pool !! h = Some tx -> tx ∈ pool /\ tx_Hash tx = h.
Proof.
  unfold byHash.
  assert (H : forall (m : gmap string Transaction),
    foldl (fun m tx => if nonEmpty (tx_Hash tx) then <[tx_Hash tx := tx]> m else m) m pool !! h = Some tx ->
    (m !! h = Some tx) \/ (tx ∈ pool /\ tx_Hash tx = h)).
  { induction pool as [|t pool IH]; intros m; simpl; [by left|]. intros [Hm|[Hin He]]%IH.
    - destruct (nonEmpty _); [|by left]. rewrite lookup_insert in Hm. case_decide; simplify_eq; [|by left].
      right. split; [by constructor|done].
    - right. split; [by constructor|done]. }
  intros [Hm|?]%H; [by rewrite lookup_empty in Hm|done].
Qed.

Lemma SelectTxsByHashes_hashes bc hs : hashes (SelectTxsByHashes bc hs) `sublist_of` hs.
Proof.
  unfold SelectTxsByHashes, hashes. induction hs as [|h hs IH]; simpl; [constructor|].
  destruct (byHash _ !! h) as [tx|] eqn:E; simpl; [|by constructor].
  apply byHash_lookup in E as [_ ->]. by constructor.
Qed.

Lemma SelectTxsByHashes_mempool bc hs tx : tx ∈ SelectTxsByHashes bc hs -> tx ∈ mempool bc.
Proof. intros (h & _ & Hh)%list_elem_of_omap. apply byHash_lookup in Hh as [Hh _]. done. Qed.

Lemma selected_perm_filter pool (sel : list Transaction) :
  NoDup (hashes pool) -> NoDup (hashes sel) -> (forall tx, tx ∈ sel -> tx ∈ pool) ->
  sel ≡ₚ filter (fun tx => tx_Hash tx ∈ (list_to_set (hashes sel) : gset string)) pool.
Proof.
  intros Hp Hs Hin. apply NoDup_Permutation.
  - by apply NoDup_fmap_1 in Hs.
  - apply NoDup_filter. by apply NoDup_fmap_1 in Hp.
  - intros tx. rewrite list_elem_of_filter, elem_of_list_to_set. split.
    + intros Htx. split; [by apply list_elem_of_fmap_2|auto].
    + intros [(t & Ht & Hts)%list_elem_of_fmap Htx].
      by rewrite (NoDup_fmap_inj_on tx_Hash pool tx t); auto.
Qed.

Lemma nonNil_Some (l : list Transaction) : nonNil (Some <$> l) = l.
Proof. induction l as [|x l IH]; [done|]. change (x :: nonNil (Some <$> l) = x :: l). by rewrite IH. Qed.

(** [SetPendingBlock] on a selection from the mempool moves it. *)
Lemma SetPendingBlock_selected_inflight hs bc :
  NoDup (hashes (mempool bc)) -> NoDup hs -> inflight (SetPendingBlock (Some <$> SelectTxsByHashes bc hs) bc) ⊆+ inflight bc.
Proof.
  intros Hmem Hnd. set (sel := SelectTxsByHashes bc hs). unfold inflight, SetPendingBlock. simpl. rewrite nonNil_Some.
  assert (Hsel : NoDup (hashes sel)) by (eapply sublist_NoDup; [done|apply SelectTxsByHashes_hashes]).
  assert (Hperm : filter (keepHash (list_to_set (hashes sel))) (mempool bc) ++ sel ≡ₚ mempool bc).
  { rewrite Permutation_app_comm.
    etransitivity; [apply Permutation_app_tail, (selected_perm_filter (mempool bc) sel);
                    [done|done|intros tx; apply SelectTxsByHashes_mempool]|].
    rewrite (list_filter_iff (keepHash (list_to_set (hashes sel)))
               (fun tx => tx_Hash tx ∉ (list_to_set (hashes sel) : gset string))) by done.
    apply filter_app_complement. }
  rewrite Hperm. by apply submseteq_inserts_r.
Qed.

Lemma SetPendingBlock_selected_wf hs bc :
  pools_wf bc -> NoDup hs -> pools_wf (SetPendingBlock (Some <$> SelectTxsByHashes bc hs) bc).
Proof.
  intros Hwf Hnd. apply (pools_wf_submseteq bc); [done| |done]. apply SetPendingBlock_selected_inflight; [|done].
  destruct Hwf as [H1 _ _ _]. unfold inflight, hashes in H1. rewrite fmap_app in H1. by apply NoDup_app in H1 as [? _].
Qed.

(** ** The local pool steps of one gateway and the states they reach *)

Inductive pool_step : Blockchain -> Blockchain -> Prop :=
| step_admit tx bc bc' : AddToMempool tx bc = Ok bc' -> pool_step bc bc'
| step_index tx bc bc' : AddTransaction tx bc = Ok bc' -> pool_step bc bc'
| step_remove hs bc : pool_step bc (RemoveFromMempool hs bc)
| step_collect limit bc : pool_step bc (L1CollectBlockLimit limit bc).2
| step_collect_selected selected bc : pool_step bc (L1CollectSelected selected bc).2
| step_cycle hs bc :
    NoDup hs -> pool_step bc (SetPendingBlock (Some <$> SelectTxsByHashes bc hs) bc)
| step_abandon drop bc : pool_step bc (AbandonPendingBlock drop bc).2
| step_dag_cache anchor ds bc : pool_step bc (SetDagCommitDigests anchor ds bc).

Lemma AddTransaction_pools tx bc bc' :
  AddTransaction tx bc = Ok bc' ->
  mempool bc' = mempool bc /\ pendingBlock bc' = pendingBlock bc /\ confirmedHashes bc' = confirmedHashes bc.
Proof. unfold AddTransaction. destruct (String.eqb _ _); [done|]. intros. by simplify_eq. Qed.

Lemma pools_wf_same bc bc' :
  pools_wf bc -> mempool bc' = mempool bc -> pendingBlock bc' = pendingBlock bc ->
  confirmedHashes bc' = confirmedHashes bc -> pools_wf bc'.
Proof.
  intros H Hm Hp Hc. apply (pools_wf_submseteq bc); [done| |done].
  unfold inflight. by rewrite Hm, Hp.
Qed.

Lemma AbandonPendingBlock_wf drop bc : pools_wf bc -> pools_wf (AbandonPendingBlock drop bc).2.
Proof.
  intros Hwf. destruct (AbandonPendingBlock drop bc) as [[r d] bc'] eqn:E. simpl.
  apply AbandonPendingBlock_spec in E as (back & gone & Hp & Hm & Hpe & _ & _ & _ & _ & Hc); [|done].
  apply (pools_wf_submseteq bc); [done| |done].
  unfold inflight. rewrite Hm, Hpe, app_nil_r, Hp, app_assoc. by apply submseteq_inserts_r.
Qed.

#[export] Hint Resolve AddToMempool_wf RemoveFromMempool_wf L1CollectBlockLimit_wf
  L1CollectSelected_wf SetPendingBlock_selected_wf AbandonPendingBlock_wf : gateway.

Lemma pool_step_wf bc bc' : pool_step bc bc' -> pools_wf bc -> pools_wf bc'.
Proof.
  destruct 1; intros Hwf; eauto with gateway.
  - apply AddTransaction_pools in H as (?&?&?). by apply (pools_wf_same bc).
  - by apply (pools_wf_same bc).
Qed.

Lemma pools_wf_new : pools_wf NewBlockchain.
Proof. split; simpl; constructor. Qed.

Lemma mempool_canonical_aux bc1 bc2 :
  NoDup (hashes (mempool bc1)) -> mempool bc1 ≡ₚ mempool bc2 -> GetMempool bc1 = GetMempool bc2.
Proof.
  intros Hnd Hp. apply (SliceStable_canonical txLess txLess_asym txLess_notLess_trans); [|done].
  intros a b Ha Hb Hab Hba. apply (NoDup_fmap_inj_on tx_Hash (mempool bc1)); auto.
  by apply notLess_antisym_hash.
Qed.

(** ** Nonces in flight *)

Lemma consider_foldl address acc l :
  match foldl (consider address) acc l with
  | None => acc = None /\ Forall (fun tx => tx_From tx <> address) l
  | Some m =>
      (acc = Some m \/ exists tx, tx ∈ l /\ tx_From tx = address /\ tx_Nonce tx = m) /\
      (forall a, acc = Some a -> a <= m) /\
      Forall (fun tx => tx_From tx = address -> tx_Nonce tx <= m) l
  end.
Proof.
  revert acc. induction l as [|t l IH]; intros acc; simpl.
  { destruct acc as [a|]; [|by split]. split; [by left|]. split; [intros; simplify_eq; lia|constructor]. }
  specialize (IH (consider address acc t)). remember (consider address acc t) as acc' eqn:Hacc'.
  unfold consider in Hacc'. destruct (String.eqb (tx_From t) address) eqn:E; bools.
  - assert (Hs : exists a', acc' = Some a' /\ tx_Nonce t <= a' /\ (forall a, acc = Some a -> a <= a') /\
                  (acc = Some a' \/ a' = tx_Nonce t)).
    { destruct acc as [a|]; [destruct (a <? tx_Nonce t) eqn:El; bools|]; subst; eexists;
        (split; [done|]); repeat split; try lia; intros; simplify_eq; try lia; auto. }
    destruct Hs as (a' & -> & Ht & Ha & Hor). destruct (foldl _ _ l) as [m|]; [|by destruct IH].
    destruct IH as (Hex & Hle & Hall). specialize (Hle a' eq_refl). repeat split.
    + destruct Hex as [[= ->]|(tx & ? & ?)]; [|right; exists tx; set_solver].
      destruct Hor as [?| ->]; [by left|]. right. exists t. set_solver.
    + intros a Hacc. specialize (Ha a Hacc). lia.
    + constructor; [lia|done].
  - subst acc'. destruct (foldl _ _ l) as [m|].
    + destruct IH as (Hex & Hle & Hall). repeat split; [|done|by constructor].
      destruct Hex as [?|(tx & ? & ?)]; [by left|right; exists tx; set_solver].
    + destruct IH. split; [done|by constructor].
Qed.

(** ** Claims *)


(** reading the mempool is canonical. Two gateways that hold the same
    transactions (in whatever arrival order) list them identically, and the
    list is a permutation of the mempool sorted by (timestamp, sender, nonce,
    hash). *)
Theorem mempool_read_canonical (bc1 bc2 : Blockchain)
  (Hnd : NoDup (hashes (mempool bc1))) (Hp : mempool bc1 ≡ₚ mempool bc2) :
  GetMempool bc1 = GetMempool bc2 /\ GetMempool bc1 ≡ₚ mempool bc1 /\
  StronglySorted (notLess txLess) (GetMempool bc1).
Proof.
  split; [by apply mempool_canonical_aux|]. split; [apply SliceStable_perm|].
  apply SliceStable_sorted; [apply txLess_asym|apply txLess_notLess_trans].
Qed.

(** a peer's L2 proposal matches the local pending block exactly when its
    hash list is a rearrangement of the pending hashes: same multiset, same
    length, duplicates counted. *)
Theorem pending_match_is_permutation (bc : Blockchain) (hs : list string) :
  PendingBlockMatchesHashes bc hs = true <-> hs ≡ₚ hashes (pendingBlock bc).
Proof. apply PendingBlockMatchesHashes_spec. Qed.

(** no transaction is lost between the pools. Collecting from the mempool
    splits it into the pending block and the rest, a Core selection moves only
    mempool entries with selected hashes (each hash once), and abandoning a
    pending block returns every transaction that is not named in [drop]. *)
Theorem pools_conserve_transactions (bc : Blockchain) (limit : Z)
  (selected : list (option Transaction)) (drop : list string)
  (Hwf : pools_wf bc) (Hsel : selected <> []) :
  (let '(moved, bc') := L1CollectBlockLimit limit bc in
   moved ++ mempool bc' = mempool bc /\ pendingBlock bc' = moved) /\
  (let '(moved, bc') := L1CollectSelected selected bc in
   moved ++ mempool bc' ≡ₚ mempool bc /\ pendingBlock bc' = moved /\
   NoDup (hashes moved) /\ Forall (fun tx => tx_Hash tx ∈ hashes (nonNil selected)) moved) /\
  (let '((r, d), bc') := AbandonPendingBlock drop bc in
   exists back gone,
     pendingBlock bc ≡ₚ back ++ gone /\ mempool bc' = mempool bc ++ back /\ pendingBlock bc' = [] /\
     Forall (fun tx => tx_Hash tx ∈ drop) gone /\ Forall (fun tx => tx_Hash tx ∉ drop) back /\
     r = length back /\ d = length gone).
Proof.
  split; [|split].
  - destruct (L1CollectBlockLimit limit bc) as [m bc'] eqn:E.
    by apply L1CollectBlockLimit_split in E as (? & ? & _).
  - destruct (L1CollectSelected selected bc) as [m bc'] eqn:E. by apply L1CollectSelected_split in E.
  - destruct (AbandonPendingBlock drop bc) as [[r d] bc'] eqn:E.
    apply AbandonPendingBlock_spec in E as (back & gone & ? & ? & ? & ? & ? & ? & ? & _); [|done].
    by exists back, gone.
Qed.

(** [HighestInFlightNonce] is the exact maximum over both pools, so its
    successor is never in flight; it reports none exactly when the sender has
    nothing in flight. *)
Theorem highest_inflight_nonce_exact (bc : Blockchain) (address : string) :
  match HighestInFlightNonce bc address with
  | None => Forall (fun tx => tx_From tx <> address) (inflight bc)
  | Some m => HasInFlightNonce bc address m = true /\ HasInFlightNonce bc address (m + 1) = false /\
              Forall (fun tx => tx_From tx = address -> tx_Nonce tx <= m) (inflight bc)
  end.
Proof.
  unfold HighestInFlightNonce. rewrite <- foldl_app. change (mempool bc ++ pendingBlock bc) with (inflight bc).
  assert (Hhas : forall n, HasInFlightNonce bc address n = existsb (holdsNonce address n) (inflight bc)).
  { intros n. unfold HasInFlightNonce, inflight. by rewrite existsb_app. }
  pose proof (consider_foldl address None (inflight bc)) as H.
  destruct (foldl _ _ _) as [m|]; [|by destruct H].
  destruct H as ([?|(tx & Hin & Hf & Hn)] & _ & Hall); [done|]. rewrite !Hhas. repeat split; [| |done].
  - apply existsb_exists. exists tx. split; [by apply list_elem_of_In|].
    unfold holdsNonce. rewrite Hf, Hn, String.eqb_refl, Z.eqb_refl. done.
  - apply not_true_iff_false. intros (t & Ht%list_elem_of_In & Hh)%existsb_exists.
    unfold holdsNonce in Hh. bools. rewrite Forall_forall in Hall. specialize (Hall t Ht ltac:(done)). lia.
Qed.

(** ** Witnesses *)

Definition demoTx (r : positive) (h from to fee : string) (nonce ts : Z) : Transaction :=
  mkTx r h from to "5" fee nonce ts "transfer" "native" "" "sig" "" "" "" "PLP" 5 0 [] [] "" "" ""
       0 None "" "" "".

Definition txA : Transaction := demoTx 1 "hash-a" "PxA" "PxB" "2" 0 10.
Definition txB : Transaction := demoTx 2 "hash-b" "PxB" "PxA" "3" 0 5.

Definition demoChain : Blockchain := set_mempool [txA; txB] NewBlockchain.


Lemma demoChain_wf : pools_wf demoChain.
Proof.
  eapply (AddToMempool_wf txB (set_mempool [txA] NewBlockchain)); [|reflexivity].
  eapply (AddToMempool_wf txA NewBlockchain); [apply pools_wf_new|reflexivity].
Qed.

Lemma mempool_read_canonical_witness :
  NoDup (hashes (mempool demoChain)) /\
  GetMempool demoChain = GetMempool (set_mempool [txB; txA] NewBlockchain) /\
  GetMempool demoChain = [txB; txA].
Proof.
  assert (H : NoDup (hashes (mempool demoChain))) by (apply (bool_decide_unpack _); vm_compute; done).
  split; [exact H|]. split; [|vm_compute; reflexivity].
  apply (mempool_read_canonical demoChain (set_mempool [txB; txA] NewBlockchain) H).
  apply Permutation_swap.
Defined.

Lemma pools_conserve_transactions_witness :
  pools_wf demoChain /\ (L1CollectSelected [Some txB] demoChain).1 = [txB] /\
  (exists moved bc', L1CollectSelected [Some txB] demoChain = (moved, bc') /\
     moved ++ mempool bc' ≡ₚ mempool demoChain).
Proof.
  split; [exact demoChain_wf|]. split; [vm_compute; reflexivity|].
  pose proof (pools_conserve_transactions demoChain 1 [Some txB] ["hash-a"] demoChain_wf ltac:(done))
    as (_ & H & _).
  exists [txB], (L1CollectSelected [Some txB] demoChain).2.
  split; [vm_compute; reflexivity|]. exact (proj1 H).
Defined.
