(* ===== verification/Confirm.v ===== *)
(** * Block confirmation (internal/blockchain/blockchain.go, chain_store.go, internal/core/ledger.go)

    The path that moves transactions from the pools into the chain: the batch
    applied to the Core state file behind a snapshot, the explorer update, the
    write of chain.json, and the undo of each of them.

    Core itself (the Rust process) is not in the repository: [RustCore] is a
    record of its operations on the content of the state file, each returning
    the file content it leaves behind, also when it fails. [World] is a gateway
    with its disk: the chain in memory, the Core state file, the [.l2bak]
    snapshot and chain.json. I/O can fail at every call: [Faults] says how each
    call of one confirmation ends. *)

From S2P Require Import Prelude GoStd Dag Tx ForkChoice Chain.

#[local] Open Scope Z_scope.

(** ** Core ledger (internal/core/ledger.go) *)

Record ApplyTxResult := { res_OK : bool; res_Error : string }.

Record DagOrderDigestsResult := { dag_OK : bool; dag_Digests : list string }.

(** The decoded replies of the Core process; [Err] is a transport or decode
    error. The first component is the state file afterwards. *)
Record RustCore (CS : Type) := mkRustCore {
  StateApplyTx : coreJSON -> CS -> CS * result ApplyTxResult;
  RpcKernelApplyBatch : list coreJSON -> CS -> CS * result unit;
  StateCredit : string -> Z -> Z -> CS -> CS * result unit;
  StateCreditToken : string -> string -> Z -> CS -> CS * result unit;
  RpcDagOrderDigests : string -> list string -> result (option DagOrderDigestsResult)
}.
Arguments StateApplyTx {CS} _ _ _.
Arguments RpcKernelApplyBatch {CS} _ _ _.
Arguments StateCredit {CS} _ _ _ _ _.
Arguments StateCreditToken {CS} _ _ _ _ _.
Arguments RpcDagOrderDigests {CS} _ _ _.

Record LedgerService (CS : Type) := mkLedger { rustCore : RustCore CS; testnet : bool }.
Arguments rustCore {CS} _.
Arguments testnet {CS} _.

Section Ledger.
Context {CS : Type}.
Implicit Types (ls : LedgerService CS) (cs : CS).

Definition ApplyTx ls (tx : coreJSON) cs : CS * result unit :=
  let '(cs, r) := StateApplyTx (rustCore ls) tx cs in
  match r with
  | Err e => (cs, Err e)
  | Ok res =>
      if res_OK res then (cs, Ok ())
      else (cs, Err (if String.eqb (res_Error res) "" then "state-apply-tx failed" else res_Error res))
  end.

Definition KernelApplyBatch ls (txs : list coreJSON) cs : CS * result unit :=
  RpcKernelApplyBatch (rustCore ls) txs cs.

Definition DagOrderDigests ls (producer : string) (digests : list string)
  : result (option DagOrderDigestsResult) :=
  RpcDagOrderDigests (rustCore ls) producer digests.

Definition Credit ls (address : string) (plp uplp : Z) cs : CS * result unit :=
  if negb (testnet ls) then (cs, Err "state credit only allowed in testnet mode")
  else StateCredit (rustCore ls) address plp uplp cs.

Definition CreditToken ls (address asset : string) (amount : Z) cs : CS * result unit :=
  if negb (testnet ls) then (cs, Err "token credit only allowed in testnet mode")
  else if amount =? 0 then (cs, Err "token credit amount must be > 0")
  else StateCreditToken (rustCore ls) address asset amount cs.
End Ledger.

(** ** Disk *)

(** The rows of chain.json carry the [BlockNumber] each object had when it was
    written. A nil entry of the decoded array is [None]. *)
Record ChainFileData := mkFile {
  f_Version : Z;
  f_BlockCounter : Z;
  f_TotalFees : Z;
  f_Blocks : list BlockRecord;
  f_Transactions : list (option (Transaction * Z))
}.

Definition chainFileVersion : Z := 1.

Record World (CS : Type) := mkWorld {
  w_bc : Blockchain;
  w_state : CS;
  w_bak : option CS;
  w_chain : option ChainFileData
}.
Arguments mkWorld {CS} _ _ _ _.
Arguments w_bc {CS} _.
Arguments w_state {CS} _.
Arguments w_bak {CS} _.
Arguments w_chain {CS} _.

(** How a [copyFile] ends: done, refused before the target is opened, or
    failed after truncation with some content in the target. *)
Inductive copyOutcome (CS : Type) :=
| CopyOk
| CopyRefused
| CopyPartial (left_behind : CS).
Arguments CopyOk {CS}.
Arguments CopyRefused {CS}.
Arguments CopyPartial {CS} _.

(** How an [atomicWriteFile] ends: the three calls of it that can fail. *)
Inductive writeOutcome := WriteOk | MkdirFails | TempFails | RenameFails.

Record Faults (CS : Type) := mkFaults {
  snapCopy : copyOutcome CS;
  restoreCopy : copyOutcome CS;
  removeOk : bool;
  chainWrite : writeOutcome
}.
Arguments mkFaults {CS} _ _ _ _.
Arguments snapCopy {CS} _.
Arguments restoreCopy {CS} _.
Arguments removeOk {CS} _.
Arguments chainWrite {CS} _.

(** Process environment: the attached ledger, [KernelExecEnabled],
    [DagOrderingEnabled] and [PLATARIUM_NODE_ID]. *)
Record Env (CS : Type) := mkEnv {
  ledger : option (LedgerService CS);
  KernelExecEnabled : bool;
  DagOrderingEnabled : bool;
  envNodeID : string
}.
Arguments ledger {CS} _.
Arguments KernelExecEnabled {CS} _.
Arguments DagOrderingEnabled {CS} _.
Arguments envNodeID {CS} _.

Section World.
Context {CS : Type}.
Implicit Types (w : World CS) (f : Faults CS) (e : Env CS).

Definition with_bc (bc : Blockchain) w : World CS := mkWorld bc (w_state w) (w_bak w) (w_chain w).
Definition with_state (cs : CS) w : World CS := mkWorld (w_bc w) cs (w_bak w) (w_chain w).
Definition with_bak (b : option CS) w : World CS := mkWorld (w_bc w) (w_state w) b (w_chain w).
Definition with_chain (c : option ChainFileData) w : World CS :=
  mkWorld (w_bc w) (w_state w) (w_bak w) c.

(** [copyFile(statePath, backupPath)]. *)
Definition snapshotState f w : World CS * bool :=
  match snapCopy f with
  | CopyOk => (with_bak (Some (w_state w)) w, true)
  | CopyRefused => (w, false)
  | CopyPartial c => (with_bak (Some c) w, false)
  end.

(** [copyFile(backupPath, statePath)]; a missing snapshot cannot be opened. *)
Definition restoreState f w : World CS * bool :=
  match w_bak w, restoreCopy f with
  | None, _ => (w, false)
  | Some c, CopyOk => (with_state c w, true)
  | Some _, CopyRefused => (w, false)
  | Some _, CopyPartial c => (with_state c w, false)
  end.

(** [os.Remove(backupPath)], its error ignored. *)
Definition removeBak f w : World CS := if removeOk f then with_bak None w else w.

(** ** chain.json (chain_store.go) *)

Fixpoint historyHeadFrom (m : Z) (blocks : list BlockRecord) : Z :=
  match blocks with
  | [] => m
  | b :: bs => historyHeadFrom (if m <? b_BlockNumber b then b_BlockNumber b else m) bs
  end.
Definition historyHead (blocks : list BlockRecord) : Z := historyHeadFrom (-1) blocks.

Definition noteDurableHeadLocked (bc : Blockchain) : Blockchain :=
  let h := historyHead (blockHistory bc) in
  if durableHead bc <? h then set_durableHead h bc else bc.

Context `{!GoRange}.

Definition chainSnapshot (bc : Blockchain) : ChainFileData :=
  mkFile chainFileVersion (blockCounter bc) (totalFeesCollected bc) (blockHistory bc)
         ((fun '(_, tx) => Some (tx, BlockNumber bc tx)) <$> range (transactions bc)).

Definition atomicWriteFile f (data : ChainFileData) w : World CS * result unit :=
  match chainWrite f with
  | WriteOk => (with_chain (Some data) w, Ok ())
  | MkdirFails => (w, Err "create chain dir")
  | TempFails => (w, Err "write chain temp")
  | RenameFails => (w, Err "rename chain file")
  end.

Definition persistChain f w : World CS * result unit :=
  let bc := w_bc w in
  if String.eqb (chainFile bc) "" then (w, Ok ())
  else
  let file := chainSnapshot bc in
  let nextHead := historyHead (f_Blocks file) in
  if (0 <=? durableHead bc) && (nextHead <? durableHead bc)
  then (w, Err "refuse to shrink chain head")
  else
  let '(w, r) := atomicWriteFile f file w in
  match r with
  | Err m => (w, Err m)
  | Ok _ => (if durableHead bc <? nextHead then with_bc (set_durableHead nextHead bc) w else w, Ok ())
  end.

(** ** Applying a batch to Core *)

Definition ptrHash (p : option Transaction) : string :=
  match p with Some tx => tx_Hash tx | None => "" end.

Definition isFaucet (p : option Transaction) : bool :=
  match p with Some tx => String.eqb (tx_From tx) FaucetAddress | None => false end.

Definition maybeDagReorder e (ls : LedgerService CS) (txs : list (option Transaction)) (bc : Blockchain)
  : Blockchain * result (list (option Transaction)) :=
  if negb (DagOrderingEnabled e) || (length txs <? 2)%nat then (bc, Ok txs)
  else if existsb isFaucet txs then (bc, Ok txs)
  else
  let digests := filter (fun h => h <> "") (ptrHash <$> txs) in
  if (length digests <? 2)%nat then (bc, Ok txs)
  else
  let commitDigests := dagCommitDigests bc in
  if negb (bool_decide (commitDigests = [])) && (0 <? DigestOverlapCount commitDigests digests)
  then (ClearDagCommitDigests bc, Ok (PermuteByDigests ptrHash commitDigests txs))
  else
  let producer := if String.eqb (envNodeID e) "" then "n0" else envNodeID e in
  match DagOrderDigests ls producer digests with
  | Err m => (bc, Err m)
  | Ok None => (bc, Ok txs)
  | Ok (Some o) =>
      if negb (dag_OK o) || bool_decide (dag_Digests o = []) then (bc, Ok txs)
      else (bc, Ok (PermuteByDigests ptrHash (dag_Digests o) txs))
  end.

(** The kernel batch, refused when a faucet credit or a transaction without
    Core JSON is in it. *)
Fixpoint kernelBatch (txs : list (option Transaction)) : option (list coreJSON) :=
  match txs with
  | [] => Some []
  | None :: rest => kernelBatch rest
  | Some tx :: rest =>
      if String.eqb (tx_From tx) FaucetAddress then None
      else match ToCoreJSON (Some tx) with
      | None => None
      | Some j => match kernelBatch rest with Some js => Some (j :: js) | None => None end
      end
  end.

(** The per-transaction loop; it stops at the first failure. *)
Fixpoint applyEach (ls : LedgerService CS) (txs : list (option Transaction)) (cs : CS)
  : CS * result unit :=
  match txs with
  | [] => (cs, Ok ())
  | None :: rest => applyEach ls rest cs
  | Some tx :: rest =>
      if String.eqb (tx_From tx) FaucetAddress then
        let '(cs, r) := Credit ls (tx_To tx) (parseAmount tx) (tx_FeeUplp tx) cs in
        match r with Err m => (cs, Err m) | Ok _ => applyEach ls rest cs end
      else match ToCoreJSON (Some tx) with
      | None => (cs, Err "transaction is not Core-compatible")
      | Some j =>
          let '(cs, r) := ApplyTx ls j cs in
          match r with Err m => (cs, Err m) | Ok _ => applyEach ls rest cs end
      end
  end.

(** The batch on the state file: kernel path or per-transaction path. *)
Definition applyBatch e (ls : LedgerService CS) (txs : list (option Transaction)) (cs : CS)
  : CS * result unit :=
  match (if KernelExecEnabled e then kernelBatch txs else None) with
  | Some (j :: js) => KernelApplyBatch ls (j :: js) cs
  | _ => applyEach ls txs cs
  end.

(** The closure [rollback] of [applyConfirmedTransactions]. *)
Definition rollback f w : World CS := removeBak f (restoreState f w).1.

(** [applyConfirmedTransactions]; [Ok true] is a retained backup path,
    [Ok false] the empty path of an explorer-only gateway. *)
Definition applyConfirmedTransactions e f (txs : list (option Transaction)) w
  : World CS * result bool :=
  match ledger e with
  | None => if explorerOnlyConfirm (w_bc w) then (w, Ok false) else (w, Err "core ledger unavailable")
  | Some ls =>
      let '(w, snapped) := snapshotState f w in
      if negb snapped then (w, Err "snapshot state before L2 apply")
      else
      let '(bc, ordered) := maybeDagReorder e ls txs (w_bc w) in
      let w := with_bc bc w in
      match ordered with
      | Err m => (rollback f w, Err m)
      | Ok txs =>
          let '(cs, r) := applyBatch e ls txs (w_state w) in
          let w := with_state cs w in
          match r with
          | Err m => (rollback f w, Err m)
          | Ok _ => (w, Ok true)
          end
      end
  end.
End World.

(** ** Explorer update *)

Definition withTimestamp (ts : Z) (b : BlockRecord) : BlockRecord :=
  mkBlock (b_BlockNumber b) ts (b_TxHashes b) (b_TxCount b) (b_TotalFees b) (b_BlockHash b)
    (b_MerkleRoot b) (b_StateRoot b) (b_PreviousHash b) (b_ProducerNodeID b) (b_L1Yes b) (b_L1No b)
    (b_L2Yes b) (b_L2No b) (b_DurationMs b) (b_L1Beneficiary b) (b_L2Confirmer b) (b_L1Votes b) (b_L2Votes b).

(** The block side of one confirmed transaction. *)
Definition blockAdd (fee : Z) (tx : Transaction) (b : BlockRecord) : BlockRecord :=
  let b' := mkBlock (b_BlockNumber b) (b_Timestamp b) (b_TxHashes b ++ [tx_Hash tx]) (b_TxCount b + 1)
    (i64 (b_TotalFees b + fee)) (b_BlockHash b)
    (b_MerkleRoot b) (b_StateRoot b) (b_PreviousHash b) (b_ProducerNodeID b) (b_L1Yes b) (b_L1No b)
    (b_L2Yes b) (b_L2No b) (b_DurationMs b) (b_L1Beneficiary b) (b_L2Confirmer b) (b_L1Votes b) (b_L2Votes b) in
  if (b_Timestamp b =? 0) || (0 <? tx_Timestamp tx) then withTimestamp (tx_Timestamp tx) b' else b'.

(** The chain side: fees, block number, index, last transaction, address lists. *)
Definition indexConfirmed (fee n : Z) (tx : Transaction) (bc : Blockchain) : Blockchain :=
  let bc := set_totalFeesCollected (i64 (totalFeesCollected bc + fee)) bc in
  let bc := setBlockNumber tx n bc in
  let bc := set_transactions (<[tx_Hash tx := tx]> (transactions bc)) bc in
  let bc := set_lastTx (Some tx) bc in
  let bc := appendAddr (tx_From tx) tx bc in
  appendAddr (tx_To tx) tx bc.

Definition markConfirmed (h : string) (bc : Blockchain) : Blockchain :=
  set_confirmedHashes ({[h]} ∪ confirmedHashes bc) bc.

(** The loop body of [L2ConfirmBlock] and [ConfirmExplorerWithoutCore]. *)
Definition confirmOne (st : Blockchain * BlockRecord) (tx : Transaction) : Blockchain * BlockRecord :=
  let '(bc, b) := st in
  let fee := confirmFee tx in
  (markConfirmed (tx_Hash tx) (indexConfirmed fee (b_BlockNumber b) tx bc), blockAdd fee tx b).

(** The loop body of [ConfirmMempoolToChain]: the text fee only, no mark. *)
Definition confirmOneLegacy (st : Blockchain * BlockRecord) (tx : Transaction) : Blockchain * BlockRecord :=
  let '(bc, b) := st in
  let fee := parseFee (tx_Fee tx) in
  (indexConfirmed fee (b_BlockNumber b) tx bc, blockAdd fee tx b).

Definition openBlock (bc : Blockchain) : Blockchain * BlockRecord :=
  (set_blockCounter (i64 (blockCounter bc + 1)) bc,
   mkBlock (blockCounter bc) 0 [] 0 0 "" "" "" "" "" 0 0 0 0 0 "" "" ∅ ∅).

(** A block without a timestamp takes the last transaction's, or the clock's. *)
Definition stampBlock (now : Z) (last : option Transaction) (b : BlockRecord) : BlockRecord :=
  if b_Timestamp b =? 0 then
    withTimestamp (match last with Some tx => tx_Timestamp tx | None => now end) b
  else b.

Definition appendBlock (b : BlockRecord) (bc : Blockchain) : Blockchain :=
  set_blockHistory (blockHistory bc ++ [b]) bc.

(** ** Undo *)

Definition removeTxFromAddressIndex (l : list Transaction) (hash : string) : list Transaction :=
  if bool_decide (l = []) || String.eqb hash "" then l
  else filter (fun tx => tx_Hash tx <> hash) l.

Definition dropFromAddr (a hash : string) (bc : Blockchain) : Blockchain :=
  if String.eqb a "" then bc
  else set_addressTxs (<[a := removeTxFromAddressIndex (addrTxs bc a) hash]> (addressTxs bc)) bc.

Definition undoOne (requeue : string) (bc : Blockchain) (tx : Transaction) : Blockchain :=
  let bc := set_transactions (delete (tx_Hash tx) (transactions bc)) bc in
  let bc := set_confirmedHashes (confirmedHashes bc ∖ {[tx_Hash tx]}) bc in
  let bc := match lastTx bc with
            | Some l => if String.eqb (tx_Hash l) (tx_Hash tx) then set_lastTx None bc else bc
            | None => bc
            end in
  let bc := dropFromAddr (tx_From tx) (tx_Hash tx) bc in
  let bc := dropFromAddr (tx_To tx) (tx_Hash tx) bc in
  let bc := setBlockNumber tx 0 bc in
  if String.eqb requeue "mempool" then set_mempool (mempool bc ++ [tx]) bc
  else set_pendingBlock (pendingBlock bc ++ [tx]) bc.

Definition undoExplorerConfirmLocked (b : BlockRecord) (moved : list (option Transaction))
  (requeue : string) (bc : Blockchain) : Blockchain :=
  let n := length (blockHistory bc) in
  let bc := match blockHistory bc !! pred n with
    | Some t =>
        if b_BlockNumber t =? b_BlockNumber b then
          let bc' := set_blockHistory (take (pred n) (blockHistory bc)) bc in
          if blockCounter bc' =? i64 (b_BlockNumber b + 1) then set_blockCounter (b_BlockNumber b) bc' else bc'
        else bc
    | None => bc
    end in
  let fees := i64 (totalFeesCollected bc - b_TotalFees b) in
  let bc := set_totalFeesCollected (if fees <? 0 then 0 else fees) bc in
  foldl (undoOne requeue) bc (nonNil moved).

Section Confirm.
Context {CS : Type} {R : GoRange}.
Implicit Types (w : World CS) (f : Faults CS) (e : Env CS).

(** The undo of a failed chain.json write: Core back, explorer back, backup gone. *)
Definition abortPersist f (hasBak : bool) (b : BlockRecord) (moved : list (option Transaction))
  (requeue : string) w : World CS :=
  let w := if hasBak then (restoreState f w).1 else w in
  let w := with_bc (undoExplorerConfirmLocked b moved requeue (w_bc w)) w in
  if hasBak then removeBak f w else w.

(** The fence of [L2ConfirmBlock]: Core back, backup gone, pending cleared. *)
Definition abortTOCTOU f (hasBak : bool) w : World CS :=
  let w := if hasBak then (restoreState f w).1 else w in
  let w := if hasBak then removeBak f w else w in
  with_bc (set_pendingBlock [] (w_bc w)) w.

(** [L2ConfirmBlock]. The batch is applied without the lock: [meanwhile] is
    whatever other goroutines do to the chain until the lock is taken again.
    The result carries the moved transactions, the block and whether a backup
    path is returned. *)
Definition L2ConfirmBlock e f (meanwhile : Blockchain -> Blockchain) (now : Z) w
  : World CS * result (list Transaction * BlockRecord * bool) :=
  let pendingCopy := pendingBlock (w_bc w) in
  let pendingFinger := hashes pendingCopy in
  let '(w, applied) := applyConfirmedTransactions e f (Some <$> pendingCopy) w in
  match applied with
  | Err m => (w, Err m)
  | Ok hasBak =>
      let w := with_bc (meanwhile (w_bc w)) w in
      let current := pendingBlock (w_bc w) in
      if negb (Nat.eqb (length current) (length pendingCopy))
      then (abortTOCTOU f hasBak w, Err "pending changed during apply")
      else if negb (bool_decide (hashes current = pendingFinger))
      then (abortTOCTOU f hasBak w, Err "pending hash mismatch")
      else
      let '(bc, b) := foldl confirmOne (openBlock (w_bc w)) pendingCopy in
      let bc := set_pendingBlock [] bc in
      let b := stampBlock now (lastTx bc) b in
      let '(w, r) := persistChain f (with_bc (appendBlock b bc) w) in
      match r with
      | Err m => (abortPersist f hasBak b (Some <$> pendingCopy) "pending" w,
                  Err "explorer persist failed after core apply")
      | Ok _ => (w, Ok (pendingCopy, b, hasBak))
      end
  end.

(** [ConfirmExplorerWithoutCore]; [hasBak] tells that both paths are given. *)
Definition ConfirmExplorerWithoutCore f (txs : list (option Transaction)) (requeueOnFail : string)
  (hasBak : bool) (now : Z) w : World CS * result (list Transaction * BlockRecord) :=
  let moved := nonNil txs in
  let '(bc, b) := foldl confirmOne (openBlock (w_bc w)) moved in
  let b := stampBlock now None b in
  let '(w, r) := persistChain f (with_bc (appendBlock b bc) w) in
  match r with
  | Err m => (abortPersist f hasBak b (Some <$> moved) requeueOnFail w,
              Err "explorer persist failed after core apply")
  | Ok _ => (w, Ok (moved, b))
  end.

(** [ConfirmMempoolToChain]: the batch is the copy, the loop runs over the
    mempool as it is when the lock is taken again. *)
Definition ConfirmMempoolToChain e f (meanwhile : Blockchain -> Blockchain) (now : Z) w
  : World CS * result (list Transaction * BlockRecord * bool) :=
  let '(w, applied) := applyConfirmedTransactions e f (Some <$> mempool (w_bc w)) w in
  match applied with
  | Err m => (w, Err m)
  | Ok hasBak =>
      let w := with_bc (meanwhile (w_bc w)) w in
      let moved := mempool (w_bc w) in
      let '(bc, b) := foldl confirmOneLegacy (openBlock (w_bc w)) moved in
      let bc := set_mempool [] bc in
      let b := stampBlock now (lastTx bc) b in
      let '(w, r) := persistChain f (with_bc (appendBlock b bc) w) in
      match r with
      | Err m => (abortPersist f hasBak b (Some <$> moved) "mempool" w,
                  Err "explorer persist failed after core apply")
      | Ok _ => (w, Ok (moved, b, hasBak))
      end
  end.

(** [rollbackConfirmLocked]: an error only when the restore of Core fails. *)
Definition rollbackConfirmLocked e f (b : BlockRecord) (moved : list (option Transaction))
  (hasBak : bool) (requeue : string) w : World CS * result unit :=
  let '(w, r) :=
    match ledger e with
    | Some _ =>
        if hasBak then
          let '(w, ok) := restoreState f w in
          (w, if ok then Ok () else Err "restore core state after rocks failure")
        else (w, Ok ())
    | None => (w, Ok ())
    end in
  let w := with_bc (undoExplorerConfirmLocked b moved requeue (w_bc w)) w in
  (if hasBak then removeBak f w else w, r).

Definition UndoLastConfirmedBlock e f (b : BlockRecord) (moved : list (option Transaction))
  (hasBak : bool) w : World CS * result unit :=
  let '(w, r) := rollbackConfirmLocked e f b moved hasBak "pending" w in
  match r with
  | Err m => (w, Err m)
  | Ok _ => persistChain f w
  end.

(** [AddConfirmedBlock]: the scan of the history for the same height. *)
Inductive peerVerdict := PeerNew | PeerKnown | PeerConflict (msg : string).

Fixpoint scanHeight (block : BlockRecord) (hist : list BlockRecord) : peerVerdict :=
  match hist with
  | [] => PeerNew
  | b :: rest =>
      if negb (b_BlockNumber b =? b_BlockNumber block) then scanHeight block rest
      else if nonEmpty (b_BlockHash b) && nonEmpty (b_BlockHash block)
              && String.eqb (b_BlockHash b) (b_BlockHash block) then PeerKnown
      else if String.eqb (b_BlockHash b) (b_BlockHash block) && String.eqb (b_BlockHash block) ""
      then PeerKnown
      else if PreferBlock b block then PeerConflict "peer block preferred but reorg unsupported"
      else PeerConflict "keeping local block over peer"
  end.

(** The loop body of [AddConfirmedBlock] (the block record is the peer's). *)
Definition adoptOne (n : Z) (bc : Blockchain) (tx : Transaction) : Blockchain :=
  markConfirmed (tx_Hash tx) (indexConfirmed (confirmFee tx) n tx bc).

Definition adoptBlock (block : BlockRecord) (txs : list (option Transaction)) (bc : Blockchain) : Blockchain :=
  let bc := if (0 <=? b_BlockNumber block) && (blockCounter bc <? i64 (b_BlockNumber block + 1))
            then set_blockCounter (i64 (b_BlockNumber block + 1)) bc else bc in
  let moved := nonNil txs in
  let bc := foldl (adoptOne (b_BlockNumber block)) bc moved in
  let txHashes : gset string := list_to_set (hashes moved) in
  let bc := set_confirmedHashes
    (list_to_set (filter (fun h => h <> "") (b_TxHashes block)) ∪ confirmedHashes bc) bc in
  let bc := set_mempool (filter (keepHash txHashes) (mempool bc)) bc in
  let bc := set_pendingBlock (filter (keepHash txHashes) (pendingBlock bc)) bc in
  appendBlock block bc.

Definition PeerInjectExplorerWrite : string := "explorer_write".

(** [Ok None]: already known; [Ok (Some hasBak)]: added. *)
Definition AddConfirmedBlock e f (meanwhile : Blockchain -> Blockchain) (block : BlockRecord)
  (txs : list (option Transaction)) w : World CS * result (option bool) :=
  match scanHeight block (blockHistory (w_bc w)) with
  | PeerKnown => (w, Ok None)
  | PeerConflict m => (w, Err m)
  | PeerNew =>
      let '(w, applied) := applyConfirmedTransactions e f txs w in
      match applied with
      | Err m => (w, Err m)
      | Ok hasBak =>
          let w := with_bc (adoptBlock block txs (meanwhile (w_bc w))) w in
          let moved := Some <$> nonNil txs in
          if String.eqb (peerConfirmInject (w_bc w)) PeerInjectExplorerWrite then
            ((rollbackConfirmLocked e f block moved hasBak "mempool" w).1, Err "explorer write failed: injected failure")
          else
          let '(w, r) := persistChain f w in
          match r with
          | Err m => ((rollbackConfirmLocked e f block moved hasBak "mempool" w).1,
                      Err "explorer persist failed after core apply")
          | Ok _ => (w, Ok (Some hasBak))
          end
      end
  end.
End Confirm.
