(* ===== verification/ConfirmSpec.v ===== *)
(** * Contracts of block confirmation

    Proofs about file Confirm: what a confirmed block contains, that a failed
    confirmation restores Core, chain.json and the explorer, that the undo is
    the inverse of the explorer update, that chain.json never loses its head. *)

From S2P Require Import Prelude GoStd Dag Tx ForkChoice Chain Pool Confirm.

#[local] Open Scope Z_scope.

(** ** The explorer update as one step over the list *)

Definition sumFees (txs : list Transaction) : Z := foldr (fun tx s => confirmFee tx + s) 0 txs.

(** The fields the loop never touches. *)
Definition same_frame (bc bc' : Blockchain) : Prop :=
  mempool bc' = mempool bc /\ pendingBlock bc' = pendingBlock bc /\
  blockCounter bc' = blockCounter bc /\ blockHistory bc' = blockHistory bc /\
  chainFile bc' = chainFile bc /\ durableHead bc' = durableHead bc /\
  dagCommitDigests bc' = dagCommitDigests bc /\ dagCommitAnchor bc' = dagCommitAnchor bc /\
  explorerOnlyConfirm bc' = explorerOnlyConfirm bc /\ peerConfirmInject bc' = peerConfirmInject bc.

#[export] Instance same_frame_preorder : PreOrder same_frame.
Proof. unfold same_frame. split; [intros ?; naive_solver|intros ???; naive_solver congruence]. Qed.

Lemma indexConfirmed_frame fee n tx bc : same_frame bc (indexConfirmed fee n tx bc).
Proof. done. Qed.

Lemma adoptOne_frame n bc tx : same_frame bc (adoptOne n bc tx).
Proof. done. Qed.

(** Both confirm loops drive the chain through [adoptOne]. *)
Lemma confirmOne_foldl bc b txs :
  foldl confirmOne (bc, b) txs =
  (foldl (adoptOne (b_BlockNumber b)) bc txs, foldl (fun b tx => blockAdd (confirmFee tx) tx b) b txs).
Proof.
  revert bc b. induction txs as [|tx txs IH]; intros bc b; [done|]. simpl. rewrite IH.
  assert (b_BlockNumber (blockAdd (confirmFee tx) tx b) = b_BlockNumber b) as ->; [|done].
  unfold blockAdd. by destruct (_ || _).
Qed.

Lemma adopt_foldl_frame n bc txs : same_frame bc (foldl (adoptOne n) bc txs).
Proof.
  revert bc. induction txs as [|tx txs IH]; intros bc; [done|]. simpl.
  etransitivity; [apply (adoptOne_frame n bc tx)|apply IH].
Qed.

Lemma adopt_foldl_confirmed n bc txs :
  confirmedHashes (foldl (adoptOne n) bc txs) = list_to_set (hashes txs) ∪ confirmedHashes bc.
Proof.
  revert bc. induction txs as [|tx txs IH]; intros bc; simpl; [set_solver|].
  rewrite IH. simpl. set_solver.
Qed.

Lemma adopt_foldl_fees n bc txs :
  is_i64 (totalFeesCollected bc) ->
  totalFeesCollected (foldl (adoptOne n) bc txs) = i64 (totalFeesCollected bc + sumFees txs).
Proof.
  revert bc. induction txs as [|tx txs IH]; intros bc H; simpl.
  { by rewrite Z.add_0_r, i64_small. }
  rewrite IH; [|apply i64_range]. simpl. rewrite i64_add_l. f_equal. lia.
Qed.

Lemma adopt_foldl_tx_other n bc txs h :
  h ∉ hashes txs -> transactions (foldl (adoptOne n) bc txs) !! h = transactions bc !! h.
Proof.
  revert bc. induction txs as [|tx txs IH]; intros bc Hh; simpl; [done|].
  apply not_elem_of_cons in Hh as [Hne Hh]. rewrite IH by done. simpl. by rewrite lookup_insert_ne.
Qed.

Lemma adopt_foldl_tx n bc txs tx :
  NoDup (hashes txs) -> tx ∈ txs -> transactions (foldl (adoptOne n) bc txs) !! tx_Hash tx = Some tx.
Proof.
  revert bc. induction txs as [|t txs IH]; intros bc Hnd Hin; [by apply elem_of_nil in Hin|].
  apply NoDup_cons in Hnd as [Hn Hnd]. apply elem_of_cons in Hin as [->|Hin]; simpl.
  - rewrite adopt_foldl_tx_other by done. simpl. apply lookup_insert_eq.
  - by apply IH.
Qed.

Lemma adopt_foldl_number_other n bc txs t :
  tx_ref t ∉ tx_ref <$> txs -> BlockNumber (foldl (adoptOne n) bc txs) t = BlockNumber bc t.
Proof.
  revert bc. induction txs as [|tx txs IH]; intros bc Hh; simpl; [done|].
  apply not_elem_of_cons in Hh as [Hne Hh]. rewrite IH by done.
  unfold BlockNumber. simpl. by rewrite lookup_insert_ne.
Qed.

Lemma adopt_foldl_number n bc txs t :
  tx_ref t ∈ tx_ref <$> txs -> BlockNumber (foldl (adoptOne n) bc txs) t = n.
Proof.
  revert bc. induction txs as [|tx txs IH]; intros bc Hin; [by apply elem_of_nil in Hin|].
  destruct (decide (tx_ref t ∈ tx_ref <$> txs)) as [H|H]; [by apply IH|].
  rewrite fmap_cons in Hin. apply elem_of_cons in Hin as [He|?]; [|done]. simpl.
  rewrite adopt_foldl_number_other by done. unfold BlockNumber. simpl. by rewrite He, lookup_insert_eq.
Qed.

(** The block of a batch. *)
Lemma blockAdd_foldl b txs :
  is_i64 (b_TotalFees b) ->
  let b' := foldl (fun b tx => blockAdd (confirmFee tx) tx b) b txs in
  b_BlockNumber b' = b_BlockNumber b /\ b_TxHashes b' = b_TxHashes b ++ hashes txs /\
  b_TxCount b' = b_TxCount b + Z.of_nat (length txs) /\
  b_TotalFees b' = i64 (b_TotalFees b + sumFees txs) /\ b_BlockHash b' = b_BlockHash b.
Proof.
  simpl. revert b. induction txs as [|tx txs IH]; intros b H; simpl.
  { rewrite app_nil_r, !Z.add_0_r, i64_small by exact H. repeat split; lia. }
  assert (Hb : let b1 := blockAdd (confirmFee tx) tx b in
    b_BlockNumber b1 = b_BlockNumber b /\ b_TxHashes b1 = b_TxHashes b ++ [tx_Hash tx] /\
    b_TxCount b1 = b_TxCount b + 1 /\ b_TotalFees b1 = i64 (b_TotalFees b + confirmFee tx) /\
    b_BlockHash b1 = b_BlockHash b).
  { unfold blockAdd. by destruct (_ || _). }
  destruct Hb as (H1 & H2 & H3 & H4 & H5).
  destruct (IH (blockAdd (confirmFee tx) tx b)) as (I1 & I2 & I3 & I4 & I5); [rewrite H4; apply i64_range|].
  rewrite I1, I2, I3, I4, I5, H1, H2, H3, H4, H5, i64_add_l. rewrite <- app_assoc.
  repeat split; [lia|]. f_equal. lia.
Qed.

Lemma stampBlock_fields now l b :
  b_BlockNumber (stampBlock now l b) = b_BlockNumber b /\ b_TxHashes (stampBlock now l b) = b_TxHashes b /\
  b_TxCount (stampBlock now l b) = b_TxCount b /\ b_TotalFees (stampBlock now l b) = b_TotalFees b /\
  b_BlockHash (stampBlock now l b) = b_BlockHash b.
Proof. unfold stampBlock. by destruct (_ =? _). Qed.

(** ** Undo is the inverse of the update *)

Lemma undo_foldl_frame requeue bc txs :
  blockCounter (foldl (undoOne requeue) bc txs) = blockCounter bc /\
  blockHistory (foldl (undoOne requeue) bc txs) = blockHistory bc /\
  totalFeesCollected (foldl (undoOne requeue) bc txs) = totalFeesCollected bc /\
  chainFile (foldl (undoOne requeue) bc txs) = chainFile bc /\
  durableHead (foldl (undoOne requeue) bc txs) = durableHead bc.
Proof.
  revert bc. induction txs as [|tx txs IH]; intros bc; [done|]. simpl.
  destruct (IH (undoOne requeue bc tx)) as (-> & -> & -> & -> & ->).
  unfold undoOne, dropFromAddr. cbv zeta. by repeat case_match.
Qed.

Lemma undo_foldl_pools requeue bc txs :
  mempool (foldl (undoOne requeue) bc txs) =
    (if String.eqb requeue "mempool" then mempool bc ++ txs else mempool bc) /\
  pendingBlock (foldl (undoOne requeue) bc txs) =
    (if String.eqb requeue "mempool" then pendingBlock bc else pendingBlock bc ++ txs) /\
  confirmedHashes (foldl (undoOne requeue) bc txs) = confirmedHashes bc ∖ list_to_set (hashes txs).
Proof.
  revert bc. induction txs as [|tx txs IH]; intros bc; simpl.
  { rewrite !app_nil_r. repeat split; [by destruct (String.eqb _ _)|by destruct (String.eqb _ _)|set_solver]. }
  destruct (IH (undoOne requeue bc tx)) as (-> & -> & ->).
  unfold undoOne, dropFromAddr. cbv zeta.
  destruct (String.eqb requeue "mempool"); repeat case_match; simpl; rewrite <- ?app_assoc;
    (split; [done|split; [done|set_solver]]).
Qed.

Lemma undo_foldl_tx requeue bc txs h :
  transactions (foldl (undoOne requeue) bc txs) !! h =
  if decide (h ∈ hashes txs) then None else transactions bc !! h.
Proof.
  revert bc. induction txs as [|tx txs IH]; intros bc; simpl; [done|]. rewrite IH.
  assert (transactions (undoOne requeue bc tx) = delete (tx_Hash tx) (transactions bc)) as ->
    by (unfold undoOne, dropFromAddr; cbv zeta; by repeat case_match).
  destruct (decide (h ∈ hashes txs)), (decide (h ∈ tx_Hash tx :: hashes txs)); try set_solver.
  - rewrite lookup_delete. by case_decide; [|set_solver].
  - rewrite lookup_delete_ne by set_solver. done.
Qed.

(** What an address list says about transactions outside [drop]. *)
Definition addrOutside (drop : list string) (bc : Blockchain) (a : string) : list Transaction :=
  filter (fun tx => tx_Hash tx ∉ drop) (addrTxs bc a).

Lemma appendAddr_outside drop bc a tx c :
  tx_Hash tx ∈ drop -> addrOutside drop (appendAddr c tx bc) a = addrOutside drop bc a.
Proof.
  intros H. unfold addrOutside, addrTxs, appendAddr, addrTxs. simpl.
  destruct (decide (c = a)) as [<-|Hne]; [|by rewrite lookup_insert_ne].
  rewrite lookup_insert_eq. simpl. rewrite filter_app, filter_cons_False by auto.
  by rewrite filter_nil, app_nil_r.
Qed.

Lemma adopt_foldl_outside n bc txs drop a :
  hashes txs ⊆ drop -> addrOutside drop (foldl (adoptOne n) bc txs) a = addrOutside drop bc a.
Proof.
  revert bc. induction txs as [|tx txs IH]; intros bc H; [done|]. simpl.
  rewrite IH by set_solver. unfold adoptOne, markConfirmed, indexConfirmed. cbv zeta.
  set (bc1 := appendAddr (tx_From tx) tx _).
  transitivity (addrOutside drop (appendAddr (tx_To tx) tx bc1) a); [done|].
  rewrite appendAddr_outside by set_solver. subst bc1. by rewrite appendAddr_outside by set_solver.
Qed.

Lemma dropFromAddr_outside drop bc a c h :
  h ∈ drop -> addrOutside drop (dropFromAddr c h bc) a = addrOutside drop bc a.
Proof.
  intros H. unfold dropFromAddr. destruct (String.eqb c ""); [done|].
  unfold addrOutside, addrTxs. simpl. destruct (decide (c = a)) as [<-|Hne]; [|by rewrite lookup_insert_ne].
  rewrite lookup_insert_eq. simpl. unfold removeTxFromAddressIndex, addrTxs.
  destruct (_ || _); [done|]. rewrite list_filter_filter.
  apply list_filter_iff. intros t. split; [naive_solver|]. intros Ht. split; [done|]. intros Heq. apply Ht. by rewrite Heq.
Qed.

Lemma undo_foldl_outside requeue bc txs drop a :
  hashes txs ⊆ drop -> addrOutside drop (foldl (undoOne requeue) bc txs) a = addrOutside drop bc a.
Proof.
  revert bc. induction txs as [|tx txs IH]; intros bc H; [done|]. simpl. rewrite IH by set_solver.
  unfold undoOne. cbv zeta.
  set (bc1 := match _ with Some _ => _ | None => _ end).
  assert (Hb : addrOutside drop bc1 a = addrOutside drop bc a) by (subst bc1; by repeat case_match).
  clearbody bc1.
  transitivity (addrOutside drop (dropFromAddr (tx_To tx) (tx_Hash tx) (dropFromAddr (tx_From tx) (tx_Hash tx) bc1)) a).
  { by destruct (String.eqb requeue "mempool"). }
  rewrite !dropFromAddr_outside by set_solver. done.
Qed.

(** [undoExplorerConfirmLocked] on a chain whose tip is the block's height. *)
Lemma undoExplorer_spec bc hist t b txs requeue :
  blockHistory bc = hist ++ [t] -> b_BlockNumber t = b_BlockNumber b ->
  let bc' := undoExplorerConfirmLocked b (Some <$> txs) requeue bc in
  blockHistory bc' = hist /\
  blockCounter bc' = (if blockCounter bc =? i64 (b_BlockNumber b + 1) then b_BlockNumber b else blockCounter bc) /\
  totalFeesCollected bc' = Z.max 0 (i64 (totalFeesCollected bc - b_TotalFees b)) /\
  mempool bc' = (if String.eqb requeue "mempool" then mempool bc ++ txs else mempool bc) /\
  pendingBlock bc' = (if String.eqb requeue "mempool" then pendingBlock bc else pendingBlock bc ++ txs) /\
  confirmedHashes bc' = confirmedHashes bc ∖ list_to_set (hashes txs) /\
  (forall h, transactions bc' !! h = if decide (h ∈ hashes txs) then None else transactions bc !! h) /\
  (forall a, addrOutside (hashes txs) bc' a = addrOutside (hashes txs) bc a) /\
  chainFile bc' = chainFile bc /\ durableHead bc' = durableHead bc.
Proof.
  intros Hh Hn. unfold undoExplorerConfirmLocked. cbv zeta.
  rewrite Hh, length_app, Nat.add_comm. simpl.
  rewrite lookup_app_r, Nat.sub_diag by done. simpl. rewrite Hn, Z.eqb_refl, take_app_length, nonNil_Some.
  set (bc1 := if _ =? _ then _ else _). set (bc2 := set_totalFeesCollected _ _).
  destruct (undo_foldl_frame requeue bc2 txs) as (-> & -> & -> & -> & ->).
  destruct (undo_foldl_pools requeue bc2 txs) as (-> & -> & ->).
  assert (Hb : transactions bc2 = transactions bc /\ mempool bc2 = mempool bc /\ pendingBlock bc2 = pendingBlock bc
    /\ confirmedHashes bc2 = confirmedHashes bc /\ addressTxs bc2 = addressTxs bc /\ chainFile bc2 = chainFile bc
    /\ durableHead bc2 = durableHead bc /\ blockHistory bc2 = hist /\
    blockCounter bc2 = (if blockCounter bc =? i64 (b_BlockNumber b + 1) then b_BlockNumber b else blockCounter bc)
    /\ totalFeesCollected bc1 = totalFeesCollected bc).
  { subst bc2 bc1. simpl. destruct (_ =? _); repeat split. }
  destruct Hb as (Ht & -> & -> & -> & Ha & -> & -> & -> & -> & Hf).
  split; [done|]. split; [done|]. split.
  { subst bc2. simpl. rewrite Hf. destruct (i64 (totalFeesCollected bc - b_TotalFees b) <? 0) eqn:E; bools; lia. }
  split; [done|]. split; [done|]. split; [done|]. split; [intros h; rewrite undo_foldl_tx; by rewrite Ht|].
  split; [|done]. intros a. rewrite undo_foldl_outside by done. unfold addrOutside, addrTxs. by rewrite Ha.
Qed.

(** ** chain.json *)

Section Persist.
Context {CS : Type} {R : GoRange}.
Implicit Types (w : World CS) (f : Faults CS) (e : Env CS).

(** A failed write leaves the world alone; a successful one stores the
    snapshot and raises the durable head. *)
Lemma persistChain_err f w w' m : persistChain f w = (w', Err m) -> w' = w.
Proof.
  unfold persistChain, atomicWriteFile. intros H. repeat case_match; simplify_eq; done.
Qed.

Lemma persistChain_ok f w w' u :
  persistChain f w = (w', Ok u) ->
  w' = w /\ chainFile (w_bc w) = "" \/
  chainFile (w_bc w) <> "" /\
  (durableHead (w_bc w) < 0 \/ durableHead (w_bc w) <= historyHead (blockHistory (w_bc w))) /\
  w' = mkWorld (set_durableHead (Z.max (durableHead (w_bc w)) (historyHead (blockHistory (w_bc w)))) (w_bc w))
         (w_state w) (w_bak w) (Some (chainSnapshot (w_bc w))).
Proof.
  unfold persistChain. cbv zeta. intros H. destruct (String.eqb _ _) eqn:E; bools.
  { left. by simplify_eq. }
  right. split; [done|].
  change (f_Blocks (chainSnapshot (w_bc w))) with (blockHistory (w_bc w)) in *.
  destruct ((0 <=? _) && _) eqn:Eg; [done|]. split.
  { apply andb_false_iff in Eg as [Eg|Eg]; bools; lia. }
  unfold atomicWriteFile in H. destruct (chainWrite f); simplify_eq.
  destruct (durableHead (w_bc w) <? historyHead (blockHistory (w_bc w))) eqn:Eh; bools; simplify_eq.
  - rewrite Z.max_r by lia. done.
  - rewrite Z.max_l by lia. destruct w as [bc ???]. simpl. by destruct bc.
Qed.

(** ** The batch and its rollback *)

Lemma maybeDagReorder_frame e (ls : LedgerService CS) txs bc bc' r :
  maybeDagReorder e ls txs bc = (bc', r) -> bc' = bc \/ bc' = ClearDagCommitDigests bc.
Proof. unfold maybeDagReorder. intros H. repeat case_match; simplify_eq; auto. Qed.

(** Whatever order the DAG gives, the applied batch is the given one. *)
Lemma maybeDagReorder_perm e (ls : LedgerService CS) txs bc bc' txs' :
  maybeDagReorder e ls txs bc = (bc', Ok txs') -> txs' ≡ₚ txs.
Proof.
  unfold maybeDagReorder. intros H. repeat case_match; simplify_eq; try done; apply PermuteByDigests_perm.
Qed.

Definition dag_only (bc bc' : Blockchain) : Prop := bc' = bc \/ bc' = ClearDagCommitDigests bc.

(** A failed batch leaves the state file as it was (when the restore works),
    the chain and chain.json too; a successful one leaves a snapshot of the
    state it started from. *)
Lemma apply_err e f txs w w' m :
  applyConfirmedTransactions e f txs w = (w', Err m) -> restoreCopy f = CopyOk ->
  w_state w' = w_state w /\ w_chain w' = w_chain w /\ dag_only (w_bc w) (w_bc w').
Proof.
  unfold applyConfirmedTransactions. intros H Hr.
  destruct (ledger e) as [ls|]; [|case_match; simplify_eq; repeat split; by left].
  unfold snapshotState in H. destruct (snapCopy f); simpl in H;
    [|simplify_eq; repeat split; by left|simplify_eq; repeat split; by left].
  destruct (maybeDagReorder _ _ _ _) as [bc' [txs'|m']] eqn:Ed; apply maybeDagReorder_frame in Ed.
  - destruct (applyBatch _ _ _ _) as [cs [|]]; simplify_eq. unfold rollback, restoreState, removeBak.
    simpl. rewrite Hr. by destruct (removeOk f).
  - simplify_eq. unfold rollback, restoreState, removeBak. simpl. rewrite Hr. by destruct (removeOk f).
Qed.

Lemma apply_ok e f txs w w' hasBak :
  applyConfirmedTransactions e f txs w = (w', Ok hasBak) ->
  dag_only (w_bc w) (w_bc w') /\ w_chain w' = w_chain w /\
  if hasBak then w_bak w' = Some (w_state w) /\
    exists ls txs', ledger e = Some ls /\ txs' ≡ₚ txs /\ applyBatch e ls txs' (w_state w) = (w_state w', Ok ())
  else w' = w /\ ledger e = None /\ explorerOnlyConfirm (w_bc w) = true.
Proof.
  unfold applyConfirmedTransactions. intros H.
  destruct (ledger e) as [ls|]; [|by case_match; simplify_eq; repeat split; [left|..]].
  unfold snapshotState in H. destruct (snapCopy f); simpl in H; [|done|done].
  destruct (maybeDagReorder _ _ _ _) as [bc' [txs'|m']] eqn:Ed; [|done].
  apply maybeDagReorder_frame in Ed as Ef. apply maybeDagReorder_perm in Ed.
  destruct (applyBatch _ _ _ _) as [cs [[]|]] eqn:Ea; simplify_eq/=. repeat split; [done|].
  by exists ls, txs'.
Qed.
End Persist.

(** ** Confirmation *)

Lemma i64_add_sub t s : is_i64 t -> i64 (i64 (t + s) - i64 s) = t.
Proof.
  intros H. rewrite <- (i64_small t H) at 2. unfold i64. f_equal.
  replace ((t + s + two63) mod two64 - two63 - ((s + two63) mod two64 - two63) + two63)
    with ((t + s + two63) mod two64 - (s + two63) mod two64 + two63) by lia.
  rewrite <- Zplus_mod_idemp_l, <- Zminus_mod, Zplus_mod_idemp_l. f_equal. lia.
Qed.

(** The chain after the loop over [txs], as the confirm paths build it: [close]
    is the pool they empty and [lastOf] the transaction the stamp may use. *)
Lemma confirm_loop bc1 txs bc b now l :
  foldl confirmOne (openBlock bc1) txs = (bc, b) -> is_i64 (totalFeesCollected bc1) ->
  let b' := stampBlock now l b in
  bc = foldl (adoptOne (blockCounter bc1)) (set_blockCounter (i64 (blockCounter bc1 + 1)) bc1) txs /\
  b_BlockNumber b' = blockCounter bc1 /\ b_TxHashes b' = hashes txs /\
  b_TxCount b' = Z.of_nat (length txs) /\ b_TotalFees b' = i64 (sumFees txs) /\ b_BlockHash b' = "" /\
  same_frame (set_blockCounter (i64 (blockCounter bc1 + 1)) bc1) bc /\
  totalFeesCollected bc = i64 (totalFeesCollected bc1 + sumFees txs) /\
  confirmedHashes bc = list_to_set (hashes txs) ∪ confirmedHashes bc1.
Proof.
  unfold openBlock. rewrite confirmOne_foldl. intros [= <- <-] Hf. cbv zeta.
  destruct (stampBlock_fields now l (foldl (fun b tx => blockAdd (confirmFee tx) tx b)
    (mkBlock (blockCounter bc1) 0 [] 0 0 "" "" "" "" "" 0 0 0 0 0 "" "" ∅ ∅) txs)) as (-> & -> & -> & -> & ->).
  destruct (blockAdd_foldl (mkBlock (blockCounter bc1) 0 [] 0 0 "" "" "" "" "" 0 0 0 0 0 "" "" ∅ ∅) txs)
    as (-> & -> & -> & -> & ->); [by unfold is_i64, two63|].
  do 6 (split; [done|]). split; [apply adopt_foldl_frame|].
  split; [by rewrite adopt_foldl_fees|]. by rewrite adopt_foldl_confirmed.
Qed.

(** The undo of a confirmed batch on the chain the paths hand to it. *)
Lemma undo_confirm bc1 bc txs b t requeue bc2 :
  bc = foldl (adoptOne (blockCounter bc1)) (set_blockCounter (i64 (blockCounter bc1 + 1)) bc1) txs ->
  b_BlockNumber b = blockCounter bc1 -> b_TotalFees b = i64 (sumFees txs) ->
  0 <= totalFeesCollected bc1 < two63 -> Forall (fun tx => tx_Hash tx ∉ confirmedHashes bc1) txs ->
  blockHistory bc2 = blockHistory bc ++ [t] -> b_BlockNumber t = b_BlockNumber b ->
  blockCounter bc2 = blockCounter bc -> totalFeesCollected bc2 = totalFeesCollected bc -> confirmedHashes bc2 = confirmedHashes bc ->
  transactions bc2 = transactions bc -> addressTxs bc2 = addressTxs bc ->
  let bc' := undoExplorerConfirmLocked b (Some <$> txs) requeue bc2 in
  blockHistory bc' = blockHistory bc1 /\ blockCounter bc' = blockCounter bc1 /\
  totalFeesCollected bc' = totalFeesCollected bc1 /\ confirmedHashes bc' = confirmedHashes bc1 /\
  (forall h, h ∉ hashes txs -> transactions bc' !! h = transactions bc1 !! h) /\
  (forall a, addrOutside (hashes txs) bc' a = addrOutside (hashes txs) bc1 a).
Proof.
  intros Hbc Hn Hfb Hf0 Hfresh Hhist Htn Hcnt Htot Hconf Htx Haddr. cbv zeta.
  assert (Hf : is_i64 (totalFeesCollected bc1)) by (unfold is_i64, two63 in *; lia).
  destruct (adopt_foldl_frame (blockCounter bc1) (set_blockCounter (i64 (blockCounter bc1 + 1)) bc1) txs)
    as (_ & _ & Fc & Fh & _).
  destruct (undoExplorer_spec bc2 (blockHistory bc) t b txs requeue Hhist Htn)
    as (-> & -> & -> & _ & _ & -> & Ht & Ha & _).
  rewrite Hcnt, Htot, Hconf, Hbc, Fc, Fh, adopt_foldl_fees, adopt_foldl_confirmed, Hn, Hfb by done.
  cbn [blockCounter set_blockCounter totalFeesCollected confirmedHashes blockHistory].
  rewrite Z.eqb_refl, i64_add_sub by done.
  split; [done|]. split; [done|]. split; [lia|]. split.
  { rewrite Forall_forall in Hfresh. apply set_eq. intros h.
    rewrite elem_of_difference, elem_of_union, !elem_of_list_to_set. split; [naive_solver|]. intros Hh.
    split; [by right|]. intros (tx & -> & Hin)%list_elem_of_fmap. by apply (Hfresh tx). }
  split.
  - intros h Hh. rewrite Ht, decide_False by done. rewrite Htx, Hbc, adopt_foldl_tx_other by done. done.
  - intros a. rewrite Ha. unfold addrOutside, addrTxs. rewrite Haddr, Hbc.
    apply (adopt_foldl_outside (blockCounter bc1) (set_blockCounter (i64 (blockCounter bc1 + 1)) bc1) txs
             (hashes txs) a). done.
Qed.

Section L2.
Context {CS : Type} {R : GoRange}.
Implicit Types (w : World CS) (f : Faults CS) (e : Env CS).

(** The chain when [L2ConfirmBlock] takes the lock for the second time. *)
Definition relocked e f (meanwhile : Blockchain -> Blockchain) w : Blockchain :=
  meanwhile (w_bc (applyConfirmedTransactions e f (Some <$> pendingBlock (w_bc w)) w).1).

Lemma set_durableHead_same bc : set_durableHead (durableHead bc) bc = bc.
Proof. by destruct bc. Qed.

(** The world a successful confirmation leaves. *)
Lemma L2_ok_shape e f meanwhile now w w1 moved b hasBak :
  L2ConfirmBlock e f meanwhile now w = (w1, Ok (moved, b, hasBak)) ->
  is_i64 (totalFeesCollected (relocked e f meanwhile w)) ->
  let bc1 := relocked e f meanwhile w in
  moved = pendingBlock (w_bc w) /\ b_BlockNumber b = blockCounter bc1 /\ b_TotalFees b = i64 (sumFees moved) /\
  (exists d, w_bc w1 = set_durableHead d (appendBlock b (set_pendingBlock []
     (foldl (adoptOne (blockCounter bc1)) (set_blockCounter (i64 (blockCounter bc1 + 1)) bc1) moved)))) /\
  (if hasBak then w_bak w1 = Some (w_state w) else w_state w1 = w_state w) /\
  (ledger e <> None -> hasBak = true) /\
  (chainFile bc1 <> "" -> w_chain w1 = Some (chainSnapshot (w_bc w1)) /\
                          historyHead (blockHistory (w_bc w1)) <= durableHead (w_bc w1)).
Proof.
  intros Hrun Hf. cbv zeta. unfold relocked in *. unfold L2ConfirmBlock in Hrun.
  destruct (applyConfirmedTransactions _ _ _ _) as [wa [hb|]] eqn:Ea; [|done].
  apply apply_ok in Ea as (_ & _ & Hcore). repeat (destruct (negb _); [done|]).
  cbn [fst w_bc with_bc] in *. set (bc1 := meanwhile (w_bc wa)) in *.
  destruct (foldl confirmOne _ _) as [bc b0] eqn:El.
  destruct (persistChain _ _) as [wp [u|]] eqn:Ep; [|done]. injection Hrun as <- <- <- <-.
  apply (confirm_loop _ _ _ _ now (lastTx bc)) in El as (-> & Hn & _ & _ & Hbf & _); [|done].
  split; [done|]. split; [done|]. split; [done|].
  assert (Hcf : chainFile (foldl (adoptOne (blockCounter bc1)) (set_blockCounter (i64 (blockCounter bc1 + 1)) bc1)
                  (pendingBlock (w_bc w))) = chainFile bc1)
    by by destruct (adopt_foldl_frame (blockCounter bc1)
      (set_blockCounter (i64 (blockCounter bc1 + 1)) bc1) (pendingBlock (w_bc w))) as (_ & _ & _ & _ & ? & _).
  assert (Hb : if hb then w_bak wa = Some (w_state w) else w_state wa = w_state w)
    by (destruct hb; [by destruct Hcore|by destruct Hcore as [-> _]]).
  assert (Hl : ledger e <> None -> hb = true) by (destruct hb; [done|by destruct Hcore as (_ & -> & _)]).
  apply persistChain_ok in Ep as [[-> Hc]|(Hc & _ & ->)]; cbn [w_bc w_bak w_state w_chain with_bc] in *.
  - split; [eexists; symmetry; apply set_durableHead_same|]. split; [done|]. split; [done|].
    cbn in Hc. congruence.
  - split; [by eexists|]. split; [done|]. split; [done|]. intros _. split; [done|]. cbn. lia.
Qed.

(** C2: a successful L2 confirmation. The block has the next number, exactly
    the pending hashes in order, their count and the wrapped sum of their fees;
    the history grows by that block only, the pending block is emptied, every
    moved transaction is marked confirmed, indexed and carries the block's
    number; Core holds the result of the batch (in some order) and the returned
    backup is the state before it; chain.json, when configured, is the snapshot
    of the resulting chain. *)
Theorem l2_confirm_success e f meanwhile now w w' moved b hasBak
  (Hrun : L2ConfirmBlock e f meanwhile now w = (w', Ok (moved, b, hasBak)))
  (Hnd : NoDup (hashes (pendingBlock (w_bc w))))
  (Hfees : is_i64 (totalFeesCollected (relocked e f meanwhile w))) :
  let bc1 := relocked e f meanwhile w in
  let bc' := w_bc w' in
  moved = pendingBlock (w_bc w) /\
  (b_BlockNumber b = blockCounter bc1 /\ b_TxHashes b = hashes moved /\
   b_TxCount b = Z.of_nat (length moved) /\ b_TotalFees b = i64 (sumFees moved)) /\
  blockHistory bc' = blockHistory bc1 ++ [b] /\ blockCounter bc' = i64 (blockCounter bc1 + 1) /\
  totalFeesCollected bc' = i64 (totalFeesCollected bc1 + sumFees moved) /\
  mempool bc' = mempool bc1 /\ pendingBlock bc' = [] /\
  confirmedHashes bc' = list_to_set (hashes moved) ∪ confirmedHashes bc1 /\
  (forall tx, tx ∈ moved -> transactions bc' !! tx_Hash tx = Some tx /\ BlockNumber bc' tx = b_BlockNumber b) /\
  (hasBak = true -> w_bak w' = Some (w_state w) /\
     exists ls txs, ledger e = Some ls /\ txs ≡ₚ Some <$> moved /\
       applyBatch e ls txs (w_state w) = (w_state w', Ok ())) /\
  (chainFile bc1 <> "" -> w_chain w' = Some (chainSnapshot bc')).
Proof.
  cbv zeta. unfold relocked in *. unfold L2ConfirmBlock in Hrun.
  destruct (applyConfirmedTransactions _ _ _ _) as [wa [hb|]] eqn:Ea; [|done].
  apply apply_ok in Ea as (_ & _ & Hcore).
  repeat (destruct (negb _); [done|]). simpl in *. set (bc1 := meanwhile (w_bc wa)) in *.
  destruct (foldl confirmOne _ _) as [bc b0] eqn:El.
  destruct (persistChain _ _) as [wp [u|]] eqn:Ep; [|done]. simplify_eq.
  apply (confirm_loop _ _ _ _ now (lastTx bc)) in El as (Hbc & ? & ? & ? & ? & _ & Hfr & Hfee & Hconf); [|done].
  destruct Hfr as (Hm & _ & Hcnt & Hhist & Hcf & _). simpl in *.
  assert (Hrows : forall tx, tx ∈ pendingBlock (w_bc w) ->
    transactions bc !! tx_Hash tx = Some tx /\ BlockNumber bc tx = blockCounter bc1).
  { intros tx Hin. rewrite Hbc. split; [by apply adopt_foldl_tx|].
    apply adopt_foldl_number. apply list_elem_of_fmap. by exists tx. }
  assert (Hcore' : hasBak = true -> w_bak wa = Some (w_state w) /\
    exists ls txs, ledger e = Some ls /\ txs ≡ₚ Some <$> pendingBlock (w_bc w) /\
      applyBatch e ls txs (w_state w) = (w_state wa, Ok ())) by (by intros ->).
  apply persistChain_ok in Ep as [[-> Hcf']|(Hcf' & _ & ->)]; simpl in *.
  - rewrite Hhist, Hcnt, Hfee, Hm, Hconf. repeat (split; [done|]). split; [|split].
    + intros tx Hin. destruct (Hrows tx Hin) as [? Hbn]. split; [done|]. unfold BlockNumber in *. simpl. congruence.
    + done.
    + congruence.
  - rewrite Hhist, Hcnt, Hfee, Hm, Hconf. repeat (split; [done|]). split; [|split; [done|done]].
    intros tx Hin. destruct (Hrows tx Hin) as [? Hbn]. split; [done|]. unfold BlockNumber in *. simpl. congruence.
Qed.
(** What the two abort paths leave: the chain they are meant to leave, the
    backed-up state when there is a backup, chain.json as it is. *)
Lemma abort_spec f (hasBak : bool) b moved requeue w cs :
  (if hasBak then w_bak w = Some cs /\ restoreCopy f = CopyOk else w_state w = cs) ->
  (w_state (abortTOCTOU f hasBak w) = cs /\ w_chain (abortTOCTOU f hasBak w) = w_chain w) /\
  (w_state (abortPersist f hasBak b moved requeue w) = cs /\
   w_chain (abortPersist f hasBak b moved requeue w) = w_chain w).
Proof.
  unfold abortTOCTOU, abortPersist, restoreState, removeBak. destruct hasBak; [|done].
  intros [-> ->]. by destruct (removeOk f).
Qed.

Lemma abortTOCTOU_bc f hasBak w : w_bc (abortTOCTOU f hasBak w) = set_pendingBlock [] (w_bc w).
Proof.
  unfold abortTOCTOU, restoreState, removeBak. destruct hasBak; [|done].
  destruct (w_bak w), (restoreCopy f), (removeOk f); done.
Qed.

Lemma abortPersist_bc f hasBak b moved requeue w :
  w_bc (abortPersist f hasBak b moved requeue w) = undoExplorerConfirmLocked b moved requeue (w_bc w).
Proof.
  unfold abortPersist, restoreState, removeBak. destruct hasBak; [|done].
  destruct (w_bak w), (restoreCopy f), (removeOk f); done.
Qed.

(** a failed L2 confirmation never moves Core or chain.json. Whatever
    fails (the snapshot, the DAG order, a transaction of the batch, the fence,
    the chain.json write), when the copy back works the state file and
    chain.json are those of before the call, and no history entry was added. *)
Theorem l2_failure_restores_core e f meanwhile now w w' m
  (Hrun : L2ConfirmBlock e f meanwhile now w = (w', Err m)) (Hcopy : restoreCopy f = CopyOk) :
  w_state w' = w_state w /\ w_chain w' = w_chain w /\
  (blockHistory (w_bc w') = blockHistory (w_bc w) \/
   blockHistory (w_bc w') = blockHistory (relocked e f meanwhile w)).
Proof.
  unfold relocked in *. unfold L2ConfirmBlock in Hrun.
  destruct (applyConfirmedTransactions _ _ _ _) as [wa [hb|]] eqn:Ea.
  2:{ simplify_eq. apply apply_err in Ea as (? & ? & Hd); [|done].
      split; [done|]. split; [done|]. left. by destruct Hd as [-> | ->]. }
  cut (w_state w' = w_state w /\ w_chain w' = w_chain w /\
       blockHistory (w_bc w') = blockHistory (meanwhile (w_bc wa))).
  { intros (? & ? & ?). split; [done|]. split; [done|]. by right. }
  apply apply_ok in Ea as (_ & Hch & Hcore). cbn [fst] in *.
  set (bc1 := meanwhile (w_bc wa)) in *. cbn [w_bc with_bc] in Hrun.
  assert (Hpre : forall bc, if hb then w_bak (with_bc bc wa) = Some (w_state w) /\ restoreCopy f = CopyOk
                            else w_state (with_bc bc wa) = w_state w).
  { intros bc. destruct hb; [by destruct Hcore|by destruct Hcore as [-> _]]. }
  destruct (negb (Nat.eqb _ _)).
  { simplify_eq. rewrite abortTOCTOU_bc.
    by destruct (abort_spec f hb zeroBlock [] "" _ _ (Hpre bc1)) as [[-> ->] _]. }
  destruct (negb (bool_decide _)).
  { simplify_eq. rewrite abortTOCTOU_bc.
    by destruct (abort_spec f hb zeroBlock [] "" _ _ (Hpre bc1)) as [[-> ->] _]. }
  destruct (foldl confirmOne _ _) as [bc b0] eqn:El.
  destruct (persistChain _ _) as [wp [u|]] eqn:Ep; [done|]. simplify_eq.
  apply persistChain_err in Ep as ->. rewrite abortPersist_bc.
  destruct (abort_spec f hb (stampBlock now (lastTx (set_pendingBlock [] bc)) b0) (Some <$> pendingBlock (w_bc w))
              "pending" (with_bc (appendBlock (stampBlock now (lastTx (set_pendingBlock [] bc)) b0)
                                   (set_pendingBlock [] bc)) (with_bc bc1 wa)) _ (Hpre _)) as [_ [-> ->]].
  unfold openBlock in El. rewrite confirmOne_foldl in El. injection El as Hbc _.
  destruct (adopt_foldl_frame (blockCounter bc1) (set_blockCounter (i64 (blockCounter bc1 + 1)) bc1)
              (pendingBlock (w_bc w))) as (_ & _ & _ & Hh & _).
  simpl in Hbc. rewrite Hbc in Hh. split; [done|]. split; [done|]. cbn [w_bc with_bc].
  by destruct (undoExplorer_spec (appendBlock (stampBlock now (lastTx (set_pendingBlock [] bc)) b0) (set_pendingBlock [] bc))
    (blockHistory bc) _ _ (pendingBlock (w_bc w)) "pending" eq_refl eq_refl) as (-> & _).
Qed.

(** the fence. When the pending block changed while the batch was applied
    without the lock, nothing is confirmed: Core is restored, chain.json is
    untouched, and the chain is the concurrent one with its pending block
    cleared. *)
Theorem l2_fence e f meanwhile now w wa hasBak
  (Happly : applyConfirmedTransactions e f (Some <$> pendingBlock (w_bc w)) w = (wa, Ok hasBak))
  (Hchanged : hashes (pendingBlock (relocked e f meanwhile w)) <> hashes (pendingBlock (w_bc w)))
  (Hcopy : restoreCopy f = CopyOk) :
  let r := L2ConfirmBlock e f meanwhile now w in
  is_ok r.2 = false /\ w_state r.1 = w_state w /\ w_chain r.1 = w_chain w /\
  w_bc r.1 = set_pendingBlock [] (relocked e f meanwhile w).
Proof.
  cbv zeta. unfold relocked in *. rewrite Happly in *. unfold L2ConfirmBlock. rewrite Happly.
  apply apply_ok in Happly as (_ & Hch & Hcore). cbn [fst w_bc with_bc] in *.
  assert (Hpre : if hasBak then w_bak (with_bc (meanwhile (w_bc wa)) wa) = Some (w_state w) /\ restoreCopy f = CopyOk
                 else w_state (with_bc (meanwhile (w_bc wa)) wa) = w_state w).
  { destruct hasBak; [by destruct Hcore|by destruct Hcore as [-> _]]. }
  destruct (abort_spec f hasBak zeroBlock [] "" _ _ Hpre) as [[Hs Hc] _].
  pose proof (abortTOCTOU_bc f hasBak (with_bc (meanwhile (w_bc wa)) wa)) as Hb. rewrite <- Hch.
  destruct (negb (Nat.eqb _ _)); [done|]. rewrite bool_decide_false by done. done.
Qed.

(** a failed chain.json write is undone in the explorer too. History,
    counter, total fees, confirmed set, mempool and pending block are those of
    the chain before the block was built, and so is the index for every hash
    that is not in the block. *)
Theorem l2_persist_failure_restores_explorer e f meanwhile now w w' wa hasBak m
  (Happly : applyConfirmedTransactions e f (Some <$> pendingBlock (w_bc w)) w = (wa, Ok hasBak))
  (Hsame : hashes (pendingBlock (relocked e f meanwhile w)) = hashes (pendingBlock (w_bc w)))
  (Hrun : L2ConfirmBlock e f meanwhile now w = (w', Err m))
  (Hfees : 0 <= totalFeesCollected (relocked e f meanwhile w) < two63)
  (Hfresh : Forall (fun tx => tx_Hash tx ∉ confirmedHashes (relocked e f meanwhile w)) (pendingBlock (w_bc w))) :
  let bc1 := relocked e f meanwhile w in
  let bc' := w_bc w' in
  blockHistory bc' = blockHistory bc1 /\ blockCounter bc' = blockCounter bc1 /\
  totalFeesCollected bc' = totalFeesCollected bc1 /\ confirmedHashes bc' = confirmedHashes bc1 /\
  mempool bc' = mempool bc1 /\ pendingBlock bc' = pendingBlock (w_bc w) /\
  (forall h, h ∉ hashes (pendingBlock (w_bc w)) -> transactions bc' !! h = transactions bc1 !! h) /\
  (forall a, addrOutside (hashes (pendingBlock (w_bc w))) bc' a =
             addrOutside (hashes (pendingBlock (w_bc w))) bc1 a).
Proof.
  cbv zeta. unfold relocked in *. rewrite Happly in *. unfold L2ConfirmBlock in Hrun. rewrite Happly in Hrun.
  cbn [fst w_bc with_bc] in *. set (bc1 := meanwhile (w_bc wa)) in *.
  assert (length (pendingBlock bc1) = length (pendingBlock (w_bc w))) as Hl.
  { rewrite <- (length_fmap tx_Hash (pendingBlock bc1)), <- (length_fmap tx_Hash (pendingBlock (w_bc w))).
    unfold hashes in Hsame. by rewrite Hsame. }
  rewrite Hl, Nat.eqb_refl, bool_decide_true in Hrun by done. simpl in Hrun.
  destruct (foldl confirmOne _ _) as [bc b0] eqn:El.
  destruct (persistChain _ _) as [wp [u|]] eqn:Ep; [done|]. simplify_eq.
  apply persistChain_err in Ep as ->.
  apply (confirm_loop _ _ _ _ now (lastTx bc)) in El as (Hbc & Hn & _ & _ & Hbf & _ & Hfr & _ & _);
    [|unfold is_i64, two63 in *; lia].
  destruct Hfr as (Hm & _ & Hcnt & Hhist & _). cbn [mempool blockCounter blockHistory set_blockCounter] in *.
  cbn [lastTx set_pendingBlock].
  set (b := stampBlock now (lastTx bc) b0) in *. set (bc2 := appendBlock b (set_pendingBlock [] bc)).
  rewrite abortPersist_bc. cbn [w_bc with_bc].
  destruct (undo_confirm bc1 bc (pendingBlock (w_bc w)) b b "pending" bc2) as (-> & -> & -> & -> & Ht & Ha); try done.
  destruct (undoExplorer_spec bc2 (blockHistory bc) b b (pendingBlock (w_bc w)) "pending" eq_refl eq_refl)
    as (_ & _ & _ & -> & -> & _).
  simpl. rewrite Hm. done.
Qed.
End L2.

(** ** Witnesses: a ledger that counts applied transactions, two pending *)

Definition demoCore : RustCore Z :=
  mkRustCore Z (fun _ cs => (cs + 1, Ok {| res_OK := true; res_Error := "" |}))
    (fun js cs => (cs + Z.of_nat (length js), Ok ())) (fun _ plp _ cs => (cs + plp, Ok ()))
    (fun _ _ n cs => (cs + n, Ok ())) (fun _ ds => Ok (Some {| dag_OK := true; dag_Digests := reverse ds |})).

Definition demoEnv : Env Z := mkEnv Z (Some (mkLedger Z demoCore true)) true true "n1".

Definition demoFaults (wr : writeOutcome) : Faults Z := mkFaults CopyOk CopyOk true wr.

Definition demoPending : Blockchain := set_chainFile "chain.json" (set_pendingBlock [txA; txB] NewBlockchain).

Definition demoWorld : World Z := mkWorld demoPending 100 None None.

#[local] Instance demoRange : GoRange := canonical_range.

Lemma l2_confirm_success_witness :
  exists w' b, L2ConfirmBlock demoEnv (demoFaults WriteOk) id 7 demoWorld = (w', Ok ([txA; txB], b, true)) /\
  b_TxHashes b = ["hash-a"; "hash-b"] /\ b_TotalFees b = 5 /\ w_state w' = 102 /\ w_bak w' = Some 100.
Proof.
  destruct (L2ConfirmBlock demoEnv (demoFaults WriteOk) id 7 demoWorld) as [w' r] eqn:E.
  assert (Hr : r = (L2ConfirmBlock demoEnv (demoFaults WriteOk) id 7 demoWorld).2) by (by rewrite E).
  vm_compute in Hr. subst r. eexists w', _. split; [reflexivity|].
  assert (Hs : w_state w' = 102) by (apply (f_equal (fun p => w_state p.1)) in E; vm_compute in E; done).
  pose proof (l2_confirm_success _ _ _ _ _ _ _ _ _ E) as H.
  assert (Hnd : NoDup (hashes (pendingBlock (w_bc demoWorld)))) by (apply (bool_decide_unpack _); vm_compute; done).
  assert (Hfee : is_i64 (totalFeesCollected (relocked demoEnv (demoFaults WriteOk) id demoWorld)))
    by (vm_compute; done).
  destruct (H Hnd Hfee) as (_ & (_ & Hh & _ & Hf) & _ & _ & _ & _ & _ & _ & _ & Hb & _).
  split; [exact Hh|]. split; [rewrite Hf; vm_compute; reflexivity|]. split; [exact Hs|]. by apply Hb.
Defined.

Lemma l2_failure_restores_core_witness :
  exists w' m, L2ConfirmBlock demoEnv (demoFaults TempFails) id 7 demoWorld = (w', Err m) /\ w_state w' = 100.
Proof.
  destruct (L2ConfirmBlock demoEnv (demoFaults TempFails) id 7 demoWorld) as [w' r] eqn:E.
  assert (Hr : r = (L2ConfirmBlock demoEnv (demoFaults TempFails) id 7 demoWorld).2) by (by rewrite E).
  vm_compute in Hr. subst r. eexists w', _. split; [reflexivity|].
  destruct (l2_failure_restores_core _ _ _ _ _ _ _ E eq_refl) as (-> & _). reflexivity.
Defined.

Lemma l2_fence_witness :
  let r := L2ConfirmBlock demoEnv (demoFaults WriteOk) (set_pendingBlock [txB]) 7 demoWorld in
  is_ok r.2 = false /\ w_state r.1 = 100.
Proof.
  destruct (l2_fence demoEnv (demoFaults WriteOk) (set_pendingBlock [txB]) 7 demoWorld
    (applyConfirmedTransactions demoEnv (demoFaults WriteOk) (Some <$> [txA; txB]) demoWorld).1 true)
    as (Hok & Hs & _); [vm_compute; reflexivity|vm_compute; done|reflexivity|].
  split; [exact Hok|exact Hs].
Defined.

Lemma l2_persist_failure_restores_explorer_witness :
  exists w' m, L2ConfirmBlock demoEnv (demoFaults RenameFails) id 7 demoWorld = (w', Err m) /\
  pendingBlock (w_bc w') = [txA; txB] /\ blockHistory (w_bc w') = [].
Proof.
  destruct (L2ConfirmBlock demoEnv (demoFaults RenameFails) id 7 demoWorld) as [w' r] eqn:E.
  assert (Hr : r = (L2ConfirmBlock demoEnv (demoFaults RenameFails) id 7 demoWorld).2) by (by rewrite E).
  vm_compute in Hr. subst r. eexists w', _. split; [reflexivity|].
  destruct (l2_persist_failure_restores_explorer demoEnv (demoFaults RenameFails) id 7 demoWorld w'
    (applyConfirmedTransactions demoEnv (demoFaults RenameFails) (Some <$> [txA; txB]) demoWorld).1 true "explorer persist failed after core apply")
    as (Hh & _ & _ & _ & _ & Hp & _);
    [vm_compute; reflexivity|vm_compute; reflexivity|exact E|vm_compute; done| |].
  - repeat constructor; vm_compute; done.
  - split; [exact Hp|]. rewrite Hh. vm_compute. reflexivity.
Defined.
