(* ===== verification/History.v ===== *)
(** * The explorer history and its two sources (chain_store.go, rocks_reads.go, chain_sync.go)

    Loading chain.json, reading Core's RocksDB, rebuilding history rows from
    the transaction index, and the read paths that serve the history frozen at
    the Rocks head. RocksDB is read through Core: [RocksReads] holds the
    replies of one store content; [None] for the client is the disabled store. *)

From S2P Require Import Prelude GoStd Dag Tx ForkChoice Chain Confirm.
From stdpp Require Import sorting.

#[local] Open Scope Z_scope.

Record RocksBlockStored := mkStored {
  rb_Height : Z;
  rb_PreviousHash : string;
  rb_Timestamp : Z;
  rb_TxHashes : list string;
  rb_MerkleRoot : string;
  rb_StateRoot : string;
  rb_BlockHash : string;
  rb_ProducerID : string
}.

(** [RocksGetTx] gives the object decoded from the stored JSON and its
    ["tx_kind"] member. *)
Record RocksReads := mkRocks {
  RocksGetHead : result Z;
  RocksGetBlock : Z -> result (option RocksBlockStored);
  RocksGetTx : string -> result (option (Transaction * string))
}.

Definition blockRecordFromRocks (b : RocksBlockStored) : BlockRecord :=
  mkBlock (RocksHeightToGatewayBlock (rb_Height b)) (rb_Timestamp b) (rb_TxHashes b)
    (Z.of_nat (length (rb_TxHashes b))) 0 (rb_BlockHash b) (rb_MerkleRoot b) (rb_StateRoot b)
    (rb_PreviousHash b) (rb_ProducerID b) 0 0 0 0 0 "" "" ∅ ∅.

(** The defaults [txFromCoreJSON] fills in after decoding. *)
Definition txFromCoreJSON (tx : Transaction) (kind : string) : Transaction :=
  mkTx (tx_ref tx) (tx_Hash tx) (tx_From tx) (tx_To tx)
    (if String.eqb (tx_Value tx) "" && (0 <? tx_AmountUplp tx) then FormatUint (tx_AmountUplp tx) else tx_Value tx)
    (if String.eqb (tx_Fee tx) "" && (0 <? tx_FeeUplp tx) then FormatUint (tx_FeeUplp tx) else tx_Fee tx)
    (tx_Nonce tx) (tx_Timestamp tx)
    (if String.eqb (tx_Type tx) "" then kind else tx_Type tx) (tx_AssetType tx) (tx_ContractAddress tx)
    (tx_SigMain tx) (tx_SigDerived tx) (tx_PubMain tx) (tx_PubDerived tx)
    (if String.eqb (tx_Asset tx) "" then "PLP" else tx_Asset tx) (tx_AmountUplp tx) (tx_FeeUplp tx)
    (tx_Reads tx) (tx_Writes tx) (tx_RequestIDHash tx) (tx_EscrowID tx) (tx_Purpose tx) (tx_ExpiresAt tx)
    (tx_SettleOutcome tx) (tx_SettleOutcomeKey tx) (tx_SettlePayee tx) (tx_SettleNode tx).

(** [tx.Timestamp = ts] on an object not shared yet. *)
Definition withTxTimestamp (ts : Z) (tx : Transaction) : Transaction :=
  mkTx (tx_ref tx) (tx_Hash tx) (tx_From tx) (tx_To tx) (tx_Value tx) (tx_Fee tx) (tx_Nonce tx) ts
    (tx_Type tx) (tx_AssetType tx) (tx_ContractAddress tx) (tx_SigMain tx) (tx_SigDerived tx)
    (tx_PubMain tx) (tx_PubDerived tx) (tx_Asset tx) (tx_AmountUplp tx) (tx_FeeUplp tx) (tx_Reads tx)
    (tx_Writes tx) (tx_RequestIDHash tx) (tx_EscrowID tx) (tx_Purpose tx) (tx_ExpiresAt tx)
    (tx_SettleOutcome tx) (tx_SettleOutcomeKey tx) (tx_SettlePayee tx) (tx_SettleNode tx).

Section Rocks.
Implicit Types (rocks : option RocksReads) (probe : option (option Z)).

(** [headBlockNumberFromRocks]; [probe] is the test override, [None] result is [(-1, false)]. *)
Definition headBlockNumberFromRocks probe rocks : option Z :=
  match probe with
  | Some p => p
  | None =>
      match rocks with
      | None => None
      | Some r => match RocksGetHead r with Ok head => Some (RocksHeightToGatewayBlock head) | Err _ => None end
      end
  end.

Definition storedAt (r : RocksReads) (h : Z) : option RocksBlockStored :=
  match RocksGetBlock r h with Ok (Some b) => Some b | _ => None end.

Definition getBlockFromRocks rocks (blockNumber : Z) : option BlockRecord :=
  match rocks with
  | None => None
  | Some r => blockRecordFromRocks <$> storedAt r (GatewayBlockToRocksHeight blockNumber)
  end.

Definition getTransactionFromRocks rocks (hash : string) : option Transaction :=
  match rocks with
  | None => None
  | Some r => match RocksGetTx r hash with
              | Ok (Some (tx, kind)) => Some (txFromCoreJSON tx kind)
              | _ => None
              end
  end.

(** [for h := uint64(1); h <= head; h++]. *)
Definition heights (head : Z) : list Z := (fun i => Z.of_nat i) <$> seq 1 (Z.to_nat head).

Definition listBlockHistoryFromRocks rocks : result (list BlockRecord) :=
  match rocks with
  | None => Err "rocks store unavailable"
  | Some r =>
      match RocksGetHead r with
      | Err m => Err m
      | Ok head => Ok (omap (fun h => blockRecordFromRocks <$> storedAt r h) (heights head))
      end
  end.

(** The inner loop of [listConfirmedTxsFromRocks] over one block: rows with
    their block number, and the hashes seen. *)
Definition confirmedRow rocks (h : Z) (stored : RocksBlockStored)
  (acc : list (Transaction * Z) * gset string) (hash : string) : list (Transaction * Z) * gset string :=
  let '(out, seen) := acc in
  if decide (hash ∈ seen) then acc
  else match getTransactionFromRocks rocks hash with
  | None => acc
  | Some tx =>
      let tx := if (tx_Timestamp tx <=? 0) && (0 <? rb_Timestamp stored)
                then withTxTimestamp (rb_Timestamp stored) tx else tx in
      (out ++ [(tx, RocksHeightToGatewayBlock h)], {[hash]} ∪ seen)
  end.

Definition listConfirmedTxsFromRocks rocks : result (list (Transaction * Z)) :=
  match rocks with
  | None => Err "rocks store unavailable"
  | Some r =>
      match RocksGetHead r with
      | Err m => Err m
      | Ok head =>
          Ok (foldl (fun acc h =>
                match storedAt r h with
                | None => acc
                | Some stored => foldl (confirmedRow rocks h stored) acc (rb_TxHashes stored)
                end) ([], ∅) (heights head)).1
      end
  end.
End Rocks.

(** ** attachConfirmedTxsToHistoryLocked *)

(** [index[BlockNumber] = i]: the last row of a height. *)
Fixpoint rowOf (n : Z) (i : nat) (hist : list BlockRecord) : option nat :=
  match hist with
  | [] => None
  | b :: rest =>
      match rowOf n (S i) rest with
      | Some j => Some j
      | None => if b_BlockNumber b =? n then Some i else None
      end
  end.

Definition addHash (h : string) (b : BlockRecord) : BlockRecord :=
  if decide (h ∈ b_TxHashes b) then b
  else
  mkBlock (b_BlockNumber b) (b_Timestamp b) (b_TxHashes b ++ [h]) (Z.of_nat (S (length (b_TxHashes b))))
    (b_TotalFees b) (b_BlockHash b) (b_MerkleRoot b) (b_StateRoot b) (b_PreviousHash b) (b_ProducerNodeID b)
    (b_L1Yes b) (b_L1No b) (b_L2Yes b) (b_L2No b) (b_DurationMs b) (b_L1Beneficiary b) (b_L2Confirmer b)
    (b_L1Votes b) (b_L2Votes b).

(** A row under construction: hashes, latest timestamp, fees. *)
Record built := mkBuilt { bt_hashes : list string; bt_ts : Z; bt_fees : Z }.

Definition extendBuilt (tx : Transaction) (row : built) : built :=
  mkBuilt (bt_hashes row ++ [tx_Hash tx]) (if bt_ts row <? tx_Timestamp tx then tx_Timestamp tx else bt_ts row)
          (i64 (bt_fees row + i64 (tx_FeeUplp tx))).

Definition attachOne (bc : Blockchain) (acc : list BlockRecord * gmap Z built) (kv : string * Transaction)
  : list BlockRecord * gmap Z built :=
  let '(hist, missing) := acc in
  let tx := kv.2 in
  let n := BlockNumber bc tx in
  if String.eqb (tx_Hash tx) "" || (n <=? 0) then acc
  else match rowOf n 0 hist with
  | Some i => (alter (addHash (tx_Hash tx)) i hist, missing)
  | None => (hist, <[n := extendBuilt tx (default (mkBuilt [] 0 0) (missing !! n))]> missing)
  end.

Definition rowFromBuilt (nr : Z * built) : BlockRecord :=
  mkBlock nr.1 (bt_ts nr.2) (bt_hashes nr.2) (Z.of_nat (length (bt_hashes nr.2))) (bt_fees nr.2)
    "" "" "" "" "" 0 0 0 0 0 "" "" ∅ ∅.

Definition numberLess (a b : BlockRecord) : bool := b_BlockNumber a <? b_BlockNumber b.

Section Attach.
Context {R : GoRange}.

(** The rows are appended in height order and the history sorted by height
    ([sort.Slice]; heights are distinct, see [attach_covers_index]). *)
Definition attachConfirmedTxsToHistoryLocked (bc : Blockchain) : Blockchain :=
  let '(hist, missing) := foldl (attachOne bc) (blockHistory bc, ∅) (range (transactions bc)) in
  let bc := set_blockHistory hist bc in
  if bool_decide (missing = ∅) then bc
  else
  let rows := rowFromBuilt <$> SliceStable (fun a b => a.1 <? b.1) (map_to_list missing) in
  let hist := SliceStable numberLess (hist ++ rows) in
  let bc := set_blockHistory hist bc in
  let h := historyHead hist in
  let bc := if (0 <=? h) && (blockCounter bc <=? h) then set_blockCounter (i64 (h + 1)) bc else bc in
  noteDurableHeadLocked bc.

(** [LoadChainFile]; [file] is the outcome of reading and decoding the path:
    [Ok None] when the file does not exist. The decoder allocates the objects. *)
Definition loadRow (bc : Blockchain) (row : option (Transaction * Z)) : Blockchain :=
  match row with
  | None => bc
  | Some (tx, n) =>
      if String.eqb (tx_Hash tx) "" then bc
      else
      let bc := setBlockNumber tx n bc in
      let bc := set_transactions (<[tx_Hash tx := tx]> (transactions bc)) bc in
      let bc := if 0 <=? n then markConfirmed (tx_Hash tx) bc else bc in
      let bc := set_lastTx (Some tx) bc in
      let bc := appendAddr (tx_From tx) tx bc in
      appendAddr (tx_To tx) tx bc
  end.

Definition LoadChainFile (path : string) (file : result (option ChainFileData)) (bc : Blockchain)
  : result Blockchain :=
  match file with
  | Err m => Err m
  | Ok None => Ok bc
  | Ok (Some file) =>
      if negb (f_Version file =? chainFileVersion) then Err "unsupported chain file version"
      else
      let bc := set_blockCounter (f_BlockCounter file) bc in
      let bc := set_totalFeesCollected (f_TotalFees file) bc in
      let bc := set_blockHistory (f_Blocks file) bc in
      let bc := set_transactions ∅ bc in
      let bc := set_addressTxs ∅ bc in
      let bc := set_confirmedHashes ∅ bc in
      let bc := foldl loadRow bc (f_Transactions file) in
      let bc := attachConfirmedTxsToHistoryLocked bc in
      let bc := noteDurableHeadLocked bc in
      Ok (set_chainFile path bc)
  end.

(** [SyncFromRocksHead]. *)
Definition SyncFromRocksHead (rocks : option RocksReads) (bc : Blockchain) : Blockchain * result unit :=
  match rocks with
  | None => (attachConfirmedTxsToHistoryLocked bc, Ok ())
  | Some r =>
      match RocksGetHead r with
      | Err m => (bc, Err m)
      | Ok head =>
          let bc := attachConfirmedTxsToHistoryLocked bc in
          let local := historyHead (blockHistory bc) in
          if (head =? 0) || (RocksHeightToGatewayBlock head <? local) then
            (if (0 <=? local) && (blockCounter bc <=? local) then set_blockCounter (i64 (local + 1)) bc else bc,
             Ok ())
          else match listBlockHistoryFromRocks rocks with
          | Err m => (bc, Err m)
          | Ok history =>
              let bc := set_blockCounter (i64 head) bc in
              let bc := match history with [] => bc | _ => set_blockHistory history bc end in
              (attachConfirmedTxsToHistoryLocked bc, Ok ())
          end
      end
  end.

(** [HydrateExplorerIndexFromRocks]. *)
Definition hydrateRow (bc : Blockchain) (row : Transaction * Z) : Blockchain :=
  let '(tx, n) := row in
  if String.eqb (tx_Hash tx) "" then bc
  else
  let bc := setBlockNumber tx n bc in
  let tx := match transactions bc !! tx_Hash tx with
            | Some prev => if BlockNumber bc tx <? BlockNumber bc prev then prev else tx
            | None => tx
            end in
  let bc := set_transactions (<[tx_Hash tx := tx]> (transactions bc)) bc in
  set_lastTx (Some tx) (markConfirmed (tx_Hash tx) bc).

Definition reindexRow (bc : Blockchain) (kv : string * Transaction) : Blockchain :=
  let tx := kv.2 in
  if String.eqb (tx_Hash tx) "" then bc
  else
  let bc := if nonEmpty (tx_From tx) then appendAddr (tx_From tx) tx bc else bc in
  if nonEmpty (tx_To tx) && negb (String.eqb (tx_To tx) (tx_From tx)) then appendAddr (tx_To tx) tx bc else bc.

Definition HydrateExplorerIndexFromRocks (rocks : option RocksReads) (bc : Blockchain)
  : Blockchain * result Z :=
  match listConfirmedTxsFromRocks rocks with
  | Err m => (bc, Err m)
  | Ok [] => let bc := attachConfirmedTxsToHistoryLocked bc in (bc, Ok (Z.of_nat (size (transactions bc))))
  | Ok txs =>
      let bc := foldl hydrateRow bc txs in
      let bc := foldl reindexRow (set_addressTxs ∅ bc) (range (transactions bc)) in
      let bc := attachConfirmedTxsToHistoryLocked bc in
      (bc, Ok (Z.of_nat (size (transactions bc))))
  end.
End Attach.

(** ** Read paths, frozen at the Rocks head *)

Section Reads.
Implicit Types (rocks : option RocksReads) (probe : option (option Z)).

Definition lastNumber (hist : list BlockRecord) : Z :=
  match hist !! pred (length hist) with Some b => b_BlockNumber b | None => -1 end.

Definition HeadBlockNumber probe rocks (bc : Blockchain) : Z :=
  let memHead := lastNumber (blockHistory bc) in
  match headBlockNumberFromRocks probe rocks with
  | Some rocksHead => CanonicalHeadNumber memHead rocksHead true
  | None => memHead
  end.

(** [for i := len-1; i >= 0; i--] with a test. *)
Definition findLast (P : BlockRecord -> bool) (hist : list BlockRecord) : option BlockRecord :=
  snd <$> list_find (fun b => P b = true) (reverse hist).

Definition findFirst (P : BlockRecord -> bool) (hist : list BlockRecord) : option BlockRecord :=
  snd <$> list_find (fun b => P b = true) hist.

Definition HeadBlock probe rocks (bc : Blockchain) : option BlockRecord :=
  match headBlockNumberFromRocks probe rocks with
  | Some rocksHead =>
      if rocksHead <? 0 then None
      else match findLast (fun b => b_BlockNumber b =? rocksHead) (blockHistory bc) with
      | Some b => Some b
      | None => getBlockFromRocks rocks rocksHead
      end
  | None => blockHistory bc !! pred (length (blockHistory bc))
  end.

Definition GetBlockHistory probe rocks (bc : Blockchain) : list BlockRecord :=
  let out := blockHistory bc in
  let out := match out, rocks with
             | [], Some _ => match listBlockHistoryFromRocks rocks with Ok bs => bs | Err _ => out end
             | _, _ => out
             end in
  match headBlockNumberFromRocks probe rocks with
  | Some rocksHead => FreezeBlockHistory out rocksHead true
  | None => out
  end.

Definition GetBlockByNumber probe rocks (n : Z) (bc : Blockchain) : option BlockRecord :=
  let ahead := match headBlockNumberFromRocks probe rocks with
               | Some rocksHead => rocksHead <? n | None => false end in
  if ahead then None
  else match findFirst (fun b => b_BlockNumber b =? n) (blockHistory bc) with
  | Some b => Some b
  | None => getBlockFromRocks rocks n
  end.

Definition genesisPreviousHash : string :=
  "0000000000000000000000000000000000000000000000000000000000000000".

Definition hashOr (b : option BlockRecord) : option string :=
  match b with Some b => if nonEmpty (b_BlockHash b) then Some (b_BlockHash b) else None | None => None end.

Definition GetPreviousBlockHash probe rocks (bc : Blockchain) : string :=
  match findLast (fun b => nonEmpty (b_BlockHash b)) (blockHistory bc) with
  | Some b => b_BlockHash b
  | None =>
      match headBlockNumberFromRocks probe rocks with
      | Some rocksHead =>
          if rocksHead <? 0 then genesisPreviousHash
          else match hashOr (getBlockFromRocks rocks rocksHead) with
          | Some h => h
          | None =>
              if 0 <? rocksHead then default genesisPreviousHash (hashOr (getBlockFromRocks rocks (rocksHead - 1)))
              else genesisPreviousHash
          end
      | None => genesisPreviousHash
      end
  end.

Definition PreviousHashForBlock rocks (n : Z) (bc : Blockchain) : string :=
  if n <=? 0 then genesisPreviousHash
  else
  let parent := n - 1 in
  match findFirst (fun b => (b_BlockNumber b =? parent) && nonEmpty (b_BlockHash b)) (blockHistory bc) with
  | Some b => b_BlockHash b
  | None => default genesisPreviousHash (hashOr (getBlockFromRocks rocks parent))
  end.
End Reads.
