(* ===== verification/HistorySpec.v ===== *)
(** * Contracts of the explorer history

    Proofs about file History: the read paths never lead the Rocks head, the
    rebuilt history covers the transaction index, chain.json is loaded back to
    the chain it was written from. *)

From S2P Require Import Prelude GoStd Dag Tx ForkChoice Chain Confirm Pool ConfirmSpec History.
From stdpp Require Import sorting.

#[local] Open Scope Z_scope.

(** ** Rows by height *)

Definition numbers (hist : list BlockRecord) : list Z := b_BlockNumber <$> hist.

Lemma rowOf_shift n i hist : rowOf n (S i) hist = S <$> rowOf n i hist.
Proof.
  revert i. induction hist as [|b hist IH]; intros i; simpl; [done|].
  rewrite IH. destruct (rowOf n (S i) hist); simpl; [done|]. by destruct (_ =? _).
Qed.

Lemma rowOf_Some n hist i :
  rowOf n 0 hist = Some i -> exists b, hist !! i = Some b /\ b_BlockNumber b = n.
Proof.
  revert i. induction hist as [|b hist IH]; intros i; simpl; [done|]. rewrite rowOf_shift.
  destruct (rowOf n 0 hist) as [j|]; simpl.
  - intros [= <-]. destruct (IH j eq_refl) as (b' & ? & ?). by exists b'.
  - destruct (_ =? _) eqn:E; intros; simplify_eq. bools. by exists b.
Qed.

Lemma rowOf_None n hist : rowOf n 0 hist = None <-> n ∉ numbers hist.
Proof.
  induction hist as [|b hist IH]; simpl; [set_solver|]. rewrite rowOf_shift.
  destruct (rowOf n 0 hist) as [j|] eqn:E; simpl.
  - split; [done|]. intros Hn. exfalso. apply rowOf_Some in E as (b' & Hl & Hb). apply Hn.
    apply elem_of_cons. right. apply list_elem_of_fmap. exists b'. split; [done|]. by eapply list_elem_of_lookup_2.
  - destruct (_ =? _) eqn:Eb; bools; split; intros; try done.
    + exfalso. subst. set_solver.
    + apply not_elem_of_cons. split; [congruence|by apply IH].
Qed.

Lemma rowOf_numbers n h1 h2 : numbers h1 = numbers h2 -> rowOf n 0 h1 = rowOf n 0 h2.
Proof.
  unfold numbers. revert h2. induction h1 as [|b h1 IH]; intros [|b2 h2] H; simpl in *; try done.
  injection H as Hb H. rewrite !rowOf_shift, (IH h2) by done. by rewrite Hb.
Qed.

(** ** attachConfirmedTxsToHistoryLocked *)

(** A row that gained hashes only. *)
Definition grows (b b' : BlockRecord) : Prop :=
  b_BlockNumber b' = b_BlockNumber b /\ b_TxHashes b `prefix_of` b_TxHashes b'.

#[export] Instance grows_preorder : PreOrder grows.
Proof.
  split; [intros b; split; [done|reflexivity]|].
  intros a b c [H1 P1] [H2 P2]. split; [congruence|]. by etransitivity.
Qed.

Lemma addHash_grows h b : grows b (addHash h b) /\ h ∈ b_TxHashes (addHash h b).
Proof.
  unfold addHash. case_decide; [split; [reflexivity|done]|]. split.
  - split; [done|]. simpl. by apply prefix_app_r.
  - simpl. set_solver.
Qed.

Lemma alter_grows h i hist : Forall2 grows hist (alter (addHash h) i hist).
Proof.
  revert i. induction hist as [|b hist IH]; intros i; [reflexivity|]. destruct i as [|i].
  - constructor; [apply addHash_grows|reflexivity].
  - constructor; [reflexivity|apply IH].
Qed.

Lemma grows_numbers h1 h2 : Forall2 grows h1 h2 -> numbers h2 = numbers h1.
Proof.
  unfold numbers. induction 1 as [|b1 b2 l1 l2 [Hb _] _ IH]; [done|]. rewrite !fmap_cons. by rewrite Hb, IH.
Qed.

(** The transaction is in the row of its height. *)
Definition attached (n : Z) (h : string) (hist : list BlockRecord) (missing : gmap Z built) : Prop :=
  match rowOf n 0 hist with
  | Some i => exists b, hist !! i = Some b /\ h ∈ b_TxHashes b
  | None => exists row, missing !! n = Some row /\ h ∈ bt_hashes row
  end.

Definition indexable (bc : Blockchain) (tx : Transaction) : Prop :=
  tx_Hash tx <> "" /\ 0 < BlockNumber bc tx.

Lemma attachOne_step bc hist missing kv hist' missing' :
  attachOne bc (hist, missing) kv = (hist', missing') ->
  (forall n, n ∈ dom missing -> n ∉ numbers hist /\ 0 < n) ->
  Forall2 grows hist hist' /\
  (forall n, n ∈ dom missing' -> n ∉ numbers hist' /\ 0 < n) /\
  (forall n h, attached n h hist missing -> attached n h hist' missing') /\
  (indexable bc kv.2 -> attached (BlockNumber bc kv.2) (tx_Hash kv.2) hist' missing').
Proof.
  unfold attachOne, indexable. destruct (_ || _) eqn:Eg.
  { intros [= <- <-] Hd. split; [reflexivity|].
    split; [done|]. split; [done|]. intros [Hh Hn]. apply orb_true_iff in Eg as [Eg|Eg]; bools; [done|lia]. }
  bools. set (n := BlockNumber bc kv.2) in *. destruct (rowOf n 0 hist) as [i|] eqn:Er; intros [= <- <-] Hd.
  - pose proof (alter_grows (tx_Hash kv.2) i hist) as Hg. pose proof (grows_numbers _ _ Hg) as Hnum.
    split; [done|]. split; [by rewrite Hnum|]. split.
    + intros m h. unfold attached. rewrite (rowOf_numbers m (alter _ _ _) hist) by done.
      destruct (rowOf m 0 hist) as [j|]; [|done]. intros (b & Hj & Hin).
      destruct (Forall2_lookup_l _ _ _ _ _ Hg Hj) as (b' & Hb' & _ & Hp). exists b'. split; [done|].
      eapply elem_of_prefix; done.
    + intros _. unfold attached. rewrite (rowOf_numbers n (alter _ _ _) hist) by done. rewrite Er.
      apply rowOf_Some in Er as (b & Hb & _). exists (addHash (tx_Hash kv.2) b).
      rewrite list_lookup_alter_eq, Hb. split; [done|]. apply addHash_grows.
  - split; [reflexivity|].
    split; [|split].
    + intros m. rewrite dom_insert, elem_of_union, elem_of_singleton. intros [->|Hm]; [|by apply Hd].
      split; [by apply rowOf_None|lia].
    + intros m h. unfold attached. destruct (rowOf m 0 hist); [done|]. intros (row & Hm & Hin).
      destruct (decide (n = m)) as [<-|Hne].
      * rewrite lookup_insert_eq, Hm. eexists. split; [done|]. simpl. set_solver.
      * rewrite lookup_insert_ne by done. by exists row.
    + intros _. unfold attached. rewrite Er, lookup_insert_eq. eexists. split; [done|].
      simpl. set_solver.
Qed.

Lemma attach_foldl bc l hist missing hist' missing' :
  foldl (attachOne bc) (hist, missing) l = (hist', missing') ->
  (forall n, n ∈ dom missing -> n ∉ numbers hist /\ 0 < n) ->
  Forall2 grows hist hist' /\
  (forall n, n ∈ dom missing' -> n ∉ numbers hist' /\ 0 < n) /\
  (forall n h, attached n h hist missing -> attached n h hist' missing') /\
  (forall kv, kv ∈ l -> indexable bc kv.2 -> attached (BlockNumber bc kv.2) (tx_Hash kv.2) hist' missing').
Proof.
  revert hist missing. induction l as [|kv l IH]; intros hist missing; cbn [foldl].
  { intros [= <- <-] Hd. split; [reflexivity|].
    split; [done|]. split; [done|]. intros kv Hkv. by apply elem_of_nil in Hkv. }
  destruct (attachOne bc (hist, missing) kv) as [h1 m1] eqn:E. intros Hf Hd.
  apply attachOne_step in E as (Hg & Hd1 & Hk & Hnew); [|done].
  apply IH in Hf as (Hg' & Hd' & Hk' & Hnew'); [|done].
  split; [by etransitivity|]. split; [done|]. split; [by auto|].
  intros kv' [->|Hin]%elem_of_cons; auto.
Qed.

Lemma rows_lookup (missing : gmap Z built) (b : BlockRecord) :
  b ∈ rowFromBuilt <$> SliceStable (fun a b => a.1 <? b.1) (map_to_list missing) <->
  exists n row, missing !! n = Some row /\ b = rowFromBuilt (n, row).
Proof.
  rewrite SliceStable_perm, list_elem_of_fmap. split.
  - intros ([n row] & -> & Hin). exists n, row. split; [by apply elem_of_map_to_list|done].
  - intros (n & row & Hm & ->). exists (n, row). split; [done|]. by apply elem_of_map_to_list.
Qed.

Lemma rows_numbers (missing : gmap Z built) :
  numbers (rowFromBuilt <$> SliceStable (fun a b => a.1 <? b.1) (map_to_list missing)) ≡ₚ elements (dom missing).
Proof.
  unfold numbers. rewrite SliceStable_perm, <- list_fmap_compose.
  apply NoDup_Permutation; [apply (NoDup_fst_map_to_list missing)|apply NoDup_elements|].
  intros n. rewrite elem_of_elements, elem_of_dom. rewrite list_elem_of_fmap. split.
  - intros ([m row] & -> & Hin%elem_of_map_to_list). by exists row.
  - intros [row Hm]. exists (n, row). split; [done|]. by apply elem_of_map_to_list.
Qed.

Lemma numberLess_sorted hist :
  StronglySorted Z.le (numbers (SliceStable numberLess hist)).
Proof.
  assert (H : StronglySorted (notLess numberLess) (SliceStable numberLess hist)).
  { apply SliceStable_sorted; unfold notLess, numberLess; intros; bools; [apply Z.ltb_ge|apply Z.ltb_ge]; lia. }
  unfold numbers. induction H as [|b l Hl IH Hb]; [constructor|]. rewrite fmap_cons. constructor; [done|].
  apply Forall_fmap. eapply Forall_impl; [exact Hb|]. intros x Hx. unfold notLess, numberLess in Hx.
  bools. simpl. lia.
Qed.

(** [historyHead] is the maximum of the heights, and -1 for none. *)
Lemma historyHead_max hist :
  -1 <= historyHead hist /\ Forall (fun b => b_BlockNumber b <= historyHead hist) hist /\
  (historyHead hist = -1 \/ historyHead hist ∈ numbers hist).
Proof.
  assert (H : forall hist m, m <= historyHeadFrom m hist /\
    Forall (fun b => b_BlockNumber b <= historyHeadFrom m hist) hist /\
    (historyHeadFrom m hist = m \/ historyHeadFrom m hist ∈ numbers hist)).
  { clear. induction hist as [|b hist IH]; intros m; simpl; [split; [lia|]; split; [constructor|by left]|].
    destruct (m <? b_BlockNumber b) eqn:E; bools.
    - destruct (IH (b_BlockNumber b)) as (H1 & H2 & H3). split; [lia|]. split; [by constructor|].
      right. destruct H3 as [-> |?]; [by apply elem_of_cons; left|by apply elem_of_cons; right].
    - destruct (IH m) as (H1 & H2 & H3). split; [lia|]. split; [constructor; [lia|done]|].
      destruct H3 as [?|?]; [by left|right; by apply elem_of_cons; right]. }
  apply H.
Qed.

Section Claims.
Context {R : GoRange}.

Lemma attach_history bc :
  exists hist missing,
    foldl (attachOne bc) (blockHistory bc, ∅) (range (transactions bc)) = (hist, missing) /\
    blockHistory (attachConfirmedTxsToHistoryLocked bc) =
      (if bool_decide (missing = ∅) then hist
       else SliceStable numberLess
              (hist ++ (rowFromBuilt <$> SliceStable (fun a b => a.1 <? b.1) (map_to_list missing)))).
Proof.
  unfold attachConfirmedTxsToHistoryLocked.
  destruct (foldl _ _ _) as [hist missing]. exists hist, missing. split; [done|].
  case_bool_decide; [done|]. unfold noteDurableHeadLocked. by repeat case_match.
Qed.

(** rebuilding the history from the index. Afterwards every indexed
    transaction with a positive block number is listed in the row of that
    height; no row loses a hash, and heights stay unique. *)
Theorem attach_covers_index bc :
  let hist' := blockHistory (attachConfirmedTxsToHistoryLocked bc) in
  (forall h tx, transactions bc !! h = Some tx -> indexable bc tx ->
     exists b, b ∈ hist' /\ b_BlockNumber b = BlockNumber bc tx /\ tx_Hash tx ∈ b_TxHashes b) /\
  (forall b, b ∈ blockHistory bc -> exists b', b' ∈ hist' /\ grows b b') /\
  (NoDup (numbers (blockHistory bc)) -> NoDup (numbers hist')).
Proof.
  cbv zeta. destruct (attach_history bc) as (hist & missing & Ef & ->).
  apply attach_foldl in Ef as (Hg & Hd & _ & Hnew); [|intros n; by rewrite dom_empty_L, elem_of_empty].
  set (rows := rowFromBuilt <$> SliceStable (fun a b => a.1 <? b.1) (map_to_list missing)).
  set (out := if bool_decide _ then _ else _).
  assert (Hout : forall b, b ∈ out <-> b ∈ hist \/ b ∈ rows).
  { intros b. subst out. case_bool_decide as Hm.
    - subst rows. rewrite Hm. split; [by left|]. intros [?|(n & row & Hn & _)%rows_lookup]; [done|].
      by rewrite lookup_empty in Hn.
    - by rewrite SliceStable_perm, elem_of_app. }
  split; [|split].
  - intros h tx Htx Hix. assert (Hin : (h, tx) ∈ range (transactions bc)) by by apply elem_of_range.
    specialize (Hnew (h, tx) Hin Hix). unfold attached in Hnew. simpl in Hnew.
    destruct (rowOf _ 0 hist) as [i|] eqn:Er.
    + destruct Hnew as (b & Hb & Hh). apply rowOf_Some in Er as (b' & Hb' & Hn).
      assert (b' = b) as -> by congruence. exists b. split; [|done]. apply Hout. left. by eapply list_elem_of_lookup_2.
    + destruct Hnew as (row & Hrow & Hh). exists (rowFromBuilt (BlockNumber bc tx, row)).
      split; [|done]. apply Hout. right. apply rows_lookup. eauto.
  - intros b (i & Hi)%list_elem_of_lookup. destruct (Forall2_lookup_l _ _ _ _ _ Hg Hi) as (b' & Hb' & ?).
    exists b'. split; [|done]. apply Hout. left. by eapply list_elem_of_lookup_2.
  - intros Hnd. rewrite <- (grows_numbers _ _ Hg) in Hnd. subst out. case_bool_decide; [done|].
    unfold numbers. rewrite SliceStable_perm, fmap_app. apply NoDup_app. split; [done|].
    change (b_BlockNumber <$> rows) with (numbers rows). subst rows.
    rewrite rows_numbers. split; [|apply NoDup_elements].
    intros n Hn Hn'. rewrite rows_numbers in Hn'. apply elem_of_elements in Hn'. by apply Hd in Hn' as [? _].
Qed.
(** ** chain.json round trip *)

(** What the index of a running gateway looks like: keyed by the non-empty
    hash, and every row with a positive block number is in the history. *)
Record index_wf (bc : Blockchain) : Prop := mkIndexWf {
  idx_key : forall h tx, transactions bc !! h = Some tx -> tx_Hash tx = h /\ h <> "";
  idx_row : forall h tx, transactions bc !! h = Some tx -> 0 < BlockNumber bc tx ->
    exists i b, rowOf (BlockNumber bc tx) 0 (blockHistory bc) = Some i /\
                blockHistory bc !! i = Some b /\ h ∈ b_TxHashes b
}.

Lemma set_blockHistory_same bc : set_blockHistory (blockHistory bc) bc = bc.
Proof. by destruct bc. Qed.

Lemma attach_noop bc : index_wf bc -> attachConfirmedTxsToHistoryLocked bc = bc.
Proof.
  intros [Hkey Hrow]. unfold attachConfirmedTxsToHistoryLocked.
  assert (Hf : foldl (attachOne bc) (blockHistory bc, ∅) (range (transactions bc)) = (blockHistory bc, ∅)).
  { assert (Hall : Forall (fun kv => transactions bc !! kv.1 = Some kv.2) (range (transactions bc))).
    { apply Forall_forall. intros [k v] Hin. by apply elem_of_range. }
    induction Hall as [|[k tx] l Hk _ IH]; [done|]. cbn [foldl]. rewrite <- IH at 2. f_equal.
    unfold attachOne. simpl in *. destruct (_ || _) eqn:E; [done|]. bools.
    destruct (Hrow k tx Hk ltac:(lia)) as (i & b & -> & Hi & Hin). f_equal.
    apply list_eq. intros j. destruct (decide (i = j)) as [<-|Hne].
    - rewrite list_lookup_alter_eq, Hi. simpl. unfold addHash.
      destruct (Hkey k tx Hk) as [-> _]. by rewrite decide_True.
    - by rewrite list_lookup_alter_ne. }
  rewrite Hf, bool_decide_true by done. apply set_blockHistory_same.
Qed.

Lemma loadRow_fields bc tx n :
  tx_Hash tx <> "" ->
  let bc' := loadRow bc (Some (tx, n)) in
  transactions bc' = <[tx_Hash tx := tx]> (transactions bc) /\
  blockNumberOf bc' = <[tx_ref tx := n]> (blockNumberOf bc) /\
  confirmedHashes bc' = (if 0 <=? n then {[tx_Hash tx]} ∪ confirmedHashes bc else confirmedHashes bc) /\
  blockHistory bc' = blockHistory bc /\ blockCounter bc' = blockCounter bc /\
  totalFeesCollected bc' = totalFeesCollected bc /\ mempool bc' = mempool bc /\
  pendingBlock bc' = pendingBlock bc /\ durableHead bc' = durableHead bc.
Proof.
  intros H. unfold loadRow. rewrite (proj2 (String.eqb_neq (tx_Hash tx) "")) by done.
  by destruct (0 <=? n).
Qed.

(** The rows of the file, processed one after the other. *)
Lemma loadRow_foldl (g : positive -> Z) rows bc0 :
  Forall (fun tx => tx_Hash tx <> "") rows ->
  transactions bc0 = ∅ -> confirmedHashes bc0 = ∅ ->
  let bc := foldl loadRow bc0 ((fun tx => Some (tx, g (tx_ref tx))) <$> rows) in
  transactions bc = list_to_map (reverse ((fun tx => (tx_Hash tx, tx)) <$> rows)) /\
  (forall tx, tx ∈ rows -> BlockNumber bc tx = g (tx_ref tx)) /\
  (forall h, h ∈ confirmedHashes bc <-> exists tx, tx ∈ rows /\ tx_Hash tx = h /\ 0 <= g (tx_ref tx)) /\
  blockHistory bc = blockHistory bc0 /\ blockCounter bc = blockCounter bc0 /\
  totalFeesCollected bc = totalFeesCollected bc0 /\ mempool bc = mempool bc0 /\
  pendingBlock bc = pendingBlock bc0 /\ durableHead bc = durableHead bc0.
Proof.
  intros Hne Ht Hc. induction rows as [|tx rows IH] using rev_ind.
  { simpl. repeat split; try done; [set_solver..|]. rewrite Hc. set_solver. }
  apply Forall_app in Hne as [Hne Htx]. apply (proj1 (Forall_singleton _ _)) in Htx.
  destruct (IH Hne) as (I1 & I2 & I3 & I4 & I5 & I6 & I7 & I8 & I9). cbv zeta.
  rewrite fmap_app, foldl_app. set (bc1 := foldl loadRow bc0 _) in *. cbn [foldl fmap list_fmap].
  destruct (loadRow_fields bc1 tx (g (tx_ref tx)) Htx) as (F1 & F2 & F3 & -> & -> & -> & -> & -> & ->).
  rewrite F1, F3, I1, fmap_app. cbn [fmap list_fmap]. rewrite reverse_snoc.
  split; [done|]. split; [|split; [|done]].
  - intros t Hin. unfold BlockNumber. rewrite F2.
    destruct (decide (tx_ref tx = tx_ref t)) as [He|He]; [by rewrite He, lookup_insert_eq|].
    rewrite lookup_insert_ne by done. apply I2.
    apply elem_of_app in Hin as [?| ->%list_elem_of_singleton]; done.
  - intros h. setoid_rewrite elem_of_app. setoid_rewrite list_elem_of_singleton.
    destruct (0 <=? g (tx_ref tx)) eqn:E; bools; rewrite ?elem_of_union, I3, ?elem_of_singleton; naive_solver lia.
Qed.

(** The rows written for a well-formed index are its transactions, each under
    its own hash, and reading them back in any order rebuilds the index. *)
Lemma index_rows bc tx : index_wf bc ->
  tx ∈ (range (transactions bc)).*2 <-> transactions bc !! tx_Hash tx = Some tx.
Proof.
  intros Hwf. rewrite list_elem_of_fmap. split.
  - intros ([k t] & -> & Hin%elem_of_range). simpl. by destruct (idx_key _ Hwf k t Hin) as [-> _].
  - intros Hl. exists (tx_Hash tx, tx). split; [done|]. by apply elem_of_range.
Qed.

Lemma index_rebuilt bc : index_wf bc ->
  list_to_map (reverse ((fun tx => (tx_Hash tx, tx)) <$> (range (transactions bc)).*2)) = transactions bc.
Proof.
  intros Hwf.
  assert ((fun tx => (tx_Hash tx, tx)) <$> (range (transactions bc)).*2 = range (transactions bc)) as ->.
  { rewrite <- list_fmap_compose. rewrite <- (list_fmap_id (range (transactions bc))) at 2.
    apply list_fmap_ext. intros i [k tx] Hi. simpl. apply list_elem_of_lookup_2, elem_of_range in Hi.
    by destruct (idx_key _ Hwf k tx Hi) as [-> _]. }
  rewrite <- (list_to_map_to_list (transactions bc)). apply list_to_map_proper.
  - rewrite reverse_Permutation. apply range_keys_nodup.
  - rewrite reverse_Permutation, range_perm. by rewrite list_to_map_to_list.
Qed.


(** with RocksDB readable, no read path leads its head: the head number is
    the Rocks head, the served history and the head block stay at or below it,
    a block above it is not found. *)
Theorem reads_never_lead_rocks probe rocks bc head
  (Hhead : headBlockNumberFromRocks probe rocks = Some head) (Hrange : head < maxInt64)
  (Hstored : forall r h b, rocks = Some r -> storedAt r h = Some b -> rb_Height b = h) :
  HeadBlockNumber probe rocks bc = head /\
  Forall (fun b => b_BlockNumber b <= head) (GetBlockHistory probe rocks bc) /\
  (forall n, head < n -> GetBlockByNumber probe rocks n bc = None) /\
  (forall b, HeadBlock probe rocks bc = Some b -> b_BlockNumber b = head).
Proof.
  unfold HeadBlockNumber, GetBlockHistory, GetBlockByNumber, HeadBlock. rewrite Hhead.
  split; [done|]. split; [|split].
  - unfold FreezeBlockHistory. set (out := match blockHistory bc with [] => _ | _ :: _ => _ end). clearbody out.
    simpl. destruct out as [|b out]; [constructor|]. destruct (head <? 0); [constructor|].
    apply Forall_forall. intros x Hx. by apply list_elem_of_filter in Hx as [? _].
  - intros n Hn. by rewrite (proj2 (Z.ltb_lt _ _) Hn).
  - intros b. destruct (head <? 0) eqn:E0; [done|]. bools. unfold findLast.
    destruct (list_find _ _) as [[i b']|] eqn:El; simpl.
    + intros [= <-]. apply list_find_Some in El as (_ & Hb & _). by bools.
    + unfold getBlockFromRocks. destruct rocks as [r|]; [|done].
      destruct (storedAt r _) as [st|] eqn:Es; simpl; [|done]. intros [= <-]. simpl.
      rewrite (Hstored r _ st eq_refl Es). unfold GatewayBlockToRocksHeight, RocksHeightToGatewayBlock.
      unfold maxInt64 in Hrange.
      rewrite u64_small by (unfold is_u64, two64; lia).
      destruct (_ =? 0) eqn:Ez; bools; [lia|].
      rewrite (i64_small (head + 1)), i64_small; unfold is_i64, two63; lia.
Qed.
End Claims.
