(* ===== verification/Explorer.v ===== *)
(** * Explorer queries (blockchain.go, chain_store.go)

    Lookup of a transaction with its cache of RocksDB hits, the transactions of
    an address, the list of confirmed transactions, the list of all, and the
    counters. The hand-written exchange sorts of the source are modelled as
    loops ([exchangeSort]) and proved to sort. *)

From S2P Require Import Prelude GoStd Dag Tx ForkChoice Chain Confirm History.
From Stdlib Require Import Sorting.Sorted.

#[local] Open Scope Z_scope.

(** ** The sort by exchanges

    [for i { for j > i { if less(l[j], l[i]) { swap } } }]: one pass moves the
    least element of the rest to position [i]. *)
Section exchange.
Context {T : Type} (less : T -> T -> bool).

Fixpoint exchangePass (x : T) (l : list T) : T * list T :=
  match l with
  | [] => (x, [])
  | y :: l' =>
      if less y x then let '(m, r) := exchangePass y l' in (m, x :: r)
      else let '(m, r) := exchangePass x l' in (m, y :: r)
  end.

Fixpoint exchangeLoop (fuel : nat) (l : list T) : list T :=
  match fuel, l with
  | S f, x :: l' => let '(m, r) := exchangePass x l' in m :: exchangeLoop f r
  | _, _ => l
  end.

Definition exchangeSort (l : list T) : list T := exchangeLoop (length l) l.

Lemma exchangePass_perm x l : (exchangePass x l).1 :: (exchangePass x l).2 ≡ₚ x :: l.
Proof.
  revert x. induction l as [|y l IH]; intros x; [done|]. simpl. destruct (less y x).
  - specialize (IH y). destruct (exchangePass y l) as [m r]. simpl in *. by rewrite Permutation_swap, IH, Permutation_swap.
  - specialize (IH x). destruct (exchangePass x l) as [m r]. simpl in *. by rewrite Permutation_swap, IH, Permutation_swap.
Qed.

Lemma exchangeLoop_perm n l : exchangeLoop n l ≡ₚ l.
Proof.
  revert l. induction n as [|n IH]; intros l; [done|]. destruct l as [|x l]; [done|]. simpl.
  pose proof (exchangePass_perm x l) as Hp. destruct (exchangePass x l) as [m r]. simpl in Hp. by rewrite IH.
Qed.

Hypothesis less_asym : forall a b, less a b = true -> less b a = false.
Hypothesis notLess_trans : forall a b c, notLess less a b -> notLess less b c -> notLess less a c.

Lemma notLess_refl a : notLess less a a.
Proof. unfold notLess. destruct (less a a) eqn:E; [|done]. by rewrite (less_asym _ _ E) in E. Qed.

Lemma exchangePass_least x l :
  Forall (notLess less (exchangePass x l).1) (exchangePass x l).2 /\ notLess less (exchangePass x l).1 x.
Proof.
  revert x. induction l as [|y l IH]; intros x; simpl; [split; [constructor|apply notLess_refl]|].
  destruct (less y x) eqn:E.
  - destruct (IH y) as [H1 H2]. destruct (exchangePass y l) as [m r]. simpl in *.
    assert (notLess less m x) by (apply notLess_trans with y; [done|]; by apply less_asym). by split; [constructor|].
  - destruct (IH x) as [H1 H2]. destruct (exchangePass x l) as [m r]. simpl in *.
    split; [constructor; [|done]|done]. by apply notLess_trans with x.
Qed.

Lemma exchangeLoop_sorted n l : (length l <= n)%nat -> StronglySorted (notLess less) (exchangeLoop n l).
Proof.
  revert l. induction n as [|n IH]; intros [|x l] Hn; simpl in *; [constructor|lia|constructor|].
  pose proof (exchangePass_least x l) as [Hl _]. pose proof (exchangePass_perm x l) as Hp.
  destruct (exchangePass x l) as [m r]. simpl in *. constructor.
  - apply IH. apply Permutation_length in Hp. simpl in Hp. lia.
  - by rewrite exchangeLoop_perm.
Qed.

Lemma exchangeSort_spec l : exchangeSort l ≡ₚ l /\ StronglySorted (notLess less) (exchangeSort l).
Proof. split; [apply exchangeLoop_perm|by apply exchangeLoop_sorted]. Qed.
End exchange.

(** ** Lookups *)

Section queries.
Context {R : GoRange}.
Implicit Types (rocks : option RocksReads) (probe : option (option Z)) (bc : Blockchain).

(** Queries of the address index of RocksDB. *)
Variable RocksListAddressTxs : string -> result (list string).

Definition cacheTx (hash : string) (tx : Transaction) bc : Blockchain :=
  let bc := set_transactions (<[hash := tx]> (transactions bc)) bc in
  let bc := set_confirmedHashes (confirmedHashes bc ∪ {[hash]}) bc in
  let bc := if nonEmpty (tx_From tx) then appendAddr (tx_From tx) tx bc else bc in
  if nonEmpty (tx_To tx) && negb (String.eqb (tx_To tx) (tx_From tx)) then appendAddr (tx_To tx) tx bc else bc.

(** [meanwhile]: the lock is released while RocksDB is read. *)
Definition GetTransaction rocks (meanwhile : Blockchain -> Blockchain) (hash : string) bc : Blockchain * option Transaction :=
  match transactions bc !! hash with
  | Some tx => (bc, Some tx)
  | None =>
      match getTransactionFromRocks rocks hash with
      | None => (bc, None)
      | Some tx =>
          let bc := meanwhile bc in
          match transactions bc !! hash with
          | Some existing => (bc, Some existing)
          | None => (cacheTx hash tx bc, Some tx)
          end
      end
  end.

(** [appendMatch]: keep the first occurrence of each hash that concerns the
    address. *)
Definition concerns (address : string) (tx : Transaction) : bool :=
  String.eqb (tx_From tx) address || String.eqb (tx_To tx) address.

Fixpoint appendMatches (address : string) (seen : gset string) (txs : list Transaction) : list Transaction :=
  match txs with
  | [] => []
  | tx :: rest =>
      if nonEmpty (tx_Hash tx) && negb (bool_decide (tx_Hash tx ∈ seen)) && concerns address tx
      then tx :: appendMatches address (seen ∪ {[tx_Hash tx]}) rest
      else appendMatches address seen rest
  end.

Definition newerFirst (a b : Transaction) : bool := tx_Timestamp b <? tx_Timestamp a.

Definition addressSources rocks (address : string) bc : list Transaction :=
  (match rocks, RocksListAddressTxs address with
   | Some _, Ok hs => omap (getTransactionFromRocks rocks) hs
   | _, _ => []
   end) ++ addrTxs bc address ++ (range (transactions bc)).*2 ++ pendingBlock bc ++ mempool bc.

Definition GetTransactionsByAddress rocks (address : string) bc : list Transaction :=
  exchangeSort newerFirst (appendMatches address ∅ (addressSources rocks address bc)).

Definition olderFirst (a b : Transaction) : bool := tx_Timestamp a <? tx_Timestamp b.

Definition GetAllTransactions bc : list Transaction := exchangeSort olderFirst (range (transactions bc)).*2.

Definition blockNumbersOf (blocks : list BlockRecord) : gmap string Z :=
  foldl (fun m b => foldl (fun m h => if nonEmpty h then <[h := b_BlockNumber b]> m else m) m (b_TxHashes b)) ∅ blocks.

Definition TxHashToBlockNumber rocks bc : gmap string Z :=
  let out := blockNumbersOf (blockHistory bc) in
  if bool_decide (out = ∅) then
    match listBlockHistoryFromRocks rocks with Ok blocks => blockNumbersOf blocks | Err _ => out end
  else out.

(** ** The list of confirmed transactions *)

Record ConfirmedTxRef := mkRef { ref_Hash : string; ref_BlockNumber : Z; ref_Timestamp : Z }.

Definition hashesIn (blocks : list BlockRecord) : gset string :=
  list_to_set (filter (fun h => h <> "") (blocks ≫= b_TxHashes)).

Definition missingRef (blocks : list BlockRecord) bc (tx : Transaction) : option ConfirmedTxRef :=
  let skip : gset string := list_to_set (hashes (mempool bc) ++ hashes (pendingBlock bc)) in
  if String.eqb (tx_Hash tx) "" || bool_decide (tx_Hash tx ∈ skip) || bool_decide (tx_Hash tx ∈ hashesIn blocks) then None
  else if (BlockNumber bc tx <=? 0) && negb (isIndexedDeal tx) then None
  else
  let n := if BlockNumber bc tx <=? 0 then historyHead blocks else BlockNumber bc tx in
  Some (mkRef (tx_Hash tx) (if n <? 0 then 0 else n) (tx_Timestamp tx)).

Definition indexTxsMissingFromHistoryLocked (blocks : list BlockRecord) bc : list ConfirmedTxRef :=
  omap (missingRef blocks bc) (range (transactions bc)).*2.

(** The refs of one block, from its last hash to its first. *)
Definition hashRefs (n t : Z) (seen : gset string) (hs : list string) : gset string * list ConfirmedTxRef :=
  foldr (fun h '(seen, acc) => if String.eqb h "" || bool_decide (h ∈ seen) then (seen, acc)
                               else (seen ∪ {[h]}, acc ++ [mkRef h n t])) (seen, []) hs.

(** The refs of the blocks, newest first, each hash once. *)
Fixpoint blockRefs (limit : option Z) (seen : gset string) (blocks : list BlockRecord) : gset string * list ConfirmedTxRef :=
  match blocks with
  | [] => (seen, [])
  | b :: rest =>
      let hidden := match limit with Some h => h <? b_BlockNumber b | None => false end in
      if hidden then blockRefs limit seen rest
      else
      let '(seen, mine) := hashRefs (b_BlockNumber b) (b_Timestamp b) seen (b_TxHashes b) in
      let '(seen, others) := blockRefs limit seen rest in (seen, mine ++ others)
  end.

(** The extra refs, split at the newest timestamp. *)
Fixpoint extraRefs (limit : option Z) (newest : Z) (seen : gset string) (extras : list ConfirmedTxRef)
  : list ConfirmedTxRef * list ConfirmedTxRef :=
  match extras with
  | [] => ([], [])
  | e :: rest =>
      let hidden := match limit with Some h => h <? ref_BlockNumber e | None => false end in
      if String.eqb (ref_Hash e) "" || bool_decide (ref_Hash e ∈ seen) || hidden then extraRefs limit newest seen rest
      else
      let '(front, back) := extraRefs limit newest (seen ∪ {[ref_Hash e]}) rest in
      if newest <=? ref_Timestamp e then (e :: front, back) else (front, e :: back)
  end.

Definition refLess (a b : ConfirmedTxRef) : bool :=
  if ref_Timestamp a =? ref_Timestamp b then ref_BlockNumber b <? ref_BlockNumber a else ref_Timestamp b <? ref_Timestamp a.

Definition higherFirst (a b : BlockRecord) : bool := b_BlockNumber b <? b_BlockNumber a.

(** The cache of the RocksDB history when memory has none. *)
Definition cacheHistory (fromRocks : list BlockRecord) bc : Blockchain :=
  match blockHistory bc with
  | [] =>
      let bc := set_blockHistory fromRocks bc in
      let h := i64 (historyHead fromRocks + 1) in
      noteDurableHeadLocked (if blockCounter bc <? h then set_blockCounter h bc else bc)
  | _ => bc
  end.

Definition ConfirmedTxRefsNewestFirst probe rocks bc : Blockchain * list ConfirmedTxRef :=
  let limit := headBlockNumberFromRocks probe rocks in
  let bc := attachConfirmedTxsToHistoryLocked bc in
  let blocks := blockHistory bc in
  let extras := indexTxsMissingFromHistoryLocked blocks bc in
  let '(bc, blocks) := match blocks, rocks with
    | [], Some _ => match listBlockHistoryFromRocks rocks with
                    | Ok (b :: bs) => (cacheHistory (b :: bs) bc, b :: bs)
                    | _ => (bc, blocks)
                    end
    | _, _ => (bc, blocks)
    end in
  let '(seen, out) := blockRefs limit ∅ (SliceStable higherFirst blocks) in
  let newest := match out with r :: _ => ref_Timestamp r | [] => 0 end in
  let '(front, back) := extraRefs limit newest seen extras in
  (bc, SliceStable refLess front ++ out ++ back).

(** ** Counters *)

Record ChainStats := mkStats { cs_ChainTxCount : Z; cs_MempoolCount : Z; cs_PendingCount : Z; cs_TotalFees : Z; cs_LastBlockNum : Z }.

Definition GetStats probe rocks bc : ChainStats :=
  let count := match rocks with Some _ => size (hashesIn (blockHistory bc)) | None => size (transactions bc) end in
  let last := HeadBlockNumber probe rocks bc in
  mkStats (Z.of_nat count) (Z.of_nat (length (mempool bc))) (Z.of_nat (length (pendingBlock bc))) (totalFeesCollected bc)
    (if last <? 0 then 0 else last).
End queries.
