(* ===== verification/ExplorerSpec.v ===== *)
(** * What the explorer queries return *)

From S2P Require Import Prelude GoStd Dag Tx ForkChoice Chain Pool Confirm History Explorer.
From Stdlib Require Import Sorting.Sorted.

#[local] Open Scope Z_scope.

Lemma StronglySorted_weaken {A} (P Q : A -> A -> Prop) l :
  (forall x y, P x y -> Q x y) -> StronglySorted P l -> StronglySorted Q l.
Proof. intros H. induction 1 as [|x l _ IH Hx]; constructor; [done|]. eapply Forall_impl; [exact Hx|]. auto. Qed.

Section spec.
Context {R : GoRange}.
Variable listAddress : string -> result (list string).
Implicit Types (rocks : option RocksReads) (probe : option (option Z)) (bc : Blockchain).

(** ** Transactions of an address *)

Lemma appendMatches_spec a seen txs :
  NoDup (hashes (appendMatches a seen txs)) /\
  (forall tx, tx ∈ appendMatches a seen txs -> tx ∈ txs /\ concerns a tx = true /\ tx_Hash tx <> "" /\ tx_Hash tx ∉ seen) /\
  (forall tx, tx ∈ txs -> concerns a tx = true -> tx_Hash tx <> "" ->
     tx_Hash tx ∈ seen \/ tx_Hash tx ∈ hashes (appendMatches a seen txs)).
Proof.
  revert seen. induction txs as [|t l IH]; intros seen; cbn [appendMatches].
  { split_and!; [constructor|by intros ? ?%elem_of_nil|by intros ? ?%elem_of_nil]. }
  destruct (nonEmpty (tx_Hash t) && negb (bool_decide (tx_Hash t ∈ seen)) && concerns a t) eqn:E.
  - apply andb_true_iff in E as [[E1 E2]%andb_true_iff E3]. apply negb_true_iff, bool_decide_eq_false in E2.
    apply negb_true_iff, String.eqb_neq in E1. destruct (IH (seen ∪ {[tx_Hash t]})) as (H1 & H2 & H3).
    split_and!.
    + unfold hashes. rewrite fmap_cons. constructor; [|done]. intros (x & Hx & Hin)%list_elem_of_fmap. apply H2 in Hin. set_solver.
    + intros tx [->|Hin]%elem_of_cons; [split_and!; try done; by left|]. apply H2 in Hin. set_solver.
    + intros tx [->|Hin]%elem_of_cons Hc Hn; [right; unfold hashes; rewrite fmap_cons; by left|].
      unfold hashes. rewrite fmap_cons. destruct (H3 tx Hin Hc Hn) as [?|?]; set_solver.
  - destruct (IH seen) as (H1 & H2 & H3). split_and!; [done|intros tx Hin; apply H2 in Hin; set_solver|].
    intros tx [->|Hin]%elem_of_cons Hc Hn; [|by apply H3]. left.
    rewrite Hc, andb_true_r in E. apply andb_false_iff in E as [E|E].
    + by apply negb_false_iff, String.eqb_eq in E.
    + by apply negb_false_iff, bool_decide_eq_true in E.
Qed.

(** the transactions of an address. The listing names no transaction twice,
    is sorted newest first, holds only transactions that the address sent or
    received, and misses none of those that RocksDB's address index, the index,
    the pending block or the mempool hold. *)
Theorem address_listing_exact rocks a bc :
  let l := GetTransactionsByAddress listAddress rocks a bc in
  NoDup (hashes l) /\ StronglySorted (fun x y => tx_Timestamp y <= tx_Timestamp x) l /\
  (forall tx, tx ∈ l -> tx ∈ addressSources listAddress rocks a bc /\ (tx_From tx = a \/ tx_To tx = a)) /\
  (forall tx, tx ∈ addressSources listAddress rocks a bc -> tx_From tx = a \/ tx_To tx = a -> tx_Hash tx <> "" ->
     tx_Hash tx ∈ hashes l).
Proof.
  intros l. destruct (appendMatches_spec a ∅ (addressSources listAddress rocks a bc)) as (H1 & H2 & H3).
  destruct (exchangeSort_spec newerFirst ltac:(unfold newerFirst; intros ? ?; lia)
    ltac:(unfold notLess, newerFirst; intros ? ? ?; lia) (appendMatches a ∅ (addressSources listAddress rocks a bc))) as [Hp Hs].
  assert (Hcon : forall tx, concerns a tx = true <-> tx_From tx = a \/ tx_To tx = a)
    by (intros tx; unfold concerns; rewrite orb_true_iff, !String.eqb_eq; done).
  split_and!.
  - unfold hashes, l, GetTransactionsByAddress in *. by rewrite Hp.
  - eapply StronglySorted_weaken; [|exact Hs]. unfold notLess, newerFirst. intros x y. lia.
  - intros tx Htx. unfold l, GetTransactionsByAddress in Htx. rewrite Hp in Htx. apply H2 in Htx as (? & ?%Hcon & _). done.
  - intros tx Htx Hc%Hcon Hn. unfold hashes, l, GetTransactionsByAddress in *. rewrite Hp. destruct (H3 tx Htx Hc Hn); [set_solver|done].
Qed.

(** ** The list of confirmed transactions *)

Definition shown (limit : option Z) (n : Z) : Prop := match limit with Some h => n <= h | None => True end.

Definition refHashes (refs : list ConfirmedTxRef) : list string := ref_Hash <$> refs.

(** The hashes of one block. *)
Lemma oneBlock_spec n t hs seen :
  let r := hashRefs n t seen hs in
  r.1 = seen ∪ list_to_set (refHashes r.2) /\ NoDup (refHashes r.2) /\ (forall h, h ∈ refHashes r.2 -> h ∉ seen /\ h <> "") /\
  Forall (fun x => ref_BlockNumber x = n) r.2 /\ (forall h, h ∈ hs -> h <> "" -> h ∈ r.1).
Proof.
  unfold hashRefs. induction hs as [|h hs IH]; simpl.
  { split_and!; [set_solver|constructor|by intros ? ?%elem_of_nil|constructor|by intros ? ?%elem_of_nil]. }
  destruct (foldr _ (seen, []) hs) as [s1 acc]. simpl in IH. destruct IH as (H1 & H2 & H3 & H4 & H5).
  destruct (String.eqb_spec h "") as [->|Hh]; simpl; [split_and!; try done; set_solver|].
  case_bool_decide as Hs; simpl; [split_and!; try done; set_solver|].
  assert (Hf : refHashes (acc ++ [mkRef h n t]) = refHashes acc ++ [h]) by (unfold refHashes; by rewrite fmap_app).
  rewrite Hf. split_and!; [rewrite list_to_set_app_L; set_solver| |set_solver|by apply Forall_app; auto|set_solver].
  apply NoDup_app. split_and!; [done|set_solver|apply NoDup_singleton].
Qed.

Lemma blockRefs_spec limit seen blocks :
  let r := blockRefs limit seen blocks in
  r.1 = seen ∪ list_to_set (refHashes r.2) /\ NoDup (refHashes r.2) /\ (forall h, h ∈ refHashes r.2 -> h ∉ seen) /\
  Forall (fun x => shown limit (ref_BlockNumber x)) r.2 /\
  (forall b h, b ∈ blocks -> shown limit (b_BlockNumber b) -> h ∈ b_TxHashes b -> h <> "" -> h ∈ r.1).
Proof.
  revert seen. induction blocks as [|b l IH]; intros seen; cbn [blockRefs].
  { simpl. split_and!; [set_solver|constructor|by intros ? ?%elem_of_nil|constructor|by intros ? ? ?%elem_of_nil]. }
  destruct (match limit with Some h => h <? b_BlockNumber b | None => false end) eqn:Eh.
  { destruct (IH seen) as (H1 & H2 & H3 & H4 & H5). split_and!; try done.
    intros b' h [->|Hb]%elem_of_cons Hsh; [|by apply H5]. exfalso. destruct limit as [lim|]; [|done]. simpl in Hsh. lia. }
  pose proof (oneBlock_spec (b_BlockNumber b) (b_Timestamp b) (b_TxHashes b) seen) as Ho. cbv zeta in Ho.
  destruct (hashRefs _ _ seen (b_TxHashes b)) as [s1 mine]. simpl in Ho. destruct Ho as (O1 & O2 & O3 & O4 & O5).
  destruct (IH s1) as (H1 & H2 & H3 & H4 & H5). destruct (blockRefs limit s1 l) as [s2 others]. simpl in *.
  assert (Hf : refHashes (mine ++ others) = refHashes mine ++ refHashes others) by (unfold refHashes; by rewrite fmap_app).
  rewrite Hf. split_and!.
  - rewrite list_to_set_app_L. set_solver.
  - apply NoDup_app. split_and!; [done| |done]. intros h Hm Ho%H3. set_solver.
  - intros h [?%O3|?%H3]%elem_of_app; set_solver.
  - apply Forall_app. split; [|done]. eapply Forall_impl; [exact O4|]. intros x ->. destruct limit as [lim|]; simpl; [lia|done].
  - intros b' h [->|Hb]%elem_of_cons Hsh Hin Hne; [|by eapply H5]. rewrite H1. set_solver.
Qed.

Lemma extraRefs_spec limit newest seen extras :
  let r := extraRefs limit newest seen extras in
  NoDup (refHashes (r.1 ++ r.2)) /\
  (forall x, x ∈ r.1 ++ r.2 -> x ∈ extras /\ ref_Hash x ∉ seen /\ shown limit (ref_BlockNumber x)) /\
  (forall x, x ∈ extras -> ref_Hash x <> "" -> shown limit (ref_BlockNumber x) ->
     ref_Hash x ∈ seen \/ ref_Hash x ∈ refHashes (r.1 ++ r.2)).
Proof.
  revert seen. induction extras as [|e l IH]; intros seen; cbn [extraRefs].
  { simpl. split_and!; [constructor|by intros ? ?%elem_of_nil|by intros ? ?%elem_of_nil]. }
  destruct (String.eqb (ref_Hash e) "" || bool_decide (ref_Hash e ∈ seen) || _) eqn:E.
  - destruct (IH seen) as (H1 & H2 & H3). split_and!; [done|intros x Hx; apply H2 in Hx; set_solver|].
    intros x [->|Hx]%elem_of_cons Hn Hsh; [|by apply H3]. left. rewrite !orb_true_iff in E.
    destruct E as [[E|E]|E]; [by apply String.eqb_eq in E|by apply bool_decide_eq_true in E|].
    destruct limit as [lim|]; simpl in *; [lia|done].
  - apply orb_false_iff in E as [[E1 E2]%orb_false_iff E3]. apply String.eqb_neq in E1. apply bool_decide_eq_false in E2.
    destruct (IH (seen ∪ {[ref_Hash e]})) as (H1 & H2 & H3).
    destruct (extraRefs limit newest (seen ∪ {[ref_Hash e]}) l) as [front back]. simpl in *.
    assert (Hcases : let r := if newest <=? ref_Timestamp e then (e :: front, back) else (front, e :: back) in
      r.1 ++ r.2 ≡ₚ e :: front ++ back)
      by (destruct (newest <=? ref_Timestamp e); simpl; [done|by rewrite <- Permutation_middle]).
    cbv zeta in Hcases. set (r := if newest <=? ref_Timestamp e then _ else _) in *. clearbody r. split_and!.
    + unfold refHashes in *. rewrite Hcases, fmap_cons. constructor; [|done].
      intros (x & Hx & Hin)%list_elem_of_fmap. apply H2 in Hin. set_solver.
    + intros x. rewrite Hcases. intros [->|Hx]%elem_of_cons; [|apply H2 in Hx; set_solver].
      split_and!; [by left|done|]. destruct limit as [lim|]; simpl; [lia|done].
    + intros x Hx Hn Hsh. unfold refHashes in *. rewrite Hcases, fmap_cons. apply elem_of_cons in Hx as [->|Hx]; [right; by left|].
      destruct (H3 x Hx Hn Hsh) as [?|?]; [|right; by right]. destruct (decide (ref_Hash x = ref_Hash e)); set_solver.
Qed.

(** The blocks the list is made of. *)
Definition listedBlocks rocks bc : list BlockRecord :=
  let hist := blockHistory (attachConfirmedTxsToHistoryLocked bc) in
  match hist, rocks with
  | [], Some _ => match listBlockHistoryFromRocks rocks with Ok bs => bs | Err _ => [] end
  | _, _ => hist
  end.

Lemma refs_shape probe rocks bc :
  exists seen front out back,
    (ConfirmedTxRefsNewestFirst probe rocks bc).2 = SliceStable refLess front ++ out ++ back /\
    blockRefs (headBlockNumberFromRocks probe rocks) ∅ (SliceStable higherFirst (listedBlocks rocks bc)) = (seen, out) /\
    extraRefs (headBlockNumberFromRocks probe rocks) (match out with r :: _ => ref_Timestamp r | [] => 0 end) seen
      (indexTxsMissingFromHistoryLocked (blockHistory (attachConfirmedTxsToHistoryLocked bc)) (attachConfirmedTxsToHistoryLocked bc))
      = (front, back).
Proof.
  unfold ConfirmedTxRefsNewestFirst, listedBlocks. cbv zeta. set (bc1 := attachConfirmedTxsToHistoryLocked bc).
  destruct (blockHistory bc1) as [|b bs].
  2: destruct (blockRefs _ _ _) as [seen out] eqn:Eo, (extraRefs _ _ _ _) as [front back] eqn:Ee; by exists seen, front, out, back.
  destruct rocks as [r|]; [destruct (listBlockHistoryFromRocks (Some r)) as [[|b bs]|e]|].
  all: destruct (blockRefs _ _ _) as [seen out] eqn:Eo, (extraRefs _ _ _ _) as [front back] eqn:Ee; by exists seen, front, out, back.
Qed.

(** the confirmed transactions page. The list names no transaction twice;
    with the RocksDB head known it names no block above it; and it names every
    transaction of the blocks it is made of (the history, or RocksDB's when there
    is none) up to that head. *)
Theorem confirmed_list_exact probe rocks bc :
  let l := (ConfirmedTxRefsNewestFirst probe rocks bc).2 in
  let limit := headBlockNumberFromRocks probe rocks in
  NoDup (refHashes l) /\ Forall (fun x => shown limit (ref_BlockNumber x)) l /\
  (forall b h, b ∈ listedBlocks rocks bc -> shown limit (b_BlockNumber b) -> h ∈ b_TxHashes b -> h <> "" -> h ∈ refHashes l).
Proof.
  intros l limit. destruct (refs_shape probe rocks bc) as (seen & front & out & back & Hl & Hb & He). fold limit in Hb, He.
  pose proof (blockRefs_spec limit ∅ (SliceStable higherFirst (listedBlocks rocks bc))) as Hbs. rewrite Hb in Hbs.
  simpl in Hbs. destruct Hbs as (B1 & B2 & _ & B4 & B5).
  match type of He with extraRefs _ ?n _ ?x = _ => pose proof (extraRefs_spec limit n seen x) as Hes end. rewrite He in Hes.
  simpl in Hes. destruct Hes as (X1 & X2 & _).
  assert (Hperm : l ≡ₚ out ++ (front ++ back)).
  { unfold l. rewrite Hl, SliceStable_perm, !app_assoc. apply Permutation_app_tail, Permutation_app_comm. }
  unfold refHashes in *. rewrite Hperm. split_and!.
  - rewrite fmap_app. apply NoDup_app. split_and!; [done| |done]. intros h Ho (x & -> & Hx)%list_elem_of_fmap.
    apply X2 in Hx as (_ & Hn & _). apply Hn. rewrite B1. set_solver.
  - apply Forall_app. split; [done|]. apply Forall_forall. intros x Hx. by apply X2 in Hx as (_ & _ & ?).
  - intros b h Hin Hsh Hh Hne. rewrite Hperm, fmap_app. apply elem_of_app. left.
    assert (h ∈ seen) as Hseen by (apply (B5 b h); [by rewrite SliceStable_perm|done..]). rewrite B1 in Hseen. set_solver.
Qed.
End spec.

(** ** Witness *)

#[local] Existing Instance canonical_range.

Example address_listing_demo :
  hashes (GetTransactionsByAddress (fun _ => Ok []) None "PxA" demoChain) = ["hash-a"; "hash-b"].
Proof. vm_compute. reflexivity. Qed.
