(* ===== verification/TxPool.v ===== *)
(** * internal/txpool/store.go: the durable transaction pool

    One JSON file per transaction in a directory of its own. [Store] is the
    content of that directory: file name to file content ([None] is a
    sub-directory). [Put] ends like its write and rename calls end. *)

From S2P Require Import Prelude GoStd.
From Stdlib Require Import Ascii.

#[local] Open Scope Z_scope.

Notation Store := (gmap string (option string)).

Definition alnum (c : ascii) : bool :=
  let n := N_of_ascii c in
  (((48 <=? n) && (n <=? 57)) || ((97 <=? n) && (n <=? 122)) || ((65 <=? n) && (n <=? 90)))%N.

Fixpoint str_forallb (P : ascii -> bool) (s : string) : bool :=
  match s with EmptyString => true | String c s' => P c && str_forallb P s' end.

Definition fileName (hash : string) : option string :=
  if String.eqb hash "" || (128 <? len hash) then None
  else if str_forallb alnum hash then Some (hash +:+ ".json") else None.

Definition HasSuffix (s suf : string) : bool :=
  (len suf <=? len s) && String.eqb (str_drop (String.length s - String.length suf) s) suf.

Definition TrimSuffix (s suf : string) : string :=
  if HasSuffix s suf then str_take (String.length s - String.length suf) s else s.

Inductive putOutcome := PutOk | PutTempFails | PutRenameFails.

(** [Put]; [valid] is [json.Valid] of the value. *)
Definition Put (valid : string -> bool) (o : putOutcome) (hash raw : string) (s : Store) : Store * result unit :=
  match fileName hash with
  | None => (s, Err "unsafe tx hash")
  | Some name =>
      if negb (valid raw) then (s, Err "tx pool value is not json")
      else match o with
      | PutTempFails => (s, Err "write tx pool temp")
      | PutRenameFails => (s, Err "rename tx pool file")
      | PutOk => (<[name := Some raw]> s, Ok ())
      end
  end.

(** [Delete]; [removable] tells whether [os.Remove] works on an existing file. *)
Definition Delete (removable : bool) (hash : string) (s : Store) : Store * result unit :=
  match fileName hash with
  | None => (s, Ok ())
  | Some name =>
      match s !! name with
      | None => (s, Ok ())
      | Some _ => if removable then (delete name s, Ok ()) else (s, Err "remove tx pool file")
      end
  end.

(** [List]: the regular files that end in .json, keyed by the trimmed name. *)
Definition listEntry (acc : gmap string string) (entry : string * option string) : gmap string string :=
  match entry.2 with
  | None => acc
  | Some raw => if HasSuffix entry.1 ".json" then <[TrimSuffix entry.1 ".json" := raw]> acc else acc
  end.

Definition List (s : Store) : gmap string string := foldl listEntry ∅ (map_to_list s).

(** ** Names *)

Lemma str_length_app a b : String.length (a +:+ b) = (String.length a + String.length b)%nat.
Proof. induction a as [|c a IH]; simpl; [done|]. by rewrite IH. Qed.

Lemma str_take_app a b : str_take (String.length a) (a +:+ b) = a.
Proof. induction a as [|c a IH]; simpl; [by destruct b|]. by rewrite IH. Qed.

Lemma str_take_drop n s : str_take n s +:+ str_drop n s = s.
Proof.
  revert s. induction n as [|n IH]; intros [|c s]; simpl; try done.
  change (String c (str_take n s +:+ str_drop n s) = String c s). by rewrite IH.
Qed.

Lemma suffix_app a b : HasSuffix (a +:+ b) b = true /\ TrimSuffix (a +:+ b) b = a.
Proof.
  assert (H : HasSuffix (a +:+ b) b = true).
  { unfold HasSuffix, len. rewrite str_length_app, Nat.add_sub, str_drop_app, String.eqb_refl, andb_true_r.
    apply Z.leb_le. lia. }
  split; [done|]. unfold TrimSuffix. rewrite H, str_length_app, Nat.add_sub. apply str_take_app.
Qed.

Lemma trim_suffix_inv s suf : HasSuffix s suf = true -> s = TrimSuffix s suf +:+ suf.
Proof.
  intros H. unfold TrimSuffix. rewrite H. unfold HasSuffix in H. bools.
  rewrite <- (str_take_drop (String.length s - String.length suf) s) at 1. congruence.
Qed.

Lemma listEntry_foldl (l : list (string * option string)) h raw :
  NoDup l.*1 -> foldl listEntry ∅ l !! h = Some raw <-> (h +:+ ".json", Some raw) ∈ l.
Proof.
  induction l as [|[name o] l IH] using rev_ind; intros Hnd.
  { cbn [foldl]. rewrite (lookup_empty h). split; [done|]. intros Hin. by apply elem_of_nil in Hin. }
  rewrite fmap_app in Hnd. apply NoDup_app in Hnd as (Hnd & Hdis & _).
  rewrite foldl_snoc, elem_of_app, list_elem_of_singleton, <- (IH Hnd).
  unfold listEntry. simpl. destruct o as [raw'|]; simpl.
  2:{ split; [by left|]. intros [?|?]; [done|by simplify_eq]. }
  destruct (HasSuffix name ".json") eqn:Es.
  - apply trim_suffix_inv in Es. destruct (decide (TrimSuffix name ".json" = h)) as [<-|Hne].
    + rewrite lookup_insert_eq, <- Es. split; [intros; simplify_eq; by right|].
      intros [Hl|?]; [|by simplify_eq]. exfalso. rewrite (IH Hnd), <- Es in Hl.
      apply (Hdis name); [|set_solver]. apply list_elem_of_fmap. by exists (name, Some raw).
    + rewrite lookup_insert_ne by done. split; [by left|]. intros [?|?]; [done|]. simplify_eq.
      by destruct (suffix_app h ".json") as [_ ?].
  - split; [by left|]. intros [?|?]; [done|]. simplify_eq. by destruct (suffix_app h ".json") as [? _]; congruence.
Qed.

Lemma List_lookup (s : Store) h raw :
  List s !! h = Some raw <-> s !! (h +:+ ".json") = Some (Some raw).
Proof.
  unfold List. rewrite listEntry_foldl by apply NoDup_fst_map_to_list. apply elem_of_map_to_list.
Qed.

(** the durable pool. A stored transaction is listed under its own hash
    with its own bytes and nothing else changes; a deleted one is gone and
    nothing else changes; a hash that is not 1 to 128 ASCII letters and digits
    touches no file. *)
Theorem txpool_roundtrip valid hash raw s :
  match Put valid PutOk hash raw s with
  | (s', Ok _) => List s' = <[hash := raw]> (List s) /\
                  (let '(s'', r) := Delete true hash s' in r = Ok () /\ List s'' = delete hash (List s))
  | (s', Err _) => s' = s
  end /\
  (fileName hash = None -> forall o rm, (Put valid o hash raw s).1 = s /\ (Delete rm hash s).1 = s).
Proof.
  split; [|unfold Put, Delete; intros ->; intros; done].
  unfold Put, Delete. destruct (fileName hash) as [name|] eqn:En; [|done].
  destruct (negb (valid raw)); [done|]. rewrite lookup_insert_eq.
  assert (name = hash +:+ ".json") as ->.
  { unfold fileName in En. repeat case_match; by simplify_eq. }
  assert (Hinj : forall h, h +:+ ".json" = hash +:+ ".json" -> h = hash).
  { intros h He. destruct (suffix_app h ".json") as [_ <-]. rewrite He. apply suffix_app. }
  split; [|split; [done|]]; apply map_eq; intros h; apply option_eq; intros x; rewrite List_lookup.
  - destruct (decide (hash = h)) as [<-|Hne].
    + rewrite !lookup_insert_eq. naive_solver.
    + rewrite !lookup_insert_ne, List_lookup by (try done; intros He; apply Hne; symmetry; by apply Hinj). done.
  - rewrite delete_insert_eq. destruct (decide (hash = h)) as [<-|Hne].
    + rewrite !lookup_delete_eq. done.
    + rewrite !lookup_delete_ne, List_lookup by (try done; intros He; apply Hne; symmetry; by apply Hinj). done.
Qed.
