(* ===== verification/Boundary.v ===== *)
(** * The confirm boundary (internal/handlers/apply_confirmed_block.go, rocks_commit.go)

    What follows the explorer update of a confirmed block: the header, the
    RocksDB commit, the discard of the Core backup or the undo. Core's ledger
    reads, block assembly and RocksDB are parameters ([HandlerEnv]). *)

From S2P Require Import Prelude GoStd Dag Tx ForkChoice Chain Confirm History TxPool.

#[local] Open Scope Z_scope.

Record AccountQuery := mkQuery {
  q_Address : string;
  q_Balance : string;
  q_UplpBalance : string;
  q_Nonce : Z;
  q_Tokens : gmap string string;
  q_Xp : string
}.

Record RocksAccount := mkAccount {
  a_Address : string;
  a_Balance : string;
  a_UplpBalance : string;
  a_Nonce : Z;
  a_Tokens : gmap string string;
  a_Xp : string
}.

Record BlockReceipt := mkReceipt { r_TxHash : string; r_Status : string; r_FeeUplp : Z; r_BlockHeight : Z }.

Record BlockCommitPayload := mkPayload {
  p_Block : RocksBlockStored;
  p_TxJSONs : list coreJSON;
  p_Accounts : list RocksAccount;
  p_Receipts : list BlockReceipt;
  p_StateRoot : string
}.

Record BlockHeader := mkHeader {
  hd_BlockHash : string; hd_MerkleRoot : string; hd_StateRoot : string; hd_PreviousHash : string
}.

Definition rocksAccountFromQuery (q : option AccountQuery) : RocksAccount :=
  match q with
  | None => mkAccount "" "0" "0" 0 ∅ "0"
  | Some q =>
      let xp := if String.eqb (q_Xp q) "" then TokenXPFromMap (q_Tokens q) else q_Xp q in
      let xp := if String.eqb xp "" then "0" else xp in
      mkAccount (q_Address q) (q_Balance q) (q_UplpBalance q) (q_Nonce q) (q_Tokens q) xp
  end.

(** RocksDB behind Core: its reads, the account lookup and the write batch. *)
Record RocksStoreClient (RS : Type) := mkClient {
  rocksReads : RS -> RocksReads;
  RocksGetAccount : string -> RS -> result (option RocksAccount);
  RocksCommitBlock : BlockCommitPayload -> RS -> RS * result Z
}.
Arguments rocksReads {RS} _ _.
Arguments RocksGetAccount {RS} _ _ _.
Arguments RocksCommitBlock {RS} _ _ _.

(** The injectable fail points. *)
Inductive ConfirmFailPoint :=
| FailPointNone
| FailPointAfterExplorerBeforeRocks
| FailPointRocksWriteBatch
| FailPointCrashAfterExplorer.

Record HandlerEnv (CS RS : Type) := mkHandler {
  chainEnv : Env CS;
  ledgerStateRoot : CS -> result string;
  ledgerQuery : string -> CS -> result (option AccountQuery);
  hasRustCore : bool;
  AssembleBlock : CS -> Z -> string -> Z -> list string -> string -> result BlockHeader;
  rocksClient : option (RocksStoreClient RS);
  confirmFailPoint : ConfirmFailPoint
}.
Arguments chainEnv {CS RS} _.
Arguments ledgerStateRoot {CS RS} _ _.
Arguments ledgerQuery {CS RS} _ _ _.
Arguments hasRustCore {CS RS} _.
Arguments AssembleBlock {CS RS} _ _ _ _ _ _ _.
Arguments rocksClient {CS RS} _.
Arguments confirmFailPoint {CS RS} _.

(** A gateway with its disk, its RocksDB and its durable transaction pool. *)
Record Node (CS RS : Type) := mkNode {
  n_world : World CS;
  n_rocks : RS;
  n_pool : option Store
}.
Arguments mkNode {CS RS} _ _ _.
Arguments n_world {CS RS} _.
Arguments n_rocks {CS RS} _.
Arguments n_pool {CS RS} _.

Definition nonEmptyHashes (txs : list (option Transaction)) : list string :=
  filter (fun h => h <> "") (hashes (nonNil txs)).

(** [txHashesFromTransactions] (handlers_consensus.go). *)
Definition txHashesFromTransactions (txs : list (option Transaction)) : list string :=
  SortStrings (nonEmptyHashes txs).

(** [ForgetTxPool]; delete errors are only logged. *)
Definition ForgetTxPool (hs : list string) (pool : option Store) : option Store :=
  match pool with
  | None => None
  | Some s => Some (foldl (fun s h => (Delete true h s).1) s hs)
  end.

(** The header fields [FinalizeConfirmedBlock] copies into its block. *)
Definition withHeader (h : BlockHeader) (producer : string) (b : BlockRecord) : BlockRecord :=
  mkBlock (b_BlockNumber b) (b_Timestamp b) (b_TxHashes b) (b_TxCount b) (b_TotalFees b)
    (hd_BlockHash h) (hd_MerkleRoot h) (hd_StateRoot h) (hd_PreviousHash h) producer
    (b_L1Yes b) (b_L1No b) (b_L2Yes b) (b_L2No b) (b_DurationMs b) (b_L1Beneficiary b) (b_L2Confirmer b)
    (b_L1Votes b) (b_L2Votes b).

(** [for i := range bc.blockHistory { if number matches { ...; return } }]. *)
Fixpoint updateFirst (n : Z) (g : BlockRecord -> BlockRecord) (hist : list BlockRecord) : option (list BlockRecord) :=
  match hist with
  | [] => None
  | b :: rest =>
      if b_BlockNumber b =? n then Some (g b :: rest)
      else match updateFirst n g rest with Some rest' => Some (b :: rest') | None => None end
  end.

(** [SetBlockVoteCounts], [SetBlockVoteDetails] (blockchain.go). *)
Definition withVoteCounts (l1Yes l1No l2Yes l2No durationMs : Z) (l1Ben l2Conf : string) (b : BlockRecord) : BlockRecord :=
  mkBlock (b_BlockNumber b) (b_Timestamp b) (b_TxHashes b) (b_TxCount b) (b_TotalFees b) (b_BlockHash b)
    (b_MerkleRoot b) (b_StateRoot b) (b_PreviousHash b) (b_ProducerNodeID b) l1Yes l1No l2Yes l2No durationMs
    l1Ben l2Conf (b_L1Votes b) (b_L2Votes b).

Definition SetBlockVoteCounts (n l1Yes l1No l2Yes l2No durationMs : Z) (l1Ben l2Conf : string) (bc : Blockchain) : Blockchain :=
  match updateFirst n (withVoteCounts l1Yes l1No l2Yes l2No durationMs l1Ben l2Conf) (blockHistory bc) with
  | Some hist => set_blockHistory hist bc
  | None => bc
  end.

Definition withVotes (l1 l2 : gmap string bool) (b : BlockRecord) : BlockRecord :=
  mkBlock (b_BlockNumber b) (b_Timestamp b) (b_TxHashes b) (b_TxCount b) (b_TotalFees b) (b_BlockHash b)
    (b_MerkleRoot b) (b_StateRoot b) (b_PreviousHash b) (b_ProducerNodeID b) (b_L1Yes b) (b_L1No b)
    (b_L2Yes b) (b_L2No b) (b_DurationMs b) (b_L1Beneficiary b) (b_L2Confirmer b)
    (if bool_decide (l1 = ∅) then b_L1Votes b else l1) (if bool_decide (l2 = ∅) then b_L2Votes b else l2).

Definition SetBlockVoteDetails (n : Z) (l1 l2 : gmap string bool) (bc : Blockchain) : Blockchain :=
  match updateFirst n (withVotes l1 l2) (blockHistory bc) with
  | Some hist => set_blockHistory hist bc
  | None => bc
  end.

Section Boundary.
Context {CS RS : Type} {R : GoRange}.
Implicit Types (h : HandlerEnv CS RS) (n : Node CS RS) (f : Faults CS) (w : World CS).

Definition RocksEnabled h : bool := match rocksClient h with Some _ => true | None => false end.

Definition readsOf h n : option RocksReads := (fun c => rocksReads c (n_rocks n)) <$> rocksClient h.

Definition with_world w n : Node CS RS := mkNode w (n_rocks n) (n_pool n).

(** [ApplyBlockHeader]: header fields of the first row of the height, the
    producer only when given, then a persist whose error is dropped. *)
Definition ApplyBlockHeader f (number : Z) (hd : BlockHeader) (producer : string) w : World CS :=
  match updateFirst number
          (fun b => withHeader hd (if String.eqb producer "" then b_ProducerNodeID b else producer) b)
          (blockHistory (w_bc w)) with
  | None => w
  | Some hist => (persistChain f (with_bc (set_blockHistory hist (w_bc w)) w)).1
  end.

Definition assembleBlockHeader h (number : Z) (txs : list (option Transaction)) (producer : string)
  (timestamp : Z) n : result BlockHeader :=
  match ledger (chainEnv h) with
  | None => Err "core ledger unavailable"
  | Some _ =>
      if negb (hasRustCore h) then Err "core ledger unavailable"
      else AssembleBlock h (w_state (n_world n)) (u64 number)
             (PreviousHashForBlock (readsOf h n) number (w_bc (n_world n))) timestamp
             (txHashesFromTransactions txs) producer
  end.

(** The rows of the commit: hash, Core JSON and receipt of each transaction. *)
Fixpoint commitRows (height : Z) (txs : list (option Transaction))
  : result (list (string * coreJSON * BlockReceipt)) :=
  match txs with
  | [] => Ok []
  | None :: rest => commitRows height rest
  | Some tx :: rest =>
      match ToCoreJSON (Some tx) with
      | None => Err "transaction not Core-compatible for rocks commit"
      | Some j =>
          match commitRows height rest with
          | Err m => Err m
          | Ok rows => Ok ((tx_Hash tx, j, mkReceipt (tx_Hash tx) "ok" (tx_FeeUplp tx) height) :: rows)
          end
      end
  end.

(** [addrSet]. *)
Definition addrSet (txs : list (option Transaction)) : gmap string unit :=
  foldl (fun m tx =>
    let m := if nonEmpty (tx_From tx) then <[tx_From tx := tt]> m else m in
    if nonEmpty (tx_To tx) then <[tx_To tx := tt]> m else m) ∅ (nonNil txs).

Definition accountFor h (c : RocksStoreClient RS) (addr : string) n : result RocksAccount :=
  match ledger (chainEnv h) with
  | Some _ =>
      match ledgerQuery h addr (w_state (n_world n)) with
      | Err m => Err m
      | Ok q => Ok (rocksAccountFromQuery q)
      end
  | None =>
      match RocksGetAccount c addr (n_rocks n) with
      | Err m => Err m
      | Ok (Some ra) =>
          Ok (rocksAccountFromQuery (Some (mkQuery (a_Address ra) (a_Balance ra) (a_UplpBalance ra)
                (a_Nonce ra) (a_Tokens ra) (a_Xp ra))))
      | Ok None => Ok (mkAccount addr "0" "0" 0 ∅ "0")
      end
  end.

Fixpoint collectOk {A} (l : list (result A)) : result (list A) :=
  match l with
  | [] => Ok []
  | Err m :: _ => Err m
  | Ok a :: rest => match collectOk rest with Ok r => Ok (a :: r) | Err m => Err m end
  end.

Definition commitBlockToRocks h (b : BlockRecord) (txs : list (option Transaction)) (stateRoot : string) n
  : RS * result unit :=
  match rocksClient h with
  | None => (n_rocks n, Ok ())
  | Some c =>
      let stateRoot :=
        if String.eqb stateRoot "" then
          match ledger (chainEnv h) with
          | Some _ => match ledgerStateRoot h (w_state (n_world n)) with Ok sr => sr | Err _ => stateRoot end
          | None => stateRoot
          end
        else stateRoot in
      if String.eqb stateRoot "" then (n_rocks n, Err "state root required for rocks commit")
      else
      let height := GatewayBlockToRocksHeight (b_BlockNumber b) in
      match commitRows height txs with
      | Err m => (n_rocks n, Err m)
      | Ok rows =>
          match collectOk ((fun '(addr, _) => accountFor h c addr n) <$> range (addrSet txs)) with
          | Err m => (n_rocks n, Err m)
          | Ok accounts =>
              let '(rs, r) := RocksCommitBlock c
                (mkPayload
                   (mkStored height (b_PreviousHash b) (b_Timestamp b) ((fun r => r.1.1) <$> rows)
                      (b_MerkleRoot b) stateRoot (b_BlockHash b) (b_ProducerNodeID b))
                   ((fun r => r.1.2) <$> rows) accounts (snd <$> rows) stateRoot) (n_rocks n) in
              (rs, match r with Ok _ => Ok () | Err m => Err m end)
          end
      end
  end.

(** [DurableCommitAfterExplorer]; the result is whether RocksDB committed. *)
Definition undoNode h f (b : BlockRecord) (moved : list (option Transaction)) (hasBak : bool) n : Node CS RS :=
  with_world (UndoLastConfirmedBlock (chainEnv h) f b moved hasBak (n_world n)).1 n.

Definition DurableCommitAfterExplorer h f (b : BlockRecord) (moved : list (option Transaction)) (hasBak : bool) n
  : Node CS RS * result bool :=
  match confirmFailPoint h with
  | FailPointAfterExplorerBeforeRocks => (undoNode h f b moved hasBak n, Err "injected failure before Rocks")
  | FailPointCrashAfterExplorer => (n, Err "injected crash after explorer")
  | FailPointRocksWriteBatch => (undoNode h f b moved hasBak n, Err "rocks WriteBatch failed after confirm")
  | FailPointNone =>
      let '(rs, r) := commitBlockToRocks h b moved (b_StateRoot b) n in
      let n := mkNode (n_world n) rs (n_pool n) in
      match r with
      | Err m => (undoNode h f b moved hasBak n, Err "rocks commit failed after confirm")
      | Ok _ =>
          let w := if hasBak then removeBak f (n_world n) else n_world n in
          (mkNode w rs (ForgetTxPool (nonEmptyHashes moved) (n_pool n)), Ok (RocksEnabled h))
      end
  end.

(** [FinalizeConfirmedBlock]: the block it returns and the outcome. *)
Definition FinalizeConfirmedBlock h f (b : BlockRecord) (moved : list (option Transaction)) (hasBak : bool)
  (producer : string) n : Node CS RS * result (BlockRecord * bool) :=
  match assembleBlockHeader h (b_BlockNumber b) moved producer (b_Timestamp b) n with
  | Err m =>
      if RocksEnabled h then
        (undoNode h f b moved hasBak n, Err "assemble-block required when Rocks is authoritative")
      else
        let w := if hasBak then removeBak f (n_world n) else n_world n in
        (with_world (persistChain f w).1 n, Ok (b, false))
  | Ok hd =>
      let n := with_world (ApplyBlockHeader f (b_BlockNumber b) hd producer (n_world n)) n in
      let b := withHeader hd producer b in
      let '(n, r) := DurableCommitAfterExplorer h f b moved hasBak n in
      (n, match r with Ok c => Ok (b, c) | Err m => Err m end)
  end.

(** [ApplyPeerConfirmedBlock]. *)
Definition ApplyPeerConfirmedBlock h f (meanwhile : Blockchain -> Blockchain) (b : BlockRecord)
  (txs : list (option Transaction)) n : Node CS RS * result bool :=
  let '(w, r) := AddConfirmedBlock (chainEnv h) f meanwhile b txs (n_world n) in
  let n := with_world w n in
  match r with
  | Err m => (n, Err m)
  | Ok None => (n, Ok false)
  | Ok (Some hasBak) =>
      let '(n, r) := DurableCommitAfterExplorer h f b txs hasBak n in
      (n, match r with Ok _ => Ok true | Err m => Err m end)
  end.
End Boundary.
