(* ===== verification/BoundarySpec.v ===== *)
(** * Contracts of the confirm boundary

    Proofs about file Boundary: a confirmed block is either committed to
    RocksDB or undone in Core and in the explorer; chain.json never loses its
    head; what the undo cannot do to chain.json. *)

From S2P Require Import Prelude GoStd Dag Tx ForkChoice Chain Pool Confirm ConfirmSpec History HistorySpec TxPool Boundary.

#[local] Open Scope Z_scope.

Section Boundary.
Context {CS RS : Type} {R : GoRange}.
Implicit Types (h : HandlerEnv CS RS) (n : Node CS RS) (f : Faults CS) (w : World CS).

Lemma persistChain_frame f w :
  let w' := (persistChain f w).1 in
  w_state w' = w_state w /\ w_bak w' = w_bak w /\ exists d, w_bc w' = set_durableHead d (w_bc w).
Proof.
  cbv zeta. destruct (persistChain f w) as [w' [u|m]] eqn:E; simpl.
  - apply persistChain_ok in E as [[-> _]|(_ & _ & ->)]; simpl; (split; [done|split; [done|]]).
    + eexists. symmetry. apply set_durableHead_same.
    + by eexists.
  - apply persistChain_err in E as ->. split; [done|]. split; [done|]. eexists. symmetry. apply set_durableHead_same.
Qed.

Lemma undo_world (e : Env CS) f b moved w cs :
  ledger e <> None -> w_bak w = Some cs -> restoreCopy f = CopyOk ->
  let w' := (UndoLastConfirmedBlock e f b moved true w).1 in
  w_state w' = cs /\
  exists d, w_bc w' = set_durableHead d (undoExplorerConfirmLocked b moved "pending" (w_bc w)).
Proof.
  intros Hl Hb Hr. cbv zeta. unfold UndoLastConfirmedBlock, rollbackConfirmLocked, restoreState, removeBak.
  destruct (ledger e); [|done]. rewrite Hb, Hr.
  match goal with |- context [persistChain f ?x] => destruct (persistChain_frame f x) as (Hs & _ & d & Hd); set (w1 := x) in * end.
  simpl. rewrite Hs, Hd. split.
  - subst w1. by destruct (removeOk f).
  - exists d. subst w1. by destruct (removeOk f).
Qed.

Lemma updateFirst_snoc k g hist b :
  k ∉ numbers hist -> b_BlockNumber b = k -> updateFirst k g (hist ++ [b]) = Some (hist ++ [g b]).
Proof.
  intros Hk Hb. induction hist as [|c hist IH]; simpl.
  - by rewrite Hb, Z.eqb_refl.
  - unfold numbers in Hk. rewrite fmap_cons in Hk. apply not_elem_of_cons in Hk as [Hc Hk].
    rewrite (proj2 (Z.eqb_neq _ _)) by congruence. by rewrite IH.
Qed.

(** What the durability half does, fail points apart. *)
Lemma durable_cases h f b moved n n' r :
  DurableCommitAfterExplorer h f b moved true n = (n', r) ->
  confirmFailPoint h <> FailPointCrashAfterExplorer ->
  match r with
  | Ok c => c = RocksEnabled h /\ w_state (n_world n') = w_state (n_world n) /\ w_bc (n_world n') = w_bc (n_world n)
  | Err _ => n_world n' = (UndoLastConfirmedBlock (chainEnv h) f b moved true (n_world n)).1
  end.
Proof.
  unfold DurableCommitAfterExplorer, undoNode, removeBak. intros H Hc.
  destruct (confirmFailPoint h); simplify_eq; try done.
  destruct (commitBlockToRocks _ _ _ _ _) as [rs [u|m]]; simplify_eq/=; [|done].
  by destruct (removeOk f).
Qed.

(** The undo of a confirmed batch on a world whose tip may carry a header. *)
Lemma undo_after_confirm (e : Env CS) f b2 b bc1 moved w2 t d d2 cs :
  let bc := foldl (adoptOne (blockCounter bc1)) (set_blockCounter (i64 (blockCounter bc1 + 1)) bc1) moved in
  ledger e <> None -> restoreCopy f = CopyOk -> w_bak w2 = Some cs ->
  w_bc w2 = set_durableHead d2 (set_blockHistory (blockHistory bc ++ [t])
              (set_durableHead d (appendBlock b (set_pendingBlock [] bc)))) ->
  b_BlockNumber t = blockCounter bc1 -> b_BlockNumber b2 = blockCounter bc1 -> b_TotalFees b2 = i64 (sumFees moved) ->
  0 <= totalFeesCollected bc1 < two63 -> Forall (fun tx => tx_Hash tx ∉ confirmedHashes bc1) moved ->
  let w3 := (UndoLastConfirmedBlock e f b2 (Some <$> moved) true w2).1 in
  w_state w3 = cs /\
  blockHistory (w_bc w3) = blockHistory bc1 /\ blockCounter (w_bc w3) = blockCounter bc1 /\
  totalFeesCollected (w_bc w3) = totalFeesCollected bc1 /\ confirmedHashes (w_bc w3) = confirmedHashes bc1 /\
  mempool (w_bc w3) = mempool bc1 /\ pendingBlock (w_bc w3) = moved.
Proof.
  intros bc Hl Hr Hb2 Hw2 Ht Hb2n Hb2f Hfees Hfresh. cbv zeta.
  destruct (adopt_foldl_frame (blockCounter bc1) (set_blockCounter (i64 (blockCounter bc1 + 1)) bc1) moved)
    as (Fm & _). fold bc in Fm. cbn [mempool set_blockCounter] in Fm.
  destruct (undo_world e f b2 (Some <$> moved) w2 cs) as (-> & d3 & ->); [done..|].
  split; [done|]. cbn [blockHistory blockCounter totalFeesCollected confirmedHashes mempool pendingBlock set_durableHead].
  destruct (undo_confirm bc1 bc moved b2 t "pending" (w_bc w2)) as (-> & -> & -> & -> & _);
    rewrite ?Hw2; try done; [congruence|].
  destruct (undoExplorer_spec (w_bc w2) (blockHistory bc) t b2 moved "pending") as (_ & _ & _ & Hum & Hup & _);
    [by rewrite Hw2|congruence|].
  rewrite Hw2 in Hum, Hup. cbn in Hum, Hup. rewrite Hum, Hup, Fm. done.
Qed.

(** ** chain.json and the undo *)

Lemma historyHead_snoc hist b :
  historyHead hist < b_BlockNumber b -> historyHead (hist ++ [b]) = b_BlockNumber b.
Proof.
  intros Hlt. destruct (historyHead_max (hist ++ [b])) as (_ & Hall & Hor).
  destruct (historyHead_max hist) as (Hm1 & Hold & _).
  rewrite Forall_app, Forall_singleton in Hall. destruct Hall as [_ Hb].
  destruct Hor as [Hor|Hor]; [lia|]. unfold numbers in Hor. rewrite fmap_app, elem_of_app in Hor.
  destruct Hor as [(c & Hc & Hin)%list_elem_of_fmap|Hor].
  - rewrite Forall_forall in Hold. specialize (Hold c Hin). simpl in Hold. lia.
  - apply list_elem_of_singleton in Hor. lia.
Qed.

(** the compensating undo cannot reach chain.json. After a confirmation
    that wrote chain.json at a new height, [UndoLastConfirmedBlock] restores
    Core and the explorer but always returns the error "refuse to shrink chain
    head", and chain.json still ends in the undone block. *)
Theorem undo_leaves_tip_in_chain_file (e : Env CS) f f' meanwhile now w w1 moved b hasBak
  (Hl2 : L2ConfirmBlock e f meanwhile now w = (w1, Ok (moved, b, hasBak)))
  (Hledger : ledger e <> None) (Hcopy : restoreCopy f' = CopyOk)
  (Hfile : chainFile (relocked e f meanwhile w) <> "")
  (Hnew : historyHead (blockHistory (relocked e f meanwhile w)) < blockCounter (relocked e f meanwhile w))
  (Hcnt : 0 <= blockCounter (relocked e f meanwhile w))
  (Hfees : is_i64 (totalFeesCollected (relocked e f meanwhile w))) :
  let r := UndoLastConfirmedBlock e f' b (Some <$> moved) hasBak w1 in
  r.2 = Err "refuse to shrink chain head" /\ w_state r.1 = w_state w /\
  blockHistory (w_bc r.1) = blockHistory (relocked e f meanwhile w) /\
  exists file, w_chain r.1 = Some file /\ f_Blocks file = blockHistory (relocked e f meanwhile w) ++ [b].
Proof.
  set (bc1 := relocked e f meanwhile w) in *. cbv zeta.
  apply L2_ok_shape in Hl2 as (_ & Hn & _ & (d & Hw1) & Hbak & Hhb & Hdisk); [|done]. fold bc1 in Hn, Hw1, Hdisk.
  rewrite (Hhb Hledger) in *. clear Hhb hasBak. destruct (Hdisk Hfile) as [Hch Hdh]. clear Hdisk.
  set (bc := foldl (adoptOne (blockCounter bc1)) (set_blockCounter (i64 (blockCounter bc1 + 1)) bc1) moved) in *.
  destruct (adopt_foldl_frame (blockCounter bc1) (set_blockCounter (i64 (blockCounter bc1 + 1)) bc1) moved)
    as (_ & _ & _ & Fh & Fc & _). fold bc in Fh, Fc. cbn [chainFile blockHistory set_blockCounter] in Fh, Fc.
  assert (Hhist : blockHistory (w_bc w1) = blockHistory bc1 ++ [b]) by (rewrite Hw1; cbn; by rewrite Fh).
  rewrite Hhist, historyHead_snoc in Hdh by lia.
  destruct (undoExplorer_spec (w_bc w1) (blockHistory bc1) b b moved "pending" Hhist eq_refl)
    as (Hu & _ & _ & _ & _ & _ & _ & _ & Hucf & Hudh).
  unfold UndoLastConfirmedBlock, rollbackConfirmLocked, restoreState. destruct (ledger e); [|done].
  rewrite Hbak, Hcopy. cbn [w_bc with_state]. set (bc2 := undoExplorerConfirmLocked b _ "pending" (w_bc w1)) in *.
  set (w2 := removeBak f' _).
  assert (Hw2 : w_bc w2 = bc2 /\ w_state w2 = w_state w /\ w_chain w2 = w_chain w1)
    by (subst w2; unfold removeBak; by destruct (removeOk f')).
  destruct Hw2 as (Hbc2 & Hs2 & Hc2).
  assert (Hp : persistChain f' w2 = (w2, Err "refuse to shrink chain head")).
  { unfold persistChain. rewrite Hbc2. assert (chainFile bc2 = chainFile bc1) as Hcf by (rewrite Hucf, Hw1; exact Fc).
    rewrite Hcf, (proj2 (String.eqb_neq _ _)) by done.
    cbn [f_Blocks chainSnapshot]. rewrite Hu, Hudh.
    rewrite (proj2 (Z.leb_le 0 _)), (proj2 (Z.ltb_lt _ _)) by lia. done. }
  rewrite Hp. cbn [fst snd]. rewrite Hs2, Hbc2, Hu, Hc2, Hch. repeat split. eexists. split; [done|].
  cbn [f_Blocks chainSnapshot]. done.
Qed.

(** ** The head of chain.json over time *)

Definition fileHead (c : option ChainFileData) : Z :=
  match c with Some file => historyHead (f_Blocks file) | None => -1 end.

Definition disk_wf w : Prop := fileHead (w_chain w) <= durableHead (w_bc w).

(** Steps of a running gateway that may write chain.json, and every other
    step, which keeps chain.json and the durable head. *)
Inductive io_step : World CS -> World CS -> Prop :=
| io_persist f w : io_step w (persistChain f w).1
| io_l2 e f mw now w :
    (forall bc, durableHead (mw bc) = durableHead bc) -> io_step w (L2ConfirmBlock e f mw now w).1
| io_legacy e f mw now w :
    (forall bc, durableHead (mw bc) = durableHead bc) -> io_step w (ConfirmMempoolToChain e f mw now w).1
| io_peer e f mw block txs w :
    (forall bc, durableHead (mw bc) = durableHead bc) -> io_step w (AddConfirmedBlock e f mw block txs w).1
| io_undo e f b moved hasBak w : io_step w (UndoLastConfirmedBlock e f b moved hasBak w).1
| io_other w w' : w_chain w' = w_chain w -> durableHead (w_bc w') = durableHead (w_bc w) -> io_step w w'.

Definition mono w w' : Prop := disk_wf w -> disk_wf w' /\ fileHead (w_chain w) <= fileHead (w_chain w').

#[local] Instance mono_preorder : PreOrder mono.
Proof.
  split; [intros w Hw; split; [done|lia]|].
  intros w1 w2 w3 H12 H23 Hw. destruct (H12 Hw) as [H2 ?]. destruct (H23 H2). split; [done|lia].
Qed.

Lemma mono_same w w' : w_chain w' = w_chain w -> durableHead (w_bc w') = durableHead (w_bc w) -> mono w w'.
Proof. unfold mono, disk_wf. intros -> -> ?. lia. Qed.

Lemma mono_persist f w : mono w (persistChain f w).1.
Proof.
  destruct (persistChain f w) as [w' [u|m]] eqn:E; simpl.
  - apply persistChain_ok in E as [[-> _]|(_ & Hd & ->)]; [reflexivity|].
    unfold mono, disk_wf. cbn [w_chain w_bc fileHead f_Blocks chainSnapshot durableHead set_durableHead].
    destruct (historyHead_max (blockHistory (w_bc w))) as (Hm & _). intros Hw. lia.
  - by apply persistChain_err in E as ->.
Qed.

Lemma apply_frame (e : Env CS) f txs w :
  let w' := (applyConfirmedTransactions e f txs w).1 in
  w_chain w' = w_chain w /\ durableHead (w_bc w') = durableHead (w_bc w).
Proof.
  cbv zeta. unfold applyConfirmedTransactions. destruct (ledger e) as [ls|]; [|by case_match].
  unfold snapshotState, rollback, restoreState, removeBak. destruct (snapCopy f); simpl; [|done|done].
  destruct (maybeDagReorder e ls txs (w_bc w)) as [bc r] eqn:Ed. apply maybeDagReorder_frame in Ed.
  assert (Hd : durableHead bc = durableHead (w_bc w)) by (by destruct Ed as [-> | ->]).
  destruct r; simpl; [|by destruct (restoreCopy f), (removeOk f)].
  destruct (applyBatch _ _ _ _) as [cs []]; simpl; [done|]. by destruct (restoreCopy f), (removeOk f).
Qed.

Lemma undo_durableHead b moved requeue bc :
  durableHead (undoExplorerConfirmLocked b moved requeue bc) = durableHead bc.
Proof.
  assert (Hf : forall bc txs, durableHead (foldl (undoOne requeue) bc txs) = durableHead bc)
    by (intros bc0 txs; by destruct (undo_foldl_frame requeue bc0 txs) as (_ & _ & _ & _ & ->)).
  unfold undoExplorerConfirmLocked. cbv zeta. rewrite Hf. cbn [durableHead set_totalFeesCollected].
  by repeat case_match.
Qed.

(** Every part of an operation but the write keeps chain.json and the head. *)
Lemma mono_abort f hasBak b moved requeue w :
  mono w (abortPersist f hasBak b moved requeue w) /\ mono w (abortTOCTOU f hasBak w).
Proof.
  unfold abortPersist, abortTOCTOU, restoreState, removeBak.
  split; apply mono_same; destruct hasBak; try done;
    destruct (w_bak w), (restoreCopy f), (removeOk f); cbn; try done; apply undo_durableHead.
Qed.

Lemma mono_rollback (e : Env CS) f b moved hasBak requeue w :
  mono w (rollbackConfirmLocked e f b moved hasBak requeue w).1.
Proof.
  unfold rollbackConfirmLocked, restoreState, removeBak. apply mono_same.
  - destruct (ledger e), hasBak, (w_bak w), (restoreCopy f), (removeOk f); done.
  - destruct (ledger e), hasBak, (w_bak w), (restoreCopy f), (removeOk f); cbn; apply undo_durableHead.
Qed.

Lemma mono_apply (e : Env CS) f txs w w' r :
  applyConfirmedTransactions e f txs w = (w', r) -> mono w w'.
Proof. intros E. destruct (apply_frame e f txs w) as [? ?]. rewrite E in *. by apply mono_same. Qed.

(** A chain update followed by the write and, when it fails, the abort. *)
Lemma mono_commit f w bc (abort : World CS -> World CS) w1 r :
  durableHead bc = durableHead (w_bc w) -> (forall w, mono w (abort w)) ->
  persistChain f (with_bc bc w) = (w1, r) ->
  mono w (match r with Ok _ => w1 | Err _ => abort w1 end).
Proof.
  intros Hd Ha Ep. pose proof (mono_persist f (with_bc bc w)) as Hp. rewrite Ep in Hp. cbn [fst] in Hp.
  assert (mono w w1) by (etransitivity; [|exact Hp]; by apply mono_same).
  destruct r; [done|]. by etransitivity.
Qed.

Lemma confirm_durableHead now l bc0 txs bc b :
  foldl confirmOne (openBlock bc0) txs = (bc, b) \/ foldl confirmOneLegacy (openBlock bc0) txs = (bc, b) ->
  durableHead (appendBlock (stampBlock now l b) bc) = durableHead bc0.
Proof.
  assert (H : forall (step : Blockchain * BlockRecord -> Transaction -> Blockchain * BlockRecord),
    (forall st tx, durableHead (step st tx).1 = durableHead st.1) ->
    forall st, durableHead (foldl step st txs).1 = durableHead st.1).
  { intros step Hs. induction txs as [|tx txs' IH]; intros st; [done|]. simpl. by rewrite IH. }
  intros [E|E]; [specialize (H confirmOne)|specialize (H confirmOneLegacy)];
    (specialize (H ltac:(by intros [? ?] ?) (openBlock bc0)); rewrite E in H; exact H).
Qed.

Lemma adopt_durableHead block txs bc : durableHead (adoptBlock block txs bc) = durableHead bc.
Proof.
  unfold adoptBlock. cbv zeta.
  cbn [durableHead appendBlock set_blockHistory set_pendingBlock set_mempool set_confirmedHashes].
  set (bc0 := if (0 <=? _) && _ then _ else _).
  transitivity (durableHead bc0).
  - by destruct (adopt_foldl_frame (b_BlockNumber block) bc0 (nonNil txs)) as (_ & _ & _ & _ & _ & -> & _).
  - subst bc0. by destruct (_ && _).
Qed.

Lemma io_step_mono w w' : io_step w w' -> mono w w'.
Proof.
  destruct 1 as [f w|e f mw now w Hmw|e f mw now w Hmw|e f mw block txs w Hmw|e f b moved hb w|w w' Hc Hd].
  - apply mono_persist.
  - unfold L2ConfirmBlock. destruct (applyConfirmedTransactions _ _ _ _) as [wa [hb|]] eqn:Ea;
      apply mono_apply in Ea; [|done]. etransitivity; [exact Ea|].
    transitivity (with_bc (mw (w_bc wa)) wa); [apply mono_same; [done|apply Hmw]|].
    destruct (negb _); [apply (mono_abort f hb zeroBlock [] "")|].
    destruct (negb _); [apply (mono_abort f hb zeroBlock [] "")|].
    destruct (foldl confirmOne _ _) as [bc b] eqn:El. cbn [w_bc with_bc] in *.
    destruct (persistChain _ _) as [w1 r] eqn:Ep.
    apply (mono_commit _ _ _ (abortPersist f hb (stampBlock now (lastTx (set_pendingBlock [] bc)) b)
             (Some <$> pendingBlock (w_bc w)) "pending")) in Ep;
      [|by apply (confirm_durableHead now (lastTx bc) _ _ bc b (or_introl El))|intros; apply mono_abort].
    by destruct r.
  - unfold ConfirmMempoolToChain. destruct (applyConfirmedTransactions _ _ _ _) as [wa [hb|]] eqn:Ea;
      apply mono_apply in Ea; [|done]. etransitivity; [exact Ea|].
    transitivity (with_bc (mw (w_bc wa)) wa); [apply mono_same; [done|apply Hmw]|]. cbn [w_bc with_bc] in *.
    destruct (foldl confirmOneLegacy _ _) as [bc b] eqn:El.
    destruct (persistChain _ _) as [w1 r] eqn:Ep.
    apply (mono_commit _ _ _ (abortPersist f hb (stampBlock now (lastTx (set_mempool [] bc)) b)
             (Some <$> mempool (mw (w_bc wa))) "mempool")) in Ep;
      [|by apply (confirm_durableHead now (lastTx bc) _ _ bc b (or_intror El))|intros; apply mono_abort].
    by destruct r.
  - unfold AddConfirmedBlock. destruct (scanHeight _ _); [|reflexivity|reflexivity].
    destruct (applyConfirmedTransactions _ _ _ _) as [wa [hb|]] eqn:Ea;
      apply mono_apply in Ea; [|done]. etransitivity; [exact Ea|].
    destruct (String.eqb _ _).
    + cbn [fst]. etransitivity; [|apply mono_rollback]. apply mono_same; [done|]. cbn [w_bc with_bc]. by rewrite adopt_durableHead, Hmw.
    + destruct (persistChain _ _) as [w1 r] eqn:Ep.
      apply (mono_commit _ _ _ (fun w => (rollbackConfirmLocked e f block (Some <$> nonNil txs) hb "mempool" w).1)) in Ep;
        [by destruct r|by rewrite adopt_durableHead, Hmw|intros; apply mono_rollback].
  - unfold UndoLastConfirmedBlock. pose proof (mono_rollback e f b moved hb "pending" w) as Hr.
    destruct (rollbackConfirmLocked _ _ _ _ _ _ _) as [w1 [u|m]]; [|done]. cbn [fst] in *.
    etransitivity; [exact Hr|]. apply mono_persist.
  - by apply mono_same.
Qed.

(** C7: chain.json never loses its head. Over any sequence of confirmations
    (L2, legacy, peer), undos, header writes and snapshots, whatever fails on
    the way, the highest block of chain.json never decreases and stays at or
    below the durable head kept in memory. *)
Theorem chain_file_head_monotone w w' (Hsteps : rtc io_step w w') (Hwf : disk_wf w) :
  disk_wf w' /\ fileHead (w_chain w) <= fileHead (w_chain w').
Proof.
  assert (H : forall a b, rtc io_step a b -> mono a b).
  { induction 1; [reflexivity|]. etransitivity; [by apply io_step_mono|done]. }
  by apply (H _ _ Hsteps).
Qed.
End Boundary.
