(* ===== verification/PeerSpec.v ===== *)
(** * Contracts of peer blocks and witnesses of the confirm boundary

    Proofs about [AddConfirmedBlock] (file Confirm), and concrete runs of the
    theorems of file BoundarySpec. *)

From S2P Require Import Prelude GoStd Dag Tx ForkChoice Chain Pool Confirm ConfirmSpec History HistorySpec TxPool Boundary BoundarySpec.

#[local] Open Scope Z_scope.

Lemma scanHeight_spec block hist :
  match scanHeight block hist with
  | PeerNew => b_BlockNumber block ∉ numbers hist
  | PeerKnown => exists b, b ∈ hist /\ b_BlockNumber b = b_BlockNumber block /\ b_BlockHash b = b_BlockHash block
  | PeerConflict _ => exists b, b ∈ hist /\ b_BlockNumber b = b_BlockNumber block /\ b_BlockHash b <> b_BlockHash block
  end.
Proof.
  induction hist as [|b hist IH]; simpl; [apply not_elem_of_nil|].
  destruct (b_BlockNumber b =? b_BlockNumber block) eqn:En; simpl; bools.
  - assert (Hdec : b_BlockHash b = b_BlockHash block \/ b_BlockHash b <> b_BlockHash block)
      by (destruct (decide (b_BlockHash b = b_BlockHash block)); auto).
    destruct Hdec as [Hh|Hh].
    + rewrite Hh, String.eqb_refl, andb_true_r. unfold nonEmpty.
      destruct (String.eqb (b_BlockHash block) ""); simpl; exists b; set_solver.
    + rewrite (proj2 (String.eqb_neq _ _) Hh), andb_false_r. simpl.
      destruct (PreferBlock b block); exists b; set_solver.
  - destruct (scanHeight block hist); [apply not_elem_of_cons; split; [congruence|done]| |];
      destruct IH as (c & ? & ?); exists c; set_solver.
Qed.

Lemma adoptBlock_fields block txs bc :
  let bc' := adoptBlock block txs bc in
  blockHistory bc' = blockHistory bc ++ [block] /\
  (forall tx, tx ∈ nonNil txs -> tx_Hash tx ∈ confirmedHashes bc' /\ tx_Hash tx ∉ hashes (inflight bc')).
Proof.
  cbv zeta. unfold adoptBlock. cbv zeta. set (bc0 := if (0 <=? _) && _ then _ else _).
  assert (Hh0 : blockHistory bc0 = blockHistory bc) by (subst bc0; by destruct (_ && _)).
  destruct (adopt_foldl_frame (b_BlockNumber block) bc0 (nonNil txs)) as (_ & _ & _ & Hh & _).
  split; [cbn; by rewrite Hh, Hh0|]. intros tx Hin.
  cbn [confirmedHashes appendBlock set_blockHistory set_pendingBlock set_mempool set_confirmedHashes].
  rewrite adopt_foldl_confirmed. split.
  - assert (tx_Hash tx ∈ hashes (nonNil txs)) by (apply list_elem_of_fmap; by exists tx). set_solver.
  - unfold inflight, hashes. cbn. rewrite fmap_app, elem_of_app, !list_elem_of_fmap.
    assert (Hk : forall l : list Transaction, ~ (exists y, tx_Hash tx = tx_Hash y /\ y ∈ filter (keepHash (list_to_set (hashes (nonNil txs)))) l)).
    { intros l (y & He & [Hy _]%list_elem_of_filter). apply Hy. rewrite <- He. apply elem_of_list_to_set.
      apply list_elem_of_fmap. by exists tx. }
    intros [Hm|Hp]; [by apply (Hk _ Hm)|by apply (Hk _ Hp)].
Qed.

Section Peer.
Context {CS : Type} {R : GoRange}.
Implicit Types (w : World CS) (f : Faults CS) (e : Env CS).

Lemma rollback_world e f b moved w cs :
  ledger e <> None -> w_bak w = Some cs -> restoreCopy f = CopyOk ->
  let w' := (rollbackConfirmLocked e f b moved true "mempool" w).1 in
  w_state w' = cs /\ w_chain w' = w_chain w /\ w_bc w' = undoExplorerConfirmLocked b moved "mempool" (w_bc w).
Proof.
  intros Hl Hb Hr. cbv zeta. unfold rollbackConfirmLocked, restoreState, removeBak.
  destruct (ledger e); [|done]. rewrite Hb, Hr. by destruct (removeOk f).
Qed.

Lemma peer_block_cases e f block txs w w' r
  (Hrun : AddConfirmedBlock e f id block txs w = (w', r))
  (Hledger : ledger e <> None) (Hcopy : restoreCopy f = CopyOk) :
  if decide (b_BlockNumber block ∈ numbers (blockHistory (w_bc w))) then
    w' = w /\
    match r with
    | Ok None => exists b, b ∈ blockHistory (w_bc w) /\ b_BlockNumber b = b_BlockNumber block /\ b_BlockHash b = b_BlockHash block
    | Ok (Some _) => False
    | Err _ => exists b, b ∈ blockHistory (w_bc w) /\ b_BlockNumber b = b_BlockNumber block /\ b_BlockHash b <> b_BlockHash block
    end
  else
    match r with
    | Ok None => False
    | Ok (Some hasBak) =>
        blockHistory (w_bc w') = blockHistory (w_bc w) ++ [block] /\ hasBak = true /\ w_bak w' = Some (w_state w) /\
        (forall tx, tx ∈ nonNil txs -> tx_Hash tx ∈ confirmedHashes (w_bc w') /\ tx_Hash tx ∉ hashes (inflight (w_bc w')))
    | Err _ =>
        blockHistory (w_bc w') = blockHistory (w_bc w) /\ w_state w' = w_state w /\ w_chain w' = w_chain w
    end.
Proof.
  unfold AddConfirmedBlock in Hrun. pose proof (scanHeight_spec block (blockHistory (w_bc w))) as Hscan.
  destruct (scanHeight block _) as [| |m].
  2:{ simplify_eq. rewrite decide_True; [done|]. destruct Hscan as (b & Hb & <- & _).
      apply list_elem_of_fmap. by exists b. }
  2:{ simplify_eq. rewrite decide_True; [done|]. destruct Hscan as (b & Hb & <- & _).
      apply list_elem_of_fmap. by exists b. }
  rewrite decide_False by done.
  destruct (applyConfirmedTransactions e f txs w) as [wa [hb|m]] eqn:Ea.
  2:{ simplify_eq. apply apply_err in Ea as (? & ? & [-> | ->]); done. }
  apply apply_ok in Ea as (Hd & Hch & Hcore). destruct hb; [|by destruct Hcore as (_ & ? & _)].
  destruct Hcore as [Hbak _]. cbn [id] in Hrun.
  assert (Hhist : blockHistory (w_bc wa) = blockHistory (w_bc w)) by (by destruct Hd as [-> | ->]).
  destruct (adoptBlock_fields block txs (w_bc wa)) as [Hah Hap].
  assert (Hroll : forall w2, w_bak w2 = w_bak wa -> w_chain w2 = w_chain w ->
    w_bc w2 = adoptBlock block txs (w_bc wa) ->
    let w3 := (rollbackConfirmLocked e f block (Some <$> nonNil txs) true "mempool" w2).1 in
    blockHistory (w_bc w3) = blockHistory (w_bc w) /\ w_state w3 = w_state w /\ w_chain w3 = w_chain w).
  { intros w2 Hb2 Hc2 Hbc2. cbv zeta.
    destruct (rollback_world e f block (Some <$> nonNil txs) w2 (w_state w)) as (-> & -> & ->); [done|by rewrite Hb2|done|].
    rewrite Hbc2. destruct (undoExplorer_spec (adoptBlock block txs (w_bc wa)) (blockHistory (w_bc wa)) block block
      (nonNil txs) "mempool" Hah eq_refl) as (-> & _). done. }
  destruct (String.eqb _ _).
  { simplify_eq. by apply Hroll. }
  destruct (persistChain _ _) as [wp [u|m]] eqn:Ep; simplify_eq.
  - apply persistChain_ok in Ep as [[-> _]|(_ & _ & ->)]; cbn [w_bc with_bc w_bak w_chain w_state];
      (split; [by rewrite <- Hhist|split; [done|split; [done|exact Hap]]]).
  - apply persistChain_err in Ep as ->. by apply Hroll.
Qed.

End Peer.

(** ** Witnesses *)

#[local] Instance peerRange : GoRange := canonical_range.

Definition demoBlock (n : Z) (hash : string) (txs : list Transaction) : BlockRecord :=
  mkBlock n 5 (hashes txs) (Z.of_nat (length txs)) 3 hash "" "root" "" "peer" 0 0 2 0 0 "" "" ∅ ∅.


(** the height check of [AddConfirmedBlock] is not repeated after the
    batch was applied without the lock. When a local L2 confirmation takes the
    height meanwhile, both blocks end up in the history under one number. *)
Theorem peer_block_race_duplicates_height :
  let local := fun bc => (w_bc (L2ConfirmBlock demoEnv (demoFaults WriteOk) id 7 (mkWorld bc 100 None None)).1) in
  let r := AddConfirmedBlock demoEnv (demoFaults WriteOk) local (demoBlock 0 "peer-hash" [txB]) [Some txB] demoWorld in
  r.2 = Ok (Some true) /\ numbers (blockHistory (w_bc r.1)) = [0; 0].
Proof. vm_compute. split; reflexivity. Qed.

Definition demoClient (commits : bool) : RocksStoreClient (list BlockCommitPayload) :=
  mkClient _ (fun rs => mkRocks (Ok (Z.of_nat (length rs))) (fun _ => Ok None) (fun _ => Ok None))
    (fun _ _ => Ok None)
    (fun p rs => if commits then (rs ++ [p], Ok (rb_Height (p_Block p))) else (rs, Err "write batch")).

Definition demoHandler (commits : bool) : HandlerEnv Z (list BlockCommitPayload) :=
  mkHandler _ _ demoEnv (fun cs => Ok "root") (fun a cs => Ok (Some (mkQuery a "1" "1" 0 ∅ ""))) true
    (fun cs n prev ts hs p => Ok (mkHeader "block-hash" "merkle" "root" prev)) (Some (demoClient commits)) FailPointNone.

(** A RocksDB that refuses the write: Core and the explorer are back. *)
Definition demoConfirmed : BlockRecord :=
  mkBlock 0 5 ["hash-a"; "hash-b"] 2 5 "" "" "" "" "" 0 0 0 0 0 "" "" ∅ ∅.

Lemma demo_l2 :
  L2ConfirmBlock demoEnv (demoFaults WriteOk) id 7 demoWorld =
  ((L2ConfirmBlock demoEnv (demoFaults WriteOk) id 7 demoWorld).1, Ok ([txA; txB], demoConfirmed, true)).
Proof.
  assert (H : (L2ConfirmBlock demoEnv (demoFaults WriteOk) id 7 demoWorld).2 = Ok ([txA; txB], demoConfirmed, true))
    by (vm_compute; reflexivity).
  rewrite <- H. apply surjective_pairing.
Qed.


Lemma undo_leaves_tip_in_chain_file_witness :
  exists w1 b, L2ConfirmBlock demoEnv (demoFaults WriteOk) id 7 demoWorld = (w1, Ok ([txA; txB], b, true)) /\
  (UndoLastConfirmedBlock demoEnv (demoFaults WriteOk) b (Some <$> [txA; txB]) true w1).2
    = Err "refuse to shrink chain head".
Proof.
  destruct (L2ConfirmBlock demoEnv (demoFaults WriteOk) id 7 demoWorld) as [w1 r] eqn:E.
  assert (Hr : r = (L2ConfirmBlock demoEnv (demoFaults WriteOk) id 7 demoWorld).2) by (by rewrite E).
  vm_compute in Hr. subst r. eexists w1, _. split; [reflexivity|].
  apply (undo_leaves_tip_in_chain_file demoEnv (demoFaults WriteOk) (demoFaults WriteOk) id 7 demoWorld w1 _ _ _ E);
    [done|reflexivity|apply String.eqb_neq; vm_compute; reflexivity|apply Z.ltb_lt; vm_compute; reflexivity
    |apply Z.leb_le; vm_compute; reflexivity|split; [apply Z.leb_le|apply Z.ltb_lt]; vm_compute; reflexivity].
Defined.

Lemma chain_file_head_monotone_witness :
  rtc io_step demoWorld (L2ConfirmBlock demoEnv (demoFaults WriteOk) id 7 demoWorld).1 /\
  fileHead (w_chain (L2ConfirmBlock demoEnv (demoFaults WriteOk) id 7 demoWorld).1) >= -1.
Proof.
  assert (H : rtc io_step demoWorld (L2ConfirmBlock demoEnv (demoFaults WriteOk) id 7 demoWorld).1).
  { eapply rtc_l; [apply io_l2; done|constructor]. }
  split; [exact H|]. destruct (chain_file_head_monotone _ _ H) as [_ Hm]; [apply Z.leb_le; vm_compute; reflexivity|].
  change (fileHead (w_chain demoWorld)) with (-1) in Hm. lia.
Defined.


Lemma reads_never_lead_rocks_witness :
  let rocks := Some (mkRocks (Ok 1) (fun h => if h =? 1 then Ok (Some (mkStored 1 "" 5 [] "" "" "h0" "p")) else Ok None)
                       (fun _ => Ok None)) in
  let bc := set_blockHistory [demoBlock 0 "h0" []; demoBlock 1 "h1" []] NewBlockchain in
  HeadBlockNumber None rocks bc = 0 /\ GetBlockByNumber None rocks 1 bc = None.
Proof.
  cbv zeta.
  destruct (reads_never_lead_rocks None
    (Some (mkRocks (Ok 1) (fun h => if h =? 1 then Ok (Some (mkStored 1 "" 5 [] "" "" "h0" "p")) else Ok None) (fun _ => Ok None)))
    (set_blockHistory [demoBlock 0 "h0" []; demoBlock 1 "h1" []] NewBlockchain) 0) as (H1 & _ & H2 & _).
  - reflexivity.
  - apply Z.ltb_lt. reflexivity.
  - intros r h b [= <-]. unfold storedAt. cbn. destruct (h =? 1) eqn:E; [|done]. intros [= <-]. bools. by subst.
  - split; [exact H1|]. apply H2. lia.
Defined.
