(* ===== verification/Mempool.v ===== *)
(** * Mempool upkeep (internal/blockchain/mempool_prune.go, txpool_restore.go)

    Pruning of the mempool, requeueing of escrow rows that never reached a
    block, and the restore of the durable pool at start-up. Account nonces and
    the RocksDB head are read before the lock is taken; they are arguments. *)

From S2P Require Import Prelude GoStd Dag Tx ForkChoice Chain Confirm History TxPool.

#[local] Open Scope Z_scope.

Definition MempoolMaxNonceGap : Z := 64.
Definition mempoolFutureMaxAgeSec : Z := 6 * 3600.

(** Hashes listed in a history. *)
Definition historyHashes (hist : list BlockRecord) : gset string :=
  list_to_set (filter (fun h => h <> "") (hist ≫= b_TxHashes)).

Definition poolHashes (txs : list Transaction) : gset string :=
  list_to_set (filter (fun h => h <> "") (hashes txs)).

(** ** PruneMempool *)

Definition isFaucetTx (tx : Transaction) : bool :=
  String.eqb (tx_From tx) FaucetAddress || String.eqb (tx_Type tx) "faucet".

Definition tracked (tx : Transaction) : bool :=
  nonEmpty (tx_From tx) && negb (String.eqb (tx_From tx) FaucetAddress).

(** The first loop: kept rows, [seenNonce] (position of a sender's nonce in
    them) and the number of removed rows. *)
Record pruneState := mkPrune {
  pr_kept : list Transaction; pr_seen : gmap (string * Z) nat; pr_removed : Z
}.

Definition pruneOne (confirmed pending : gset string) (accountNonce : gmap string Z)
  (st : pruneState) (tx : Transaction) : pruneState :=
  let drop := mkPrune (pr_kept st) (pr_seen st) (pr_removed st + 1) in
  if String.eqb (tx_Hash tx) "" then drop
  else if isFaucetTx tx then drop
  else if bool_decide (tx_Hash tx ∈ confirmed) || bool_decide (tx_Hash tx ∈ pending) then drop
  else if tracked tx then
    let stale := match accountNonce !! tx_From tx with Some want => tx_Nonce tx <? i64 want | None => false end in
    if stale then drop
    else match pr_seen st !! (tx_From tx, tx_Nonce tx) with
    | Some i =>
        match pr_kept st !! i with
        | Some prev =>
            if (0 <? tx_Timestamp tx) && (0 <? tx_Timestamp prev) && (tx_Timestamp tx <? tx_Timestamp prev)
            then mkPrune (<[i := tx]> (pr_kept st)) (pr_seen st) (pr_removed st + 1)
            else drop
        | None => drop
        end
    | None =>
        mkPrune (pr_kept st ++ [tx]) (<[(tx_From tx, tx_Nonce tx) := length (pr_kept st)]> (pr_seen st)) (pr_removed st)
    end
  else mkPrune (pr_kept st ++ [tx]) (pr_seen st) (pr_removed st).

(** The second loop: a row that can never be packed. A sender whose nonce could
    not be read counts from 0. *)
Definition unpackable (accountNonce : gmap string Z) (now : Z) (tx : Transaction) : bool :=
  tracked tx &&
  (let want := i64 (default 0 (accountNonce !! tx_From tx)) in
   (tx_Nonce tx <? want) || (i64 (want + MempoolMaxNonceGap) <? tx_Nonce tx)
   || (negb (tx_Nonce tx =? want) && (0 <? tx_Timestamp tx)
       && (mempoolFutureMaxAgeSec <? i64 (now - tx_Timestamp tx)))).

Definition dropUnpackable (accountNonce : gmap string Z) (now : Z) (kept : list Transaction) : list Transaction :=
  if bool_decide (accountNonce = ∅) then kept
  else
  let dropHash : gset string := list_to_set (hashes (filter (fun tx => unpackable accountNonce now tx = true) kept)) in
  filter (keepHash dropHash) kept.

(** Removed count, chain and durable pool. [rocksConfirmed] are the hashes of
    the RocksDB history, [accountNonce] what the ledger answered. *)
Definition PruneMempool (rocksConfirmed : gset string) (accountNonce : gmap string Z) (now : Z)
  (pool : option Store) (bc : Blockchain) : Z * Blockchain * option Store :=
  let confirmed := historyHashes (blockHistory bc) ∪ rocksConfirmed in
  let st := foldl (pruneOne confirmed (poolHashes (pendingBlock bc)) accountNonce) (mkPrune [] ∅ 0) (mempool bc) in
  let kept := dropUnpackable accountNonce now (pr_kept st) in
  let removed := pr_removed st + Z.of_nat (length (pr_kept st)) - Z.of_nat (length kept) in
  let pool := match pool with
              | None => None
              | Some s => Some (foldl (fun s h => (Delete true h s).1) s
                  (filter (fun h => h ∉ poolHashes kept) (filter (fun h => h <> "") (hashes (mempool bc)))))
              end in
  (removed, if 0 <? removed then set_mempool kept bc else bc, pool).

(** [accountNoncesForMempool]: [query] is the ledger's answer, if any. *)
Definition accountNoncesForMempool (query : option (string -> option Z)) (bc : Blockchain) : gmap string Z :=
  match query with
  | None => ∅
  | Some q => foldl (fun m tx => if tracked tx then
                       match q (tx_From tx) with Some n => <[tx_From tx := n]> m | None => m end
                     else m) ∅ (mempool bc)
  end.

(** ** RequeueUnconfirmedEscrows *)

Definition candLess (a b : Transaction) : bool :=
  if negb (String.eqb (tx_From a) (tx_From b)) then str_ltb (tx_From a) (tx_From b)
  else tx_Nonce a <? tx_Nonce b.

Section Requeue.
Context {R : GoRange}.

Definition requeueCands (now : Z) (bc : Blockchain) : list Transaction :=
  filter (fun tx =>
    (escrowAwaitingBlock tx (BlockNumber bc tx)
     && negb (bool_decide (tx_Hash tx ∈ poolHashes (mempool bc) ∪ poolHashes (pendingBlock bc)))
     && negb (bool_decide (tx_Hash tx ∈ confirmedHashes bc))
     && negb ((0 <? tx_Timestamp tx) && (mempoolFutureMaxAgeSec <? i64 (now - tx_Timestamp tx)))) = true)
    (range (transactions bc)).*2.

(** [query]: the ledger's nonce for an address, [None] when there is no ledger
    or the query fails. The lock is not released in between here; the second
    in-flight scan sees what the first saw. *)
Definition requeueOne (query : string -> option Z) (acc : Z * Blockchain) (tx : Transaction) : Z * Blockchain :=
  let '(added, bc) := acc in
  if bool_decide (tx_Hash tx ∈ poolHashes (mempool bc) ∪ poolHashes (pendingBlock bc))
     || bool_decide (tx_Hash tx ∈ confirmedHashes bc) || (0 <? BlockNumber bc tx) then acc
  else if nonEmpty (tx_From tx)
          && match query (tx_From tx) with Some want => u64 (tx_Nonce tx) <? want | None => false end then acc
  else (added + 1, set_mempool (mempool bc ++ [tx]) bc).

Definition RequeueUnconfirmedEscrows (query : string -> option Z) (now : Z) (bc : Blockchain) : Z * Blockchain :=
  foldl (requeueOne query) (0, bc) (SliceStable candLess (requeueCands now bc)).

(** ** RestoreDurableTxs *)

Definition withTxHash (h : string) (tx : Transaction) : Transaction :=
  mkTx (tx_ref tx) h (tx_From tx) (tx_To tx) (tx_Value tx) (tx_Fee tx) (tx_Nonce tx) (tx_Timestamp tx)
    (tx_Type tx) (tx_AssetType tx) (tx_ContractAddress tx) (tx_SigMain tx) (tx_SigDerived tx)
    (tx_PubMain tx) (tx_PubDerived tx) (tx_Asset tx) (tx_AmountUplp tx) (tx_FeeUplp tx) (tx_Reads tx)
    (tx_Writes tx) (tx_RequestIDHash tx) (tx_EscrowID tx) (tx_Purpose tx) (tx_ExpiresAt tx)
    (tx_SettleOutcome tx) (tx_SettleOutcomeKey tx) (tx_SettlePayee tx) (tx_SettleNode tx).

(** The decoded pool; [decode] is [json.Unmarshal] into a fresh object. *)
Definition pooledTxs (decode : string -> option Transaction) (raws : gmap string string) : gmap string Transaction :=
  foldl (fun m kv =>
    match decode kv.2 with
    | None => m
    | Some tx => let tx := if String.eqb (tx_Hash tx) "" then withTxHash kv.1 tx else tx in <[tx_Hash tx := tx]> m
    end) ∅ (range raws).

(** History rows at or below the Rocks head. *)
Definition keptRows (rocksHead : option Z) (hist : list BlockRecord) : list BlockRecord :=
  match rocksHead with
  | None => hist
  | Some h => filter (fun b => ~ h < b_BlockNumber b) hist
  end.

Definition headTimestamp (hist : list BlockRecord) : Z :=
  foldl (fun m b => if m <? b_Timestamp b then b_Timestamp b else m) 0 hist.

(** Dropping an uncommitted tip lowers the durable head: the one place that does. *)
Definition dropLead (rocksHead : option Z) (bc : Blockchain) : Blockchain * bool :=
  let kept := keptRows rocksHead (blockHistory bc) in
  if bool_decide (length kept = length (blockHistory bc)) then (bc, false)
  else
  let head := historyHead kept in
  let bc := set_durableHead head (set_blockHistory kept bc) in
  (match rocksHead with
   | Some h => set_blockCounter (i64 (h + 1)) bc
   | None => if 0 <=? head then set_blockCounter (i64 (head + 1)) bc else bc
   end, true).

Record restoreState := mkRestore { rs_bc : Blockchain; rs_restored : list Transaction; rs_forget : list string }.

Definition restoreOne (canonical : gset string) (headTs : Z) (st : restoreState) (kv : string * Transaction)
  : restoreState :=
  let '(hash, tx) := kv in
  let bc := rs_bc st in
  if String.eqb hash "" then st
  else if bool_decide (hash ∈ canonical) then mkRestore bc (rs_restored st) (rs_forget st ++ [hash])
  else if String.eqb (tx_From tx) FaucetAddress || String.eqb (tx_Type tx) "faucet" || String.eqb (tx_SigMain tx) ""
  then st
  else
  let stamp := match transactions bc !! hash with
               | Some cur => if tx_Timestamp tx <? tx_Timestamp cur then tx_Timestamp cur else tx_Timestamp tx
               | None => tx_Timestamp tx
               end in
  if (0 <? headTs) && (0 <? stamp) && (stamp <=? headTs)
  then mkRestore bc (rs_restored st) (rs_forget st ++ [hash])
  else
  let '(current, bc) :=
    match transactions bc !! hash with
    | Some cur => (cur, bc)
    | None =>
        let bc := set_transactions (<[hash := tx]> (transactions bc)) bc in
        let bc := if nonEmpty (tx_From tx) then appendAddr (tx_From tx) tx bc else bc in
        let bc := if nonEmpty (tx_To tx) && negb (String.eqb (tx_To tx) (tx_From tx)) then appendAddr (tx_To tx) tx bc else bc in
        (tx, bc)
    end in
  let bc := setBlockNumber current 0 bc in
  let bc := set_confirmedHashes (confirmedHashes bc ∖ {[hash]}) bc in
  let bc := if bool_decide (hash ∈ poolHashes (mempool bc) ∪ poolHashes (pendingBlock bc)) then bc
            else set_mempool (mempool bc ++ [current]) bc in
  mkRestore bc (rs_restored st ++ [current]) (rs_forget st).

(** The part under the lock: restored rows, hashes to forget, whether an
    uncommitted tip was dropped, and the chain. The in-flight set of the source
    is the pools' hashes: it is filled from them and grows with the mempool. *)
Definition RestoreDurableTxs (rocksHead : option Z) (pooled : gmap string Transaction) (bc : Blockchain)
  : restoreState * bool :=
  let canonical := historyHashes (keptRows rocksHead (blockHistory bc)) in
  let headTs := headTimestamp (keptRows rocksHead (blockHistory bc)) in
  let '(bc, dropped) := dropLead rocksHead bc in
  let extra := filter (fun kv => kv.1 <> "" /\ kv.1 ∉ canonical) (transactions bc) in
  let seen := pooled ∪ extra in
  (foldl (restoreOne canonical headTs) (mkRestore bc [] []) (range seen), dropped).
End Requeue.
