(* ===== verification/MempoolSpec.v ===== *)
(** * Contracts of the mempool upkeep

    Proofs about file Mempool: pruning keeps the pool invariant, drops exactly
    what can never be packed and never drops a packable row; the restore at
    start-up leaves no history above the Rocks head and never requeues a
    committed hash. *)

From S2P Require Import Prelude GoStd Dag Tx ForkChoice Chain Pool Confirm ConfirmSpec History HistorySpec TxPool Mempool.

#[local] Open Scope Z_scope.

(** ** PruneMempool *)

Lemma sublist_same_length {A} (l k : list A) : l `sublist_of` k -> (length k <= length l)%nat -> l = k.
Proof.
  induction 1 as [|x l k H IH|x l k H IH]; intros Hl; simpl in *; [done|f_equal; apply IH; lia|].
  apply sublist_length in H. lia.
Qed.

(** What the first loop keeps when no (sender, nonce) pair repeats. *)
Definition keepRow (confirmed pending : gset string) (accountNonce : gmap string Z) (tx : Transaction) : bool :=
  nonEmpty (tx_Hash tx) && negb (isFaucetTx tx)
  && negb (bool_decide (tx_Hash tx ∈ confirmed) || bool_decide (tx_Hash tx ∈ pending))
  && negb (tracked tx && match accountNonce !! tx_From tx with Some want => tx_Nonce tx <? i64 want | None => false end).

Lemma pruneOne_keep confirmed pending nonces st tx :
  pr_seen st !! senderNonce tx = None ->
  let st' := pruneOne confirmed pending nonces st tx in
  let k := keepRow confirmed pending nonces tx in
  pr_kept st' = (if k then pr_kept st ++ [tx] else pr_kept st) /\
  pr_removed st' = (if k then pr_removed st else pr_removed st + 1) /\
  (forall key, pr_seen st' !! key <> None -> pr_seen st !! key <> None \/ key = senderNonce tx).
Proof.
  unfold senderNonce. intros Hs. cbv zeta. unfold pruneOne, keepRow, nonEmpty.
  destruct (String.eqb (tx_Hash tx) ""); simpl; [auto|].
  destruct (isFaucetTx tx); simpl; [auto|].
  destruct (bool_decide _ || bool_decide _); simpl; [auto|].
  destruct (tracked tx); simpl; [|auto].
  destruct (match nonces !! tx_From tx with Some want => _ | None => _ end); simpl; [auto|].
  rewrite Hs. simpl. split; [done|]. split; [done|]. intros key Hk.
  destruct (decide ((tx_From tx, tx_Nonce tx) = key)) as [<-|Hne]; [by right|].
  rewrite lookup_insert_ne in Hk by done. by left.
Qed.

Lemma prune_foldl confirmed pending nonces l : forall pre st,
  NoDup (senderNonce <$> pre ++ l) ->
  (forall key, pr_seen st !! key <> None -> key ∈ senderNonce <$> pre) ->
  let st' := foldl (pruneOne confirmed pending nonces) st l in
  let out := filter (fun tx => keepRow confirmed pending nonces tx = true) l in
  pr_kept st' = pr_kept st ++ out /\
  pr_removed st' = pr_removed st + Z.of_nat (length l) - Z.of_nat (length out).
Proof.
  induction l as [|tx l IH]; intros pre st Hnd Hseen; cbv zeta.
  { simpl. rewrite app_nil_r. split; [done|lia]. }
  assert (Hs : pr_seen st !! senderNonce tx = None).
  { destruct (pr_seen st !! senderNonce tx) eqn:E; [|done]. exfalso.
    assert (Hin : senderNonce tx ∈ senderNonce <$> pre) by (apply Hseen; congruence).
    rewrite fmap_app in Hnd. apply NoDup_app in Hnd as (_ & Hdis & _). apply (Hdis _ Hin). by left. }
  destruct (pruneOne_keep confirmed pending nonces st tx Hs) as (Hk & Hr & Hse). cbn [foldl].
  destruct (IH (pre ++ [tx]) (pruneOne confirmed pending nonces st tx)) as [IH1 IH2].
  { by rewrite <- app_assoc. }
  { intros key Hkey. rewrite fmap_app, elem_of_app. destruct (Hse key Hkey) as [?| ->]; [left; by apply Hseen|right].
    by left. }
  rewrite IH1, IH2, Hk, Hr. rewrite filter_cons.
  destruct (keepRow confirmed pending nonces tx) eqn:E.
  - rewrite decide_True by done. rewrite <- app_assoc. split; [done|]. cbn [length]. lia.
  - rewrite decide_False by done. split; [done|]. cbn [length]. lia.
Qed.

Lemma dropUnpackable_spec nonces now kept :
  dropUnpackable nonces now kept `sublist_of` kept /\
  (nonces <> ∅ -> Forall (fun tx => unpackable nonces now tx = false) (dropUnpackable nonces now kept)) /\
  (NoDup (hashes kept) -> forall tx, tx ∈ kept -> unpackable nonces now tx = false -> tx ∈ dropUnpackable nonces now kept).
Proof.
  unfold dropUnpackable. case_bool_decide as Hn; [done|].
  split; [apply sublist_filter|]. split.
  - intros _. apply Forall_forall. intros tx [Hk Hin]%list_elem_of_filter.
    apply not_true_iff_false. intros Hu. apply Hk, elem_of_list_to_set, list_elem_of_fmap. exists tx.
    split; [done|]. by apply list_elem_of_filter.
  - intros Hnd tx Hin Hu. apply list_elem_of_filter. split; [|done].
    intros (t & He & [Ht Hint]%list_elem_of_filter)%elem_of_list_to_set%list_elem_of_fmap.
    assert (tx = t) as -> by (eapply (NoDup_fmap_inj_on tx_Hash kept); done). congruence.
Qed.

Lemma keepRow_true confirmed pending nonces tx :
  keepRow confirmed pending nonces tx = true <->
  tx_Hash tx <> "" /\ isFaucetTx tx = false /\ tx_Hash tx ∉ confirmed /\ tx_Hash tx ∉ pending /\
  (tracked tx = true -> forall want, nonces !! tx_From tx = Some want -> i64 want <= tx_Nonce tx).
Proof.
  unfold keepRow, nonEmpty.
  rewrite !andb_true_iff, !negb_true_iff, orb_false_iff, !bool_decide_eq_false, String.eqb_neq, andb_false_iff.
  destruct (tracked tx), (nonces !! tx_From tx) as [want|]; rewrite ?Z.ltb_ge; naive_solver.
Qed.

(** The mempool after pruning: the rows that pass the row test, less those Core
    could not pack; nothing else of the pools moves. *)
Lemma PruneMempool_shape rocksConfirmed nonces now pool bc :
  pools_wf bc ->
  let kept := filter (fun tx => keepRow (historyHashes (blockHistory bc) ∪ rocksConfirmed)
                        (poolHashes (pendingBlock bc)) nonces tx = true) (mempool bc) in
  exists removed bc' pool', PruneMempool rocksConfirmed nonces now pool bc = (removed, bc', pool') /\
    mempool bc' = dropUnpackable nonces now kept /\ mempool bc' `sublist_of` mempool bc /\
    pendingBlock bc' = pendingBlock bc /\ confirmedHashes bc' = confirmedHashes bc /\
    removed = Z.of_nat (length (mempool bc)) - Z.of_nat (length (mempool bc')).
Proof.
  intros Hwf. unfold PruneMempool. set (confirmed := historyHashes _ ∪ rocksConfirmed).
  set (st := foldl _ _ (mempool bc)). set (kept := dropUnpackable nonces now (pr_kept st)).
  destruct (prune_foldl confirmed (poolHashes (pendingBlock bc)) nonces (mempool bc) [] (mkPrune [] ∅ 0)) as [Hk Hr].
  { destruct Hwf as [_ Hn _ _]. unfold inflight in Hn. rewrite fmap_app in Hn. by apply NoDup_app in Hn as [? _]. }
  { intros key Hkey. cbn in Hkey. by rewrite lookup_empty in Hkey. }
  fold st in Hk, Hr. simpl in Hk, Hr.
  destruct (dropUnpackable_spec nonces now (pr_kept st)) as (Hsub & _). fold kept in Hsub.
  assert (Hsub' : kept `sublist_of` mempool bc) by (etransitivity; [exact Hsub|rewrite Hk; apply sublist_filter]).
  assert (Hlen : pr_removed st + Z.of_nat (length (pr_kept st)) - Z.of_nat (length kept) =
                 Z.of_nat (length (mempool bc)) - Z.of_nat (length kept)) by (rewrite Hr, Hk; lia).
  rewrite Hlen. set (bc' := if 0 <? _ then _ else _).
  assert (Hm : mempool bc' = kept).
  { subst bc'. pose proof (sublist_length _ _ Hsub') as Hl. destruct (0 <? _) eqn:E; [done|]. bools. symmetry.
    apply sublist_same_length; [done|lia]. }
  eexists _, bc', _. split; [reflexivity|]. rewrite Hm. unfold kept. rewrite Hk. split; [done|].
  rewrite <- Hk. split; [done|]. subst bc'. by destruct (0 <? _).
Qed.

Lemma PruneMempool_wf rocksConfirmed nonces now pool bc :
  pools_wf bc -> pools_wf (PruneMempool rocksConfirmed nonces now pool bc).1.2.
Proof.
  intros Hwf. destruct (PruneMempool_shape rocksConfirmed nonces now pool bc Hwf)
    as (removed & bc' & pool' & -> & _ & Hsub & Hp & Hc & _). simpl.
  apply (pools_wf_submseteq bc); [done| |done]. unfold inflight. rewrite Hp.
  apply submseteq_app; [by apply sublist_submseteq|done].
Qed.

Lemma mempool_row_fresh bc tx :
  pools_wf bc -> tx ∈ mempool bc -> tx_Hash tx <> "" /\ tx_Hash tx ∉ poolHashes (pendingBlock bc).
Proof.
  intros [Hh _ Hne _] Hin. unfold inflight in *. split.
  - rewrite Forall_forall in Hne. apply Hne. set_solver.
  - unfold poolHashes. intros (_ & Hp)%elem_of_list_to_set%list_elem_of_filter.
    unfold hashes in Hh. rewrite fmap_app in Hh. apply NoDup_app in Hh as (_ & Hdis & _).
    apply (Hdis (tx_Hash tx)); [|exact Hp]. apply list_elem_of_fmap. by exists tx.
Qed.

(** pruning. It keeps the pool invariant and the order, and returns the
    number of rows it took out. No row is left that is a faucet credit, already
    in the history or in RocksDB, or (for a sender whose nonce was read) behind
    the account nonce or more than 64 ahead of it; and a row that Core could
    pack next, neither faucet nor confirmed and with exactly the account nonce,
    is never taken out. *)
Theorem prune_exact rocksConfirmed nonces now pool bc (Hwf : pools_wf bc) :
  let '(removed, bc', _) := PruneMempool rocksConfirmed nonces now pool bc in
  pools_wf bc' /\ mempool bc' `sublist_of` mempool bc /\
  removed = Z.of_nat (length (mempool bc)) - Z.of_nat (length (mempool bc')) /\
  (forall tx, tx ∈ mempool bc' ->
     isFaucetTx tx = false /\ tx_Hash tx ∉ historyHashes (blockHistory bc) ∪ rocksConfirmed /\
     (forall want, tx_From tx <> "" -> nonces !! tx_From tx = Some want ->
        i64 want <= tx_Nonce tx <= i64 (i64 want + MempoolMaxNonceGap))) /\
  (forall tx want, tx ∈ mempool bc -> isFaucetTx tx = false ->
     tx_Hash tx ∉ historyHashes (blockHistory bc) ∪ rocksConfirmed ->
     nonces !! tx_From tx = Some want -> tx_Nonce tx = i64 want -> is_i64 (i64 want + MempoolMaxNonceGap) ->
     tx ∈ mempool bc').
Proof.
  pose proof (PruneMempool_wf rocksConfirmed nonces now pool bc Hwf) as Hwf'.
  destruct (PruneMempool_shape rocksConfirmed nonces now pool bc Hwf)
    as (removed & bc' & pool' & E & Hm & Hsub & _ & _ & Hr). rewrite E in Hwf' |- *. simpl in Hwf'.
  set (kept := filter _ (mempool bc)) in *.
  destruct (dropUnpackable_spec nonces now kept) as (Hs & Hall & Hlive).
  split; [done|]. split; [done|]. split; [done|]. split.
  - intros tx Hin. rewrite Hm in Hin.
    assert (Hin' : tx ∈ kept) by (eapply elem_of_submseteq; [done|by apply sublist_submseteq]).
    apply list_elem_of_filter in Hin' as [(_ & Hf & Hc & _ & Hn)%keepRow_true _].
    split; [done|]. split; [done|]. intros want Hfrom Hw.
    assert (Ht : tracked tx = true).
    { unfold tracked, nonEmpty. unfold isFaucetTx in Hf. apply orb_false_iff in Hf as [-> _].
      by rewrite (proj2 (String.eqb_neq _ _) Hfrom). }
    split; [by apply Hn|].
    assert (Hne : nonces <> ∅) by (intros ->; by rewrite lookup_empty in Hw).
    specialize (Hall Hne). rewrite Forall_forall in Hall. specialize (Hall tx Hin). unfold unpackable in Hall.
    rewrite Ht, Hw in Hall. simpl in Hall. apply orb_false_iff in Hall as [Hall _]. bools. lia.
  - intros tx want Hin Hf Hc Hw Hnonce Hrange. rewrite Hm. apply Hlive.
    + destruct Hwf as [Hh _ _ _]. unfold inflight, hashes in Hh. rewrite fmap_app in Hh.
      apply NoDup_app in Hh as [Hh _]. unfold hashes. eapply sublist_NoDup; [exact Hh|].
      apply fmap_sublist, sublist_filter.
    + apply list_elem_of_filter. split; [|done]. apply keepRow_true.
      destruct (mempool_row_fresh bc tx Hwf Hin). repeat split; try done. intros _ w' Hw'. simplify_eq. lia.
    + unfold unpackable. rewrite Hw, Hnonce. simpl. rewrite Z.ltb_irrefl, Z.eqb_refl. simpl.
      rewrite (i64_small _ Hrange), (proj2 (Z.ltb_ge _ _)) by (unfold MempoolMaxNonceGap; lia).
      by rewrite andb_false_r.
Qed.

(** ** RestoreDurableTxs *)

Definition keyed (m : gmap string Transaction) : Prop := forall h tx, m !! h = Some tx -> tx_Hash tx = h.

Lemma poolHashes_inflight bc h :
  h <> "" -> h ∈ poolHashes (mempool bc) ∪ poolHashes (pendingBlock bc) <-> h ∈ hashes (inflight bc).
Proof.
  intros Hh. unfold poolHashes, inflight, hashes.
  rewrite fmap_app, elem_of_app, elem_of_union, !elem_of_list_to_set, !list_elem_of_filter. tauto.
Qed.

(** The rows the restore puts back: signed, not a faucet credit, not committed,
    and not older than the last kept block. *)
Definition restorable (canonical : gset string) (headTs : Z) (bc : Blockchain) (hash : string) (tx : Transaction) : Prop :=
  hash <> "" /\ hash ∉ canonical /\ tx_From tx <> FaucetAddress /\ tx_Type tx <> "faucet" /\ tx_SigMain tx <> "" /\
  (headTs <= 0 \/ headTs < tx_Timestamp tx).

Lemma restoreOne_spec canonical headTs st hash tx :
  keyed (transactions (rs_bc st)) -> tx_Hash tx = hash ->
  let st' := restoreOne canonical headTs st (hash, tx) in
  keyed (transactions (rs_bc st')) /\ blockHistory (rs_bc st') = blockHistory (rs_bc st) /\
  blockCounter (rs_bc st') = blockCounter (rs_bc st) /\ durableHead (rs_bc st') = durableHead (rs_bc st) /\
  pendingBlock (rs_bc st') = pendingBlock (rs_bc st) /\
  (mempool (rs_bc st') = mempool (rs_bc st) \/
   exists cur, mempool (rs_bc st') = mempool (rs_bc st) ++ [cur] /\ tx_Hash cur = hash /\
     hash ∉ canonical /\ hash ∉ hashes (inflight (rs_bc st))) /\
  (restorable canonical headTs (rs_bc st) hash tx -> hash ∈ hashes (inflight (rs_bc st'))).
Proof.
  intros Hkey Hh. cbv zeta. unfold restoreOne, restorable.
  destruct (String.eqb hash "") eqn:E0; bools; [repeat split; auto; naive_solver|].
  case_bool_decide as Hc; [repeat split; auto; naive_solver|].
  destruct (_ || _ || _) eqn:Ef.
  { repeat split; auto. intros (_ & _ & H1 & H2 & H3 & _).
    apply orb_true_iff in Ef as [Ef|Ef]; [apply orb_true_iff in Ef as [Ef|Ef]|]; bools; done. }
  set (stamp := match transactions (rs_bc st) !! hash with Some cur => _ | None => _ end).
  assert (Hstamp : tx_Timestamp tx <= stamp).
  { subst stamp. destruct (transactions (rs_bc st) !! hash); [|lia]. destruct (_ <? _) eqn:E; bools; lia. }
  destruct ((0 <? headTs) && _ && _) eqn:Es.
  { repeat split; auto. intros (_ & _ & _ & _ & _ & Hts). bools. lia. }
  set (p := match transactions (rs_bc st) !! hash with Some cur => _ | None => _ end).
  assert (Hp : tx_Hash p.1 = hash /\ keyed (transactions p.2) /\ blockHistory p.2 = blockHistory (rs_bc st) /\
    blockCounter p.2 = blockCounter (rs_bc st) /\ durableHead p.2 = durableHead (rs_bc st) /\
    mempool p.2 = mempool (rs_bc st) /\ pendingBlock p.2 = pendingBlock (rs_bc st)).
  { subst p. destruct (transactions (rs_bc st) !! hash) as [cur|] eqn:El; [by split; [apply Hkey|]|].
    split; [done|]. split; [|by destruct (nonEmpty (tx_From tx)), (nonEmpty (tx_To tx) && _)].
    intros h t. destruct (nonEmpty (tx_From tx)), (nonEmpty (tx_To tx) && _); cbn;
      (destruct (decide (hash = h)) as [<-|Hne];
        [rewrite lookup_insert_eq; intros; by simplify_eq|rewrite lookup_insert_ne by done; apply Hkey]). }
  destruct p as [current bc]. destruct Hp as (Hcur & Hk & Hbh & Hbc & Hdh & Hm & Hpe). cbn [fst snd] in *.
  set (bcx := set_confirmedHashes _ (setBlockNumber current 0 bc)).
  assert (Hfl : inflight bcx = inflight (rs_bc st)) by (unfold inflight; cbn; by rewrite Hm, Hpe).
  case_bool_decide as Hin.
  - apply poolHashes_inflight in Hin; [|done]. rewrite Hfl in Hin. cbn [rs_bc]. rewrite Hfl. repeat split; try done; auto.
  - assert (Hin' : hash ∉ hashes (inflight (rs_bc st))) by (rewrite <- Hfl; intros ?; by apply Hin, poolHashes_inflight).
    cbn. repeat split; try done.
    + right. exists current. rewrite Hm. done.
    + intros _. unfold inflight, hashes. cbn. rewrite !fmap_app, !elem_of_app, <- Hcur. left. right. by left.
Qed.

Lemma restore_foldl canonical headTs l : forall st,
  keyed (transactions (rs_bc st)) -> Forall (fun kv => tx_Hash kv.2 = kv.1) l -> NoDup (hashes (inflight (rs_bc st))) ->
  let st' := foldl (restoreOne canonical headTs) st l in
  blockHistory (rs_bc st') = blockHistory (rs_bc st) /\ blockCounter (rs_bc st') = blockCounter (rs_bc st) /\
  durableHead (rs_bc st') = durableHead (rs_bc st) /\
  NoDup (hashes (inflight (rs_bc st'))) /\ hashes (inflight (rs_bc st)) ⊆ hashes (inflight (rs_bc st')) /\
  (forall h, h ∈ hashes (inflight (rs_bc st')) -> h ∈ hashes (inflight (rs_bc st)) \/ h ∉ canonical) /\
  (forall kv, kv ∈ l -> restorable canonical headTs (rs_bc st) kv.1 kv.2 -> kv.1 ∈ hashes (inflight (rs_bc st'))).
Proof.
  induction l as [|[hash tx] l IH]; intros st Hkey Hl Hnd; cbv zeta.
  { cbn. repeat split; auto. intros kv Hkv. by apply elem_of_nil in Hkv. }
  apply Forall_cons in Hl as [Hh Hl]. cbn [foldl fst snd] in *.
  destruct (restoreOne_spec canonical headTs st hash tx Hkey Hh) as (Hk1 & Hb1 & Hc1 & Hd1 & Hp1 & Hm1 & Hr1).
  set (st1 := restoreOne canonical headTs st (hash, tx)) in *.
  assert (Hfl : hashes (inflight (rs_bc st1)) = hashes (inflight (rs_bc st)) \/
    (hashes (inflight (rs_bc st1)) ≡ₚ hash :: hashes (inflight (rs_bc st)) /\ hash ∉ canonical /\
     hash ∉ hashes (inflight (rs_bc st)))).
  { unfold inflight, hashes in *. rewrite Hp1. destruct Hm1 as [-> |(cur & -> & <- & ? & ?)]; [by left|right].
    split; [|done]. rewrite !fmap_app. cbn. rewrite <- app_assoc. cbn. by rewrite <- Permutation_middle. }
  assert (Hnd1 : NoDup (hashes (inflight (rs_bc st1)))).
  { destruct Hfl as [-> |(-> & _ & ?)]; [done|]. by constructor. }
  destruct (IH st1 Hk1 Hl Hnd1) as (I1 & I2 & I3 & I4 & I5 & I6 & I7).
  rewrite I1, I2, I3, Hb1, Hc1, Hd1. split; [done|]. split; [done|]. split; [done|]. split; [done|].
  assert (Hsub : hashes (inflight (rs_bc st)) ⊆ hashes (inflight (rs_bc st1))).
  { destruct Hfl as [-> |(Hp & _)]; [done|]. intros x Hx. rewrite Hp. by right. }
  split; [by intros x Hx%Hsub%I5|]. split.
  - intros h Hin. destruct (I6 h Hin) as [Hin1|?]; [|by right]. destruct Hfl as [He|(Hp & Hc & _)].
    + left. by rewrite <- He.
    + rewrite Hp in Hin1. apply elem_of_cons in Hin1 as [-> |?]; [by right|by left].
  - intros kv [->|Hin]%elem_of_cons Hr; [by apply I5, Hr1|]. by apply (I7 kv Hin).
Qed.

Section Restore.
Context {R : GoRange}.

Lemma dropLead_spec rocksHead bc :
  let kept := keptRows rocksHead (blockHistory bc) in
  let '(bc', dropped) := dropLead rocksHead bc in
  blockHistory bc' = kept /\ mempool bc' = mempool bc /\ pendingBlock bc' = pendingBlock bc /\
  transactions bc' = transactions bc /\
  (dropped = true -> durableHead bc' = historyHead kept /\
     forall h, rocksHead = Some h -> blockCounter bc' = i64 (h + 1)).
Proof.
  cbv zeta. unfold dropLead. case_bool_decide as Hl.
  - repeat split; try done. symmetry. apply sublist_same_length; [|lia].
    unfold keptRows. destruct rocksHead; [apply sublist_filter|done].
  - destruct rocksHead as [h|]; [|by destruct (0 <=? _)]. repeat split; try done. intros h' [= <-]. done.
Qed.

(** the restore at start-up, with the RocksDB head known. The history ends
    at or below that head; when an uncommitted tip was dropped, the counter
    continues from the head and the durable head follows the kept rows; no
    transaction of a kept block is put in flight and none is in flight twice;
    and every signed pool row that is not in a kept block and not older than
    them is in flight afterwards. *)
Theorem restore_respects_rocks head pooled bc
  (Hnd : NoDup (hashes (inflight bc))) (Hkp : keyed pooled) (Hkt : keyed (transactions bc)) :
  let canonical := historyHashes (keptRows (Some head) (blockHistory bc)) in
  let '(st, dropped) := RestoreDurableTxs (Some head) pooled bc in
  Forall (fun b => b_BlockNumber b <= head) (blockHistory (rs_bc st)) /\
  (dropped = true -> blockCounter (rs_bc st) = i64 (head + 1) /\
                     durableHead (rs_bc st) = historyHead (blockHistory (rs_bc st))) /\
  NoDup (hashes (inflight (rs_bc st))) /\
  (forall h, h ∈ hashes (inflight (rs_bc st)) -> h ∈ hashes (inflight bc) \/ h ∉ canonical) /\
  (forall h tx, pooled !! h = Some tx ->
     restorable canonical (headTimestamp (keptRows (Some head) (blockHistory bc))) bc h tx ->
     h ∈ hashes (inflight (rs_bc st))).
Proof.
  cbv zeta. unfold RestoreDurableTxs. pose proof (dropLead_spec (Some head) bc) as Hd.
  destruct (dropLead (Some head) bc) as [bc1 dropped]. destruct Hd as (Hh & Hm & Hp & Ht & Hdr).
  set (canonical := historyHashes _). set (ts := headTimestamp _). set (seen := pooled ∪ _).
  assert (Hfl : inflight bc1 = inflight bc) by (unfold inflight; by rewrite Hm, Hp).
  destruct (restore_foldl canonical ts (range seen) (mkRestore bc1 [] [])) as (I1 & I2 & I3 & I4 & _ & I6 & I7).
  { cbn [rs_bc]. by rewrite Ht. }
  { apply Forall_forall. intros [h tx] Hin%elem_of_range. subst seen. cbn.
    apply lookup_union_Some_raw in Hin as [Hin|[_ Hin]]; [by apply Hkp|].
    apply map_lookup_filter_Some in Hin as [Hin _]. rewrite Ht in Hin. by apply Hkt. }
  { cbn [rs_bc]. by rewrite Hfl. }
  cbn [rs_bc] in *. rewrite I1, I2, I3, Hh. rewrite Hfl in I6. split; [|split; [|split; [|split]]].
  - apply Forall_forall. intros b Hb. unfold keptRows in Hb. apply list_elem_of_filter in Hb as [Hb _]. lia.
  - intros Hdt. destruct (Hdr Hdt) as [-> Hc]. split; [by apply Hc|done].
  - done.
  - done.
  - intros h tx Hl Hr. apply (I7 (h, tx)); [|done]. apply elem_of_range. subst seen. by apply lookup_union_Some_l.
Qed.
End Restore.

(** ** Witnesses *)

Lemma prune_exact_witness :
  let '(removed, bc', _) := PruneMempool ∅ {["PxA" := 1; "PxB" := 0]} 10 None demoChain in
  removed = 1 /\ mempool bc' = [txB] /\ pools_wf bc'.
Proof.
  pose proof (prune_exact ∅ {["PxA" := 1; "PxB" := 0]} 10 None demoChain demoChain_wf) as H.
  destruct (PruneMempool ∅ {["PxA" := 1; "PxB" := 0]} 10 None demoChain) as [[removed bc'] pool'] eqn:E.
  destruct H as (Hwf & _ & _). vm_compute in E. injection E as <- <- _.
  split; [reflexivity|]. split; [reflexivity|exact Hwf].
Defined.

#[local] Instance mempoolRange : GoRange := canonical_range.

Lemma restore_respects_rocks_witness :
  let bc := set_blockHistory [mkBlock 0 4 ["hash-c"] 1 0 "" "" "" "" "" 0 0 0 0 0 "" "" ∅ ∅;
                              mkBlock 1 9 ["hash-a"] 1 0 "" "" "" "" "" 0 0 0 0 0 "" "" ∅ ∅] NewBlockchain in
  let r := RestoreDurableTxs (Some 0) {["hash-a" := txA]} bc in
  Forall (fun b => b_BlockNumber b <= 0) (blockHistory (rs_bc r.1)) /\ mempool (rs_bc r.1) = [txA].
Proof.
  cbv zeta. set (bc := set_blockHistory _ NewBlockchain).
  pose proof (restore_respects_rocks 0 {["hash-a" := txA]} bc) as H.
  assert (Hm : mempool (rs_bc (RestoreDurableTxs (Some 0) {["hash-a" := txA]} bc).1) = [txA]) by (vm_compute; reflexivity).
  destruct (RestoreDurableTxs (Some 0) {["hash-a" := txA]} bc) as [st dropped].
  destruct H as (Hh & _).
  - vm_compute. constructor.
  - intros h tx Hl. by apply lookup_singleton_Some in Hl as [<- <-].
  - intros h tx Hl. cbn in Hl. by rewrite lookup_empty in Hl.
  - split; [exact Hh|exact Hm].
Defined.
