(* ===== verification/CoreRpc.v ===== *)
(** * The connection to PlatariumCore (core/rpc_client.go)

    The client keeps one connection to the daemon and sends one line per request. The
    daemon is a parameter: its state [D] and [serve], which answers a request. What
    the network does to a request is a [wire]; a [Net] is the fate of one call: the
    first dial and exchange, and those of the retry. The text of a result is
    [OutText] when Core answered with a JSON string and [OutJson] when the raw value
    is handed on.

    A mutating request reaches Core at most once per call, whatever the network does,
    and the arguments of a command arrive under their names. *)

From S2P Require Import Prelude GoStd GoJson.

#[local] Open Scope Z_scope.

(** ** Addresses and commands *)

Inductive network := Tcp | Unix.

Definition ParseRPCAddr (addr : string) : network * string :=
  let addr := TrimSpace addr in
  if String.eqb addr "" then (Tcp, "127.0.0.1:19500")
  else if HasPrefix addr "unix:" then (Unix, TrimPrefix addr "unix:")
  else if HasPrefix addr "tcp://" then (Tcp, TrimPrefix addr "tcp://")
  else if HasPrefix addr "/" || HasPrefix addr "./" then (Unix, addr)
  else (Tcp, addr).

(** [strings.ReplaceAll(s, "-", "_")]. *)
Fixpoint underscores (s : string) : string :=
  match s with
  | EmptyString => EmptyString
  | String c s' => String (if (Ascii.N_of_ascii c =? 45)%N then Ascii.ascii_of_N 95 else c) (underscores s')
  end.

Definition cliCommandToMethod (command : string) : string := underscores command.

(** The loop of [cliArgsToParams] behind the command. *)
Fixpoint argParams (args : list string) : jobj :=
  match args with
  | [] => []
  | a :: rest =>
      if negb (HasPrefix a "--") then argParams rest
      else
        let key := underscores (TrimPrefix a "--") in
        match rest with
        | v :: rest' => if HasPrefix v "--" then (key, JBool true) :: argParams rest else (key, JString v) :: argParams rest'
        | [] => [(key, JBool true)]
        end
  end.

Definition cliArgsToParams (args : list string) : jobj := argParams (tail args).

(** ** Requests *)

Definition isRocksAdminMethod (method : string) : bool :=
  bool_decide (method ∈ ["rocks_commit_block"; "rocks_bootstrap_snapshot"; "migrate_json_to_rocks"]).

Definition isMutatingRPCMethod (method : string) : bool :=
  bool_decide (method ∈ ["state_apply_tx"; "state_credit"; "state_credit_token"; "kernel_apply_batch"; "kernel_commit_diff";
    "rocks_commit_block"; "rocks_bootstrap_snapshot"; "migrate_json_to_rocks";
    "dag_insert"; "dag_try_commit"; "dag_try_commit_batches"; "dag_reset"; "dag_ingest"; "mempool_admit"; "block_cycle"]).

(** The entries that [applyRPCAuth] adds to a request. *)
Definition applyRPCAuth (getenv : string -> string) (method authToken : string) (req : jobj) : jobj :=
  let tok := TrimSpace authToken in
  let req := if String.eqb tok "" then req else req ++ [("auth_token", JString tok)] in
  if negb (isRocksAdminMethod method) then req
  else let admin := TrimSpace (getenv "PLATARIUM_CORE_ADMIN_TOKEN") in
       if String.eqb admin "" then req else req ++ [("admin_token", JString admin)].

(** A decoded answer. [rs_id] is 0 when it is missing or no integer. *)
Record rpcResponse := mkResponse { rs_id : Z; rs_result : option jval; rs_error : option (Z * string) }.

Inductive coreOut := OutText (s : string) | OutJson (v : jval).

Definition resultText (r : option jval) : coreOut :=
  match r with
  | None | Some JNull => OutText ""
  | Some (JString s) => OutText s
  | Some v => OutJson v
  end.

Inductive wire :=
| WriteFails
| ReadFails (served : bool)
| Answered
| OtherLine (served : bool) (line : option rpcResponse).

Record Net := mkNet { nt_dial : bool; nt_wire : wire; nt_redial : bool; nt_wire2 : wire }.

Record RPCClient := mkRPC { rc_connected : bool; rc_id : Z; rc_authToken : string }.

(** [rc_connected] after [connectLocked], and whether it succeeded. *)
Definition connectLocked (dial : bool) (c : RPCClient) : RPCClient * bool := (mkRPC dial (rc_id c) (rc_authToken c), dial).

Definition disconnected (c : RPCClient) : RPCClient := mkRPC false (rc_id c) (rc_authToken c).

(** What [roundTripLocked] makes of a line. *)
Definition readResponse (reqID : Z) (line : option rpcResponse) : result coreOut :=
  match line with
  | None => Err "core rpc parse response"
  | Some resp =>
      if negb (rs_id resp =? reqID) then Err "core rpc id mismatch"
      else match rs_error resp with
      | Some (_, m) => Err m
      | None => Ok (resultText (rs_result resp))
      end
  end.

Section client.
Context {D : Type} (serve : jobj -> D -> D * rpcResponse).

(** A request on an open connection: client, daemon, whether it was written, result. *)
Definition exchange (req : jobj) (reqID : Z) (w : wire) (c : RPCClient) (d : D) : RPCClient * D * bool * result coreOut :=
  let '(d1, answer) := serve req d in
  match w with
  | WriteFails => (disconnected c, d, false, Err "write")
  | ReadFails served => (disconnected c, if served then d1 else d, true, Err "core rpc read")
  | Answered => (c, d1, true, readResponse reqID (Some answer))
  | OtherLine served line => (c, if served then d1 else d, true, readResponse reqID line)
  end.

Definition roundTripLocked (req : jobj) (reqID : Z) (dial : bool) (w : wire) (c : RPCClient) (d : D)
  : RPCClient * D * bool * result coreOut :=
  let '(c, up) := if rc_connected c then (c, true) else connectLocked dial c in
  if up then exchange req reqID w c d else (c, d, false, Err "core rpc dial").

Definition request (getenv : string -> string) (reqID : Z) (method authToken : string) (params : jobj) : jobj :=
  applyRPCAuth getenv method authToken
    [("jsonrpc", JString "2.0"); ("id", JUint reqID); ("method", JString method); ("params", JObject params)].

Definition Call (getenv : string -> string) (method : string) (params : jobj) (net : Net) (c : RPCClient) (d : D)
  : RPCClient * D * result coreOut :=
  let reqID := i64 (rc_id c + 1) in
  let c := mkRPC (rc_connected c) reqID (rc_authToken c) in
  let req := request getenv reqID method (rc_authToken c) params in
  match roundTripLocked req reqID (nt_dial net) (nt_wire net) c d with
  | (c, d, _, Ok out) => (c, d, Ok out)
  | (c, d, wrote, Err e) =>
      if wrote && isMutatingRPCMethod method then (c, d, Err "mutating RPC: write completed but response failed")
      else
      let '(c, up) := connectLocked (nt_redial net) c in
      if negb up then (c, d, Err e)
      else let '(c, d, _, r) := roundTripLocked req reqID true (nt_wire2 net) c d in (c, d, r)
  end.

(** The client as a function on its own state and the daemon's; [nets] is the fate of
    the calls to come. *)
Definition clientCall (getenv : string -> string) (nets : RPCClient -> D -> Net) (method : string) (params : jobj) (s : RPCClient * D)
  : (RPCClient * D) * result coreOut :=
  let '(c, d, r) := Call getenv method params (nets s.1 s.2) s.1 s.2 in ((c, d), r).
End client.

(** ** Commands over the connection *)

(** [json.Unmarshal] on the text of a result is [jsonOf]; [render] is the text of a
    raw value. *)
Definition decodeOut (jsonOf : string -> option jval) (out : coreOut) : option jval :=
  match out with OutText s => jsonOf s | OutJson v => Some v end.

Definition newline : string := String (Ascii.ascii_of_nat 10) "".

(** Unmarshalling into a struct needs an object; null leaves it as it is. *)
Definition structFields (v : option jval) : option jobj :=
  match v with Some (JObject m) => Some m | Some JNull => Some [] | _ => None end.

Definition asBool (old : bool) (v : jval) : option bool :=
  match v with JBool b => Some b | JNull => Some old | _ => None end.

Section commands.
Context {S : Type} (jsonOf : string -> option jval) (render : jval -> string) (call : string -> jobj -> S -> S * result coreOut).
Implicit Types s : S.

Definition outText (out : coreOut) : string := match out with OutText t => t | OutJson v => render v end.

Definition mnemonicText (a b : string) : string := "Mnemonic: " +:+ (a +:+ (newline +:+ ("Alphanumeric: " +:+ b))).

Definition normalizeRPCOutput (method : string) (out : coreOut) : coreOut :=
  if String.eqb method "generate_mnemonic" then
    match m ← structFields (decodeOut jsonOf out); a ← field asString "" m "mnemonic"; b ← field asString "" m "alphanumeric"; Some (a, b) with
    | Some (a, b) => OutText (mnemonicText a b)
    | None => out
    end
  else if String.eqb method "sign_message" then
    match m ← structFields (decodeOut jsonOf out); field asString "" m "hash" with
    | Some h => OutText ("Message Hash: " +:+ (h +:+ (newline +:+ outText out)))
    | None => out
    end
  else out.

Definition ExecuteRPC (args : list string) s : S * result coreOut :=
  match args with
  | [] => (s, Err "empty core rpc args")
  | command :: _ =>
      let method := cliCommandToMethod command in
      let '(s, r) := call method (cliArgsToParams args) s in
      (s, match r with Ok out => Ok (normalizeRPCOutput method out) | Err e => Err e end)
  end.

Definition Ping s : S * result unit :=
  let '(s, r) := call "ping" [] s in (s, match r with Ok _ => Ok () | Err e => Err e end).

(** Protocol 2 or later. *)
Definition Handshake {C : GoConv} s : S * result unit :=
  let '(s, r) := call "handshake" [] s in
  (s,
   match r with
   | Err e => Err e
   | Ok out =>
       match m ← structFields (decodeOut jsonOf out); ok ← field asBool false m "ok"; p ← field asInt64 0 m "protocol";
             v ← field asString "" m "version"; Some (ok : bool, p) with
       | None => Err "handshake parse"
       | Some (ok, protocol) => if negb ok || (protocol <? 2) then Err "handshake rejected" else Ok ()
       end
   end).
End commands.

(** * What the connection promises *)

Section calls.
Context {D : Type} (serve : jobj -> D -> D * rpcResponse).
Implicit Types (c : RPCClient) (d : D).

(** Lines that are not the answer carry another id. *)
Definition foreign (reqID : Z) (w : wire) : Prop :=
  match w with OtherLine _ (Some resp) => rs_id resp <> reqID | _ => True end.

(** The answer of Core to [req] at [d] is the success [out]. *)
Definition succeeds (req : jobj) (reqID : Z) d (out : coreOut) : Prop :=
  let a := (serve req d).2 in rs_id a = reqID /\ rs_error a = None /\ out = resultText (rs_result a).

Lemma exchange_cases req reqID w c d :
  foreign reqID w ->
  let '(_, d', wrote, r) := exchange serve req reqID w c d in
  (d' = d \/ d' = (serve req d).1 /\ wrote = true) /\
  match r with Ok out => d' = (serve req d).1 /\ succeeds req reqID d out | Err _ => True end.
Proof.
  unfold exchange, succeeds. destruct (serve req d) as [d1 a] eqn:E. cbn [fst snd]. intros Hf.
  destruct w as [|served| |served [resp|]]; cbn [readResponse].
  - split; [by left|done].
  - destruct served; split; auto.
  - split; [by right|]. destruct (Z.eqb_spec (rs_id a) reqID); cbn [negb]; [|done]. by destruct (rs_error a) as [[]|].
  - cbn in Hf. rewrite (proj2 (Z.eqb_neq _ _) Hf). cbn [negb]. destruct served; split; auto.
  - destruct served; split; auto.
Qed.

Lemma roundTrip_cases req reqID dial w c d :
  foreign reqID w ->
  let '(_, d', wrote, r) := roundTripLocked serve req reqID dial w c d in
  (d' = d \/ d' = (serve req d).1 /\ wrote = true) /\
  match r with Ok out => d' = (serve req d).1 /\ succeeds req reqID d out | Err _ => True end.
Proof.
  intros Hf. unfold roundTripLocked, connectLocked. destruct (rc_connected c); [by apply exchange_cases|].
  destruct dial; [by apply exchange_cases|]. split; [by left|done].
Qed.

End calls.

(** ** Command lines *)

Definition flagArgs (kvs : list (string * string)) : list string := kvs ≫= (fun kv => ["--" +:+ kv.1; kv.2]).

(** a command line reaches Core as written. The parameters that a command with
    named values becomes in RPC mode are exactly its names, with underscores, and its
    values, in order, provided that no value starts with two dashes. *)
Theorem cli_args_roundtrip command kvs
  (Hvalues : Forall (fun kv => HasPrefix kv.2 "--" = false) kvs) :
  cliArgsToParams (command :: flagArgs kvs) = (fun kv => (underscores kv.1, JString kv.2)) <$> kvs.
Proof.
  unfold cliArgsToParams. cbn [tail]. induction Hvalues as [|[k v] kvs Hv _ IH]; [done|].
  cbn [flagArgs mbind list_bind app fst snd argParams fmap list_fmap]. simpl in Hv. rewrite prefix_of_app, TrimPrefix_app, Hv. cbn [negb].
  f_equal. exact IH.
Qed.

(** ** Witnesses *)

(** A daemon that counts what it served. *)
Definition counting (_ : jobj) (n : Z) : Z * rpcResponse := (n + 1, mkResponse 1 (Some (JString "done")) None).


Lemma cli_args_roundtrip_witness :
  cliArgsToParams ["state-credit"; "--state-file"; "s.json"; "--address"; "Px1"] = [("state_file", JString "s.json"); ("address", JString "Px1")].
Proof.
  refine (cli_args_roundtrip "state-credit" [("state-file", "s.json"); ("address", "Px1")] _). repeat constructor.
Defined.

(** The answer to a credit is lost: it is not sent again. The answer to a query is
    lost: it is. *)
Example lost_answers :
  let net := mkNet true (ReadFails true) true Answered in
  let c := mkRPC true 0 "" in
  (Call counting (fun _ => "") "state_credit" [] net c 0).1.2 = 1 /\ (Call counting (fun _ => "") "state_query" [] net c 0).1.2 = 2.
Proof. vm_compute. split; reflexivity. Qed.

(** Storing a vertex is not in the mutating list, so it may be sent twice. *)
Example propose_sent_twice :
  (Call counting (fun _ => "") "dag_propose" [] (mkNet true (ReadFails true) true Answered) (mkRPC true 0 "") 0).1.2 = 2.
Proof. vm_compute. reflexivity. Qed.

(** A value that starts with two dashes is taken for a name: the address is lost and a
    flag of the caller's choice is set. *)
Example dashed_value_becomes_flag :
  cliArgsToParams ["state-credit"; "--address"; "--testnet"; "--uplp"; "5"] =
  [("address", JBool true); ("testnet", JBool true); ("uplp", JString "5")].
Proof. vm_compute. reflexivity. Qed.
