(* ===== verification/CoreCalls.v ===== *)
(** * The commands of PlatariumCore (core/rust_core.go, block_proposal.go, consensus.go,
      ledger.go, kernel.go, block_cycle.go, rocks_store.go, arg_spill.go)

    A [Core] is either an RPC client or the command-line program. In the second mode
    large JSON arguments are written to temporary files first. [S] is the state behind
    it: the client, the daemon or the files of Core. The program's text and the JSON
    values it stands for are related by [jsonOf] (decoding) and [render] (encoding). *)

From S2P Require Import Prelude GoStd GoJson GoPath CoreRpc.

#[local] Open Scope Z_scope.

(** ** arg_spill.go *)

Definition cliJSONSpillBytes : Z := 12 * 1024.

Definition spillJSONFlags : list string :=
  ["--mempool-txs"; "--txs"; "--tx"; "--votes"; "--candidates"; "--message"; "--tx-hashes"; "--reads"; "--writes"].

(** [tempDir] is [os.TempDir]. *)
Definition spillDir (getenv : string -> string) (tempDir : string) : string :=
  let d := TrimSpace (getenv "PLATARIUM_CLI_SPILL_DIR") in
  if String.eqb d "" then PathJoin [tempDir; "platarium-cli-spill"] else d.

Definition isUnderSpillDir (cwd dir path : string) : bool :=
  let abs := Abs cwd path in
  let root := Abs cwd dir in
  String.eqb abs root || HasPrefix abs (root +:+ "/").

(** What creating, writing and closing a temporary file comes to. *)
Inductive tempFile := TempOk (path : string) | TempFails (e : string).

(** The rewritten arguments and the files written, or an error, after which the files
    are gone. [temps] are the files to be created, in turn. *)
Fixpoint spillArgs (under : string -> bool) (temps : nat -> tempFile) (k : nat) (args : list string)
  : result (list string * list (string * string)) :=
  match args with
  | [] => Ok ([], [])
  | flag :: rest =>
      let keep (vs : list string) (fs : list (string * string)) (r : result (list string * list (string * string))) :=
        match r with Ok (out, files) => Ok (flag :: vs ++ out, fs ++ files) | Err e => Err e end in
      if negb (bool_decide (flag ∈ spillJSONFlags)) then keep [] [] (spillArgs under temps k rest)
      else match rest with
      | [] => Ok ([flag], [])
      | val :: rest' =>
          if HasPrefix val "@" then
            if under (TrimPrefix val "@") then keep [val] [] (spillArgs under temps k rest') else Err "cli @path not under spill dir"
          else if len val <=? cliJSONSpillBytes then keep [val] [] (spillArgs under temps k rest')
          else match temps k with
          | TempFails e => Err e
          | TempOk path => keep ["@" +:+ path] [(path, val)] (spillArgs under temps (S k) rest')
          end
      end
  end.

Section core.
Context {S : Type} {C : GoConv} (jsonOf : string -> option jval) (render : jval -> string).

(** [run] is the program with its arguments and the temporary files it finds. *)
Inductive Core :=
| RpcMode (call : string -> jobj -> S -> S * result coreOut)
| CliMode (under : string -> bool) (temps : nat -> tempFile) (run : list string -> list (string * string) -> S -> S * result string).

Implicit Types (c : Core) (s : S).

Definition Mode c : string := match c with RpcMode _ => "rpc" | CliMode _ _ _ => "cli" end.

Definition Execute c (args : list string) s : S * result coreOut :=
  match c with
  | RpcMode call => ExecuteRPC jsonOf render call args s
  | CliMode under temps run =>
      match spillArgs under temps 0 args with
      | Err e => (s, Err e)
      | Ok (args, files) =>
          let '(s, r) := run args files s in
          (s, match r with Ok out => Ok (OutText (TrimSpace out)) | Err e => Err e end)
      end
  end.

(** The text of a command, unmarshalled into a struct. *)
Definition parsed {A} (parse : jobj -> option A) (r : result coreOut) : result A :=
  match r with
  | Err e => Err e
  | Ok out => match m ← structFields (decodeOut jsonOf out); parse m with Some a => Ok a | None => Err "parse" end
  end.

Definition executeParsed {A} c (args : list string) (parse : jobj -> option A) s : S * result A :=
  let '(s, r) := Execute c args s in (s, parsed parse r).

(** A call that exists in RPC mode only. *)
Definition callParsed {A} c (method : string) (params : jobj) (parse : jobj -> option A) s : S * result A :=
  match c with
  | CliMode _ _ _ => (s, Err (method +:+ " requires PLATARIUM_CORE_MODE=rpc"))
  | RpcMode call => let '(s, r) := call method params s in (s, parsed parse r)
  end.

Definition asText {S'} (sr : S' * result coreOut) : S' * result string :=
  let '(s, r) := sr in (s, match r with Ok out => Ok (outText render out) | Err e => Err e end).

(** ** rust_core.go: the state file *)

Definition StateInit c (stateFile : string) s : S * result string := asText (Execute c ["state-init"; "--state-file"; stateFile] s).

Definition StateQuery c (stateFile address asset : string) s : S * result coreOut :=
  let asset := if String.eqb asset "" then "PLP" else asset in
  Execute c ["state-query"; "--state-file"; stateFile; "--address"; address; "--asset"; asset] s.

Definition parseValid (m : jobj) : option (bool * string) :=
  v ← field asBool false m "valid"; e ← field asString "" m "error"; Some (v, e).

Definition StateValidateTx c (stateFile txJSON : string) s : S * result unit :=
  let '(s, r) := executeParsed c ["state-validate-tx"; "--state-file"; stateFile; "--tx"; txJSON] parseValid s in
  (s, match r with
      | Err e => Err e
      | Ok (true, _) => Ok ()
      | Ok (false, e) => Err (if String.eqb e "" then "invalid transaction" else e)
      end).

Definition ValidateTransaction c (txJSON : string) s : S * result unit :=
  let '(s, r) := executeParsed c ["validate-tx"; "--tx"; txJSON] parseValid s in
  (s, match r with Err e => Err e | Ok (true, _) => Ok () | Ok (false, e) => Err e end).

Definition StateApplyTx c (stateFile txJSON : string) s : S * result coreOut :=
  Execute c ["state-apply-tx"; "--state-file"; stateFile; "--tx"; txJSON] s.

Definition StateCredit c (stateFile address : string) (plp uplp : Z) (testnet : bool) s : S * result coreOut :=
  Execute c (["state-credit"; "--state-file"; stateFile; "--address"; address; "--plp"; FormatUint plp; "--uplp"; FormatUint uplp]
             ++ if testnet then ["--testnet"] else []) s.

Definition StateCreditToken c (stateFile address asset : string) (amount : Z) (testnet : bool) s : S * result coreOut :=
  let asset := if String.eqb (TrimSpace asset) "" then "Token:XP" else asset in
  Execute c (["state-credit-token"; "--state-file"; stateFile; "--address"; address; "--asset"; asset; "--amount"; FormatUint amount]
             ++ if testnet then ["--testnet"] else []) s.

Definition StateRoot c (stateFile : string) s : S * result coreOut := Execute c ["state-root"; "--state-file"; stateFile] s.

(** ** rust_core.go: keys and signatures *)

Definition isHexRune (a : Ascii.ascii) : bool :=
  let n := Ascii.N_of_ascii a in (((48 <=? n) && (n <=? 57)) || ((97 <=? n) && (n <=? 102)) || ((65 <=? n) && (n <=? 70)))%N.

Fixpoint hexOnly (t : string) : string :=
  match t with EmptyString => EmptyString | String a t' => if isHexRune a then String a (hexOnly t') else hexOnly t' end.

Definition normalizeSignatureHex (signatureHex : string) : string :=
  let h := hexOnly (TrimSpace signatureHex) in if 128 <=? len h then str_take 128 h else h.

(** [message] is the JSON text of the message. *)
Definition VerifySignature c (message signatureHex pubKeyHex : string) s : S * result bool :=
  let sig := normalizeSignatureHex signatureHex in
  let '(s, r) :=
    match c with
    | RpcMode call => call "verify_signature" [("message", JString message); ("signature", JString sig); ("pubkey", JString pubKeyHex)] s
    | CliMode _ _ _ => Execute c ["verify-signature"; "--message"; message; "--signature"; sig; "--pubkey"; pubKeyHex] s
    end in
  (s, match r with
      | Err e => Err e
      | Ok out => match m ← structFields (decodeOut jsonOf out); field asBool false m "verified" with Some v => Ok v | None => Err "verify_signature: expected JSON" end
      end).

Fixpoint splitLines (t : string) : list string :=
  match t with
  | EmptyString => [""]
  | String a t' =>
      match splitLines t' with
      | l :: ls => if (Ascii.N_of_ascii a =? 10)%N then "" :: l :: ls else String a l :: ls
      | [] => [""]
      end
  end.

(** The last line with each of the two prefixes counts. *)
Definition mnemonicLine (acc : string * string) (line : string) : string * string :=
  let line := TrimSpace line in
  if HasPrefix line "Mnemonic: " then (TrimPrefix line "Mnemonic: ", acc.2)
  else if HasPrefix line "Alphanumeric: " then (acc.1, TrimPrefix line "Alphanumeric: ")
  else acc.

Definition GenerateMnemonic c s : S * result (string * string) :=
  let '(s, r) := asText (Execute c ["generate-mnemonic"] s) in
  (s, match r with
      | Err e => Err e
      | Ok out =>
          let '(m, a) := foldl mnemonicLine ("", "") (splitLines out) in
          if String.eqb m "" || String.eqb a "" then Err "could not parse generate-mnemonic output" else Ok (m, a)
      end).

(** The answer is a JSON object of strings; null is the empty one. *)
Definition stringMap (v : option jval) : option (gmap string string) :=
  match v with
  | Some JNull => Some ∅
  | Some (JObject m) => list_to_map <$> mapM (fun kv => (fun t => (kv.1, t)) <$> asString "" kv.2) (reverse m)
  | _ => None
  end.

Definition GenerateKeys c (mnemonic alphanumeric : string) (seedIndex : Z) s : S * result (gmap string string) :=
  let '(s, r) :=
    match c with
    | RpcMode call =>
        call "generate_keys" ([("mnemonic", JString mnemonic); ("seed_index", JUint seedIndex)] ++
                              if String.eqb alphanumeric "" then [] else [("alphanumeric", JString alphanumeric)]) s
    | CliMode _ _ _ =>
        Execute c ["generate-keys"; "--mnemonic"; mnemonic; "--alphanumeric"; alphanumeric; "--seed-index"; FormatUint seedIndex] s
    end in
  (s, match r with
      | Err e => Err e
      | Ok out =>
          match stringMap (decodeOut jsonOf out) with
          | None => Err "generate_keys: expected JSON object"
          | Some m =>
              if String.eqb (default "" (m !! "publicKey")) "" || String.eqb (default "" (m !! "privateKey")) ""
              then Err "generate_keys: missing publicKey/privateKey in JSON" else Ok m
          end
      end).

(** The raw text and the hash line, if there is one. *)
Definition SignMessage c (message mnemonic alphanumeric : string) s : S * result (string * option string) :=
  let '(s, r) := asText (Execute c ["sign-message"; "--message"; message; "--mnemonic"; mnemonic; "--alphanumeric"; alphanumeric] s) in
  (s, match r with
      | Err e => Err e
      | Ok out => Ok (out, head (omap (fun l => if HasPrefix (TrimSpace l) "Message Hash: " then Some (TrimPrefix (TrimSpace l) "Message Hash: ") else None) (splitLines out)))
      end).
(** ** rust_core.go: signing a transaction *)

(** The optional fields of an escrow transaction. *)
Record SignOpts := mkOpts {
  op_TxKind : string; op_EscrowID : string; op_Purpose : string; op_ExpiresAt : Z; op_SettleOutcomeKey : string;
  op_SettlePayee : string; op_SettleNode : string
}.

Definition jstrings (l : list string) : jval := JArray (JString <$> l).

(** A flag with its value, unless the value is empty. *)
Definition optional (flag value : string) : list string := if String.eqb value "" then [] else [flag; value].

Definition escrowArgs (o : SignOpts) : list string :=
  optional "--tx-kind" (op_TxKind o) ++ optional "--escrow-id" (op_EscrowID o) ++ optional "--purpose" (op_Purpose o) ++
  (if 0 <? op_ExpiresAt o then ["--expires-at"; FormatUint (op_ExpiresAt o)] else []) ++
  optional "--settle-outcome-key" (op_SettleOutcomeKey o) ++ optional "--settle-payee" (op_SettlePayee o) ++
  optional "--settle-node" (op_SettleNode o).

Definition signArgs (from to asset : string) (amount feeUplp nonce : Z) (reads writes : list string) (mnemonic alphanumeric : string) : list string :=
  ["sign-transaction"; "--from"; from; "--to"; to; "--asset"; asset; "--amount"; FormatUint amount; "--fee-uplp"; FormatUint feeUplp;
   "--nonce"; FormatUint nonce; "--reads"; render (jstrings reads); "--writes"; render (jstrings writes);
   "--mnemonic"; mnemonic; "--alphanumeric"; alphanumeric].

(** The check that Core signed what was asked for. *)
Definition checkSigned (o : SignOpts) (signed : string) : result string :=
  match m ← structFields (jsonOf signed); k ← field asString "" m "tx_kind"; e ← field asString "" m "escrow_id"; Some (k, e) with
  | None => Err "parse signed tx"
  | Some (kind, escrowID) =>
      if negb (String.eqb kind (op_TxKind o)) then Err "Core signed tx missing tx_kind"
      else if negb (String.eqb (op_EscrowID o) "") && negb (String.eqb escrowID (op_EscrowID o)) then Err "Core signed tx missing escrow_id"
      else Ok signed
  end.

Definition SignTransactionExt c (from to asset : string) (amount feeUplp nonce : Z) (reads writes : list string) (mnemonic alphanumeric : string)
    (escrow : option SignOpts) s : S * result string :=
  let args := signArgs from to asset amount feeUplp nonce reads writes mnemonic alphanumeric ++
              match escrow with Some o => escrowArgs o | None => [] end in
  let '(s, r) := asText (Execute c args s) in
  (s, match r with
      | Err e => Err e
      | Ok output =>
          let signed := TrimSpace output in
          match escrow with
          | Some o => if String.eqb (op_TxKind o) "" then Ok signed else checkSigned o signed
          | None => Ok signed
          end
      end).

(** ** rust_core.go and consensus.go: committees, votes, blocks *)

Definition RcSelectionPercent c (loadPct : Z) s : S * result Z :=
  executeParsed c ["selection-percent-from-load"; "--load-pct"; FormatInt loadPct] (fun m => field asInt64 0 m "percent") s.

Definition RcCommitteeCount c (candidateCount loadPct : Z) s : S * result Z :=
  if candidateCount <=? 0 then (s, Ok 0)
  else executeParsed c ["committee-count"; "--candidates"; FormatInt candidateCount; "--load-pct"; FormatInt loadPct]
         (fun m => field asInt64 0 m "count") s.

Definition RcSelectCommittee c (candidates : list (string * Z)) (seedHex : string) (count : Z) s : S * result (list string) :=
  if (count <=? 0) || bool_decide (candidates = []) then (s, Ok [])
  else
  let cands := JArray ((fun kv => JObject [("id", JString kv.1); ("weight", JUint kv.2)]) <$> candidates) in
  let '(s, r) := Execute c ["select-committee"; "--candidates"; render cands; "--seed-hex"; seedHex; "--count"; FormatInt count] s in
  (s, match r with
      | Err e => Err e
      | Ok out => match decodeOut jsonOf out with Some v => match asStrings [] v with Some l => Ok l | None => Err "parse select-committee output" end
                  | None => Err "parse select-committee output" end
      end).

(** Confirmed, to be penalised, error. *)
Definition parseVotes (m : jobj) : option (bool * list string * string) :=
  k ← field asBool false m "confirmed"; p ← field asStrings [] m "to_penalize"; e ← field asString "" m "error"; Some (k, p, e).

Definition L1ProcessVotes c (votesJSON : string) s : S * result (bool * list string * string) :=
  executeParsed c ["l1-process-votes"; "--votes"; votesJSON] parseVotes s.

Definition L2ProcessVotes c (votesJSON : string) s : S * result (bool * list string * string) :=
  executeParsed c ["l2-process-votes"; "--votes"; votesJSON] parseVotes s.

Record CoreHeader := mkCoreHeader {
  ch_BlockNumber : Z; ch_PreviousHash : string; ch_Timestamp : Z; ch_TransactionHashes : list string; ch_MerkleRoot : string;
  ch_StateRoot : string; ch_BlockHash : string; ch_ProducerID : string
}.

Definition parseHeader (m : jobj) : option CoreHeader :=
  n ← field asUint64 0 m "block_number"; p ← field asString "" m "previous_hash"; t ← field asInt64 0 m "timestamp";
  h ← field asStrings [] m "transaction_hashes"; mr ← field asString "" m "merkle_root"; sr ← field asString "" m "state_root";
  bh ← field asString "" m "block_hash"; pr ← field asString "" m "producer_id"; Some (mkCoreHeader n p t h mr sr bh pr).

Definition AssembleBlock c (stateFile : string) (blockNumber : Z) (previousHash : string) (timestamp : Z) (txHashesJSON producerID : string) s
  : S * result CoreHeader :=
  executeParsed c ["assemble-block"; "--state-file"; stateFile; "--block-number"; FormatUint blockNumber; "--previous-hash"; previousHash;
    "--timestamp"; FormatInt timestamp; "--tx-hashes"; txHashesJSON; "--producer-id"; producerID] parseHeader s.

(** ** block_proposal.go *)

Definition MinFeeFromLoad c (pendingCount : Z) s : S * result Z :=
  executeParsed c ["min-fee-from-load"; "--pending-count"; FormatInt pendingCount] (fun m => field asUint64 0 m "min_fee_uplp") s.

(** Accepted, error, minimal fee, expected nonce. *)
Definition MempoolAdmit c (stateFile txJSON mempoolTxsJSON : string) s : S * result (bool * string * Z * Z) :=
  executeParsed c ["mempool-admit"; "--state-file"; stateFile; "--tx"; txJSON; "--mempool-txs"; mempoolTxsJSON]
    (fun m => a ← field asBool false m "accepted"; e ← field asString "" m "error"; f ← field asUint64 0 m "min_fee_uplp";
              n ← field asUint64 0 m "expected_nonce"; Some (a, e, f, n)) s.

Record BlockProposalStatusResult := mkProposalStatus {
  ps_ShouldPropose : bool; ps_MempoolCount : Z; ps_MempoolGasUplp : Z; ps_BlockGasCapUplp : Z; ps_MinFeeUplp : Z; ps_OldestWaitSec : Z
}.

Definition BlockProposalStatus c (mempoolTxsJSON : string) (nowUnix : Z) s : S * result BlockProposalStatusResult :=
  executeParsed c ["block-proposal-status"; "--mempool-txs"; mempoolTxsJSON; "--now-unix"; FormatInt nowUnix]
    (fun m => p ← field asBool false m "should_propose"; n ← field asInt64 0 m "mempool_count"; g ← field asUint64 0 m "mempool_gas_uplp";
              k ← field asUint64 0 m "block_gas_cap_uplp"; f ← field asUint64 0 m "min_fee_uplp"; w ← field asInt64 0 m "oldest_mempool_wait_sec";
              Some (mkProposalStatus p n g k f w)) s.

(** Hashes, gas used, gas cap, count. *)
Definition RcSelectBlockTxs c (stateFile mempoolTxsJSON : string) s : S * result (list string * Z * Z * Z) :=
  executeParsed c ["select-block-txs"; "--state-file"; stateFile; "--mempool-txs"; mempoolTxsJSON]
    (fun m => h ← field asStrings [] m "hashes"; u ← field asUint64 0 m "gas_used"; k ← field asUint64 0 m "gas_cap";
              n ← field asInt64 0 m "tx_count"; Some (h, u, k, n)) s.

(** ** kernel.go *)

Definition KernelExecEnabled (getenv : string -> string) : bool :=
  negb (bool_decide (ToLower (TrimSpace (getenv "PLATARIUM_KERNEL_EXEC")) ∈ ["0"; "false"; "no"; "off"])).

Record KernelCommitResult := mkKernelCommit { kc_OK : bool; kc_PostStateRoot : string; kc_Height : Z; kc_Error : string }.

Definition parseKernelCommit (m : jobj) : option KernelCommitResult :=
  ok ← field asBool false m "ok"; r ← field asString "" m "post_state_root"; h ← field asUint64 0 m "height"; e ← field asString "" m "error";
  Some (mkKernelCommit ok r h e).

Definition batchParams (stateFile batchID : string) (height : Z) (txs : list jval) (parallel : bool) : jobj :=
  [("state_file", JString stateFile); ("parallel", JBool parallel);
   ("batch", JObject [("batch_id", JString (if String.eqb batchID "" then "batch" else batchID)); ("height", JUint height); ("transactions", JArray txs)])].

(** Both batch calls decode the transactions before the request. *)
Definition batchCall {A} c (method stateFile batchID : string) (height : Z) (coreTxJSONs : list string) (parallel : bool) (parse : jobj -> option A) s
  : S * result A :=
  match c with
  | CliMode _ _ _ => (s, Err (method +:+ " requires PLATARIUM_CORE_MODE=rpc"))
  | RpcMode _ =>
      match mapM jsonOf coreTxJSONs with
      | None => (s, Err "kernel tx json")
      | Some txs => callParsed c method (batchParams stateFile batchID height txs parallel) parse s
      end
  end.

(** A field of type json.RawMessage. *)
Definition rawField (m : jobj) (tag : string) : option jval := last (fieldEntries m tag).

(** Whether it went well, and the difference and waves that Core computed. *)
Definition KernelExecuteBatch c (stateFile batchID : string) (height : Z) (txs : list string) (parallel : bool) s
  : S * result (bool * option jval * option jval) :=
  batchCall c "kernel_execute_batch" stateFile batchID height txs parallel
    (fun m => ok ← field asBool false m "ok"; Some (ok, rawField m "diff", rawField m "waves")) s.

Definition RcKernelApplyBatch c (stateFile batchID : string) (height : Z) (txs : list string) (parallel : bool) s : S * result KernelCommitResult :=
  batchCall c "kernel_apply_batch" stateFile batchID height txs parallel parseKernelCommit s.

Definition KernelCommitDiff c (stateFile diff : string) s : S * result KernelCommitResult :=
  match c with
  | CliMode _ _ _ => (s, Err "kernel_commit_diff requires PLATARIUM_CORE_MODE=rpc")
  | RpcMode _ =>
      match jsonOf diff with
      | None => (s, Err "kernel diff json")
      | Some d => callParsed c "kernel_commit_diff" [("state_file", JString stateFile); ("diff", d)] parseKernelCommit s
      end
  end.

(** ** block_cycle.go *)

Record CycleParams := mkCycleParams {
  cy_StateFile : string; cy_MempoolTxs : string; cy_BlockNumber : Z; cy_PreviousHash : string; cy_Timestamp : Z; cy_ProducerID : string;
  cy_AutoConfirm : bool; cy_ApplyTxs : bool; cy_DBPath : string; cy_CommitJSON : string
}.

Definition cycleRequest (p : CycleParams) : jobj :=
  [("state_file", JString (cy_StateFile p)); ("mempool_txs", JString (cy_MempoolTxs p)); ("block_number", JUint (cy_BlockNumber p));
   ("previous_hash", JString (cy_PreviousHash p)); ("timestamp", JUint (cy_Timestamp p)); ("producer_id", JString (cy_ProducerID p));
   ("auto_confirm", JBool (cy_AutoConfirm p)); ("apply_txs", JBool (cy_ApplyTxs p))] ++
  (if String.eqb (cy_DBPath p) "" then [] else [("db_path", JString (cy_DBPath p))]) ++
  (if String.eqb (cy_CommitJSON p) "" then [] else [("commit", JString (cy_CommitJSON p))]).

(** A pointer to a struct: null empties it. An answer is taken to name it once. *)
Definition asPointer {A} (parse : jobj -> option A) (old : option A) (v : jval) : option (option A) :=
  match v with JNull => Some None | JObject m => Some <$> parse m | _ => None end.

Record CycleResult := mkCycleRes {
  cr_OK : bool; cr_Err : string; cr_L1 : option jval; cr_ValidHashes : list string; cr_Block : option CoreHeader;
  cr_L1Votes : option (bool * list string * string); cr_L2Votes : option (bool * list string * string); cr_StateRoot : string
}.

Definition BlockCycle c (p : CycleParams) s : S * result CycleResult :=
  callParsed c "block_cycle" (cycleRequest p)
    (fun m => ok ← field asBool false m "ok"; e ← field asString "" m "error"; h ← field asStrings [] m "valid_hashes";
              b ← field (asPointer parseHeader) None m "block"; v1 ← field (asPointer parseVotes) None m "l1_votes";
              v2 ← field (asPointer parseVotes) None m "l2_votes"; r ← field asString "" m "state_root";
              Some (mkCycleRes ok e (rawField m "l1") h b v1 v2 r)) s.

(** ** ledger.go *)

Record CoreQuery := mkCoreQuery {
  cq_Address : string; cq_Asset : string; cq_Balance : string; cq_UplpBalance : string; cq_FeeSpendableUplp : string; cq_Nonce : Z;
  cq_Tokens : gmap string string; cq_Xp : string; cq_LockedUplp : string; cq_ReceivableUplp : string
}.

(** A map of strings: null empties it, entries are added to it. *)
Definition asStringMap (old : gmap string string) (v : jval) : option (gmap string string) :=
  match v with JNull => Some ∅ | _ => (fun m => m ∪ old) <$> stringMap (Some v) end.

Definition parseQuery (m : jobj) : option CoreQuery :=
  a ← field asString "" m "address"; t ← field asString "" m "asset"; b ← field asString "" m "balance"; u ← field asString "" m "uplp_balance";
  f ← field asString "" m "fee_spendable_uplp"; n ← field asUint64 0 m "nonce"; k ← field asStringMap ∅ m "tokens"; x ← field asString "" m "xp";
  l ← field asString "" m "locked_uplp"; r ← field asString "" m "receivable_uplp"; Some (mkCoreQuery a t b u f n k x l r).

Definition LedgerQuery c (stateFile address : string) s : S * result CoreQuery :=
  let '(s, r) := StateQuery c stateFile address "PLP" s in (s, parsed parseQuery r).

(** The result: ok, hash, state root. *)
Definition LedgerApplyTx c (stateFile txJSON : string) s : S * result (string * string) :=
  let '(s, r) := StateApplyTx c stateFile txJSON s in
  (s, match parsed (fun m => ok ← field asBool false m "ok"; h ← field asString "" m "hash"; sr ← field asString "" m "state_root";
                             e ← field asString "" m "error"; Some (ok : bool, h, sr, e)) r with
      | Err e => Err e
      | Ok (true, h, sr, _) => Ok (h, sr)
      | Ok (false, _, _, e) => Err (if String.eqb e "" then "state-apply-tx failed" else e)
      end).

Definition LedgerKernelApplyBatch (getenv : string -> string) c (stateFile : string) (coreTxJSONs : list string) s : S * result KernelCommitResult :=
  let parallel := negb (bool_decide (ToLower (TrimSpace (getenv "PLATARIUM_KERNEL_PARALLEL")) ∈ ["0"; "false"; "no"])) in
  RcKernelApplyBatch c stateFile "l2-confirm" 0 coreTxJSONs parallel s.

Definition LedgerStateRoot c (stateFile : string) s : S * result string :=
  let '(s, r) := StateRoot c stateFile s in (s, parsed (fun m => field asString "" m "state_root") r).

(** ** rocks_store.go *)

Definition ResolveRocksDBPath (getenv : string -> string) (stateFile : string) : string :=
  let p := getenv "PLATARIUM_ROCKSDB_PATH" in
  if negb (String.eqb p "") then p
  else if negb (String.eqb stateFile "") then PathJoin [PathDir stateFile; "rocksdb"]
  else PathJoin ["data"; "rocksdb"].

Definition parseStored (m : jobj) : option CoreHeader :=
  n ← field asUint64 0 m "height"; p ← field asString "" m "previous_hash"; t ← field asInt64 0 m "timestamp"; h ← field asStrings [] m "tx_hashes";
  mr ← field asString "" m "merkle_root"; sr ← field asString "" m "state_root"; bh ← field asString "" m "block_hash";
  pr ← field asString "" m "producer_id"; Some (mkCoreHeader n p t h mr sr bh pr).

Record CoreAccount := mkCoreAccount {
  ca_Address : string; ca_Balance : string; ca_UplpBalance : string; ca_Nonce : Z; ca_Tokens : gmap string string; ca_Xp : string
}.

Definition parseAccount (m : jobj) : option CoreAccount :=
  a ← field asString "" m "address"; b ← field asString "" m "balance"; u ← field asString "" m "uplp_balance"; n ← field asUint64 0 m "nonce";
  k ← field asStringMap ∅ m "tokens"; x ← field asString "" m "xp"; Some (mkCoreAccount a b u n k x).

(** A struct field: null leaves it at [old]. An answer is taken to name it once. *)
Definition asStruct {A} (parse : jobj -> option A) (old : A) (v : jval) : option A :=
  match v with JNull => Some old | JObject m => parse m | _ => None end.

(** An optional answer: [found] and the value beside it. *)
Definition parseFound {A} (value : jobj -> option A) (m : jobj) : option (option A) :=
  f ← field asBool false m "found"; v ← value m; Some (if f : bool then Some v else None).

Definition noHeader : CoreHeader := mkCoreHeader 0 "" 0 [] "" "" "" "".
Definition noAccount : CoreAccount := mkCoreAccount "" "" "" 0 ∅ "".

Definition RcRocksGetHead c (dbPath : string) s : S * result Z :=
  executeParsed c ["rocks-get-head"; "--db-path"; dbPath] (fun m => field asUint64 0 m "head") s.

Definition RcRocksGetTx c (dbPath txHash : string) s : S * result (option (option jval)) :=
  executeParsed c ["rocks-get-tx"; "--db-path"; dbPath; "--tx-hash"; txHash] (parseFound (fun m => Some (rawField m "tx"))) s.

Definition RcRocksGetBlock c (dbPath : string) (height : Z) s : S * result (option CoreHeader) :=
  executeParsed c ["rocks-get-block"; "--db-path"; dbPath; "--height"; FormatUint height]
    (parseFound (fun m => field (asStruct parseStored) noHeader m "block")) s.

Definition RcRocksGetAccount c (dbPath address : string) s : S * result (option CoreAccount) :=
  executeParsed c ["rocks-get-account"; "--db-path"; dbPath; "--address"; address]
    (parseFound (fun m => field (asStruct parseAccount) noAccount m "account")) s.

Definition RcRocksListAddressTxs c (dbPath address : string) s : S * result (list string) :=
  executeParsed c ["rocks-list-address-txs"; "--db-path"; dbPath; "--address"; address]
    (fun m => _ ← field asString "" m "address"; field asStrings [] m "tx_hashes") s.

(** [commit] is the JSON text of the payload. *)
Definition RcRocksCommitBlock c (dbPath commit : string) s : S * result Z :=
  let '(s, r) := executeParsed c ["rocks-commit-block"; "--db-path"; dbPath; "--commit"; commit]
                   (fun m => ok ← field asBool false m "ok"; h ← field asUint64 0 m "height"; Some (ok : bool, h)) s in
  (s, match r with Err e => Err e | Ok (true, h) => Ok h | Ok (false, _) => Err "rocks-commit-block failed" end).

Definition MigrateJSONToRocks c (dbPath chainFile accountsFile : string) s : S * result unit :=
  let '(s, r) := Execute c (["migrate-json-to-rocks"; "--db-path"; dbPath; "--chain-file"; chainFile] ++ optional "--accounts-file" accountsFile) s in
  (s, match r with Ok _ => Ok () | Err e => Err e end).
End core.
