(* ===== verification/CoreCallsSpec.v ===== *)
(** * What the commands of PlatariumCore promise

    Large arguments reach the program unchanged through temporary files, a path given
    as an argument stays inside of their directory, and what Core is asked to sign is
    what the gateway was asked for. *)

From stdpp Require Import pretty.
From S2P Require Import Prelude GoStd GoJson GoPath CoreRpc CoreCalls.

#[local] Open Scope Z_scope.

(** ** Spilled arguments *)

(** What the program reads for its arguments: a value of a JSON flag that starts with
    an at sign names a file. *)
Fixpoint expandArgs (files : list (string * string)) (args : list string) : list string :=
  match args with
  | [] => []
  | flag :: rest =>
      if negb (bool_decide (flag ∈ spillJSONFlags)) then flag :: expandArgs files rest
      else match rest with
      | [] => [flag]
      | val :: rest' =>
          let content := match list_find (fun f => "@" +:+ f.1 = val) files with Some (_, f) => f.2 | None => val end in
          flag :: content :: expandArgs files rest'
      end
  end.

(** No JSON value of the command names a file itself. *)
Fixpoint inline (args : list string) : Prop :=
  match args with
  | [] => True
  | flag :: rest =>
      if negb (bool_decide (flag ∈ spillJSONFlags)) then inline rest
      else match rest with [] => True | val :: rest' => HasPrefix val "@" = false /\ inline rest' end
  end.

(** The JSON values of a command line. *)
Fixpoint jsonValues (args : list string) : list string :=
  match args with
  | [] => []
  | flag :: rest =>
      if negb (bool_decide (flag ∈ spillJSONFlags)) then jsonValues rest
      else match rest with [] => [] | val :: rest' => val :: jsonValues rest' end
  end.

Definition uniqueTemps (temps : nat -> tempFile) : Prop :=
  forall i j p, temps i = TempOk p -> temps j = TempOk p -> i = j.

Lemma at_inj a b : "@" +:+ a = "@" +:+ b -> a = b.
Proof. intros H. by apply (inj (String.append "@")) in H. Qed.

Lemma spill_shape under temps args : forall k out files,
  spillArgs under temps k args = Ok (out, files) -> inline args ->
  (forall p v, (p, v) ∈ files -> exists i, (k <= i)%nat /\ temps i = TempOk p) /\ (uniqueTemps temps -> NoDup files.*1) /\
  forall all, NoDup all.*1 -> files ⊆ all -> expandArgs all out = args /\ Forall (fun v => len v <= cliJSONSpillBytes \/ exists f, f ∈ files /\ v = "@" +:+ f.1) (jsonValues out).
Proof.
  induction args as [args IH] using (induction_ltof1 _ (@length string)); unfold ltof in IH. intros k out files H Hin.
  destruct args as [|flag rest]; [injection H as <- <-; split_and!; [by intros p v []%elem_of_nil|constructor|done]|]. cbn [spillArgs inline] in H, Hin.
  destruct (bool_decide (flag ∈ spillJSONFlags)) eqn:Ef; cbn [negb] in H, Hin.
  2:{ destruct (spillArgs under temps k rest) as [[o fs]|e] eqn:E; [|done]. injection H as <- <-.
      destruct (IH rest (Nat.lt_succ_diag_r _) k o fs E Hin) as (H1 & H2 & H3). split_and!; [done|done|]. intros all Ha Hs.
      cbn [expandArgs jsonValues]. rewrite Ef. cbn [negb]. destruct (H3 all Ha Hs) as [-> H4]. done. }
  destruct rest as [|val rest]; [injection H as <- <-; cbn [expandArgs jsonValues]; rewrite Ef; split_and!; [by intros p v []%elem_of_nil|constructor|done]|].
  destruct Hin as [Hv Hin]. rewrite Hv in H.
  assert (Hlt : (length rest < length (flag :: val :: rest))%nat) by (simpl; lia).
  destruct (Z.leb_spec (len val) cliJSONSpillBytes) as [Hle|Hgt].
  - destruct (spillArgs under temps k rest) as [[o fs]|e] eqn:E; [|done]. injection H as <- <-.
    destruct (IH rest Hlt k o fs E Hin) as (H1 & H2 & H3). split_and!; [done|done|]. intros all Ha Hs.
    cbn [expandArgs jsonValues app]. rewrite Ef. cbn [negb]. destruct (H3 all Ha Hs) as [-> H4]. split; [|by constructor; [left|]].
    destruct (list_find _ all) as [[i f]|] eqn:El; [|done]. apply list_find_Some in El as (_ & <- & _).
    exfalso. revert Hv. clear. destruct f as [p v]. simpl. by destruct p.
  - destruct (temps k) as [path|e] eqn:Et; [|done]. destruct (spillArgs under temps (S k) rest) as [[o fs]|e] eqn:E; [|done]. injection H as <- <-.
    destruct (IH rest Hlt (S k) o fs E Hin) as (H1 & H2 & H3). split_and!.
    + intros p v [[= -> ->]|Hp]%elem_of_cons; [by exists k|]. destruct (H1 p v Hp) as (i & Hi & Hti). exists i. split; [lia|done].
    + intros Hu. rewrite fmap_cons. apply NoDup_cons. split; [|by apply H2]. intros ([p v] & Heq & Hp)%list_elem_of_fmap.
      simpl in Heq. subst p. destruct (H1 path v Hp) as (i & Hi & Hti). pose proof (Hu k i path Et Hti). lia.
    + intros all Ha Hs. cbn [expandArgs jsonValues app]. rewrite Ef. cbn [negb]. destruct (H3 all Ha) as [-> H4]; [set_solver|]. split.
      * assert (Hmem : (path, val) ∈ all) by (apply Hs; by left). apply list_elem_of_lookup in Hmem as [i Hi].
        destruct (list_find_Some (fun f : string * string => "@" +:+ f.1 = "@" +:+ path) all i (path, val)) as [_ Hf].
        rewrite Hf; [done|]. split; [done|]. split; [done|]. intros j [p v] Hj Hji Heq. apply at_inj in Heq. simpl in Heq. subst p.
        assert (j = i); [|lia]. eapply (NoDup_lookup all.*1); [done|by rewrite list_lookup_fmap, Hj|by rewrite list_lookup_fmap, Hi].
      * constructor; [right; exists (path, val); split; [by left|done]|]. eapply Forall_impl; [exact H4|].
        intros v [|(f & Hf & ->)]; [by left|right]. exists f. split; [by right|done].
Qed.

Section calls.
Context {S : Type} {C : GoConv} (jsonOf : string -> option jval) (render : jval -> string).
Implicit Types s : S.

(** large arguments reach the program unchanged. With the command-line program, a
    command whose JSON values are given inline runs with arguments that, read the way
    the program reads them (a value with an at sign is the content of that file), are
    the arguments of the command; every JSON value left on the command line is at most
    12 KiB long or such a reference; when a temporary file cannot be written the
    program is not run at all. Temporary files must get distinct names. *)
Theorem spill_transparent under temps (run : list string -> list (string * string) -> S -> S * result string) args s
  (Hinline : inline args) (Hunique : uniqueTemps temps) :
  let res := Execute jsonOf render (CliMode under temps run) args s in
  (exists e, res = (s, Err e)) \/
  exists out files, res.1 = (run out files s).1 /\ expandArgs files out = args /\
    Forall (fun v => len v <= cliJSONSpillBytes \/ exists f, f ∈ files /\ v = "@" +:+ f.1) (jsonValues out) /\
    res.2 = match (run out files s).2 with Ok t => Ok (OutText (TrimSpace t)) | Err e => Err e end.
Proof.
  cbv zeta. unfold Execute. destruct (spillArgs under temps 0 args) as [[out files]|e] eqn:E; [|left; by exists e].
  right. exists out, files. destruct (spill_shape under temps args 0 out files E Hinline) as (_ & Hn & H).
  destruct (H files (Hn Hunique)) as [Hx Hv]; [done|]. by destruct (run out files s) as [s' r].
Qed.

(** ** Signing *)

Lemma flagArgs_app a b : flagArgs (a ++ b) = flagArgs a ++ flagArgs b.
Proof. unfold flagArgs. by rewrite bind_app. Qed.

Definition optionalField (name value : string) : list (string * string) := if String.eqb value "" then [] else [(name, value)].

(** What Core is asked to sign. *)
Definition signFields (from to asset : string) (amount fee nonce : Z) (reads writes : list string) (mnemonic alphanumeric : string)
  : list (string * string) :=
  [("from", from); ("to", to); ("asset", asset); ("amount", FormatUint amount); ("fee-uplp", FormatUint fee); ("nonce", FormatUint nonce);
   ("reads", render (jstrings reads)); ("writes", render (jstrings writes)); ("mnemonic", mnemonic); ("alphanumeric", alphanumeric)].

Definition escrowFields (o : SignOpts) : list (string * string) :=
  optionalField "tx-kind" (op_TxKind o) ++ optionalField "escrow-id" (op_EscrowID o) ++ optionalField "purpose" (op_Purpose o) ++
  (if 0 <? op_ExpiresAt o then [("expires-at", FormatUint (op_ExpiresAt o))] else []) ++
  optionalField "settle-outcome-key" (op_SettleOutcomeKey o) ++ optionalField "settle-payee" (op_SettlePayee o) ++
  optionalField "settle-node" (op_SettleNode o).

Lemma optional_flag name value : optional ("--" +:+ name) value = flagArgs (optionalField name value).
Proof. unfold optional, optionalField. by destruct (String.eqb value ""). Qed.

Lemma escrowArgs_fields o : escrowArgs o = flagArgs (escrowFields o).
Proof.
  unfold escrowArgs, escrowFields. rewrite !flagArgs_app, <- !optional_flag. by destruct (0 <? op_ExpiresAt o).
Qed.

(** Numbers do not start with a dash. *)
Definition noDash (t : string) : Prop := match t with String a _ => a <> Ascii.ascii_of_N 45 | EmptyString => True end.

Lemma noDash_prefix t : noDash t -> HasPrefix t "--" = false.
Proof.
  destruct t as [|a t]; [done|]. unfold HasPrefix, noDash. cbn [String.prefix]. intros Ha.
  match goal with |- context [Ascii.ascii_dec ?x ?y] => destruct (Ascii.ascii_dec x y) as [<-|] end; [|done]. by destruct Ha.
Qed.

Lemma pretty_go_noDash x : forall t, noDash t -> noDash (pretty_N_go x t).
Proof.
  induction (N.lt_wf_0 x) as [x _ IH]. intros t Ht. destruct (decide (0 < x)%N) as [Hx|Hx].
  - rewrite pretty_N_go_step by done. apply IH; [by apply N.div_lt|]. cbn. unfold pretty_N_char. by repeat case_match.
  - assert (x = 0%N) as -> by lia. by rewrite pretty_N_go_0.
Qed.

Lemma FormatUint_noDash z : HasPrefix (FormatUint z) "--" = false.
Proof.
  apply noDash_prefix. unfold FormatUint, pretty, pretty_N. destruct (decide _); [done|]. by apply pretty_go_noDash.
Qed.

(** Fields given by the caller, which must not look like flags. *)
Definition plainFields (kvs : list (string * string)) : Prop := Forall (fun kv => HasPrefix kv.2 "--" = false) kvs.

(** Core signs what was asked for. In RPC mode the request to sign an escrow
    transaction carries exactly the sender, receiver, asset, amounts, nonce, access
    lists and secrets of the call and the escrow fields that are set, when none of
    them starts with two dashes (the numbers and lists never do); and a transaction is
    returned only if Core's answer carries the kind and the escrow id of the call. *)
Theorem escrow_sign_faithful call from to asset amount fee nonce reads writes mnemonic alphanumeric o s
  (Hrender : forall l, HasPrefix (render (jstrings l)) "--" = false)
  (Hplain : plainFields ([("", from); ("", to); ("", asset); ("", mnemonic); ("", alphanumeric)] ++ escrowFields o))
  (Hkind : op_TxKind o <> "") :
  let fields := signFields from to asset amount fee nonce reads writes mnemonic alphanumeric ++ escrowFields o in
  let req := call "sign_transaction" ((fun kv => (underscores kv.1, JString kv.2)) <$> fields) s in
  let res := SignTransactionExt jsonOf render (RpcMode call) from to asset amount fee nonce reads writes mnemonic alphanumeric (Some o) s in
  res.1 = req.1 /\
  match res.2 with
  | Err _ => True
  | Ok signed => exists out m, req.2 = Ok out /\ signed = TrimSpace (outText render out) /\ jsonOf signed = Some (JObject m) /\
      field asString "" m "tx_kind" = Some (op_TxKind o) /\
      exists id, field asString "" m "escrow_id" = Some id /\ (op_EscrowID o <> "" -> id = op_EscrowID o)
  end.
Proof.
  cbv zeta. set (fields := _ ++ escrowFields o).
  assert (Hargs : signArgs render from to asset amount fee nonce reads writes mnemonic alphanumeric ++ escrowArgs o = "sign-transaction" :: flagArgs fields).
  { unfold fields. by rewrite escrowArgs_fields, flagArgs_app. }
  assert (Hf : plainFields fields).
  { unfold plainFields, fields in *. rewrite Forall_app in Hplain. destruct Hplain as [Hp He].
    apply Forall_app. split; [|done]. repeat rewrite Forall_cons in Hp. destruct Hp as (? & ? & ? & ? & ? & _). repeat constructor; (done || apply FormatUint_noDash || apply Hrender). }
  unfold SignTransactionExt. rewrite Hargs. unfold Execute, ExecuteRPC. rewrite cli_args_roundtrip by done. cbn [asText].
  change (cliCommandToMethod "sign-transaction") with "sign_transaction".
  destruct (call "sign_transaction" _ s) as [s' [out|e]]; cbn; [|done]. split; [done|].
  rewrite (proj2 (String.eqb_neq _ _) Hkind). unfold checkSigned.
  destruct (structFields (jsonOf (TrimSpace (outText render out)))) as [m|] eqn:Em; cbn; [|done].
  destruct (field asString "" m "tx_kind") as [k|] eqn:Ek; cbn; [|done]. destruct (field asString "" m "escrow_id") as [id|] eqn:Ei; cbn; [|done].
  destruct (String.eqb_spec k (op_TxKind o)) as [->|]; cbn [negb]; [|done].
  destruct (negb (String.eqb (op_EscrowID o) "") && negb (String.eqb id (op_EscrowID o))) eqn:Ee; [done|].
  exists out, m. split; [done|]. split; [done|]. split.
  { unfold structFields in Em. destruct (jsonOf _) as [[| | | | | |]|]; simplify_eq; [|done]. vm_compute in Ek. by injection Ek as Ek. }
  split; [done|]. exists id. split; [done|]. intros Hid. rewrite (proj2 (String.eqb_neq _ _) Hid) in Ee. cbn in Ee.
  apply negb_false_iff in Ee. by apply String.eqb_eq.
Qed.
End calls.

(** ** Paths *)

(** a path argument cannot leave the spill directory. When a value that starts with
    an at sign is let through, its absolute path is the spill directory itself or lies
    below it, and no part of it goes up, whatever dots and slashes the value had; the
    working directory must be absolute. *)
Theorem spill_path_confined cwd dir path
  (Hcwd : IsAbs cwd = true) (Hunder : isUnderSpillDir cwd dir path = true) :
  ".." ∉ splitSlash (Abs cwd path) /\ ".." ∉ splitSlash (Abs cwd dir) /\
  (Abs cwd path = Abs cwd dir \/ exists below, Abs cwd path = Abs cwd dir +:+ ("/" +:+ below)).
Proof.
  split; [by apply Abs_no_up|]. split; [by apply Abs_no_up|]. unfold isUnderSpillDir in Hunder.
  destruct (String.eqb_spec (Abs cwd path) (Abs cwd dir)) as [->|_]; [by left|]. right. cbn [orb] in Hunder.
  exists (str_drop (String.length (Abs cwd dir +:+ "/")) (Abs cwd path)). apply prefix_split in Hunder. by rewrite <- str_app_assoc.
Qed.

(** ** Witnesses *)

Fixpoint longText (n : nat) : string := match n with O => "" | S n => String (Ascii.ascii_of_N 91) (longText n) end.

Definition numbered (i : nat) : tempFile := TempOk (longText i).

Lemma numbered_unique : uniqueTemps numbered.
Proof.
  intros i j p [= <-] [= H]. revert j H. induction i as [|i IH]; intros [|j] H; simplify_eq/=; [done|]. f_equal. by apply IH.
Qed.

(** A program that reports how many files it got. *)
Definition countFiles (_ : list string) (files : list (string * string)) (n : Z) : Z * result string := (n + Z.of_nat (length files), Ok "{}").

Lemma spill_transparent_witness :
  let args := ["l1-process-votes"; "--votes"; longText 13000] in
  (exists e, Execute (fun _ => None) (fun _ => "") (CliMode (fun _ => false) numbered countFiles) args 0 = (0, Err e)) \/
  exists out files, expandArgs files out = args.
Proof.
  intros args.
  destruct (spill_transparent (fun _ => None) (fun _ => "") (fun _ => false) numbered countFiles args 0) as [H|(out & files & _ & H & _)].
  - vm_compute. split; [reflexivity|exact I].
  - exact numbered_unique.
  - left. exact H.
  - right. exists out, files. exact H.
Defined.

Example spilled_once :
  (Execute (fun _ => None) (fun _ => "") (CliMode (fun _ => false) numbered countFiles) ["l1-process-votes"; "--votes"; longText 13000] 0).1 = 1.
Proof. vm_compute. reflexivity. Qed.

(** A Core that signs every lock of escrow "e1". *)
Definition signsLock (method : string) (_ : jobj) (n : Z) : Z * result coreOut := (n + 1, Ok (OutText "signed")).

Definition lockJson (t : string) : option jval :=
  if String.eqb t "signed" then Some (JObject [("tx_kind", JString "escrow_lock"); ("escrow_id", JString "e1")]) else None.

Definition lockOpts : SignOpts := mkOpts "escrow_lock" "e1" "contact" 0 "" "PxB" "".

Lemma escrow_sign_faithful_witness :
  (SignTransactionExt lockJson (fun _ => "[]") (RpcMode signsLock) "PxA" "PxB" "PLP" 5 1 0 [] ["PxA"] "m" "a" (Some lockOpts) 0).1 = 1.
Proof.
  refine (proj1 (escrow_sign_faithful lockJson (fun _ => "[]") signsLock "PxA" "PxB" "PLP" 5 1 0 [] ["PxA"] "m" "a" lockOpts 0 _ _ _)).
  - intros l. reflexivity.
  - repeat constructor.
  - discriminate.
Defined.

Lemma spill_path_confined_witness :
  exists below, Abs "/srv" "/tmp/spill/x/../a.json" = "/tmp/spill" +:+ ("/" +:+ below).
Proof.
  destruct (spill_path_confined "/srv" "/tmp/spill" "/tmp/spill/x/../a.json") as (_ & _ & [H|H]); [reflexivity|reflexivity|discriminate H|exact H].
Defined.

Example dots_do_not_escape : isUnderSpillDir "/srv" "/tmp/spill" "/tmp/spill/../secret" = false.
Proof. vm_compute. reflexivity. Qed.
