(* ===== verification/Sha256.v ===== *)
(** * crypto/sha256, encoding/hex and big-endian words

    SHA-256 (FIPS 180-4) on byte lists, as the source uses it through
    [sha256.Sum256] and [hex.EncodeToString]; executable. *)

From S2P Require Import Prelude GoStd.
From Stdlib Require Import Ascii.

#[local] Open Scope Z_scope.

Notation byteList := (list Z).

Fixpoint bytesOf (s : string) : byteList :=
  match s with
  | EmptyString => []
  | String c s' => Z.of_N (N_of_ascii c) :: bytesOf s'
  end.

Definition stringOf (l : byteList) : string :=
  foldr (fun b s => String (ascii_of_N (Z.to_N b)) s) EmptyString l.

Definition w32 (z : Z) : Z := z mod 4294967296.

Definition rotr (n x : Z) : Z := Z.lor (Z.shiftr x n) (w32 (Z.shiftl x (32 - n))).
Definition Ch (x y z : Z) : Z := Z.lxor (Z.land x y) (Z.land (4294967295 - x) z).
Definition Maj (x y z : Z) : Z := Z.lxor (Z.lxor (Z.land x y) (Z.land x z)) (Z.land y z).
Definition bigSigma0 (x : Z) : Z := Z.lxor (Z.lxor (rotr 2 x) (rotr 13 x)) (rotr 22 x).
Definition bigSigma1 (x : Z) : Z := Z.lxor (Z.lxor (rotr 6 x) (rotr 11 x)) (rotr 25 x).
Definition smallSigma0 (x : Z) : Z := Z.lxor (Z.lxor (rotr 7 x) (rotr 18 x)) (Z.shiftr x 3).
Definition smallSigma1 (x : Z) : Z := Z.lxor (Z.lxor (rotr 17 x) (rotr 19 x)) (Z.shiftr x 10).

(** The constants of the standard are the first 32 fractional bits of the cube
    roots of the first 64 primes (the round constants) and of the square roots of
    the first 8 (the initial state). [rootBits e x n r] extends the [e]-th root [r]
    of [x], known down to bit [n], to the units. *)
Fixpoint rootBits (e x : Z) (n : nat) (r : Z) : Z :=
  match n with
  | O => r
  | S n' => let r' := r + 2 ^ Z.of_nat n' in rootBits e x n' (if r' ^ e <=? x then r' else r)
  end.

Definition fracRoot (e p : Z) : Z := w32 (rootBits e (p * 2 ^ (32 * e)) 36 0).

Definition isPrime (n : nat) : bool := forallb (fun d => negb (Nat.eqb (n mod d) 0)) (seq 2 (n - 2)).

Definition primes256 : list Z := Eval vm_compute in Z.of_nat <$> List.filter isPrime (seq 2 310).

Definition K256 : list Z := Eval vm_compute in fracRoot 3 <$> primes256.

Definition H256 : list Z := Eval vm_compute in fracRoot 2 <$> take 8 primes256.

Definition bigEndian (n : nat) (z : Z) : byteList :=
  (fun i => Z.shiftr z (8 * Z.of_nat i) mod 256) <$> reverse (seq 0 n).

Definition fromBigEndian (l : byteList) : Z := foldl (fun acc b => acc * 256 + b) 0 l.

Definition padding (len : nat) : byteList :=
  128 :: replicate ((119 - len mod 64) mod 64) 0 ++ bigEndian 8 (8 * Z.of_nat len).

(** Consecutive groups of [n] elements ([fuel] bounds their number). *)
Fixpoint chunks (fuel n : nat) (l : byteList) : list byteList :=
  match fuel, l with
  | O, _ | _, [] => []
  | S fuel', _ => take n l :: chunks fuel' n (drop n l)
  end.

Definition schedule_step (w : list Z) : list Z :=
  (* [w] holds the schedule newest first *)
  match w !! 1%nat, w !! 6%nat, w !! 14%nat, w !! 15%nat with
  | Some a, Some b, Some c, Some d => w32 (smallSigma1 a + b + smallSigma0 c + d) :: w
  | _, _, _, _ => w
  end.

Definition schedule (block : byteList) : list Z :=
  reverse (Nat.iter 48 schedule_step (reverse (fromBigEndian <$> chunks 16 4 block))).

Definition round (st : list Z) (kw : Z * Z) : list Z :=
  match st with
  | [a; b; c; d; e; f; g; h] =>
      let t1 := w32 (h + bigSigma1 e + Ch e f g + kw.1 + kw.2) in
      let t2 := w32 (bigSigma0 a + Maj a b c) in
      [w32 (t1 + t2); a; b; c; w32 (d + t1); e; f; g]
  | _ => st
  end.

Definition compress (st : list Z) (block : byteList) : list Z :=
  zip_with (fun x y => w32 (x + y)) st (foldl round st (zip K256 (schedule block))).

Definition Sum256 (msg : byteList) : byteList :=
  let padded := msg ++ padding (length msg) in
  let st := foldl compress H256 (chunks (length padded) 64 padded) in
  st ≫= bigEndian 4.

Definition hexDigit (n : Z) : ascii :=
  ascii_of_N (Z.to_N (if n <? 10 then 48 + n else 87 + n)).

Fixpoint EncodeToString (l : byteList) : string :=
  match l with
  | [] => EmptyString
  | b :: l' => String (hexDigit (b / 16)) (String (hexDigit (b mod 16)) (EncodeToString l'))
  end.

(** [hex.EncodeToString(sha256.Sum256([]byte(s)))]. *)
Definition sha256Hex (s : string) : string := EncodeToString (Sum256 (bytesOf s)).

(** Test vectors of the standard. *)
Example sha256_abc :
  sha256Hex "abc" = "ba7816bf8f01cfea414140de5dae2223b00361a396177a9cb410ff61f20015ad".
Proof. vm_compute. reflexivity. Qed.

Example sha256_empty :
  sha256Hex "" = "e3b0c44298fc1c149afbf4c8996fb92427ae41e4649b934ca495991b7852b855".
Proof. vm_compute. reflexivity. Qed.

Example sha256_two_blocks :
  sha256Hex "abcdbcdecdefdefgefghfghighijhijkijkljklmklmnlmnomnopnopq" =
  "248d6a61d20638b8e5c026930c3e6039a33ce45964ff2167f6ecedd419db06c1".
Proof. vm_compute. reflexivity. Qed.

Lemma bigEndian_length n z : length (bigEndian n z) = n.
Proof. unfold bigEndian. by rewrite length_fmap, length_reverse, length_seq. Qed.

Lemma round_length st kw : length st = 8%nat -> length (round st kw) = 8%nat.
Proof. by do 9 (destruct st as [|? st]; try done). Qed.

Lemma rounds_length kws st : length st = 8%nat -> length (foldl round st kws) = 8%nat.
Proof. revert st. induction kws as [|kw kws IH]; intros st H; [done|]. simpl. by apply IH, round_length. Qed.

Lemma Sum256_length msg : length (Sum256 msg) = 32%nat.
Proof.
  unfold Sum256. set (blocks := chunks _ _ _).
  assert (Hst : length (foldl compress H256 blocks) = 8%nat).
  { assert (H : forall st, length st = 8%nat -> length (foldl compress st blocks) = 8%nat).
    { induction blocks as [|b bs IH]; intros st H; [done|]. simpl. apply IH.
      unfold compress. rewrite length_zip_with, rounds_length by done. lia. }
    by apply H. }
  generalize dependent (foldl compress H256 blocks). clear. intros st H.
  assert (Hb : forall l : list Z, length (l ≫= bigEndian 4) = (4 * length l)%nat).
  { induction l as [|x l IH]; [done|]. cbn [mbind list_bind]. rewrite length_app, bigEndian_length.
    change (list_bind _ _ (bigEndian 4) l) with (l ≫= bigEndian 4). rewrite IH. simpl. lia. }
  by rewrite Hb, H.
Qed.
