(* ===== verification/Deals.v ===== *)
(** * internal/deals: the volunteer panel (book.go, escrow_read.go)

    Cases with a five-seat panel, commit and reveal of verdicts, the quorum of
    three. [Book] is the struct without its mutex and path; each operation is
    the body under the lock. The file on disk is a separate value: [flush] is
    what [flushLocked] writes when the write succeeds, and [OpenBook] reads it. *)

From S2P Require Import Prelude GoStd Sha256 Dag.
From stdpp Require Import sorting.
From Stdlib Require Import Ascii.

#[local] Open Scope Z_scope.

Definition VerdictFulfilled : string := "fulfilled".
Definition VerdictNotFulfilled : string := "not-fulfilled".
Definition OutcomeFulfilled : string := "dispute-fulfilled".
Definition OutcomeNotFulfilled : string := "dispute-not-fulfilled".
Definition PanelDomain : string := "platarium-deal-panel-v1".
Definition PanelInstanceFirst : Z := 1.
Definition PanelGenerationFirst : Z := 1.

Record Brief := mkBrief {
  br_CaseID : string;
  br_Terms : string;
  br_TermsHash : string;
  br_PriorResult : string;
  br_RevealsOpen : bool
}.

Record cse := mkCase {
  c_brief : Brief;
  c_escrowID : string;
  c_panel : list string;
  c_panelSet : gset string;
  c_commits : gmap string string;
  c_reveals : gmap string string;
  c_quorum : string;
  c_deadline : Z;
  c_frozen : bool;
  c_instance : Z;
  c_generation : Z
}.

Record Book := mkBook {
  bk_cases : gmap string cse;
  bk_byEscrow : gmap string string;
  bk_roster : list string;
  bk_height : Z
}.

Definition NewBook : Book := mkBook ∅ ∅ [] 0.

(** Updates of one case. *)
Definition withBrief (br : Brief) (c : cse) : cse :=
  mkCase br (c_escrowID c) (c_panel c) (c_panelSet c) (c_commits c) (c_reveals c) (c_quorum c) (c_deadline c)
    (c_frozen c) (c_instance c) (c_generation c).
Definition withCommits (m : gmap string string) (c : cse) : cse :=
  mkCase (c_brief c) (c_escrowID c) (c_panel c) (c_panelSet c) m (c_reveals c) (c_quorum c) (c_deadline c)
    (c_frozen c) (c_instance c) (c_generation c).
Definition withReveals (m : gmap string string) (c : cse) : cse :=
  mkCase (c_brief c) (c_escrowID c) (c_panel c) (c_panelSet c) (c_commits c) m (c_quorum c) (c_deadline c)
    (c_frozen c) (c_instance c) (c_generation c).
Definition withQuorum (q : string) (c : cse) : cse :=
  mkCase (c_brief c) (c_escrowID c) (c_panel c) (c_panelSet c) (c_commits c) (c_reveals c) q (c_deadline c)
    (c_frozen c) (c_instance c) (c_generation c).
Definition freeze (c : cse) : cse :=
  mkCase (c_brief c) (c_escrowID c) (c_panel c) (c_panelSet c) (c_commits c) (c_reveals c) (c_quorum c) (c_deadline c)
    true (c_instance c) (c_generation c).
Definition withPrior (p : string) (br : Brief) : Brief :=
  mkBrief (br_CaseID br) (br_Terms br) (br_TermsHash br) p (br_RevealsOpen br).

Definition putCase (id : string) (c : cse) (b : Book) : Book :=
  mkBook (<[id := c]> (bk_cases b)) (bk_byEscrow b) (bk_roster b) (bk_height b).

(** ** Helpers *)

Definition isTrimmed (c : ascii) : bool :=
  Ascii.eqb c " " || Ascii.eqb c "010" || Ascii.eqb c "009".

Fixpoint trimLeft (s : string) : string :=
  match s with
  | String c s' => if isTrimmed c then trimLeft s' else s
  | EmptyString => EmptyString
  end.

Definition stringsTrim (s : string) : string := str_rev (trimLeft (str_rev (trimLeft s))).

(** [parseUint]: the leading digits, modulo 2^64. *)
Fixpoint parseUintFrom (n : Z) (s : string) : Z :=
  match s with
  | EmptyString => n
  | String c s' => match digit c with Some d => parseUintFrom (u64 (n * 10 + d)) s' | None => n end
  end.
Definition parseUint (s : string) : Z := parseUintFrom 0 s.

Definition HashCommit (verdict nonce : string) : string :=
  if String.eqb nonce "" then sha256Hex verdict
  else sha256Hex (verdict +:+ String "000" EmptyString +:+ nonce).

Definition HashVerdict (verdict : string) : string := HashCommit verdict "".

Definition coreOutcome (v : string) : string :=
  if String.eqb v VerdictFulfilled then OutcomeFulfilled
  else if String.eqb v VerdictNotFulfilled then OutcomeNotFulfilled
  else v.

(** The nodup filter of [SetRoster] and [PickFive]. *)
Fixpoint uniqueFrom (seen : gset string) (keys : list string) : list string :=
  match keys with
  | [] => []
  | k :: rest =>
      if String.eqb k "" then uniqueFrom seen rest
      else if decide (k ∈ seen) then uniqueFrom seen rest
      else k :: uniqueFrom ({[k]} ∪ seen) rest
  end.

(** [PanelSeed]: domain, two digests and two bytes. *)
Definition PanelSeed (escrowID terms : string) (instance generation : Z) : byteList :=
  bytesOf PanelDomain ++ Sum256 (bytesOf escrowID) ++ Sum256 (bytesOf terms) ++ [instance; generation].

(** [PickFive]. An excluded address counts as seen from the start. *)
Definition eligibleOf (bonded exclude : list string) : list string :=
  SortStrings (uniqueFrom (list_to_set (filter (fun e => e <> "") exclude)) bonded).

Fixpoint seatFrom (seed : byteList) (seat : Z) (n : nat) (remaining : list string) : list string :=
  match n with
  | O => []
  | S n' =>
      let h := Sum256 (seed ++ bigEndian 8 seat) in
      let idx := Z.to_nat (fromBigEndian (take 8 h) mod Z.of_nat (length remaining)) in
      match remaining !! idx with
      | Some p => p :: seatFrom seed (seat + 1) n' (take idx remaining ++ drop (S idx) remaining)
      | None => []
      end
  end.

Definition PickFive (seed : byteList) (bonded exclude : list string) : result (list string) :=
  let eligible := eligibleOf bonded exclude in
  if (length eligible <? 5)%nat then Err "fewer than five eligible volunteers"
  else Ok (seatFrom seed 0 5 eligible).

Section Book.
Context {R : GoRange}.

(** [quorumOf]: the first verdict to reach three in the order of the map. *)
Fixpoint quorumScan (counts : gmap string Z) (vs : list string) : option string :=
  match vs with
  | [] => None
  | v :: vs' =>
      let n := default 0 (counts !! v) + 1 in
      if 3 <=? n then Some v else quorumScan (<[v := n]> counts) vs'
  end.

Definition quorumOf (reveals : gmap string string) : option string := quorumScan ∅ (range reveals).*2.

(** [if c.quorum == "" { if q, ok := quorumOf(c.reveals); ok { c.quorum = q } }]. *)
Definition settleQuorum (c : cse) : cse :=
  if String.eqb (c_quorum c) "" then
    match quorumOf (c_reveals c) with Some q => withQuorum q c | None => c end
  else c.

(** ** Operations *)

Definition SetRoster (keys : list string) (b : Book) : Book :=
  mkBook (bk_cases b) (bk_byEscrow b) (uniqueFrom ∅ keys) (bk_height b).

Definition SetHeight (h : Z) (b : Book) : Book :=
  mkBook ((fun c => if negb (c_frozen c) && (c_deadline c <? h) then settleQuorum (freeze c) else c) <$> bk_cases b)
    (bk_byEscrow b) (bk_roster b) h.

Definition caseIDFor (escrowID termsHash : string) : string :=
  sha256Hex ("deal-case|" +:+ escrowID +:+ "|" +:+ termsHash).

Definition OpenAppeal (terms openBlock escrowID : string) (bonded exclude : list string) (prior : string) (b : Book)
  : Book * result Brief :=
  let terms := stringsTrim terms in
  if String.eqb terms "" || String.eqb escrowID "" then (b, Err "terms and escrow id required")
  else match bk_byEscrow b !! escrowID with
  | Some id =>
      match bk_cases b !! id with
      | Some c => let br := withPrior prior (c_brief c) in (putCase id (withBrief br c) b, Ok br)
      | None => (b, Err "nil case") (* nil dereference: the index always names a case *)
      end
  | None =>
      let pool := match bk_roster b with [] => bonded | r => r end in
      match PickFive (PanelSeed escrowID terms PanelInstanceFirst PanelGenerationFirst) pool exclude with
      | Err m => (b, Err m)
      | Ok panel =>
          let hash := sha256Hex terms in
          let caseID := caseIDFor escrowID hash in
          if String.eqb caseID escrowID then (b, Err "case id collided with escrow id")
          else
          let brief := mkBrief caseID terms hash prior false in
          let c := mkCase brief escrowID panel (list_to_set panel) ∅ ∅ "" (parseUint openBlock) false
                     PanelInstanceFirst PanelGenerationFirst in
          (mkBook (<[caseID := c]> (bk_cases b)) (<[escrowID := caseID]> (bk_byEscrow b)) (bk_roster b) (bk_height b),
           Ok brief)
      end
  end.

Definition Open (terms openBlock escrowID : string) (bonded exclude : list string) (b : Book) : Book * result Brief :=
  OpenAppeal terms openBlock escrowID bonded exclude "" b.

Definition Commit (caseID key verdictHash : string) (b : Book) : Book * result unit :=
  match bk_cases b !! caseID with
  | None => (b, Err "unknown case")
  | Some c =>
      if negb (bool_decide (key ∈ c_panelSet c)) then (b, Err "not on the panel")
      else match c_commits c !! key with
      | Some _ => (b, Err "already committed")
      | None =>
          if String.eqb verdictHash "" then (b, Err "verdict hash required")
          else (putCase caseID (withCommits (<[key := verdictHash]> (c_commits c)) c) b, Ok ())
      end
  end.

Definition RevealNonce (caseID key verdict nonce : string) (b : Book) : Book * result unit :=
  if negb (String.eqb verdict VerdictFulfilled) && negb (String.eqb verdict VerdictNotFulfilled)
  then (b, Err "verdict must be fulfilled or not-fulfilled")
  else match bk_cases b !! caseID with
  | None => (b, Err "unknown case")
  | Some c =>
      if negb (bool_decide (key ∈ c_panelSet c)) then (b, Err "not on the panel")
      else if negb (bool_decide (c_commits c !! key = Some (HashCommit verdict nonce)))
      then (b, Err "reveal does not match commit")
      else match c_reveals c !! key with
      | Some _ => (b, Err "already revealed")
      | None =>
          let c := withReveals (<[key := verdict]> (c_reveals c)) c in
          let c := if c_frozen c then settleQuorum c else c in
          (putCase caseID c b, Ok ())
      end
  end.

Definition Reveal (caseID key verdict : string) (b : Book) : Book * result unit :=
  RevealNonce caseID key verdict "" b.

Definition Reveals (caseID : string) (b : Book) : result (gmap string string) :=
  match bk_cases b !! caseID with
  | None => Err "unknown case"
  | Some c => Ok (if c_frozen c then c_reveals c else ∅)
  end.

(** [Quorum] also freezes a case whose deadline has passed. *)
Definition Quorum (caseID : string) (b : Book) : Book * option string :=
  match bk_cases b !! caseID with
  | None => (b, None)
  | Some c =>
      let c := if negb (c_frozen c) && (c_deadline c <? bk_height b) then freeze c else c in
      if negb (c_frozen c) then (b, None)
      else
      let c := settleQuorum c in
      (putCase caseID c b, if String.eqb (c_quorum c) "" then None else Some (coreOutcome (c_quorum c)))
  end.

Definition TimeoutAllowed (caseID : string) (b : Book) : result unit :=
  match bk_cases b !! caseID with
  | None => Err "unknown case"
  | Some c => if String.eqb (c_quorum c) "" then Err "timeout refused: dispute has no quorum" else Ok ()
  end.

Definition Panel (caseID : string) (b : Book) : option (list string) := c_panel <$> bk_cases b !! caseID.

Definition BriefOf (caseID : string) (b : Book) : option Brief :=
  match bk_cases b !! caseID with
  | None => None
  | Some c => let br := c_brief c in
              Some (mkBrief (br_CaseID br) (br_Terms br) (br_TermsHash br) (br_PriorResult br) (c_frozen c))
  end.

Definition BriefsFor (addr : string) (b : Book) : list Brief :=
  SliceStable (fun x y => str_ltb (br_CaseID x) (br_CaseID y))
    (c_brief <$> filter (fun c => addr ∈ c_panelSet c) (range (bk_cases b)).*2).

(** ** Persistence *)

Record persistCase := mkPersist {
  p_Brief : Brief; p_EscrowID : string; p_Panel : list string; p_Commits : gmap string string;
  p_Reveals : gmap string string; p_Quorum : string; p_Deadline : Z; p_Frozen : bool; p_Instance : Z; p_Generation : Z
}.

Record persistSnap := mkSnap { s_Roster : list string; s_Height : Z; s_Cases : list persistCase }.

Definition persist (c : cse) : persistCase :=
  mkPersist (c_brief c) (c_escrowID c) (c_panel c) (c_commits c) (c_reveals c) (c_quorum c) (c_deadline c)
    (c_frozen c) (c_instance c) (c_generation c).

Definition toCase (p : persistCase) : cse :=
  mkCase (p_Brief p) (p_EscrowID p) (p_Panel p) (list_to_set (p_Panel p)) (p_Commits p) (p_Reveals p) (p_Quorum p)
    (p_Deadline p) (p_Frozen p) (p_Instance p) (p_Generation p).

Definition flush (b : Book) : persistSnap :=
  mkSnap (bk_roster b) (bk_height b) (persist <$> (range (bk_cases b)).*2).

Definition loadCase (b : Book) (row : persistCase) : Book :=
  let c := toCase row in
  mkBook (<[br_CaseID (c_brief c) := c]> (bk_cases b)) (<[c_escrowID c := br_CaseID (c_brief c)]> (bk_byEscrow b))
    (bk_roster b) (bk_height b).

(** [OpenBook]; [None]: no path, no file or no JSON. *)
Definition OpenBook (file : option persistSnap) : Book :=
  match file with
  | None => NewBook
  | Some snap => foldl loadCase (mkBook ∅ ∅ (s_Roster snap) (s_Height snap)) (s_Cases snap)
  end.
End Book.

(** ** escrow_read.go *)

Record CoreEscrow := mkEscrow {
  e_EscrowID : string; e_Creator : string; e_Beneficiary : string; e_Node : string; e_Amount : Z;
  e_PeacefulFee : Z; e_ReservedFee : Z; e_Asset : string; e_Purpose : string; e_Status : string; e_ExpiresAt : Z
}.

Definition DealsForAddress (rows : list CoreEscrow) (address : string) : list CoreEscrow :=
  let address := TrimSpace address in
  filter (fun r => String.eqb (e_Purpose r) "deal"
                   && (EqualFold (e_Creator r) address || EqualFold (e_Beneficiary r) address) = true) rows.

Definition DealByID (rows : list CoreEscrow) (id : string) : option CoreEscrow :=
  snd <$> list_find (fun r => String.eqb (e_EscrowID r) id && String.eqb (e_Purpose r) "deal" = true) rows.
