(* ===== verification/DealsSpec.v ===== *)
(** * Contracts of the volunteer panel

    Proofs about file Deals: the panel is five distinct eligible volunteers and
    depends only on the set of candidates, the quorum does not depend on the
    order of the map and is final, commits and reveals are once-only and match,
    the file on disk restores the book. *)

From S2P Require Import Prelude GoStd Sha256 Dag Deals.
From stdpp Require Import sorting.

#[local] Open Scope Z_scope.

(** ** Panel selection *)

Lemma uniqueFrom_spec keys : forall seen,
  NoDup (uniqueFrom seen keys) /\
  forall k, k ∈ uniqueFrom seen keys <-> k ∈ keys /\ k <> "" /\ k ∉ seen.
Proof.
  induction keys as [|x keys IH]; intros seen; simpl.
  { split; [constructor|]. set_solver. }
  destruct (String.eqb x "") eqn:Ex; bools.
  { destruct (IH seen) as [H1 H2]. split; [done|]. intros k. rewrite H2. set_solver. }
  case_decide as Hs.
  { destruct (IH seen) as [H1 H2]. split; [done|]. intros k. rewrite H2. set_solver. }
  destruct (IH ({[x]} ∪ seen)) as [H1 H2]. split.
  - constructor; [|done]. rewrite H2. set_solver.
  - intros k. rewrite elem_of_cons, H2. destruct (decide (k = x)) as [->|]; set_solver.
Qed.

#[export] Instance str_le_antisym : AntiSymm (=) str_le.
Proof. intros a b Hab Hba. symmetry. by apply str_ltb_total. Qed.

Lemma SortStrings_perm l : SortStrings l ≡ₚ l.
Proof. apply merge_sort_Permutation. Qed.

Lemma SortStrings_canonical l1 l2 : l1 ≡ₚ l2 -> SortStrings l1 = SortStrings l2.
Proof.
  intros H. unfold SortStrings. apply (StronglySorted_unique str_le).
  - apply StronglySorted_merge_sort; apply _.
  - apply StronglySorted_merge_sort; apply _.
  - by rewrite !(merge_sort_Permutation str_le).
Qed.

Lemma eligibleOf_spec bonded exclude :
  NoDup (eligibleOf bonded exclude) /\
  forall k, k ∈ eligibleOf bonded exclude <-> k ∈ bonded /\ k <> "" /\ k ∉ exclude.
Proof.
  unfold eligibleOf.
  destruct (uniqueFrom_spec bonded (list_to_set (filter (fun e => e <> "") exclude))) as [Hnd Hel].
  rewrite SortStrings_perm. split; [done|]. intros k. rewrite SortStrings_perm, Hel, elem_of_list_to_set, list_elem_of_filter.
  naive_solver.
Qed.

Lemma eligibleOf_canonical b1 b2 exclude :
  (forall k, k ∈ b1 <-> k ∈ b2) -> eligibleOf b1 exclude = eligibleOf b2 exclude.
Proof.
  intros H. unfold eligibleOf. apply SortStrings_canonical. apply NoDup_Permutation; try apply uniqueFrom_spec.
  intros k. rewrite !(proj2 (uniqueFrom_spec _ _)). by rewrite H.
Qed.

Lemma remove_at_perm (l : list string) i x : l !! i = Some x -> l ≡ₚ x :: (take i l ++ drop (S i) l).
Proof.
  intros H. rewrite <- (take_drop_middle l i x H) at 1. by rewrite <- Permutation_middle.
Qed.

Lemma seatFrom_spec seed n : forall seat remaining,
  NoDup remaining -> (n <= length remaining)%nat ->
  length (seatFrom seed seat n remaining) = n /\ NoDup (seatFrom seed seat n remaining) /\
  seatFrom seed seat n remaining ⊆+ remaining.
Proof.
  induction n as [|n IH]; intros seat remaining Hnd Hlen; simpl.
  { split; [done|]. split; [constructor|apply submseteq_nil_l]. }
  set (h := Sum256 _). set (idx := Z.to_nat _).
  assert (Hidx : (idx < length remaining)%nat).
  { subst idx. pose proof (Z.mod_pos_bound (fromBigEndian (take 8 h)) (Z.of_nat (length remaining))). lia. }
  destruct (lookup_lt_is_Some_2 _ _ Hidx) as [p Hp]. rewrite Hp.
  pose proof (remove_at_perm remaining idx p Hp) as Hperm.
  assert (Hnd' : NoDup (p :: (take idx remaining ++ drop (S idx) remaining))) by (by rewrite <- Hperm).
  apply NoDup_cons in Hnd' as [Hpn Hnd'].
  destruct (IH (seat + 1) (take idx remaining ++ drop (S idx) remaining)) as (H1 & H2 & H3); [done| |].
  { apply Permutation_length in Hperm. simpl in Hperm. lia. }
  split; [simpl; by rewrite H1|]. split.
  - constructor; [|done]. intros Hin. apply Hpn. by apply (elem_of_submseteq _ _ _ Hin H3).
  - etransitivity; [by apply submseteq_skip, H3|]. by apply Permutation_submseteq.
Qed.

Lemma PickFive_ok seed bonded exclude panel :
  PickFive seed bonded exclude = Ok panel -> length panel = 5%nat /\ NoDup panel.
Proof.
  unfold PickFive. destruct (_ <? 5)%nat eqn:E; [done|]. apply Nat.ltb_ge in E. intros H.
  destruct (seatFrom_spec seed 5 0 _ (proj1 (eligibleOf_spec bonded exclude)) E) as (H1 & H2 & _).
  remember (seatFrom seed 0 5 (eligibleOf bonded exclude)) as l. by simplify_eq.
Qed.

(** the panel. [PickFive] fails exactly when fewer than five distinct
    volunteers are eligible; otherwise it seats five distinct, non-empty,
    non-excluded candidates, and two gateways that know the same set of
    candidates (in any order, with any repetition) seat the same panel in the
    same order. *)
Theorem panel_five_distinct_eligible seed bonded exclude :
  match PickFive seed bonded exclude with
  | Ok panel =>
      length panel = 5%nat /\ NoDup panel /\
      (forall p, p ∈ panel -> p ∈ bonded /\ p <> "" /\ p ∉ exclude)
  | Err _ =>
      ~ exists l, NoDup l /\ length l = 5%nat /\ forall p, p ∈ l -> p ∈ bonded /\ p <> "" /\ p ∉ exclude
  end /\
  (forall bonded', (forall k, k ∈ bonded <-> k ∈ bonded') -> PickFive seed bonded' exclude = PickFive seed bonded exclude).
Proof.
  split.
  - unfold PickFive. destruct (eligibleOf_spec bonded exclude) as [Hnd Hel].
    destruct (_ <? 5)%nat eqn:E.
    + apply Nat.ltb_lt in E. intros (l & Hl & Hlen & Hin).
      assert (Hsub : l ⊆+ eligibleOf bonded exclude).
      { apply NoDup_submseteq; [done|]. intros p Hp. by apply Hel, Hin. }
      apply submseteq_length in Hsub. lia.
    + apply Nat.ltb_ge in E. destruct (seatFrom_spec seed 5 0 _ Hnd E) as (H1 & H2 & H3).
      split; [done|]. split; [done|]. intros p Hp. apply Hel. by apply (elem_of_submseteq _ _ _ Hp H3).
  - intros bonded' H. unfold PickFive. by rewrite (eligibleOf_canonical bonded bonded' exclude H).
Qed.

(** ** Quorum *)

Lemma quorumScan_spec vs : forall counts,
  (forall v, 0 <= cnt counts v < 3) ->
  match quorumScan counts vs with
  | Some v => 3 <= cnt counts v + occ vs v
  | None => forall v, cnt counts v + occ vs v < 3
  end.
Proof.
  induction vs as [|x vs IH]; intros counts Hc; simpl.
  { intros v. specialize (Hc v). unfold occ. simpl. lia. }
  change (default 0 (counts !! x)) with (cnt counts x). destruct (3 <=? _) eqn:E; bools.
  - rewrite occ_cons, decide_True by done. pose proof (occ_nonneg vs x). lia.
  - assert (Hc' : forall v, 0 <= cnt (<[x := cnt counts x + 1]> counts) v < 3).
    { intros v. rewrite cnt_insert. case_decide; [subst; specialize (Hc v); lia|apply Hc]. }
    specialize (IH _ Hc'). destruct (quorumScan _ vs) as [v|].
    + rewrite cnt_insert in IH. rewrite occ_cons. destruct (decide (x = v)); subst; lia.
    + intros v. specialize (IH v). rewrite cnt_insert in IH. rewrite occ_cons. destruct (decide (x = v)); subst; lia.
Qed.

(** The number of reveals of one verdict. *)
Definition votesFor (v : string) (reveals : gmap string string) : Z := occ (map_to_list reveals).*2 v.

Lemma quorumOf_spec {R : GoRange} reveals :
  match quorumOf reveals with
  | Some v => 3 <= votesFor v reveals
  | None => forall v, votesFor v reveals < 3
  end.
Proof.
  unfold quorumOf, votesFor.
  assert (Hocc : forall v, occ (range reveals).*2 v = occ (map_to_list reveals).*2 v).
  { apply occ_perm. by rewrite range_perm. }
  pose proof (quorumScan_spec (range reveals).*2 ∅) as H.
  assert (H0 : forall v, cnt ∅ v = 0) by (intros v; unfold cnt; by rewrite lookup_empty).
  specialize (H ltac:(intros v; rewrite H0; lia)).
  destruct (quorumScan ∅ _) as [v|]; [|intros v; specialize (H v)]; rewrite H0, Hocc in H; lia.
Qed.

Lemma occ_two_le (l : list string) a b : a <> b -> occ l a + occ l b <= Z.of_nat (length l).
Proof.
  intros Hab. induction l as [|x l IH]; [done|]. rewrite !occ_cons. cbn [length].
  repeat case_decide; subst; try done; lia.
Qed.

Lemma quorum_unique reveals a b :
  (size reveals <= 5)%nat -> 3 <= votesFor a reveals -> 3 <= votesFor b reveals -> a = b.
Proof.
  unfold votesFor. intros Hs Ha Hb. destruct (decide (a = b)) as [|Hne]; [done|]. exfalso.
  pose proof (occ_two_le (map_to_list reveals).*2 a b Hne) as H.
  rewrite length_fmap, length_map_to_list in H. lia.
Qed.

(** ** The invariant of a book *)

Record case_wf (c : cse) : Prop := mkCaseWf {
  cw_panel : length (c_panel c) = 5%nat /\ NoDup (c_panel c) /\ c_panelSet c = list_to_set (c_panel c);
  cw_commits : dom (c_commits c) ⊆ c_panelSet c;
  cw_reveals : forall k v, c_reveals c !! k = Some v ->
    (v = VerdictFulfilled \/ v = VerdictNotFulfilled) /\ exists nonce, c_commits c !! k = Some (HashCommit v nonce);
  cw_quorum : c_quorum c <> "" -> c_frozen c = true /\ 3 <= votesFor (c_quorum c) (c_reveals c)
}.

Record book_wf (b : Book) : Prop := mkBookWf {
  bw_case : forall id c, bk_cases b !! id = Some c ->
    case_wf c /\ br_CaseID (c_brief c) = id /\ bk_byEscrow b !! c_escrowID c = Some id;
  bw_escrow : forall e id, bk_byEscrow b !! e = Some id ->
    exists c, bk_cases b !! id = Some c /\ c_escrowID c = e
}.

Lemma reveals_at_most_five c : case_wf c -> (size (c_reveals c) <= 5)%nat.
Proof.
  intros [(Hlen & Hnd & Hset) Hc Hr _]. rewrite <- size_dom.
  assert (Hsub : dom (c_reveals c) ⊆ c_panelSet c).
  { intros k Hk. apply elem_of_dom in Hk as [v Hv]. apply Hr in Hv as [_ [nonce Hn]].
    apply Hc, elem_of_dom. by eexists. }
  apply subseteq_size in Hsub. rewrite Hset, size_list_to_set in Hsub by done. lia.
Qed.

Lemma votesFor_insert reveals k v w :
  reveals !! k = None ->
  votesFor w (<[k := v]> reveals) = votesFor w reveals + (if decide (v = w) then 1 else 0).
Proof.
  intros Hk. unfold votesFor.
  assert (Hp : (map_to_list (<[k := v]> reveals)).*2 ≡ₚ v :: (map_to_list reveals).*2) by by rewrite map_to_list_insert.
  rewrite (proj2 (occ_perm _ _) Hp). apply occ_cons.
Qed.

Section Book.
Context {R : GoRange}.

(** The cases of a book over time: seats and escrow fixed, commits and reveals
    only grow, a frozen case stays frozen, a quorum never changes. *)
Definition case_le (c c' : cse) : Prop :=
  c_panel c' = c_panel c /\ c_escrowID c' = c_escrowID c /\ br_Terms (c_brief c') = br_Terms (c_brief c) /\
  c_commits c ⊆ c_commits c' /\ c_reveals c ⊆ c_reveals c' /\
  (c_frozen c = true -> c_frozen c' = true) /\ (c_quorum c <> "" -> c_quorum c' = c_quorum c).

#[export] Instance case_le_preorder : PreOrder case_le.
Proof.
  split; [by intros c; repeat split|].
  intros a b c (A1 & A2 & A3 & A4 & A5 & A6 & A7) (B1 & B2 & B3 & B4 & B5 & B6 & B7).
  repeat split; try congruence; [by etransitivity|by etransitivity|auto|].
  intros Hq. rewrite B7; [by apply A7|]. by rewrite A7.
Qed.

Lemma settleQuorum_le c : case_le c (settleQuorum c).
Proof. unfold settleQuorum. repeat case_match; bools; by repeat split. Qed.

Lemma settleQuorum_wf c : case_wf c -> c_frozen c = true -> case_wf (settleQuorum c).
Proof.
  intros Hwf Hf. unfold settleQuorum. destruct (String.eqb _ _); [|done].
  pose proof (quorumOf_spec (c_reveals c)) as Hq. destruct (quorumOf _) as [q|]; [|done].
  destruct Hwf. by split.
Qed.

Lemma freeze_wf c : case_wf c -> case_wf (freeze c).
Proof. intros [H1 H2 H3 H4]. split; try done. intros Hq. split; [done|]. by apply H4. Qed.

Lemma freeze_le c : case_le c (freeze c).
Proof. by repeat split. Qed.

#[local] Hint Resolve settleQuorum_wf freeze_wf settleQuorum_le freeze_le : gateway.

(** An update of one case in place keeps the book well formed. *)
Lemma putCase_wf b id c c' :
  book_wf b -> bk_cases b !! id = Some c -> case_wf c' -> case_le c c' -> br_CaseID (c_brief c') = br_CaseID (c_brief c) ->
  book_wf (putCase id c' b).
Proof.
  intros [Hc He] Hl Hwf (_ & Hesc & _) Hid. destruct (Hc id c Hl) as (_ & Hi & Hb). split; cbn.
  - intros i x. destruct (decide (id = i)) as [<-|Hne].
    + rewrite lookup_insert_eq. intros [= <-]. by rewrite Hesc, Hid.
    + rewrite lookup_insert_ne by done. apply Hc.
  - intros e i Hei. destruct (He e i Hei) as (x & Hx & Hxe).
    destruct (decide (id = i)) as [<-|Hne]; [rewrite lookup_insert_eq|rewrite lookup_insert_ne by done; eauto].
    exists c'. split; [done|]. congruence.
Qed.

Definition book_le (b b' : Book) : Prop :=
  forall id c, bk_cases b !! id = Some c -> exists c', bk_cases b' !! id = Some c' /\ case_le c c'.

#[export] Instance book_le_preorder : PreOrder book_le.
Proof.
  split; [intros b id c H; exists c; split; [done|reflexivity]|].
  intros b1 b2 b3 H12 H23 id c H. destruct (H12 id c H) as (c2 & H2 & L2). destruct (H23 id c2 H2) as (c3 & H3 & L3).
  exists c3. split; [done|]. by etransitivity.
Qed.

Lemma putCase_le b id c c' : bk_cases b !! id = Some c -> case_le c c' -> book_le b (putCase id c' b).
Proof.
  intros Hl Hle i x Hx. cbn. destruct (decide (id = i)) as [<-|Hne].
  - rewrite lookup_insert_eq. simplify_eq. eauto.
  - rewrite lookup_insert_ne by done. exists x. split; [done|reflexivity].
Qed.

(** ** The operations *)

Lemma SetRoster_ok keys b : book_wf b -> book_wf (SetRoster keys b) /\ book_le b (SetRoster keys b).
Proof. intros [H1 H2]. split; [by split|]. intros id c H. exists c. split; [done|reflexivity]. Qed.

Lemma SetHeight_ok h b : book_wf b -> book_wf (SetHeight h b) /\ book_le b (SetHeight h b).
Proof.
  intros [Hc He]. unfold SetHeight. set (g := fun c : cse => if negb (c_frozen c) && (c_deadline c <? h) then settleQuorum (freeze c) else c).
  assert (Hg : forall c, case_wf c -> case_wf (g c) /\ case_le c (g c) /\ br_CaseID (c_brief (g c)) = br_CaseID (c_brief c)).
  { intros c Hw. subst g. cbn. destruct (negb (c_frozen c) && _); [|by split; [|split; [reflexivity|]]].
    split; [by auto with gateway|]. split; [etransitivity; [apply freeze_le|apply settleQuorum_le]|].
    unfold settleQuorum. by repeat case_match. }
  assert (Hle : book_le b (mkBook (g <$> bk_cases b) (bk_byEscrow b) (bk_roster b) h)).
  { intros id c Hl. destruct (Hc id c Hl) as (Hw & _). exists (g c). cbn. rewrite lookup_fmap, Hl. split; [done|]. by apply Hg. }
  split; [|done]. split; cbn.
  - intros id c. rewrite lookup_fmap. destruct (bk_cases b !! id) as [c0|] eqn:El; [|done]. intros [= <-].
    destruct (Hc id c0 El) as (Hw & Hi & Hb). destruct (Hg c0 Hw) as (? & (_ & -> & _) & ->). done.
  - intros e id Hei. destruct (He e id Hei) as (c & Hl & Hce). exists (g c). rewrite lookup_fmap, Hl.
    split; [done|]. destruct (Hc id c Hl) as (Hw & _). by destruct (Hg c Hw) as (_ & (_ & -> & _) & _).
Qed.

Lemma Commit_ok id key vh b : book_wf b -> book_wf (Commit id key vh b).1 /\ book_le b (Commit id key vh b).1.
Proof.
  intros Hwf. unfold Commit. destruct (bk_cases b !! id) as [c|] eqn:Hl; [|by split].
  case_bool_decide as Hp; [|by split]. cbn. destruct (c_commits c !! key) eqn:Ec; [by split|].
  destruct (String.eqb vh ""); [by split|]. cbn. destruct (bw_case b Hwf id c Hl) as (Hcw & _).
  assert (Hle : case_le c (withCommits (<[key := vh]> (c_commits c)) c)).
  { repeat split; try done. cbn. by apply insert_subseteq. }
  split; [|by eapply putCase_le]. eapply putCase_wf; try done.
  destruct Hcw as [H1 H2 H3 H4]. split; cbn; [done| | |done].
  - rewrite dom_insert. set_solver.
  - intros k v Hk. destruct (H3 k v Hk) as [? [nonce Hn]]. split; [done|]. exists nonce.
    rewrite lookup_insert_ne; [done|]. congruence.
Qed.

Lemma Reveal_ok id key v nonce b :
  book_wf b -> book_wf (RevealNonce id key v nonce b).1 /\ book_le b (RevealNonce id key v nonce b).1.
Proof.
  intros Hwf. unfold RevealNonce. destruct (negb _ && negb _) eqn:Ev; [by split|].
  destruct (bk_cases b !! id) as [c|] eqn:Hl; [|by split].
  case_bool_decide as Hp; [|by split]. cbn. case_bool_decide as Hc; [|by split]. cbn.
  destruct (c_reveals c !! key) eqn:Er; [by split|]. cbn [fst].
  destruct (bw_case b Hwf id c Hl) as (Hcw & _).
  set (c1 := withReveals (<[key := v]> (c_reveals c)) c).
  assert (Hle : case_le c c1) by (repeat split; try done; cbn; by apply insert_subseteq).
  assert (Hw1 : case_wf c1).
  { destruct Hcw as [H1 H2 H3 H4]. split; cbn; [done|done| |].
    - intros k w. destruct (decide (key = k)) as [<-|Hne].
      + rewrite lookup_insert_eq. intros [= <-]. split; [|by exists nonce].
        apply andb_false_iff in Ev as [Ev|Ev]; bools; auto.
      + rewrite lookup_insert_ne by done. apply H3.
    - intros Hq. destruct (H4 Hq) as [Hf Hv]. split; [done|]. rewrite votesFor_insert by done. case_decide; lia. }
  change (c_frozen (withReveals (<[key := v]> (c_reveals c)) c)) with (c_frozen c). fold c1.
  assert (Hfin : case_wf (if c_frozen c then settleQuorum c1 else c1) /\ case_le c (if c_frozen c then settleQuorum c1 else c1)
    /\ br_CaseID (c_brief (if c_frozen c then settleQuorum c1 else c1)) = br_CaseID (c_brief c)).
  { destruct (c_frozen c) eqn:Ef; [|done]. split; [by apply settleQuorum_wf|].
    split; [etransitivity; [exact Hle|apply settleQuorum_le]|]. unfold settleQuorum. by repeat case_match. }
  destruct Hfin as (Hf1 & Hf2 & Hf3). split; [by eapply putCase_wf|by eapply putCase_le].
Qed.

Lemma Quorum_ok id b : book_wf b -> book_wf (Quorum id b).1 /\ book_le b (Quorum id b).1.
Proof.
  intros Hwf. unfold Quorum. destruct (bk_cases b !! id) as [c|] eqn:Hl; [|by split].
  destruct (bw_case b Hwf id c Hl) as (Hcw & _). set (c1 := if negb (c_frozen c) && (c_deadline c <? bk_height b) then freeze c else c).
  assert (H1 : case_wf c1 /\ case_le c c1 /\ br_CaseID (c_brief c1) = br_CaseID (c_brief c)).
  { subst c1. destruct (_ && _); [split; [by apply freeze_wf|done]|split; [done|split; [reflexivity|done]]]. }
  destruct H1 as (Hw1 & Hle1 & Hid1). destruct (c_frozen c1) eqn:Ef; cbn; [|by split].
  assert (Hid2 : br_CaseID (c_brief (settleQuorum c1)) = br_CaseID (c_brief c))
    by (rewrite <- Hid1; unfold settleQuorum; by repeat case_match).
  assert (case_le c (settleQuorum c1)) by (etransitivity; [exact Hle1|apply settleQuorum_le]).
  split; [eapply putCase_wf; try done; by apply settleQuorum_wf|by eapply putCase_le].
Qed.

(** Opening a case, when its id is not the id of another escrow's case. *)
Lemma OpenAppeal_ok terms ob esc bonded excl prior b :
  book_wf b -> bk_cases b !! caseIDFor esc (sha256Hex (stringsTrim terms)) = None \/ bk_byEscrow b !! esc <> None ->
  book_wf (OpenAppeal terms ob esc bonded excl prior b).1 /\ book_le b (OpenAppeal terms ob esc bonded excl prior b).1.
Proof.
  intros Hwf Hfresh. unfold OpenAppeal. destruct (_ || _); [by split|].
  destruct (bk_byEscrow b !! esc) as [id|] eqn:Ee.
  - destruct (bk_cases b !! id) as [c|] eqn:Hl; [|by split]. cbn. destruct (bw_case b Hwf id c Hl) as (Hcw & _).
    assert (case_le c (withBrief (withPrior prior (c_brief c)) c)) by by repeat split.
    split; [|by eapply putCase_le]. eapply putCase_wf; try done. destruct Hcw. by split.
  - destruct Hfresh as [Hfresh|?]; [|done].
    destruct (PickFive _ _ excl) as [panel|] eqn:Epf; [|by split]. destruct (String.eqb _ esc); [by split|].
    pose proof (PickFive_ok _ _ _ _ Epf) as Hpanel.
    cbn [fst]. set (cid := caseIDFor _ _) in *. set (c := mkCase _ _ _ _ _ _ _ _ _ _ _).
    assert (Hcw : case_wf c).
    { destruct Hpanel. split; cbn; [done|set_solver| |done]. intros k v Hk. by rewrite lookup_empty in Hk. }
    split.
    + split; cbn.
      * intros id x. destruct (decide (cid = id)) as [<-|Hne].
        -- rewrite lookup_insert_eq. intros [= <-]. split; [done|]. split; [done|]. cbn. apply lookup_insert_eq.
        -- rewrite lookup_insert_ne by done. intros Hx. destruct (bw_case b Hwf id x Hx) as (? & ? & Hb).
           split; [done|]. split; [done|]. rewrite lookup_insert_ne; [done|]. congruence.
      * intros e id. destruct (decide (esc = e)) as [<-|Hne].
        -- rewrite lookup_insert_eq. intros [= <-]. exists c. by rewrite lookup_insert_eq.
        -- rewrite lookup_insert_ne by done. intros Hb. destruct (bw_escrow b Hwf e id Hb) as (x & Hx & Hxe).
           exists x. rewrite lookup_insert_ne; [done|]. congruence.
    + intros id x Hx. cbn. rewrite lookup_insert_ne by congruence. exists x. split; [done|reflexivity].
Qed.

(** The operations of a running gateway on its book. [OpenAppeal] is taken
    where the new case id is not already another escrow's (no SHA-256 collision
    among the open cases). *)
Inductive book_step : Book -> Book -> Prop :=
| step_roster keys b : book_step b (SetRoster keys b)
| step_height h b : book_step b (SetHeight h b)
| step_open terms ob esc bonded excl prior b :
    bk_cases b !! caseIDFor esc (sha256Hex (stringsTrim terms)) = None \/ bk_byEscrow b !! esc <> None ->
    book_step b (OpenAppeal terms ob esc bonded excl prior b).1
| step_commit id key vh b : book_step b (Commit id key vh b).1
| step_reveal id key v nonce b : book_step b (RevealNonce id key v nonce b).1
| step_quorum id b : book_step b (Quorum id b).1.

Lemma book_step_ok b b' : book_step b b' -> book_wf b -> book_wf b' /\ book_le b b'.
Proof.
  destruct 1; eauto using SetRoster_ok, SetHeight_ok, OpenAppeal_ok, Commit_ok, Reveal_ok, Quorum_ok.
Qed.

Lemma book_steps_ok b b' : rtc book_step b b' -> book_wf b -> book_wf b' /\ book_le b b'.
Proof.
  induction 1 as [|b1 b2 b3 H12 _ IH]; intros Hwf; [by split|].
  destruct (book_step_ok _ _ H12 Hwf) as [Hwf2 Hle]. destruct (IH Hwf2) as [? ?].
  split; [done|]. by etransitivity.
Qed.

Lemma book_wf_new : book_wf NewBook.
Proof. split; cbn; intros ? ? H; by rewrite lookup_empty in H. Qed.

(** C21: the book in every reachable state. Each case has five distinct seats;
    only seated keys have committed; a reveal is "fulfilled" or "not-fulfilled"
    and hashes, with some nonce, to the commit of the same key; a recorded
    quorum belongs to a frozen case and has at least three reveals behind it;
    the escrow index and the cases name each other. *)
Theorem deal_book_invariant b (Hr : rtc book_step NewBook b) : book_wf b.
Proof. apply (book_steps_ok _ _ Hr), book_wf_new. Qed.

Lemma quorum_answer b id c o (Hcw : case_wf c) (Hc : bk_cases b !! id = Some c)
  (Hpast : c_frozen c = true \/ c_deadline c < bk_height b) :
  (Quorum id b).2 = Some o <-> exists v, 3 <= votesFor v (c_reveals c) /\ o = coreOutcome v.
Proof.
  unfold Quorum. rewrite Hc. set (c1 := if _ && _ then freeze c else c).
  assert (H1 : c_frozen c1 = true /\ c_reveals c1 = c_reveals c /\ c_quorum c1 = c_quorum c).
  { subst c1. destruct (c_frozen c) eqn:Ef; cbn [negb andb]; [done|]. destruct Hpast as [?|Hp]; [done|].
    by rewrite (proj2 (Z.ltb_lt _ _) Hp). }
  destruct H1 as (Hf1 & Hr1 & Hq1). rewrite Hf1. cbn [negb snd].
  pose proof (reveals_at_most_five c Hcw) as H5. unfold settleQuorum. rewrite Hq1, Hr1.
  destruct (String.eqb (c_quorum c) "") eqn:Eq; bools.
  - pose proof (quorumOf_spec (c_reveals c)) as Hs. destruct (quorumOf (c_reveals c)) as [q|].
    + assert (Hne : q <> "").
      { intros ->. unfold votesFor, occ in Hs.
        assert (Hin : "" ∈ (map_to_list (c_reveals c)).*2).
        { apply list_elem_of_In, (count_occ_In String.string_dec). lia. }
        apply list_elem_of_fmap in Hin as ([k v] & Hv & Hkv). cbn in Hv. subst v.
        apply elem_of_map_to_list in Hkv. by destruct (cw_reveals c Hcw _ _ Hkv) as [[?|?] _]. }
      cbn. rewrite (proj2 (String.eqb_neq _ _) Hne). split; [intros [= <-]; by exists q|].
      intros (v & Hv & ->). do 2 f_equal. by apply (quorum_unique (c_reveals c)).
    + rewrite Hq1, Eq, String.eqb_refl. split; [done|]. intros (v & Hv & _). specialize (Hs v). lia.
  - rewrite Hq1, (proj2 (String.eqb_neq _ _) Eq). destruct (cw_quorum c Hcw Eq) as [_ Hv].
    split; [intros [= <-]; by exists (c_quorum c)|]. intros (v & Hv' & ->). do 2 f_equal.
    by apply (quorum_unique (c_reveals c)).
Qed.

Lemma quorum_sound b id o (Hwf : book_wf b) :
  (Quorum id b).2 = Some o ->
  exists c v, bk_cases b !! id = Some c /\ case_wf c /\ (c_frozen c = true \/ c_deadline c < bk_height b) /\
    3 <= votesFor v (c_reveals c) /\ o = coreOutcome v.
Proof.
  intros Hq. destruct (bk_cases b !! id) as [c|] eqn:Hc; [|unfold Quorum in Hq; by rewrite Hc in Hq].
  destruct (bw_case b Hwf id c Hc) as (Hcw & _).
  assert (Hpast : c_frozen c = true \/ c_deadline c < bk_height b).
  { unfold Quorum in Hq. rewrite Hc in Hq. destruct (c_frozen c) eqn:Ef; [by left|]. cbn [negb andb] in Hq.
    destruct (Z.ltb_spec (c_deadline c) (bk_height b)); [by right|]. by rewrite Ef in Hq. }
  destruct (proj1 (quorum_answer b id c o Hcw Hc Hpast) Hq) as (v & Hv & Ho). by exists c, v.
Qed.

(** C22: the quorum is exact. For a case that is frozen or past its deadline,
    [Quorum] answers an outcome exactly when three panel members revealed the
    corresponding verdict; at most one verdict can have three, so the answer
    does not depend on the iteration order of the map. *)
Theorem quorum_exact b id c (Hr : rtc book_step NewBook b) (Hc : bk_cases b !! id = Some c)
  (Hpast : c_frozen c = true \/ c_deadline c < bk_height b) (o : string) :
  (Quorum id b).2 = Some o <-> exists v, 3 <= votesFor v (c_reveals c) /\ o = coreOutcome v.
Proof.
  destruct (book_steps_ok _ _ Hr book_wf_new) as [Hwf _]. destruct (bw_case b Hwf id c Hc) as (Hcw & _). by apply quorum_answer.
Qed.

(** a quorum is final. Once [Quorum] has answered an outcome, it answers
    the same outcome and the timeout is allowed in every later state, whatever
    is committed, revealed, opened or re-rostered and however the height moves;
    panel, terms and every earlier commit and reveal stay. *)
Theorem quorum_is_final b id o b2 (Hr : rtc book_step NewBook b)
  (Hq : (Quorum id b).2 = Some o) (Hs : rtc book_step (Quorum id b).1 b2) :
  (Quorum id b2).2 = Some o /\ TimeoutAllowed id b2 = Ok () /\
  exists c c2, bk_cases b !! id = Some c /\ bk_cases b2 !! id = Some c2 /\ case_le c c2.
Proof.
  destruct (book_steps_ok _ _ Hr book_wf_new) as [Hwf _]. destruct (Quorum_ok id b Hwf) as [Hwf1 Hle1].
  destruct (book_steps_ok _ _ Hs Hwf1) as [_ Hle2].
  destruct (bk_cases b !! id) as [c|] eqn:Hc; [|unfold Quorum in Hq; by rewrite Hc in Hq].
  assert (H1 : exists c1, bk_cases (Quorum id b).1 !! id = Some c1 /\ c_frozen c1 = true /\ c_quorum c1 <> "" /\
    o = coreOutcome (c_quorum c1)).
  { unfold Quorum in *. rewrite Hc in *. destruct (negb (c_frozen (if _ && _ then freeze c else c))) eqn:Ef; [done|].
    cbn [fst snd] in *. destruct (String.eqb _ "") eqn:Eq in Hq; [done|]. injection Hq as <-. bools.
    eexists. cbn. rewrite lookup_insert_eq. split; [done|]. split; [|done].
    destruct (settleQuorum_le (if negb (c_frozen c) && (c_deadline c <? bk_height b) then freeze c else c))
      as (_ & _ & _ & _ & _ & Hf & _). by apply Hf. }
  destruct H1 as (c1 & Hl1 & Hf1 & Hq1 & ->). destruct (Hle2 id c1 Hl1) as (c2 & Hl2 & Hle).
  destruct Hle as (_ & _ & _ & _ & _ & Hf2 & Hq2). specialize (Hf2 Hf1). specialize (Hq2 Hq1).
  split; [|split].
  - unfold Quorum. rewrite Hl2, Hf2. cbn [negb andb snd]. unfold settleQuorum.
    rewrite Hf2, Hq2, (proj2 (String.eqb_neq _ _) Hq1). cbn. by rewrite Hq2, (proj2 (String.eqb_neq _ _) Hq1).
  - unfold TimeoutAllowed. by rewrite Hl2, Hq2, (proj2 (String.eqb_neq _ _) Hq1).
  - exists c, c2. split; [done|]. split; [done|]. destruct (Hle1 id c Hc) as (c1' & Hc1' & L1). simplify_eq.
    destruct (Hle2 id c1 Hl1) as (c2' & Hc2' & L2). simplify_eq. by etransitivity.
Qed.

(** ** Persistence *)

Lemma loadCase_foldl rows b :
  foldl loadCase b rows =
  mkBook (foldl (fun m r => <[br_CaseID (p_Brief r) := toCase r]> m) (bk_cases b) rows)
         (foldl (fun m r => <[p_EscrowID r := br_CaseID (p_Brief r)]> m) (bk_byEscrow b) rows)
         (bk_roster b) (bk_height b).
Proof. revert b. induction rows as [|r rows IH]; intros b; [by destruct b|]. cbn [foldl]. by rewrite IH. Qed.

Lemma toCase_persist c : case_wf c -> toCase (persist c) = c.
Proof. intros [(_ & _ & Hs) _ _ _]. unfold toCase, persist. cbn. rewrite <- Hs. by destruct c. Qed.

(** the book survives a restart. Opening the file that [flushLocked]
    writes for a book gives back the same book: cases, escrow index, roster and
    height. *)
Theorem deal_book_roundtrip b (Hr : rtc book_step NewBook b) : OpenBook (Some (flush b)) = b.
Proof.
  destruct (book_steps_ok _ _ Hr book_wf_new) as [Hwf _].
  assert (Hrow : forall r, r ∈ persist <$> (range (bk_cases b)).*2 <-> exists id c, bk_cases b !! id = Some c /\ r = persist c).
  { intros r. rewrite list_elem_of_fmap. split.
    - intros (c & -> & ([id c'] & -> & Hin%elem_of_range)%list_elem_of_fmap). by exists id, c'.
    - intros (id & c & Hl & ->). exists c. split; [done|]. apply list_elem_of_fmap. exists (id, c). split; [done|].
      by apply elem_of_range. }
  assert (Hnd : forall (f : cse -> string), (forall i j x y, bk_cases b !! i = Some x -> bk_cases b !! j = Some y ->
    f x = f y -> i = j) -> NoDup ((fun kv => f kv.2) <$> range (bk_cases b))).
  { intros f Hinj. apply NoDup_fmap_2_strong; [|rewrite range_perm; apply NoDup_map_to_list].
    intros [i x] [j y] Hi%elem_of_range Hj%elem_of_range He. cbn in He.
    assert (i = j) as -> by (by eapply Hinj). congruence. }
  unfold OpenBook. rewrite loadCase_foldl. cbn [flush s_Cases s_Roster s_Height bk_cases bk_byEscrow bk_roster bk_height].
  destruct b as [cases byEscrow roster height]. cbn [bk_cases bk_byEscrow bk_roster bk_height] in *. f_equal; apply map_eq; intros k; apply option_eq; intros v.
  - rewrite (foldl_insert_lookup (fun r => br_CaseID (p_Brief r)) toCase).
    + rewrite lookup_empty. split.
      * intros [(r & (id & c & Hl & ->)%Hrow & <- & <-)|[_ ?]]; [|done].
        destruct (bw_case _ Hwf id c Hl) as (Hcw & Hid & _). cbn [persist p_Brief]. by rewrite toCase_persist, Hid.
      * intros Hl. left. exists (persist v). destruct (bw_case _ Hwf k v Hl) as (Hcw & Hid & _).
        split; [apply Hrow; by exists k, v|]. split; [done|]. by apply toCase_persist.
    + rewrite <- !list_fmap_compose. apply (Hnd (fun c => br_CaseID (c_brief c))).
      intros i j x y Hi Hj He. destruct (bw_case _ Hwf i x Hi) as (_ & <- & _). by destruct (bw_case _ Hwf j y Hj) as (_ & <- & _).
  - rewrite (foldl_insert_lookup p_EscrowID (fun r => br_CaseID (p_Brief r))).
    + rewrite lookup_empty. split.
      * intros [(r & (id & c & Hl & ->)%Hrow & <- & <-)|[_ ?]]; [|done].
        destruct (bw_case _ Hwf id c Hl) as (_ & Hid & Hb). cbn [persist p_Brief p_EscrowID]. by rewrite Hid.
      * intros Hb. destruct (bw_escrow _ Hwf k v Hb) as (c & Hl & Hce). left. exists (persist c).
        destruct (bw_case _ Hwf v c Hl) as (_ & Hid & _). split; [apply Hrow; by exists v, c|]. done.
    + rewrite <- !list_fmap_compose. apply (Hnd c_escrowID). intros i j x y Hi Hj He.
      destruct (bw_case _ Hwf i x Hi) as (_ & _ & H1). destruct (bw_case _ Hwf j y Hj) as (_ & _ & H2).
      rewrite He in H1. cbn in *. congruence.
Qed.
End Book.

(** ** Witnesses *)

#[local] Instance dealsRange : GoRange := canonical_range.

Definition demoVolunteers : list string := ["v1"; "v2"; "v3"; "v4"; "v5"; "v6"; ""; "v3"].

Definition openedBook : Book := (Open " deliver the goods " "10" "escrow-1" demoVolunteers ["v6"] NewBook).1.

Definition demoCaseID : string := caseIDFor "escrow-1" (sha256Hex "deliver the goods").

Definition voted (b : Book) (key : string) : Book :=
  (Reveal demoCaseID key VerdictFulfilled (Commit demoCaseID key (HashVerdict VerdictFulfilled) b).1).1.

Definition votedBook : Book := SetHeight 11 (voted (voted (voted openedBook "v1") "v2") "v3").

Lemma votedBook_reachable : rtc book_step NewBook votedBook.
Proof.
  assert (Hv : forall b key, rtc book_step NewBook b -> rtc book_step NewBook (voted b key)).
  { intros b key H. etransitivity; [exact H|]. unfold voted, Reveal.
    eapply rtc_l; [apply step_commit|]. eapply rtc_l; [apply step_reveal|]. constructor. }
  unfold votedBook. eapply rtc_r; [|apply step_height]. do 3 apply Hv.
  eapply rtc_l; [apply (step_open " deliver the goods " "10" "escrow-1" demoVolunteers ["v6"] ""); left; apply lookup_empty|].
  constructor.
Qed.

Lemma deal_book_invariant_witness : rtc book_step NewBook votedBook /\ book_wf votedBook.
Proof. split; [exact votedBook_reachable|exact (deal_book_invariant votedBook votedBook_reachable)]. Defined.

Lemma demo_case :
  exists c, bk_cases votedBook !! demoCaseID = Some c /\ c_frozen c = true /\ votesFor VerdictFulfilled (c_reveals c) = 3.
Proof.
  destruct (bk_cases votedBook !! demoCaseID) as [c|] eqn:E; [|vm_compute in E; discriminate].
  exists c. split; [reflexivity|]. vm_compute in E. injection E as <-. vm_compute. split; reflexivity.
Qed.

Lemma quorum_exact_witness : (Quorum demoCaseID votedBook).2 = Some OutcomeFulfilled.
Proof.
  destruct demo_case as (c & Hc & Hf & Hv).
  apply (quorum_exact votedBook demoCaseID c votedBook_reachable Hc (or_introl Hf) OutcomeFulfilled).
  exists VerdictFulfilled. split; [lia|reflexivity].
Defined.

Lemma quorum_is_final_witness :
  (Quorum demoCaseID (SetHeight 0 (Quorum demoCaseID votedBook).1)).2 = Some OutcomeFulfilled.
Proof.
  assert (Hq : (Quorum demoCaseID votedBook).2 = Some OutcomeFulfilled) by (vm_compute; reflexivity).
  apply (quorum_is_final votedBook demoCaseID OutcomeFulfilled _ votedBook_reachable Hq).
  eapply rtc_l; [apply step_height|constructor].
Defined.

Lemma deal_book_roundtrip_witness : OpenBook (Some (flush votedBook)) = votedBook.
Proof. exact (deal_book_roundtrip votedBook votedBook_reachable). Defined.
