(* ===== verification/ContactEconomy.v ===== *)
(** * internal/contacteconomy: paid first contact (store.go, settle.go)

    Requests between two addresses, their acceptance, rejection or expiry, the
    established pairs that may message freely, fee schedules and XP. [Store] is
    the struct with its configuration and without its mutex and path; each
    operation is its body under the lock; [CreateRequest] reads the store before it
    takes the lock. [saved] tells whether the
    write of the file succeeds: on failure the source keeps the change in memory
    and returns the error. [now] is [time.Now().Unix()]. *)

From S2P Require Import Prelude GoStd Sha256.

#[local] Open Scope Z_scope.

Definition StatusPending : string := "pending".
Definition StatusEstablished : string := "established".
Definition StatusRejected : string := "rejected".
Definition StatusExpired : string := "expired".
Definition OutcomeAccepted : string := "accepted".
Definition OutcomeTimeout : string := "timeout".
Definition OutcomeRejected : string := "rejected".

Record Config := mkConfig {
  cf_Enabled : bool; cf_MinFeeUplp : Z; cf_MaxFeeUplp : Z; cf_DefaultUnknownUplp : Z;
  cf_DefaultVerifiedUplp : Z; cf_TimeoutSecs : Z; cf_BasePendingLimit : Z; cf_EconomyGateDMs : bool
}.

Record PricingAnnounce := mkPricing {
  pa_Address : string; pa_UnknownFee : Z; pa_VerifiedFee : Z; pa_Blocked : bool; pa_Signature : string; pa_UpdatedAt : Z
}.

Record ContactRequest := mkReq {
  cr_RequestID : string; cr_RequestIDHash : string; cr_Sender : string; cr_Receiver : string;
  cr_SenderPubKey : string; cr_ReceiverPubKey : string; cr_EncryptedPayload : string; cr_Timestamp : Z;
  cr_ExpiresAt : Z; cr_LockTxHash : string; cr_AmountUplp : Z; cr_Status : string;
  cr_SettleOutcome : string; cr_SettleTxHash : string
}.

Record ProtocolContactPair := mkPair { pc_A : string; pc_B : string; pc_Established : Z; pc_RequestID : string }.

Record Reputation := mkRep { rp_Address : string; rp_XP : Z }.

Record Store := mkStore {
  st_cfg : Config;
  st_Requests : gmap string ContactRequest;
  st_Contacts : gmap string ProtocolContactPair;
  st_Pricing : gmap string PricingAnnounce;
  st_XP : gmap string Reputation
}.

Definition NewStore (cfg : Config) : Store := mkStore cfg ∅ ∅ ∅ ∅.

Definition setRequest (id : string) (r : ContactRequest) (s : Store) : Store :=
  mkStore (st_cfg s) (<[id := r]> (st_Requests s)) (st_Contacts s) (st_Pricing s) (st_XP s).

Definition withStatus (status outcome : string) (r : ContactRequest) : ContactRequest :=
  mkReq (cr_RequestID r) (cr_RequestIDHash r) (cr_Sender r) (cr_Receiver r) (cr_SenderPubKey r)
    (cr_ReceiverPubKey r) (cr_EncryptedPayload r) (cr_Timestamp r) (cr_ExpiresAt r) (cr_LockTxHash r)
    (cr_AmountUplp r) status outcome (cr_SettleTxHash r).

(** ** Keys *)

Definition normalize (addr : string) : string := TrimSpace addr.

Definition pairKey (a b : string) : string :=
  let '(a, b) := (normalize a, normalize b) in
  let '(a, b) := if str_ltb (ToLower b) (ToLower a) then (b, a) else (a, b) in
  ToLower a +:+ "|" +:+ ToLower b.

Definition RequestIDHash (requestID : string) : string := sha256Hex requestID.

(** The outcome of an operation that ends in [persistLocked]. *)
Definition persisted {A} (saved : bool) (a : A) : result A :=
  if saved then Ok a else Err "persist contact economy".

(** ** Pricing *)

Definition ClampFee (cfg : Config) (uplp : Z) : Z :=
  if uplp <? cf_MinFeeUplp cfg then cf_MinFeeUplp cfg
  else if cf_MaxFeeUplp cfg <? uplp then cf_MaxFeeUplp cfg
  else uplp.

Definition SetPricing (saved : bool) (now : Z) (p : PricingAnnounce) (s : Store) : Store * result PricingAnnounce :=
  let addr := normalize (pa_Address p) in
  if String.eqb addr "" then (s, Err "address required")
  else
  let p := mkPricing addr (ClampFee (st_cfg s) (pa_UnknownFee p)) (ClampFee (st_cfg s) (pa_VerifiedFee p))
             (pa_Blocked p) (pa_Signature p) now in
  (mkStore (st_cfg s) (st_Requests s) (st_Contacts s) (<[ToLower addr := p]> (st_Pricing s)) (st_XP s),
   persisted saved p).

Definition GetPricing (address : string) (s : Store) : PricingAnnounce :=
  let addr := normalize address in
  default (mkPricing addr (cf_DefaultUnknownUplp (st_cfg s)) (cf_DefaultVerifiedUplp (st_cfg s)) false "" 0)
    (st_Pricing s !! ToLower addr).

(** ** Contacts, XP and limits *)

Definition HasProtocolContact (a b : string) (s : Store) : bool :=
  bool_decide (is_Some (st_Contacts s !! pairKey a b)).

Definition isPending (r : ContactRequest) : bool := String.eqb (cr_Status r) StatusPending.

Definition PendingOutboundCount (sender : string) (s : Store) : Z :=
  let sender := normalize sender in
  Z.of_nat (size (filter (fun kv => EqualFold (cr_Sender kv.2) sender && isPending kv.2 = true) (st_Requests s))).

Definition GetXP (address : string) (s : Store) : Z :=
  match st_XP s !! ToLower (normalize address) with Some r => rp_XP r | None => 0 end.

Definition PendingLimit (address : string) (s : Store) : Z :=
  let bonus := i64 (GetXP address s / 100) in
  let lim := i64 (cf_BasePendingLimit (st_cfg s) + bonus) in
  if 50 <? lim then 50 else lim.

Definition AddXP (address : string) (delta : Z) (s : Store) : Store :=
  let addr := ToLower (normalize address) in
  if String.eqb addr "" || (delta =? 0) then s
  else mkStore (st_cfg s) (st_Requests s) (st_Contacts s) (st_Pricing s)
    (<[addr := mkRep (normalize address) (u64 (GetXP address s + delta))]> (st_XP s)).

(** ** Requests *)

Definition samePair (a b : ContactRequest) : bool :=
  EqualFold (cr_Sender a) (cr_Sender b) && EqualFold (cr_Receiver a) (cr_Receiver b).

(** The part of [CreateRequest] before its lock: every read is of the store as it
    was then. *)
Definition createChecks (now : Z) (req : ContactRequest) (s : Store) : result ContactRequest :=
  let cfg := st_cfg s in
  let sender := normalize (cr_Sender req) in
  let receiver := normalize (cr_Receiver req) in
  let lock := cr_LockTxHash req in
  if negb (cf_Enabled cfg) then Err "contact economy disabled"
  else if String.eqb (cr_RequestID req) "" || String.eqb sender "" || String.eqb receiver ""
  then Err "requestId, sender, receiver required"
  else if String.eqb lock "" || String.eqb (cr_EncryptedPayload req) ""
  then Err "lockTxHash and encryptedPayload required"
  else if HasPrefix (ToLower lock) "escrow_lock:" || HasPrefix (ToLower lock) "escrow-intent:"
  then Err "lockTxHash must be a real escrow_lock transaction hash"
  else if len lock <? 32 then Err "lockTxHash too short"
  else if 64 * 1024 <? len (cr_EncryptedPayload req) then Err "encrypted payload too large"
  else if cr_AmountUplp req =? 0 then Err "amountUplp required"
  else if pa_Blocked (GetPricing receiver s) then Err "receiver has disabled unknown contacts"
  else if HasProtocolContact sender receiver s then Err "protocol contact already established"
  else if PendingLimit sender s <=? PendingOutboundCount sender s
  then Err "pending contact request limit exceeded"
  else
  let ts := if cr_Timestamp req =? 0 then now else cr_Timestamp req in
  Ok (mkReq (cr_RequestID req) (RequestIDHash (cr_RequestID req)) sender receiver (cr_SenderPubKey req)
        (cr_ReceiverPubKey req) (cr_EncryptedPayload req) ts (i64 (ts + cf_TimeoutSecs cfg)) lock
        (cr_AmountUplp req) StatusPending (cr_SettleOutcome req) (cr_SettleTxHash req)).

(** The part under the lock. *)
Definition createLocked (saved : bool) (req : ContactRequest) (s : Store) : Store * result ContactRequest :=
  if bool_decide (is_Some (st_Requests s !! cr_RequestID req)) then (s, Err "duplicate requestId")
  else if bool_decide (map_Exists (fun _ r => cr_LockTxHash r = cr_LockTxHash req) (st_Requests s))
  then (s, Err "lockTxHash already used")
  else if bool_decide (map_Exists (fun _ r => isPending r && samePair r req = true) (st_Requests s))
  then (s, Err "pending request already exists for this pair")
  else (setRequest (cr_RequestID req) req s, persisted saved req).

(** [seen] is the store the unlocked checks read, [s] the store once the lock is
    taken: the same store unless another call ran in between. *)
Definition CreateRequest (saved : bool) (now : Z) (req : ContactRequest) (seen s : Store)
  : Store * result ContactRequest :=
  match createChecks now req seen with
  | Err e => (s, Err e)
  | Ok req => createLocked saved req s
  end.

Definition establish (now : Z) (req : ContactRequest) (s : Store) : Store :=
  mkStore (st_cfg s) (st_Requests s)
    (<[pairKey (cr_Sender req) (cr_Receiver req) := mkPair (cr_Sender req) (cr_Receiver req) now (cr_RequestID req)]>
       (st_Contacts s)) (st_Pricing s) (st_XP s).

Definition Respond (saved : bool) (now : Z) (requestID actor outcome signature : string) (s : Store)
  : Store * result ContactRequest :=
  let actor := normalize actor in
  let owned := normalize (TrimPrefix signature "owned:") in
  if String.eqb (TrimSpace signature) "" then (s, Err "signature required")
  else if HasPrefix signature "sig-" && negb (HasPrefix signature "sig-core:")
  then (s, Err "invalid signature: use wallet ownership proof")
  else if HasPrefix signature "owned:" && (String.eqb owned "" || negb (EqualFold owned actor))
  then (s, Err "owned: proof does not match actor")
  else match st_Requests s !! requestID with
  | None => (s, Err "request not found")
  | Some req =>
      if negb (isPending req) then (s, Err "request not pending")
      else if negb (EqualFold (cr_Receiver req) actor) then (s, Err "only receiver may respond")
      else if cr_ExpiresAt req <? now then
        (setRequest requestID (withStatus StatusExpired OutcomeTimeout req) s, Err "request expired")
      else if String.eqb outcome OutcomeAccepted then
        let r := withStatus StatusEstablished OutcomeAccepted req in
        (setRequest requestID r (establish now r s), persisted saved r)
      else if String.eqb outcome OutcomeRejected then
        let r := withStatus StatusRejected OutcomeRejected req in
        (setRequest requestID r s, persisted saved r)
      else (s, Err "invalid outcome")
  end.

Definition MarkSettled (saved : bool) (requestID settleTxHash : string) (s : Store) : Store * result unit :=
  match st_Requests s !! requestID with
  | None => (s, Err "request not found")
  | Some r =>
      let r := mkReq (cr_RequestID r) (cr_RequestIDHash r) (cr_Sender r) (cr_Receiver r) (cr_SenderPubKey r)
        (cr_ReceiverPubKey r) (cr_EncryptedPayload r) (cr_Timestamp r) (cr_ExpiresAt r) (cr_LockTxHash r)
        (cr_AmountUplp r) (cr_Status r) (cr_SettleOutcome r) settleTxHash in
      (setRequest requestID r s, persisted saved ())
  end.

Definition dueRequest (now : Z) (r : ContactRequest) : bool := isPending r && negb (now <=? cr_ExpiresAt r).

Definition ExpireDue {R : GoRange} (now : Z) (s : Store) : Store * list ContactRequest :=
  let g r := if dueRequest now r then withStatus StatusExpired OutcomeTimeout r else r in
  (mkStore (st_cfg s) (g <$> st_Requests s) (st_Contacts s) (st_Pricing s) (st_XP s),
   g <$> filter (fun r => dueRequest now r = true) (range (st_Requests s)).*2).

Definition CanSendFreeDM (from to : string) (s : Store) : bool :=
  if negb (cf_Enabled (st_cfg s)) || negb (cf_EconomyGateDMs (st_cfg s)) then true
  else if EqualFold (normalize from) (normalize to) then true
  else HasProtocolContact from to s.

(** [GetRequest], [FindByEscrowID], [ListPendingFor]. *)
Definition GetRequest (requestID : string) (s : Store) : option ContactRequest := st_Requests s !! requestID.

Definition FindByEscrowID {R : GoRange} (escrowID : string) (s : Store) : option ContactRequest :=
  let id := TrimSpace escrowID in
  if String.eqb id "" then None
  else snd <$> list_find (fun r => String.eqb (cr_RequestIDHash r) id || EqualFold (cr_RequestIDHash r) id = true)
         (range (st_Requests s)).*2.

Definition ListPendingFor {R : GoRange} (address : string) (s : Store) : list ContactRequest :=
  let addr := normalize address in
  SliceStable (fun a b => cr_Timestamp a <? cr_Timestamp b)
    (filter (fun r => isPending r && (EqualFold (cr_Receiver r) addr || EqualFold (cr_Sender r) addr) = true)
       (range (st_Requests s)).*2).

(** ** settle.go *)

(** Percentages (recipient, node, treasury, refund) of an outcome. *)
Definition splitPercents (outcome : string) : Z * Z * Z * Z :=
  if String.eqb outcome OutcomeAccepted then (70, 20, 10, 0)
  else if String.eqb outcome OutcomeTimeout then (0, 10, 0, 90)
  else if String.eqb outcome OutcomeRejected then (0, 10, 10, 80)
  else (0, 10, 0, 90).

Definition SplitBps (amount : Z) (outcome : string) : Z * Z * Z * Z :=
  let '(rb, nb, tb, fb) := splitPercents outcome in
  let recipient := u64 (amount * rb) / 100 in
  let node := u64 (amount * nb) / 100 in
  let treasury := u64 (amount * tb) / 100 in
  let refund := u64 (amount * fb) / 100 in
  let allocated := u64 (recipient + node + treasury + refund) in
  let treasury := if allocated <? amount then u64 (treasury + (amount - allocated)) else treasury in
  (recipient, node, treasury, refund).
