(* ===== verification/ContactEconomySpec.v ===== *)
(** * What the contact economy promises (internal/contacteconomy)

    The invariant of the store under every sequence of its operations, the life
    of a request, when two addresses may message freely, the limit of pending
    requests, and the split of an escrowed amount. *)

From S2P Require Import Prelude GoStd Sha256 ContactEconomy.
From Stdlib Require Import Ascii.

#[local] Open Scope Z_scope.

(** ** Keys of pairs *)

Lemma pairKey_sym a b : pairKey a b = pairKey b a.
Proof.
  unfold pairKey. set (x := normalize a). set (y := normalize b).
  destruct (str_ltb (ToLower y) (ToLower x)) eqn:E1, (str_ltb (ToLower x) (ToLower y)) eqn:E2; try done.
  - apply str_ltb_asym in E1. congruence.
  - by rewrite (str_ltb_total _ _ E1 E2).
Qed.

Definition bar : ascii := "|"%char.

Fixpoint noBar (s : string) : bool :=
  match s with EmptyString => true | String c s' => negb (Ascii.eqb c bar) && noBar s' end.

Lemma noBar_app_bar x y : noBar (x +:+ String bar y) = false.
Proof.
  induction x as [|c x IH]; [done|]. simpl. rewrite IH. apply andb_false_r.
Qed.

Lemma bar_split x y z w :
  noBar x = true -> noBar y = true -> x +:+ String bar y = z +:+ String bar w -> x = z /\ y = w.
Proof.
  revert z. induction x as [|c x IH]; intros [|d z] Hx Hy; simpl in *; intros [=]; subst.
  - done.
  - by rewrite noBar_app_bar in Hy.
  - by apply andb_true_iff in Hx as [Hx _].
  - apply andb_true_iff in Hx as [_ Hx]. destruct (IH z Hx Hy) as [-> ->]; done.
Qed.

(** Same unordered pair of addresses, up to case. *)
Definition sameAddresses (a b c d : string) : Prop :=
  let f s := ToLower (normalize s) in (f a = f c /\ f b = f d) \/ (f a = f d /\ f b = f c).

Lemma pairKey_shape a b : exists x y, pairKey a b = x +:+ String bar y /\
  ((x = ToLower (normalize a) /\ y = ToLower (normalize b)) \/ (x = ToLower (normalize b) /\ y = ToLower (normalize a))).
Proof.
  unfold pairKey. destruct (str_ltb _ _); cbn; eexists _, _; (split; [reflexivity|]); tauto.
Qed.

Lemma pairKey_eq a b c d :
  noBar (ToLower (normalize a)) = true -> noBar (ToLower (normalize b)) = true ->
  pairKey a b = pairKey c d <-> sameAddresses a b c d.
Proof.
  intros Ha Hb. unfold sameAddresses. split.
  - destruct (pairKey_shape a b) as (x & y & -> & Hxy), (pairKey_shape c d) as (z & w & -> & Hzw).
    intros [-> ->]%bar_split; [|by destruct Hxy as [[-> ->]|[-> ->]]..].
    destruct Hxy as [[-> ->]|[-> ->]], Hzw as [[-> ->]|[-> ->]]; auto.
  - intros [[H1 H2]|[H1 H2]]; [|rewrite (pairKey_sym c d)];
      unfold pairKey; rewrite H1, H2; destruct (str_ltb _ _); by rewrite ?H1, ?H2.
Qed.

(** ** The operations as steps *)

(** [link seen s] relates the store the unlocked checks of a creation read to the
    store once the lock is taken. *)
Inductive stepIf (link : Store -> Store -> Prop) : Store -> Store -> Prop :=
| step_pricing saved now p s : stepIf link s (SetPricing saved now p s).1
| step_xp a d s : stepIf link s (AddXP a d s)
| step_create saved now req seen s : link seen s -> stepIf link s (CreateRequest saved now req seen s).1
| step_respond saved now id actor outcome sig s : stepIf link s (Respond saved now id actor outcome sig s).1
| step_settled saved id h s : stepIf link s (MarkSettled saved id h s).1
| step_expire (R : GoRange) now s : stepIf link s (ExpireDue now s).1.

(** Any interleaving, and histories in which nothing runs between the checks of a
    creation and its lock. *)
Definition step : Store -> Store -> Prop := stepIf (fun _ _ => True).
Definition seqstep : Store -> Store -> Prop := stepIf eq.

(** The fields of a request that no operation changes. *)
Definition frozen (r r' : ContactRequest) : Prop :=
  cr_RequestID r' = cr_RequestID r /\ cr_RequestIDHash r' = cr_RequestIDHash r /\
  cr_Sender r' = cr_Sender r /\ cr_Receiver r' = cr_Receiver r /\
  cr_SenderPubKey r' = cr_SenderPubKey r /\ cr_ReceiverPubKey r' = cr_ReceiverPubKey r /\
  cr_EncryptedPayload r' = cr_EncryptedPayload r /\ cr_Timestamp r' = cr_Timestamp r /\
  cr_ExpiresAt r' = cr_ExpiresAt r /\ cr_LockTxHash r' = cr_LockTxHash r /\ cr_AmountUplp r' = cr_AmountUplp r.

(** The states of a request and the outcomes recorded with them. *)
Inductive moves : ContactRequest -> ContactRequest -> Prop :=
| move_none r r' : cr_Status r' = cr_Status r -> cr_SettleOutcome r' = cr_SettleOutcome r -> moves r r'
| move_accept r r' : cr_Status r = StatusPending -> cr_Status r' = StatusEstablished ->
    cr_SettleOutcome r' = OutcomeAccepted -> moves r r'
| move_reject r r' : cr_Status r = StatusPending -> cr_Status r' = StatusRejected ->
    cr_SettleOutcome r' = OutcomeRejected -> moves r r'
| move_expire r r' : cr_Status r = StatusPending -> cr_Status r' = StatusExpired ->
    cr_SettleOutcome r' = OutcomeTimeout -> moves r r'.

Definition evolves (r r' : ContactRequest) : Prop := frozen r r' /\ moves r r'.

#[export] Instance frozen_preorder : PreOrder frozen.
Proof. split; [intros r; unfold frozen; tauto|]. intros a b c. unfold frozen. intuition congruence. Qed.

#[export] Instance moves_preorder : PreOrder moves.
Proof.
  split; [intros r; by apply move_none|].
  intros a b c Hab Hbc. destruct Hab; inversion Hbc; subst;
    first [ by apply move_none; congruence | by apply move_accept; congruence
          | by apply move_reject; congruence | by apply move_expire; congruence
          | unfold StatusPending, StatusEstablished, StatusRejected, StatusExpired in *; congruence ].
Qed.

#[export] Instance evolves_preorder : PreOrder evolves.
Proof.
  split; [intros r; split; reflexivity|]. intros a b c [H1 H2] [H3 H4].
  split; etransitivity; eauto.
Qed.

(** The effect of an operation on requests and contacts: a new pending request, or
    an update of requests that are already there. *)
Definition created (s s' : Store) (req : ContactRequest) : Prop :=
  st_Requests s !! cr_RequestID req = None /\
  (forall k r, st_Requests s !! k = Some r -> cr_LockTxHash r <> cr_LockTxHash req) /\
  (forall k r, st_Requests s !! k = Some r -> isPending r && samePair r req = false) /\
  cr_RequestIDHash req = RequestIDHash (cr_RequestID req) /\ cr_Status req = StatusPending /\
  st_Requests s' = <[cr_RequestID req := req]> (st_Requests s) /\ st_Contacts s' = st_Contacts s.

Inductive effect (s s' : Store) : Prop :=
| eff_none :
    st_Requests s' = st_Requests s -> st_Contacts s' = st_Contacts s -> effect s s'
| eff_map g :
    (forall k r, st_Requests s !! k = Some r -> evolves r (g k r)) ->
    (forall k r, st_Requests s !! k = Some r -> cr_Status (g k r) = StatusEstablished -> cr_Status r = StatusEstablished) ->
    st_Requests s' = map_imap (fun k r => Some (g k r)) (st_Requests s) -> st_Contacts s' = st_Contacts s -> effect s s'
| eff_accept id req r' c :
    st_Requests s !! id = Some req -> evolves req r' -> cr_Status r' = StatusEstablished ->
    st_Requests s' = <[id := r']> (st_Requests s) ->
    st_Contacts s' = <[pairKey (cr_Sender req) (cr_Receiver req) := c]> (st_Contacts s) ->
    pc_A c = cr_Sender req -> pc_B c = cr_Receiver req -> pc_RequestID c = cr_RequestID req -> effect s s'.

Lemma insert_as_imap (m : gmap string ContactRequest) id r r' :
  m !! id = Some r ->
  <[id := r']> m = map_imap (fun k x => Some (if decide (k = id) then r' else x)) m.
Proof.
  intros Hid. apply map_eq. intros k. rewrite map_lookup_imap, lookup_insert.
  destruct (decide (id = k)) as [->|Hne].
  - rewrite Hid. simpl. by rewrite decide_True.
  - destruct (m !! k); simpl; [|done]. by rewrite decide_False.
Qed.

(** An update of one request that does not establish it. *)
Lemma eff_update s s' id r r' :
  st_Requests s !! id = Some r -> evolves r r' ->
  (cr_Status r' = StatusEstablished -> cr_Status r = StatusEstablished) ->
  st_Requests s' = <[id := r']> (st_Requests s) -> st_Contacts s' = st_Contacts s -> effect s s'.
Proof.
  intros Hid He Hs Hr Hc.
  apply eff_map with (fun k x => if decide (k = id) then r' else x); [..|by rewrite Hr, (insert_as_imap _ _ r)|done];
    intros k x Hx; case_decide; subst; simplify_eq; try done; reflexivity.
Qed.

Lemma evolves_status req st out :
  cr_Status req = StatusPending ->
  (st, out) ∈ [(StatusEstablished, OutcomeAccepted); (StatusRejected, OutcomeRejected); (StatusExpired, OutcomeTimeout)] ->
  evolves req (withStatus st out req).
Proof.
  intros Hp Hin. split; [by repeat split|].
  repeat (apply elem_of_cons in Hin as [[= -> ->]|Hin]); [by apply move_accept|by apply move_reject|by apply move_expire|].
  by apply elem_of_nil in Hin.
Qed.

Lemma create_effect saved now req seen s :
  effect s (CreateRequest saved now req seen s).1 \/
  exists q, createChecks now req seen = Ok q /\ created s (CreateRequest saved now req seen s).1 q.
Proof.
  unfold CreateRequest. destruct (createChecks now req seen) as [q|e] eqn:E; [|left; by apply eff_none].
  assert (Hq : cr_RequestIDHash q = RequestIDHash (cr_RequestID q) /\ cr_Status q = StatusPending).
  { revert E. unfold createChecks. remember (RequestIDHash (cr_RequestID req)) as h eqn:Eh. intros E.
    repeat (match type of E with (if ?b then _ else _) = _ => destruct b; [done|] end).
    injection E as <-. simpl. by split. }
  unfold createLocked.
  case_bool_decide as H1; [left; by apply eff_none|]. case_bool_decide as H2; [left; by apply eff_none|].
  case_bool_decide as H3; [left; by apply eff_none|].
  right. exists q. split; [done|]. split; [by apply eq_None_not_Some|].
  split; [|split; [|split; [apply Hq|split; [apply Hq|done]]]].
  - intros k r Hr He. apply H2. by exists k, r.
  - intros k r Hr. apply not_true_is_false. intros He. apply H3. by exists k, r.
Qed.

Lemma respond_effect saved now id actor outcome sig s :
  effect s (Respond saved now id actor outcome sig s).1.
Proof.
  unfold Respond. repeat (match goal with |- effect _ (fst (if ?b then (?x, Err _) else _)) =>
    lazymatch x with s => destruct b; [by apply eff_none|] end end).
  destruct (st_Requests s !! id) as [req|] eqn:E; [|by apply eff_none].
  destruct (isPending req) eqn:Ep; simpl; [|by apply eff_none]. apply String.eqb_eq in Ep.
  destruct (EqualFold _ _); simpl; [|by apply eff_none].
  destruct (_ <? _); simpl.
  { apply (eff_update _ _ id req (withStatus StatusExpired OutcomeTimeout req)); try done.
    by apply evolves_status; [|set_solver]. }
  destruct (String.eqb outcome OutcomeAccepted); simpl.
  { eapply (eff_accept _ _ id req (withStatus StatusEstablished OutcomeAccepted req)); try done.
    by apply evolves_status; [|set_solver]. }
  destruct (String.eqb outcome OutcomeRejected); simpl; [|by apply eff_none].
  apply (eff_update _ _ id req (withStatus StatusRejected OutcomeRejected req)); try done.
  by apply evolves_status; [|set_solver].
Qed.

Lemma expire_effect (R : GoRange) now s : effect s (ExpireDue now s).1.
Proof.
  apply eff_map with (fun _ r => if dueRequest now r then withStatus StatusExpired OutcomeTimeout r else r).
  - intros k r _. destruct (dueRequest now r) eqn:E; [|reflexivity].
    unfold dueRequest in E. apply andb_true_iff in E as [E _]. apply evolves_status; [by apply String.eqb_eq|set_solver].
  - intros k r _. by destruct (dueRequest now r).
  - simpl. apply map_eq. intros k. rewrite lookup_fmap, map_lookup_imap. by destruct (st_Requests s !! k).
  - done.
Qed.

Lemma step_effect link s s' :
  stepIf link s s' ->
  effect s s' \/ exists seen now req q, link seen s /\ createChecks now req seen = Ok q /\ created s s' q.
Proof.
  destruct 1 as [saved now p s|a d s|saved now req seen s Hl|saved now id actor outcome sig s|saved id h s|R now s];
    auto using respond_effect, expire_effect.
  - left. unfold SetPricing. destruct (String.eqb _ _); by apply eff_none.
  - left. unfold AddXP. destruct (_ || _); by apply eff_none.
  - destruct (create_effect saved now req seen s) as [?|(q & ? & ?)]; [by left|right]. by exists seen, now, req, q.
  - left. unfold MarkSettled. destruct (st_Requests s !! id) as [r|] eqn:E; [|by apply eff_none].
    eapply (eff_update _ _ id r); [done| | |reflexivity|done]; [|done]. split; [by repeat split|by apply move_none].
Qed.

(** ** The invariant *)

Record StoreInv (s : Store) : Prop := {
  inv_keyed : forall k r, st_Requests s !! k = Some r ->
    cr_RequestID r = k /\ cr_RequestIDHash r = RequestIDHash k;
  inv_locks : forall k1 k2 r1 r2, st_Requests s !! k1 = Some r1 -> st_Requests s !! k2 = Some r2 ->
    cr_LockTxHash r1 = cr_LockTxHash r2 -> k1 = k2;
  inv_pending : forall k1 k2 r1 r2, st_Requests s !! k1 = Some r1 -> st_Requests s !! k2 = Some r2 ->
    isPending r1 = true -> isPending r2 = true -> samePair r1 r2 = true -> k1 = k2;
  inv_contact : forall key c, st_Contacts s !! key = Some c ->
    exists r, st_Requests s !! pc_RequestID c = Some r /\ cr_Status r = StatusEstablished /\
      pc_A c = cr_Sender r /\ pc_B c = cr_Receiver r /\ key = pairKey (cr_Sender r) (cr_Receiver r);
  inv_established : forall k r, st_Requests s !! k = Some r -> cr_Status r = StatusEstablished ->
    is_Some (st_Contacts s !! pairKey (cr_Sender r) (cr_Receiver r))
}.

Lemma samePair_sym a b : samePair a b = samePair b a.
Proof. unfold samePair. by rewrite (EqualFold_sym (cr_Sender a)), (EqualFold_sym (cr_Receiver a)). Qed.

Lemma evolves_pending r r' : evolves r r' -> isPending r' = true -> isPending r = true.
Proof.
  intros [_ Hm] Hp. apply String.eqb_eq in Hp. apply String.eqb_eq.
  destruct Hm; try done; unfold StatusPending, StatusEstablished, StatusRejected, StatusExpired in *; congruence.
Qed.

Lemma evolves_established r r' :
  evolves r r' -> cr_Status r = StatusEstablished -> cr_Status r' = StatusEstablished.
Proof.
  intros [_ Hm] Hs. destruct Hm; try congruence;
    unfold StatusPending, StatusEstablished, StatusRejected, StatusExpired in *; congruence.
Qed.

Lemma frozen_samePair a a' b b' : frozen a a' -> frozen b b' -> samePair a' b' = samePair a b.
Proof. unfold frozen, samePair. intros Ha Hb. destruct_and!. congruence. Qed.

Lemma inv_new s s' req : StoreInv s -> created s s' req -> StoreInv s'.
Proof.
  intros [I1 I2 I3 I4 I5] (Hn & Hl & Hp & Hh & Hs & Hr & Hc). split; rewrite ?Hr, ?Hc.
  - intros k r [[<- <-]|[_ ?]]%lookup_insert_Some; [done|by apply I1].
  - intros k1 k2 r1 r2 [[<- <-]|[_ H1]]%lookup_insert_Some [[<- <-]|[_ H2]]%lookup_insert_Some He;
      [done|by destruct (Hl _ _ H2)|by destruct (Hl _ _ H1)|by apply (I2 _ _ r1 r2)].
  - intros k1 k2 r1 r2 [[<- <-]|[_ H1]]%lookup_insert_Some [[<- <-]|[_ H2]]%lookup_insert_Some P1 P2 He.
    + done.
    + specialize (Hp _ _ H2). rewrite samePair_sym in He. rewrite P2, He in Hp. done.
    + specialize (Hp _ _ H1). rewrite P1, He in Hp. done.
    + by apply (I3 _ _ r1 r2).
  - intros key c Hk. destruct (I4 _ _ Hk) as (r & Hr' & ?). exists r. split; [|done].
    rewrite lookup_insert_ne; [done|]. intros He. congruence.
  - intros k r [[<- <-]|[_ ?]]%lookup_insert_Some He; [|by apply (I5 k)].
    rewrite Hs in He. done.
Qed.

(** Every request evolves; a contact appears exactly when a request of its pair
    becomes established. *)
Lemma inv_evolve s s' :
  StoreInv s ->
  (forall k r', st_Requests s' !! k = Some r' -> exists r, st_Requests s !! k = Some r /\ evolves r r') ->
  (forall k r, st_Requests s !! k = Some r -> exists r', st_Requests s' !! k = Some r' /\ evolves r r') ->
  (forall key c, st_Contacts s' !! key = Some c -> st_Contacts s !! key = Some c \/
    exists r', st_Requests s' !! pc_RequestID c = Some r' /\ cr_Status r' = StatusEstablished /\
      pc_A c = cr_Sender r' /\ pc_B c = cr_Receiver r' /\ key = pairKey (cr_Sender r') (cr_Receiver r')) ->
  (forall key, is_Some (st_Contacts s !! key) -> is_Some (st_Contacts s' !! key)) ->
  (forall k r r', st_Requests s !! k = Some r -> st_Requests s' !! k = Some r' -> cr_Status r' = StatusEstablished ->
    cr_Status r = StatusEstablished \/ is_Some (st_Contacts s' !! pairKey (cr_Sender r) (cr_Receiver r))) ->
  StoreInv s'.
Proof.
  intros [I1 I2 I3 I4 I5] Hb Hf Hc Hm He. split.
  - intros k r' Hr'. destruct (Hb _ _ Hr') as (r & Hr & (F1 & F2 & _) & _). rewrite F1, F2. by apply I1.
  - intros k1 k2 r1 r2 (q1 & Q1 & F1 & _)%Hb (q2 & Q2 & F2 & _)%Hb E. apply (I2 _ _ q1 q2 Q1 Q2).
    unfold frozen in *. destruct_and!. congruence.
  - intros k1 k2 r1 r2 (q1 & Q1 & F1)%Hb (q2 & Q2 & F2)%Hb P1 P2 E. apply (I3 _ _ q1 q2 Q1 Q2).
    + by apply (evolves_pending _ _ F1).
    + by apply (evolves_pending _ _ F2).
    + by rewrite <- (frozen_samePair _ _ _ _ (proj1 F1) (proj1 F2)).
  - intros key c [Hk|?]%Hc; [|done]. destruct (I4 _ _ Hk) as (r & Hr & Hs & HA & HB & ->).
    destruct (Hf _ _ Hr) as (r' & Hr' & F). exists r'. split; [done|]. split; [by apply (evolves_established _ _ F)|].
    destruct F as [F _]. unfold frozen in F. destruct_and!. repeat split; congruence.
  - intros k r' Hr' Hs. destruct (Hb _ _ Hr') as (r & Hr & [F Hmv]).
    assert (cr_Sender r' = cr_Sender r /\ cr_Receiver r' = cr_Receiver r) as [-> ->]
      by (unfold frozen in F; destruct_and!; done).
    destruct (He _ _ _ Hr Hr' Hs) as [Hs0|?]; [|done]. apply Hm. by apply (I5 k).
Qed.

Lemma effect_inv s s' : StoreInv s -> effect s s' -> StoreInv s'.
Proof.
  intros I [Hr Hc|g Hg Hge Hr Hc|id req r' c Hid Hev Hst Hr Hc HA HB Hid'].
  - destruct I as [I1 I2 I3 I4 I5]. split; rewrite ?Hr, ?Hc; done.
  - apply (inv_evolve s s' I); rewrite ?Hr, ?Hc; auto.
    + intros k r'. rewrite map_lookup_imap. intros (r & E & [= <-])%bind_Some. exists r. split; [done|by apply Hg].
    + intros k r E. exists (g k r). rewrite map_lookup_imap, E. split; [done|by apply Hg].
    + intros k r r' E. rewrite map_lookup_imap, E. intros [= <-] Hs. left. by apply (Hge k).
  - pose proof (inv_keyed s I _ _ Hid) as [Hk _].
    pose proof Hev as [F _]. unfold frozen in F. destruct_and!.
    apply (inv_evolve s s' I); rewrite ?Hr, ?Hc.
    + intros k x [[<- <-]|[_ ?]]%lookup_insert_Some; eexists; split; try done; reflexivity.
    + intros k x Hx. destruct (decide (id = k)) as [->|Hne].
      * exists r'. rewrite lookup_insert_eq. split; [done|]. by simplify_eq.
      * exists x. rewrite lookup_insert_ne by done. split; [done|reflexivity].
    + intros key c' [[<- <-]|[_ ?]]%lookup_insert_Some; [|by left].
      right. exists r'. rewrite Hid', Hk, lookup_insert_eq. repeat split; congruence.
    + intros key [c' Hx]. destruct (decide (pairKey (cr_Sender req) (cr_Receiver req) = key)) as [->|Hne].
      * by rewrite lookup_insert_eq. * by rewrite lookup_insert_ne.
    + intros k r x Hx [[<- <-]|[_ ?]]%lookup_insert_Some Hs; [right|left; congruence].
      simplify_eq. by rewrite lookup_insert_eq.
Qed.

(** ** Theorems *)

Definition reachable (cfg : Config) (s : Store) : Prop := rtc step (NewStore cfg) s.

Lemma empty_inv cfg : StoreInv (NewStore cfg).
Proof. by split. Qed.

Lemma steps_inv s s' : StoreInv s -> rtc step s s' -> StoreInv s'.
Proof. intros I H. revert I. induction H; [done|]. intros I. apply IHrtc. destruct (step_effect _ _ _ H) as [?|(? & ? & ? & q & _ & _ & ?)]; eauto using effect_inv, inv_new. Qed.

(** C26: Whatever sequence of operations a store has been through, and whatever
    earlier state the unlocked checks of a creation read, every request is filed
    under its own id with the hash of that id, no lock transaction backs two
    requests, a sender has at most one pending request to a receiver (up to case),
    and the established contacts are exactly the pairs of the accepted requests. *)
Theorem contact_store_invariant cfg s : reachable cfg s -> StoreInv s.
Proof. apply steps_inv, empty_inv. Qed.

Lemma effect_forward s s' k r :
  effect s s' -> st_Requests s !! k = Some r -> exists r', st_Requests s' !! k = Some r' /\ evolves r r'.
Proof.
  intros [Er _|g Hg _ Er _|id req r' c Hid Hev _ Er _ _ _ _] Hr; rewrite Er.
  - exists r. split; [done|reflexivity].
  - exists (g k r). rewrite map_lookup_imap, Hr. split; [done|by apply Hg].
  - destruct (decide (id = k)) as [->|Hne].
    + exists r'. rewrite lookup_insert_eq. simplify_eq. done.
    + exists r. rewrite lookup_insert_ne by done. split; [done|reflexivity].
Qed.

Lemma step_forward s s' k r :
  step s s' -> st_Requests s !! k = Some r -> exists r', st_Requests s' !! k = Some r' /\ evolves r r'.
Proof.
  intros H Hr. destruct (step_effect _ _ _ H) as [He|(_ & _ & _ & q & _ & _ & Hn & _ & _ & _ & _ & Er & _)].
  - by apply (effect_forward s).
  - exists r. rewrite Er, lookup_insert_ne by congruence. split; [done|reflexivity].
Qed.

(** A request is never lost, its parties, payload, amount, lock and deadline
    never change, and its status moves at most once: from pending to established
    with outcome accepted, to rejected with outcome rejected, or to expired with
    outcome timeout; a request that is no longer pending keeps its status and
    outcome whatever operations follow. *)
Theorem request_lifecycle s s' k r :
  rtc step s s' -> st_Requests s !! k = Some r ->
  exists r', st_Requests s' !! k = Some r' /\ evolves r r' /\
    (isPending r = false -> cr_Status r' = cr_Status r /\ cr_SettleOutcome r' = cr_SettleOutcome r).
Proof.
  intros Hs Hr. assert (exists r', st_Requests s' !! k = Some r' /\ evolves r r') as (r' & Hr' & Hev).
  { revert r Hr. induction Hs as [|x y z Hxy _ IH]; intros r Hr; [exists r; split; [done|reflexivity]|].
    destruct (step_forward _ _ _ _ Hxy Hr) as (q & Hq & Hrq). destruct (IH _ Hq) as (q' & Hq' & ?).
    exists q'. split; [done|]. by etransitivity. }
  exists r'. split; [done|]. split; [done|]. intros Hp. apply String.eqb_neq in Hp.
  destruct Hev as [_ Hm]. by destruct Hm; first [split|congruence].
Qed.

(** With the gate on, two different addresses (free of the separator of pair
    keys) may message without paying exactly when some request between them, in
    either direction and up to case, has been accepted. *)
Theorem free_dm_iff_accepted cfg s from to :
  reachable cfg s -> cf_Enabled (st_cfg s) = true -> cf_EconomyGateDMs (st_cfg s) = true ->
  EqualFold (normalize from) (normalize to) = false ->
  noBar (ToLower (normalize from)) = true -> noBar (ToLower (normalize to)) = true ->
  CanSendFreeDM from to s = true <->
  exists id r, st_Requests s !! id = Some r /\ cr_Status r = StatusEstablished /\
    sameAddresses from to (cr_Sender r) (cr_Receiver r).
Proof.
  intros Hr%(steps_inv _ _ (empty_inv cfg)) He Hg Hne Hf Ht.
  unfold CanSendFreeDM. rewrite He, Hg, Hne. simpl. unfold HasProtocolContact. rewrite bool_decide_eq_true. split.
  - intros [c Hc]. destruct (inv_contact s Hr _ _ Hc) as (r & Hq & Hs & _ & _ & Hk).
    exists (pc_RequestID c), r. split; [done|]. split; [done|]. by apply pairKey_eq.
  - intros (id & r & Hq & Hs & Hk). apply pairKey_eq in Hk; [|done..]. rewrite Hk.
    by apply (inv_established s Hr id).
Qed.

(** ** Limit of pending requests *)

Lemma PendingLimit_max a s : PendingLimit a s <= 50.
Proof. unfold PendingLimit. destruct (50 <? _) eqn:E; bools; lia. Qed.

Lemma checks_normal now req s q : createChecks now req s = Ok q ->
  cr_Sender q = normalize (cr_Sender req) /\ cr_Status q = StatusPending /\
  PendingOutboundCount (cr_Sender q) s < PendingLimit (cr_Sender q) s /\
  HasProtocolContact (cr_Sender q) (cr_Receiver q) s = false /\ pa_Blocked (GetPricing (cr_Receiver q) s) = false /\
  32 <= len (cr_LockTxHash q) /\ cr_AmountUplp q <> 0.
Proof.
  unfold createChecks. remember (RequestIDHash (cr_RequestID req)) as h eqn:Eh. intros E.
  repeat (match type of E with (if ?b then _ else _) = _ => destruct b eqn:?; [done|] end).
  injection E as <-. simpl. bools. repeat split; done || lia.
Qed.

Definition pendingOf (a : string) (m : gmap string ContactRequest) : gmap string ContactRequest :=
  filter (fun kv => EqualFold (cr_Sender kv.2) (normalize a) && isPending kv.2 = true) m.

Lemma pendingOf_lookup a m k r :
  pendingOf a m !! k = Some r <-> m !! k = Some r /\ EqualFold (cr_Sender r) (normalize a) && isPending r = true.
Proof. apply map_lookup_filter_Some. Qed.

Lemma effect_pending a s s' : effect s s' -> PendingOutboundCount a s' <= PendingOutboundCount a s.
Proof.
  intros He. apply inj_le.
  rewrite <- (size_dom (D := gset string)), <- (size_dom (D := gset string) (filter _ (st_Requests s))).
  apply subseteq_size. intros k. rewrite !elem_of_dom.
  intros [r' [Hr' Hp]%pendingOf_lookup]. destruct (st_Requests s !! k) as [r|] eqn:Hr.
  - destruct (effect_forward _ _ _ _ He Hr) as (x & Hx & F & Hm). simplify_eq.
    exists r. apply pendingOf_lookup. split; [done|]. apply andb_true_iff in Hp as [Hs Hp].
    rewrite (evolves_pending r r' (conj F Hm) Hp), andb_true_r. unfold frozen in F. destruct_and!. congruence.
  - exfalso. destruct He as [Er _|g _ _ Er _|id req q c Hid _ _ Er _ _ _ _]; rewrite Er in Hr'.
    + congruence. + by rewrite map_lookup_imap, Hr in Hr'.
    + apply lookup_insert_Some in Hr' as [[<- <-]|[_ ?]]; congruence.
Qed.

Lemma created_pending a s s' q :
  created s s' q -> PendingOutboundCount a s' <= PendingOutboundCount a s +
    (if EqualFold (cr_Sender q) (normalize a) then 1 else 0).
Proof.
  intros (Hn & _ & _ & _ & _ & Er & _). unfold PendingOutboundCount. rewrite Er, map_filter_insert.
  case_decide as E; simpl in E.
  - apply andb_true_iff in E as [-> _]. rewrite map_size_insert. destruct (filter _ _ !! _); unfold id; lia.
  - rewrite delete_id by done. destruct (EqualFold _ _); lia.
Qed.

Lemma PendingOutboundCount_fold a b s :
  ToLower (normalize a) = ToLower (normalize b) -> PendingOutboundCount a s = PendingOutboundCount b s.
Proof. unfold PendingOutboundCount, EqualFold. by intros ->. Qed.

(** As long as no other call runs between the checks of a creation and its
    lock, no address ever has more than fifty pending outbound requests, whatever
    its XP, and a creation by an address succeeds only below that address's own
    limit, to a receiver that has not blocked strangers and with whom no contact
    exists. *)
Theorem pending_requests_bounded cfg s a :
  rtc seqstep (NewStore cfg) s ->
  PendingOutboundCount a s <= 50 /\
  forall saved now req r, (CreateRequest saved now req s s).2 = Ok r ->
    PendingOutboundCount (cr_Sender r) s < PendingLimit (cr_Sender r) s /\
    HasProtocolContact (cr_Sender r) (cr_Receiver r) s = false /\
    pa_Blocked (GetPricing (cr_Receiver r) s) = false /\ cr_Status r = StatusPending.
Proof.
  intros Hs. split.
  - assert (PendingOutboundCount a (NewStore cfg) <= 50) as H0 by (vm_compute; done).
    revert H0. induction Hs as [|x y z Hxy _ IH]; [done|]. intros Hx. apply IH.
    destruct (step_effect _ _ _ Hxy) as [He|(seen & now & req & q & -> & Hc & Hq)].
    + pose proof (effect_pending a _ _ He). lia.
    + pose proof (created_pending a _ _ _ Hq) as Hle. destruct (EqualFold _ _) eqn:E; [|lia].
      destruct (checks_normal _ _ _ _ Hc) as (Hsn & _ & Hlim & _). pose proof (PendingLimit_max (cr_Sender q) x).
      rewrite (PendingOutboundCount_fold a (cr_Sender q) x) in Hle; [lia|].
      apply String.eqb_eq in E. rewrite <- E, Hsn. unfold normalize. by rewrite TrimSpace_idemp.
  - intros saved now req r. unfold CreateRequest. destruct (createChecks now req s) as [q|] eqn:E; [|done].
    unfold createLocked, persisted. intros Hr. repeat (case_bool_decide; [done|]). destruct saved; [|done].
    injection Hr as <-. destruct (checks_normal _ _ _ _ E) as (_ & ? & ? & ? & ? & _). done.
Qed.

(** ** Splitting an escrowed amount *)

Lemma u64_le z : 0 <= z -> 0 <= u64 z <= z.
Proof. intros. unfold u64, two64. split; [apply Z.mod_pos_bound; lia|apply Z.mod_le; lia]. Qed.

Lemma share_le a p : 0 <= a -> 0 <= p -> 0 <= u64 (a * p) / 100 /\ 100 * (u64 (a * p) / 100) <= a * p.
Proof.
  intros Ha Hp. pose proof (u64_le (a * p)) as H. split; [apply Z.div_pos; nia|].
  pose proof (Z.mul_div_le (u64 (a * p)) 100). nia.
Qed.

Lemma splitPercents_sum o :
  let '(rb, nb, tb, fb) := splitPercents o in
  0 <= rb <= 90 /\ 0 <= nb <= 90 /\ 0 <= tb <= 90 /\ 0 <= fb <= 90 /\ rb + nb + tb + fb = 100.
Proof. unfold splitPercents. repeat destruct (String.eqb _ _); lia. Qed.

(** The four shares of an escrowed amount always add up to the amount, for
    every 64-bit amount and outcome, also where the products wrap around; and as
    long as ninety times the amount fits in 64 bits each share is the percentage of
    its outcome rounded down, the remainder going to the treasury. *)
Theorem split_conserves amount outcome :
  is_u64 amount ->
  let '(rb, nb, tb, fb) := splitPercents outcome in
  let '(recipient, node, treasury, refund) := SplitBps amount outcome in
  recipient + node + treasury + refund = amount /\
  (amount * 90 < two64 ->
     recipient = amount * rb / 100 /\ node = amount * nb / 100 /\ refund = amount * fb / 100 /\
     amount * tb / 100 <= treasury <= amount * tb / 100 + 3).
Proof.
  intros [Ha0 Ha1]. unfold SplitBps. pose proof (splitPercents_sum outcome) as Hs.
  destruct (splitPercents outcome) as [[[rb nb] tb] fb]. destruct Hs as (Hr & Hn & Ht & Hf & Hsum).
  pose proof (share_le amount rb Ha0 ltac:(lia)). pose proof (share_le amount nb Ha0 ltac:(lia)).
  pose proof (share_le amount tb Ha0 ltac:(lia)). pose proof (share_le amount fb Ha0 ltac:(lia)).
  set (A := u64 (amount * rb) / 100) in *. set (B := u64 (amount * nb) / 100) in *.
  set (C := u64 (amount * tb) / 100) in *. set (D := u64 (amount * fb) / 100) in *.
  assert (100 * (A + B + C + D) <= amount * 100) as Hle by (replace 100 with (rb + nb + tb + fb) at 2; nia).
  rewrite (u64_small (A + B + C + D)) by (unfold is_u64; lia).
  set (T := if _ <? _ then _ else _).
  assert (T = amount - A - B - D) as ->.
  { subst T. destruct (_ <? _) eqn:E; bools; [rewrite u64_small; [lia|unfold is_u64; lia]|lia]. }
  split; [lia|]. intros Hb. subst A B C D.
  rewrite !u64_small in * by (unfold is_u64; nia).
  pose proof (Z.div_mod (amount * rb) 100). pose proof (Z.mod_pos_bound (amount * rb) 100).
  pose proof (Z.div_mod (amount * nb) 100). pose proof (Z.mod_pos_bound (amount * nb) 100).
  pose proof (Z.div_mod (amount * tb) 100). pose proof (Z.mod_pos_bound (amount * tb) 100).
  pose proof (Z.div_mod (amount * fb) 100). pose proof (Z.mod_pos_bound (amount * fb) 100).
  assert (amount * rb + amount * nb + amount * tb + amount * fb = amount * 100) by (rewrite <- Hsum; ring).
  repeat split; lia.
Qed.

(** ** A history *)

Definition demoConfig : Config := mkConfig true 1000 100000 5000 2000 86400 3 true.
Definition demoReq : ContactRequest :=
  mkReq "req-1" "" " Alice " "bob" "pkA" "pkB" "cipher" 100 0 "0123456789abcdef0123456789abcdef" 5000 "" "" "".
Definition demo0 : Store := NewStore demoConfig.
Definition demo1 : Store := (CreateRequest true 100 demoReq demo0 demo0).1.
Definition demo2 : Store := (Respond true 200 "req-1" "Bob" OutcomeAccepted "owned:BOB" demo1).1.

Lemma demo_run link : link demo0 demo0 -> rtc (stepIf link) demo0 demo2.
Proof.
  intros Hl. apply (rtc_l _ _ demo1); [by apply (step_create link true 100 demoReq demo0 demo0)|].
  apply (rtc_l _ _ demo2); [apply (step_respond link true 200 "req-1" "Bob" OutcomeAccepted "owned:BOB" demo1)|].
  apply rtc_refl.
Qed.

Lemma demo_steps : rtc seqstep demo0 demo2.
Proof. by apply demo_run. Qed.

Lemma demo_any_steps : rtc step demo0 demo2.
Proof. by apply demo_run. Qed.

Lemma contact_store_invariant_witness :
  (cr_Status <$> st_Requests demo2 !! "req-1") = Some StatusEstablished /\ StoreInv demo2.
Proof. split; [vm_compute; reflexivity|]. apply (contact_store_invariant demoConfig). apply demo_any_steps. Defined.

Lemma request_lifecycle_witness :
  exists r r', st_Requests demo1 !! "req-1" = Some r /\ isPending r = true /\
    st_Requests demo2 !! "req-1" = Some r' /\ evolves r r'.
Proof.
  destruct (st_Requests demo1 !! "req-1") as [r|] eqn:E; [|by vm_compute in E].
  destruct (request_lifecycle demo1 demo2 "req-1" r) as (r' & H & He & _); [|exact E|].
  { apply (rtc_l _ _ demo2); [|apply rtc_refl].
    apply (step_respond _ true 200 "req-1" "Bob" OutcomeAccepted "owned:BOB" demo1). }
  exists r, r'. split; [reflexivity|]. split; [|by split].
  assert (isPending <$> st_Requests demo1 !! "req-1" = Some true) as Hp by (vm_compute; reflexivity).
  rewrite E in Hp. by injection Hp.
Defined.

Lemma free_dm_iff_accepted_witness :
  exists id r, st_Requests demo2 !! id = Some r /\ cr_Status r = StatusEstablished /\
    sameAddresses "BOB" "alice" (cr_Sender r) (cr_Receiver r).
Proof.
  apply (free_dm_iff_accepted demoConfig demo2 "BOB" "alice"); [apply demo_any_steps|vm_compute; reflexivity..].
Defined.

Lemma pending_requests_bounded_witness : PendingOutboundCount "alice" demo2 <= 50.
Proof. apply (pending_requests_bounded demoConfig demo2 "alice"). apply demo_steps. Defined.

Lemma split_conserves_witness : SplitBps 5001 OutcomeAccepted = (3500, 1000, 501, 0) /\ 3500 + 1000 + 501 + 0 = 5001.
Proof.
  split; [vm_compute; reflexivity|].
  apply (split_conserves 5001 OutcomeAccepted). unfold is_u64, two64. lia.
Defined.
