(* ===== verification/Ownership.v ===== *)
(** * Wallet ownership and escrow intents (protocol/, escrow/, and the ownership
    checks of handlers/handlers_contact_economy.go)

    Who may act for an address: a claimed address is believed when it equals the
    address proved by a mnemonic (Core derives the keys), by a Core signature or
    by a session. The marker [owned:<addr>] is minted by the gateway after such
    a proof and never accepted from outside. The second half builds the escrow
    intents a wallet has to sign. *)

From S2P Require Import Prelude GoStd ContactEconomy.
From Stdlib Require Import Ascii.

#[local] Open Scope Z_scope.

(** ** protocol/ownership.go *)

Definition ResolveAuthenticatedOwner (claimed authenticated : string) : result string :=
  let claimed := TrimSpace claimed in
  let authenticated := TrimSpace authenticated in
  if HasPrefix claimed "owned:" || HasPrefix authenticated "owned:"
  then Err "owned: prefix is not valid ownership proof input"
  else if String.eqb authenticated "" then Err "missing authentication"
  else if String.eqb claimed "" then Err "address required"
  else if negb (EqualFold claimed authenticated) then Err "address does not match authenticated owner"
  else Ok authenticated.

Definition RejectClientOwnedProof (signature : string) : result unit :=
  if HasPrefix (TrimSpace signature) "owned:"
  then Err "owned: proof must be produced by Gateway after mnemonic verification"
  else Ok ().

Definition MintOwnedProof (verifiedOwner : string) : result string :=
  let verifiedOwner := TrimSpace verifiedOwner in
  if String.eqb verifiedOwner "" then Err "missing verified owner for mint"
  else if HasPrefix verifiedOwner "owned:" then Err "owned: prefix is not valid mint input"
  else Ok ("owned:" +:+ verifiedOwner).

Definition MintOwnedProofAfterResolve (claimed authenticated : string) : result string :=
  match ResolveAuthenticatedOwner claimed authenticated with
  | Err e => Err e
  | Ok verified => MintOwnedProof verified
  end.

(** ** Proofs given with a request

    The two calls to PlatariumCore: deriving keys from a mnemonic and checking a
    signature over a message of named fields. *)
Record KeyCore := mkKeyCore {
  GenerateKeys : string -> string -> Z -> result (gmap string string);
  VerifySignature : list (string * string) -> string -> string -> result bool
}.

Section handler_ownership.
(** [h.rustCore], nil when Core is not available. *)
Variable rustCore : option KeyCore.

Definition publicKeyOf (c : KeyCore) (mnemonic alphanumeric : string) : result string :=
  match GenerateKeys c mnemonic alphanumeric 0 with
  | Err e => Err e
  | Ok keys => Ok (default "" (keys !! "publicKey"))
  end.

(** The signature branch both checks share: [pubMain] or else the address
    itself is the key, and must be the address. *)
Definition checkCoreSignature (c : KeyCore) (msg : list (string * string)) (signature pubMain address invalid : string)
  : result string :=
  let sigHex := TrimPrefix signature "sig-core:" in
  let pub := if String.eqb pubMain "" then address else pubMain in
  match VerifySignature c msg sigHex pub with
  | Err e => Err e
  | Ok false => Err invalid
  | Ok true => ResolveAuthenticatedOwner address pub
  end.

Definition needProof : string := "provide mnemonic+alphanumeric ownership proof or sig-core signature".

Definition verifyContactPricingOwnership (address signature mnemonic alphanumeric pubMain : string) : result string :=
  let address := TrimSpace address in
  if String.eqb address "" then Err "address required"
  else match RejectClientOwnedProof signature with
  | Err e => Err e
  | Ok _ =>
      if negb (String.eqb mnemonic "") && negb (String.eqb alphanumeric "") then
        match rustCore with
        | None => Err "core unavailable for ownership proof"
        | Some c =>
            match publicKeyOf c mnemonic alphanumeric with
            | Err e => Err e
            | Ok pk =>
                match ResolveAuthenticatedOwner address pk with
                | Err e => Err e
                | Ok verified =>
                    match MintOwnedProof verified with Err e => Err e | Ok _ => Ok verified end
                end
            end
        end
      else match HasPrefix signature "sig-core:", rustCore with
           | true, Some c =>
               checkCoreSignature c [("type", "contact_pricing"); ("address", address)] signature pubMain address
                 "invalid contact pricing signature"
           | _, _ => Err needProof
           end
  end.

(** The verified actor and the proof handed to [Respond]. *)
Definition verifyContactRespondOwnership
  (actor requestID outcome signature mnemonic alphanumeric pubMain : string) : result (string * string) :=
  let actor := TrimSpace actor in
  if String.eqb actor "" then Err "actor required"
  else match RejectClientOwnedProof signature with
  | Err e => Err e
  | Ok _ =>
      if negb (String.eqb mnemonic "") && negb (String.eqb alphanumeric "") then
        match rustCore with
        | None => Err "core unavailable for ownership proof"
        | Some c =>
            match publicKeyOf c mnemonic alphanumeric with
            | Err e => Err e
            | Ok pk =>
                match MintOwnedProofAfterResolve actor pk with
                | Err e => Err e
                | Ok proof =>
                    match ResolveAuthenticatedOwner actor pk with Err e => Err e | Ok verified => Ok (verified, proof) end
                end
            end
        end
      else match HasPrefix signature "sig-core:", rustCore with
           | true, Some c =>
               match checkCoreSignature c
                       [("type", "contact_respond"); ("requestId", requestID); ("outcome", outcome); ("actor", actor)]
                       signature pubMain actor "invalid contact respond signature" with
               | Err e => Err e
               | Ok verified => Ok (verified, signature)
               end
           | _, _ => Err needProof
           end
  end.
End handler_ownership.

(** ** escrow/types.go and escrow/intent.go *)

Definition TxKindLock : string := "escrow_lock".
Definition TxKindSettle : string := "escrow_settle".
Definition TxKindRefund : string := "escrow_refund".
Definition TxKindCancel : string := "escrow_cancel".
Definition PurposeContact : string := "contact".
Definition PurposeDeal : string := "deal".

Record EscrowStatus := mkEscrowStatus {
  es_EscrowID : string; es_Purpose : string; es_Creator : string; es_Beneficiary : string; es_AmountUplp : Z;
  es_Asset : string; es_Status : string; es_LockTxHash : string; es_SettleTxHash : string; es_ExpiresAt : Z;
  es_OutcomeKey : string
}.

Record SettleIntent := mkSettle {
  si_TxKind : string; si_EscrowID : string; si_Purpose : string; si_OutcomeKey : string; si_AmountUplp : Z;
  si_Beneficiary : string; si_Creator : string; si_SuggestedNode : string; si_LockTxHash : string
}.

Record LockPayload := mkLock {
  lp_TxKind : string; lp_EscrowID : string; lp_Creator : string; lp_Beneficiary : string; lp_Amount : Z;
  lp_Purpose : string; lp_RulesHash : string; lp_ExpiresAt : Z; lp_Nonce : Z
}.

Definition DefaultPurpose (purpose : string) : string :=
  if String.eqb (TrimSpace purpose) "" then PurposeContact else purpose.

Definition MapProtocolOutcome (protocolOutcome : string) : string :=
  if bool_decide (protocolOutcome ∈ ["accepted"; "accept"]) then "accept"
  else if bool_decide (protocolOutcome = "timeout") then "timeout"
  else if bool_decide (protocolOutcome ∈ ["rejected"; "reject"]) then "reject"
  else if bool_decide (protocolOutcome ∈ ["cancelled"; "canceled"; "cancel"]) then "cancel"
  else "".

Definition IsEscrowTxKind (t : string) : bool :=
  bool_decide (t ∈ [TxKindLock; TxKindSettle; TxKindRefund; TxKindCancel; "contact_escrow_lock"; "contact_escrow_settle"]).

Definition BuildSettleIntent (escrowID purpose protocolOutcome : string) (amountUplp : Z)
  (creator beneficiary lockTxHash nodeHint : string) : SettleIntent :=
  mkSettle TxKindSettle escrowID purpose (MapProtocolOutcome protocolOutcome) amountUplp beneficiary creator nodeHint
    lockTxHash.

Definition BuildLockPayload (escrowID creator beneficiary purpose rulesHash : string) (amount expiresAt nonce : Z)
  : LockPayload :=
  mkLock TxKindLock escrowID creator beneficiary amount (DefaultPurpose purpose) rulesHash expiresAt nonce.

(** ** protocol/contact.go *)

Definition ContactSettleFromRequest (req : ContactRequest) (nodeHint : string) : SettleIntent :=
  let outcome := if String.eqb (cr_SettleOutcome req) "" then OutcomeTimeout else cr_SettleOutcome req in
  let escrowID := if String.eqb (cr_RequestIDHash req) "" then RequestIDHash (cr_RequestID req) else cr_RequestIDHash req in
  BuildSettleIntent escrowID PurposeContact outcome (cr_AmountUplp req) (cr_Sender req) (cr_Receiver req)
    (cr_LockTxHash req) nodeHint.

Definition ContactLockPayload (escrowID creator beneficiary : string) (amount expiresAt nonce : Z) : LockPayload :=
  BuildLockPayload escrowID creator beneficiary PurposeContact "" amount expiresAt nonce.

Definition StatusFromContactRequest (req : ContactRequest) : EscrowStatus :=
  let st :=
    if String.eqb (cr_Status req) StatusEstablished then "RELEASED"
    else if String.eqb (cr_Status req) StatusRejected then "REFUNDED"
    else if String.eqb (cr_Status req) StatusExpired then "EXPIRED"
    else "LOCKED" in
  mkEscrowStatus (cr_RequestIDHash req) PurposeContact (cr_Sender req) (cr_Receiver req) (cr_AmountUplp req) "PLP" st
    (cr_LockTxHash req) (cr_SettleTxHash req) (cr_ExpiresAt req) (MapProtocolOutcome (cr_SettleOutcome req)).

(** ** Facts *)

Lemma resolve_spec claimed auth v :
  ResolveAuthenticatedOwner claimed auth = Ok v ->
  v = TrimSpace auth /\ v <> "" /\ HasPrefix v "owned:" = false /\ EqualFold (TrimSpace claimed) v = true.
Proof.
  unfold ResolveAuthenticatedOwner. intros H.
  destruct (_ || _) eqn:E1; [done|]. apply orb_false_iff in E1 as [_ E1].
  destruct (String.eqb (TrimSpace auth) "") eqn:E2; [done|]. destruct (String.eqb (TrimSpace claimed) ""); [done|].
  destruct (EqualFold _ _) eqn:E3; [|done]. simplify_eq/=. by apply String.eqb_neq in E2.
Qed.

Lemma mint_spec v p :
  MintOwnedProof v = Ok p -> p = "owned:" +:+ TrimSpace v /\ TrimSpace v <> "".
Proof. unfold MintOwnedProof. intros H. repeat split_match. bools. done. Qed.

(** A resolved owner can always be minted. *)
Lemma resolve_mint claimed auth v : ResolveAuthenticatedOwner claimed auth = Ok v -> MintOwnedProof v = Ok ("owned:" +:+ v).
Proof.
  intros (-> & Hne & Ho & _)%resolve_spec. unfold MintOwnedProof. rewrite TrimSpace_idemp, Ho.
  by apply String.eqb_neq in Hne as ->.
Qed.

Lemma reject_spec sig : RejectClientOwnedProof sig = Ok () <-> HasPrefix (TrimSpace sig) "owned:" = false.
Proof. unfold RejectClientOwnedProof. destruct (HasPrefix _ _); by split. Qed.

(** What a proof handed to [Respond] looks like for a verified actor. *)
Definition good_proof (v proof : string) : Prop :=
  TrimSpace v = v /\ v <> "" /\ (proof = "owned:" +:+ v \/ HasPrefix proof "sig-core:" = true).

Lemma sig_core_shape sig :
  HasPrefix sig "sig-core:" = true ->
  TrimSpace sig <> "" /\ HasPrefix sig "owned:" = false /\ HasPrefix sig "sig-" = true.
Proof.
  intros H. pose proof (prefix_split _ _ H) as E. rewrite E. split; [|split; reflexivity].
  apply (TrimSpace_nonempty "s"%char); [reflexivity|]. reflexivity.
Qed.

(** With a good proof the outcome of [Respond] depends on the request alone. *)
Lemma respond_good_proof saved now id v outcome proof s :
  good_proof v proof ->
  is_ok (Respond saved now id v outcome proof s).2 = true <->
  saved = true /\ (outcome = OutcomeAccepted \/ outcome = OutcomeRejected) /\
  exists r, st_Requests s !! id = Some r /\ isPending r = true /\ EqualFold (cr_Receiver r) v = true /\ now <= cr_ExpiresAt r.
Proof.
  intros (Ht & Hne & Hp).
  assert (Hgate : forall A (x y z w : A),
    (if String.eqb (TrimSpace proof) "" then x
     else if HasPrefix proof "sig-" && negb (HasPrefix proof "sig-core:") then y
     else if HasPrefix proof "owned:" &&
       (String.eqb (normalize (TrimPrefix proof "owned:")) "" || negb (EqualFold (normalize (TrimPrefix proof "owned:")) (normalize v)))
     then z else w) = w).
  { intros A x y z w. destruct Hp as [->|Hs].
    - rewrite (TrimPrefix_app "owned:" v). unfold normalize. rewrite Ht, EqualFold_refl.
      rewrite (proj2 (String.eqb_neq _ _) (TrimSpace_nonempty "o"%char ("owned:" +:+ v) eq_refl eq_refl)).
      rewrite (proj2 (String.eqb_neq _ _) Hne). simpl. by rewrite andb_false_r.
    - destruct (sig_core_shape _ Hs) as (Hn & Ho & _).
      rewrite (proj2 (String.eqb_neq _ _) Hn), Ho, Hs. simpl. by rewrite andb_false_r. }
  unfold Respond. cbv zeta. rewrite Hgate. unfold normalize. rewrite Ht.
  destruct (st_Requests s !! id) as [r|] eqn:Er; [|split; [done|by intros (_ & _ & ? & ? & _)]].
  destruct (isPending r) eqn:Epend; simpl; [|split; [done|intros (_ & _ & ? & ? & ? & _); congruence]].
  destruct (EqualFold (cr_Receiver r) v) eqn:Ef; simpl; [|split; [done|intros (_ & _ & ? & ? & _ & ? & _); congruence]].
  destruct (Z.ltb_spec (cr_ExpiresAt r) now) as [Hx|Hx].
  { split; [done|]. intros (_ & _ & ? & ? & _ & _ & Hle). simplify_eq. lia. }
  destruct (String.eqb_spec outcome OutcomeAccepted) as [->|Ha].
  { destruct saved; simpl; (split; [intros H; try done|by intros [? _]]). split_and!; eauto. }
  destruct (String.eqb_spec outcome OutcomeRejected) as [->|Hr].
  { destruct saved; simpl; (split; [intros H; try done|by intros [? _]]). split_and!; eauto. }
  split; [done|]. by intros (_ & [?|?] & _).
Qed.

(** How a REST request proves that it acts for [v]: Core derived the wallet [v]
    from the mnemonic, or checked a signature over the message with key [v]. *)
Definition proven (core : option KeyCore) (msg : list (string * string)) (signature mnemonic alphanumeric pubMain address v : string)
  : Prop :=
  exists c, core = Some c /\
  ((mnemonic <> "" /\ alphanumeric <> "" /\ exists pk, publicKeyOf c mnemonic alphanumeric = Ok pk /\ v = TrimSpace pk) \/
   (HasPrefix signature "sig-core:" = true /\ exists pub, pub = (if String.eqb pubMain "" then address else pubMain) /\
      VerifySignature c msg (TrimPrefix signature "sig-core:") pub = Ok true /\ v = TrimSpace pub)).

Definition respondMessage (requestID outcome actor : string) : list (string * string) :=
  [("type", "contact_respond"); ("requestId", requestID); ("outcome", outcome); ("actor", actor)].

Lemma checkCoreSignature_spec c msg sig pm addr inv v :
  checkCoreSignature c msg sig pm addr inv = Ok v ->
  exists pub, pub = (if String.eqb pm "" then addr else pm) /\
    VerifySignature c msg (TrimPrefix sig "sig-core:") pub = Ok true /\ ResolveAuthenticatedOwner addr pub = Ok v.
Proof.
  unfold checkCoreSignature. intros H.
  destruct (VerifySignature c msg _ _) as [[|]|] eqn:E; try done. eauto.
Qed.

Lemma verify_respond_spec core actor id outcome sig mn al pm v proof :
  verifyContactRespondOwnership core actor id outcome sig mn al pm = Ok (v, proof) ->
  proven core (respondMessage id outcome (TrimSpace actor)) sig mn al pm (TrimSpace actor) v /\
  EqualFold (TrimSpace actor) v = true /\ good_proof v proof /\ HasPrefix (TrimSpace sig) "owned:" = false.
Proof.
  unfold verifyContactRespondOwnership. intros H.
  destruct (String.eqb (TrimSpace actor) ""); [done|].
  destruct (RejectClientOwnedProof sig) as [[]|] eqn:Erej; [|done]. apply reject_spec in Erej.
  destruct (_ && _) eqn:Em.
  - destruct core as [c|]; [|done]. destruct (publicKeyOf c mn al) as [pk|] eqn:Ek; [|done].
    unfold MintOwnedProofAfterResolve in H.
    destruct (ResolveAuthenticatedOwner (TrimSpace actor) pk) as [w|] eqn:Er; [|done].
    rewrite (resolve_mint _ _ _ Er) in H. simplify_eq. apply resolve_spec in Er as (-> & Hne & Ho & Hf).
    rewrite TrimSpace_idemp in Hf. bools. split_and!; try done.
    + exists c. split; [done|]. left. split_and!; try done. by exists pk.
    + split_and!; [apply TrimSpace_idemp|done|by left].
  - destruct (HasPrefix sig "sig-core:") eqn:Es, core as [c|]; try done.
    destruct (checkCoreSignature c _ sig pm _ _) as [w|] eqn:Ec; [|done]. simplify_eq.
    apply checkCoreSignature_spec in Ec as (pub & Hpub & Hv & (-> & Hne & Ho & Hf)%resolve_spec).
    rewrite TrimSpace_idemp in Hf. split_and!; try done.
    + exists c. split; [done|]. right. split; [done|]. by exists pub.
    + split_and!; [apply TrimSpace_idemp|done|by right].
Qed.

(** an answer to a contact request over REST. When the ownership check
    passes, Core proved that the caller holds the wallet it answers for (by the
    keys of its mnemonic, or a signature over this request, outcome and actor);
    a marker [owned:] sent by the client is never the proof; and the store then
    accepts the answer exactly when a request with that id is pending, addressed
    to that wallet, not expired, and the outcome is accepted or rejected. *)
Theorem respond_needs_and_suffices_proof core actor id outcome sig mn al pm v proof saved now s :
  verifyContactRespondOwnership core actor id outcome sig mn al pm = Ok (v, proof) ->
  proven core (respondMessage id outcome (TrimSpace actor)) sig mn al pm (TrimSpace actor) v /\
  EqualFold (TrimSpace actor) v = true /\ HasPrefix (TrimSpace sig) "owned:" = false /\
  (is_ok (Respond saved now id v outcome proof s).2 = true <->
   saved = true /\ (outcome = OutcomeAccepted \/ outcome = OutcomeRejected) /\
   exists r, st_Requests s !! id = Some r /\ isPending r = true /\ EqualFold (cr_Receiver r) v = true /\
     now <= cr_ExpiresAt r).
Proof.
  intros (Hp & Hf & Hg & Ho)%verify_respond_spec. split_and!; try done. by apply respond_good_proof.
Qed.

(** ** Witness *)

Definition demoKeys : KeyCore :=
  mkKeyCore (fun mn _ _ => Ok {[ "publicKey" := "PxBob" ]}) (fun _ _ _ => Ok false).

Definition demoReq : ContactRequest :=
  mkReq "r1" "" "PxAlice" "pxbob" "" "" "cipher" 10 100 "lock" 5 StatusPending "" "".

Definition demoCfg : Config := mkConfig true 1 1000 5 2 90 3 true.

Definition demoContacts : Store := setRequest "r1" demoReq (NewStore demoCfg).

Lemma respond_needs_and_suffices_proof_witness :
  verifyContactRespondOwnership (Some demoKeys) " pxBOB" "r1" OutcomeAccepted "" "words" "alnum" "" = Ok ("PxBob", "owned:PxBob") /\
  is_ok (Respond true 50 "r1" "PxBob" OutcomeAccepted "owned:PxBob" demoContacts).2 = true.
Proof.
  assert (H : verifyContactRespondOwnership (Some demoKeys) " pxBOB" "r1" OutcomeAccepted "" "words" "alnum" ""
    = Ok ("PxBob", "owned:PxBob")) by (vm_compute; reflexivity).
  split; [exact H|].
  apply (respond_needs_and_suffices_proof _ _ _ _ _ _ _ _ _ _ true 50 demoContacts H).
  split; [reflexivity|]. split; [left; reflexivity|]. exists demoReq.
  split; [reflexivity|]. split; [reflexivity|]. split; [reflexivity|]. vm_compute. discriminate.
Defined.
