(* ===== verification/Messaging.v ===== *)
(** * internal/websocket: sessions, direct messages and contact messages
    (server.go, messaging.go, address.go)

    A [*Client] is shared by the connection's reader, [s.clients] and
    [s.clientsByAddr] and is assigned through the pointer. Clients live in
    [sv_heap] under their ID, and the two maps hold IDs. A handler returns the
    new server and what it wrote: [Sent id e] for a write that reached the
    socket [id], [Routed] for a message handed to the peer nodes. Whether a
    write reaches its socket is an argument [net]. A write whose error is
    dropped has no other effect; only [fanOutJSON] and the delivery of buffered
    messages react to it. [now] is [time.Now().Unix()] in the handler.

    A handler runs in several sections under [s.mu]. [handleDirectMessage] and
    [handleWebSocket] take what other goroutines do between their sections as an
    argument [meanwhile]. *)

From S2P Require Import Prelude GoStd GoJson Tx Chain ContactEconomy Ownership.

#[local] Open Scope Z_scope.

(** ** address.go *)

Fixpoint hexDigits (s : string) : bool :=
  match s with
  | EmptyString => true
  | String c s' =>
      let n := Ascii.N_of_ascii c in
      ((48 <=? n)%N && (n <=? 57)%N || (97 <=? n)%N && (n <=? 102)%N) && hexDigits s'
  end.

Definition isHexString (s : string) : bool := negb (String.eqb s "") && hexDigits s.

Definition normalizePlatariumAddress (addr : string) : string :=
  let v := TrimSpace addr in
  if len v <? 3 then v
  else if HasPrefix v "Px" || HasPrefix v "px" then
    let lower := ToLower (str_drop 2 v) in
    if isHexString lower then "Px" +:+ lower else v
  else v.

(** ** server.go: state *)

Record Client := mkClient {
  cl_ID : string; cl_IPAddress : string; cl_ConnectedAt : Z; cl_Address : string; cl_Authenticated : bool;
  cl_DeviceID : string; cl_DeviceLabel : string
}.

Definition AuthenticatedOwner (c : Client) : string := if cl_Authenticated c then cl_Address c else "".

Record OfflineMessage := mkOffline {
  om_From : string; om_To : string; om_Text : string; om_Timestamp : Z; om_BufferedAt : Z
}.

#[export] Instance OfflineMessage_eq_dec : EqDecision OfflineMessage.
Proof. solve_decision. Defined.

Notation idset := (gmap string unit).

Record Server := mkServer {
  sv_heap : gmap string Client;
  sv_clients : gset string;
  sv_clientsByAddr : gmap string idset;
  sv_offlineMessages : gmap string (list OfflineMessage);
  sv_e2eePubKeys : gmap string string;
  sv_groupProtocolHits : gmap string (list Z);
  sv_contactEconomy : option Store
}.

Definition NewServer : Server := mkServer ∅ ∅ ∅ ∅ ∅ ∅ None.

Definition SetContactEconomy (store : option Store) (s : Server) : Server :=
  mkServer (sv_heap s) (sv_clients s) (sv_clientsByAddr s) (sv_offlineMessages s) (sv_e2eePubKeys s)
    (sv_groupProtocolHits s) store.

Definition with_heap (h : gmap string Client) (s : Server) : Server :=
  mkServer h (sv_clients s) (sv_clientsByAddr s) (sv_offlineMessages s) (sv_e2eePubKeys s) (sv_groupProtocolHits s)
    (sv_contactEconomy s).

Definition with_clients (cs : gset string) (s : Server) : Server :=
  mkServer (sv_heap s) cs (sv_clientsByAddr s) (sv_offlineMessages s) (sv_e2eePubKeys s) (sv_groupProtocolHits s)
    (sv_contactEconomy s).

Definition with_byAddr (m : gmap string idset) (s : Server) : Server :=
  mkServer (sv_heap s) (sv_clients s) m (sv_offlineMessages s) (sv_e2eePubKeys s) (sv_groupProtocolHits s)
    (sv_contactEconomy s).

Definition with_offline (m : gmap string (list OfflineMessage)) (s : Server) : Server :=
  mkServer (sv_heap s) (sv_clients s) (sv_clientsByAddr s) m (sv_e2eePubKeys s) (sv_groupProtocolHits s)
    (sv_contactEconomy s).

Definition with_e2ee (m : gmap string string) (s : Server) : Server :=
  mkServer (sv_heap s) (sv_clients s) (sv_clientsByAddr s) (sv_offlineMessages s) m (sv_groupProtocolHits s)
    (sv_contactEconomy s).

Definition with_hits (m : gmap string (list Z)) (s : Server) : Server :=
  mkServer (sv_heap s) (sv_clients s) (sv_clientsByAddr s) (sv_offlineMessages s) (sv_e2eePubKeys s) m
    (sv_contactEconomy s).

(** What is written to a socket. *)
Record deviceEntry := mkDevice { de_deviceId : string; de_deviceLabel : string; de_clientId : string; de_connectedAt : Z }.

Inductive event :=
| EvPong
| EvRegistered (address : string) (authenticated : bool) (deviceID deviceLabel : string) (devices : list deviceEntry)
| EvRegisterError (error : string)
| EvMessage (from to text : string) (timestamp : Z)
| EvMessageSent (to : string) (delivered : bool) (deviceCount : Z) (devices own : list deviceEntry) (sendID : string)
| EvMessageError (error to sendID : string)
| EvForceLogout (reason deviceID : string)
| EvLogoutResult (ok : bool) (deviceID : string)
| EvDevicesUpdate (address : string) (devices : list deviceEntry)
| EvE2eePubKey (address requestID publicKey : string)
| EvProtocolContact (peer : string) (established : bool) (requestID : string)
| EvContactRequest (req : ContactRequest)
| EvContactRequestAck (req : ContactRequest)
| EvContactResolved (req : ContactRequest) (encryptedResponse : string)
| EvContactRespondAck (req : ContactRequest) (settleIntent : SettleIntent)
| EvContactPricingAck (pricing : PricingAnnounce)
| EvError (kind error : string)
| EvBroadcast (eventType : string) (data : jobj).

Inductive output :=
| Sent (id : string) (e : event)
| Routed (from to text : string) (timestamp : Z).

Notation Net := (string -> bool).

(** [tryWriteJSON] and the writes whose error is dropped. *)
Definition write (net : Net) (id : string) (e : event) : list output := if net id then [Sent id e] else [].

Definition maxDirectMessageTextBytes : Z := 12 * 1024 * 1024.
Definition offlineMessageTTLSeconds : Z := 86400.
Definition offlineMessageMaxPerRecipient : Z := 500.
Definition wsPurposeGroupProtocol : string := "group_protocol".
Definition groupProtocolRateLimit : Z := 120.
Definition groupProtocolRateWindowSecs : Z := 60.

Section server.
Context {R : GoRange} {C : GoConv}.

(** [s.proveOwnership], nil until the handler sets it. *)
Variable proveOwnership : option (string -> string -> string -> string -> string -> result unit).

(** ** Sessions of an address *)

Definition sessionsOf (s : Server) (address : string) : idset := default ∅ (sv_clientsByAddr s !! address).

Definition removeClientFromAddrLocked (address clientID : string) (s : Server) : Server :=
  match sv_clientsByAddr s !! address with
  | None => s
  | Some m =>
      let m := delete clientID m in
      with_byAddr (if bool_decide (m = ∅) then delete address (sv_clientsByAddr s)
                   else <[address := m]> (sv_clientsByAddr s)) s
  end.

Definition setClient (c : Client) (s : Server) : Server := with_heap (<[cl_ID c := c]> (sv_heap s)) s.

Definition logOut (c : Client) : Client :=
  mkClient (cl_ID c) (cl_IPAddress c) (cl_ConnectedAt c) "" false (cl_DeviceID c) (cl_DeviceLabel c).

(** The sessions of the address that the same device holds on another socket. *)
Definition replacedBy (client : Client) (s : Server) (address : string) : list Client :=
  if String.eqb (cl_DeviceID client) "" then []
  else filter (fun c => cl_DeviceID c = cl_DeviceID client /\ cl_ID c <> cl_ID client)
         (omap (fun kv => sv_heap s !! kv.1) (range (sessionsOf s address))).

(** The replaced sessions lose address and authentication, get a [forceLogout]
    and leave the map; the client enters it. *)
Definition addClientToAddrLocked (net : Net) (address : string) (client : Client) (s : Server) : Server * list output :=
  let old := replacedBy client s address in
  let m := foldl (fun m c => delete (cl_ID c) m) (sessionsOf s address) old in
  let s := foldl (fun s c => setClient (logOut c) s) s old in
  (with_byAddr (<[address := <[cl_ID client := ()]> m]> (sv_clientsByAddr s)) s,
   old ≫= fun c => write net (cl_ID c) (EvForceLogout "device_replaced" "")).

Definition snapshotClientsForAddr (address : string) (s : Server) : list string := (range (sessionsOf s address)).*1.

Definition deviceEntriesForAddrLocked (address : string) (s : Server) : list deviceEntry :=
  omap (fun kv => (fun c => mkDevice (cl_DeviceID c) (cl_DeviceLabel c) (cl_ID c) (cl_ConnectedAt c)) <$> sv_heap s !! kv.1)
    (range (sessionsOf s address)).

Definition addressOf (id : string) (s : Server) : string := default "" (cl_Address <$> sv_heap s !! id).

(** A socket whose write failed leaves both maps. *)
Definition dropDead (s : Server) (id : string) : Server :=
  let s := if String.eqb (addressOf id s) "" then s else removeClientFromAddrLocked (addressOf id s) id s in
  with_clients (sv_clients s ∖ {[id]}) s.

Definition fanOutJSON (net : Net) (address : string) (e : event) (s : Server) : Server * list output * Z :=
  let recipients := snapshotClientsForAddr address s in
  let okIds := filter (fun id => net id = true) recipients in
  let dead := filter (fun id => net id = false) recipients in
  (foldl dropDead s dead, (fun id => Sent id e) <$> okIds, Z.of_nat (length okIds)).

Definition broadcastDevicesUpdate (net : Net) (address : string) (s : Server) : list output :=
  if String.eqb address "" then []
  else snapshotClientsForAddr address s ≫= fun id =>
    write net id (EvDevicesUpdate address (deviceEntriesForAddrLocked address s)).

(** [for _, c := range s.clients]. *)
Definition everyClient (net : Net) (e : event) (s : Server) : list output :=
  elements (sv_clients s) ≫= fun id => write net id e.

Definition broadcastE2eePubKeyAnnouncement (net : Net) (addr publicKey : string) (s : Server) : list output :=
  if String.eqb publicKey "" || String.eqb addr "" then [] else everyClient net (EvE2eePubKey addr "" publicKey) s.

Definition BroadcastToClients (net : Net) (eventType : string) (data : jobj) (s : Server) : list output :=
  everyClient net (EvBroadcast eventType data) s.

(** ** Connecting *)

Definition acceptClient (id ip : string) (now : Z) (s : Server) : Server :=
  let c := mkClient id ip now "" false "" "" in
  with_clients (sv_clients s ∪ {[id]}) (setClient c s).

(** The deferred function of [handleWebSocket]. *)
Definition cleanupClient (net : Net) (id : string) (s : Server) : Server * list output :=
  if bool_decide (id ∈ sv_clients s) then
    let addr := addressOf id s in
    let s := with_clients (sv_clients s ∖ {[id]}) s in
    let s := if String.eqb addr "" then s else removeClientFromAddrLocked addr id s in
    (s, broadcastDevicesUpdate net addr s)
  else (s, []).

(** A client connection (not a peer's): the reader is started as a goroutine, so
    the function returns, and its deferred clean-up runs, right after. [meanwhile]
    is what goroutines, the reader included, do before that. *)
Definition handleWebSocket (net : Net) (id ip : string) (now : Z) (meanwhile : Server -> Server) (s : Server)
  : Server * list output :=
  cleanupClient net id (meanwhile (acceptClient id ip now s)).

(** ** Registration *)

Definition offlineMessageAgeOK (m : OfflineMessage) (now : Z) : bool :=
  let ba := if om_BufferedAt m =? 0 then om_Timestamp m else om_BufferedAt m in
  i64 (now - ba) <=? offlineMessageTTLSeconds.

Definition resolveRegisterAuthentication (address : string) (data : jobj) : result bool :=
  let sig := getString data "signature" in
  let mnemonic := getString data "mnemonic" in
  let alphanumeric := getString data "alphanumeric" in
  let pubMain := getString data "pubMain" in
  let hasProof := (negb (String.eqb (TrimSpace mnemonic) "") && negb (String.eqb (TrimSpace alphanumeric) "")) ||
                  HasPrefix (TrimSpace sig) "sig-core:" in
  if negb hasProof then Ok false
  else match proveOwnership with
  | None => Err "ownership prover unavailable"
  | Some prove => match prove address sig mnemonic alphanumeric pubMain with Err e => Err e | Ok _ => Ok true end
  end.

Definition orElse (v fallback : string) : string := if String.eqb v "" then fallback else v.

(** The locked section of [bindClientRegister]: the new server, the forced
    log-outs, and the buffered messages taken. *)
Definition bindLocked (net : Net) (client : Client) (addressRaw address deviceID deviceLabel pk : string) (authed : bool)
  (s : Server) : Server * list output * list OfflineMessage :=
  let old := normalizePlatariumAddress (cl_Address client) in
  let s := if negb (String.eqb (cl_Address client) "") && negb (String.eqb old address)
           then removeClientFromAddrLocked old (cl_ID client) s else s in
  let client := mkClient (cl_ID client) (cl_IPAddress client) (cl_ConnectedAt client) address authed deviceID deviceLabel in
  let '(s, outs) := addClientToAddrLocked net address client (setClient client s) in
  let s := if String.eqb pk "" then s else with_e2ee (<[address := pk]> (sv_e2eePubKeys s)) s in
  let buf := default [] (sv_offlineMessages s !! address) in
  let useRaw := bool_decide (buf = []) && negb (String.eqb addressRaw address) in
  let pending := if useRaw then default [] (sv_offlineMessages s !! addressRaw) else buf in
  let off := if useRaw then delete addressRaw (sv_offlineMessages s) else sv_offlineMessages s in
  (with_offline (delete address off) s, outs, pending).

(** The buffered messages are written in order until a write fails; [net i] is
    the network at the [i]-th write. *)
Fixpoint deliverPending (net : nat -> Net) (i : nat) (id : string) (pending : list OfflineMessage) : list output :=
  match pending with
  | [] => []
  | m :: rest =>
      if net i id then Sent id (EvMessage (om_From m) (om_To m) (om_Text m) (om_Timestamp m)) :: deliverPending net (S i) id rest
      else []
  end.

Definition bindClientRegister (net : nat -> Net) (now : Z) (id : string) (data : jobj) (s : Server)
  : result (Server * list output) :=
  let addressRaw := getString data "address" in
  if String.eqb addressRaw "" then Err "address required"
  else
  let address := normalizePlatariumAddress addressRaw in
  let deviceID := orElse (TrimSpace (getString data "deviceId")) id in
  let deviceLabel := orElse (TrimSpace (getString data "deviceLabel")) "Device" in
  match resolveRegisterAuthentication address data, sv_heap s !! id with
  | Err e, _ => Err e
  | Ok authed, None => Err "no such client"
  | Ok authed, Some client =>
      let pk := getString data "e2eePublicKey" in
      let '(s, outs, pending) := bindLocked (net 0%nat) client addressRaw address deviceID deviceLabel pk authed s in
      let devices := deviceEntriesForAddrLocked address s in
      let pending := filter (fun m => offlineMessageAgeOK m now = true) pending in
      Ok (s, outs ++ write (net 0%nat) id (EvRegistered address authed deviceID deviceLabel devices)
               ++ deliverPending net 1 id pending
               ++ broadcastDevicesUpdate (net 0%nat) address s
               ++ broadcastE2eePubKeyAnnouncement (net 0%nat) address pk s)
  end.

Definition handleClientRegister (net : nat -> Net) (now : Z) (id : string) (data : jobj) (s : Server) : Server * list output :=
  match bindClientRegister net now id data s with
  | Ok r => r
  | Err e => (s, write (net 0%nat) id (EvRegisterError e))
  end.

(** ** Devices *)

Definition handleDevicesList (net : Net) (id : string) (s : Server) : list output :=
  let addr := addressOf id s in
  if String.eqb addr "" then [] else write net id (EvDevicesUpdate addr (deviceEntriesForAddrLocked addr s)).

(** The target is told and its socket closed: the maps do not change. *)
Definition handleDevicesLogout (net : Net) (id : string) (data : jobj) (s : Server) : list output :=
  let addr := addressOf id s in
  let targetDeviceID := TrimSpace (getString data "deviceId") in
  if String.eqb addr "" || String.eqb targetDeviceID "" then []
  else match list_find (fun c => cl_DeviceID c = targetDeviceID)
               (omap (fun kv => sv_heap s !! kv.1) (range (sessionsOf s addr))) with
  | None => write net id (EvLogoutResult false "")
  | Some (_, target) =>
      write net (cl_ID target) (EvForceLogout "remote_logout" targetDeviceID) ++ write net id (EvLogoutResult true targetDeviceID)
  end.

(** ** Direct messages *)

Definition allowGroupProtocolSend (from : string) (now : Z) (s : Server) : Server * bool :=
  let key := normalizePlatariumAddress from in
  let cutoff := i64 (now - groupProtocolRateWindowSecs) in
  let kept := filter (fun ts => cutoff <= ts) (default [] (sv_groupProtocolHits s !! key)) in
  if groupProtocolRateLimit <=? Z.of_nat (length kept)
  then (with_hits (<[key := kept]> (sv_groupProtocolHits s)) s, false)
  else (with_hits (<[key := kept ++ [now]]> (sv_groupProtocolHits s)) s, true).

(** [buf[len(buf)-max:]] when the buffer is longer than [max]. *)
Definition capBuffer (buf : list OfflineMessage) : list OfflineMessage :=
  if offlineMessageMaxPerRecipient <? Z.of_nat (length buf)
  then drop (length buf - Z.to_nat offlineMessageMaxPerRecipient) buf else buf.

Definition bufferMessage (to : string) (m : OfflineMessage) (s : Server) : Server :=
  let buf := default [] (sv_offlineMessages s !! to) in
  with_offline (<[to := capBuffer (buf ++ [m])]> (sv_offlineMessages s)) s.

(** The checks before routing: the server after them, and the reason to refuse. *)
Definition messageGate (from to : string) (groupProtocol : bool) (now : Z) (s : Server) : Server * option string :=
  if String.eqb from "" then (s, Some "You must register your address first")
  else
  let '(s, allowed) := if groupProtocol then allowGroupProtocolSend from now s else (s, true) in
  if negb allowed then (s, Some "group_protocol_rate_limited")
  else match sv_contactEconomy s with
       | Some ce => if negb groupProtocol && negb (CanSendFreeDM from to ce) then (s, Some "protocol_contact_required") else (s, None)
       | None => (s, None)
       end.

(** Routing once the gate is passed. [recipients] is the snapshot taken before
    [meanwhile]; [hasPeers] tells whether there is a node manager. *)
Definition routeMessage (net : Net) (hasPeers : bool) (now : Z) (id from to text sendID : string) (recipients : list string)
  (s : Server) : Server * list output :=
  let sent delivered count devices s :=
    write net id (EvMessageSent to delivered count devices (deviceEntriesForAddrLocked from s) sendID) in
  let m := mkOffline from to text now now in
  if bool_decide (recipients = []) then
    let s := bufferMessage to m s in
    (s, (if hasPeers then [Routed from to text now] else []) ++ sent false 0 [] s)
  else
  let '(s, outs, okCount) := fanOutJSON net to (EvMessage from to text now) s in
  if okCount =? 0 then
    let s := bufferMessage to m s in (s, outs ++ sent false 0 [] s)
  else
  (s, outs ++ sent true okCount (deviceEntriesForAddrLocked to s) s ++
      (if String.eqb from to then []
       else filter (fun c => c <> id) (snapshotClientsForAddr from s) ≫= fun c => write net c (EvMessage from to text now))).

Definition handleDirectMessage (net : Net) (hasPeers : bool) (now : Z) (meanwhile : Server -> Server) (id : string) (data : jobj)
  (s : Server) : Server * list output :=
  let toRaw := getString data "to" in
  let text := getString data "text" in
  let from := addressOf id s in
  if String.eqb toRaw "" || String.eqb text ""
  then (s, write net id (EvMessageError "Invalid message format: 'to' and 'text' are required" "" ""))
  else if maxDirectMessageTextBytes <? len text then (s, write net id (EvMessageError "Message too large" "" ""))
  else
  let to := normalizePlatariumAddress toRaw in
  let groupProtocol := String.eqb (TrimSpace (getString data "purpose")) wsPurposeGroupProtocol in
  let sendID := TrimSpace (getString data "sendId") in
  let '(s, refusal) := messageGate from to groupProtocol now s in
  match refusal with
  | Some e => (s, write net id (EvMessageError e to sendID))
  | None =>
      let recipients := snapshotClientsForAddr to s in
      let recipients := if bool_decide (recipients = []) && negb (String.eqb toRaw to)
                        then snapshotClientsForAddr toRaw s else recipients in
      routeMessage net hasPeers now id from to text sendID recipients (meanwhile s)
  end.

Definition HandleIncomingPeerMessage (net : Net) (now : Z) (data : jobj) (s : Server) : Server * list output :=
  let toRaw := getString data "to" in
  let fromRaw := getString data "from" in
  let text := getString data "text" in
  if String.eqb toRaw "" || String.eqb fromRaw "" || String.eqb text "" then (s, [])
  else
  let to := normalizePlatariumAddress toRaw in
  let from := normalizePlatariumAddress fromRaw in
  let ts := getInt data "timestamp" in
  let '(s, outs, ok) := fanOutJSON net to (EvMessage from to text ts) s in
  if 0 <? ok then (s, outs)
  else (bufferMessage to (mkOffline from to text (if ts =? 0 then now else ts) now) s, outs).

(** [pruneExpiredOfflineMessages]: each recipient's buffer is filtered; an empty
    one is dropped. *)
Definition pruneBuffer (now : Z) (buf : list OfflineMessage) : option (list OfflineMessage) :=
  let kept := filter (fun m => offlineMessageAgeOK m now = true) buf in
  if bool_decide (kept = []) then None else Some kept.

Definition pruneExpiredOfflineMessages (now : Z) (s : Server) : Server :=
  with_offline (omap (pruneBuffer now) (sv_offlineMessages s)) s.

(** [runOfflineMessageJanitor]: one pass per tick of its timer, at the times [ticks]. *)
Definition runOfflineMessageJanitor (ticks : list Z) (s : Server) : Server := foldl (fun s now => pruneExpiredOfflineMessages now s) s ticks.

(** ** Keys *)

Definition LookupE2eePubKey (address : string) (s : Server) : string :=
  let pk := default "" (sv_e2eePubKeys s !! normalizePlatariumAddress address) in
  if String.eqb pk "" then default "" (sv_e2eePubKeys s !! address) else pk.

Definition handleE2eePubKeyRequest (net : Net) (id : string) (data : jobj) (s : Server) : list output :=
  let raw := getString data "address" in
  let requestID := getString data "requestId" in
  if String.eqb raw "" || String.eqb requestID "" then []
  else write net id (EvE2eePubKey (normalizePlatariumAddress raw) requestID (LookupE2eePubKey raw s)).

(** ** Contact messages *)

Definition handleProtocolContactQuery (net : Net) (id : string) (data : jobj) (s : Server) : list output :=
  let peerRaw := getString data "peer" in
  let established := match sv_contactEconomy s with
    | Some ce => if cf_Enabled (st_cfg ce) then HasProtocolContact (addressOf id s) peerRaw ce else true
    | None => true
    end in
  write net id (EvProtocolContact (normalizePlatariumAddress peerRaw) established (getString data "requestId")).

(** [marshal] is the JSON text of the payload, buffered as the message. *)
Definition DeliverContactRequest (marshal : ContactRequest -> string) (net : Net) (now : Z) (req : ContactRequest) (s : Server)
  : Server * list output :=
  let to := normalizePlatariumAddress (cr_Receiver req) in
  let '(s, outs, ok) := fanOutJSON net to (EvContactRequest req) s in
  if 0 <? ok then (s, outs)
  else
  let buf := default [] (sv_offlineMessages s !! to) in
  (with_offline (<[to := buf ++ [mkOffline (cr_Sender req) to (marshal req) now now]]> (sv_offlineMessages s)) s, outs).

Definition NotifyContactResolved (net : Net) (req : ContactRequest) (encryptedResponse : string) (s : Server)
  : Server * list output :=
  let e := EvContactResolved req encryptedResponse in
  let '(s, outs1, _) := fanOutJSON net (normalizePlatariumAddress (cr_Sender req)) e s in
  let '(s, outs2, _) := fanOutJSON net (normalizePlatariumAddress (cr_Receiver req)) e s in
  (s, outs1 ++ outs2).

Definition handleContactRequestWS (marshal : ContactRequest -> string) (net : Net) (saved : bool) (now : Z) (id : string)
  (data : jobj) (s : Server) : Server * list output :=
  match sv_contactEconomy s with
  | None => (s, write net id (EvError "contactRequestError" "contact economy unavailable"))
  | Some ce =>
      let amount := match getFloat data "amountUplp" with Some f => uint64_of_float f | None => 0 end in
      let req := mkReq (getString data "requestId") "" (addressOf id s) (getString data "receiver")
        (getString data "senderPublicKey") (getString data "receiverPublicKey") (getString data "encryptedPayload")
        0 0 (getString data "lockTxHash") amount "" "" "" in
      let '(ce, r) := CreateRequest saved now req ce ce in
      let s := SetContactEconomy (Some ce) s in
      match r with
      | Err e => (s, write net id (EvError "contactRequestError" e))
      | Ok created =>
          let '(s, outs) := DeliverContactRequest marshal net now created s in
          (s, outs ++ write net id (EvContactRequestAck created))
      end
  end.

Definition prepareContactRespondOwnership (client : option Client) (data : jobj) : result (string * string) :=
  let auth := match client with Some c => AuthenticatedOwner c | None => "" end in
  let claimed := orElse (getString data "actor") auth in
  match ResolveAuthenticatedOwner claimed auth with
  | Err e => Err e
  | Ok verified =>
      let sig := getString data "signature" in
      match RejectClientOwnedProof sig with
      | Err e => Err e
      | Ok _ =>
          if String.eqb (TrimSpace sig) "" then
            match MintOwnedProof verified with Err e => Err e | Ok sig => Ok (verified, sig) end
          else Ok (verified, sig)
      end
  end.

Definition applyContactRespondWS (net : Net) (saved : bool) (now : Z) (id : string) (data : jobj) (s : Server)
  : Server * list output * result (ContactRequest * SettleIntent) :=
  match sv_contactEconomy s with
  | None => (s, [], Err "contact economy unavailable")
  | Some ce =>
      let requestID := getString data "requestId" in
      let outcome := getString data "outcome" in
      match prepareContactRespondOwnership (sv_heap s !! id) data with
      | Err e => (s, [], Err e)
      | Ok (verified, sig) =>
          let '(ce, r) := Respond saved now requestID verified outcome sig ce in
          match r with
          | Err e => (SetContactEconomy (Some ce) s, [], Err e)
          | Ok req =>
              let ce := if String.eqb outcome OutcomeAccepted then AddXP (cr_Sender req) 10 (AddXP verified 25 ce) else ce in
              let '(s, outs) := NotifyContactResolved net req (getString data "encryptedResponse") (SetContactEconomy (Some ce) s) in
              (s, outs, Ok (req, ContactSettleFromRequest req ""))
          end
      end
  end.

Definition handleContactRespondWS (net : Net) (saved : bool) (now : Z) (id : string) (data : jobj) (s : Server)
  : Server * list output :=
  let '(s, outs, r) := applyContactRespondWS net saved now id data s in
  (s, outs ++ match r with
              | Err e => write net id (EvError "contactRespondError" e)
              | Ok (req, intent) => write net id (EvContactRespondAck req intent)
              end).

Definition pricingOf (addr sig : string) (data : jobj) : PricingAnnounce :=
  let fee k := match getFloat data k with Some f => uint64_of_float f | None => 0 end in
  mkPricing addr (fee "unknownFeeUplp") (fee "verifiedFeeUplp") (default false (getBool data "blocked")) sig 0.

Definition handleContactPricingAnnounce (net : Net) (saved : bool) (now : Z) (id : string) (data : jobj) (s : Server)
  : Server * list output :=
  let fail e := (s, write net id (EvError "contactPricingError" e)) in
  match sv_contactEconomy s with
  | None => (s, [])
  | Some ce =>
      let addr := TrimSpace (match sv_heap s !! id with Some c => AuthenticatedOwner c | None => "" end) in
      if String.eqb addr "" then fail "authenticated address required"
      else match ResolveAuthenticatedOwner (orElse (getString data "address") addr) addr with
      | Err e => fail e
      | Ok _ =>
          let sig := getString data "signature" in
          match proveOwnership with
          | None => fail "ownership prover unavailable"
          | Some prove =>
              match prove addr sig (getString data "mnemonic") (getString data "alphanumeric") (getString data "pubMain") with
              | Err e => fail e
              | Ok _ =>
                  let '(ce, r) := SetPricing saved now (pricingOf addr sig data) ce in
                  (SetContactEconomy (Some ce) s,
                   write net id (match r with Ok p => EvContactPricingAck p | Err e => EvError "contactPricingError" e end))
              end
          end
      end
  end.
End server.

(** ** A transaction over a websocket

    [handleNewTransaction]: the hash is a fresh UUID, nothing is checked. *)
Definition wsTransaction (ref : positive) (uuid : string) (now : Z) (data : jobj) : Transaction :=
  mkTx ref uuid (getString data "from") (getString data "to") (getString data "amount") "1" 0 now "transfer" "native"
    "" "" "" "" "" "" 0 0 [] [] "" "" "" 0 None "" "" "".

Definition handleNewTransaction (ref : positive) (uuid : string) (now : Z) (data : jobj) (bc : Blockchain) : Blockchain * event :=
  let tx := wsTransaction ref uuid now data in
  match AddTransaction tx bc with
  | Err e => (bc, EvBroadcast "transactionError" [("error", JString e)])
  | Ok bc => (bc, EvBroadcast "transactionProcessed"
      [("hash", JString (tx_Hash tx)); ("from", JString (tx_From tx)); ("to", JString (tx_To tx)); ("value", JString (tx_Value tx))])
  end.

(** ** The reading loop of a client: one message

    [net] is indexed by the writes of a registration; [hasPeers] tells whether a
    node manager is attached. *)
Definition labAliases : list string := ["testSetLoad"; "test-set-load"; "rewardCreditL1"; "reward-credit-l1"].

Definition clientMessage {R : GoRange} {C : GoConv} (marshal : ContactRequest -> string)
  (prove : option (string -> string -> string -> string -> string -> result unit)) (net : nat -> Net) (hasPeers saved : bool)
  (ref : positive) (uuid : string) (now : Z) (id : string) (msg : jobj) (bc : Blockchain) (s : Server)
  : Blockchain * Server * list output :=
  let t := getString msg "type" in
  let data := getObject msg "data" in
  let kind k := String.eqb t k in
  let on (r : Server * list output) := (bc, r.1, r.2) in
  let reply outs := (bc, s, outs) in
  if kind "newTransaction" then let '(bc, e) := handleNewTransaction ref uuid now data bc in (bc, s, everyClient (net O) e s)
  else if kind "ping" then reply (write (net O) id EvPong)
  else if kind "register" then on (handleClientRegister prove net now id data s)
  else if kind "message" then on (handleDirectMessage (net O) hasPeers now (fun s => s) id data s)
  else if kind "devices:list" then reply (handleDevicesList (net O) id s)
  else if kind "devices:logout" then reply (handleDevicesLogout (net O) id data s)
  else if kind "e2eePubKeyRequest" then reply (handleE2eePubKeyRequest (net O) id data s)
  else if kind "protocolContactQuery" then reply (handleProtocolContactQuery (net O) id data s)
  else if kind "contactRequest" then on (handleContactRequestWS marshal (net O) saved now id data s)
  else if kind "contactRespond" then on (handleContactRespondWS (net O) saved now id data s)
  else if kind "contactPricingAnnounce" then on (handleContactPricingAnnounce prove (net O) saved now id data s)
  else if bool_decide (t ∈ labAliases) then reply (write (net O) id (EvError "error" "lab mutations not available over websocket"))
  else reply [].
