(* ===== verification/MessagingSpec.v ===== *)
(** * What the websocket server promises

    [ws_op] lists the operations of the server with everything they read from
    outside; [runs] is a sequence of them. Along every run: sessions are filed
    under their own normalised address, a device holds one session per address,
    and an authenticated session was accepted by the ownership prover. *)

From S2P Require Import Prelude GoStd GoJson Tx Chain ContactEconomy Ownership Messaging.
From Stdlib Require Import Ascii.

#[local] Open Scope Z_scope.

(** ** Addresses *)

Lemma hexDigits_graphic c s : hexDigits (String c s) = true -> graphic c = true /\ hexDigits s = true.
Proof.
  simpl. intros [H1 H2]%andb_true_iff. split; [|done]. unfold graphic.
  apply orb_true_iff in H1. rewrite !andb_true_iff, !N.leb_le in *. lia.
Qed.

Lemma hexDigits_app a b : hexDigits (a +:+ b) = hexDigits a && hexDigits b.
Proof. induction a as [|c a IH]; [done|]. rewrite str_app_cons. simpl. by rewrite IH, andb_assoc. Qed.

Lemma hexDigits_rev s : hexDigits (str_rev s) = hexDigits s.
Proof.
  induction s as [|c s IH]; [done|]. change (str_rev (String c s)) with (str_rev_app s (String c "")).
  rewrite str_rev_app_eq, hexDigits_app, IH. simpl. by rewrite andb_true_r, andb_comm.
Qed.

Lemma px_trimmed h : isHexString h = true -> TrimSpace ("Px" +:+ h) = "Px" +:+ h.
Proof.
  intros [Hne Hh]%andb_true_iff. apply negb_true_iff, String.eqb_neq in Hne. rewrite str_app_cons.
  destruct (str_rev h) as [|d t] eqn:E; [by apply str_rev_empty in E|].
  rewrite <- hexDigits_rev, E in Hh. apply hexDigits_graphic in Hh as [Hd _].
  apply (TrimSpace_graphic _ _ d (t +:+ "xP")); [reflexivity|done|].
  rewrite <- (str_app_cons "P"), str_rev_append, E. reflexivity.
Qed.

Lemma normalizePlatariumAddress_idemp a :
  normalizePlatariumAddress (normalizePlatariumAddress a) = normalizePlatariumAddress a.
Proof.
  unfold normalizePlatariumAddress at 2 3. set (v := TrimSpace a).
  assert (Hv : TrimSpace v = v) by apply TrimSpace_idemp.
  destruct (len v <? 3) eqn:E1; [unfold normalizePlatariumAddress; by rewrite Hv, E1|].
  destruct (HasPrefix v "Px" || HasPrefix v "px") eqn:E2;
    [|unfold normalizePlatariumAddress; by rewrite Hv, E1, E2].
  destruct (isHexString (ToLower (str_drop 2 v))) eqn:E3;
    [|unfold normalizePlatariumAddress; by rewrite Hv, E1, E2, E3].
  set (h := ToLower (str_drop 2 v)) in *. unfold normalizePlatariumAddress. rewrite (px_trimmed h E3).
  change (str_drop 2 ("Px" +:+ h)) with h. replace (ToLower h) with h by (symmetry; apply ToLower_idemp).
  rewrite E3. by repeat case_match.
Qed.

#[export] Hint Rewrite normalizePlatariumAddress_idemp : gateway.

(** ** Operations *)

Inductive ws_op :=
| OpAccept (id ip : string) (now : Z)
| OpCleanup (net : Net) (id : string)
| OpRegister (net : nat -> Net) (now : Z) (id : string) (data : jobj)
| OpMessage (net : Net) (hasPeers : bool) (now : Z) (id : string) (data : jobj)
| OpPeerMessage (net : Net) (now : Z) (data : jobj)
| OpPrune (now : Z)
| OpContactRequest (net : Net) (saved : bool) (now : Z) (id : string) (data : jobj)
| OpContactRespond (net : Net) (saved : bool) (now : Z) (id : string) (data : jobj)
| OpPricing (net : Net) (saved : bool) (now : Z) (id : string) (data : jobj)
| OpDeliver (net : Net) (now : Z) (req : ContactRequest)
| OpNotify (net : Net) (req : ContactRequest) (enc : string)
| OpEconomy (store : option Store).

Section spec.
Context {R : GoRange} {C : GoConv}.
Variable marshal : ContactRequest -> string.
Variable prove : option (string -> string -> string -> string -> string -> result unit).
Implicit Types (s : Server) (a id : string).

(** The last three are the calls of the REST handlers: delivering a request,
    announcing an answer, and any change of the contact store. *)
Definition exec (op : ws_op) s : Server * list output :=
  match op with
  | OpAccept id ip now => (acceptClient id ip now s, [])
  | OpCleanup net id => cleanupClient net id s
  | OpRegister net now id data => handleClientRegister prove net now id data s
  | OpMessage net hp now id data => handleDirectMessage net hp now (fun s => s) id data s
  | OpPeerMessage net now data => HandleIncomingPeerMessage net now data s
  | OpPrune now => (pruneExpiredOfflineMessages now s, [])
  | OpContactRequest net saved now id data => handleContactRequestWS marshal net saved now id data s
  | OpContactRespond net saved now id data => handleContactRespondWS net saved now id data s
  | OpPricing net saved now id data => handleContactPricingAnnounce prove net saved now id data s
  | OpDeliver net now req => DeliverContactRequest marshal net now req s
  | OpNotify net req enc => NotifyContactResolved net req enc s
  | OpEconomy store => (SetContactEconomy store s, [])
  end.

(** A connection gets a fresh UUID; a registration does not carry an address of
    blanks only ([blank_registration_stays] shows what that does). *)
Definition valid_op (op : ws_op) s : Prop :=
  match op with
  | OpAccept id _ _ => id <> "" /\ sv_heap s !! id = None
  | OpRegister _ _ _ data => getString data "address" <> "" -> normalizePlatariumAddress (getString data "address") <> ""
  | _ => True
  end.

Inductive runs : list ws_op -> Server -> Server -> Prop :=
| runs_nil s : runs [] s s
| runs_cons op ops s s' : valid_op op s -> runs ops (exec op s).1 s' -> runs (op :: ops) s s'.

(** ** The invariant *)

Record ServerInv s : Prop := {
  inv_ids : forall id c, sv_heap s !! id = Some c -> cl_ID c = id;
  inv_blank : sv_heap s !! "" = None;
  inv_norm : forall id c, sv_heap s !! id = Some c -> normalizePlatariumAddress (cl_Address c) = cl_Address c;
  inv_filed : forall a id, is_Some (sessionsOf s a !! id) ->
    exists c, sv_heap s !! id = Some c /\ cl_Address c = a /\ a <> "" /\ cl_DeviceID c <> "";
  inv_device : forall a id1 id2 c1 c2, is_Some (sessionsOf s a !! id1) -> is_Some (sessionsOf s a !! id2) ->
    sv_heap s !! id1 = Some c1 -> sv_heap s !! id2 = Some c2 -> cl_DeviceID c1 = cl_DeviceID c2 -> id1 = id2;
  inv_auth : forall id c, sv_heap s !! id = Some c -> cl_Authenticated c = true ->
    exists p sig mn al pm, prove = Some p /\ p (cl_Address c) sig mn al pm = Ok ()
}.

(** An operation that leaves the clients alone and only takes sessions away. *)
Definition shrinks s s' : Prop :=
  sv_heap s' = sv_heap s /\ forall a id, is_Some (sessionsOf s' a !! id) -> is_Some (sessionsOf s a !! id).

#[global] Instance shrinks_preorder : PreOrder shrinks.
Proof. split; [by split|]. intros s1 s2 s3 [E1 H1] [E2 H2]. split; [congruence|eauto]. Qed.

Lemma inv_shrinks s s' : ServerInv s -> shrinks s s' -> ServerInv s'.
Proof. intros [I1 I2 I3 I4 I5 I6] [Hh Hs]. split; rewrite ?Hh; eauto. Qed.

Lemma sessionsOf_remove a id s a' :
  sessionsOf (removeClientFromAddrLocked a id s) a' = if decide (a' = a) then delete id (sessionsOf s a) else sessionsOf s a'.
Proof.
  unfold removeClientFromAddrLocked, sessionsOf. destruct (sv_clientsByAddr s !! a) as [m|] eqn:E; simpl.
  - case_bool_decide as Hm; case_decide as Ha; subst; simpl.
    + by rewrite lookup_delete_eq, Hm.
    + by rewrite lookup_delete_ne.
    + by rewrite lookup_insert_eq.
    + by rewrite lookup_insert_ne.
  - case_decide; subst; [by rewrite E, delete_empty|done].
Qed.

Lemma remove_shrinks a id s : shrinks s (removeClientFromAddrLocked a id s).
Proof.
  split; [unfold removeClientFromAddrLocked; by destruct (sv_clientsByAddr s !! a)|].
  intros a' id'. rewrite sessionsOf_remove. case_decide; subst; [|done].
  rewrite lookup_delete. case_decide; [by intros []|done].
Qed.

Lemma dropDead_shrinks s id : shrinks s (dropDead s id).
Proof.
  unfold dropDead. destruct (String.eqb _ _); [done|]. etransitivity; [apply (remove_shrinks (addressOf id s) id)|done].
Qed.

Lemma foldl_shrinks {A} (f : Server -> A -> Server) l s : (forall s x, shrinks s (f s x)) -> shrinks s (foldl f s l).
Proof. intros Hf. revert s. induction l as [|x l IH]; intros s; [done|]. simpl. etransitivity; [apply Hf|apply IH]. Qed.

Lemma fanOut_shrinks net a e s : shrinks s (fanOutJSON net a e s).1.1.
Proof. apply foldl_shrinks, dropDead_shrinks. Qed.

Lemma cleanup_shrinks net id s : shrinks s (cleanupClient net id s).1.
Proof.
  unfold cleanupClient. case_bool_decide; [|done]. cbv zeta. destruct (String.eqb _ _); simpl; [done|].
  etransitivity; [|apply remove_shrinks]. done.
Qed.

Lemma gate_shrinks from to g now s : shrinks s (messageGate from to g now s).1.
Proof.
  unfold messageGate, allowGroupProtocolSend. destruct (String.eqb from ""); [done|].
  destruct g; cbv zeta; [destruct (_ <=? _)|]; simpl; destruct (sv_contactEconomy s); simpl; try done;
    by destruct (CanSendFreeDM _ _ _).
Qed.

Lemma route_shrinks net hp now id from to text sid rec s :
  shrinks s (routeMessage net hp now id from to text sid rec s).1.
Proof.
  unfold routeMessage. case_bool_decide; [done|].
  pose proof (fanOut_shrinks net to (EvMessage from to text now) s) as Hf.
  destruct (fanOutJSON _ _ _ _) as [[s' outs] ok]. simpl in Hf. by destruct (ok =? 0).
Qed.

Lemma message_shrinks net hp now id data s : shrinks s (handleDirectMessage net hp now (fun s => s) id data s).1.
Proof.
  unfold handleDirectMessage. destruct (_ || _); [done|]. destruct (_ <? _); [done|]. cbv zeta.
  pose proof (gate_shrinks (addressOf id s) (normalizePlatariumAddress (getString data "to"))
    (String.eqb (TrimSpace (getString data "purpose")) wsPurposeGroupProtocol) now s) as Hg.
  destruct (messageGate _ _ _ _ _) as [s' [e|]]; [done|]. simpl in Hg.
  etransitivity; [exact Hg|apply route_shrinks].
Qed.

Lemma peer_shrinks net now data s : shrinks s (HandleIncomingPeerMessage net now data s).1.
Proof.
  unfold HandleIncomingPeerMessage. destruct (_ || _); [done|]. cbv zeta.
  match goal with |- context [fanOutJSON net ?a ?e s] => pose proof (fanOut_shrinks net a e s) as Hf end.
  destruct (fanOutJSON _ _ _ _) as [[s' outs] ok]. simpl in Hf. by destruct (0 <? ok).
Qed.

Lemma deliver_shrinks net now req s : shrinks s (DeliverContactRequest marshal net now req s).1.
Proof.
  unfold DeliverContactRequest. match goal with |- context [fanOutJSON net ?a ?e s] => pose proof (fanOut_shrinks net a e s) as Hf end.
  destruct (fanOutJSON _ _ _ _) as [[s' outs] ok]. simpl in Hf. by destruct (0 <? ok).
Qed.

Lemma notify_shrinks net req enc s : shrinks s (NotifyContactResolved net req enc s).1.
Proof.
  unfold NotifyContactResolved. cbv zeta.
  match goal with |- context [fanOutJSON net ?a ?e s] => pose proof (fanOut_shrinks net a e s) as Hf end.
  destruct (fanOutJSON net _ _ s) as [[s1 o1] k1].
  match goal with |- context [fanOutJSON net ?a ?e s1] => pose proof (fanOut_shrinks net a e s1) as Hf2 end.
  destruct (fanOutJSON net _ _ s1) as [[s2 o2] k2]. simpl in *. by etransitivity.
Qed.

Lemma request_shrinks net saved now id data s : shrinks s (handleContactRequestWS marshal net saved now id data s).1.
Proof.
  unfold handleContactRequestWS. destruct (sv_contactEconomy s) as [ce|]; [|done]. cbv zeta.
  destruct (CreateRequest _ _ _ _ _) as [ce' [r|e]]; [|done].
  pose proof (deliver_shrinks net now r (SetContactEconomy (Some ce') s)) as Hd.
  destruct (DeliverContactRequest _ _ _ _ _) as [s' outs]. exact Hd.
Qed.

Lemma respond_shrinks net saved now id data s : shrinks s (applyContactRespondWS net saved now id data s).1.1.
Proof.
  unfold applyContactRespondWS. destruct (sv_contactEconomy s) as [ce|]; [|done]. cbv zeta.
  destruct (prepareContactRespondOwnership _ _) as [[v sig]|]; [|done].
  destruct (Respond _ _ _ _ _ _ _) as [ce' [r|e]]; [|done].
  match goal with |- context [NotifyContactResolved net r ?e ?t] => pose proof (notify_shrinks net r e t) as Hn end.
  destruct (NotifyContactResolved _ _ _ _) as [s' outs]. exact Hn.
Qed.

Lemma pricing_shrinks net saved now id data s : shrinks s (handleContactPricingAnnounce prove net saved now id data s).1.
Proof.
  unfold handleContactPricingAnnounce. cbv zeta. destruct (sv_contactEconomy s); [|done]. destruct (String.eqb _ _); [done|].
  destruct (ResolveAuthenticatedOwner _ _); [|done]. destruct prove as [p|]; [|done].
  destruct (p _ _ _ _ _); [|done]. by destruct (SetPricing _ _ _ _).
Qed.

(** *** Registration *)

Lemma foldl_logOut (old : list Client) s k :
  (forall c, c ∈ old -> sv_heap s !! cl_ID c = Some c) ->
  sv_heap (foldl (fun s c => setClient (logOut c) s) s old) !! k =
  if decide (k ∈ cl_ID <$> old) then logOut <$> sv_heap s !! k else sv_heap s !! k.
Proof.
  induction old as [|c old IH] using rev_ind; intros H; [done|].
  rewrite foldl_snoc. unfold setClient at 1. simpl. rewrite fmap_app.
  assert (Hc : sv_heap s !! cl_ID c = Some c) by (apply H; set_solver).
  specialize (IH ltac:(intros; apply H; set_solver)).
  destruct (decide (cl_ID c = k)) as [<-|Hne].
  - rewrite lookup_insert_eq, Hc. by rewrite decide_True by set_solver.
  - rewrite lookup_insert_ne, IH by done. apply decide_ext. set_solver.
Qed.

Lemma foldl_logOut_byAddr old s :
  sv_clientsByAddr (foldl (fun s c => setClient (logOut c) s) s old) = sv_clientsByAddr s.
Proof. revert s. induction old as [|c old IH]; intros s; [done|]. simpl. by rewrite IH. Qed.

Lemma foldl_delete_ids (old : list Client) (m : idset) k :
  is_Some (foldl (fun m c => delete (cl_ID c) m) m old !! k) <-> is_Some (m !! k) /\ k ∉ cl_ID <$> old.
Proof.
  induction old as [|c old IH] using rev_ind; simpl; [set_solver|].
  rewrite foldl_snoc, fmap_app, lookup_delete. case_decide; subst.
  - split; [by intros []|]. set_solver.
  - rewrite IH. set_solver.
Qed.

Lemma elem_of_replacedBy client s a c :
  c ∈ replacedBy client s a <->
  cl_DeviceID client <> "" /\ cl_DeviceID c = cl_DeviceID client /\ cl_ID c <> cl_ID client /\
  exists k, is_Some (sessionsOf s a !! k) /\ sv_heap s !! k = Some c.
Proof.
  unfold replacedBy. destruct (String.eqb_spec (cl_DeviceID client) ""); [split; [by intros ?%elem_of_nil|tauto]|].
  rewrite list_elem_of_filter, list_elem_of_omap. split.
  - intros [[? ?] ([k []] & Hk & Hh)]. apply elem_of_range in Hk. split_and!; eauto.
  - intros (_ & ? & ? & k & [[] Hk] & Hh). split; [done|]. exists (k, ()). split; [by apply elem_of_range|done].
Qed.

Section add.
Context (net : Net) (s : Server) (address : string) (client : Client).
Hypothesis Hinv : ServerInv s.
Hypothesis Haddr : normalizePlatariumAddress address = address /\ address <> "".
Hypothesis Hclient : cl_Address client = address /\ cl_DeviceID client <> "".
Hypothesis Hid : cl_ID client <> "".
Hypothesis Hauth : cl_Authenticated client = true ->
  exists p sig mn al pm, prove = Some p /\ p (cl_Address client) sig mn al pm = Ok ().
Hypothesis Helsewhere : forall a, is_Some (sessionsOf s a !! cl_ID client) -> a = address.

#[local] Notation s0 := (setClient client s).
#[local] Notation old := (replacedBy client s0 address).
#[local] Notation s' := (addClientToAddrLocked net address client s0).1.

Lemma setClient_heap k : sv_heap s0 !! k = if decide (k = cl_ID client) then Some client else sv_heap s !! k.
Proof. unfold setClient. simpl. rewrite lookup_insert. by repeat case_decide. Qed.

Lemma old_heap c : c ∈ old -> sv_heap s0 !! cl_ID c = Some c.
Proof.
  intros (_ & _ & Hne & k & _ & Hk)%elem_of_replacedBy. rewrite setClient_heap in *. rewrite decide_False by done.
  case_decide; simplify_eq. by rewrite (inv_ids _ Hinv _ _ Hk).
Qed.

Lemma add_heap k : sv_heap s' !! k = if decide (k ∈ cl_ID <$> old) then logOut <$> sv_heap s0 !! k else sv_heap s0 !! k.
Proof. simpl. apply foldl_logOut, old_heap. Qed.

Lemma add_sessions a k :
  is_Some (sessionsOf s' a !! k) <->
  (a = address /\ k = cl_ID client) \/ (is_Some (sessionsOf s a !! k) /\ (a = address -> k ∉ cl_ID <$> old)).
Proof.
  unfold sessionsOf at 1. simpl. rewrite foldl_logOut_byAddr, lookup_insert. case_decide as Ha; simpl.
  - subst a. rewrite lookup_insert. case_decide; [naive_solver|]. rewrite foldl_delete_ids. naive_solver.
  - fold (sessionsOf s a). naive_solver.
Qed.

Lemma old_in_address k : k ∈ cl_ID <$> old -> is_Some (sessionsOf s address !! k) /\ k <> cl_ID client.
Proof.
  intros (c & -> & Hc)%list_elem_of_fmap. pose proof (old_heap _ Hc) as Hh.
  apply elem_of_replacedBy in Hc as (_ & _ & Hne & k & Hs & Hk). split; [|done].
  rewrite setClient_heap in Hk. case_decide; simplify_eq. by rewrite (inv_ids _ Hinv _ _ Hk).
Qed.

(** A session of an address after the call is the client, or one of before that
    was not replaced, with its client unchanged. *)
Lemma add_session_heap a k :
  is_Some (sessionsOf s' a !! k) ->
  (a = address /\ k = cl_ID client /\ sv_heap s' !! k = Some client) \/
  (is_Some (sessionsOf s a !! k) /\ k <> cl_ID client /\ k ∉ cl_ID <$> old /\ sv_heap s' !! k = sv_heap s !! k).
Proof.
  intros H%add_sessions. destruct (decide (k = cl_ID client)) as [->|Hne].
  - left. assert (a = address) as -> by (destruct H as [[? _]|[H _]]; eauto). split_and!; [done..|].
    rewrite add_heap, decide_False; [|by intros [_ ?]%old_in_address]. by rewrite setClient_heap, decide_True.
  - right. destruct H as [[_ ?]|[Hs Ho]]; [done|].
    assert (k ∉ cl_ID <$> old) as Hk.
    { intros Hin. destruct (decide (a = address)) as [->|Ha]; [by apply Ho|].
      apply old_in_address in Hin as [(c1 & Hc1 & Ha1 & _)%(inv_filed _ Hinv) _].
      apply (inv_filed _ Hinv) in Hs as (c2 & Hc2 & Ha2 & _). congruence. }
    split_and!; [done..|]. by rewrite add_heap, decide_False, setClient_heap, decide_False.
Qed.

Lemma add_heap_cases k c :
  sv_heap s' !! k = Some c ->
  (exists c0, sv_heap s !! k = Some c0 /\ c = logOut c0) \/ (k = cl_ID client /\ c = client) \/ sv_heap s !! k = Some c.
Proof.
  rewrite add_heap, setClient_heap. case_decide as Ho.
  - apply old_in_address in Ho as [_ Hne]. rewrite decide_False by done. intros (c0 & -> & ?)%fmap_Some. eauto.
  - case_decide; intros; simplify_eq; eauto.
Qed.

Lemma add_inv : ServerInv s'.
Proof.
  destruct Haddr as [Hn Hne], Hclient as [Hca Hcd]. split.
  - intros k c [(c0 & H0 & ->)|[[-> ->]|H0]]%add_heap_cases; [by apply (inv_ids _ Hinv) in H0|done|by apply (inv_ids _ Hinv)].
  - destruct (sv_heap s' !! "") as [c|] eqn:E; [|done]. exfalso. pose proof (inv_blank _ Hinv) as Hb.
    apply add_heap_cases in E as [(c0 & H0 & _)|[[H0 _]|H0]]; [congruence|by symmetry in H0|congruence].
  - intros k c [(c0 & H0 & ->)|[[-> ->]|H0]]%add_heap_cases; [reflexivity|congruence|by apply (inv_norm _ Hinv _ _ H0)].
  - intros a k [(-> & -> & Hh)|(Hs & _ & _ & Hh)]%add_session_heap; [by exists client|].
    rewrite Hh. by apply (inv_filed _ Hinv).
  - intros a k1 k2 c1 c2 [(-> & -> & E1)|(S1 & N1 & O1 & E1)]%add_session_heap
      [(Ha & -> & E2)|(S2 & N2 & O2 & E2)]%add_session_heap; rewrite ?E1, ?E2; intros H1 H2 Hd;
      try (injection H1 as <-); try (injection H2 as <-); try subst a; [done| | |].
    + exfalso. apply O2, list_elem_of_fmap. exists c2. split; [by rewrite (inv_ids _ Hinv _ _ H2)|].
      apply elem_of_replacedBy. split_and!; [done|done|by rewrite (inv_ids _ Hinv _ _ H2)|].
      exists k2. split; [done|]. by rewrite setClient_heap, decide_False.
    + exfalso. apply O1, list_elem_of_fmap. exists c1. split; [by rewrite (inv_ids _ Hinv _ _ H1)|].
      apply elem_of_replacedBy. split_and!; [done|done|by rewrite (inv_ids _ Hinv _ _ H1)|].
      exists k1. split; [done|]. by rewrite setClient_heap, decide_False.
    + by eapply (inv_device _ Hinv).
  - intros k c [(c0 & H0 & ->)|[[-> ->]|H0]]%add_heap_cases; [done|done|by apply (inv_auth _ Hinv _ _ H0)].
Qed.
End add.

Lemma auth_proven address data :
  resolveRegisterAuthentication prove address data = Ok true ->
  exists p sig mn al pm, prove = Some p /\ p address sig mn al pm = Ok ().
Proof.
  unfold resolveRegisterAuthentication. cbv zeta. destruct (negb _); [done|]. destruct prove as [p|]; [|done].
  destruct (p _ _ _ _ _) as [[]|] eqn:E; [|done]. intros _. do 5 eexists. split; [done|exact E].
Qed.

Lemma bindLocked_inv net client raw address dev lab pk authed s :
  ServerInv s -> sv_heap s !! cl_ID client = Some client ->
  normalizePlatariumAddress address = address -> address <> "" -> dev <> "" ->
  (authed = true -> exists p sig mn al pm, prove = Some p /\ p address sig mn al pm = Ok ()) ->
  ServerInv (bindLocked net client raw address dev lab pk authed s).1.1.
Proof.
  intros Hinv Hc Hn Hne Hd Ha. unfold bindLocked. cbv zeta.
  set (s1 := if _ && _ then removeClientFromAddrLocked _ _ s else s).
  set (client' := mkClient _ _ _ _ _ _ _).
  assert (Hs1 : shrinks s s1) by (unfold s1; destruct (_ && _); [apply remove_shrinks|done]).
  assert (Hel : forall a, is_Some (sessionsOf s1 a !! cl_ID client') -> a = address).
  { intros a Hs. destruct (decide (a = address)) as [|Hna]; [done|exfalso].
    destruct (inv_filed _ Hinv _ _ (proj2 Hs1 _ _ Hs)) as (c & Hh & Hca & Hane & _). simpl in Hh.
    rewrite Hc in Hh. injection Hh as <-. subst a. revert Hs. unfold s1. rewrite (inv_norm _ Hinv _ _ Hc).
    rewrite (proj2 (String.eqb_neq (cl_Address client) "") Hane), (proj2 (String.eqb_neq (cl_Address client) address) Hna).
    cbn [negb andb]. rewrite sessionsOf_remove, decide_True, lookup_delete_eq by done. by intros []. }
  assert (Hid : cl_ID client' <> "") by (simpl; intros E; rewrite E, (inv_blank _ Hinv) in Hc; done).
  pose proof (add_inv net s1 address client' (inv_shrinks _ _ Hinv Hs1) (conj Hn Hne) (conj eq_refl Hd) Hid Ha Hel) as Hadd.
  destruct (addClientToAddrLocked net address client' _) as [s2 outs]. simpl in Hadd |- *.
  apply (inv_shrinks _ _ Hadd). by destruct (String.eqb pk "").
Qed.

Lemma register_inv net now id data s :
  ServerInv s -> (getString data "address" <> "" -> normalizePlatariumAddress (getString data "address") <> "") ->
  ServerInv (handleClientRegister prove net now id data s).1.
Proof.
  intros Hinv Hv. unfold handleClientRegister, bindClientRegister. cbv zeta.
  destruct (String.eqb_spec (getString data "address") "") as [|Hraw]; [done|].
  destruct (resolveRegisterAuthentication _ _ _) as [authed|] eqn:Ea; [|done].
  destruct (sv_heap s !! id) as [client|] eqn:Hc; [|done].
  assert (Hid : cl_ID client = id) by by apply (inv_ids _ Hinv).
  assert (Hdev : orElse (TrimSpace (getString data "deviceId")) id <> "").
  { unfold orElse. destruct (String.eqb_spec (TrimSpace (getString data "deviceId")) ""); [|done].
    intros ->. by rewrite (inv_blank _ Hinv) in Hc. }
  match goal with |- context [bindLocked ?n client ?r ?a ?d ?l ?p authed s] =>
    pose proof (bindLocked_inv n client r a d l p authed s Hinv) as Hb end.
  destruct (bindLocked _ _ _ _ _ _ _ _ _) as [[s' outs] pending]. simpl in Hb |- *.
  apply Hb; [by rewrite Hid|apply normalizePlatariumAddress_idemp|by apply Hv|done|].
  intros ->. by apply (auth_proven _ data).
Qed.

Lemma accept_inv id ip now s : ServerInv s -> id <> "" -> sv_heap s !! id = None -> ServerInv (acceptClient id ip now s).
Proof.
  intros Hinv Hid Hf. split; simpl.
  - intros k c. rewrite lookup_insert. case_decide; [naive_solver|apply (inv_ids _ Hinv)].
  - rewrite lookup_insert_ne by done. apply (inv_blank _ Hinv).
  - intros k c. rewrite lookup_insert. case_decide; [|apply (inv_norm _ Hinv)]. intros [= <-]. reflexivity.
  - intros a k Hs. destruct (inv_filed _ Hinv _ _ Hs) as (c & Hc & ?). exists c. rewrite lookup_insert_ne by congruence. done.
  - intros a k1 k2 c1 c2 H1 H2.
    destruct (inv_filed _ Hinv _ _ H1) as (? & ? & _), (inv_filed _ Hinv _ _ H2) as (? & ? & _).
    rewrite !lookup_insert_ne by congruence. by apply (inv_device _ Hinv a).
  - intros k c. rewrite lookup_insert. case_decide; [|apply (inv_auth _ Hinv)]. by intros [= <-].
Qed.

Lemma exec_inv op s : ServerInv s -> valid_op op s -> ServerInv (exec op s).1.
Proof.
  intros Hinv Hv. destruct op; cbn [exec valid_op] in *;
    [destruct Hv; by apply accept_inv| |by apply register_inv|..]; apply (inv_shrinks _ _ Hinv);
    auto using cleanup_shrinks, message_shrinks, peer_shrinks, request_shrinks, pricing_shrinks, deliver_shrinks, notify_shrinks;
    try done.
  unfold handleContactRespondWS. pose proof (respond_shrinks net saved now id data s) as Hr.
  by destruct (applyContactRespondWS _ _ _ _ _ _) as [[s' outs] r].
Qed.

Lemma runs_inv ops s s' : ServerInv s -> runs ops s s' -> ServerInv s'.
Proof. intros Hi Hr. induction Hr; [done|]. apply IHHr. by apply exec_inv. Qed.

Lemma new_inv : ServerInv NewServer.
Proof.
  assert (Hs : forall a id, ~ is_Some (sessionsOf NewServer a !! id))
    by (intros a id; unfold sessionsOf; simpl; rewrite lookup_empty; by intros []).
  split; try done; intros; exfalso; naive_solver.
Qed.


(** ** Direct messages *)

(** When a message may be sent: the sender is registered, and either its group
    protocol window has room or the contact economy lets it write for free. *)
Definition may_send (from to : string) (group : bool) (now : Z) s : Prop :=
  from <> "" /\
  if group then
    Z.of_nat (length (filter (fun ts => i64 (now - groupProtocolRateWindowSecs) <= ts)
      (default [] (sv_groupProtocolHits s !! normalizePlatariumAddress from)))) < groupProtocolRateLimit
  else match sv_contactEconomy s with Some ce => CanSendFreeDM from to ce = true | None => True end.

Definition isGroup (data : jobj) : bool := String.eqb (TrimSpace (getString data "purpose")) wsPurposeGroupProtocol.

Definition acceptable id (data : jobj) (now : Z) s : Prop :=
  getString data "to" <> "" /\ getString data "text" <> "" /\ len (getString data "text") <= maxDirectMessageTextBytes /\
  may_send (addressOf id s) (normalizePlatariumAddress (getString data "to")) (isGroup data) now s.

(** The gate changes nothing but the sender's window. *)
Definition same_but_hits s s' : Prop := exists m, s' = with_hits m s.

Lemma gate_spec from to g now s :
  same_but_hits s (messageGate from to g now s).1 /\
  ((messageGate from to g now s).2 = None <-> may_send from to g now s).
Proof.
  assert (Hrefl : same_but_hits s s) by (exists (sv_groupProtocolHits s); by destruct s).
  unfold messageGate, may_send, allowGroupProtocolSend. destruct (String.eqb_spec from "") as [->|Hf].
  { split; [exact Hrefl|]. split; [done|]. by intros [? _]. }
  destruct g; cbv zeta.
  - destruct (Z.leb_spec groupProtocolRateLimit (Z.of_nat (length (filter (fun ts => i64 (now - groupProtocolRateWindowSecs) <= ts)
      (default [] (sv_groupProtocolHits s !! normalizePlatariumAddress from)))))); simpl.
    + split; [by eexists|]. split; [done|]. intros [_ ?]. lia.
    + destruct (sv_contactEconomy s); (split; [by eexists|]); (split; [intros _; split; [done|lia]|done]).
  - simpl. destruct (sv_contactEconomy s) as [ce|] eqn:E; simpl; [|split; [exact Hrefl|by split]].
    destruct (CanSendFreeDM from to ce) eqn:Ec; simpl; (split; [exact Hrefl|]).
    + by split.
    + split; [done|]. intros [_ ?]. done.
Qed.

Lemma capBuffer_last buf m : last (capBuffer (buf ++ [m])) = Some m.
Proof.
  unfold capBuffer. destruct (_ <? _); [|by rewrite last_snoc].
  rewrite drop_app_le; [by rewrite last_snoc|]. rewrite length_app. unfold offlineMessageMaxPerRecipient. simpl. lia.
Qed.

Lemma capBuffer_length buf : Z.of_nat (length (capBuffer buf)) <= offlineMessageMaxPerRecipient.
Proof.
  unfold capBuffer. destruct (Z.ltb_spec offlineMessageMaxPerRecipient (Z.of_nat (length buf))) as [H|H]; [|done].
  rewrite length_drop. unfold offlineMessageMaxPerRecipient in *. lia.
Qed.

(** The message reached a session of [to], or is the last one of its buffer. *)
Definition delivered_or_buffered (from to text : string) (now : Z) (before after : Server) (outs : list output) : Prop :=
  (exists c, is_Some (sessionsOf before to !! c) /\ Sent c (EvMessage from to text now) ∈ outs) \/
  (exists buf, sv_offlineMessages after !! to = Some buf /\ last buf = Some (mkOffline from to text now now) /\
     Z.of_nat (length buf) <= offlineMessageMaxPerRecipient).

Lemma bufferMessage_spec to m s :
  exists buf, sv_offlineMessages (bufferMessage to m s) !! to = Some buf /\ last buf = Some m /\
    Z.of_nat (length buf) <= offlineMessageMaxPerRecipient.
Proof.
  unfold bufferMessage. simpl. rewrite lookup_insert_eq. eexists. split; [done|].
  split; [apply capBuffer_last|apply capBuffer_length].
Qed.

Lemma fanOut_spec net a e s s' outs ok :
  fanOutJSON net a e s = (s', outs, ok) -> sv_offlineMessages s' = sv_offlineMessages s /\ 0 <= ok /\
  (0 < ok -> exists c, is_Some (sessionsOf s a !! c) /\ Sent c e ∈ outs).
Proof.
  unfold fanOutJSON. cbv zeta. intros H. simplify_eq. split_and!; [|lia|].
  - set (l := filter _ _). clearbody l. revert s. induction l as [|id l IH]; intros s; [done|]. simpl. rewrite IH.
    unfold dropDead, removeClientFromAddrLocked. destruct (String.eqb _ _); [done|]. by destruct (_ !! _).
  - intros Hok. destruct (filter (fun id => net id = true) (snapshotClientsForAddr a s)) as [|c l] eqn:El; [simpl in Hok; lia|].
    exists c. assert (Hc : c ∈ filter (fun id => net id = true) (snapshotClientsForAddr a s)) by (rewrite El; by left).
    apply list_elem_of_filter in Hc as [_ ([c' []] & -> & Hc)%list_elem_of_fmap]. apply elem_of_range in Hc.
    split; [by exists ()|]. simpl. by left.
Qed.

Lemma route_spec net hp now id from to text sid rec s s' outs :
  routeMessage net hp now id from to text sid rec s = (s', outs) ->
  delivered_or_buffered from to text now s s' outs.
Proof.
  unfold routeMessage. case_bool_decide; intros Hr.
  { simplify_eq. right. apply bufferMessage_spec. }
  destruct (fanOutJSON net to (EvMessage from to text now) s) as [[s1 o1] ok] eqn:Ef.
  apply fanOut_spec in Ef as (_ & Hok & Hs). destruct (Z.eqb_spec ok 0) as [->|Hne]; simplify_eq.
  - right. apply bufferMessage_spec.
  - left. destruct Hs as (c & Hc & Hin); [lia|]. exists c. split; [done|]. apply elem_of_app. by left.
Qed.

Lemma write_no_message net id e c f t x ts :
  (forall f t x ts, e <> EvMessage f t x ts) -> Sent c (EvMessage f t x ts) ∉ write net id e.
Proof. intros He. unfold write. destruct (net id); [|by apply not_elem_of_nil]. intros [= _ Hx]%list_elem_of_singleton. by apply (He f t x ts). Qed.

Lemma message_spec net hp now mw id data s s' outs :
  handleDirectMessage net hp now mw id data s = (s', outs) ->
  let to := normalizePlatariumAddress (getString data "to") in
  (acceptable id data now s ->
     exists mid, same_but_hits s mid /\
       delivered_or_buffered (addressOf id s) to (getString data "text") now (mw mid) s' outs) /\
  (~ acceptable id data now s ->
     sv_offlineMessages s' = sv_offlineMessages s /\ forall c f t x ts, Sent c (EvMessage f t x ts) ∉ outs).
Proof.
  intros Hr to. unfold handleDirectMessage in Hr. cbv zeta in Hr. unfold acceptable.
  destruct (String.eqb_spec (getString data "to") ""); simpl in Hr.
  { simplify_eq. split; [tauto|]. intros _. split; [done|]. intros. by apply write_no_message. }
  destruct (String.eqb_spec (getString data "text") ""); simpl in Hr.
  { simplify_eq. split; [tauto|]. intros _. split; [done|]. intros. by apply write_no_message. }
  destruct (Z.ltb_spec maxDirectMessageTextBytes (len (getString data "text"))).
  { simplify_eq. split; [intros (_ & _ & ? & _); lia|]. intros _. split; [done|]. intros. by apply write_no_message. }
  pose proof (gate_spec (addressOf id s) to (isGroup data) now s) as [Hsame Hgate]. unfold to, isGroup in Hsame, Hgate.
  destruct (messageGate _ _ _ _ _) as [s1 [e|]]; simpl in Hsame, Hgate.
  - simplify_eq. split; [intros (_ & _ & _ & Hm%Hgate); done|]. intros _. destruct Hsame as [h ->].
    split; [done|]. intros. by apply write_no_message.
  - split; [|intros Hn; exfalso; apply Hn; split_and!; try done; by apply Hgate].
    intros _. exists s1. split; [done|]. by apply route_spec in Hr.
Qed.

(** a direct message. Whatever other goroutines do between its locked
    sections, a well-formed message that may be sent (registered sender; the
    contact economy lets it write for free, or it is a group message within the
    sender's window) is written to at least one session of the recipient or is
    the last message of the recipient's buffer, which then has at most 500; any
    other message reaches nobody and leaves all buffers as they were. *)
Theorem direct_message_delivered_or_buffered net hp now mw id data s s' outs :
  handleDirectMessage net hp now mw id data s = (s', outs) ->
  let to := normalizePlatariumAddress (getString data "to") in
  (acceptable id data now s ->
     exists mid, same_but_hits s mid /\
       delivered_or_buffered (addressOf id s) to (getString data "text") now (mw mid) s' outs) /\
  (~ acceptable id data now s ->
     sv_offlineMessages s' = sv_offlineMessages s /\ forall c f t x ts, Sent c (EvMessage f t x ts) ∉ outs).
Proof. apply message_spec. Qed.

(** ** Answering a contact request *)

Lemma prepare_spec client data v sig :
  prepareContactRespondOwnership client data = Ok (v, sig) ->
  exists c, client = Some c /\ AuthenticatedOwner c <> "" /\ v = TrimSpace (AuthenticatedOwner c) /\ v <> "" /\
    HasPrefix (TrimSpace (getString data "signature")) "owned:" = false.
Proof.
  unfold prepareContactRespondOwnership. cbv zeta.
  destruct (ResolveAuthenticatedOwner _ _) as [w|] eqn:Er; [|done]. apply resolve_spec in Er as (-> & Hne & _ & _).
  destruct (RejectClientOwnedProof _) as [[]|] eqn:Ej; [|done]. apply reject_spec in Ej.
  intros H. destruct client as [c|]; [|done]. exists c.
  assert (AuthenticatedOwner c <> "") by (intros E; rewrite E in Hne; done).
  destruct (String.eqb _ _); [destruct (MintOwnedProof _) as [p|]|]; by simplify_eq.
Qed.

Lemma respond_ok saved now rid v outcome sig ce ce' req :
  Respond saved now rid v outcome sig ce = (ce', Ok req) ->
  exists r, st_Requests ce !! rid = Some r /\ isPending r = true /\ EqualFold (cr_Receiver r) (TrimSpace v) = true /\
    now <= cr_ExpiresAt r /\
    ((outcome = OutcomeAccepted /\ req = withStatus StatusEstablished OutcomeAccepted r) \/
     (outcome = OutcomeRejected /\ req = withStatus StatusRejected OutcomeRejected r)).
Proof.
  unfold Respond. cbv zeta. unfold normalize. intros H.
  destruct (String.eqb _ _); [done|]. destruct (_ && _); [done|]. destruct (_ && _); [done|].
  destruct (st_Requests ce !! rid) as [r|]; [|done]. exists r.
  destruct (isPending r); [|done]. destruct (EqualFold (cr_Receiver r) (TrimSpace v)); [|done]. simpl in H.
  destruct (Z.ltb_spec (cr_ExpiresAt r) now); [done|].
  destruct (String.eqb_spec outcome OutcomeAccepted);
    [|destruct (String.eqb_spec outcome OutcomeRejected); [|done]];
    unfold persisted in H; destruct saved; simplify_eq; (split_and!; [done..|]); [left|right]; done.
Qed.

(** who answers a contact request over a websocket. In every reachable
    server, an answer is accepted only from a session whose address the ownership
    prover accepted, for a pending, unexpired request addressed to that address
    (a marker [owned:] in the message never helps); the settlement intent it
    returns is for the request's escrow, its full amount and the outcome given. *)
Theorem ws_answer_only_by_proven_receiver ops s net saved now id data s' outs req intent :
  runs ops NewServer s -> applyContactRespondWS net saved now id data s = (s', outs, Ok (req, intent)) ->
  exists ce r c p sig mn al pm,
    sv_contactEconomy s = Some ce /\ st_Requests ce !! getString data "requestId" = Some r /\ isPending r = true /\
    now <= cr_ExpiresAt r /\
    sv_heap s !! id = Some c /\ EqualFold (cr_Receiver r) (TrimSpace (cl_Address c)) = true /\
    prove = Some p /\ p (cl_Address c) sig mn al pm = Ok () /\
    HasPrefix (TrimSpace (getString data "signature")) "owned:" = false /\
    si_TxKind intent = TxKindSettle /\ si_AmountUplp intent = cr_AmountUplp r /\ si_LockTxHash intent = cr_LockTxHash r /\
    ((getString data "outcome" = OutcomeAccepted /\ si_OutcomeKey intent = "accept") \/
     (getString data "outcome" = OutcomeRejected /\ si_OutcomeKey intent = "reject")).
Proof.
  intros Hr Ha. pose proof (runs_inv _ _ _ new_inv Hr) as Hi. unfold applyContactRespondWS in Ha. cbv zeta in Ha.
  destruct (sv_contactEconomy s) as [ce|]; [|done].
  destruct (prepareContactRespondOwnership _ _) as [[v sig]|] eqn:Ep; [|done].
  apply prepare_spec in Ep as (c & Hc & Hown & -> & Hne & Ho).
  destruct (Respond _ _ _ _ _ _ _) as [ce' [q|e]] eqn:Er; [|done].
  destruct (NotifyContactResolved _ _ _ _) as [s1 o1]. simplify_eq.
  apply respond_ok in Er as (r & Hreq & Hp & Hf & Hexp & Hout). rewrite TrimSpace_idemp in Hf.
  unfold AuthenticatedOwner in *. destruct (cl_Authenticated c) eqn:Eauth; [|done].
  destruct (inv_auth _ Hi _ _ Hc Eauth) as (p & sg & mn & al & pm & Hprove & Hok).
  exists ce, r, c, p, sg, mn, al, pm. split_and!; try done; destruct Hout as [[Eo ->]|[Eo ->]]; try done; [by left|by right].
Qed.

(** ** The set of connected clients *)

(** Connections as [handleWebSocket] runs them when nothing else is scheduled
    before it returns: the clean-up follows the acceptance at once. *)
Fixpoint returned (ops : list ws_op) : bool :=
  match ops with
  | [] => true
  | OpAccept id _ _ :: OpCleanup _ id' :: rest => bool_decide (id = id') && returned rest
  | OpAccept _ _ _ :: _ => false
  | _ :: rest => returned rest
  end.

Lemma remove_clients a id s : sv_clients (removeClientFromAddrLocked a id s) = sv_clients s.
Proof. unfold removeClientFromAddrLocked. by destruct (_ !! a). Qed.

Lemma fanOut_clients net a e s : sv_clients (fanOutJSON net a e s).1.1 ⊆ sv_clients s.
Proof.
  simpl. generalize (filter (fun id => net id = false) (snapshotClientsForAddr a s)) as l. intros l. revert s.
  induction l as [|id l IH]; intros s; [done|]. simpl. etransitivity; [apply IH|]. unfold dropDead.
  destruct (String.eqb _ _); simpl; rewrite ?remove_clients; set_solver.
Qed.

Lemma cleanup_clients net id s : sv_clients (cleanupClient net id s).1 = sv_clients s ∖ {[id]}.
Proof.
  unfold cleanupClient. case_bool_decide; [|simpl; set_solver]. cbv zeta.
  destruct (String.eqb _ _); simpl; rewrite ?remove_clients; done.
Qed.

Lemma foldl_logOut_clients old s : sv_clients (foldl (fun s c => setClient (logOut c) s) s old) = sv_clients s.
Proof. revert s. induction old as [|c old IH]; intros s; [done|]. simpl. by rewrite IH. Qed.

Lemma register_clients net now id data s : sv_clients (handleClientRegister prove net now id data s).1 = sv_clients s.
Proof.
  unfold handleClientRegister, bindClientRegister. cbv zeta. destruct (String.eqb _ _); [done|].
  destruct (resolveRegisterAuthentication _ _ _); [|done]. destruct (sv_heap s !! id) as [client|]; [|done].
  unfold bindLocked, addClientToAddrLocked. cbv zeta. simpl.
  destruct (String.eqb (getString data "e2eePublicKey") ""); simpl; rewrite foldl_logOut_clients; simpl;
    destruct (_ && _); by rewrite ?remove_clients.
Qed.

Lemma notify_clients net req enc s : sv_clients (NotifyContactResolved net req enc s).1 ⊆ sv_clients s.
Proof.
  unfold NotifyContactResolved. cbv zeta.
  match goal with |- context [fanOutJSON net ?a ?e s] => pose proof (fanOut_clients net a e s) as Hf end.
  destruct (fanOutJSON net _ _ s) as [[s1 o1] k1].
  match goal with |- context [fanOutJSON net ?a ?e s1] => pose proof (fanOut_clients net a e s1) as Hf2 end.
  destruct (fanOutJSON net _ _ s1) as [[s2 o2] k2]. simpl in *. by etransitivity.
Qed.

Lemma deliver_clients net now req s : sv_clients (DeliverContactRequest marshal net now req s).1 ⊆ sv_clients s.
Proof.
  unfold DeliverContactRequest. match goal with |- context [fanOutJSON net ?a ?e s] => pose proof (fanOut_clients net a e s) as Hf end.
  destruct (fanOutJSON _ _ _ _) as [[s' outs] ok]. simpl in Hf. by destruct (0 <? ok).
Qed.

Lemma message_clients net hp now id data s : sv_clients (handleDirectMessage net hp now (fun s => s) id data s).1 ⊆ sv_clients s.
Proof.
  unfold handleDirectMessage. destruct (_ || _); [done|]. destruct (_ <? _); [done|]. cbv zeta.
  match goal with |- context [messageGate ?f ?t ?g now s] => destruct (proj1 (gate_spec f t g now s)) as [h Hs] end.
  destruct (messageGate _ _ _ _ _) as [s1 [e|]]; simpl in Hs; subst s1; [done|].
  unfold routeMessage. case_bool_decide; [done|].
  match goal with |- context [fanOutJSON net ?a ?e ?s1] => pose proof (fanOut_clients net a e s1) as Hf end.
  destruct (fanOutJSON _ _ _ _) as [[s' outs] ok]. simpl in Hf. by destruct (ok =? 0).
Qed.

(** Only a connection adds to [s.clients]. *)
Lemma exec_clients op s : (forall id ip now, op <> OpAccept id ip now) -> sv_clients (exec op s).1 ⊆ sv_clients s.
Proof.
  intros Hop. destruct op; cbn [exec]; try done;
    [by destruct (Hop id ip now)|rewrite cleanup_clients; set_solver|by rewrite register_clients|apply message_clients|..];
    auto using deliver_clients, notify_clients.
  - unfold HandleIncomingPeerMessage. destruct (_ || _); [done|]. cbv zeta.
    match goal with |- context [fanOutJSON net ?a ?e s] => pose proof (fanOut_clients net a e s) as Hf end.
    destruct (fanOutJSON _ _ _ _) as [[s' outs] ok]. simpl in Hf. by destruct (0 <? ok).
  - unfold handleContactRequestWS. destruct (sv_contactEconomy s) as [ce|]; [|done]. cbv zeta.
    destruct (CreateRequest _ _ _ _ _) as [ce' [r|e]]; [|done].
    pose proof (deliver_clients net now r (SetContactEconomy (Some ce') s)) as Hd.
    by destruct (DeliverContactRequest _ _ _ _ _).
  - unfold handleContactRespondWS, applyContactRespondWS. destruct (sv_contactEconomy s) as [ce|]; [|done]. cbv zeta.
    destruct (prepareContactRespondOwnership _ _) as [[v sig]|]; [|done].
    destruct (Respond _ _ _ _ _ _ _) as [ce' [r|e]]; [|done].
    match goal with |- context [NotifyContactResolved net r ?e ?t] => pose proof (notify_clients net r e t) as Hn end.
    by destruct (NotifyContactResolved _ _ _ _).
  - unfold handleContactPricingAnnounce. cbv zeta. destruct (sv_contactEconomy s); [|done]. destruct (String.eqb _ _); [done|].
    destruct (ResolveAuthenticatedOwner _ _); [|done]. destruct prove as [p|]; [|done].
    destruct (p _ _ _ _ _); [|done]. by destruct (SetPricing _ _ _ _).
Qed.

Lemma returned_clients ops s s' :
  runs ops s s' -> (returned ops = true -> sv_clients s = ∅ -> sv_clients s' = ∅) /\
  (forall net id rest, ops = OpCleanup net id :: rest -> returned rest = true -> sv_clients s ⊆ {[id]} -> sv_clients s' = ∅).
Proof.
  induction 1 as [s|op ops s s' Hv Hr [IH1 IH2]]; [by split|]. split.
  - intros Hret Hs.
    destruct op; try (apply IH1; [exact Hret|]; match goal with |- sv_clients (exec ?o s).1 = _ =>
      pose proof (exec_clients o s ltac:(done)) as Hc; rewrite Hs in Hc; set_solver end).
    destruct ops as [|[] ops]; try done. simpl in Hret. apply andb_true_iff in Hret as [->%bool_decide_eq_true Hret].
    eapply IH2; [done|done|]. simpl. rewrite Hs. set_solver.
  - intros net id rest [= -> ->] Hret Hs. apply IH1; [done|]. cbn [exec]. rewrite cleanup_clients. set_solver.
Qed.

(** The operations that a client message with this content can run. *)
Definition client_op (net : nat -> Net) (hasPeers saved : bool) (now : Z) (id : string) (data : jobj) : list ws_op :=
  [OpRegister net now id data; OpMessage (net O) hasPeers now id data; OpContactRequest (net O) saved now id data;
   OpContactRespond (net O) saved now id data; OpPricing (net O) saved now id data].

(** A client message runs one of them, or only reads. *)
Lemma clientMessage_exec net hasPeers saved ref uuid now id msg bc s :
  let s' := (clientMessage marshal prove net hasPeers saved ref uuid now id msg bc s).1.2 in
  s' = s \/ exists op, op ∈ client_op net hasPeers saved now id (getObject msg "data") /\ s' = (exec op s).1.
Proof.
  unfold clientMessage. cbv zeta. set (data := getObject msg "data").
  repeat (match goal with |- context [if ?b then _ else _] => destruct b end;
    [first [by left | by destruct (handleNewTransaction _ _ _ _ _); left
           | by right; exists (OpRegister net now id data); split; [set_solver|]
           | by right; exists (OpMessage (net O) hasPeers now id data); split; [set_solver|]
           | by right; exists (OpContactRequest (net O) saved now id data); split; [set_solver|]
           | by right; exists (OpContactRespond (net O) saved now id data); split; [set_solver|]
           | by right; exists (OpPricing (net O) saved now id data); split; [set_solver|]]|]); by left.
Qed.

(** broadcasts reach nobody. When every connection handler returns before
    its client's messages are read, the set of connected clients is empty in every
    later state: the clean-up meant for the end of the connection runs when the
    handler returns, and [BroadcastToClients] writes to no socket. *)
Theorem broadcast_reaches_nobody ops s net eventType data :
  runs ops NewServer s -> returned ops = true -> BroadcastToClients net eventType data s = [].
Proof.
  intros Hr Hret. apply returned_clients in Hr as [Hr _]. unfold BroadcastToClients, everyClient.
  by rewrite (Hr Hret eq_refl), elements_empty.
Qed.
End spec.
