(* ===== verification/MessagingLive.v ===== *)
(** * A message to an offline address arrives

    A buffered message stays in the recipient's buffer under every operation but a
    registration of the recipient ([exec_waiting]), and that registration
    receives it. *)

From S2P Require Import Prelude GoStd GoJson Tx Chain ContactEconomy Ownership Messaging MessagingSpec.

#[local] Open Scope Z_scope.

Section live.
Context {R : GoRange} {C : GoConv}.
Variable marshal : ContactRequest -> string.
Variable prove : option (string -> string -> string -> string -> string -> result unit).
Implicit Types (s : Server) (a id : string).

#[local] Notation exec := (exec marshal prove).
#[local] Notation runs := (runs marshal prove).

(** [m] is in the buffer of [a] with at most [k] messages after it. *)
Definition waiting (m : OfflineMessage) a (k : nat) s : Prop :=
  exists pre suf, sv_offlineMessages s !! a = Some (pre ++ m :: suf) /\ (length suf <= k)%nat.

(** Operations that can put a message into the buffer of [a]. *)
Definition targets a (op : ws_op) : bool :=
  match op with
  | OpMessage _ _ _ _ data | OpPeerMessage _ _ data => bool_decide (normalizePlatariumAddress (getString data "to") = a)
  | OpContactRequest _ _ _ _ data => bool_decide (normalizePlatariumAddress (getString data "receiver") = a)
  | OpDeliver _ _ req => bool_decide (normalizePlatariumAddress (cr_Receiver req) = a)
  | _ => false
  end.

(** Operations that leave messages for [a] waiting: no registration of [a], and
    the janitor only while [m] is young enough. *)
Definition spares (m : OfflineMessage) a (op : ws_op) : Prop :=
  match op with
  | OpRegister _ _ _ data => normalizePlatariumAddress (getString data "address") <> a
  | OpPrune now => offlineMessageAgeOK m now = true
  | _ => True
  end.

Lemma waiting_mono m a k k' s s' :
  sv_offlineMessages s' !! a = sv_offlineMessages s !! a -> (k <= k')%nat -> waiting m a k s -> waiting m a k' s'.
Proof. intros E Hk (pre & suf & H & Hl). exists pre, suf. rewrite E. split; [done|lia]. Qed.

Lemma waiting_append m a k s s' x :
  sv_offlineMessages s' !! a = Some (default [] (sv_offlineMessages s !! a) ++ [x]) ->
  waiting m a k s -> waiting m a (S k) s'.
Proof.
  intros E (pre & suf & H & Hl). exists pre, (suf ++ [x]). rewrite E, H. simpl. rewrite <- app_assoc. simpl.
  split; [done|]. rewrite length_app. simpl. lia.
Qed.

Lemma capBuffer_keeps pre m (suf : list OfflineMessage) :
  (length suf <= 499)%nat -> exists pre', capBuffer (pre ++ m :: suf) = pre' ++ m :: suf.
Proof.
  intros Hs. unfold capBuffer. destruct (_ <? _); [|by exists pre].
  rewrite drop_app_le; [by eexists|]. rewrite length_app. simpl. unfold offlineMessageMaxPerRecipient. lia.
Qed.

Lemma waiting_buffer m a k s to x :
  (k + Nat.b2n (bool_decide (to = a)) <= 499)%nat -> waiting m a k s ->
  waiting m a (k + Nat.b2n (bool_decide (to = a))) (bufferMessage to x s).
Proof.
  intros Hk Hw. case_bool_decide as Ht; simpl in *.
  - subst to. destruct Hw as (pre & suf & H & Hl). destruct (capBuffer_keeps pre m (suf ++ [x])) as [pre' Hp];
      [rewrite length_app; simpl; lia|].
    exists pre', (suf ++ [x]). unfold bufferMessage. simpl. rewrite lookup_insert_eq, H. simpl.
    rewrite <- app_assoc. simpl. rewrite Hp. split; [done|]. rewrite length_app. simpl. lia.
  - rewrite Nat.add_0_r. apply (waiting_mono _ _ k _ s); [|done..]. unfold bufferMessage. simpl. by rewrite lookup_insert_ne.
Qed.

Lemma fanOut_offline net a e s : sv_offlineMessages (fanOutJSON net a e s).1.1 = sv_offlineMessages s.
Proof. destruct (fanOutJSON net a e s) as [[s' o] k] eqn:E. by apply fanOut_spec in E as [? _]. Qed.

(** Either nothing happens to the buffer of [a], or [to] is [a] and a message is
    appended. *)
Lemma waiting_maybe_buffer m a k s s' to :
  (k + Nat.b2n (bool_decide (to = a)) <= 499)%nat ->
  (sv_offlineMessages s' = sv_offlineMessages s \/ exists x, sv_offlineMessages s' = sv_offlineMessages (bufferMessage to x s)) ->
  waiting m a k s -> waiting m a (k + Nat.b2n (bool_decide (to = a))) s'.
Proof.
  intros Hk [E|[x E]] Hw.
  - apply (waiting_mono _ _ k _ s); [by rewrite E|lia|done].
  - apply (waiting_mono _ _ (k + Nat.b2n (bool_decide (to = a))) _ (bufferMessage to x s)); [by rewrite E|done|by apply waiting_buffer].
Qed.

Lemma route_offline net hp now id from to text sid rec s :
  sv_offlineMessages (routeMessage net hp now id from to text sid rec s).1 = sv_offlineMessages s \/
  sv_offlineMessages (routeMessage net hp now id from to text sid rec s).1 =
    sv_offlineMessages (bufferMessage to (mkOffline from to text now now) s).
Proof.
  unfold routeMessage. case_bool_decide; [by right|].
  pose proof (fanOut_offline net to (EvMessage from to text now) s) as Hf.
  destruct (fanOutJSON _ _ _ _) as [[s1 o] ok]. simpl in Hf. destruct (ok =? 0); [right|by left].
  unfold bufferMessage. simpl. by rewrite Hf.
Qed.

Lemma message_offline net hp now id data s :
  let s' := (handleDirectMessage net hp now (fun s => s) id data s).1 in
  sv_offlineMessages s' = sv_offlineMessages s \/
  exists x, sv_offlineMessages s' = sv_offlineMessages (bufferMessage (normalizePlatariumAddress (getString data "to")) x s).
Proof.
  unfold handleDirectMessage. destruct (_ || _); [by left|]. destruct (_ <? _); [by left|]. cbv zeta.
  match goal with |- context [messageGate ?f ?t ?g now s] => destruct (proj1 (gate_spec f t g now s)) as [h Hs] end.
  destruct (messageGate _ _ _ _ _) as [s1 [e|]]; simpl in Hs; subst s1; [by left|].
  match goal with |- context [routeMessage net hp now id ?f ?t ?x ?d ?r ?s1] =>
    destruct (route_offline net hp now id f t x d r s1) as [E|E] end; [by left|right; eexists; exact E].
Qed.

Lemma peer_offline net now data s :
  let s' := (HandleIncomingPeerMessage net now data s).1 in
  sv_offlineMessages s' = sv_offlineMessages s \/
  exists x, sv_offlineMessages s' = sv_offlineMessages (bufferMessage (normalizePlatariumAddress (getString data "to")) x s).
Proof.
  unfold HandleIncomingPeerMessage. destruct (_ || _); [by left|]. cbv zeta.
  match goal with |- context [fanOutJSON net ?a ?e s] => pose proof (fanOut_offline net a e s) as Hf end.
  destruct (fanOutJSON _ _ _ _) as [[s1 o] ok]. simpl in Hf. destruct (0 <? ok); [by left|right].
  eexists. unfold bufferMessage. simpl. by rewrite Hf.
Qed.

Lemma deliver_waiting m a k net now req s :
  waiting m a k s ->
  waiting m a (k + Nat.b2n (bool_decide (normalizePlatariumAddress (cr_Receiver req) = a)))
    (DeliverContactRequest marshal net now req s).1.
Proof.
  intros Hw. unfold DeliverContactRequest. set (to := normalizePlatariumAddress (cr_Receiver req)).
  pose proof (fanOut_offline net to (EvContactRequest req) s) as Hf.
  destruct (fanOutJSON _ _ _ _) as [[s1 o] ok]. simpl in Hf. destruct (0 <? ok); simpl.
  - apply (waiting_mono _ _ k _ s); [by rewrite Hf|lia|done].
  - case_bool_decide as Ht; simpl.
    + rewrite Nat.add_1_r. eapply (waiting_append _ _ _ s); [|done]. subst a. simpl. by rewrite lookup_insert_eq, Hf.
    + rewrite Nat.add_0_r. apply (waiting_mono _ _ k _ s); [|done|done]. simpl. by rewrite lookup_insert_ne, Hf.
Qed.

Lemma notify_offline net req enc s : sv_offlineMessages (NotifyContactResolved net req enc s).1 = sv_offlineMessages s.
Proof.
  unfold NotifyContactResolved. cbv zeta.
  match goal with |- context [fanOutJSON net ?a ?e s] => pose proof (fanOut_offline net a e s) as Hf end.
  destruct (fanOutJSON net _ _ s) as [[s1 o1] k1].
  match goal with |- context [fanOutJSON net ?a ?e s1] => pose proof (fanOut_offline net a e s1) as Hf2 end.
  destruct (fanOutJSON net _ _ s1) as [[s2 o2] k2]. simpl in *. congruence.
Qed.

Lemma respond_offline net saved now id data s :
  sv_offlineMessages (handleContactRespondWS net saved now id data s).1 = sv_offlineMessages s.
Proof.
  unfold handleContactRespondWS, applyContactRespondWS. destruct (sv_contactEconomy s) as [ce|]; [|done]. cbv zeta.
  destruct (prepareContactRespondOwnership _ _) as [[v sig]|]; [|done].
  destruct (Respond _ _ _ _ _ _ _) as [ce' [r|e]]; [|done].
  match goal with |- context [NotifyContactResolved net r ?e ?t] => pose proof (notify_offline net r e t) as Hn end.
  destruct (NotifyContactResolved _ _ _ _) as [s' outs]. exact Hn.
Qed.

Lemma pricing_offline net saved now id data s :
  sv_offlineMessages (handleContactPricingAnnounce prove net saved now id data s).1 = sv_offlineMessages s.
Proof.
  unfold handleContactPricingAnnounce. cbv zeta. destruct (sv_contactEconomy s); [|done]. destruct (String.eqb _ _); [done|].
  destruct (ResolveAuthenticatedOwner _ _); [|done]. destruct prove as [p|]; [|done].
  destruct (p _ _ _ _ _); [|done]. by destruct (SetPricing _ _ _ _).
Qed.

Lemma remove_offline a id s : sv_offlineMessages (removeClientFromAddrLocked a id s) = sv_offlineMessages s.
Proof. unfold removeClientFromAddrLocked. by destruct (_ !! a). Qed.

Lemma cleanup_offline net id s : sv_offlineMessages (cleanupClient net id s).1 = sv_offlineMessages s.
Proof.
  unfold cleanupClient. case_bool_decide; [|done]. cbv zeta. destruct (String.eqb _ _); simpl; [done|]. by rewrite remove_offline.
Qed.

Lemma foldl_logOut_offline old s :
  sv_offlineMessages (foldl (fun s c => setClient (logOut c) s) s old) = sv_offlineMessages s.
Proof. revert s. induction old as [|c old IH]; intros s; [done|]. simpl. by rewrite IH. Qed.

(** The buffers a registration takes: its own address's, or else the one filed
    under the address as it was written. *)
Lemma bindLocked_offline net client raw address dev lab pk authed s :
  let r := bindLocked net client raw address dev lab pk authed s in
  (forall a, a <> address -> a <> raw -> sv_offlineMessages r.1.1 !! a = sv_offlineMessages s !! a) /\
  (forall buf, sv_offlineMessages s !! address = Some buf -> buf <> [] -> r.2 = buf).
Proof.
  unfold bindLocked. cbv zeta. set (s1 := if _ && _ then removeClientFromAddrLocked _ _ s else s).
  assert (Hs1 : sv_offlineMessages s1 = sv_offlineMessages s) by (unfold s1; destruct (_ && _); [apply remove_offline|done]).
  unfold addClientToAddrLocked. cbv zeta. set (s2 := if String.eqb pk "" then _ else _).
  assert (Hs2 : sv_offlineMessages s2 = sv_offlineMessages s)
    by (unfold s2; destruct (String.eqb pk ""); simpl; by rewrite foldl_logOut_offline).
  clearbody s2. rewrite Hs2. simpl. split.
  - intros a Ha Hraw. rewrite lookup_delete_ne by done. case_match; [by rewrite lookup_delete_ne|done].
  - intros buf Hb Hne. rewrite Hb. simpl. by rewrite bool_decide_eq_false_2.
Qed.

Lemma register_offline net now id data a s :
  normalizePlatariumAddress a = a -> normalizePlatariumAddress (getString data "address") <> a ->
  sv_offlineMessages (handleClientRegister prove net now id data s).1 !! a = sv_offlineMessages s !! a.
Proof.
  intros Hn Ha. unfold handleClientRegister, bindClientRegister. cbv zeta.
  destruct (String.eqb _ _); [done|]. destruct (resolveRegisterAuthentication _ _ _) as [authed|]; [|done].
  destruct (sv_heap s !! id) as [client|]; [|done].
  match goal with |- context [bindLocked ?n client ?r ?a ?d ?l ?p authed s] =>
    pose proof (bindLocked_offline n client r a d l p authed s) as [Hb _] end.
  destruct (bindLocked _ _ _ _ _ _ _ _ _) as [[s' outs] pending]. simpl in Hb |- *.
  apply Hb; [done|]. congruence.
Qed.

Lemma prune_waiting m a k now s :
  offlineMessageAgeOK m now = true -> waiting m a k s -> waiting m a k (pruneExpiredOfflineMessages now s).
Proof.
  intros Hm (pre & suf & H & Hl). set (f := fun l : list OfflineMessage => filter (fun m => offlineMessageAgeOK m now = true) l).
  exists (f pre), (f suf). simpl. rewrite lookup_omap, H. simpl. unfold pruneBuffer, f.
  rewrite filter_app, filter_cons_True by done. rewrite bool_decide_eq_false_2 by (by destruct (filter _ pre)).
  split; [done|]. etransitivity; [apply length_filter|done].
Qed.

(** After a pass of the janitor every message that is left is young enough. *)
Lemma janitor_fresh ticks now s a buf : sv_offlineMessages (runOfflineMessageJanitor (ticks ++ [now]) s) !! a = Some buf ->
  buf <> [] /\ Forall (fun m => offlineMessageAgeOK m now = true) buf.
Proof.
  unfold runOfflineMessageJanitor. rewrite foldl_app. cbn. rewrite lookup_omap. destruct (_ !! a) as [b|]; [|done]. cbn. unfold pruneBuffer.
  case_bool_decide; [done|]. intros [= <-]. split; [done|]. apply Forall_forall. intros m [Hm _]%list_elem_of_filter. done.
Qed.

Lemma request_waiting m a k net saved now id data s :
  waiting m a k s ->
  waiting m a (k + Nat.b2n (bool_decide (normalizePlatariumAddress (getString data "receiver") = a)))
    (handleContactRequestWS marshal net saved now id data s).1.
Proof.
  intros Hw. assert (Hmono : forall ce, waiting m a (k + Nat.b2n (bool_decide (normalizePlatariumAddress (getString data "receiver") = a)))
    (SetContactEconomy ce s)) by (intros ce; apply (waiting_mono _ _ k _ s); [done|lia|done]).
  unfold handleContactRequestWS. destruct (sv_contactEconomy s) as [ce|] eqn:Ece;
    [|apply (waiting_mono _ _ k _ s); [done|lia|done]]. cbv zeta.
  match goal with |- context [CreateRequest saved now ?q ce ce] => set (req := q) end.
  destruct (CreateRequest saved now req ce ce) as [ce' [r|e]] eqn:Ec; [|apply Hmono].
  assert (Hr : normalizePlatariumAddress (cr_Receiver r) = normalizePlatariumAddress (getString data "receiver")).
  { unfold CreateRequest in Ec. destruct (createChecks now req ce) as [q|] eqn:Eq; [|done].
    assert (cr_Receiver q = TrimSpace (getString data "receiver")) as Hq.
    { unfold createChecks in Eq. remember (RequestIDHash (cr_RequestID req)) as h eqn:Eh. clear Eh.
      repeat (match type of Eq with (if ?b then _ else _) = _ => destruct b; [done|] end). by injection Eq as <-. }
    unfold createLocked, persisted in Ec. repeat case_match; simplify_eq. rewrite Hq.
    unfold normalizePlatariumAddress. by rewrite TrimSpace_idemp. }
  pose proof (deliver_waiting m a k net now r (SetContactEconomy (Some ce') s)) as Hd. rewrite Hr in Hd.
  destruct (DeliverContactRequest _ _ _ _ _) as [s' outs]. apply Hd. by apply (waiting_mono _ _ k _ s).
Qed.

Lemma exec_waiting m a k op s :
  normalizePlatariumAddress a = a -> spares m a op -> (k + Nat.b2n (targets a op) <= 499)%nat ->
  waiting m a k s -> waiting m a (k + Nat.b2n (targets a op)) (exec op s).1.
Proof.
  intros Hn Hsp Hk Hw.
  assert (Hsame : forall s', sv_offlineMessages s' !! a = sv_offlineMessages s !! a -> waiting m a (k + 0) s')
    by (intros s' E; apply (waiting_mono _ _ k _ s); [done|lia|done]).
  destruct op; cbn [exec targets spares] in *.
  - by apply Hsame.
  - apply Hsame. by rewrite cleanup_offline.
  - by apply Hsame, register_offline.
  - eapply waiting_maybe_buffer; [done| |done]. apply message_offline.
  - eapply waiting_maybe_buffer; [done| |done]. apply peer_offline.
  - rewrite Nat.add_0_r. by apply prune_waiting.
  - by apply request_waiting.
  - apply Hsame. by rewrite respond_offline.
  - apply Hsame. by rewrite pricing_offline.
  - by apply deliver_waiting.
  - apply Hsame. by rewrite notify_offline.
  - by apply Hsame.
Qed.

Definition countTargets a (ops : list ws_op) : nat := foldr (fun op n => (Nat.b2n (targets a op) + n)%nat) 0%nat ops.

Lemma runs_waiting m a ops s s' k :
  normalizePlatariumAddress a = a -> runs ops s s' -> Forall (spares m a) ops -> (k + countTargets a ops <= 499)%nat ->
  waiting m a k s -> waiting m a (k + countTargets a ops) s'.
Proof.
  intros Hn Hr. revert k. induction Hr as [s|op ops s s' Hv Hr IH]; intros k Hsp Hk Hw; simpl in *; [by rewrite Nat.add_0_r|].
  apply Forall_cons in Hsp as [H1 H2]. rewrite Nat.add_assoc. apply IH; [done|lia|]. apply exec_waiting; [done|done|lia|done].
Qed.

Lemma deliverPending_all net i id pending m :
  (forall j, net j id = true) -> m ∈ pending ->
  Sent id (EvMessage (om_From m) (om_To m) (om_Text m) (om_Timestamp m)) ∈ deliverPending net i id pending.
Proof.
  intros Hnet. revert i. induction pending as [|x l IH]; intros i Hm; [by apply elem_of_nil in Hm|].
  simpl. rewrite Hnet. apply elem_of_cons in Hm as [->|Hm]; [by left|right]. by apply IH.
Qed.

Lemma register_delivers m a k net now id data s authed client :
  getString data "address" <> "" -> normalizePlatariumAddress (getString data "address") = a ->
  resolveRegisterAuthentication prove a data = Ok authed -> sv_heap s !! id = Some client ->
  (forall j, net j id = true) -> offlineMessageAgeOK m now = true -> waiting m a k s ->
  Sent id (EvMessage (om_From m) (om_To m) (om_Text m) (om_Timestamp m)) ∈ (handleClientRegister prove net now id data s).2.
Proof.
  intros Hraw Ha Hauth Hc Hnet Hage (pre & suf & Hbuf & _). unfold handleClientRegister, bindClientRegister. cbv zeta.
  rewrite (proj2 (String.eqb_neq _ _) Hraw), Ha, Hauth, Hc.
  match goal with |- context [bindLocked ?n client ?r ?a ?d ?l ?p authed s] =>
    pose proof (bindLocked_offline n client r a d l p authed s) as [_ Hb] end.
  specialize (Hb _ Hbuf (ltac:(by destruct pre))).
  destruct (bindLocked _ _ _ _ _ _ _ _ _) as [[s' outs] pending]. simpl in Hb |- *. subst pending.
  apply elem_of_app; right. apply elem_of_app; right. apply elem_of_app; left.
  apply deliverPending_all; [done|]. apply list_elem_of_filter. split; [done|]. set_solver.
Qed.

(** C35: a message to an offline address arrives. Let an accepted message be sent
    to an address without a session, and let anything happen afterwards except a
    registration of that address, with at most 499 further messages to it and no
    run of the janitor more than 24 hours later. Then the next registration of
    the address within 24 hours over a working connection, with or without proof
    of ownership, receives the message. *)
Theorem offline_message_reaches_next_registration net hp now id data s ops s2 net' t id' data' authed client :
  let a := normalizePlatariumAddress (getString data "to") in
  let m := mkOffline (addressOf id s) a (getString data "text") now now in
  acceptable id data now s -> sessionsOf s a = ∅ ->
  runs ops (handleDirectMessage net hp now (fun s => s) id data s).1 s2 ->
  Forall (spares m a) ops -> (countTargets a ops <= 499)%nat ->
  getString data' "address" <> "" -> normalizePlatariumAddress (getString data' "address") = a ->
  resolveRegisterAuthentication prove a data' = Ok authed -> sv_heap s2 !! id' = Some client ->
  (forall j, net' j id' = true) -> offlineMessageAgeOK m t = true ->
  Sent id' (EvMessage (addressOf id s) a (getString data "text") now) ∈ (handleClientRegister prove net' t id' data' s2).2.
Proof.
  intros a m Hacc Hoff Hr Hsp Hcnt Hraw Ha Hauth Hc Hnet Hage.
  destruct (handleDirectMessage net hp now (fun s => s) id data s) as [s1 outs] eqn:Em.
  destruct (message_spec _ _ _ _ _ _ _ _ _ Em) as [H _]. clear Em.
  destruct (H Hacc) as (mid & [h ->] & [(c & [? Hc'] & _)|(buf & Hb & Hlast & _)]).
  { change (sessionsOf (with_hits h s)) with (sessionsOf s) in Hc'. fold a in Hc'. by rewrite Hoff, lookup_empty in Hc'. }
  apply last_Some in Hlast as [pre ->].
  assert (Hw : waiting m a 0 s1) by (exists pre, []; done).
  assert (Hn : normalizePlatariumAddress a = a) by apply normalizePlatariumAddress_idemp.
  apply (runs_waiting _ _ _ _ _ 0 Hn Hr Hsp) in Hw; [|lia].
  exact (register_delivers m a _ net' t id' data' s2 authed client Hraw Ha Hauth Hc Hnet Hage Hw).
Qed.
End live.

(** ** The sliding window of group messages *)

(** The times at which sends of the address [key] are let through. *)
Fixpoint groupSends (key : string) (calls : list (string * Z)) (s : Server) : list Z :=
  match calls with
  | [] => []
  | (from, now) :: rest =>
      let '(s', ok) := allowGroupProtocolSend from now s in
      (if ok && bool_decide (normalizePlatariumAddress from = key) then [now] else []) ++ groupSends key rest s'
  end.

(** Calls in the order of the clock, which stays in the range of int64. *)
Fixpoint clocked (last : Z) (calls : list (string * Z)) : Prop :=
  match calls with [] => True | (_, now) :: rest => last <= now /\ is_i64 (now - 60) /\ clocked now rest end.

(** The hits recorded for [key] are the sends [A] so far, as far as a window that
    ends at [last] or later can see. *)
Definition tracks (key : string) (A : list Z) (last : Z) (s : Server) : Prop :=
  forall c, last - 60 <= c ->
    filter (fun ts => c <= ts) (default [] (sv_groupProtocolHits s !! key)) = filter (fun ts => c <= ts) A.

Lemma filter_weaker (c c' : Z) (l : list Z) : c' <= c -> filter (fun ts => c <= ts) (filter (fun ts => c' <= ts) l) = filter (fun ts => c <= ts) l.
Proof.
  intros H. induction l as [|x l IH]; [done|]. rewrite !filter_cons. repeat (case_decide; rewrite ?filter_cons); try lia; congruence.
Qed.

Lemma allow_tracks key A last from now s :
  tracks key A last s -> last <= now -> is_i64 (now - 60) ->
  let '(s', ok) := allowGroupProtocolSend from now s in
  let mine := ok && bool_decide (normalizePlatariumAddress from = key) in
  tracks key (if mine then A ++ [now] else A) now s' /\
  (mine = true -> Z.of_nat (length (filter (fun ts => now - 60 <= ts) A)) < 120).
Proof.
  intros Ht Hl Hi. unfold allowGroupProtocolSend. cbv zeta. unfold groupProtocolRateWindowSecs, groupProtocolRateLimit.
  rewrite i64_small by done. destruct (decide (normalizePlatariumAddress from = key)) as [->|Hne].
  - rewrite (Ht (now - 60)) by lia. destruct (Z.leb_spec 120 (Z.of_nat (length (filter (fun ts => now - 60 <= ts) A)))); simpl.
    + split; [|done]. intros c Hc. simpl. rewrite lookup_insert_eq. simpl. by apply filter_weaker.
    + rewrite bool_decide_eq_true_2 by done. split; [|done]. intros c Hc. simpl. rewrite lookup_insert_eq. simpl.
      rewrite !filter_app, filter_weaker by done. done.
  - rewrite bool_decide_eq_false_2 by done.
    destruct (120 <=? _); simpl; (split; [|done]); intros c Hc; simpl; rewrite lookup_insert_ne by done; apply Ht; lia.
Qed.

(** Every send was let through with fewer than 120 sends in the minute before. *)
Inductive spaced : list Z -> Prop :=
| spaced_nil : spaced []
| spaced_snoc A now : spaced A -> Z.of_nat (length (filter (fun ts => now - 60 <= ts) A)) < 120 -> spaced (A ++ [now]).

Lemma groupSends_spaced key calls A last s :
  spaced A -> tracks key A last s -> clocked last calls -> spaced (A ++ groupSends key calls s).
Proof.
  revert A last s. induction calls as [|[from now] rest IH]; intros A last s Ha Ht Hc; simpl; [by rewrite app_nil_r|].
  destruct Hc as (Hl & Hi & Hc). pose proof (allow_tracks key A last from now s Ht Hl Hi) as Hal.
  destruct (allowGroupProtocolSend from now s) as [s' ok]. cbv zeta in Hal. destruct Hal as [Ht' Hn].
  destruct (ok && _); simpl; [|by apply (IH A now)].
  rewrite cons_middle, app_assoc. apply (IH (A ++ [now]) now); [|done|done]. by apply spaced_snoc; [|apply Hn].
Qed.

Lemma length_filter_mono (P Q : Z -> Prop) `{!forall x, Decision (P x), !forall x, Decision (Q x)} l :
  (forall x, P x -> Q x) -> (length (filter P l) <= length (filter Q l))%nat.
Proof.
  intros Himp. induction l as [|x l IH]; [done|]. rewrite !filter_cons. repeat case_decide; simpl; try lia. exfalso; auto.
Qed.

Lemma spaced_window A t : spaced A -> Z.of_nat (length (filter (fun ts => t - 60 <= ts <= t) A)) <= 120.
Proof.
  induction 1 as [|A now _ IH Hn]; [done|]. rewrite filter_app, length_app. destruct (decide (t - 60 <= now <= t)) as [Hin|Hout].
  - rewrite filter_cons_True, filter_nil by done. simpl.
    assert (length (filter (fun ts => (t - 60 <= ts <= t)%Z) A) <= length (filter (fun ts => (now - 60 <= ts)%Z) A))%nat; [|lia].
    apply length_filter_mono. lia.
  - rewrite filter_cons_False, filter_nil by done. simpl. lia.
Qed.

(** group messages bypass the first-contact gate at a bounded rate. Whatever
    is sent, by whatever spelling of an address, in the order of the clock, no
    address gets more than 120 group sends through within any 60 seconds. *)
Theorem group_sends_bounded key calls last s t :
  sv_groupProtocolHits s !! key = None -> clocked last calls ->
  Z.of_nat (length (filter (fun ts => t - 60 <= ts <= t) (groupSends key calls s))) <= 120.
Proof.
  intros Hk Hc. apply spaced_window. apply (groupSends_spaced key calls [] last s spaced_nil); [|done].
  intros c _. by rewrite Hk.
Qed.

(** ** Witnesses and concrete runs *)

#[local] Existing Instance canonical_range.
#[local] Existing Instance zero_conv.

Definition allUp : Net := fun _ => true.

Definition demoProver : option (string -> string -> string -> string -> string -> result unit) :=
  Some (fun address _ mnemonic _ _ => if String.eqb mnemonic "words" then Ok () else Err "bad proof").

Definition demoMarshal (_ : ContactRequest) : string := "{}".

Definition regData (address device : string) (extra : jobj) : jobj :=
  [("address", JString address); ("deviceId", JString device)] ++ extra.

Definition proofFields : jobj := [("mnemonic", JString "words"); ("alphanumeric", JString "x")].

Definition register (id address device : string) (extra : jobj) : ws_op :=
  OpRegister (fun _ => allUp) 1000 id (regData address device extra).

(** A runs a session and writes to B, who is offline. *)
Definition demoConnect : list ws_op :=
  [OpAccept "c1" "ip" 1; OpCleanup allUp "c1"; OpAccept "c2" "ip" 2; OpCleanup allUp "c2"; register "c1" "pxAA" "dev" proofFields].

Definition runOps (ops : list ws_op) (s : Server) : Server := foldl (fun s op => (MessagingSpec.exec demoMarshal demoProver op s).1) s ops.

Lemma demo_runs : MessagingSpec.runs demoMarshal demoProver demoConnect NewServer (runOps demoConnect NewServer).
Proof. repeat (constructor; [vm_compute; repeat split; discriminate|]). constructor. Qed.


Definition online : Server := runOps demoConnect NewServer.

Definition toB (text : string) : jobj := [("to", JString " pxBB "); ("text", JString text)].

Lemma toB_acceptable : acceptable "c1" (toB "hi") 1001 online.
Proof. vm_compute. repeat split; discriminate. Qed.

Lemma direct_message_delivered_or_buffered_witness :
  exists s', (handleDirectMessage allUp true 1001 (fun s => s) "c1" (toB "hi") online).1 = s' /\
    (exists mid, same_but_hits online mid /\
       delivered_or_buffered "Pxaa" "Pxbb" "hi" 1001 mid s'
         (handleDirectMessage allUp true 1001 (fun s => s) "c1" (toB "hi") online).2).
Proof.
  destruct (direct_message_delivered_or_buffered allUp true 1001 (fun s => s) "c1" (toB "hi") online _ _
    (surjective_pairing _)) as [H _].
  eexists. split; [reflexivity|]. exact (H toB_acceptable).
Defined.

Lemma offline_message_reaches_next_registration_witness :
  Sent "c2" (EvMessage "Pxaa" "Pxbb" "hi" 1001) ∈
    (handleClientRegister demoProver (fun _ => allUp) 2000 "c2" (regData "PxBB" "d" [])
      (runOps [OpPrune 1500] (handleDirectMessage allUp true 1001 (fun s => s) "c1" (toB "hi") online).1)).2.
Proof.
  apply (offline_message_reaches_next_registration demoMarshal demoProver allUp true 1001 "c1" (toB "hi") online
    [OpPrune 1500] _ (fun _ => allUp) 2000 "c2" (regData "PxBB" "d" []) false (mkClient "c2" "ip" 2 "" false "" "")).
  - exact toB_acceptable.
  - vm_compute. reflexivity.
  - constructor; [exact I|]. constructor.
  - constructor; [vm_compute; reflexivity|constructor].
  - vm_compute. lia.
  - vm_compute. discriminate.
  - vm_compute. reflexivity.
  - vm_compute. reflexivity.
  - vm_compute. reflexivity.
  - intros j. reflexivity.
  - vm_compute. reflexivity.
Defined.

Lemma group_sends_bounded_witness :
  groupSends "Pxaa" (replicate 130 ("pxAA", 1000)) NewServer = replicate 120 1000 /\
  Z.of_nat (length (filter (fun ts => 1030 - 60 <= ts <= 1030) (groupSends "Pxaa" (replicate 130 ("pxAA", 1000)) NewServer))) <= 120.
Proof.
  split; [vm_compute; reflexivity|]. apply (group_sends_bounded "Pxaa" _ 0 NewServer 1030); [reflexivity|].
  vm_compute. repeat split; discriminate.
Defined.

Lemma broadcast_reaches_nobody_witness : BroadcastToClients allUp "transactionProcessed" [] online = [].
Proof.
  apply (broadcast_reaches_nobody demoMarshal demoProver demoConnect); [exact demo_runs|vm_compute; reflexivity].
Defined.

(** B's pending request for A, answered over A's proven session. *)
Definition demoEconomy : Store :=
  setRequest "r1" (mkReq "r1" "h1" "Pxbb" "PxAA" "" "" "cipher" 10 5000 "lock" 5 StatusPending "" "") (NewStore demoCfg).

Definition answerOps : list ws_op := demoConnect ++ [OpEconomy (Some demoEconomy)].

Definition answer : jobj := [("requestId", JString "r1"); ("outcome", JString "accepted")].

Lemma answer_runs : MessagingSpec.runs demoMarshal demoProver answerOps NewServer (runOps answerOps NewServer).
Proof. repeat (constructor; [vm_compute; repeat split; discriminate|]). constructor. Qed.

Lemma ws_answer_only_by_proven_receiver_witness :
  exists s' outs req intent,
    applyContactRespondWS allUp true 100 "c1" answer (runOps answerOps NewServer) = (s', outs, Ok (req, intent)) /\
    exists p sig mn al pm, demoProver = Some p /\ p "Pxaa" sig mn al pm = Ok () /\ si_AmountUplp intent = 5.
Proof.
  destruct (applyContactRespondWS allUp true 100 "c1" answer (runOps answerOps NewServer)) as [[s' outs] [[req intent]|e]] eqn:E;
    [|vm_compute in E; discriminate].
  exists s', outs, req, intent. split; [reflexivity|].
  destruct (ws_answer_only_by_proven_receiver demoMarshal demoProver answerOps _ allUp true 100 "c1" answer s' outs req intent
    answer_runs E) as (ce & r & c & p & sig & mn & al & pm & Hce & Hr & _ & _ & Hc & _ & Hp & Hok & _ & _ & Ham & _).
  exists p, sig, mn, al, pm. split; [exact Hp|].
  assert (cl_Address c = "Pxaa") as Ea by (vm_compute in Hc; injection Hc as <-; reflexivity).
  rewrite Ea in Hok. split; [exact Hok|]. rewrite Ham. vm_compute in Hce. injection Hce as <-. vm_compute in Hr. injection Hr as <-.
  reflexivity.
Defined.

(** *** Registrations without proof

    A registers with proof and publishes a key; another client then claims the
    same address without any proof. The key that others read for A becomes the
    intruder's, and A's messages reach the intruder's session too. *)
Example claim_replaces_key :
  let s := runOps (demoConnect ++ [register "c1" "pxAA" "dev" (("e2eePublicKey", JString "keyA") :: proofFields);
                                   register "c2" "PxAA" "other" [("e2eePublicKey", JString "keyB")]]) NewServer in
  LookupE2eePubKey "PxAA" s = "keyB" /\ AuthenticatedOwner <$> (sv_heap s !! "c2") = Some "" /\
  sessionsOf s "Pxaa" !! "c1" = Some () /\ sessionsOf s "Pxaa" !! "c2" = Some ().
Proof. vm_compute. repeat split. Qed.

(** With the same device identifier the claim ends A's proven session. *)
Example claim_ends_proven_session :
  let s := runOps (demoConnect ++ [register "c2" "PxAA" "dev" []]) NewServer in
  AuthenticatedOwner <$> (sv_heap s !! "c1") = Some "" /\ sessionsOf s "Pxaa" !! "c1" = None.
Proof. vm_compute. repeat split. Qed.

(** A registration of blanks is filed under the empty address and stays there
    when the client registers a real address. *)
Example blank_registration_stays :
  let s := runOps [OpAccept "c1" "ip" 1; register "c1" "  " "dev" []; register "c1" "PxAA" "dev" []] NewServer in
  is_Some (sessionsOf s "" !! "c1") /\ is_Some (sessionsOf s "Pxaa" !! "c1").
Proof. vm_compute. split; by eexists. Qed.

(** A contact request over a websocket is created for an unproven sender with an
    invented lock: nothing looks the lock up in the mempool or the chain. *)
Example ws_request_with_invented_lock :
  let s := runOps (demoConnect ++ [register "c2" "PxBB" "d" []; OpEconomy (Some (NewStore demoCfg));
    OpContactRequest allUp true 100 "c2" [("requestId", JString "r9"); ("receiver", JString "PxAA");
      ("encryptedPayload", JString "cipher"); ("amountUplp", JNumber (float64 7));
      ("lockTxHash", JString "00000000000000000000000000000000")]]) NewServer in
  (isPending <$> (sv_contactEconomy s ≫= fun ce => st_Requests ce !! "r9")) = Some true.
Proof. vm_compute. reflexivity. Qed.
