(* ===== verification/Nodes.v ===== *)
(** * internal/nodes: peers, discovery and events (nodes.go, discovery.go)

    [NodesManager] is the struct without its callbacks and locks. A peer entry
    belongs to one map, so entries are values. A message handler returns the new
    manager and its effects: writes to a connection, dials, callbacks. [None]
    stands for a run-time panic (a slice out of range), which ends the process:
    no handler recovers. Times are nanoseconds; a zero [time.Time] is [None].
    Whether a callback is set is the argument [cb]; the outcome of a dial or a
    write is an argument too. *)

From S2P Require Import Prelude GoStd GoJson.

#[local] Open Scope Z_scope.

Definition second : Z := 1000000000.
Definition peerLivePongWindow : Z := 30 * second.

Record NodeInfo := mkNodeInfo { ni_NodeID : string; ni_Address : string; ni_Host : string; ni_Port : Z; ni_RestURL : string }.

Record SocketInfo := mkSocket { si_SocketID : string; si_IPAddress : string; si_ConnectedAt : string; si_NodeID : string }.

Record PeerConnection := mkPeer {
  pr_NodeID : string; pr_Address : string; pr_Host : string; pr_Port : Z; pr_RestURL : string;
  pr_Conn : option string; pr_LastPong : option Z; pr_PingFailures : Z
}.

Record NodesManager := mkNM {
  nm_nodeID : string; nm_nodeHost : string; nm_nodePort : Z; nm_nodeAddress : string; nm_restBaseURL : string;
  nm_connectedNodes : gmap string PeerConnection;
  nm_peerSockets : gmap string (gmap string SocketInfo);
  nm_reconnectTimers : gset string;
  nm_seenEvents : gmap string Z;
  nm_knownPeerAddrs : gset string
}.

Definition NewNodesManager (nodeID host : string) (port : Z) (address : string) : NodesManager :=
  mkNM nodeID host port address "" ∅ ∅ ∅ ∅ ∅.

Definition with_connected (m : gmap string PeerConnection) (n : NodesManager) : NodesManager :=
  mkNM (nm_nodeID n) (nm_nodeHost n) (nm_nodePort n) (nm_nodeAddress n) (nm_restBaseURL n) m (nm_peerSockets n)
    (nm_reconnectTimers n) (nm_seenEvents n) (nm_knownPeerAddrs n).

Definition with_sockets (m : gmap string (gmap string SocketInfo)) (n : NodesManager) : NodesManager :=
  mkNM (nm_nodeID n) (nm_nodeHost n) (nm_nodePort n) (nm_nodeAddress n) (nm_restBaseURL n) (nm_connectedNodes n) m
    (nm_reconnectTimers n) (nm_seenEvents n) (nm_knownPeerAddrs n).

Definition with_timers (ts : gset string) (n : NodesManager) : NodesManager :=
  mkNM (nm_nodeID n) (nm_nodeHost n) (nm_nodePort n) (nm_nodeAddress n) (nm_restBaseURL n) (nm_connectedNodes n)
    (nm_peerSockets n) ts (nm_seenEvents n) (nm_knownPeerAddrs n).

Definition with_seen (m : gmap string Z) (n : NodesManager) : NodesManager :=
  mkNM (nm_nodeID n) (nm_nodeHost n) (nm_nodePort n) (nm_nodeAddress n) (nm_restBaseURL n) (nm_connectedNodes n)
    (nm_peerSockets n) (nm_reconnectTimers n) m (nm_knownPeerAddrs n).

Definition with_known (ks : gset string) (n : NodesManager) : NodesManager :=
  mkNM (nm_nodeID n) (nm_nodeHost n) (nm_nodePort n) (nm_nodeAddress n) (nm_restBaseURL n) (nm_connectedNodes n)
    (nm_peerSockets n) (nm_reconnectTimers n) (nm_seenEvents n) ks.

(** ** Addresses *)

Definition normalizePeerWebSocketDialURL (address : string) : result string :=
  let a := TrimSpace address in
  if String.eqb a "" then Err "empty peer address"
  else
  let lower := ToLower a in
  if HasPrefix lower "ws://" || HasPrefix lower "wss://" then Ok a
  else if HasPrefix lower "http://" then Ok ("ws://" +:+ str_drop 7 a)
  else if HasPrefix lower "https://" then Ok ("wss://" +:+ str_drop 8 a)
  else Ok ("ws://" +:+ a).

Definition peerWebSocketDialURLsEqual (a b : string) : bool :=
  match normalizePeerWebSocketDialURL a, normalizePeerWebSocketDialURL b with
  | Ok na, Ok nb => String.eqb na nb
  | _, _ => false
  end.

(** The dial URL of an address that is usable and not this node's. *)
Definition foreignURL (n : NodesManager) (address : string) : option string :=
  match normalizePeerWebSocketDialURL address, normalizePeerWebSocketDialURL (nm_nodeAddress n) with
  | Ok url, Ok self => if String.eqb url self then None else Some url
  | _, _ => None
  end.

(** ** Effects *)

Inductive peerMsg :=
| PmAnnounce (nodeID address host : string) (port : Z) (restURL : string)
| PmSocketsRequest
| PmSocketsResponse (nodeID : string) (sockets : list SocketInfo)
| PmSyncRequest (fromBlock : Z)
| PmSyncResponse (data : jobj)
| PmGossip (peers : list string)
| PmPong
| PmPing
| PmEvent (eventType : string) (data : jobj) (timestamp : Z) (originNodeID eventID : string)
| PmClientConnected (nodeID clientID ip connectedAt : string)
| PmClientDisconnected (nodeID clientID : string).

Inductive callback :=
| CbMessage (data : jobj)
| CbL1Proposal (blockId proposer : string) (txCount : Z) (txHashes : list string)
| CbL1Vote (blockId nodeId : string) (yes : bool) (pubKey signature : string)
| CbL2Proposal (blockId proposer : string) (txHashes : list string)
| CbL2Vote (blockId nodeId : string) (yes : bool) (pubKey signature : string)
| CbMempoolAdd (tx : jobj)
| CbDagVertex (data : jobj)
| CbDagCommit (data : jobj)
| CbL1BlockCollected (beneficiary : string)
| CbPendingBlockSync (pending : list jobj)
| CbL1VoteResult (votes : gmap string bool) (accepted : bool)
| CbL2VoteResult (votes : gmap string bool) (accepted : bool)
| CbFeeDistribution (data : jobj)
| CbBlockConfirmed (data : jobj)
| CbNodeLoad (nodeId : string) (currentTasks maxCapacity : Z)
| CbSyncApply (data : jobj).

Inductive effect :=
| Write (conn : string) (m : peerMsg)
| Dial (address : string)
| Close (conn : string)
| Call (c : callback).

Section manager.
Context {R : GoRange}.
(** Which callbacks are set, by the name of the field. *)
Variable cb : string -> bool.
Implicit Types n : NodesManager.

(** ** Reads *)

Definition peers n : list PeerConnection := (range (nm_connectedNodes n)).*2.

Definition GetPeerRestURL (nodeID : string) n : string := default "" (pr_RestURL <$> nm_connectedNodes n !! nodeID).

Definition getPeerByAddress (address : string) n : option PeerConnection :=
  snd <$> list_find (fun p => pr_Address p = address) (peers n).

Definition getPeerByConn (conn : string) n : option PeerConnection :=
  snd <$> list_find (fun p => pr_Conn p = Some conn) (peers n).

Definition peerResponsive (lastPong : option Z) (now : Z) : bool :=
  match lastPong with None => true | Some t => now - t <=? peerLivePongWindow end.

Definition nodeInfo (p : PeerConnection) : NodeInfo :=
  mkNodeInfo (pr_NodeID p) (pr_Address p) (pr_Host p) (pr_Port p) (pr_RestURL p).

Definition GetResponsiveConnectedNodes (now : Z) n : list NodeInfo :=
  nodeInfo <$> filter (fun p => peerResponsive (pr_LastPong p) now = true) (peers n).

Definition GetConnectedNodes n : list NodeInfo := nodeInfo <$> peers n.

Definition GetConnectedSockets (local : list SocketInfo) n : list SocketInfo :=
  local ++ ((range (nm_peerSockets n)).*2 ≫= fun m => (range m).*2).

(** ** Discovery *)

(** [listed] is what peers.json and PEERS decode to. *)
Definition loadPeers (listed : list string) n : list string :=
  filter (fun p => peerWebSocketDialURLsEqual p (nm_nodeAddress n) = false) listed.

Definition maxPeerConnections (env : string) : Z :=
  let '(v, ok) := ParseInt env in
  if negb (String.eqb env "") && ok && (0 <? v) then v else 100.

Definition recordKnownPeer (address : string) n : NodesManager :=
  match foreignURL n address with
  | Some url => with_known (nm_knownPeerAddrs n ∪ {[url]}) n
  | None => n
  end.

(** The set [seen] as a list without repetition. *)
Definition collectGossipPeers (listed : list string) n : list string :=
  let candidates := nm_nodeAddress n :: (pr_Address <$> peers n) ++ elements (nm_knownPeerAddrs n) ++ loadPeers listed n in
  elements (list_to_set (omap (foreignURL n) candidates) : gset string).

Definition isPeerConnected (address : string) n : bool :=
  match normalizePeerWebSocketDialURL address with
  | Err _ => false
  | Ok url => existsb (fun p => peerWebSocketDialURLsEqual (pr_Address p) url) (peers n)
  end.

Definition stringItems (l : list jval) : list string := omap (fun v => match v with JString s => Some s | _ => None end) l.

(** The addresses of a gossip list, recorded, and those worth dialling. *)
Fixpoint gossipScan (addrs : list string) n : NodesManager * list string :=
  match addrs with
  | [] => (n, [])
  | addr :: rest =>
      if String.eqb addr "" then gossipScan rest n
      else
      let n1 := recordKnownPeer addr n in
      let '(n2, new) := gossipScan rest n1 in
      match foreignURL n1 addr with
      | Some url => (n2, if isPeerConnected url n1 then new else url :: new)
      | None => (n2, new)
      end
  end.

(** The dials run as goroutines, so the peer count is the same at every turn. *)
Definition handlePeerGossip (maxPeers : Z) (data : jobj) n : NodesManager * list effect :=
  match getArray data "peers" with
  | None => (n, [])
  | Some raw =>
      let '(n, newAddrs) := gossipScan (stringItems raw) n in
      if maxPeers <=? Z.of_nat (size (nm_connectedNodes n)) then (n, []) else (n, Dial <$> newAddrs)
  end.

Definition sendPeerGossip (listed : list string) (p : PeerConnection) n : list effect :=
  match pr_Conn p with Some c => [Write c (PmGossip (collectGossipPeers listed n))] | None => [] end.

Definition broadcastPeerGossip (listed : list string) n : list effect := peers n ≫= fun p => sendPeerGossip listed p n.

(** ** Connecting *)

Definition announcement n : peerMsg :=
  PmAnnounce (nm_nodeID n) (nm_nodeAddress n) (nm_nodeHost n) (nm_nodePort n) (nm_restBaseURL n).

(** [dial url] is the outcome of parsing the URL and dialling it. *)
Definition tryConnect (dial : string -> result string) (address : string) n : NodesManager * list effect * result unit :=
  match normalizePeerWebSocketDialURL address with
  | Err e => (n, [], Err e)
  | Ok url =>
      match normalizePeerWebSocketDialURL (nm_nodeAddress n) with
      | Err e => (n, [], Err e)
      | Ok self =>
          if String.eqb url self then (n, [], Err "cannot connect to self")
          else if existsb (fun p => String.eqb (pr_Address p) address) (peers n) then (n, [], Ok ())
          else match dial url with
          | Err e => (n, [], Err e)
          | Ok conn => (recordKnownPeer address n, [Write conn (announcement n)], Ok ())
          end
      end
  end.

(** [scheduleReconnect] arms one timer per address; when it fires the address is
    dialled, and armed again on failure ([ConnectToNode]). *)
Definition scheduleReconnect (address : string) n : NodesManager := with_timers (nm_reconnectTimers n ∪ {[address]}) n.

Definition ConnectToNode (dial : string -> result string) (address : string) n : NodesManager * list effect :=
  let '(n, es, r) := tryConnect dial address n in
  match r with Ok _ => (n, es) | Err _ => (scheduleReconnect address n, es) end.

Definition reconnectFires (dial : string -> result string) (address : string) n : NodesManager * list effect :=
  ConnectToNode dial address (with_timers (nm_reconnectTimers n ∖ {[address]}) n).

Definition ConnectToPeers (listed : list string) n : NodesManager * list effect :=
  foldl (fun '(n, es) addr =>
    (recordKnownPeer addr n, if peerWebSocketDialURLsEqual addr (nm_nodeAddress n) then es else es ++ [Dial addr]))
    (n, []) (loadPeers listed n).

(** ** Heartbeat *)

Definition setPeer (nodeID : string) (p : PeerConnection) n : NodesManager := with_connected (<[nodeID := p]> (nm_connectedNodes n)) n.

(** The first entry, in iteration order, whose address is [address]. *)
Definition entryAt (address : string) n : option (string * PeerConnection) :=
  snd <$> list_find (fun kv => pr_Address kv.2 = address) (range (nm_connectedNodes n)).

Definition withPong (t : option Z) (failures : Z) (p : PeerConnection) : PeerConnection :=
  mkPeer (pr_NodeID p) (pr_Address p) (pr_Host p) (pr_Port p) (pr_RestURL p) (pr_Conn p) t failures.

(** The pong handler of the connection that was opened as [address]. *)
Definition pongReceived (address : string) (now : Z) n : NodesManager :=
  match entryAt address n with
  | Some (id, p) => setPeer id (withPong (Some now) 0 p) n
  | None => n
  end.

(** One tick of the heartbeat of the connection opened as [address]; [ok] tells
    whether the ping could be written. *)
Definition heartbeatTick (address : string) (now : Z) (ok : bool) n : NodesManager * list effect :=
  match entryAt address n with
  | None => (n, [])
  | Some (id, p) =>
      match pr_Conn p with
      | None => (n, [])
      | Some c =>
          if negb ok then (n, [])
          else
          let late := match pr_LastPong p with None => true | Some t => peerLivePongWindow <? now - t end in
          if late then
            let f := pr_PingFailures p + 1 in
            (setPeer id (withPong (pr_LastPong p) f p) n, Write c PmPing :: (if 2 <? f then [Close c] else []))
          else (n, [Write c PmPing])
      end
  end.

(** [id[:8]], [None] when the id is shorter. *)
Definition short8 (id : string) : option string := if len id <? 8 then None else Some (str_take 8 id).

(** The end of [handlePeerConnection]. *)
Definition connectionEnds (address : string) n : option NodesManager :=
  match entryAt address n with
  | None => Some (scheduleReconnect address n)
  | Some (id, _) =>
      match short8 id with
      | None => None
      | Some _ => Some (scheduleReconnect address
          (with_sockets (delete id (nm_peerSockets n)) (with_connected (delete id (nm_connectedNodes n)) n)))
      end
  end.

(** ** Messages of a peer *)

Definition updatePeer (conn peerAddr host restUrl : string) (port now : Z) (p : PeerConnection) : PeerConnection :=
  let p := if String.eqb (pr_Address p) peerAddr then p
           else mkPeer (pr_NodeID p) peerAddr host port (pr_RestURL p) (Some conn) (Some now) 0 in
  if String.eqb restUrl "" then p
  else mkPeer (pr_NodeID p) (pr_Address p) (pr_Host p) (pr_Port p) restUrl (pr_Conn p) (pr_LastPong p) (pr_PingFailures p).

Definition syncFrom (head : Z) : Z :=
  if cb "chainHeadCB" then let f := i64 (head + 1) in if f <? 0 then 0 else f else 0.

(** [head] is the answer of the chain head callback. *)
Definition handleNodeAnnounce (listed : list string) (head now : Z) (data : jobj) (conn : string) n
  : option (NodesManager * list effect) :=
  let nodeID := getString data "nodeId" in
  let peerAddr := getString data "address" in
  let host := getString data "host" in
  let port := getInt data "port" in
  let restUrl := getString data "restUrl" in
  if String.eqb nodeID (nm_nodeID n) then Some (n, [])
  else if String.eqb nodeID "" then Some (n, [])
  else match nm_connectedNodes n !! nodeID with
  | Some existing => Some (setPeer nodeID (updatePeer conn peerAddr host restUrl port now existing) n, [])
  | None =>
      let peer := mkPeer nodeID peerAddr host port restUrl (Some conn) (Some now) 0 in
      let n := setPeer nodeID peer n in
      match short8 nodeID with
      | None => None
      | Some _ =>
          Some (n, [Write conn (announcement n); Write conn PmSocketsRequest; Write conn (PmSyncRequest (syncFrom head))]
                   ++ sendPeerGossip listed peer n ++ broadcastPeerGossip listed n)
      end
  end.

Definition handleClientConnected (nowText : string) (data : jobj) n : option NodesManager :=
  let nodeID := getString data "nodeId" in
  let clientID := getString data "clientId" in
  let connectedAt := getString data "connectedAt" in
  if String.eqb nodeID (nm_nodeID n) then Some n
  else
  let info := mkSocket clientID (getString data "ip") (if String.eqb connectedAt "" then nowText else connectedAt) nodeID in
  let m := <[clientID := info]> (default ∅ (nm_peerSockets n !! nodeID)) in
  match short8 nodeID with None => None | Some _ => Some (with_sockets (<[nodeID := m]> (nm_peerSockets n)) n) end.

Definition handleClientDisconnected (data : jobj) n : option NodesManager :=
  let nodeID := getString data "nodeId" in
  let clientID := getString data "clientId" in
  if String.eqb nodeID (nm_nodeID n) then Some n
  else
  let reg := match nm_peerSockets n !! nodeID with
    | None => nm_peerSockets n
    | Some m =>
        let m := delete clientID m in
        if bool_decide (m = ∅) then delete nodeID (nm_peerSockets n) else <[nodeID := m]> (nm_peerSockets n)
    end in
  match short8 nodeID with None => None | Some _ => Some (with_sockets reg n) end.

Definition HandleSocketsResponse (data : jobj) n : NodesManager :=
  let nodeID := getString data "nodeId" in
  if String.eqb nodeID (nm_nodeID n) then n
  else
  let add m v := match v with
    | JObject o => <[getString o "socketId" := mkSocket (getString o "socketId") (getString o "ipAddress")
                                                  (getString o "connectedAt") (getString o "nodeId")]> m
    | _ => m
    end in
  let m := foldl add (∅ : gmap string SocketInfo) (default [] (getArray data "sockets")) in
  with_sockets (<[nodeID := m]> (nm_peerSockets n)) n.

Definition handleSocketsRequest (local : option (list SocketInfo)) (conn : string) n : list effect :=
  match local with Some l => [Write conn (PmSocketsResponse (nm_nodeID n) l)] | None => [] end.

(** ** Events *)

Definition parsePayloadStringSlice (payload : jobj) (key : string) : list string :=
  match getArray payload key with
  | None => []
  | Some arr => filter (fun s => s <> "") (stringItems arr)
  end.

Definition boolEntries (m : jobj) : gmap string bool :=
  foldl (fun acc '(k, v) => match v with JBool b => <[k := b]> acc | _ => delete k acc end) ∅ m.

Definition objectItems (l : list jval) : list jobj := omap (fun v => match v with JObject o => Some o | _ => None end) l.

Definition callIf (name : string) (c : callback) : list callback := if cb name then [c] else [].

(** The [switch] on the event type. *)
Definition dispatchEvent (eventType : string) (payload : jobj) : list callback :=
  let str := getString payload in
  let yes := default false (getBool payload "yes") in
  let votes := boolEntries (getObject payload "votes") in
  let accepted := default false (getBool payload "accepted") in
  if String.eqb eventType "l1_proposal" then
    callIf "l1ProposalCB" (CbL1Proposal (str "blockId") (str "proposerNodeId") (getInt payload "txCount")
                             (parsePayloadStringSlice payload "txHashes"))
  else if String.eqb eventType "l1_vote" then
    callIf "l1VoteCB" (CbL1Vote (str "blockId") (str "nodeId") yes (str "pubKey") (str "signature"))
  else if String.eqb eventType "l2_proposal" then
    callIf "l2ProposalCB" (CbL2Proposal (str "blockId") (str "proposerNodeId") (parsePayloadStringSlice payload "txHashes"))
  else if String.eqb eventType "l2_vote" then
    callIf "l2VoteCB" (CbL2Vote (str "blockId") (str "nodeId") yes (str "pubKey") (str "signature"))
  else if String.eqb eventType "mempool:add" then
    match jget payload "tx" with Some (JObject tx) => callIf "mempoolAddCB" (CbMempoolAdd tx) | _ => [] end
  else if String.eqb eventType "dag:vertex" then callIf "dagVertexCB" (CbDagVertex payload)
  else if String.eqb eventType "dag:commit" then callIf "dagCommitCB" (CbDagCommit payload)
  else if String.eqb eventType "l1BlockCollected" then
    let pending := objectItems (default [] (getArray payload "pendingBlock")) in
    callIf "l1BlockCollectedCB" (CbL1BlockCollected (str "l1BeneficiaryNodeId")) ++
    (if bool_decide (pending = []) then [] else callIf "pendingBlockSyncCB" (CbPendingBlockSync pending))
  else if String.eqb eventType "l1_vote_result" then callIf "l1VoteResultCB" (CbL1VoteResult votes accepted)
  else if String.eqb eventType "l2_vote_result" then callIf "l2VoteResultCB" (CbL2VoteResult votes accepted)
  else if String.eqb eventType "fee_distribution" then callIf "feeDistributionCB" (CbFeeDistribution payload)
  else if String.eqb eventType "block_confirmed" then callIf "blockConfirmedCB" (CbBlockConfirmed payload)
  else if String.eqb eventType "node_load" then
    let cur := getInt payload "currentTasks" in
    let max := getInt payload "maxCapacity" in
    if negb (String.eqb (str "nodeId") "") && (0 <? max) then callIf "nodeLoadCB" (CbNodeLoad (str "nodeId") cur max) else []
  else [].

Definition fiveMinutes : Z := 300 * second.
Definition tenMinutes : Z := 600 * second.

(** The duplicate check: the events seen after it, and whether to go on. *)
Definition noteEvent (eventID : string) (now : Z) (seen : gmap string Z) : gmap string Z * bool :=
  if String.eqb eventID "" then (seen, true)
  else
  let dup := match seen !! eventID with Some t => now - t <? fiveMinutes | None => false end in
  if dup then (seen, false)
  else (filter (fun kv => now - kv.2 <= tenMinutes) (<[eventID := now]> seen), true).

Definition eventTypeOf (msg : jobj) : string :=
  let t := getString msg "eventType" in if String.eqb t "" then getString msg "type" else t.

(** [None] in the second component: the event was dropped as one's own or as a
    duplicate. *)
Definition handleBlockchainEvent (now : Z) (msg : jobj) n : NodesManager * option (list callback) :=
  if String.eqb (getString msg "originNodeId") (nm_nodeID n) then (n, None)
  else
  let '(seen, fresh) := noteEvent (getString msg "eventId") now (nm_seenEvents n) in
  let n := with_seen seen n in
  if negb fresh then (n, None)
  else
  let eventType := eventTypeOf msg in
  let payload := getObject msg "data" in
  (n, Some (if String.eqb eventType "message:route" then callIf "wsMessageHandler" (CbMessage payload)
            else dispatchEvent eventType payload)).

(** ** Broadcasting *)

Definition isConnDeadErr (err : string) : bool :=
  Contains err "broken pipe" || Contains err "connection reset" || Contains err "use of closed network connection".

Definition dropPeer (acc : NodesManager * list string * list effect) (nodeID : string) : NodesManager * list string * list effect :=
  let '(n, addrs, es) := acc in
  match nm_connectedNodes n !! nodeID with
  | None => acc
  | Some p =>
      (with_sockets (delete nodeID (nm_peerSockets n)) (with_connected (delete nodeID (nm_connectedNodes n)) n),
       if String.eqb (pr_Address p) "" then addrs else addrs ++ [pr_Address p],
       es ++ match pr_Conn p with Some c => [Close c] | None => [] end)
  end.

Definition removeDeadPeers (dead : list string) n : NodesManager * list effect :=
  let '(n, addrs, es) := foldl dropPeer (n, [], []) dead in
  (foldl (fun n a => scheduleReconnect a n) n addrs, es).

(** [write] is the error of the write to a peer, if any; [stamp] the event's id
    made of its type, the clock and this node. A peer with a short id whose write
    fails without the connection being dead panics the log line. *)
Definition BroadcastBlockchainEvent (write : string -> option string) (stamp eventType : string) (data : jobj) (origin : string)
  (now nowSec : Z) n : option (NodesManager * list effect) :=
  let n := with_seen (<[stamp := now]> (nm_seenEvents n)) n in
  let e := PmEvent eventType data nowSec origin stamp in
  let targets := filter (fun kv => (origin = "" \/ kv.1 <> origin) /\ is_Some (pr_Conn kv.2)) (range (nm_connectedNodes n)) in
  let failed := omap (fun kv => (fun err => (kv.1, err)) <$> write kv.1) targets in
  let other := filter (fun ie => isConnDeadErr ie.2 = false) failed in
  if existsb (fun ie => len ie.1 <? 8) other then None
  else
  let ok := filter (fun kv => write kv.1 = None) targets in
  let dead := fst <$> filter (fun ie => isConnDeadErr ie.2 = true) failed in
  let '(n, es) := removeDeadPeers dead n in
  Some (n, (ok ≫= fun kv => match pr_Conn kv.2 with Some c => [Write c e] | None => [] end) ++ es).

(** A message to every peer whose connection is open. *)
Definition toAll (m : peerMsg) n : list effect :=
  peers n ≫= fun p => match pr_Conn p with Some c => [Write c m] | None => [] end.

Definition AnnounceClientConnected (clientID ip connectedAt : string) n : list effect :=
  toAll (PmClientConnected (nm_nodeID n) clientID ip connectedAt) n.

Definition AnnounceClientDisconnected (clientID : string) n : list effect :=
  toAll (PmClientDisconnected (nm_nodeID n) clientID) n.

Definition QueryPeerSockets n : list effect := toAll PmSocketsRequest n.

(** ** Sync messages *)

(** [respond] is the sync callback's answer for a first block. *)
Definition handleSyncRequest (respond : Z -> jobj) (now : Z) (conn : string) (request : jobj) n : list effect :=
  let fromBlock := getInt request "fromBlockNumber" in
  let payload := if cb "syncRespondCB" then respond fromBlock
    else [("nodeId", JString (nm_nodeID n)); ("timestamp", jint now); ("headBlockNumber", jint (-1)); ("blocks", JArray [])] in
  [Write conn (PmSyncResponse payload)].

Definition handleSyncResponse (data : jobj) : list effect := Call <$> callIf "syncApplyCB" (CbSyncApply data).

(** ** The reading loop: one message *)

Record env := mkEnv {
  ev_now : Z; ev_nowText : string; ev_listed : list string; ev_maxPeers : Z; ev_head : Z;
  ev_local : option (list SocketInfo); ev_respond : Z -> jobj
}.

Definition peerMessage (ev : env) (conn : string) (msg : jobj) n : option (NodesManager * list effect) :=
  let t := getString msg "type" in
  let data := getObject msg "data" in
  let quiet o := (fun n => (n, [])) <$> o in
  if String.eqb t "node:announce" then handleNodeAnnounce (ev_listed ev) (ev_head ev) (ev_now ev) data conn n
  else if String.eqb t "client:connected" then quiet (handleClientConnected (ev_nowText ev) data n)
  else if String.eqb t "client:disconnected" then quiet (handleClientDisconnected data n)
  else if String.eqb t "blockchain:event" then
    let '(n, cs) := handleBlockchainEvent (ev_now ev) msg n in Some (n, Call <$> default [] cs)
  else if String.eqb t "sockets:request" then Some (n, handleSocketsRequest (ev_local ev) conn n)
  else if String.eqb t "sockets:response" then Some (HandleSocketsResponse data n, [])
  else if String.eqb t "sync:request" then Some (n, handleSyncRequest (ev_respond ev) (ev_now ev / second) conn data n)
  else if String.eqb t "sync:response" then Some (n, handleSyncResponse data)
  else if String.eqb t "peer:gossip" then Some (handlePeerGossip (ev_maxPeers ev) data n)
  else if String.eqb t "ping" then Some (n, [Write conn PmPong])
  else Some (n, []).
End manager.
