(* ===== verification/NodesSpec.v ===== *)
(** * What the node manager promises *)

From S2P Require Import Prelude GoStd GoJson Nodes.
From Stdlib Require Import Ascii Sorting.Sorted.

#[local] Open Scope Z_scope.

(** ** Dial URLs *)

Definition rtrimmed (x : string) : Prop := strip_one (map str_rev space_runes) (str_rev x) = None.

Lemma prefix_app_inv p x y : HasPrefix (x +:+ y) p = true -> HasPrefix x p = true \/ exists q, q <> "" /\ p = x +:+ q /\ HasPrefix y q = true.
Proof.
  revert x. induction p as [|c p IH]; intros [|d x] H; [by left|by left|right; by exists (String c p)|].
  rewrite str_app_cons in H. unfold HasPrefix in *. simpl in *. destruct (ascii_dec c d) as [->|]; [|done].
  destruct (IH x H) as [?|(q & ? & -> & ?)]; [by left|right]. exists q. by rewrite str_app_cons.
Qed.

Lemma rtrimmed_TrimSpace a : rtrimmed (TrimSpace a).
Proof.
  unfold rtrimmed, TrimSpace, trim_right. rewrite str_rev_involutive. apply (trim_left_fuel_spec _ _ _); [|done].
  intros p (q & -> & Hq)%list_elem_of_fmap ?%str_rev_empty. subst. by apply space_runes_nonempty in Hq.
Qed.

Lemma rtrimmed_drop k a : rtrimmed a -> rtrimmed (str_drop k a).
Proof.
  unfold rtrimmed. rewrite !strip_one_none. intros H p Hp. destruct (str_drop_suffix k a) as [b Hb].
  destruct (HasPrefix (str_rev (str_drop k a)) p) eqn:E; [|done].
  apply (prefix_app _ _ (str_rev b)) in E. rewrite <- str_rev_append, <- Hb in E. by rewrite (H p Hp) in E.
Qed.

(** A scheme in front of a trimmed rest is trimmed. *)
Lemma TrimSpace_scheme c s d t x :
  graphic c = true -> graphic d = true -> str_rev (String c s) = String d t -> rtrimmed x ->
  TrimSpace (String c s +:+ x) = String c s +:+ x.
Proof.
  intros Hc Hd Hr Hx. unfold TrimSpace, trim_right. rewrite str_app_cons, (trim_left_done space_runes).
  2: { apply strip_graphic. intros p Hp. split; [by apply space_runes_nonempty|by apply space_runes_not_graphic]. }
  rewrite <- str_app_cons. rewrite trim_left_done; [by rewrite str_rev_involutive|].
  rewrite str_rev_append, Hr. apply strip_one_none. intros p Hp.
  destruct (HasPrefix (str_rev x +:+ String d t) p) eqn:E; [|done].
  apply prefix_app_inv in E as [E|(q & Hq & -> & E)].
  - unfold rtrimmed in Hx. rewrite strip_one_none in Hx. by rewrite (Hx p Hp) in E.
  - destruct q as [|e q]; [done|]. unfold HasPrefix in E. simpl in E. destruct (ascii_dec e d) as [->|]; [|done].
    apply list_elem_of_fmap in Hp as (r & Hrq & Hr'). exfalso.
    pose proof (space_runes_not_graphic d r Hd Hr') as Hb. rewrite <- has_byte_rev, <- Hrq, has_byte_app in Hb. simpl in Hb.
    by rewrite Ascii.eqb_refl, orb_true_r in Hb.
Qed.

Lemma ToLower_app a b : ToLower (a +:+ b) = ToLower a +:+ ToLower b.
Proof. induction a as [|c a IH]; [done|]. rewrite str_app_cons. simpl. by rewrite IH, str_app_cons. Qed.

Lemma normalize_scheme (u x : string) :
  u = "ws://" \/ u = "wss://" -> rtrimmed x -> normalizePeerWebSocketDialURL (u +:+ x) = Ok (u +:+ x).
Proof.
  intros Hu Hx. unfold normalizePeerWebSocketDialURL.
  assert (Ht : TrimSpace (u +:+ x) = u +:+ x)
    by (destruct Hu as [->| ->]; (eapply TrimSpace_scheme; [| |reflexivity|done]; reflexivity)).
  rewrite Ht, ToLower_app. destruct Hu as [->| ->].
  - change (ToLower "ws://") with "ws://". by rewrite (prefix_of_app "ws://").
  - change (ToLower "wss://") with "wss://". by rewrite (prefix_of_app "wss://"), orb_true_r.
Qed.

(** A dial URL is its own normal form, so comparing and recording are stable. *)
Lemma normalize_dial_idemp a u : normalizePeerWebSocketDialURL a = Ok u -> normalizePeerWebSocketDialURL u = Ok u.
Proof.
  intros H. pose proof H as H0. unfold normalizePeerWebSocketDialURL in H. cbv zeta in H.
  pose proof (rtrimmed_TrimSpace a) as Hr. destruct (String.eqb (TrimSpace a) "") eqn:E0; [done|].
  destruct (_ || _) eqn:E1.
  - injection H as <-. unfold normalizePeerWebSocketDialURL. by rewrite TrimSpace_idemp, E0, E1.
  - destruct (HasPrefix _ "http://"); [|destruct (HasPrefix _ "https://")]; injection H as <-;
      (apply normalize_scheme; [auto|]); [by apply (rtrimmed_drop 7)|by apply (rtrimmed_drop 8)|done].
Qed.

Lemma foreignURL_spec n a u :
  foreignURL n a = Some u ->
  normalizePeerWebSocketDialURL u = Ok u /\ foreignURL n u = Some u /\ peerWebSocketDialURLsEqual u (nm_nodeAddress n) = false.
Proof.
  unfold foreignURL, peerWebSocketDialURLsEqual. destruct (normalizePeerWebSocketDialURL a) as [v|] eqn:E; [|done].
  destruct (normalizePeerWebSocketDialURL (nm_nodeAddress n)) as [w|] eqn:Ew; [|done].
  destruct (String.eqb v w) eqn:Ev; [done|]. intros [= <-]. rewrite (normalize_dial_idemp _ _ E). by rewrite Ev.
Qed.

(** ** Steps and invariant *)

Section spec.
Context {R : GoRange}.
Variable cb : string -> bool.
Implicit Types n : NodesManager.

Inductive nm_step : NodesManager -> NodesManager -> Prop :=
| NsMessage ev conn msg n n' es : peerMessage cb ev conn msg n = Some (n', es) -> nm_step n n'
| NsPong a now n : nm_step n (pongReceived a now n)
| NsTick a now ok n : nm_step n (heartbeatTick a now ok n).1
| NsEnd a n n' : connectionEnds a n = Some n' -> nm_step n n'
| NsConnect dial a n : nm_step n (ConnectToNode dial a n).1
| NsReconnect dial a n : nm_step n (reconnectFires dial a n).1
| NsStart listed n : nm_step n (ConnectToPeers listed n).1
| NsBroadcast write stamp t data origin now sec n n' es :
    BroadcastBlockchainEvent write stamp t data origin now sec n = Some (n', es) -> nm_step n n'.

(** A peer entry as the manager keeps it. *)
Definition peer_ok n (id : string) (p : PeerConnection) : Prop :=
  pr_NodeID p = id /\ id <> nm_nodeID n /\ id <> "" /\ 8 <= len id /\ is_Some (pr_Conn p).

Record NMInv n : Prop := {
  nmi_peers : forall id p, nm_connectedNodes n !! id = Some p -> peer_ok n id p;
  nmi_sockets : nm_peerSockets n !! nm_nodeID n = None;
  nmi_known : forall u, u ∈ nm_knownPeerAddrs n -> foreignURL n u = Some u
}.

(** What no operation changes. *)
Definition same_node n n' : Prop := nm_nodeID n' = nm_nodeID n /\ nm_nodeAddress n' = nm_nodeAddress n.

Lemma foreignURL_same n n' a : same_node n n' -> foreignURL n' a = foreignURL n a.
Proof. intros [_ E]. unfold foreignURL. by rewrite E. Qed.

(** The ways an operation touches the state. *)
Definition touches n n' : Prop :=
  same_node n n' /\
  (forall id p', nm_connectedNodes n' !! id = Some p' ->
     (exists p, nm_connectedNodes n !! id = Some p /\ pr_NodeID p' = pr_NodeID p /\ (is_Some (pr_Conn p) -> is_Some (pr_Conn p'))) \/
     peer_ok n id p') /\
  (nm_peerSockets n !! nm_nodeID n = None -> nm_peerSockets n' !! nm_nodeID n = None) /\
  (forall u, u ∈ nm_knownPeerAddrs n' -> u ∈ nm_knownPeerAddrs n \/ foreignURL n u = Some u).

Lemma touches_inv n n' : NMInv n -> touches n n' -> NMInv n'.
Proof.
  intros Hi (Hs & Hp & Hsock & Hk). destruct Hs as [Eid Eaddr]. split.
  - intros id p' [(p & Hl & En & Hc)|Ho]%Hp; unfold peer_ok; rewrite Eid; [|done].
    destruct (nmi_peers _ Hi _ _ Hl) as (? & ? & ? & ? & ?). split_and!; try done; [congruence|eauto].
  - rewrite Eid. apply Hsock, (nmi_sockets _ Hi).
  - intros u Hu. rewrite (foreignURL_same n n' u) by done. destruct (Hk u Hu) as [?|?]; [by apply (nmi_known _ Hi)|done].
Qed.

#[global] Instance touches_preorder : PreOrder touches.
Proof.
  split.
  - intros n. split_and!; try done; [|by left..]. intros id p Hp. left. by exists p.
  - intros a b c (S1 & P1 & K1 & U1) (S2 & P2 & K2 & U2). destruct S1 as [I1 A1], S2 as [I2 A2].
    assert (Hf : forall u, foreignURL b u = foreignURL a u) by (intros u; by apply foreignURL_same).
    split_and!; [split; congruence| |rewrite I1 in K2; auto|].
    + intros id p'' [(p' & Hl & En & Hc)|Ho]%P2; [|right; unfold peer_ok in *; by rewrite <- I1].
      destruct (P1 _ _ Hl) as [(p & Hl' & En' & Hc')|(? & ? & ? & ? & ?)].
      * left. exists p. split_and!; [done|congruence|auto].
      * right. split_and!; try done; [congruence|auto].
    + intros u [Hu|Hu]%U2; [by apply U1|right]. by rewrite <- Hf.
Qed.

(** An operation on sockets, timers or seen events only. *)
Lemma touches_rest n n' :
  same_node n n' -> nm_connectedNodes n' = nm_connectedNodes n -> nm_knownPeerAddrs n' = nm_knownPeerAddrs n ->
  (nm_peerSockets n !! nm_nodeID n = None -> nm_peerSockets n' !! nm_nodeID n = None) -> touches n n'.
Proof.
  intros Hs Hc Hk Hp. split_and!; [done| |done|rewrite Hk; by left]. rewrite Hc. intros id p Hl. left. by exists p.
Qed.

Lemma setPeer_touches id p p' n :
  nm_connectedNodes n !! id = Some p -> pr_NodeID p' = pr_NodeID p -> (is_Some (pr_Conn p) -> is_Some (pr_Conn p')) ->
  touches n (setPeer id p' n).
Proof.
  intros Hl En Hc. split_and!; [done| |done|by left]. intros id' q. simpl. rewrite lookup_insert. case_decide; subst.
  - intros [= <-]. left. by exists p.
  - intros Hq. left. by exists q.
Qed.

Lemma drop_touches id n :
  touches n (with_sockets (delete id (nm_peerSockets n)) (with_connected (delete id (nm_connectedNodes n)) n)).
Proof.
  split_and!; [done| | |by left].
  - intros id' p. simpl. intros [_ Hp]%lookup_delete_Some. left. by exists p.
  - intros Hn. simpl. rewrite lookup_delete. by case_decide.
Qed.

Lemma record_touches a n : touches n (recordKnownPeer a n).
Proof.
  unfold recordKnownPeer. destruct (foreignURL n a) as [u|] eqn:E; [|done].
  split_and!; [done| |done|]; [intros id p Hp; left; by exists p|].
  intros v [Hv| ->%elem_of_singleton]%elem_of_union; [by left|right]. by apply foreignURL_spec in E as (_ & ? & _).
Qed.

Lemma schedule_touches a n : touches n (scheduleReconnect a n).
Proof. by apply touches_rest. Qed.

Lemma entryAt_lookup a n id p : entryAt a n = Some (id, p) -> nm_connectedNodes n !! id = Some p /\ pr_Address p = a.
Proof.
  unfold entryAt. destruct (list_find _ _) as [[i kv]|] eqn:E; [|done]. simpl. intros [= ->].
  apply list_find_Some in E as (Hl & Ha & _). split; [|done]. apply elem_of_range. by apply list_elem_of_lookup_2 in Hl.
Qed.

Lemma tryConnect_touches dial a n : touches n (tryConnect dial a n).1.1.
Proof.
  unfold tryConnect. repeat (case_match; try done). apply record_touches.
Qed.

Lemma connect_touches dial a n : touches n (ConnectToNode dial a n).1.
Proof.
  unfold ConnectToNode. pose proof (tryConnect_touches dial a n) as H.
  destruct (tryConnect dial a n) as [[n' es] [r|e]]; simpl in *; [done|]. etransitivity; [exact H|apply schedule_touches].
Qed.

Lemma foldl_touches {A} (f : NodesManager -> A -> NodesManager) l n : (forall n x, touches n (f n x)) -> touches n (foldl f n l).
Proof. intros Hf. revert n. induction l as [|x l IH]; intros n; [done|]. simpl. etransitivity; [apply Hf|apply IH]. Qed.

Lemma gossipScan_touches addrs n : touches n (gossipScan addrs n).1.
Proof.
  revert n. induction addrs as [|a l IH]; intros n; [done|]. cbn [gossipScan]. destruct (String.eqb a ""); [done|].
  specialize (IH (recordKnownPeer a n)). destruct (gossipScan l (recordKnownPeer a n)) as [n2 new]. simpl in IH.
  destruct (foreignURL _ a); simpl; (etransitivity; [apply record_touches|exact IH]).
Qed.

Lemma announce_touches listed head now data conn n n' es :
  handleNodeAnnounce cb listed head now data conn n = Some (n', es) -> touches n n'.
Proof.
  unfold handleNodeAnnounce. cbv zeta. destruct (String.eqb_spec (getString data "nodeId") (nm_nodeID n)) as [|Hself];
    [by intros [= <- _]|].
  destruct (String.eqb_spec (getString data "nodeId") "") as [|Hempty]; [by intros [= <- _]|].
  destruct (nm_connectedNodes n !! getString data "nodeId") as [p|] eqn:E.
  - intros [= <- _]. apply (setPeer_touches _ p); [done|..]; unfold updatePeer;
      destruct (String.eqb _ _), (String.eqb _ _); simpl; eauto.
  - unfold short8. destruct (Z.ltb_spec (len (getString data "nodeId")) 8) as [|Hlen]; [done|]. intros [= <- _].
    split_and!; [done| |done|by left]. intros id q. simpl. rewrite lookup_insert. case_decide as Hd; [|intros ?; left; by exists q].
    intros [= <-]. right. subst id. unfold peer_ok. simpl. by eauto.
Qed.

Lemma sockets_touches id m n : id <> nm_nodeID n -> touches n (with_sockets (<[id := m]> (nm_peerSockets n)) n).
Proof. intros Hne. apply touches_rest; [done..|]. simpl. by rewrite lookup_insert_ne. Qed.

Lemma message_touches ev conn msg n n' es : peerMessage cb ev conn msg n = Some (n', es) -> touches n n'.
Proof.
  unfold peerMessage. cbv zeta.
  destruct (String.eqb _ "node:announce"); [apply announce_touches|].
  destruct (String.eqb _ "client:connected").
  { unfold handleClientConnected. cbv zeta. destruct (String.eqb_spec (getString (getObject msg "data") "nodeId") (nm_nodeID n));
      [by intros [= <- _]|]. destruct (short8 _); [|done]. intros [= <- _]. by apply sockets_touches. }
  destruct (String.eqb _ "client:disconnected").
  { unfold handleClientDisconnected. cbv zeta. destruct (String.eqb_spec (getString (getObject msg "data") "nodeId") (nm_nodeID n));
      [by intros [= <- _]|]. destruct (short8 _); [|done]. intros [= <- _]. apply touches_rest; [done..|]. simpl.
    intros Hn. destruct (nm_peerSockets n !! getString (getObject msg "data") "nodeId") as [m|]; [|done].
    case_bool_decide; [rewrite lookup_delete; by case_decide|by rewrite lookup_insert_ne]. }
  destruct (String.eqb _ "blockchain:event").
  { unfold handleBlockchainEvent. destruct (String.eqb _ _); [by intros [= <- _]|].
    destruct (noteEvent _ _ _) as [seen fresh]. destruct (negb fresh); intros [= <- _]; by apply touches_rest. }
  destruct (String.eqb _ "sockets:request"); [by intros [= <- _]|].
  destruct (String.eqb _ "sockets:response").
  { intros [= <- _]. unfold HandleSocketsResponse. cbv zeta.
    destruct (String.eqb_spec (getString (getObject msg "data") "nodeId") (nm_nodeID n)); [done|]. by apply sockets_touches. }
  destruct (String.eqb _ "sync:request"); [by intros [= <- _]|]. destruct (String.eqb _ "sync:response"); [by intros [= <- _]|].
  destruct (String.eqb _ "peer:gossip"); [|destruct (String.eqb _ "ping"); by intros [= <- _]].
  intros [= He]. assert (n' = (handlePeerGossip (ev_maxPeers ev) (getObject msg "data") n).1) as -> by by rewrite He.
  unfold handlePeerGossip. destruct (getArray _ _) as [raw|]; [|done].
  pose proof (gossipScan_touches (stringItems raw) n) as Hg. destruct (gossipScan _ n) as [n2 new]. by destruct (_ <=? _).
Qed.

Lemma removeDead_touches dead n : touches n (removeDeadPeers dead n).1.
Proof.
  unfold removeDeadPeers.
  assert (Hf : forall n addrs es, touches n (foldl dropPeer (n, addrs, es) dead).1.1).
  { induction dead as [|id dead IH]; intros m addrs es; [done|]. simpl. destruct (nm_connectedNodes m !! id) as [p|]; [|apply IH].
    etransitivity; [apply drop_touches|apply IH]. }
  specialize (Hf n [] []). destruct (foldl dropPeer _ dead) as [[n1 addrs] es]. simpl in *.
  etransitivity; [exact Hf|]. apply foldl_touches. intros. apply schedule_touches.
Qed.

Lemma step_touches n n' : nm_step n n' -> touches n n'.
Proof.
  destruct 1 as [ev conn msg n n' es H|a now n|a now ok n|a n n' H|dial a n|dial a n|listed n|w st t data o now sec n n' es H].
  - by eapply message_touches.
  - unfold pongReceived. destruct (entryAt a n) as [[id p]|] eqn:E; [|done]. apply entryAt_lookup in E as [E _].
    by apply (setPeer_touches _ p).
  - unfold heartbeatTick. destruct (entryAt a n) as [[id p]|] eqn:E; [|done]. apply entryAt_lookup in E as [E _].
    destruct (pr_Conn p) as [c|] eqn:Ec; [|done]. destruct (negb ok); [done|]. cbv zeta.
    match goal with |- context [if ?b then _ else _] => destruct b end; [|done].
    by apply (setPeer_touches _ p).
  - unfold connectionEnds in H. destruct (entryAt a n) as [[id p]|]; [|injection H as <-; apply schedule_touches].
    destruct (short8 id); [|done]. injection H as <-. etransitivity; [apply drop_touches|apply schedule_touches].
  - apply connect_touches.
  - etransitivity; [|apply connect_touches]. by apply touches_rest.
  - unfold ConnectToPeers. generalize (loadPeers listed n) as l. intros l.
    assert (Hf : forall n es, touches n (foldl (fun '(n, es) addr => (recordKnownPeer addr n,
      if peerWebSocketDialURLsEqual addr (nm_nodeAddress n) then es else es ++ [Dial addr])) (n, es) l).1); [|apply Hf].
    induction l as [|a l IH]; intros m es; [done|]. simpl. etransitivity; [apply record_touches|apply IH].
  - unfold BroadcastBlockchainEvent in H. cbv zeta in H. destruct (existsb _ _); [done|].
    match type of H with context [removeDeadPeers ?d ?m] => pose proof (removeDead_touches d m) as Hd; destruct (removeDeadPeers d m) end.
    injection H as <- _. etransitivity; [|exact Hd]. by apply touches_rest.
Qed.

Lemma new_nm_inv id host port addr : NMInv (NewNodesManager id host port addr).
Proof. split; [by intros ? ?|done|by intros ?]. Qed.

Lemma reach_inv n n' : NMInv n -> rtc nm_step n n' -> NMInv n'.
Proof. intros Hi Hr. induction Hr; [done|]. apply IHHr. eapply touches_inv; [done|]. by apply step_touches. Qed.

Lemma reach_same n n' : rtc nm_step n n' -> same_node n n'.
Proof.
  induction 1 as [n|a b c Hs _ IH]; [done|]. apply step_touches in Hs as [[E1 E2] _]. destruct IH as [E3 E4].
  split; congruence.
Qed.

(** ** Panics *)

Lemma short8_none id : short8 id = None <-> len id < 8.
Proof. unfold short8. destruct (Z.ltb_spec (len id) 8); split; intros; (done || lia). Qed.

Lemma inv_ends a n : NMInv n -> is_Some (connectionEnds a n).
Proof.
  intros Hi. unfold connectionEnds. destruct (entryAt a n) as [[id p]|] eqn:E; [|by eexists].
  apply entryAt_lookup in E as [(_ & _ & _ & Hlen & _)%(nmi_peers _ Hi) _].
  destruct (short8 id) eqn:Es; [by eexists|]. apply short8_none in Es. lia.
Qed.

Lemma inv_broadcast w st t data o now sec n : NMInv n -> is_Some (BroadcastBlockchainEvent w st t data o now sec n).
Proof.
  intros Hi. unfold BroadcastBlockchainEvent. cbv zeta. destruct (existsb _ _) eqn:E.
  - exfalso. apply existsb_exists in E as ([id err] & Hin & Hlen). apply Z.ltb_lt in Hlen. simpl in Hlen.
    apply list_elem_of_In, list_elem_of_filter in Hin as [_ ([id' p] & Hin & Hw)%list_elem_of_omap].
    simpl in Hw. destruct (w id') as [e|]; [|done]. simpl in Hw. injection Hw as -> _.
    apply list_elem_of_filter in Hin as [_ Hin%elem_of_range]. simpl in Hin.
    apply (nmi_peers _ Hi) in Hin as (_ & _ & _ & ? & _). lia.
  - match goal with |- context [removeDeadPeers ?d ?m] => destruct (removeDeadPeers d m) end. by eexists.
Qed.

(** the table of peers. In every state the node reaches, each peer is filed
    under its own node id, which is at least eight bytes and not this node's, with
    an open connection; this node's sockets are never filed as a peer's; every
    address learnt is a normal dial URL other than this node's. Hence ending a
    connection and broadcasting an event never panic. *)
Theorem peer_table_invariant id host port addr n :
  rtc nm_step (NewNodesManager id host port addr) n ->
  (forall i p, nm_connectedNodes n !! i = Some p -> pr_NodeID p = i /\ i <> id /\ 8 <= len i /\ is_Some (pr_Conn p)) /\
  nm_peerSockets n !! id = None /\
  (forall u, u ∈ nm_knownPeerAddrs n -> normalizePeerWebSocketDialURL u = Ok u /\ peerWebSocketDialURLsEqual u addr = false) /\
  (forall a, is_Some (connectionEnds a n)) /\
  (forall w st t data o now sec, is_Some (BroadcastBlockchainEvent w st t data o now sec n)).
Proof.
  intros Hr. pose proof (reach_inv _ _ (new_nm_inv id host port addr) Hr) as Hi.
  destruct (reach_same _ _ Hr) as [Eid Ea]. simpl in Eid, Ea. split_and!.
  - intros i p Hp. destruct (nmi_peers _ Hi _ _ Hp) as (? & Hne & ? & ? & ?). rewrite Eid in Hne. done.
  - rewrite <- Eid. apply (nmi_sockets _ Hi).
  - intros u Hu%(nmi_known _ Hi). apply foreignURL_spec in Hu as (? & _ & Hne). rewrite Ea in Hne. done.
  - intros a. by apply inv_ends.
  - intros. by apply inv_broadcast.
Qed.

(** C36: which messages crash the node. A message of a peer makes the handler
    panic exactly when it announces an unknown node, or a client of a foreign
    node, under an id of fewer than eight bytes: the log line slices the id. *)
Theorem peer_message_panics_iff ev conn msg n :
  let t := getString msg "type" in
  let id := getString (getObject msg "data") "nodeId" in
  peerMessage cb ev conn msg n = None <->
  len id < 8 /\ id <> nm_nodeID n /\
  (t = "node:announce" /\ id <> "" /\ nm_connectedNodes n !! id = None \/
   t = "client:connected" \/ t = "client:disconnected").
Proof.
  intros t id. unfold peerMessage. cbv zeta. fold t. rewrite <- short8_none.
  destruct (String.eqb_spec t "node:announce") as [->|H1].
  { unfold handleNodeAnnounce. fold id. cbv zeta. destruct (String.eqb_spec id (nm_nodeID n)); [naive_solver|].
    destruct (String.eqb_spec id ""); [naive_solver|]. destruct (nm_connectedNodes n !! id); [naive_solver|].
    destruct (short8 id); naive_solver. }
  destruct (String.eqb_spec t "client:connected") as [->|H2].
  { unfold handleClientConnected. fold id. cbv zeta. destruct (String.eqb_spec id (nm_nodeID n)); [naive_solver|].
    destruct (short8 id); naive_solver. }
  destruct (String.eqb_spec t "client:disconnected") as [->|H3].
  { unfold handleClientDisconnected. fold id. cbv zeta. destruct (String.eqb_spec id (nm_nodeID n)); [naive_solver|].
    destruct (short8 id); naive_solver. }
  split; [|naive_solver]. destruct (String.eqb t "blockchain:event"); [by destruct (handleBlockchainEvent _ _ _ _)|].
  repeat (case_match; try done).
Qed.

(** ** Gossip *)

Lemma foreignURL_record a b n : foreignURL (recordKnownPeer a n) b = foreignURL n b.
Proof. apply foreignURL_same. unfold recordKnownPeer. by destruct (foreignURL n a). Qed.

Lemma connected_record a n : nm_connectedNodes (recordKnownPeer a n) = nm_connectedNodes n.
Proof. unfold recordKnownPeer. by destruct (foreignURL n a). Qed.

Lemma isPeerConnected_same u n n' : nm_connectedNodes n' = nm_connectedNodes n -> isPeerConnected u n' = isPeerConnected u n.
Proof. intros E. unfold isPeerConnected, peers. by rewrite E. Qed.

Lemma known_record a n : nm_knownPeerAddrs n ⊆ nm_knownPeerAddrs (recordKnownPeer a n).
Proof. unfold recordKnownPeer. destruct (foreignURL n a); simpl; set_solver. Qed.

Lemma exists_elem_cons {A} (P : A -> Prop) x l : (exists y, y ∈ x :: l /\ P y) <-> P x \/ exists y, y ∈ l /\ P y.
Proof.
  split.
  - intros (y & [->|Hy]%elem_of_cons & Hp); [by left|right; by exists y].
  - intros [?|(y & ? & ?)]; [exists x; split; [by left|done]|exists y; split; [by right|done]].
Qed.

Lemma gossipScan_spec addrs n :
  nm_connectedNodes (gossipScan addrs n).1 = nm_connectedNodes n /\
  nm_knownPeerAddrs n ⊆ nm_knownPeerAddrs (gossipScan addrs n).1 /\
  (forall a u, a ∈ addrs -> foreignURL n a = Some u -> u ∈ nm_knownPeerAddrs (gossipScan addrs n).1) /\
  (forall u, u ∈ (gossipScan addrs n).2 <-> exists a, a ∈ addrs /\ foreignURL n a = Some u /\ isPeerConnected u n = false).
Proof.
  revert n. induction addrs as [|a l IH]; intros n; cbn [gossipScan].
  { split_and!; [done|done|by intros ? ? ?%elem_of_nil|]. intros u. split; [by intros ?%elem_of_nil|by intros (? & ?%elem_of_nil & _)]. }
  destruct (String.eqb_spec a "") as [->|Ha].
  { assert (Hf : foreignURL n "" = None) by reflexivity.
    destruct (IH n) as (H1 & H2 & H3 & H4). split_and!; [done..| |].
    - intros b u [->|Hb]%elem_of_cons Hu; [congruence|eauto].
    - intros u. rewrite H4. split; intros (b & Hb & Hu & ?).
      + exists b. split_and!; [by right|done|done].
      + exists b. apply elem_of_cons in Hb as [->|Hb]; [congruence|done]. }
  destruct (IH (recordKnownPeer a n)) as (H1 & H2 & H3 & H4).
  setoid_rewrite foreignURL_record in H3. setoid_rewrite foreignURL_record in H4.
  rewrite connected_record in H1. pose proof (known_record a n) as Hk.
  destruct (gossipScan l (recordKnownPeer a n)) as [n2 new]. simpl in *. rewrite foreignURL_record.
  assert (Hconn : forall u, isPeerConnected u (recordKnownPeer a n) = isPeerConnected u n)
    by (intros u; apply isPeerConnected_same, connected_record).
  assert (Hself : forall u, foreignURL n a = Some u -> u ∈ nm_knownPeerAddrs n2).
  { intros u Hu. apply H2. unfold recordKnownPeer. rewrite Hu. set_solver. }
  assert (H4' : forall u, (exists b, b ∈ a :: l /\ foreignURL n b = Some u /\ isPeerConnected u n = false) <->
    (foreignURL n a = Some u /\ isPeerConnected u n = false) \/ u ∈ new).
  { intros u. rewrite exists_elem_cons, H4, Hconn. done. }
  split_and!; [by destruct (foreignURL n a)|destruct (foreignURL n a); set_solver| |].
  - intros b u [->|Hb]%elem_of_cons Hu; [|specialize (H3 _ _ Hb Hu)]; destruct (foreignURL n a); naive_solver.
  - intros u. rewrite H4'. destruct (foreignURL n a) as [v|]; simpl; [|by split; [right|intros [[? _]|?]]].
    rewrite Hconn. destruct (isPeerConnected v n) eqn:Ec; rewrite ?elem_of_cons.
    + split; [by right|]. intros [[[= ->] ?]|?]; [congruence|done].
    + split; [intros [->|?]; [by left|by right]|]. intros [[[= ->] ?]|?]; [by left|by right].
Qed.

(** peer discovery. After a gossip message every usable foreign address of its
    list is recorded, no peer is added or removed, and the node dials exactly the
    listed addresses that are not its own and not connected, unless it already has
    its maximum of peers, when it dials none. *)
Theorem gossip_dials_exactly_new_peers maxPeers raw data n n' es :
  getArray data "peers" = Some raw -> handlePeerGossip maxPeers data n = (n', es) ->
  nm_connectedNodes n' = nm_connectedNodes n /\
  (forall a u, a ∈ stringItems raw -> foreignURL n a = Some u -> u ∈ nm_knownPeerAddrs n') /\
  (forall u, Dial u ∈ es <->
     Z.of_nat (size (nm_connectedNodes n)) < maxPeers /\
     exists a, a ∈ stringItems raw /\ foreignURL n a = Some u /\ isPeerConnected u n = false).
Proof.
  intros Hraw H. unfold handlePeerGossip in H. rewrite Hraw in H.
  destruct (gossipScan_spec (stringItems raw) n) as (H1 & H2 & H3 & H4).
  destruct (gossipScan (stringItems raw) n) as [n2 new]. simpl in *.
  rewrite H1 in H. destruct (Z.leb_spec maxPeers (Z.of_nat (size (nm_connectedNodes n)))); injection H as <- <-;
    (split_and!; [done|done|]); intros u.
  - split; [by intros ?%elem_of_nil|]. intros [? _]. lia.
  - rewrite list_elem_of_fmap, <- H4. split; [intros (v & [= ->] & ?); split; [lia|done]|intros [_ ?]; by exists u].
Qed.

(** ** Events are handled once *)

(** Events in and out, with the time of each. *)
Inductive evop := EvIn (now : Z) (msg : jobj) | EvOut (now : Z) (stamp : string).

Definition timeOf (op : evop) : Z := match op with EvIn t _ | EvOut t _ => t end.

(** The times at which an event with the id [eid] is acted upon. *)
Fixpoint handledAt (eid : string) (ops : list evop) n : list Z :=
  match ops with
  | [] => []
  | EvOut now stamp :: rest => handledAt eid rest (with_seen (<[stamp := now]> (nm_seenEvents n)) n)
  | EvIn now msg :: rest =>
      let '(n', r) := handleBlockchainEvent cb now msg n in
      (if bool_decide (is_Some r /\ getString msg "eventId" = eid) then [now] else []) ++ handledAt eid rest n'
  end.

Fixpoint inOrder (last : Z) (ops : list evop) : Prop :=
  match ops with [] => True | op :: rest => last <= timeOf op /\ inOrder (timeOf op) rest end.

(** The last handling of [eid], at time [t], is remembered or long ago. *)
Definition remembers (eid : string) (t now : Z) (seen : gmap string Z) : Prop :=
  (exists t', t <= t' <= now /\ seen !! eid = Some t') \/ (seen !! eid = None /\ tenMinutes < now - t).

Lemma noteEvent_remembers eid id t now now' seen :
  eid <> "" -> t <= now <= now' -> remembers eid t now seen ->
  remembers eid t now' (noteEvent id now' seen).1 /\
  ((noteEvent id now' seen).2 = true -> id = eid -> t + fiveMinutes <= now' /\ remembers eid now' now' (noteEvent id now' seen).1).
Proof.
  intros Hne Hle Hr. unfold noteEvent. destruct (String.eqb_spec id "") as [->|Hid].
  { split; [|by intros _ <-]. destruct Hr as [(t' & ? & ?)|[? ?]]; [left; exists t'; split; [lia|done]|right; split; [done|lia]]. }
  cbv zeta. destruct (match seen !! id with Some t0 => now' - t0 <? fiveMinutes | None => false end) eqn:Ed; simpl.
  { split; [|done]. destruct Hr as [(t' & ? & ?)|[? ?]]; [left; exists t'; split; [lia|done]|right; split; [done|lia]]. }
  assert (Hkeep : filter (fun kv : string * Z => now' - kv.2 <= tenMinutes) (<[eid := now']> seen) !! eid = Some now').
  { apply map_lookup_filter_Some. split; [by rewrite lookup_insert_eq|]. simpl. unfold tenMinutes, second. lia. }
  destruct (decide (id = eid)) as [->|Hd].
  - unfold remembers. rewrite Hkeep. split; [left; exists now'; split; [lia|done]|]. intros _ _. split; [|left; exists now'; split; [lia|done]].
    destruct Hr as [(t' & ? & Hs)|[Hs ?]]; rewrite Hs in Ed; [apply Z.ltb_ge in Ed; lia|unfold fiveMinutes, tenMinutes, second in *; lia].
  - split; [|done]. unfold remembers. destruct Hr as [(t' & ? & Hs)|[Hs ?]].
    + destruct (decide (now' - t' <= tenMinutes)) as [Hx|Hx].
      * left. exists t'. split; [lia|]. apply map_lookup_filter_Some. by rewrite lookup_insert_ne.
      * right. split; [|lia]. apply map_lookup_filter_None. right. intros y. rewrite lookup_insert_ne by done.
        rewrite Hs. by intros [= <-].
    + right. split; [|lia]. apply map_lookup_filter_None. left. by rewrite lookup_insert_ne.
Qed.

Lemma event_note now msg n :
  (handleBlockchainEvent cb now msg n = (n, None) /\ getString msg "originNodeId" = nm_nodeID n) \/
  (nm_seenEvents (handleBlockchainEvent cb now msg n).1 = (noteEvent (getString msg "eventId") now (nm_seenEvents n)).1 /\
   (is_Some (handleBlockchainEvent cb now msg n).2 <-> (noteEvent (getString msg "eventId") now (nm_seenEvents n)).2 = true)).
Proof.
  unfold handleBlockchainEvent. destruct (String.eqb_spec (getString msg "originNodeId") (nm_nodeID n)); [by left|right].
  destruct (noteEvent _ _ _) as [seen fresh]. destruct fresh; simpl; (split; [done|]); (split; [done|]); [by eexists|done].
Qed.

Lemma handledAt_spaced eid ops t last n :
  eid <> "" -> t <= last -> inOrder last ops -> remembers eid t last (nm_seenEvents n) ->
  Forall (fun x => t + fiveMinutes <= x) (handledAt eid ops n) /\
  StronglySorted (fun a b => a + fiveMinutes <= b) (handledAt eid ops n).
Proof.
  intros Hne. revert t last n. induction ops as [|[now msg|now stamp] ops IH]; intros t last n Ht Ho Hr; cbn [handledAt].
  - split; constructor.
  - destruct Ho as [Hlast Ho]. simpl in Hlast, Ho. destruct (event_note now msg n) as [[E _]|[Es Er]].
    { rewrite E. rewrite bool_decide_eq_false_2 by (by intros [[? ?] _]). apply (IH t now); [lia|done|].
      destruct Hr as [(t' & ? & ?)|[? ?]]; [left; exists t'; split; [lia|done]|right; split; [done|lia]]. }
    destruct (noteEvent_remembers eid (getString msg "eventId") t last now (nm_seenEvents n) Hne ltac:(lia) Hr) as [Hr1 Hr2].
    destruct (handleBlockchainEvent cb now msg n) as [n' r]. simpl in Es, Er. rewrite <- Es in Hr1, Hr2.
    case_bool_decide as Hb.
    + destruct Hb as [Hs Heid]. apply Er in Hs. destruct (Hr2 Hs Heid) as [Hfive Hr3]. simpl.
      destruct (IH now now n' ltac:(lia) Ho Hr3) as [IH1 IH2]. split; [|by constructor].
      constructor; [done|]. eapply Forall_impl; [exact IH1|]. intros x Hx. unfold fiveMinutes, second in *. simpl in *. lia.
    + apply (IH t now); [lia|done|done].
  - destruct Ho as [Hlast Ho]. simpl in Hlast, Ho. apply (IH t now); [lia|done|]. simpl. unfold remembers. rewrite !lookup_insert.
    case_decide as Hd; [left; exists now; split; [lia|done]|].
    destruct Hr as [(t' & ? & ?)|[? ?]]; [left; exists t'; split; [lia|done]|right; split; [done|lia]].
Qed.

Lemma handledAt_sorted eid ops last n :
  eid <> "" -> inOrder last ops -> StronglySorted (fun a b => a + fiveMinutes <= b) (handledAt eid ops n).
Proof.
  intros Hne. revert last n. induction ops as [|[now msg|now stamp] ops IH]; intros last n Ho; cbn [handledAt]; [constructor| |].
  - destruct Ho as [Hlast Ho]. simpl in Ho. pose proof (event_note now msg n) as Hev.
    destruct (handleBlockchainEvent cb now msg n) as [n' r] eqn:En. simpl in Hev. case_bool_decide as Hb; [|by apply (IH now)].
    destruct Hb as [Hs Heid]. destruct Hev as [[[= -> ->] _]|[Es Er]]; [by destruct Hs|]. apply Er in Hs. subst eid.
    assert (Hrem : remembers (getString msg "eventId") now now (nm_seenEvents n')).
    { rewrite Es. unfold noteEvent in *. rewrite (proj2 (String.eqb_neq _ _) Hne) in *. cbv zeta in *.
      destruct (match _ with Some t0 => _ | None => _ end); [done|]. simpl. left. exists now. split; [lia|].
      apply map_lookup_filter_Some. split; [by rewrite lookup_insert_eq|]. simpl. unfold tenMinutes, second. lia. }
    destruct (handledAt_spaced _ ops now now n' Hne (Z.le_refl _) Ho Hrem) as [H1 H2]. by constructor.
  - destruct Ho as [Hlast Ho]. by apply (IH now).
Qed.

(** an event is acted upon once. However often and from however many peers
    copies of an event with the same non-empty id arrive, in the order of the
    clock and mixed with any other events received or sent, the node acts upon
    them at times at least five minutes apart; and a first copy from another node
    is acted upon. *)
Theorem event_handled_once eid ops last n :
  eid <> "" -> inOrder last ops ->
  StronglySorted (fun a b => a + fiveMinutes <= b) (handledAt eid ops n) /\
  (forall now msg, getString msg "eventId" = eid -> getString msg "originNodeId" <> nm_nodeID n ->
     nm_seenEvents n !! eid = None -> is_Some (handleBlockchainEvent cb now msg n).2).
Proof.
  intros Hne Ho. split; [by apply (handledAt_sorted _ _ last)|]. intros now msg He Horig Hs.
  unfold handleBlockchainEvent. rewrite (proj2 (String.eqb_neq _ _) Horig). unfold noteEvent. rewrite He, Hs.
  rewrite (proj2 (String.eqb_neq _ _) Hne). by eexists.
Qed.

(** ** Heartbeats *)

Lemma entryAt_none a n : entryAt a n = None <-> forall id p, nm_connectedNodes n !! id = Some p -> pr_Address p <> a.
Proof.
  unfold entryAt. rewrite fmap_None, list_find_None, Forall_forall. split.
  - intros H id p Hp. apply (H (id, p)). by apply elem_of_range.
  - intros H [id p] Hp. apply (H id p). by apply elem_of_range.
Qed.

(** heartbeats follow the address. A connection whose address no peer entry
    carries (an inbound connection, known by its remote address while the entry
    carries the announced one) never refreshes or removes a peer: its pongs change
    nothing, it sends no pings, and its end leaves the table as it is. A peer of
    such a connection stops counting as responsive thirty seconds after it
    announced itself, and stays listed as connected. *)
Theorem unmatched_connection_never_refreshes a n :
  (forall id p, nm_connectedNodes n !! id = Some p -> pr_Address p <> a) ->
  (forall now, pongReceived a now n = n) /\ (forall now ok, heartbeatTick a now ok n = (n, [])) /\
  (exists n', connectionEnds a n = Some n' /\ nm_connectedNodes n' = nm_connectedNodes n) /\
  (forall id p t now, nm_connectedNodes n !! id = Some p -> pr_LastPong p = Some t -> 30 * second < now - t ->
     nodeInfo p ∈ GetConnectedNodes n /\ peerResponsive (pr_LastPong p) now = false).
Proof.
  intros H. apply entryAt_none in H. split_and!.
  - intros now. unfold pongReceived. by rewrite H.
  - intros now ok. unfold heartbeatTick. by rewrite H.
  - unfold connectionEnds. rewrite H. by eexists.
  - intros id p t now Hp Ht Hlate. split.
    + unfold GetConnectedNodes, peers. apply list_elem_of_fmap. exists p. split; [done|].
      apply list_elem_of_fmap. exists (id, p). split; [done|by apply elem_of_range].
    + rewrite Ht. simpl. apply Z.leb_gt. unfold peerLivePongWindow. lia.
Qed.
End spec.

(** ** Witnesses *)

#[local] Existing Instance canonical_range.

Definition allSet (_ : string) : bool := true.

Definition demoNode : NodesManager := NewNodesManager "node-self-1" "h" 1000 "ws://h:1000".

Definition demoEnv (now : Z) : env := mkEnv now "now" [] 100 0 None (fun _ => []).

Definition announceMsg (id addr : string) : jobj :=
  [("type", JString "node:announce"); ("data", JObject [("nodeId", JString id); ("address", JString addr)])].

(** An inbound peer on the socket [1.2.3.4:55555] that announces [ws://p:2000]. *)
Definition withPeer : NodesManager :=
  match peerMessage allSet (demoEnv 5) "c" (announceMsg "node-peer-2" "ws://p:2000") demoNode with
  | Some (n, _) => n | None => demoNode end.

Lemma withPeer_reached : rtc (nm_step allSet) demoNode withPeer.
Proof.
  eapply rtc_l; [|apply rtc_refl]. eapply (NsMessage allSet (demoEnv 5) "c" (announceMsg "node-peer-2" "ws://p:2000")).
  vm_compute. reflexivity.
Qed.

Lemma peer_table_invariant_witness :
  exists p, nm_connectedNodes withPeer !! "node-peer-2" = Some p /\ 8 <= len "node-peer-2" /\ is_Some (pr_Conn p).
Proof.
  destruct (peer_table_invariant allSet "node-self-1" "h" 1000 "ws://h:1000" withPeer withPeer_reached) as (H & _).
  exists (mkPeer "node-peer-2" "ws://p:2000" "" 0 "" (Some "c") (Some 5) 0).
  assert (E : nm_connectedNodes withPeer !! "node-peer-2" = Some (mkPeer "node-peer-2" "ws://p:2000" "" 0 "" (Some "c") (Some 5) 0))
    by (vm_compute; reflexivity).
  split; [exact E|]. destruct (H _ _ E) as (_ & _ & H1 & H2). split; [exact H1|exact H2].
Defined.

Example announce_with_short_id_crashes :
  peerMessage allSet (demoEnv 5) "c" (announceMsg "short" "ws://p:2000") demoNode = None.
Proof. apply peer_message_panics_iff. vm_compute. repeat split; try discriminate. left. repeat split. discriminate. Qed.

Lemma gossip_dials_exactly_new_peers_witness :
  Dial "ws://q:1" ∈ (handlePeerGossip 100 [("peers", JArray [JString "q:1"; JString "h:1000"; JString "http://p:2000"])] withPeer).2.
Proof.
  apply (gossip_dials_exactly_new_peers allSet 100 [JString "q:1"; JString "h:1000"; JString "http://p:2000"]
    [("peers", JArray [JString "q:1"; JString "h:1000"; JString "http://p:2000"])] withPeer _ _ eq_refl (surjective_pairing _)).
  split; [vm_compute; reflexivity|]. exists "q:1". split; [left|]. split; vm_compute; reflexivity.
Defined.

Definition voteEvent (eid : string) : jobj :=
  [("type", JString "blockchain:event"); ("eventType", JString "l1_vote"); ("eventId", JString eid); ("originNodeId", JString "x")].

Lemma event_handled_once_witness :
  handledAt allSet "e" [EvIn 1 (voteEvent "e"); EvIn (200 * second) (voteEvent "e"); EvIn (400 * second) (voteEvent "e")] demoNode
    = [1; 400 * second] /\
  StronglySorted (fun a b => a + fiveMinutes <= b)
    (handledAt allSet "e" [EvIn 1 (voteEvent "e"); EvIn (200 * second) (voteEvent "e"); EvIn (400 * second) (voteEvent "e")] demoNode).
Proof.
  split; [vm_compute; reflexivity|].
  apply (event_handled_once allSet "e" _ 0 demoNode); [discriminate|]. vm_compute. repeat split; discriminate.
Defined.

Lemma unmatched_connection_never_refreshes_witness :
  pongReceived "1.2.3.4:55555" (100 * second) withPeer = withPeer /\
  GetResponsiveConnectedNodes (100 * second) withPeer = [] /\ length (GetConnectedNodes withPeer) = 1%nat.
Proof.
  split; [|split; vm_compute; reflexivity].
  apply (unmatched_connection_never_refreshes "1.2.3.4:55555" withPeer). intros id p Hp.
  assert (E : nm_connectedNodes withPeer = {[ "node-peer-2" := mkPeer "node-peer-2" "ws://p:2000" "" 0 "" (Some "c") (Some 5) 0 ]})
    by (vm_compute; reflexivity).
  rewrite E in Hp. apply lookup_singleton_Some in Hp as [_ <-]. discriminate.
Defined.
