(* ===== verification/PeerSockets.v ===== *)
(** * Websocket connections between gateways (websocket/server.go, nodes/nodes.go)

    The parts of the websocket server that touch the node manager: telling peers from
    clients, announcing clients, the list of sockets and the messages of peers, with
    the JSON that goes over the wire. [format] is [time.Format] in the zone of the
    gateway. [None] is a panic.

    The list that a gateway sends arrives as it is; a client is announced and taken
    back while it is still connected; messages of an unknown type change nothing. *)

From S2P Require Import Prelude GoStd GoJson Tx Chain ContactEconomy Ownership Messaging MessagingSpec Nodes.

#[local] Open Scope Z_scope.

(** ** What goes over the wire *)

Definition encodeSocket (i : SocketInfo) : jval :=
  JObject [("socketId", JString (si_SocketID i)); ("ipAddress", JString (si_IPAddress i));
           ("connectedAt", JString (si_ConnectedAt i)); ("nodeId", JString (si_NodeID i))].

Definition socketsResponse (nodeID : string) (sockets : list SocketInfo) : jobj :=
  [("type", JString "sockets:response");
   ("data", JObject [("nodeId", JString nodeID); ("sockets", JArray (encodeSocket <$> sockets))])].

Definition clientConnected (nodeID clientID ip connectedAt : string) : jobj :=
  [("type", JString "client:connected");
   ("data", JObject [("nodeId", JString nodeID); ("clientId", JString clientID); ("ip", JString ip); ("connectedAt", JString connectedAt)])].

Definition clientDisconnected (nodeID clientID : string) : jobj :=
  [("type", JString "client:disconnected"); ("data", JObject [("nodeId", JString nodeID); ("clientId", JString clientID)])].

(** The bytes of the messages between gateways that this file is about. *)
Definition onTheWire (m : peerMsg) : option jobj :=
  match m with
  | PmSocketsResponse nodeID sockets => Some (socketsResponse nodeID sockets)
  | PmClientConnected nodeID clientID ip connectedAt => Some (clientConnected nodeID clientID ip connectedAt)
  | PmClientDisconnected nodeID clientID => Some (clientDisconnected nodeID clientID)
  | _ => None
  end.

(** ** The server *)

Definition knownWSClientMessageTypes : list string :=
  ["newTransaction"; "ping"; "register"; "message"; "devices:list"; "devices:logout"; "e2eePubKeyRequest";
   "protocolContactQuery"; "contactRequest"; "contactRespond"; "contactPricingAnnounce"].

Definition wsLabMutationAliasAttempts : list string := ["testSetLoad"; "test-set-load"; "rewardCreditL1"; "reward-credit-l1"].

Section sockets.
Context {R : GoRange} (format : Z -> string).

Definition socketOf (nodeID : string) (c : Client) : SocketInfo :=
  mkSocket (cl_ID c) (cl_IPAddress c) (format (cl_ConnectedAt c)) nodeID.

(** The list that the server hands to the node manager. *)
Definition localSockets (nodeID : string) (s : Server) : list SocketInfo :=
  omap (fun id => socketOf nodeID <$> sv_heap s !! id) (range (gset_to_gmap () (sv_clients s))).*1.

Definition socketsReply (nm : option NodesManager) (s : Server) : option jobj :=
  nm ≫= fun n => Some (socketsResponse (nm_nodeID n) (localSockets (nm_nodeID n) s)).

(** One message of [handlePeerMessages]: the manager, what is written to the peer, and
    what is written to clients. *)
Definition peerSocketMessage (net : Net) (msg : jobj) (nm : option NodesManager) (s : Server)
  : option (option NodesManager * list jobj * list output) :=
  let t := getString msg "type" in
  let data := getObject msg "data" in
  if String.eqb t "sockets:request" then reply ← socketsReply nm s; Some (nm, [reply], [])
  else if String.eqb t "sockets:response" then Some (HandleSocketsResponse data <$> nm, [], [])
  else if String.eqb t "blockchain:event" then Some (nm, [], BroadcastToClients net (getString data "eventType") (getObject data "data") s)
  else Some (nm, [], []).

(** The reading loop until the connection breaks. *)
Fixpoint handlePeerMessages (net : Net) (msgs : list jobj) (nm : option NodesManager) (s : Server)
  : option (option NodesManager * list jobj * list output) :=
  match msgs with
  | [] => Some (nm, [], [])
  | msg :: rest =>
      '(nm, replies, outs) ← peerSocketMessage net msg nm s;
      '(nm, replies', outs') ← handlePeerMessages net rest nm s;
      Some (nm, replies ++ replies', outs ++ outs')
  end.

(** Whom a connection is handed to. *)
Inductive accepted := NotUpgraded | ToPeers (address : string) | ToClient (id ip : string).

Definition acceptSocket (upgraded peer : bool) (remote forwarded uuid : string) (nm : option NodesManager) : accepted :=
  if negb upgraded then NotUpgraded
  else if peer && bool_decide (is_Some nm) then ToPeers remote
  else ToClient uuid (if String.eqb forwarded "" then remote else forwarded).

(** The whole handler of a connection: [meanwhile] and [later] are what other
    goroutines do to the server and to the manager before the deferred clean-up. *)
Definition serveWebSocket (net : Net) (upgraded peer : bool) (remote forwarded uuid : string) (now : Z)
  (meanwhile : Server -> Server) (later : NodesManager -> NodesManager) (nm : option NodesManager) (s : Server)
  : Server * list output * list effect :=
  match acceptSocket upgraded peer remote forwarded uuid nm with
  | NotUpgraded | ToPeers _ => (s, [], [])
  | ToClient id ip =>
      let up := match nm with Some n => AnnounceClientConnected id ip (format now) n | None => [] end in
      let '(s, outs) := handleWebSocket net id ip now meanwhile s in
      let down := match nm with Some n => AnnounceClientDisconnected id (later n) | None => [] end in
      (s, outs, up ++ down)
  end.
End sockets.

(** * What the connections between gateways promise *)

Section exchange.
Context {R : GoRange} (format : Z -> string).

Lemma clients_range (s : Server) id : id ∈ (range (gset_to_gmap () (sv_clients s))).*1 <-> id ∈ sv_clients s.
Proof.
  rewrite list_elem_of_fmap. split.
  - intros ((k & []) & -> & H). apply elem_of_range, lookup_gset_to_gmap_Some in H. by destruct H.
  - intros H. exists (id, ()). split; [done|]. by apply elem_of_range, lookup_gset_to_gmap_Some.
Qed.

Lemma elem_of_localSockets nodeID s i :
  i ∈ localSockets format nodeID s <-> exists id c, id ∈ sv_clients s /\ sv_heap s !! id = Some c /\ i = socketOf format nodeID c.
Proof.
  unfold localSockets. rewrite list_elem_of_omap. split.
  - intros (id & Hid%clients_range & Hc). destruct (sv_heap s !! id) as [c|] eqn:E; [|done]. exists id, c. by simplify_eq/=.
  - intros (id & c & Hid & Hc & ->). exists id. split; [by apply clients_range|]. by rewrite Hc.
Qed.

(** Decoding an encoded socket gives it back. *)
Definition takeSocket (m : gmap string SocketInfo) (v : jval) : gmap string SocketInfo :=
  match v with
  | JObject o => <[getString o "socketId" := mkSocket (getString o "socketId") (getString o "ipAddress")
                                                (getString o "connectedAt") (getString o "nodeId")]> m
  | _ => m
  end.

Lemma takeSocket_encode m i : takeSocket m (encodeSocket i) = <[si_SocketID i := i]> m.
Proof. by destruct i. Qed.

Lemma takeSockets_lookup l m k :
  (foldl takeSocket m (encodeSocket <$> l)) !! k = match filter (fun i => si_SocketID i = k) (reverse l) with i :: _ => Some i | [] => m !! k end.
Proof.
  revert m. induction l as [|i l IH]; intros m; [done|]. rewrite fmap_cons. cbn [foldl]. rewrite IH, takeSocket_encode, reverse_cons, filter_app.
  destruct (filter _ (reverse l)) eqn:E; [|done]. rewrite app_nil_l. destruct (decide (si_SocketID i = k)) as [<-|Hne].
  - by rewrite filter_cons_True, lookup_insert_eq.
  - by rewrite filter_cons_False, lookup_insert_ne.
Qed.

(** Where every client is filed under its id, the sockets are the clients. *)
Lemma taken_sockets nodeID s k (Hids : forall id c, sv_heap s !! id = Some c -> cl_ID c = id) :
  foldl takeSocket ∅ (encodeSocket <$> localSockets format nodeID s) !! k =
  if decide (k ∈ sv_clients s) then socketOf format nodeID <$> sv_heap s !! k else None.
Proof.
  rewrite takeSockets_lookup, lookup_empty. destruct (filter _ _) as [|i l] eqn:E.
  - destruct (decide _) as [Hk|]; [|done]. destruct (sv_heap s !! k) as [c|] eqn:Hc; [|done].
    assert (Hin : socketOf format nodeID c ∈ filter (fun i => si_SocketID i = k) (reverse (localSockets format nodeID s))).
    { apply list_elem_of_filter. split; [by apply (Hids k)|]. apply elem_of_reverse, elem_of_localSockets. eauto. }
    rewrite E in Hin. by apply not_elem_of_nil in Hin.
  - assert (Hin : i ∈ filter (fun i => si_SocketID i = k) (reverse (localSockets format nodeID s))) by (rewrite E; constructor).
    apply list_elem_of_filter in Hin as [Hk Hin]. apply elem_of_reverse, elem_of_localSockets in Hin as (id & c & Hid & Hc & ->).
    simpl in Hk. rewrite (Hids _ _ Hc) in Hk. subst k. by rewrite decide_True, Hc.
Qed.

Lemma HandleSocketsResponse_eq nodeID l n : nodeID <> nm_nodeID n ->
  HandleSocketsResponse (getObject (socketsResponse nodeID l) "data") n =
  with_sockets (<[nodeID := foldl takeSocket ∅ (encodeSocket <$> l)]> (nm_peerSockets n)) n.
Proof. intros H. unfold HandleSocketsResponse. cbn. by rewrite (proj2 (String.eqb_neq _ _) H). Qed.
End exchange.

(** ** The list of sockets *)

(** The callback the server installs in the node manager. *)
Definition withSockets {R : GoRange} (format : Z -> string) (a : NodesManager) (s : Server) (ev : env) : env :=
  mkEnv (ev_now ev) (ev_nowText ev) (ev_listed ev) (ev_maxPeers ev) (ev_head ev) (Some (localSockets format (nm_nodeID a) s)) (ev_respond ev).

(** the list of sockets survives the way to another gateway. In every reachable server, the
    answer of gateway [a] to a request for its sockets is one message; another gateway
    [b] that takes it in then files under [a] exactly the clients connected to [a], each
    with its id, address, time and gateway, and its entries of other gateways are as
    before; the server's own handler of peer messages writes the same bytes. *)
Theorem sockets_list_exchanged {R : GoRange} {C : GoConv} format marshal prove ops s cb eva evb conn back net (a b : NodesManager) request
  (Hreach : runs marshal prove ops NewServer s) (Hother : nm_nodeID a <> nm_nodeID b)
  (Hrequest : getString request "type" = "sockets:request") :
  exists m wire b', peerMessage cb (withSockets format a s eva) conn request a = Some (a, [Write conn m]) /\ onTheWire m = Some wire /\
    handlePeerMessages format net [request] (Some a) s = Some (Some a, [wire], []) /\
    peerMessage cb evb back wire b = Some (b', []) /\
    (forall id, (nm_peerSockets b' !! nm_nodeID a) ≫= lookup id =
       if decide (id ∈ sv_clients s) then socketOf format (nm_nodeID a) <$> sv_heap s !! id else None) /\
    (forall k, k <> nm_nodeID a -> nm_peerSockets b' !! k = nm_peerSockets b !! k).
Proof.
  pose proof (inv_ids _ _ (runs_inv _ _ _ _ _ (new_inv _) Hreach)) as Hids.
  exists (PmSocketsResponse (nm_nodeID a) (localSockets format (nm_nodeID a) s)). eexists _, _. split_and!.
  - unfold peerMessage. by rewrite Hrequest.
  - done.
  - cbn. unfold peerSocketMessage. by rewrite Hrequest.
  - unfold peerMessage. cbn [getString jget]. by rewrite HandleSocketsResponse_eq.
  - intros id. cbn. rewrite lookup_insert_eq. cbn. by apply taken_sockets.
  - intros k Hk. cbn. by rewrite lookup_insert_ne.
Qed.

(** ** Announcing clients *)

(** What a peer makes of a sequence of messages. *)
Definition takeIn {R : GoRange} (cb : string -> bool) (ev : env) (conn : string) (b : option NodesManager) (wire : jobj) : option NodesManager :=
  b ≫= fun b => fst <$> peerMessage cb ev conn wire b.

Definition writtenTo (conn : string) (es : list effect) : list jobj :=
  es ≫= fun e => match e with Write c m => if decide (c = conn) then option_list (onTheWire m) else [] | _ => [] end.

Definition openConns {R : GoRange} (n : NodesManager) : list string := omap pr_Conn (peers n).

Lemma writtenTo_app conn es es' : writtenTo conn (es ++ es') = writtenTo conn es ++ writtenTo conn es'.
Proof. apply bind_app. Qed.

(** Every open connection gets a message to all once. *)
Lemma writtenTo_toAll {R : GoRange} conn m wire n :
  onTheWire m = Some wire -> NoDup (openConns n) -> conn ∈ openConns n -> writtenTo conn (toAll m n) = [wire].
Proof.
  intros Hw. unfold openConns, toAll. induction (peers n) as [|p l IH]; intros Hnd Hin; [by apply not_elem_of_nil in Hin|].
  assert (Hnone : forall l, conn ∉ omap pr_Conn l -> writtenTo conn (l ≫= fun p => match pr_Conn p with Some c => [Write c m] | None => [] end) = []).
  { clear. induction l as [|q l IH]; intros H; [done|]. rewrite bind_cons, writtenTo_app. cbn in H. destruct (pr_Conn q) as [c|]; [|by apply IH].
    apply not_elem_of_cons in H as [Hne H]. rewrite IH by done. cbn. by rewrite decide_False. }
  rewrite bind_cons, writtenTo_app. cbn in Hnd, Hin. destruct (pr_Conn p) as [c|]; [|by apply IH].
  apply NoDup_cons in Hnd as [Hc Hnd]. apply elem_of_cons in Hin as [<-|Hin].
  - rewrite Hnone by done. cbn. by rewrite decide_True, Hw.
  - rewrite IH by done. cbn. rewrite decide_False; [done|]. by intros ->.
Qed.

(** A peer that hears of a client and then that it has gone. *)
Lemma heard_of_and_gone {R : GoRange} cb ev back (b : NodesManager) nodeID id ip at_ :
  8 <= len nodeID -> nodeID <> nm_nodeID b ->
  exists b', foldl (takeIn cb ev back) (Some b) [clientConnected nodeID id ip at_; clientDisconnected nodeID id] = Some b' /\
    (nm_peerSockets b' !! nodeID) ≫= lookup id = None /\
    (forall k, k <> nodeID -> nm_peerSockets b' !! k = nm_peerSockets b !! k).
Proof.
  intros Hlen Hne. apply String.eqb_neq in Hne as Hne'.
  assert (Hshort : short8 nodeID = Some (str_take 8 nodeID)) by (unfold short8; by rewrite (proj2 (Z.ltb_ge _ _) Hlen)).
  eexists. cbn [foldl]. unfold takeIn, peerMessage. cbn -[handleClientConnected handleClientDisconnected].
  unfold handleClientConnected. cbn -[handleClientDisconnected short8 with_sockets]. rewrite Hne', Hshort.
  cbn -[handleClientDisconnected short8]. unfold handleClientDisconnected. cbn -[short8]. rewrite Hne', Hshort, lookup_insert_eq. cbn.
  split_and!; [done|cbn..].
  - case_bool_decide; [by rewrite lookup_delete_eq|]. rewrite lookup_insert_eq. cbn. by rewrite lookup_delete_eq.
  - intros k Hk. case_bool_decide; [rewrite lookup_delete_ne by done|rewrite lookup_insert_ne by done]; by rewrite lookup_insert_ne.
Qed.

(** a client is taken back at once. Whatever clients and peers do in between, when
    the handler of a client's connection has returned, every peer of the gateway has
    been sent two messages over its open connection, that the client is there and that
    it has gone; a peer that takes both in does not list the client, its entries of
    other gateways are as before, and the server does not list it either, although the
    connection is still open and being read. *)
Theorem client_forgotten_at_once {R : GoRange} format cb ev conn back net remote forwarded id now meanwhile later (a b : NodesManager) s s' outs es
  (Hlong : 8 <= len (nm_nodeID a)) (Hother : nm_nodeID a <> nm_nodeID b)
  (Hlater : nm_connectedNodes (later a) = nm_connectedNodes a /\ nm_nodeID (later a) = nm_nodeID a)
  (Hconns : NoDup (openConns a)) (Hconn : conn ∈ openConns a)
  (Hserve : serveWebSocket format net true false remote forwarded id now meanwhile later (Some a) s = (s', outs, es)) :
  id ∉ sv_clients s' /\ length (writtenTo conn es) = 2%nat /\
  exists b', foldl (takeIn cb ev back) (Some b) (writtenTo conn es) = Some b' /\
    (nm_peerSockets b' !! nm_nodeID a) ≫= lookup id = None /\
    (forall k, k <> nm_nodeID a -> nm_peerSockets b' !! k = nm_peerSockets b !! k).
Proof.
  destruct Hlater as [Hpeers Hid]. unfold serveWebSocket in Hserve. cbn [acceptSocket negb andb] in Hserve.
  destruct (handleWebSocket _ _ _ _ _ _) as [s1 o1] eqn:E. simplify_eq/=.
  assert (Hsame : openConns (later a) = openConns a) by (unfold openConns, peers; by rewrite Hpeers).
  rewrite writtenTo_app. unfold AnnounceClientConnected, AnnounceClientDisconnected.
  rewrite (writtenTo_toAll conn _ (clientConnected (nm_nodeID a) id (if String.eqb forwarded "" then remote else forwarded) (format now)) a) by done.
  rewrite (writtenTo_toAll conn _ (clientDisconnected (nm_nodeID a) id) (later a)) by (rewrite ?Hsame, ?Hid; done).
  split_and!; [|done|by apply heard_of_and_gone].
  unfold handleWebSocket in E. apply (f_equal (sv_clients ∘ fst)) in E. cbn in E. rewrite cleanup_clients in E. set_solver.
Qed.

(** ** The kinds of client messages *)

(** the list of message kinds is complete. A message whose type is none of the eleven listed changes
    neither the chain nor the server and is answered with nothing, or, under one of
    the names of laboratory mutations, with an error to its sender only; no such name is listed. *)
Theorem unlisted_messages_inert {R : GoRange} {C : GoConv} marshal prove net hasPeers saved ref uuid now id msg bc s :
  (getString msg "type" ∉ knownWSClientMessageTypes ->
   clientMessage marshal prove net hasPeers saved ref uuid now id msg bc s =
   (bc, s, if decide (getString msg "type" ∈ wsLabMutationAliasAttempts)
           then write (net O) id (EvError "error" "lab mutations not available over websocket") else [])) /\
  Forall (fun t => t ∉ knownWSClientMessageTypes) wsLabMutationAliasAttempts.
Proof.
  split; [|repeat constructor; by apply (bool_decide_unpack _)].
  intros H. unfold knownWSClientMessageTypes in H. rewrite !not_elem_of_cons in H. destruct_and! H.
  unfold clientMessage. repeat (rewrite (proj2 (String.eqb_neq _ _)) by done).
  change labAliases with wsLabMutationAliasAttempts. by case_decide; case_bool_decide.
Qed.

(** ** Concrete gateways *)

Definition fixedTime : Z -> string := fun _ => "2026-01-01T00:00:00Z".
Definition gatewayA : NodesManager :=
  with_connected {["peer-bbbb" := mkPeer "peer-bbbb" "ws://b" "b" 1 "" (Some "conn-b") None 0]} (NewNodesManager "node-aaaa" "a" 1 "ws://a").
Definition gatewayB : NodesManager := NewNodesManager "peer-bbbb" "b" 1 "ws://b".
Definition quietEnv : env := mkEnv 0 "" [] 100 0 None (fun _ => []).
Definition oneClient : Server := acceptClient "client" "1.2.3.4" 5 NewServer.
#[local] Instance socketsRange : GoRange := canonical_range.
#[local] Instance socketsConv : GoConv := zero_conv.

(** A connected client of A is listed by B after the exchange. *)
Lemma sockets_list_exchanged_witness :
  exists m wire b', peerMessage (fun _ => true) (withSockets fixedTime gatewayA oneClient quietEnv) "c" [("type", JString "sockets:request")] gatewayA
      = Some (gatewayA, [Write "c" m]) /\ onTheWire m = Some wire /\
    peerMessage (fun _ => true) quietEnv "c" wire gatewayB = Some (b', []) /\
    (nm_peerSockets b' !! "node-aaaa") ≫= lookup "client" = Some (mkSocket "client" "1.2.3.4" "2026-01-01T00:00:00Z" "node-aaaa").
Proof.
  assert (Hr : runs (fun _ => "") None [OpAccept "client" "1.2.3.4" 5] NewServer oneClient) by (apply runs_cons; [done|apply runs_nil]).
  destruct (sockets_list_exchanged fixedTime (fun _ => "") None _ oneClient (fun _ => true) quietEnv quietEnv "c" "c" (fun _ => true) gatewayA gatewayB
    [("type", JString "sockets:request")] Hr ltac:(done) eq_refl) as (m & wire & b' & H1 & H2 & _ & H3 & H4 & _).
  exists m, wire, b'. split_and!; [done..|]. rewrite H4. by vm_compute.
Defined.

(** The peer at the open connection hears of the client twice and does not list it. *)
Lemma client_forgotten_at_once_witness :
  exists b', foldl (takeIn (fun _ => true) quietEnv "c") (Some gatewayB)
    (writtenTo "conn-b" (serveWebSocket fixedTime (fun _ => true) true false "1.2.3.4" "" "client" 5 id id (Some gatewayA) NewServer).2) = Some b' /\
    (nm_peerSockets b' !! "node-aaaa") ≫= lookup "client" = None.
Proof.
  assert (Hopen : openConns gatewayA = ["conn-b"]) by by vm_compute.
  destruct (client_forgotten_at_once fixedTime (fun _ => true) quietEnv "conn-b" "c" (fun _ => true) "1.2.3.4" "" "client" 5 id id gatewayA gatewayB
    NewServer _ _ _ ltac:(done) ltac:(done) (conj eq_refl eq_refl) ltac:(rewrite Hopen; apply NoDup_singleton)
    ltac:(rewrite Hopen; by apply list_elem_of_singleton) eq_refl) as (_ & _ & b' & H1 & H2 & _).
  exists b'. by split.
Defined.
