(* ===== verification/RateLimit.v ===== *)
(** * internal/ratelimit/limiter.go: fixed-window request limiter *)

From S2P Require Import Prelude.

#[local] Open Scope Z_scope.

(** A bucket: requests counted in the current window and the instant (in
    nanoseconds) at which the window is over. *)
Record bucket := mkBucket { count : Z; resetAt : Z }.

Record Limiter := mkLimiter {
  buckets : gmap string bucket;
  limit : Z;
  window : Z
}.

Definition minute : Z := 60000000000.

Definition New (limit window : Z) : Limiter :=
  mkLimiter ∅ (if limit <=? 0 then 30 else limit)
              (if window <=? 0 then minute else window).

(** [Allow] at the instant [now]: the new limiter and the verdict. *)
Definition Allow (l : Limiter) (now : Z) (key : string) : Limiter * bool :=
  let fresh :=
    mkLimiter (<[key := mkBucket 1 (now + window l)]> (buckets l)) (limit l) (window l) in
  match buckets l !! key with
  | None => (fresh, true)
  | Some b =>
      if resetAt b <? now then (fresh, true)
      else if limit l <=? count b then (l, false)
      else (mkLimiter (<[key := mkBucket (count b + 1) (resetAt b)]> (buckets l))
                      (limit l) (window l), true)
  end.

(** ** Facts *)

(** The verdicts for [key] in a sequence of calls. *)
Fixpoint allowedFor (key : string) (l : Limiter) (calls : list (Z * string)) : Z :=
  match calls with
  | [] => 0
  | (now, k) :: calls' =>
      let '(l', ok) := Allow l now k in
      (if String.eqb k key && ok then 1 else 0) + allowedFor key l' calls'
  end.

Definition callsFor (key : string) (calls : list (Z * string)) : Z :=
  Z.of_nat (length (filter (fun c => c.2 = key) calls)).

Lemma Allow_config l now k : limit (Allow l now k).1 = limit l /\ window (Allow l now k).1 = window l.
Proof. unfold Allow. destruct (buckets l !! k) as [b|]; [|done]. destruct (_ <? _); [done|]. by destruct (_ <=? _). Qed.

Lemma Allow_other l now k key : k <> key -> buckets (Allow l now k).1 !! key = buckets l !! key.
Proof.
  intros H. unfold Allow. destruct (buckets l !! k) as [b|]; simpl; [|by rewrite lookup_insert_ne].
  destruct (_ <? _); simpl; [by rewrite lookup_insert_ne|]. destruct (_ <=? _); simpl; [done|by rewrite lookup_insert_ne].
Qed.

(** Inside an open window exactly the calls up to the limit pass, whatever other
    keys do. *)
Lemma window_exact key calls l b :
  buckets l !! key = Some b -> 0 <= count b <= limit l ->
  (forall now k, (now, k) ∈ calls -> k = key -> now <= resetAt b) ->
  allowedFor key l calls = Z.min (limit l - count b) (callsFor key calls).
Proof.
  revert l b. induction calls as [|[now k] calls IH]; intros l b Hb Hc Ht; cbn [allowedFor].
  { unfold callsFor. simpl. lia. }
  pose proof (Allow_config l now k) as [Hl _].
  destruct (decide (k = key)) as [->|Hne].
  - assert (callsFor key ((now, key) :: calls) = 1 + callsFor key calls) as ->
      by (unfold callsFor; rewrite filter_cons_True by done; simpl; lia).
    assert (0 <= callsFor key calls) by (unfold callsFor; lia).
    assert (now <= resetAt b) by (apply (Ht now key); [by left|done]).
    rewrite String.eqb_refl. unfold Allow in *. rewrite Hb in *. rewrite (proj2 (Z.ltb_ge _ _)) in * by lia.
    destruct (_ <=? _) eqn:E; bools.
    + rewrite (IH l b); [simpl; lia|done|done|]. intros n' k' Hin. apply Ht. by right.
    + rewrite (IH _ (mkBucket (count b + 1) (resetAt b))); simpl; [lia|by rewrite lookup_insert_eq|lia|].
      intros n' k' Hin. apply Ht. by right.
  - assert (callsFor key ((now, k) :: calls) = callsFor key calls) as ->
      by (unfold callsFor; rewrite filter_cons_False by (by simpl); done).
    pose proof (Allow_other l now k key Hne) as Ho. destruct (Allow l now k) as [l' ok]. simpl in Hl, Ho.
    rewrite (proj2 (String.eqb_neq k key)) by done. rewrite (IH l' b); [simpl; lia|congruence|lia|].
    intros n' k' Hin. apply Ht. by right.
Qed.

(** From a first call at [start], the calls of a key during the window that it opens
    pass up to the limit and are refused beyond it. *)
Theorem limiter_exact key lim win start calls :
  (forall now k, (now, k) ∈ calls -> k = key -> now <= start + window (New lim win)) ->
  allowedFor key (New lim win) ((start, key) :: calls) = Z.min (limit (New lim win)) (1 + callsFor key calls).
Proof.
  intros Ht. assert (1 <= limit (New lim win)) by (simpl; destruct (_ <=? 0) eqn:?; bools; lia).
  cbn [allowedFor]. unfold Allow. cbn [buckets New]. rewrite lookup_empty, String.eqb_refl. cbn [andb].
  rewrite (window_exact key calls _ (mkBucket 1 (start + window (New lim win))));
    [simpl in *; lia|apply lookup_insert_eq|simpl in *; lia|done].
Qed.
