(* ===== verification/Rating.v ===== *)
(** * internal/rating: node scores, slashing and committee selection

    [Registry] is the map of scores behind [Registry.mu]; the pointers that
    [EnsureNode] and [Get] return are only read by their callers, so scores are
    values. Integers are [int64] with Go's truncated division. [GoRand] stands for
    math/rand: the [i]-th draw of a selection. *)

From S2P Require Import Prelude GoStd GoJson.
From Stdlib Require Import Floats.SpecFloat.

#[local] Open Scope Z_scope.

Definition ScoreScale : Z := 1000000.
Definition WeightUptime : Z := 300.
Definition WeightLatency : Z := 200.
Definition WeightVoteAccuracy : Z := 300.
Definition WeightStake : Z := 200.

Definition NodeStatusActive : string := "active".
Definition NodeStatusSuspended : string := "suspended".

Record NodeScores := mkScores {
  NodeID : string; Status : string; UptimeScore : Z; LatencyScore : Z; MissedVotes : Z; TotalVotes : Z;
  Stake : Z; ReputationScore : Z; LoadScore : Z; CurrentTasks : Z; MaxCapacity : Z
}.

Definition VoteAccuracy (n : NodeScores) : Z :=
  if TotalVotes n <=? 0 then ScoreScale
  else
    let correct := i64 (TotalVotes n - MissedVotes n) in
    let correct := if correct <? 0 then 0 else correct in
    Z.quot (i64 (correct * ScoreScale)) (TotalVotes n).

Definition stakeWeight (maxStake stake : Z) : Z :=
  if (0 <? maxStake) && (0 <=? stake) then
    let w := Z.quot (i64 (stake * ScoreScale)) maxStake in
    if w <? ScoreScale then w else ScoreScale
  else ScoreScale.

Definition ComputeReputation (maxStake : Z) (n : NodeScores) : NodeScores :=
  let sum := i64 (UptimeScore n * WeightUptime + LatencyScore n * WeightLatency
                  + VoteAccuracy n * WeightVoteAccuracy + stakeWeight maxStake (Stake n) * WeightStake) in
  mkScores (NodeID n) (Status n) (UptimeScore n) (LatencyScore n) (MissedVotes n) (TotalVotes n)
    (Stake n) (Z.quot sum 1000) (LoadScore n) (CurrentTasks n) (MaxCapacity n).

Definition SelectionWeight (n : NodeScores) : Z :=
  let loadPenalty := i64 (ScoreScale - LoadScore n) in
  let loadPenalty := if loadPenalty <? 0 then 0 else loadPenalty in
  Z.quot (i64 (ReputationScore n * loadPenalty)) ScoreScale.

Definition IsEligibleForCommittee (n : NodeScores) : bool := negb (String.eqb (Status n) NodeStatusSuspended).

(** ** Registry *)

Notation Registry := (gmap string NodeScores).
Definition NewRegistry : Registry := ∅.

(** A node as [EnsureNode] and [ApplySlashBatch] create it. *)
Definition freshNode (nodeID : string) (stake maxCapacity : Z) : NodeScores :=
  ComputeReputation 0
    (mkScores nodeID NodeStatusActive ScoreScale ScoreScale 0 0 stake 0 0 0 maxCapacity).

Definition EnsureNode (nodeID : string) (stake maxCapacity : Z) (r : Registry) : Registry :=
  match r !! nodeID with
  | Some _ => r
  | None => <[nodeID := freshNode nodeID stake (if maxCapacity <=? 0 then 1 else maxCapacity)]> r
  end.

Definition Get (nodeID : string) (r : Registry) : option NodeScores := r !! nodeID.

(** A maximum does not depend on the order of the iteration. *)
Definition maxStakeLocked (r : Registry) : Z :=
  map_fold (fun _ n m => if m <? Stake n then Stake n else m) 0 r.

Definition SetVoteStats (nodeID : string) (missed total : Z) (r : Registry) : Registry :=
  match r !! nodeID with
  | None => r
  | Some n =>
      let missed := if missed <? 0 then 0 else missed in
      let total := if total <? missed then missed else total in
      let n := mkScores (NodeID n) (Status n) (UptimeScore n) (LatencyScore n) missed total (Stake n)
                 (ReputationScore n) (LoadScore n) (CurrentTasks n) (MaxCapacity n) in
      <[nodeID := ComputeReputation (maxStakeLocked r) n]> r
  end.

Definition clampScore (score : Z) : Z :=
  let score := if score <? 0 then 0 else score in
  if ScoreScale <? score then ScoreScale else score.

Definition withUptime (score : Z) (n : NodeScores) : NodeScores :=
  mkScores (NodeID n) (Status n) score (LatencyScore n) (MissedVotes n) (TotalVotes n) (Stake n)
    (ReputationScore n) (LoadScore n) (CurrentTasks n) (MaxCapacity n).

Definition SetUptime (nodeID : string) (score : Z) (r : Registry) : Registry :=
  match r !! nodeID with
  | None => r
  | Some n => <[nodeID := ComputeReputation (maxStakeLocked r) (withUptime (clampScore score) n)]> r
  end.

Definition ApplyUptimePenalty (nodeID : string) (factor : spec_float) (r : Registry) : Registry :=
  match r !! nodeID with
  | None => r
  | Some n =>
      let score := int64_of_float (float_mul (float64 (UptimeScore n)) factor) in
      <[nodeID := ComputeReputation (maxStakeLocked r) (withUptime (clampScore score) n)]> r
  end.

Definition SetLoad (nodeID : string) (currentTasks maxCapacity : Z) (r : Registry) : Registry :=
  match r !! nodeID with
  | None => r
  | Some n =>
      let tasks := if currentTasks <? 0 then 0 else currentTasks in
      let cap := if maxCapacity <=? 0 then 1 else maxCapacity in
      <[nodeID := mkScores (NodeID n) (Status n) (UptimeScore n) (LatencyScore n) (MissedVotes n) (TotalVotes n)
          (Stake n) (ReputationScore n) (clampScore (Z.quot (i64 (tasks * ScoreScale)) cap)) tasks cap]> r
  end.

Definition RecomputeAll (r : Registry) : Registry := ComputeReputation (maxStakeLocked r) <$> r.

Definition All {R : GoRange} (r : Registry) : list NodeScores := (range r).*2.

Definition SelectionWeightFor (nodeID : string) (r : Registry) : Z :=
  match r !! nodeID with
  | None => ScoreScale
  | Some n => let w := SelectionWeight n in if w <=? 0 then 1 else w
  end.

Definition SelectionPercentFromLoad (loadPct : Z) : Z :=
  if loadPct =? 0 then 50
  else if loadPct <? 20 then 30
  else if loadPct <? 30 then 25
  else if loadPct <? 60 then 20
  else if loadPct <? 85 then 15
  else 10.

(** ** Selection *)

Class GoRand := {
  draw : nat -> Z -> Z;
  draw_range : forall i n, 0 < n -> 0 <= draw i n < n
}.

Definition zero_rand : GoRand.
Proof. refine {| draw := fun _ _ => 0 |}. intros; lia. Defined.

Definition eligible (r : Registry) (id : string) : bool :=
  match r !! id with Some n => IsEligibleForCommittee n | None => true end.

Definition filterEligibleCandidates (cands : list string) (r : Registry) : list string :=
  filter (fun id => eligible r id = true) cands.

(** The candidate in whose interval the roll falls; the last one otherwise. *)
Fixpoint rollPick (roll sum : Z) (last : string) (ws : list (string * Z)) : string :=
  match ws with
  | [] => last
  | (id, w) :: ws' =>
      let sum := i64 (sum + w) in
      if roll <? sum then id else rollPick roll sum id ws'
  end.

Definition SelectByWeight {G : GoRand} (i : nat) (cands : list string) (r : Registry) : string :=
  match cands with
  | [] => ""
  | [id] => id
  | _ =>
      let el := filterEligibleCandidates cands r in
      let ws := (fun id => let w := SelectionWeightFor id r in (id, if w <=? 0 then 1 else w)) <$> el in
      let total := foldl (fun t w => i64 (t + w)) 0 ws.*2 in
      match el with
      | [] => ""
      | [id] => id
      | id0 :: _ =>
          if total <=? 0 then default "" (el !! Z.to_nat (draw i (Z.of_nat (length el))))
          else rollPick (draw i total) 0 id0 ws
      end
  end.

(** The loop of [SelectCommittee]: every round either stops or extends the result,
    so [count] rounds are enough. *)
Fixpoint selectLoop {G : GoRand} (count i : nat) (remaining : list string) (r : Registry) : list string :=
  match count, remaining with
  | S count', _ :: _ =>
      let picked := SelectByWeight i remaining r in
      if String.eqb picked "" then []
      else picked :: selectLoop count' (S i) (filter (fun id => id <> picked) remaining) r
  | _, _ => []
  end.

Definition SelectCommittee {G : GoRand} (cands : list string) (count : Z) (r : Registry) : list string :=
  let el := filterEligibleCandidates cands r in
  match el with
  | [] => []
  | _ =>
      if count <=? 0 then []
      else if Z.of_nat (length el) <=? count then el
      else selectLoop (Z.to_nat count) 0 el r
  end.

(** ** slashing.go *)

Definition SuspensionThreshold : Z := 100000.

Inductive SlashingReason := SlashNoVote | SlashAgainstMajority | SlashEquivocation | SlashInvalidTx.

Definition reputationPenaltyFor (reason : SlashingReason) : Z :=
  match reason with
  | SlashNoVote => ScoreScale * 2 / 100
  | SlashAgainstMajority => ScoreScale * 3 / 100
  | SlashEquivocation => ScoreScale * 15 / 100
  | SlashInvalidTx => ScoreScale * 10 / 100
  end.

Definition stakeSlashFor (reason : SlashingReason) : Z :=
  match reason with SlashNoVote => 1 | SlashAgainstMajority => 2 | SlashEquivocation => 100 | SlashInvalidTx => 50 end.

Definition ReasonName (reason : SlashingReason) : string :=
  match reason with
  | SlashNoVote => "NoVote"
  | SlashAgainstMajority => "AgainstMajority"
  | SlashEquivocation => "Equivocation"
  | SlashInvalidTx => "InvalidTx"
  end.

Definition slashNode (reason : SlashingReason) (n : NodeScores) : NodeScores :=
  let rep := i64 (ReputationScore n - reputationPenaltyFor reason) in
  let rep := if rep <? 0 then 0 else rep in
  let stake := i64 (Stake n - stakeSlashFor reason) in
  let stake := if stake <? 0 then 0 else stake in
  mkScores (NodeID n) (if rep <? SuspensionThreshold then NodeStatusSuspended else Status n) (UptimeScore n)
    (LatencyScore n) (MissedVotes n) (TotalVotes n) stake rep (LoadScore n) (CurrentTasks n) (MaxCapacity n).

Definition ApplySlash (nodeID : string) (reason : SlashingReason) (r : Registry) : Registry * result unit :=
  match r !! nodeID with
  | None => (r, Err "node not found")
  | Some n => (<[nodeID := slashNode reason n]> r, Ok ())
  end.

Definition slashOne (reason : SlashingReason) (r : Registry) (id : string) : Registry :=
  if String.eqb id "" then r
  else
    let r := match r !! id with Some _ => r | None => <[id := freshNode id 0 1]> r end in
    (ApplySlash id reason r).1.

Definition ApplySlashBatch (nodeIDs : list string) (reason : SlashingReason) (r : Registry) : Registry :=
  foldl (slashOne reason) r nodeIDs.
