(* ===== verification/RatingSpec.v ===== *)
(** * What the node registry promises (internal/rating)

    Bounds of the scores under every operation, permanence of a suspension, exact
    effect of a slash, and correctness of the committee selection. *)

From S2P Require Import Prelude GoStd GoJson Rating.

#[local] Open Scope Z_scope.

(** Largest stake or vote count whose product with [ScoreScale] fits in 64 bits. *)
Definition scoreBound : Z := 9223372036854.

Record ScoresInv (n : NodeScores) : Prop := {
  si_uptime : 0 <= UptimeScore n <= ScoreScale;
  si_latency : 0 <= LatencyScore n <= ScoreScale;
  si_votes : 0 <= MissedVotes n <= TotalVotes n /\ TotalVotes n <= scoreBound;
  si_stake : 0 <= Stake n <= scoreBound;
  si_reputation : 0 <= ReputationScore n <= ScoreScale;
  si_load : 0 <= LoadScore n <= ScoreScale;
  si_status : Status n = NodeStatusActive \/ Status n = NodeStatusSuspended
}.

Definition RegistryInv (r : Registry) : Prop := map_Forall (fun id n => NodeID n = id /\ ScoresInv n) r.

(** ** Reputation *)

Lemma accuracy_bounds n : 0 <= MissedVotes n <= TotalVotes n -> TotalVotes n <= scoreBound ->
  0 <= VoteAccuracy n <= ScoreScale.
Proof.
  intros Hm Ht. unfold VoteAccuracy, ScoreScale, scoreBound in *. destruct (_ <=? 0) eqn:E; bools; [lia|].
  rewrite (i64_small (TotalVotes n - MissedVotes n)) by (unfold is_i64, two63; lia). rewrite (proj2 (Z.ltb_ge _ _)) by lia.
  rewrite i64_small by (unfold is_i64, two63; lia). rewrite Z.quot_div_nonneg by lia.
  split; [apply Z.div_pos; lia|]. apply Z.div_le_upper_bound; nia.
Qed.

Lemma stakeWeight_bounds m s : s <= scoreBound -> 0 <= stakeWeight m s <= ScoreScale.
Proof.
  intros Hs. unfold stakeWeight, ScoreScale, scoreBound in *. destruct (_ && _) eqn:E; bools; [|lia].
  rewrite i64_small by (unfold is_i64, two63; lia).
  pose proof (Z.quot_pos (s * 1000000) m). destruct (_ <? 1000000) eqn:E'; bools; lia.
Qed.

(** The weighted mean, with no overflow. *)
Lemma reputation_mean m n :
  0 <= UptimeScore n <= ScoreScale -> 0 <= LatencyScore n <= ScoreScale ->
  0 <= MissedVotes n <= TotalVotes n -> TotalVotes n <= scoreBound -> Stake n <= scoreBound ->
  ReputationScore (ComputeReputation m n) =
    (UptimeScore n * 300 + LatencyScore n * 200 + VoteAccuracy n * 300 + stakeWeight m (Stake n) * 200) / 1000.
Proof.
  intros Hu Hl Hv Ht Hs. pose proof (accuracy_bounds n Hv Ht). pose proof (stakeWeight_bounds m _ Hs).
  unfold ComputeReputation, WeightUptime, WeightLatency, WeightVoteAccuracy, WeightStake, ScoreScale in *. simpl.
  rewrite i64_small by (unfold is_i64, two63; lia). apply Z.quot_div_nonneg; lia.
Qed.

Lemma mean_bounds u l v s :
  0 <= u <= ScoreScale -> 0 <= l <= ScoreScale -> 0 <= v <= ScoreScale -> 0 <= s <= ScoreScale ->
  0 <= (u * 300 + l * 200 + v * 300 + s * 200) / 1000 <= ScoreScale.
Proof.
  unfold ScoreScale. intros. split; [apply Z.div_pos; lia|]. apply Z.div_le_upper_bound; lia.
Qed.

Lemma ComputeReputation_inv m n :
  0 <= UptimeScore n <= ScoreScale -> 0 <= LatencyScore n <= ScoreScale ->
  0 <= MissedVotes n <= TotalVotes n -> TotalVotes n <= scoreBound -> 0 <= Stake n <= scoreBound ->
  0 <= LoadScore n <= ScoreScale -> Status n = NodeStatusActive \/ Status n = NodeStatusSuspended ->
  ScoresInv (ComputeReputation m n).
Proof.
  intros Hu Hl Hv Ht Hs Hld Hst. split; try done.
  rewrite reputation_mean by (done || lia).
  apply mean_bounds; [done|done|by apply accuracy_bounds|apply stakeWeight_bounds; lia].
Qed.

Lemma freshNode_inv id st cap : 0 <= st <= scoreBound -> NodeID (freshNode id st cap) = id /\ ScoresInv (freshNode id st cap).
Proof.
  intros H. split; [done|]. apply ComputeReputation_inv; simpl; unfold ScoreScale, scoreBound in *; try lia. by left.
Qed.

Lemma clampScore_bounds z : 0 <= clampScore z <= ScoreScale.
Proof. unfold clampScore, ScoreScale. destruct (z <? 0) eqn:E; [done|]. destruct (_ <? z) eqn:E'; bools; lia. Qed.

(** ** Slashing *)

Lemma penalty_range reason :
  0 <= reputationPenaltyFor reason <= 150000 /\ 0 <= stakeSlashFor reason <= 100.
Proof. by destruct reason. Qed.

Lemma slashNode_exact reason n : ScoresInv n ->
  ReputationScore (slashNode reason n) = Z.max 0 (ReputationScore n - reputationPenaltyFor reason) /\
  Stake (slashNode reason n) = Z.max 0 (Stake n - stakeSlashFor reason) /\
  Status (slashNode reason n) =
    (if ReputationScore n - reputationPenaltyFor reason <? SuspensionThreshold then NodeStatusSuspended else Status n).
Proof.
  intros I. destruct (penalty_range reason) as [Hp Hs]. destruct (si_reputation n I), (si_stake n I).
  unfold slashNode, ScoreScale, scoreBound, SuspensionThreshold in *. cbn [ReputationScore Stake Status].
  rewrite !i64_small by (unfold is_i64, two63; lia).
  set (a := ReputationScore n - _) in *. set (b := Stake n - _) in *.
  split; [|split]; [destruct (a <? 0) eqn:E; bools; lia|destruct (b <? 0) eqn:E; bools; lia|].
  destruct (a <? 0) eqn:E; bools; [|done]. by rewrite (proj2 (Z.ltb_lt a 100000)) by lia.
Qed.

Lemma slashNode_inv reason n : ScoresInv n -> ScoresInv (slashNode reason n).
Proof.
  intros I. destruct (slashNode_exact reason n I) as (Hr & Hk & Hs). destruct (penalty_range reason).
  destruct I as [I1 I2 I3 I4 I5 I6 I7]. unfold ScoreScale, scoreBound in *. split; try done.
  - rewrite Hk. unfold scoreBound. lia.
  - rewrite Hr. unfold ScoreScale. lia.
  - rewrite Hs. destruct (_ <? _); [by right|done].
Qed.

(** ** Operations *)

Inductive rop :=
| OEnsure (id : string) (stake cap : Z)
| OVotes (id : string) (missed total : Z)
| OUptime (id : string) (score : Z)
| OPenalty (id : string) (factor : SpecFloat.spec_float)
| OLoad (id : string) (tasks cap : Z)
| ORecompute
| OSlash (id : string) (reason : SlashingReason)
| OSlashBatch (ids : list string) (reason : SlashingReason).

Definition runOp (r : Registry) (op : rop) : Registry :=
  match op with
  | OEnsure id st cap => EnsureNode id st cap r
  | OVotes id m t => SetVoteStats id m t r
  | OUptime id s => SetUptime id s r
  | OPenalty id f => ApplyUptimePenalty id f r
  | OLoad id c m => SetLoad id c m r
  | ORecompute => RecomputeAll r
  | OSlash id reason => (ApplySlash id reason r).1
  | OSlashBatch ids reason => ApplySlashBatch ids reason r
  end.

(** Arguments within the range where products with [ScoreScale] do not wrap. *)
Definition op_ok (op : rop) : Prop :=
  match op with
  | OEnsure _ st _ => 0 <= st <= scoreBound
  | OVotes _ m t => m <= scoreBound /\ t <= scoreBound
  | _ => True
  end.

Lemma inv_insert r id n : RegistryInv r -> NodeID n = id -> ScoresInv n -> RegistryInv (<[id := n]> r).
Proof. intros I <- Hn. by apply map_Forall_insert_2. Qed.

Lemma slashOne_inv reason r id : RegistryInv r -> RegistryInv (slashOne reason r id).
Proof.
  intros I. unfold slashOne. destruct (String.eqb id ""); [done|].
  assert (RegistryInv (match r !! id with Some _ => r | None => <[id := freshNode id 0 1]> r end)) as I'.
  { destruct (r !! id); [done|]. destruct (freshNode_inv id 0 1); [unfold scoreBound; lia|]. by apply inv_insert. }
  revert I'. generalize (match r !! id with Some _ => r | None => <[id := freshNode id 0 1]> r end). intros r' I'.
  unfold ApplySlash. destruct (r' !! id) as [n|] eqn:E; [|done]. destruct (I' _ _ E) as [? ?].
  apply inv_insert; [done|done|by apply slashNode_inv].
Qed.

Lemma update_inv r id n (g : NodeScores -> NodeScores) :
  RegistryInv r -> r !! id = Some n -> NodeID (g n) = NodeID n -> (ScoresInv n -> ScoresInv (g n)) ->
  RegistryInv (<[id := g n]> r).
Proof. intros I E Hid Hg. destruct (I _ _ E) as [? ?]. apply inv_insert; [done|congruence|auto]. Qed.

Lemma runOp_inv r op : op_ok op -> RegistryInv r -> RegistryInv (runOp r op).
Proof.
  intros Hok I. destruct op as [id st cap|id m t|id s|id f|id c m| |id reason|ids reason]; cbn [runOp op_ok] in *.
  - unfold EnsureNode. destruct (r !! id); [done|]. destruct (freshNode_inv id st (if cap <=? 0 then 1 else cap) Hok).
    by apply inv_insert.
  - unfold SetVoteStats. destruct (r !! id) as [n|] eqn:E; [|done].
    apply (update_inv r id n (fun _ => _)); [done..|]. intros [? ? ? ? ? ? ?].
    apply ComputeReputation_inv; simpl; try done; unfold scoreBound in *;
      destruct (m <? 0) eqn:?; destruct (t <? _) eqn:?; bools; lia.
  - unfold SetUptime. destruct (r !! id) as [n|] eqn:E; [|done].
    apply (update_inv r id n (fun _ => _)); [done..|]. intros [? ? ? ? ? ? ?].
    apply ComputeReputation_inv; simpl; try apply clampScore_bounds; tauto.
  - unfold ApplyUptimePenalty. destruct (r !! id) as [n|] eqn:E; [|done].
    apply (update_inv r id n (fun _ => _)); [done..|]. intros [? ? ? ? ? ? ?].
    apply ComputeReputation_inv; simpl; try apply clampScore_bounds; tauto.
  - unfold SetLoad. destruct (r !! id) as [n|] eqn:E; [|done].
    apply (update_inv r id n (fun _ => _)); [done..|]. intros [? ? ? ? ? ? ?].
    split; simpl; try apply clampScore_bounds; tauto.
  - unfold RecomputeAll. intros id n. rewrite lookup_fmap. intros (x & Hx & ->)%fmap_Some.
    destruct (I _ _ Hx) as [? [? ? ? ? ? ? ?]]. split; [done|]. apply ComputeReputation_inv; tauto.
  - unfold ApplySlash. destruct (r !! id) as [n|] eqn:E; [|done]. simpl.
    apply (update_inv r id n (slashNode reason)); [done..|]. apply slashNode_inv.
  - unfold ApplySlashBatch. revert r I. induction ids as [|id ids IH]; [done|]. intros r I. apply IH.
    by apply slashOne_inv.
Qed.

Definition runOps (r : Registry) (ops : list rop) : Registry := foldl runOp r ops.

Lemma runOps_inv r ops : Forall op_ok ops -> RegistryInv r -> RegistryInv (runOps r ops).
Proof. intros H. revert r. induction H; intros r I; [done|]. simpl. auto using runOp_inv. Qed.

(** C32: Whatever operations a registry goes through, as long as the stakes and vote
    counts handed to it stay below the bound where 64-bit products would wrap, every
    node is filed under its id, its uptime, latency, load and reputation stay in
    0..1,000,000, its missed votes never exceed its total votes, its stake never
    becomes negative and its status is active or suspended. *)
Theorem registry_scores_bounded ops : Forall op_ok ops -> RegistryInv (runOps NewRegistry ops).
Proof. intros H. apply runOps_inv; [done|]. apply map_Forall_empty. Qed.

(** ** Suspension *)

Lemma slashNode_status reason n : Status n = NodeStatusSuspended -> Status (slashNode reason n) = NodeStatusSuspended.
Proof. unfold slashNode. cbn [Status]. by destruct (_ <? SuspensionThreshold). Qed.

Definition suspended (r : Registry) (id : string) : Prop :=
  exists n, r !! id = Some n /\ Status n = NodeStatusSuspended.

Lemma suspended_insert r id k n :
  suspended r id -> (k = id -> forall m, r !! id = Some m -> Status m = NodeStatusSuspended -> Status n = NodeStatusSuspended) ->
  suspended (<[k := n]> r) id.
Proof.
  intros (m & Hm & Hs) Hk. destruct (decide (k = id)) as [->|Hne].
  - exists n. rewrite lookup_insert_eq. split; [done|]. by apply (Hk eq_refl m).
  - exists m. by rewrite lookup_insert_ne.
Qed.

Lemma slash_suspended reason r id k : suspended r id -> suspended (ApplySlash k reason r).1 id.
Proof.
  intros Hs. unfold ApplySlash. destruct (r !! k) as [n|] eqn:E; [|done]. apply suspended_insert; [done|].
  intros -> m Hm. simplify_eq. apply slashNode_status.
Qed.

Lemma slashOne_suspended reason r id k : suspended r id -> suspended (slashOne reason r k) id.
Proof.
  intros Hs. unfold slashOne. destruct (String.eqb k ""); [done|]. apply slash_suspended.
  destruct (r !! k) eqn:E; [done|]. apply suspended_insert; [done|]. intros -> m Hm. congruence.
Qed.

Lemma runOp_suspended r op id : suspended r id -> suspended (runOp r op) id.
Proof.
  intros Hs. destruct op as [k st cap|k m t|k s|k f|k c m| |k reason|ids reason]; cbn [runOp];
    unfold EnsureNode, SetVoteStats, SetUptime, ApplyUptimePenalty, SetLoad;
    try (destruct (r !! k) as [x|] eqn:E; [|done]; apply suspended_insert; [done|];
         intros -> y Hy Hst; simplify_eq; done).
  - destruct (r !! k) eqn:E; [done|]. apply suspended_insert; [done|]. intros -> y Hy. congruence.
  - destruct Hs as (n & Hn & Hst). exists (ComputeReputation (maxStakeLocked r) n).
    unfold RecomputeAll. by rewrite lookup_fmap, Hn.
  - by apply slash_suspended.
  - unfold ApplySlashBatch. revert r Hs. induction ids as [|k ids IH]; [done|]. intros r Hs. apply IH.
    by apply slashOne_suspended.
Qed.

(** A slash lowers the reputation and the stake of the node by exactly the
    penalty of its reason, not below zero, touches no other node, and suspends the
    node exactly when the reputation left is below the threshold or it was already
    suspended; and no later sequence of operations ever lifts a suspension. *)
Theorem slash_exact_and_permanent r id n reason ops :
  RegistryInv r -> r !! id = Some n ->
  exists n', (ApplySlash id reason r) = (<[id := n']> r, Ok ()) /\
    ReputationScore n' = Z.max 0 (ReputationScore n - reputationPenaltyFor reason) /\
    Stake n' = Z.max 0 (Stake n - stakeSlashFor reason) /\
    (Status n' = NodeStatusSuspended <->
       ReputationScore n - reputationPenaltyFor reason < SuspensionThreshold \/ Status n = NodeStatusSuspended) /\
    (Status n' = NodeStatusSuspended -> suspended (runOps (<[id := n']> r) ops) id).
Proof.
  intros I Hn. destruct (I _ _ Hn) as [_ Hi]. destruct (slashNode_exact reason n Hi) as (Hr & Hk & Hs).
  exists (slashNode reason n). unfold ApplySlash. rewrite Hn. split; [done|]. split; [done|]. split; [done|].
  split.
  - rewrite Hs. destruct (_ <? _) eqn:E; bools; intuition (done || lia).
  - intros Hst. assert (suspended (<[id := slashNode reason n]> r) id) as H0.
    { exists (slashNode reason n). by rewrite lookup_insert_eq. }
    revert H0. generalize (<[id := slashNode reason n]> r). induction ops as [|op ops IH]; [done|].
    intros x Hx. apply IH. by apply runOp_suspended.
Qed.

(** ** Committees *)

Section Committee.
Context {G : GoRand}.
Implicit Types r : Registry.

Lemma rollPick_in roll sum last ws : rollPick roll sum last ws ∈ last :: ws.*1.
Proof.
  revert sum last. induction ws as [|[id w] ws IH]; intros sum last; [by left|].
  cbn [rollPick]. rewrite fmap_cons. destruct (_ <? _); [right; by left|]. right. apply IH.
Qed.

Lemma filter_elem r cands id : id ∈ filterEligibleCandidates cands r <-> eligible r id = true /\ id ∈ cands.
Proof. unfold filterEligibleCandidates. by rewrite list_elem_of_filter. Qed.

Lemma SelectByWeight_in i cands r :
  (forall id, id ∈ cands -> eligible r id = true) -> cands <> [] -> SelectByWeight i cands r ∈ cands.
Proof.
  intros He Hne. unfold SelectByWeight. destruct cands as [|a [|b cands]]; [done|by left|].
  set (cs := a :: b :: cands) in *.
  assert (Hsub : forall id, id ∈ filterEligibleCandidates cs r -> id ∈ cs) by (intros id [_ ?]%filter_elem; done).
  assert (Ha : a ∈ filterEligibleCandidates cs r) by (apply filter_elem; split; [apply He|]; by left).
  destruct (filterEligibleCandidates cs r) as [|x [|y el]] eqn:E; [by apply elem_of_nil in Ha|apply Hsub; by left|].
  set (total := foldl _ _ _). destruct (total <=? 0) eqn:Et.
  - set (l := x :: y :: el) in *. pose proof (draw_range i (Z.of_nat (length l))) as Hd.
    destruct (lookup_lt_is_Some_2 l (Z.to_nat (draw i (Z.of_nat (length l))))) as [z Hz]; [simpl in *; lia|].
    rewrite Hz. apply Hsub. by apply list_elem_of_lookup_2 in Hz.
  - apply Hsub.
    match goal with |- rollPick ?r0 ?s0 ?l0 ?w0 ∈ _ => pose proof (rollPick_in r0 s0 l0 w0) as Hp end.
    revert Hp. rewrite <- list_fmap_compose. unfold compose. cbn [fst]. rewrite list_fmap_id.
    intros [->|Hp]%elem_of_cons; [by left|done].
Qed.

Lemma filter_ne_length (p : string) l : NoDup l -> p ∈ l -> S (length (filter (fun id => id <> p) l)) = length l.
Proof.
  induction 1 as [|x l Hx Hnd IH]; [by intros ?%elem_of_nil|]. intros [->|Hp]%elem_of_cons.
  - rewrite filter_cons_False by (by intros []). simpl. f_equal. f_equal.
    clear IH Hnd. induction l as [|y l IH]; [done|]. rewrite not_elem_of_cons in Hx. destruct Hx.
    rewrite filter_cons_True by done. f_equal. by apply IH.
  - rewrite filter_cons_True by (by intros ->). simpl. f_equal. by apply IH.
Qed.

Lemma selectLoop_spec r count i remaining :
  NoDup remaining -> "" ∉ remaining -> (forall id, id ∈ remaining -> eligible r id = true) ->
  NoDup (selectLoop count i remaining r) /\ selectLoop count i remaining r ⊆ remaining /\
  length (selectLoop count i remaining r) = Nat.min count (length remaining).
Proof.
  revert i remaining. induction count as [|count IH]; intros i rem Hnd Hne He; cbn [selectLoop].
  { split; [constructor|]. split; [set_solver|done]. }
  destruct rem as [|a rem']; [split; [constructor|split; [set_solver|done]]|].
  set (rem := a :: rem') in *. pose proof (SelectByWeight_in i rem r He ltac:(done)) as Hp.
  set (p := SelectByWeight i rem r) in *.
  rewrite (proj2 (String.eqb_neq p "")) by (intros Hc; by rewrite Hc in Hp).
  destruct (IH (S i) (filter (fun id => id <> p) rem)) as (H1 & H2 & H3).
  { by apply NoDup_filter. } { intros [_ ?]%list_elem_of_filter. done. }
  { intros id [_ ?]%list_elem_of_filter. auto. }
  pose proof (filter_ne_length p rem Hnd Hp) as Hlen. split; [|split].
  - constructor; [|done]. intros Hin%H2. apply list_elem_of_filter in Hin as [? _]. done.
  - intros id [->|Hin%H2]%elem_of_cons; [done|]. by apply list_elem_of_filter in Hin as [_ ?].
  - cbn [length]. rewrite H3. lia.
Qed.
End Committee.

(** A committee drawn from distinct candidates has no member twice, contains
    only candidates, never a suspended node, and has as many members as asked for,
    or all the eligible candidates when there are fewer. *)
Theorem committee_well_formed {G : GoRand} cands count r :
  NoDup cands -> "" ∉ cands ->
  NoDup (SelectCommittee cands count r) /\ SelectCommittee cands count r ⊆ cands /\
  (forall id, id ∈ SelectCommittee cands count r -> ~ suspended r id) /\
  Z.of_nat (length (SelectCommittee cands count r)) =
    Z.max 0 (Z.min count (Z.of_nat (length (filterEligibleCandidates cands r)))).
Proof.
  intros Hnd Hne. unfold SelectCommittee.
  assert (Hel : forall id, id ∈ filterEligibleCandidates cands r -> eligible r id = true /\ id ∈ cands)
    by (intros id; apply filter_elem).
  assert (Hns : forall id, eligible r id = true -> ~ suspended r id).
  { intros id He (n & Hn & Hs). unfold eligible, IsEligibleForCommittee in He. by rewrite Hn, Hs in He. }
  assert (Hnd' : NoDup (filterEligibleCandidates cands r)) by by apply NoDup_filter.
  destruct (filterEligibleCandidates cands r) as [|a el'] eqn:E.
  { split; [constructor|]. split; [set_solver|]. split; [by intros id ?%elem_of_nil|]. simpl. lia. }
  set (el := a :: el') in *. destruct (count <=? 0) eqn:E0; bools.
  { split; [constructor|]. split; [set_solver|]. split; [by intros id ?%elem_of_nil|]. simpl. lia. }
  destruct (_ <=? count) eqn:E1; bools.
  { split; [done|]. split; [intros id Hid; by apply Hel|]. split; [intros id Hid; by apply Hns, Hel|]. lia. }
  destruct (selectLoop_spec r (Z.to_nat count) 0 el) as (H1 & H2 & H3).
  { done. } { intros Hc. by destruct (Hel _ Hc). } { intros id Hid. by apply Hel. }
  split; [done|]. split; [intros id Hid%H2; by apply Hel|]. split; [intros id Hid%H2; by apply Hns, Hel|].
  rewrite H3. lia.
Qed.

(** ** Witnesses *)

Definition demoOps : list rop :=
  [OEnsure "a" 100 4; OEnsure "b" 50 4; OEnsure "c" 0 0; OVotes "a" 1 10; OLoad "b" 1 4;
   OPenalty "b" (float64 2); OSlash "c" SlashEquivocation; OSlashBatch ["c"; "c"; "c"; "c"; "c"; "d"] SlashEquivocation].

Definition demoReg : Registry := runOps NewRegistry demoOps.

Lemma demoOps_ok : Forall op_ok demoOps.
Proof. unfold demoOps, scoreBound. repeat constructor; unfold scoreBound; lia. Qed.

Lemma registry_scores_bounded_witness :
  (ReputationScore <$> demoReg !! "a") = Some 970000 /\ RegistryInv demoReg.
Proof. split; [vm_compute; reflexivity|]. apply (registry_scores_bounded demoOps), demoOps_ok. Defined.

Lemma slash_exact_and_permanent_witness :
  exists n n', demoReg !! "a" = Some n /\ (ApplySlash "a" SlashNoVote demoReg).1 !! "a" = Some n' /\
    ReputationScore n' = 950000.
Proof.
  destruct (demoReg !! "a") as [n|] eqn:E; [|by vm_compute in E].
  destruct (slash_exact_and_permanent demoReg "a" n SlashNoVote []) as (n' & Ha & Hr & _).
  { apply runOps_inv; [apply demoOps_ok|apply map_Forall_empty]. } { exact E. }
  exists n, n'. split; [reflexivity|]. rewrite Ha. split; [apply lookup_insert_eq|]. rewrite Hr.
  assert (ReputationScore <$> demoReg !! "a" = Some 970000) as Hn by (vm_compute; reflexivity).
  rewrite E in Hn. injection Hn as ->. reflexivity.
Defined.

Lemma committee_well_formed_witness :
  @SelectCommittee zero_rand ["a"; "b"; "c"; "e"] 2 demoReg = ["a"; "b"] /\
  NoDup (@SelectCommittee zero_rand ["a"; "b"; "c"; "e"] 2 demoReg).
Proof.
  split; [vm_compute; reflexivity|].
  apply (@committee_well_formed zero_rand ["a"; "b"; "c"; "e"] 2 demoReg);
    apply (bool_decide_unpack _); vm_compute; done.
Defined.
