(* ===== verification/Rewards.v ===== *)
(** * internal/rewards and the distribution of block fees (handlers.go)

    The split of block fees, the distributor's running totals, validation XP, the
    operator wallet, and how a pool is shared among the nodes that voted yes.
    [getenv] stands for [os.Getenv]. *)

From S2P Require Import Prelude GoStd Rating.

#[local] Open Scope Z_scope.

(** ** rewards.go, config_env.go *)

Record Config := mkConfig { BurnPct : Z; TreasuryPct : Z; L1Pct : Z; L2Pct : Z }.

Record SplitResult := mkSplit { Burn : Z; Treasury : Z; L1Pool : Z; L2Pool : Z }.

Definition DefaultConfig : Config := mkConfig 10 18 36 36.

(** [strconv.Atoi] is base-10 [ParseInt] on a 64-bit [int]. *)
Definition envInt (getenv : string -> string) (key : string) (fallback : Z) : Z :=
  let raw := getenv key in
  if String.eqb raw "" then fallback
  else let '(n, ok) := ParseInt raw in if negb ok || (n <? 0) then fallback else n.

Definition ConfigFromEnv (getenv : string -> string) : Config :=
  mkConfig (envInt getenv "PLATARIUM_BURN_PCT" (BurnPct DefaultConfig))
    (envInt getenv "PLATARIUM_TREASURY_PCT" (TreasuryPct DefaultConfig))
    (envInt getenv "PLATARIUM_L1_PCT" (L1Pct DefaultConfig))
    (envInt getenv "PLATARIUM_L2_PCT" (L2Pct DefaultConfig)).

Definition share (total pct sum : Z) : Z := i64 (Z.quot (i64 (total * pct)) sum).

Definition SplitBlockFees (c : Config) (totalFees : Z) : SplitResult :=
  if totalFees <=? 0 then mkSplit 0 0 0 0
  else
  let sum := i64 (BurnPct c + TreasuryPct c + L1Pct c + L2Pct c) in
  let sum := if sum <=? 0 then 100 else sum in
  let burn := share totalFees (BurnPct c) sum in
  let treasury := share totalFees (TreasuryPct c) sum in
  let l1 := share totalFees (L1Pct c) sum in
  let l2 := share totalFees (L2Pct c) sum in
  let treasury := i64 (treasury + i64 (totalFees - burn - treasury - l1 - l2)) in
  mkSplit burn treasury l1 l2.

Record Distributor := mkDistributor { config : Config; TotalBurned : Z; TotalTreasury : Z }.

Definition NewDistributor (getenv : string -> string) : Distributor := mkDistributor (ConfigFromEnv getenv) 0 0.

Definition SetTotals (burned treasury : Z) (d : Distributor) : Distributor :=
  mkDistributor (config d) (if burned <? 0 then 0 else burned) (if treasury <? 0 then 0 else treasury).

Definition AddBurnTreasury (burn treasury : Z) (d : Distributor) : Distributor :=
  mkDistributor (config d) (i64 (TotalBurned d + burn)) (i64 (TotalTreasury d + treasury)).

Definition ApplyBlock (totalFees : Z) (d : Distributor) : Distributor * (Z * Z) :=
  let sr := SplitBlockFees (config d) totalFees in
  (AddBurnTreasury (Burn sr) (Treasury sr) d, (L1Pool sr, L2Pool sr)).

Definition ParseFee (feeStr : string) : Z :=
  let '(n, _) := ParseInt feeStr in if n <? 0 then 0 else n.

(** ** xp.go *)

Definition MinValidationXP : Z := 10.

Definition loadXPBonus (loadPct : Z) : Z :=
  let sel := SelectionPercentFromLoad loadPct in
  if 50 <=? sel then 0 else if 30 <=? sel then 2 else if 25 <=? sel then 4
  else if 20 <=? sel then 6 else if 15 <=? sel then 8 else 10.

Definition distributionXPBonus (myWeight totalWeight voterCount : Z) : Z :=
  if (voterCount <=? 0) || (totalWeight <=? 0) || (myWeight <=? 0) then 0
  else
  let equal := Z.quot totalWeight voterCount in
  let equal := if equal <=? 0 then 1 else equal in
  let ratioScaled := Z.quot (i64 (myWeight * 10)) equal in
  if ratioScaled <=? 10 then 0
  else let bonus := i64 (ratioScaled - 10) in if 10 <? bonus then 10 else bonus.

Definition ComputeValidationXP (loadPct myWeight totalWeight voterCount : Z) : Z :=
  let xp := MinValidationXP + loadXPBonus loadPct + distributionXPBonus myWeight totalWeight voterCount in
  if xp <? MinValidationXP then MinValidationXP else xp.

(** ** operator.go *)

Fixpoint allHex (s : string) : bool :=
  match s with
  | EmptyString => true
  | String c s' =>
      let n := Ascii.N_of_ascii c in
      ((48 <=? n)%N && (n <=? 57)%N || (97 <=? n)%N && (n <=? 102)%N) && allHex s'
  end.

Definition isHex (s : string) : bool := negb (String.eqb s "") && allHex s.

Definition normalizeOperatorWallet (addr : string) : string :=
  let v := TrimSpace addr in
  if len v <? 3 then ""
  else if (HasPrefix v "Px" || HasPrefix v "px") && (2 <? len v) then
    let hex := ToLower (str_drop 2 v) in
    if isHex hex then "Px" +:+ hex else ""
  else "".

(** ** handlers.go: sharing a pool *)

Section Pool.
Context {R : GoRange}.

Definition yesVotersOf (voters : gmap string bool) : list string :=
  (filter (fun kv => kv.2 = true) (range voters)).*1.

Definition weightOf (reg : Registry) (id : string) : Z :=
  let w := SelectionWeightFor id reg in if w <=? 0 then 1 else w.

Definition addShare (id : string) (s : Z) (shares : gmap string Z) : gmap string Z :=
  <[id := i64 (cnt shares id + s)]> shares.

(** One voter's proportional part of the remainder. *)
Definition shareOut (remainder totalWeight : Z) (weight : string -> Z) (acc : gmap string Z * Z) (id : string)
  : gmap string Z * Z :=
  let '(shares, distributed) := acc in
  let s := Z.quot (i64 (remainder * weight id)) totalWeight in
  (addShare id s shares, i64 (distributed + s)).

Definition distributePool (pool : Z) (voters : gmap string bool) (reg : Registry) : gmap string Z :=
  if pool <=? 0 then ∅
  else
  let yes := yesVotersOf voters in
  match yes with
  | [] => ∅
  | first :: _ =>
      let n := Z.of_nat (length yes) in
      let total := foldl (fun t id => i64 (t + weightOf reg id)) 0 yes in
      let '(total, weight) := if total <=? 0 then (n, fun _ => 1) else (total, weightOf reg) in
      let '(remainder, shares) :=
        if n <=? pool then (pool - n, foldl (fun m id => <[id := 1]> m) ∅ yes) else (pool, ∅) in
      if remainder <=? 0 then shares
      else
        let '(shares, distributed) := foldl (shareOut remainder total weight) (shares, 0) yes in
        if distributed <? remainder then addShare first (remainder - distributed) shares else shares
  end.

(** The fee part of [l2ConfirmBlockRun]: nothing for a block without fees. *)
Definition rewardBlock (totalFees : Z) (l1Voters l2Voters : gmap string bool) (reg : Registry) (d : Distributor)
  : Distributor * (gmap string Z * gmap string Z) :=
  if 0 <? totalFees then
    let '(d', (l1Pool, l2Pool)) := ApplyBlock totalFees d in
    (d', (distributePool l1Pool l1Voters reg, distributePool l2Pool l2Voters reg))
  else (d, (∅, ∅)).

(** Cumulative earnings, per node and own: nodeID -> (l1, l2). *)
Record Earnings := mkEarn { allNodeEarnings : gmap string (Z * Z); nodeEarnedL1 : Z; nodeEarnedFees : Z }.

Definition earned (e : Earnings) (id : string) : Z * Z := default (0, 0) (allNodeEarnings e !! id).

Definition recordEarnings (myId : string) (l1 l2 : gmap string Z) (e : Earnings) : Earnings :=
  let m := foldl (fun m '(id, amount) =>
             let '(a, b) := default (0, 0) (m !! id) in <[id := (i64 (a + amount), b)]> m)
             (allNodeEarnings e) (range l1) in
  let m := foldl (fun m '(id, amount) =>
             let '(a, b) := default (0, 0) (m !! id) in <[id := (a, i64 (b + amount))]> m) m (range l2) in
  mkEarn m
    (match l1 !! myId with Some a => i64 (nodeEarnedL1 e + a) | None => nodeEarnedL1 e end)
    (match l2 !! myId with Some a => i64 (nodeEarnedFees e + a) | None => nodeEarnedFees e end).
End Pool.

(** Load in percent: the highest among the candidates the registry knows. *)
Definition networkLoadPct (candidates : list string) (reg : Registry) : Z :=
  foldl (fun loadPct id =>
    match reg !! id with
    | Some n => let pct := Z.quot (i64 (LoadScore n * 100)) ScoreScale in if loadPct <? pct then pct else loadPct
    | None => loadPct
    end) 0 candidates.

(** ** applyOperatorBlockReward

    [feeCredit] and [xpCredit] are the amounts handed to the ledger for the
    operator's wallet; [rewarded] is [operatorRewardedBlock]. *)
Record operatorReward := mkReward { feeCredit : Z; xpCredit : Z; reportXP : Z }.

Definition earnersOf (l1 l2 : gmap string Z) : gset string :=
  dom (filter (fun kv => 0 < kv.2) l1) ∪ dom (filter (fun kv => 0 < kv.2) l2).

Definition applyOperatorBlockReward (operatorWallet myId : string) (ledger : bool) (blockNumber loadPct : Z)
    (l1 l2 : gmap string Z) (reg : Registry) (rewarded : gmap Z bool) : gmap Z bool * option operatorReward :=
  if String.eqb operatorWallet "" then (rewarded, None)
  else
  let feeTotal := i64 (cnt l1 myId + cnt l2 myId) in
  if feeTotal <=? 0 then (rewarded, None)
  else if default false (rewarded !! blockNumber) then (rewarded, None)
  else
  let rewarded := <[blockNumber := true]> rewarded in
  let rewarded := if 5000 <? Z.of_nat (size rewarded) then {[blockNumber := true]} else rewarded in
  let earners := elements (earnersOf l1 l2) in
  let total := foldl (fun t id => i64 (t + weightOf reg id)) 0 earners in
  let xp := ComputeValidationXP loadPct (weightOf reg myId) total (Z.of_nat (length earners)) in
  (rewarded, Some (mkReward (if ledger then feeTotal else 0) (if ledger && (0 <? xp) then xp else 0) xp)).
