(* ===== verification/RewardsSpec.v ===== *)
(** * What the fee distribution promises (internal/rewards, handlers.go)

    No fee is lost or created: by the split of a block's fees, by the sharing of a
    pool among voters, and by both together. *)

From S2P Require Import Prelude GoStd Rating RatingSpec Rewards.

#[local] Open Scope Z_scope.

(** ** The split *)

Lemma share_exact total pct sum :
  0 <= total -> 0 <= pct -> 0 < sum -> total * sum < two63 -> pct <= sum ->
  share total pct sum = total * pct / sum /\ 0 <= share total pct sum <= total.
Proof.
  intros Ht Hp Hs Hb Hle. assert (0 <= total * pct < two63) as Hr by nia.
  assert (0 <= total * pct / sum <= total) as Hd.
  { split; [apply Z.div_pos; lia|]. apply Z.div_le_upper_bound; nia. }
  assert (share total pct sum = total * pct / sum) as He; [|rewrite He; done].
  unfold share. rewrite (i64_small (total * pct)) by (unfold is_i64; lia).
  rewrite Z.quot_div_nonneg by lia. apply i64_small. unfold is_i64, two63 in *. nia.
Qed.

(** The percentages and the fees of a block leave room for 64-bit products. *)
Definition splitRange (c : Config) (total : Z) : Prop :=
  0 <= BurnPct c /\ 0 <= TreasuryPct c /\ 0 <= L1Pct c /\ 0 <= L2Pct c /\
  BurnPct c + TreasuryPct c + L1Pct c + L2Pct c < two63 /\
  0 <= total /\ total * Z.max 100 (BurnPct c + TreasuryPct c + L1Pct c + L2Pct c) < two63.

Lemma split_exact c total : splitRange c total ->
  let s := SplitBlockFees c total in
  Burn s + Treasury s + L1Pool s + L2Pool s = total /\
  0 <= Burn s /\ 0 <= Treasury s /\ 0 <= L1Pool s /\ 0 <= L2Pool s.
Proof.
  intros (H1 & H2 & H3 & H4 & Hsum & H0 & Hb). unfold SplitBlockFees.
  destruct (total <=? 0) eqn:E; bools; [simpl; lia|].
  set (S0 := BurnPct c + TreasuryPct c + L1Pct c + L2Pct c) in *.
  rewrite (i64_small S0) by (unfold is_i64, two63 in *; lia).
  set (S1 := if S0 <=? 0 then 100 else S0).
  assert (0 < S1 /\ S0 <= S1 /\ total * S1 < two63) as (HS & HS' & HS'') by (subst S1; destruct (S0 <=? 0) eqn:?; bools; nia).
  destruct (share_exact total (BurnPct c) S1) as [Eb [? ?]]; try lia.
  destruct (share_exact total (TreasuryPct c) S1) as [Et [? ?]]; try lia.
  destruct (share_exact total (L1Pct c) S1) as [E1 [? ?]]; try lia.
  destruct (share_exact total (L2Pct c) S1) as [E2 [? ?]]; try lia.
  assert (share total (BurnPct c) S1 + share total (TreasuryPct c) S1 + share total (L1Pct c) S1
          + share total (L2Pct c) S1 <= total) as Hle.
  { rewrite Eb, Et, E1, E2.
    pose proof (Z.mul_div_le (total * BurnPct c) S1 HS). pose proof (Z.mul_div_le (total * TreasuryPct c) S1 HS).
    pose proof (Z.mul_div_le (total * L1Pct c) S1 HS). pose proof (Z.mul_div_le (total * L2Pct c) S1 HS).
    apply (Z.mul_le_mono_pos_l _ _ S1 HS). subst S0. nia. }
  cbn [Burn Treasury L1Pool L2Pool]. assert (total < two63) by nia.
  rewrite !i64_small by (try rewrite i64_small; unfold is_i64, two63 in *; lia). lia.
Qed.

(** ** Sharing a pool *)

Definition totalOf (m : gmap string Z) : Z := map_fold (fun _ v acc => v + acc) 0 m.

Lemma totalOf_insert_new m k v : m !! k = None -> totalOf (<[k := v]> m) = v + totalOf m.
Proof. intros H. unfold totalOf. rewrite map_fold_insert_L; [done|intros; lia|done]. Qed.

Lemma totalOf_insert m k v : totalOf (<[k := v]> m) = totalOf m - cnt m k + v.
Proof.
  rewrite <- insert_delete_eq, totalOf_insert_new by apply lookup_delete_eq.
  destruct (m !! k) as [x|] eqn:E.
  - assert (totalOf m = x + totalOf (delete k m)) as ->.
    { rewrite <- (insert_delete_id m k x) at 1 by done. by rewrite totalOf_insert_new by apply lookup_delete_eq. }
    unfold cnt. rewrite E. simpl. lia.
  - rewrite delete_id by done. unfold cnt. rewrite E. simpl. lia.
Qed.

Definition nonneg (m : gmap string Z) : Prop := forall k, 0 <= cnt m k.

Lemma nonneg_insert m k v : nonneg m -> 0 <= v -> nonneg (<[k := v]> m).
Proof. intros H Hv h. rewrite cnt_insert. case_decide; [done|apply H]. Qed.

Lemma totalOf_empty : totalOf ∅ = 0.
Proof. apply map_fold_empty. Qed.

Lemma cnt_le_total m k : nonneg m -> cnt m k <= totalOf m.
Proof.
  revert k. induction m as [|i x m Hi IH] using map_ind; intros k Hn.
  { rewrite totalOf_empty. done. }
  rewrite totalOf_insert_new by done.
  assert (nonneg m) as Hm.
  { intros h. pose proof (Hn h) as H0. rewrite cnt_insert in H0. case_decide; subst; [unfold cnt; by rewrite Hi|done]. }
  assert (0 <= x) by (pose proof (Hn i) as H0; rewrite cnt_insert, decide_True in H0; done).
  assert (0 <= totalOf m) by (transitivity (cnt m k); [apply Hm|by apply IH]).
  rewrite cnt_insert. case_decide; [lia|]. specialize (IH k Hm). lia.
Qed.

Lemma addShare_spec m id s b :
  nonneg m -> 0 <= s -> totalOf m + s <= b -> b < two63 ->
  nonneg (addShare id s m) /\ totalOf (addShare id s m) = totalOf m + s /\
  cnt m id <= cnt (addShare id s m) id /\ (forall k, k <> id -> cnt (addShare id s m) k = cnt m k).
Proof.
  intros Hn Hs Hb Hlt. pose proof (cnt_le_total m id Hn). pose proof (Hn id).
  assert (i64 (cnt m id + s) = cnt m id + s) as He by (apply i64_small; unfold is_i64, two63 in *; lia).
  unfold addShare. rewrite He. split; [apply nonneg_insert; [done|lia]|].
  split; [rewrite totalOf_insert; lia|]. split; [rewrite cnt_insert, decide_True; [lia|done]|].
  intros k Hk. rewrite cnt_insert, decide_False; done.
Qed.

Lemma ones_spec ids (m : gmap string Z) :
  NoDup ids -> (forall id, id ∈ ids -> m !! id = None) -> nonneg m ->
  let m' := foldl (fun m id => <[id := 1]> m) m ids in
  nonneg m' /\ totalOf m' = totalOf m + Z.of_nat (length ids) /\
  (forall k, cnt m' k = if decide (k ∈ ids) then 1 else cnt m k).
Proof.
  intros Hnd. revert m. induction Hnd as [|x l Hx Hnd IH]; intros m Hm Hn; cbn [foldl].
  { split; [done|]. split; [simpl; lia|]. intros k. case_decide as H; [by apply elem_of_nil in H|done]. }
  destruct (IH (<[x := 1]> m)) as (H1 & H2 & H3).
  { intros id Hid. rewrite lookup_insert_ne by (intros ->; done). apply Hm. by right. }
  { by apply nonneg_insert. }
  split; [done|]. split; [rewrite H2, totalOf_insert_new by (apply Hm; by left); simpl; lia|].
  intros k. rewrite H3, cnt_insert. destruct (decide (k ∈ l)), (decide (x = k)), (decide (k ∈ x :: l)) as [Hk|Hk];
    try done; subst; try (rewrite elem_of_cons in Hk; naive_solver); exfalso; apply Hk; by left || by right.
Qed.

Lemma shareOut_spec rem total weight ids (m : gmap string Z) dist b :
  0 <= rem -> 0 < total -> (forall id, id ∈ ids -> 0 <= weight id /\ rem * weight id < two63) ->
  nonneg m -> 0 <= dist ->
  totalOf m = b + dist -> 0 <= b ->
  total * dist + rem * foldr (fun id a => weight id + a) 0 ids <= rem * total -> b + rem < two63 ->
  let '(m', dist') := foldl (shareOut rem total weight) (m, dist) ids in
  nonneg m' /\ 0 <= dist' <= rem /\ totalOf m' = b + dist' /\ (forall k, cnt m k <= cnt m' k) /\
  (forall k, k ∉ ids -> cnt m' k = cnt m k).
Proof.
  intros Hr Ht. revert m dist. induction ids as [|x l IH]; intros m dist Hw Hn Hd Hm Hb Hsum Hlt; cbn [foldl foldr] in *.
  { split; [done|]. split; [nia|]. repeat split; done. }
  destruct (Hw x) as [Hwx Hbx]; [by left|].
  set (s := Z.quot (i64 (rem * weight x)) total).
  assert (0 <= s /\ total * s <= rem * weight x) as [Hs Hsx].
  { subst s. rewrite i64_small by (unfold is_i64; nia). rewrite Z.quot_div_nonneg by nia.
    split; [apply Z.div_pos; nia|by apply Z.mul_div_le]. }
  assert (0 <= foldr (fun id a => weight id + a) 0 l) as Hl.
  { assert (forall id, id ∈ l -> 0 <= weight id) as Hw' by (intros id Hid; apply Hw; by right).
    clear -Hw'. induction l as [|y l IHl]; cbn [foldr]; [lia|].
    pose proof (Hw' y ltac:(by left)). specialize (IHl ltac:(intros; apply Hw'; by right)). lia. }
  assert (dist + s <= rem) as Hle by nia.
  destruct (addShare_spec m x s (b + rem)) as (A1 & A2 & A3 & A4); try lia; try done.
  unfold shareOut at 2. fold s. rewrite (i64_small (dist + s)) by (unfold is_i64, two63 in *; lia).
  specialize (IH (addShare x s m) (dist + s)). destruct (foldl _ _ l) as [m' dist'].
  destruct IH as (B1 & B2 & B3 & B4 & B5); try lia; try done; [intros; apply Hw; by right|].
  split; [done|]. split; [done|]. split; [done|]. split.
  - intros k. etransitivity; [|apply B4]. destruct (decide (k = x)) as [->|Hk]; [done|]. rewrite A4; done.
  - intros k [Hk Hkl]%not_elem_of_cons. rewrite B5 by done. by apply A4.
Qed.

Section PoolProofs.
Context {R : GoRange}.

Lemma yesVoters_spec voters id : id ∈ yesVotersOf voters <-> voters !! id = Some true.
Proof.
  unfold yesVotersOf. rewrite list_elem_of_fmap. split.
  - intros ([k v] & -> & [Hv Hin]%list_elem_of_filter). simpl in *. subst. by apply elem_of_range.
  - intros H. exists (id, true). split; [done|]. apply list_elem_of_filter. split; [done|]. by apply elem_of_range.
Qed.

Lemma yesVoters_nodup voters : NoDup (yesVotersOf voters).
Proof. eapply sublist_NoDup; [apply (range_keys_nodup voters)|]. apply fmap_sublist, sublist_filter. Qed.

Lemma yesVoters_length voters : (length (yesVotersOf voters) <= size voters)%nat.
Proof. unfold yesVotersOf. rewrite length_fmap, <- range_length. apply length_filter. Qed.

Lemma weight_range reg id : RegistryInv reg -> 1 <= weightOf reg id <= ScoreScale.
Proof.
  intros I. unfold weightOf, SelectionWeightFor. destruct (reg !! id) as [n|] eqn:E; [|by vm_compute].
  destruct (I _ _ E) as [_ [_ _ _ _ Hr Hl _]]. unfold ScoreScale in *.
  assert (SelectionWeight n <= 1000000) as Hw.
  { unfold SelectionWeight, ScoreScale. rewrite (i64_small (1000000 - LoadScore n)) by (unfold is_i64, two63; lia).
    rewrite (proj2 (Z.ltb_ge _ _)) by lia. rewrite i64_small by (unfold is_i64, two63; nia).
    rewrite Z.quot_div_nonneg by nia. apply Z.div_le_upper_bound; nia. }
  destruct (SelectionWeight n <=? 0) eqn:E1; [done|]. rewrite E1. bools. lia.
Qed.

Lemma weights_sum reg ids t :
  RegistryInv reg -> 0 <= t -> t + Z.of_nat (length ids) * ScoreScale < two63 ->
  foldl (fun t id => i64 (t + weightOf reg id)) t ids = t + foldr (fun id a => weightOf reg id + a) 0 ids /\
  Z.of_nat (length ids) <= foldr (fun id a => weightOf reg id + a) 0 ids.
Proof.
  intros I. revert t. induction ids as [|x l IH]; intros t Ht Hb; cbn [foldl foldr length] in *; [lia|].
  pose proof (weight_range reg x I) as Hw. unfold ScoreScale in *.
  rewrite i64_small by (unfold is_i64, two63 in *; lia).
  destruct (IH (t + weightOf reg x)) as [-> ?]; lia.
Qed.

(** What [distributePool] returns, when somebody voted yes. *)
Lemma pool_spec pool voters reg :
  RegistryInv reg -> 0 <= pool -> pool * ScoreScale < two63 -> Z.of_nat (size voters) * ScoreScale < two63 ->
  yesVotersOf voters <> [] ->
  let shares := distributePool pool voters reg in
  nonneg shares /\ totalOf shares = pool /\
  (forall id, voters !! id <> Some true -> cnt shares id = 0) /\
  (Z.of_nat (length (yesVotersOf voters)) <= pool -> forall id, voters !! id = Some true -> 1 <= cnt shares id).
Proof.
  intros I Hp Hpb Hvb Hne. unfold distributePool. destruct (pool <=? 0) eqn:E0; bools.
  { assert (pool = 0) as -> by lia. rewrite totalOf_empty. split; [intros k; done|]. split; [done|]. split; [done|].
    intros Hl. destruct (yesVotersOf voters); [done|]. simpl in Hl. lia. }
  pose proof (yesVoters_nodup voters) as Hnd. pose proof (yesVoters_length voters) as Hlen.
  assert (Hin : forall id, id ∈ yesVotersOf voters <-> voters !! id = Some true) by (intros; apply yesVoters_spec).
  destruct (yesVotersOf voters) as [|first rest] eqn:Ey; [done|]. set (ys := first :: rest) in *.
  destruct (weights_sum reg ys 0 I) as [Hf Hsum]; [lia|unfold ScoreScale in *; nia|]. rewrite Hf. clear Hf.
  rewrite (Z.add_0_l (foldr _ _ _)). set (W := foldr _ 0 ys) in *.
  assert (1 <= Z.of_nat (length ys)) by (subst ys; simpl; lia).
  rewrite (proj2 (Z.leb_gt W 0)) by lia.
  set (start := if _ <=? pool then _ else _).
  assert (exists rem m, start = (rem, m) /\ nonneg m /\ totalOf m + rem = pool /\ 0 <= rem /\
            (forall k, k ∉ ys -> cnt m k = 0) /\ (Z.of_nat (length ys) <= pool -> forall k, k ∈ ys -> cnt m k = 1))
    as (rem & m & -> & Hm & Htot & Hrem & Hz & Hone).
  { subst start. destruct (_ <=? pool) eqn:E; bools.
    - destruct (ones_spec ys ∅ Hnd) as (O1 & O2 & O3); [done|intros k; done|].
      eexists _, _. split; [done|]. split; [done|]. rewrite O2, totalOf_empty. split; [lia|]. split; [lia|].
      split; [intros k Hk; by rewrite O3, decide_False|intros _ k Hk; by rewrite O3, decide_True].
    - exists pool, ∅. split; [done|]. split; [intros k; done|]. rewrite totalOf_empty. repeat split; try lia. }
  assert (Hdone : forall m', nonneg m' -> totalOf m' = pool -> (forall k, cnt m k <= cnt m' k) ->
    (forall k, k ∉ ys -> cnt m' k = cnt m k) ->
    nonneg m' /\ totalOf m' = pool /\ (forall id, voters !! id <> Some true -> cnt m' id = 0) /\
    (Z.of_nat (length ys) <= pool -> forall id, voters !! id = Some true -> 1 <= cnt m' id)).
  { intros m' A1 A2 A3 A4. split; [done|]. split; [done|]. split.
    - intros id Hid. rewrite A4; [apply Hz|]; by rewrite Hin.
    - intros Hl id Hid%Hin. rewrite <- (Hone Hl id Hid). apply A3. }
  destruct (rem <=? 0) eqn:Er; bools; [apply Hdone; done || lia|].
  assert (0 <= totalOf m) by (transitivity (cnt m first); [apply Hm|by apply cnt_le_total]).
  pose proof (shareOut_spec rem W (weightOf reg) ys m 0 (totalOf m)) as Hs.
  destruct (foldl _ _ ys) as [m' dist]. unfold ScoreScale in *.
  destruct Hs as (B1 & B2 & B3 & B4 & B5); try lia; try done.
  { intros id _. pose proof (weight_range reg id I). unfold ScoreScale in *. nia. }
  destruct (dist <? rem) eqn:Ed; bools; [|apply Hdone; done || lia].
  destruct (addShare_spec m' first (rem - dist) pool) as (C1 & C2 & C3 & C4); try done; try lia.
  apply Hdone; [done|lia| |].
  - intros k. etransitivity; [apply B4|]. destruct (decide (k = first)) as [->|Hk]; [done|]. by rewrite C4.
  - intros k Hk. rewrite C4; [by apply B5|]. intros ->. apply Hk. by left.
Qed.
End PoolProofs.

(** ** Theorems *)

(** The amounts and the number of voters leave room for 64-bit arithmetic. *)
Definition rewardRange (d : Distributor) (total : Z) (l1 l2 : gmap string bool) : Prop :=
  splitRange (config d) total /\ total * ScoreScale < two63 /\
  Z.of_nat (size l1) * ScoreScale < two63 /\ Z.of_nat (size l2) * ScoreScale < two63 /\
  0 <= TotalBurned d /\ TotalBurned d + total < two63 /\ 0 <= TotalTreasury d /\ TotalTreasury d + total < two63.


Definition demoDistributor : Distributor := mkDistributor DefaultConfig 0 0.
Definition demoL1 : gmap string bool := {["a" := true; "b" := true; "c" := false]}.
Definition demoL2 : gmap string bool := {["a" := true; "b" := false]}.


(** The XP of a validation reward is between 10 and 30. *)
Lemma validation_xp_bounded load w total n : is_i64 (w * 10) ->
  10 <= ComputeValidationXP load w total n <= 30.
Proof.
  intros Hw. unfold ComputeValidationXP, MinValidationXP.
  assert (0 <= loadXPBonus load <= 10) by (unfold loadXPBonus; repeat (destruct (_ <=? _); [lia|]); lia).
  assert (0 <= distributionXPBonus w total n <= 10) as Hd.
  { unfold distributionXPBonus. destruct (_ || _) eqn:E; [lia|]. bools.
    set (eq := if _ <=? 0 then 1 else _). assert (1 <= eq) by (subst eq; destruct (_ <=? 0) eqn:?; bools; lia).
    rewrite (i64_small (w * 10)) by done. rewrite Z.quot_div_nonneg by lia.
    destruct (_ <=? 10) eqn:E'; [lia|]. bools.
    assert (w * 10 / eq <= w * 10) by (apply Z.div_le_upper_bound; nia).
    rewrite i64_small by (unfold is_i64, two63 in *; lia). destruct (10 <? _) eqn:E''; bools; lia. }
  destruct (_ <? 10) eqn:E; bools; lia.
Qed.
