(* ===== verification/Votes.v ===== *)
(** * L1 and L2 vote rounds (handlers.go, handlers_consensus.go, nodes/identity.go)

    Signed votes, the round object of the proposer, the committee, the verdict on a
    round and its consequences for the registry. The two layers run the same code
    with their own threshold ([pct]). What is outside: Core's process
    ([ConsensusCore]), Ed25519 ([ed25519Verify], on byte strings) and the
    environment ([getenv]). *)

From S2P Require Import Prelude GoStd Dag Sha256 Rating.

#[local] Open Scope Z_scope.

(** ** nodes/identity.go *)

Definition hexValue (c : Ascii.ascii) : option Z :=
  let n := Z.of_N (Ascii.N_of_ascii c) in
  if (48 <=? n) && (n <=? 57) then Some (n - 48)
  else if (97 <=? n) && (n <=? 102) then Some (n - 87)
  else if (65 <=? n) && (n <=? 70) then Some (n - 55)
  else None.

(** [hex.DecodeString]: [None] on an odd length or a byte that is no hex digit. *)
Fixpoint DecodeString (s : string) : option (list Z) :=
  match s with
  | EmptyString => Some []
  | String a (String b s') =>
      match hexValue a, hexValue b, DecodeString s' with
      | Some x, Some y, Some l => Some (x * 16 + y :: l)
      | _, _, _ => None
      end
  | String _ EmptyString => None
  end.

Definition PublicKeySize : nat := 32.
Definition SignatureSize : nat := 64.

Definition VoteMessage (blockID : string) (yes : bool) : string :=
  "platarium-vote-v1|" +:+ (blockID +:+ ("|" +:+ (if yes then "1" else "0"))).

Section Identity.
Context (ed25519Verify : list Z -> string -> list Z -> bool) (getenv : string -> string).

Definition VerifyVoteSignature (nodeID blockID : string) (yes : bool) (pubKeyHex sigHex : string) : result unit :=
  match DecodeString pubKeyHex with
  | None => Err "invalid vote pubKey"
  | Some pub =>
      if negb (Nat.eqb (length pub) PublicKeySize) then Err "invalid vote pubKey"
      else if negb (String.eqb (EncodeToString pub) nodeID) then Err "vote nodeId/pubKey mismatch"
      else match DecodeString sigHex with
      | None => Err "invalid vote signature encoding"
      | Some sig =>
          if negb (Nat.eqb (length sig) SignatureSize) then Err "invalid vote signature encoding"
          else if ed25519Verify pub (VoteMessage blockID yes) sig then Ok ()
          else Err "vote signature verify failed"
      end
  end.

Definition RequireSignedVotes : bool :=
  let v := ToLower (TrimSpace (getenv "PLATARIUM_ALLOW_UNSIGNED_VOTES")) in
  negb (bool_decide (v ∈ ["1"; "true"; "yes"; "on"])).

(** [acceptPeerVote] (handlers.go). *)
Definition acceptPeerVote (blockId nodeId : string) (yes : bool) (pubKey signature : string) : bool :=
  if RequireSignedVotes then
    if String.eqb pubKey "" || String.eqb signature "" then false
    else is_ok (VerifyVoteSignature nodeId blockId yes pubKey signature)
  else true.
End Identity.

(** ** The round *)

Definition L1VoteThresholdPct : Z := 67.
Definition L2VoteThresholdPct : Z := 70.

(** [done] is the channel of capacity one. *)
Record voteRound := mkRound {
  vr_blockId : string;
  vr_votes : gmap string bool;
  vr_totalExpected : Z;
  vr_committee : option (gset string);
  vr_done : option bool;
  vr_closed : bool
}.

(** A non-blocking send on [done]. *)
Definition signal (v : bool) (r : voteRound) : voteRound :=
  mkRound (vr_blockId r) (vr_votes r) (vr_totalExpected r) (vr_committee r)
    (match vr_done r with None => Some v | d => d end) true.

Definition needOf (pct total : Z) : Z := (total * pct + 99) / 100.

Definition yesCount (votes : gmap string bool) : Z := Z.of_nat (size (filter (fun kv => kv.2 = true) votes)).

Definition inCommittee (r : voteRound) (nodeId : string) : bool :=
  match vr_committee r with Some c => bool_decide (nodeId ∈ c) | None => true end.

(** [onL1Vote] and [onL2Vote] once [acceptPeerVote] let the vote through. *)
Definition onVote (pct : Z) (blockId nodeId : string) (yes : bool) (round : option voteRound) (reg : Registry)
  : option voteRound * Registry :=
  match round with
  | None => (None, reg)
  | Some r =>
      if negb (String.eqb (vr_blockId r) blockId) then (round, reg)
      else if negb (inCommittee r nodeId) then (round, reg)
      else if vr_closed r then (round, reg)
      else match vr_votes r !! nodeId with
      | Some prev =>
          (round, if Bool.eqb prev yes then reg
                  else (ApplySlash nodeId SlashEquivocation (EnsureNode nodeId 0 1 reg)).1)
      | None =>
          let votes := <[nodeId := yes]> (vr_votes r) in
          let r := mkRound (vr_blockId r) votes (vr_totalExpected r) (vr_committee r) (vr_done r) false in
          let need := needOf pct (vr_totalExpected r) in
          (Some (if (need <=? yesCount votes) && (need <=? Z.of_nat (size votes)) then signal true r else r), reg)
      end
  end.

(** The goroutine that ends the round when its time is over. *)
Definition onTimeout (r : voteRound) : voteRound := if vr_closed r then r else signal false r.

(** A round as it runs: votes that arrive, signed or not, and the end of its time. *)
Inductive event :=
| EVote (blockId nodeId : string) (yes : bool) (pubKey signature : string)
| ETimeout.

Section Events.
Context (verify : list Z -> string -> list Z -> bool) (getenv : string -> string) (pct : Z).

Definition runEvent (s : voteRound * Registry) (e : event) : voteRound * Registry :=
  let '(r, reg) := s in
  match e with
  | ETimeout => (onTimeout r, reg)
  | EVote b n yes pk sig =>
      if acceptPeerVote verify getenv b n yes pk sig
      then let '(r', reg') := onVote pct b n yes (Some r) reg in (default r r', reg')
      else s
  end.

Definition runEvents (s : voteRound * Registry) (evs : list event) : voteRound * Registry := foldl runEvent s evs.
End Events.

(** Milliseconds. *)
Definition voteRoundTimeout (totalExpected : Z) : Z :=
  if totalExpected <=? 3 then 1200
  else let d := 5000 + totalExpected * 150 in if 45000 <? d then 45000 else d.

(** ** Proposal ids *)

Fixpoint Join (l : list string) (sep : string) : string :=
  match l with
  | [] => ""
  | [x] => x
  | x :: l' => x +:+ (sep +:+ Join l' sep)
  end.

Definition computeVoteBlockID (phase : string) (blockNumber : Z) (txHashes : list string) (stateRoot : string) : string :=
  sha256Hex (phase +:+ (":" +:+ (FormatInt blockNumber +:+ (":" +:+ (Join (SortStrings txHashes) "," +:+ (":" +:+ stateRoot)))))).

(** ** Core *)

Record VoteResult := mkVoteResult { Confirmed : bool; ToPenalize : list string }.

Record ConsensusCore := mkConsensusCore {
  CommitteeCount : Z -> Z -> result Z;
  CoreSelectCommittee : list (string * Z) -> string -> Z -> result (list string);
  ProcessVotes : bool -> list (string * bool) -> result (option VoteResult)
}.

(** ** The committee *)

Section Committee.
Context {G : GoRand} {R : GoRange}.
Implicit Types (core : option ConsensusCore) (reg : Registry).

Definition committeeSizeFallback (numCandidates loadPct : Z) : Z :=
  let size := numCandidates * SelectionPercentFromLoad loadPct / 100 in
  let size := if size <? 1 then 1 else size in
  let size := if (3 <=? numCandidates) && (size <? 3) then 3 else size in
  if numCandidates <? size then numCandidates else size.

Definition othersOf (myId : string) (candidates : list string) : list string :=
  filter (fun id => id <> myId) candidates.

Definition toSelectOf (committeeSize : Z) (others : list string) : Z :=
  let n := committeeSize - 1 in
  let n := if n <? 0 then 0 else n in
  if Z.of_nat (length others) <? n then Z.of_nat (length others) else n.

Definition committeeFallback (myId : string) (candidates : list string) (loadPct : Z) reg : list string :=
  let others := othersOf myId candidates in
  let n := toSelectOf (committeeSizeFallback (Z.of_nat (length candidates)) loadPct) others in
  if 0 <? n then SelectCommittee others n reg else [].

(** The members besides the proposer. *)
Definition committeeListFor core (blockId myId : string) (candidates : list string) (loadPct : Z) reg : list string :=
  match core with
  | None => committeeFallback myId candidates loadPct reg
  | Some c =>
      match CommitteeCount c (Z.of_nat (length candidates)) loadPct with
      | Err _ => committeeFallback myId candidates loadPct reg
      | Ok size =>
          let others := othersOf myId candidates in
          let n := toSelectOf size others in
          if n =? 0 then []
          else
            let weighted :=
              (fun id => let w := SelectionWeightFor id reg in (id, if w <=? 0 then 1 else w)) <$> others in
            match CoreSelectCommittee c weighted (sha256Hex blockId) n with
            | Ok l => l
            | Err _ => SelectCommittee others n reg
            end
      end
  end.

(** The round as the proposer opens it: its own vote is in, and with no peer the
    round is over at once. *)
Definition openRound core (blockId myId : string) (candidates : list string) (loadPct : Z) reg : voteRound :=
  let committee : gset string := {[myId]} ∪ list_to_set (committeeListFor core blockId myId candidates loadPct reg) in
  let total := Z.of_nat (size committee) in
  let r := mkRound blockId {[myId := true]} total (Some committee) None false in
  if total =? 1 then signal true r else r.

(** ** The verdict *)

Definition votesToCore (votes : gmap string bool) : list (string * bool) :=
  SliceStable (fun a b => str_ltb a.1 b.1) (range votes).

Definition finalizeVoteRoundWithCore core (votes : gmap string bool) (isL1 timeoutPending : bool)
  : bool * list string * bool :=
  if Nat.eqb (size votes) 0 then (false, [], false)
  else match core with
  | None => (timeoutPending, [], false)
  | Some c =>
      match ProcessVotes c isL1 (votesToCore votes) with
      | Ok (Some res) => (Confirmed res, ToPenalize res, false)
      | _ => (false, [], true)
      end
  end.

Definition soleOwnVote (totalExpected : Z) (votes : gmap string bool) (myId : string) : bool :=
  (1 <? totalExpected) && Nat.eqb (size votes) 1 && default false (votes !! myId).

Definition allowDegradedConsensus (getenv : string -> string) : bool :=
  let v := getenv "PLATARIUM_ALLOW_DEGRADED_CONSENSUS" in
  if String.eqb v "" then false else EqualFold v "1" || EqualFold v "true" || EqualFold v "yes".

Definition maybeDegradedAccept (allow accepted coreRPCFailed : bool) (totalExpected : Z) (votes : gmap string bool)
    (myId : string) : bool * bool :=
  if accepted || coreRPCFailed || negb allow then (accepted, false)
  else if soleOwnVote totalExpected votes myId then (true, true)
  else (accepted, false).

(** The lines of [l1CollectBlockRun] and [l2ConfirmBlockRun] from the end of the
    wait to [ok = accepted]: the verdict and the nodes to penalize. *)
Definition decideRound core (isL1 allow testnet : bool) (ok : bool) (myId : string) (r : voteRound)
  : bool * list string :=
  let '(accepted, toPenalize, coreRPCFailed) := finalizeVoteRoundWithCore core (vr_votes r) isL1 ok in
  let '(accepted, degraded) :=
    maybeDegradedAccept allow accepted coreRPCFailed (vr_totalExpected r) (vr_votes r) myId in
  let '(accepted, degraded) :=
    if negb accepted && testnet && soleOwnVote (vr_totalExpected r) (vr_votes r) myId then (true, true)
    else (accepted, degraded) in
  (accepted, if degraded then [] else toPenalize).

(** ** Consequences for the registry *)

Definition addVoteStats (missedNow : Z) (nodeId : string) reg : Registry :=
  let reg := EnsureNode nodeId 0 1 reg in
  match reg !! nodeId with
  | None => reg
  | Some n => SetVoteStats nodeId (i64 (MissedVotes n + missedNow)) (i64 (TotalVotes n + 1)) reg
  end.

(** [connected] are the connected nodes, used when there is no committee. *)
Definition absentees (votes : gmap string bool) (expected : list string) : list string :=
  filter (fun id => votes !! id = None) expected.

Definition expectedVoters (committee : option (gset string)) (connected : list string) : list string :=
  match committee with Some c => elements c | None => connected end.

Definition updateVoteStatsFromRound (votes : gmap string bool) (accepted : bool) (committee : option (gset string))
    (connected : list string) reg : Registry :=
  let reg := foldl (fun reg '(id, votedYes) => addVoteStats (if Bool.eqb votedYes accepted then 0 else 1) id reg)
               reg (range votes) in
  foldl (fun reg id => addVoteStats 1 id reg) reg (absentees votes (expectedVoters committee connected)).

Definition applyVoteSlashing (votes : gmap string bool) (toPenalize : list string) (committee : option (gset string)) reg
  : Registry :=
  let reg := ApplySlashBatch toPenalize SlashAgainstMajority reg in
  match committee with
  | None => reg
  | Some c => ApplySlashBatch (absentees votes (elements c)) SlashNoVote reg
  end.

Definition settleRound (r : voteRound) (accepted : bool) (toPenalize connected : list string) reg : Registry :=
  applyVoteSlashing (vr_votes r) toPenalize (vr_committee r)
    (updateVoteStatsFromRound (vr_votes r) accepted (vr_committee r) connected reg).
End Committee.
