(* ===== verification/VotesSpec.v ===== *)
(** * What a vote round promises (handlers.go, handlers_consensus.go)

    When a round is accepted, whose votes it counts, what happens when Core fails,
    and what the bookkeeping of a round can do to the nodes. *)

From S2P Require Import Prelude GoStd Dag Sha256 Rating RatingSpec Votes.

#[local] Open Scope Z_scope.

(** ** Rounds as sequences of events *)

Section Rounds.
Context (verify : list Z -> string -> list Z -> bool) (getenv : string -> string) (pct : Z).

Notation deliver := (runEvent verify getenv pct).
Notation runEvents := (runEvents verify getenv pct).

(** A vote that [evs] delivered for proposal [b] and that passed the signature check. *)
Definition authentic (evs : list event) (b id : string) (yes : bool) : Prop :=
  exists pk sig, EVote b id yes pk sig ∈ evs /\ acceptPeerVote verify getenv b id yes pk sig = true.

Record RoundInv (b myId : string) (c : gset string) (evs : list event) (r : voteRound) : Prop := {
  ri_block : vr_blockId r = b;
  ri_committee : vr_committee r = Some c;
  ri_total : vr_totalExpected r = Z.of_nat (size c);
  ri_voters : forall id yes, vr_votes r !! id = Some yes ->
    id ∈ c /\ (id = myId /\ yes = true \/ authentic evs b id yes);
  ri_done : vr_done r = Some true -> Z.of_nat (size c) * pct <= 100 * yesCount (vr_votes r);
  ri_closed : vr_closed r = true <-> is_Some (vr_done r)
}.

Lemma authentic_more evs evs' b id yes : evs ⊆ evs' -> authentic evs b id yes -> authentic evs' b id yes.
Proof. intros H (pk & sig & Hin & Ha). exists pk, sig. split; [by apply H|done]. Qed.

Lemma RoundInv_more b myId c evs evs' r : evs ⊆ evs' -> RoundInv b myId c evs r -> RoundInv b myId c evs' r.
Proof.
  intros H [I1 I2 I3 I4 I5 I6]. split; try done. intros id yes Hv. destruct (I4 _ _ Hv) as [? [?|?]];
    (split; [done|]); [by left|right; by eapply authentic_more].
Qed.

Lemma needOf_le total y : needOf pct total <= y -> total * pct <= 100 * y.
Proof. unfold needOf. intros H. pose proof (Z.mod_pos_bound (total * pct + 99) 100). pose proof (Z.div_mod (total * pct + 99) 100). lia. Qed.

Lemma signal_inv v b myId c evs r :
  vr_closed r = false -> (v = true -> Z.of_nat (size c) * pct <= 100 * yesCount (vr_votes r)) ->
  RoundInv b myId c evs r -> RoundInv b myId c evs (signal v r).
Proof.
  intros Hc Hv [I1 I2 I3 I4 I5 I6]. split; try done; simpl.
  - destruct (vr_done r) as [d|] eqn:E; [|intros [= ->]; by apply Hv].
    rewrite (proj2 I6) in Hc; [done|]. by exists d.
  - destruct (vr_done r); split; done.
Qed.

Lemma vote_inv b myId c evs r reg n yes pk sig :
  RoundInv b myId c evs r -> EVote b n yes pk sig ∈ evs -> acceptPeerVote verify getenv b n yes pk sig = true ->
  RoundInv b myId c evs (default r (onVote pct b n yes (Some r) reg).1).
Proof.
  intros I Hin Ha. pose proof I as [I1 I2 I3 I4 I5 I6]. unfold onVote. rewrite I1, String.eqb_refl. cbn [negb].
  unfold inCommittee. rewrite I2. case_bool_decide as Hc; cbn [negb]; [|exact I].
  destruct (vr_closed r) eqn:Ec; [exact I|]. destruct (vr_votes r !! n) eqn:Ev; [exact I|]. cbn [fst default].
  assert (Hd : vr_done r = None).
  { destruct (vr_done r); [|done]. assert (false = true); [apply I6; eauto|done]. }
  set (r' := mkRound _ _ _ _ _ _).
  assert (RoundInv b myId c evs r') as I'.
  { split; try done; simpl.
    - intros id y [[<- <-]|[_ Hv]]%lookup_insert_Some; [|by apply I4]. split; [done|]. right. by exists pk, sig.
    - by rewrite Hd. }
  destruct (_ && _) eqn:E; simpl; [|done]. apply signal_inv; [done| |done].
  intros _. bools. apply needOf_le. by rewrite <- I3.
Qed.

Lemma event_inv b myId c evs r reg e :
  RoundInv b myId c evs r -> e ∈ evs -> RoundInv b myId c evs (deliver (r, reg) e).1.
Proof.
  intros I He. destruct e as [b' n yes pk sig|]; cbn [runEvent].
  - destruct (acceptPeerVote _ _ b' n yes pk sig) eqn:Ea; [|done].
    destruct (decide (b' = b)) as [->|Hne].
    + pose proof (vote_inv b myId c evs r reg n yes pk sig I He Ea) as H.
      destruct (onVote _ _ _ _ _ _) as [r' reg']. done.
    + unfold onVote. rewrite (ri_block _ _ _ _ _ I), (proj2 (String.eqb_neq b b')) by done. done.
  - unfold onTimeout. cbn [fst]. destruct (vr_closed r) eqn:E; [done|]. by apply signal_inv.
Qed.

Lemma events_inv b myId c evs r reg : forall done,
  done ⊆ evs -> RoundInv b myId c evs r -> RoundInv b myId c evs (runEvents (r, reg) done).1.
Proof.
  unfold runEvents. intros l. revert r reg. induction l as [|e l IH]; intros r reg Hs I; [done|].
  cbn [foldl]. pose proof (event_inv b myId c evs r reg e I) as H.
  destruct (deliver (r, reg) e) as [r' reg']. apply IH; [set_solver|]. apply H. apply Hs. by left.
Qed.

Lemma open_inv {G : GoRand} core b myId cands load reg :
  pct <= 100 ->
  let r := openRound core b myId cands load reg in
  RoundInv b myId ({[myId]} ∪ list_to_set (committeeListFor core b myId cands load reg)) [] r.
Proof.
  intros Hp. unfold openRound. set (c := _ ∪ _ : gset string). set (r := mkRound _ _ _ _ _ _).
  assert (RoundInv b myId c [] r) as I.
  { split; try done; simpl.
    - intros id yes [<- <-]%lookup_singleton_Some. split; [set_solver|by left].
    - split; [done|]. by intros [? ?]. }
  destruct (_ =? 1) eqn:E; bools; [|done]. apply signal_inv; [done| |done].
  intros _. unfold yesCount. simpl. rewrite map_filter_singleton, decide_True by done.
  rewrite map_size_singleton. lia.
Qed.

(** Recorded votes never change. *)
Lemma event_votes_mono s e : vr_votes s.1 ⊆ vr_votes (deliver s e).1.
Proof.
  destruct s as [r reg]. destruct e as [b n yes pk sig|]; cbn [runEvent].
  - destruct (acceptPeerVote _ _ _ _ _ _ _); [|done]. unfold onVote.
    destruct (negb _); [done|]. destruct (negb _); [done|]. destruct (vr_closed r); [done|].
    destruct (vr_votes r !! n) eqn:E; [done|]. cbn. destruct (_ && _); simpl; by apply insert_subseteq.
  - unfold onTimeout. simpl. by destruct (vr_closed r).
Qed.

Lemma events_votes_mono s evs : vr_votes s.1 ⊆ vr_votes (runEvents s evs).1.
Proof.
  revert s. induction evs as [|e evs IH]; intros s; [done|]. cbn. etransitivity; [apply event_votes_mono|apply IH].
Qed.
End Rounds.

(** ** The verdict *)

(** The bytes of a 32-byte key whose hex form is the node id, and a signature that
    verifies over the vote. *)
Definition signedBy (verify : list Z -> string -> list Z -> bool) (b id : string) (yes : bool) : Prop :=
  exists pub sig, length pub = PublicKeySize /\ EncodeToString pub = id /\ verify pub (VoteMessage b yes) sig = true.

Lemma accept_signed verify getenv b id yes pk sig :
  RequireSignedVotes getenv = true -> acceptPeerVote verify getenv b id yes pk sig = true -> signedBy verify b id yes.
Proof.
  intros Hr. unfold acceptPeerVote. rewrite Hr. destruct (_ || _); [done|]. unfold VerifyVoteSignature.
  destruct (DecodeString pk) as [pub|]; [|done]. destruct (Nat.eqb (length pub) _) eqn:E1; [|done]. cbn [negb].
  destruct (String.eqb _ id) eqn:E2; [|done]. cbn [negb]. destruct (DecodeString sig) as [s|]; [|done].
  destruct (Nat.eqb (length s) _); [|done]. cbn [negb]. destruct (verify pub _ s) eqn:E3; [|done]. intros _.
  exists pub, s. split; [by apply Nat.eqb_eq|]. split; [by apply String.eqb_eq|done].
Qed.

Lemma votesToCore_perm {R : GoRange} votes : votesToCore votes ≡ₚ map_to_list votes.
Proof. unfold votesToCore. by rewrite SliceStable_perm, range_perm. Qed.

(** C8: On a node outside testnet mode with degraded consensus off, a round that the
    proposer opened and that received any messages and timeout is accepted only for
    votes that count: every vote in it is the proposer's own yes or was delivered for
    this proposal by a member of the committee and, unless unsigned votes are
    allowed, carries a signature over exactly this proposal and answer by the key
    that is the voter's id; a recorded vote is never replaced by a later one; and
    either Core, given exactly these votes, confirmed them, or there is no Core and
    at least the threshold share of the committee voted yes. *)
Theorem accepted_round_sound {G : GoRand} {R : GoRange} verify getenv pct core isL1 b myId cands load reg evs pen :
  pct <= 100 ->
  let start := (openRound core b myId cands load reg, reg) in
  let committee : gset string := {[myId]} ∪ list_to_set (committeeListFor core b myId cands load reg) in
  let r := (runEvents verify getenv pct start evs).1 in
  decideRound core isL1 false false (default false (vr_done r)) myId r = (true, pen) ->
  (forall id yes, vr_votes r !! id = Some yes -> id ∈ committee /\ (id = myId /\ yes = true \/
     exists pk sig, EVote b id yes pk sig ∈ evs /\ (RequireSignedVotes getenv = true -> signedBy verify b id yes))) /\
  (forall evs1 evs2, evs = evs1 ++ evs2 -> vr_votes (runEvents verify getenv pct start evs1).1 ⊆ vr_votes r) /\
  match core with
  | None => Z.of_nat (size committee) * pct <= 100 * yesCount (vr_votes r)
  | Some c => exists votes res, votes ≡ₚ map_to_list (vr_votes r) /\
      ProcessVotes c isL1 votes = Ok (Some res) /\ Confirmed res = true /\ pen = ToPenalize res
  end.
Proof.
  intros Hp start committee r Hd.
  assert (RoundInv verify getenv pct b myId committee evs r) as I.
  { apply events_inv; [done|]. eapply RoundInv_more; [|by apply open_inv]. set_solver. }
  split; [|split].
  - intros id yes Hv. destruct (ri_voters _ _ _ _ _ _ _ _ I _ _ Hv) as [Hc [Hm|(pk & sig & Hin & Ha)]];
      (split; [done|]); [by left|right]. exists pk, sig. split; [done|]. intros Hs. by eapply accept_signed.
  - intros evs1 evs2 ->. unfold r, runEvents. rewrite foldl_app. apply events_votes_mono.
  - unfold decideRound, finalizeVoteRoundWithCore in Hd.
    destruct (Nat.eqb (size (vr_votes r)) 0); [done|]. destruct core as [c|].
    + destruct (ProcessVotes c isL1 _) as [[res|]|] eqn:E; try done.
      exists (votesToCore (vr_votes r)), res. split; [apply votesToCore_perm|]. split; [done|].
      unfold maybeDegradedAccept in Hd. rewrite orb_true_r in Hd. cbn in Hd. destruct (Confirmed res); simpl in Hd; [|done].
      by injection Hd as <-.
    + apply (ri_done _ _ _ _ _ _ _ _ I). unfold maybeDegradedAccept in Hd. rewrite orb_true_r in Hd. cbn in Hd.
      destruct (vr_done r) as [[]|]; try done.
Qed.

(** When Core cannot process the votes of a round, the round is rejected whatever
    the degraded-consensus setting, except in testnet mode, where a round in which
    only the proposer voted and peers were expected is accepted all the same; nobody
    is penalized. *)
Theorem core_failure_verdict {R : GoRange} c isL1 allow testnet ok myId r :
  (match ProcessVotes c isL1 (votesToCore (vr_votes r)) with Ok (Some _) => False | _ => True end) ->
  decideRound (Some c) isL1 allow testnet ok myId r =
    (testnet && soleOwnVote (vr_totalExpected r) (vr_votes r) myId, []).
Proof.
  intros Hf. unfold decideRound, finalizeVoteRoundWithCore, maybeDegradedAccept.
  destruct (Nat.eqb (size (vr_votes r)) 0) eqn:E.
  - assert (soleOwnVote (vr_totalExpected r) (vr_votes r) myId = false) as Hs.
    { unfold soleOwnVote. apply Nat.eqb_eq in E. rewrite E. by rewrite andb_false_r. }
    cbn. destruct (negb allow); rewrite ?Hs, ?andb_false_r; done.
  - destruct (ProcessVotes c isL1 _) as [[res|]|]; try done; cbn; destruct (testnet && _); done.
Qed.

(** ** What a round does to its voters *)

(** A node with perfect uptime and latency, active, with at most [k] votes. *)
Definition steady (k : Z) (n : NodeScores) : Prop :=
  ScoresInv n /\ UptimeScore n = ScoreScale /\ LatencyScore n = ScoreScale /\
  Status n = NodeStatusActive /\ TotalVotes n <= k.

(** Nodes of [hi] have more than half of the top reputation, and those of [late]
    have [k + 1] votes at most, the others [k]. *)
Definition stage (k : Z) (late hi : gset string) (reg : Registry) : Prop :=
  forall id n, reg !! id = Some n ->
    NodeID n = id /\ steady (if decide (id ∈ late) then k + 1 else k) n /\ (id ∈ hi -> 500000 <= ReputationScore n).

Lemma steady_high k m n :
  ScoresInv n -> UptimeScore n = ScoreScale -> LatencyScore n = ScoreScale -> Status n = NodeStatusActive ->
  TotalVotes n <= k -> steady k (ComputeReputation m n) /\ 500000 <= ReputationScore (ComputeReputation m n).
Proof.
  intros [I1 I2 [I3 I3'] I4 I5 I6 I7] Hu Hl Hs Ht. split.
  - split; [by apply ComputeReputation_inv|done].
  - rewrite reputation_mean by (done || lia). rewrite Hu, Hl. unfold ScoreScale.
    pose proof (accuracy_bounds n I3 I3'). pose proof (stakeWeight_bounds m (Stake n) ltac:(lia)).
    apply Z.div_le_lower_bound; lia.
Qed.

Lemma fresh_steady k id cap : 0 <= k ->
  NodeID (freshNode id 0 cap) = id /\ steady k (freshNode id 0 cap) /\ 500000 <= ReputationScore (freshNode id 0 cap).
Proof.
  intros Hk. split; [done|]. split; [|by vm_compute].
  split; [apply freshNode_inv; unfold scoreBound; lia|]. repeat split. simpl. lia.
Qed.

Lemma stage_insert k late hi reg id n late' hi' :
  stage k late hi reg -> NodeID n = id -> late ⊆ late' -> hi' ⊆ {[id]} ∪ hi ->
  steady (if decide (id ∈ late') then k + 1 else k) n -> (id ∈ hi' -> 500000 <= ReputationScore n) ->
  stage k late' hi' (<[id := n]> reg).
Proof.
  intros S Hid Hl Hh Hn Hr k' n' [[<- <-]|[Hne Hk]]%lookup_insert_Some; [done|].
  destruct (S _ _ Hk) as (H1 & H2 & H3). split; [done|]. split; [|intros ?; apply H3; set_solver].
  destruct H2 as (A & B & C & D & E). repeat split; try done; try apply A.
  destruct (decide (k' ∈ late)), (decide (k' ∈ late')); try lia. set_solver.
Qed.

Lemma ensure_stage k late hi reg id :
  0 <= k -> id ∉ late -> stage k late hi reg ->
  stage k late hi (EnsureNode id 0 1 reg) /\ exists n, EnsureNode id 0 1 reg !! id = Some n.
Proof.
  intros Hk Hl S. unfold EnsureNode. destruct (reg !! id) as [n|] eqn:E; [split; [done|by exists n]|].
  destruct (fresh_steady k id 1 Hk) as (F1 & F2 & F3). split; [|eexists; apply lookup_insert_eq].
  apply (stage_insert k late hi); try done; [set_solver|]. by rewrite decide_False.
Qed.

Lemma addVoteStats_stage k late hi reg id miss :
  0 <= k < scoreBound -> 0 <= miss <= 1 -> id ∉ late -> stage k late hi reg ->
  stage k ({[id]} ∪ late) ({[id]} ∪ hi) (addVoteStats miss id reg).
Proof.
  intros Hk Hm Hl S. unfold addVoteStats.
  destruct (ensure_stage k late hi reg id) as [S' [n Hn]]; [lia|done|done|]. rewrite Hn.
  destruct (S' _ _ Hn) as (Hid & (I & Hu & Hlat & Hst & Ht) & _). rewrite decide_False in Ht by done.
  pose proof I as [I1 I2 [I3 I3'] I4 I5 I6 I7]. unfold scoreBound in *.
  rewrite !i64_small by (unfold is_i64, two63; lia). unfold SetVoteStats. rewrite Hn.
  rewrite (proj2 (Z.ltb_ge (MissedVotes n + miss) 0)) by lia.
  rewrite (proj2 (Z.ltb_ge (TotalVotes n + 1) _)) by lia.
  match goal with |- context [ComputeReputation ?m ?x] => destruct (steady_high (k + 1) m x) as [Hst' Hrep]; simpl; try done; try lia end.
  { split; simpl; try done; unfold scoreBound; lia. }
  apply (stage_insert k late hi); try done; [set_solver|]. rewrite decide_True by set_solver. done.
Qed.

Lemma foldl_stage {A} (f : Registry -> A -> Registry) (key : A -> string) k l late hi reg :
  (forall reg a late hi, key a ∉ late -> stage k late hi reg -> stage k ({[key a]} ∪ late) ({[key a]} ∪ hi) (f reg a)) ->
  NoDup (key <$> l) -> (forall a, a ∈ l -> key a ∉ late) -> stage k late hi reg ->
  stage k (list_to_set (key <$> l) ∪ late) (list_to_set (key <$> l) ∪ hi) (foldl f reg l).
Proof.
  intros Hf. revert late hi reg. induction l as [|a l IH]; intros late hi reg Hnd Hd S.
  { rewrite fmap_nil, list_to_set_nil, !(left_id_L ∅ (∪)). done. }
  rewrite fmap_cons in *. apply NoDup_cons in Hnd as [Ha Hnd]. rewrite list_to_set_cons. cbn [foldl].
  replace ({[key a]} ∪ list_to_set (key <$> l) ∪ late) with (list_to_set (key <$> l) ∪ ({[key a]} ∪ late)) by set_solver.
  replace ({[key a]} ∪ list_to_set (key <$> l) ∪ hi) with (list_to_set (key <$> l) ∪ ({[key a]} ∪ hi)) by set_solver.
  apply IH; [done| |by apply Hf; [apply Hd; left|]].
  intros x Hx [Hk%elem_of_singleton|Hk]%elem_of_union; [|by apply (Hd x); [right|]].
  apply Ha. rewrite <- Hk. apply list_elem_of_fmap. by exists x.
Qed.

Lemma absentees_spec votes l id : id ∈ absentees votes l <-> votes !! id = None /\ id ∈ l.
Proof. unfold absentees. by rewrite list_elem_of_filter. Qed.

(** After the vote statistics of a round. *)
Lemma stats_stage {R : GoRange} k votes accepted c connected reg :
  0 <= k < scoreBound -> stage k ∅ ∅ reg ->
  let touched := list_to_set (absentees votes (elements c)) ∪ (list_to_set (range votes).*1 ∪ ∅) in
  stage k touched touched (updateVoteStatsFromRound votes accepted (Some c) connected reg).
Proof.
  intros Hk S touched. unfold updateVoteStatsFromRound. cbn [expectedVoters].
  assert (Hab : list_to_set (absentees votes (elements c)) = (list_to_set (id <$> absentees votes (elements c)) : gset string))
    by by rewrite list_fmap_id.
  unfold touched. rewrite Hab. apply foldl_stage.
  - intros r a late hi Ha Hs. apply addVoteStats_stage; [done|lia|done|done].
  - rewrite list_fmap_id. apply NoDup_filter, NoDup_elements.
  - intros a [Hn _]%absentees_spec. rewrite elem_of_union, elem_of_list_to_set, elem_of_empty.
    intros [([x y] & Hxy & Hx%elem_of_range)%list_elem_of_fmap|?]; [|done]. simpl in Hxy. subst x. unfold id in Hx. congruence.
  - apply (foldl_stage _ fst); [|apply range_keys_nodup|set_solver|done].
    intros r [x y] late hi Hx Hs. apply addVoteStats_stage; [done| |done|done]. destruct (Bool.eqb _ _); lia.
Qed.

Lemma slashOne_stage k late hi reg id reason :
  0 <= k -> reputationPenaltyFor reason <= 30000 -> id ∈ hi -> stage k late hi reg ->
  stage k late (hi ∖ {[id]}) (slashOne reason reg id).
Proof.
  intros Hk Hp Hid S. unfold slashOne.
  assert (Hweak : forall reg, stage k late hi reg -> stage k late (hi ∖ {[id]}) reg).
  { intros r Sr x n Hx. destruct (Sr _ _ Hx) as (? & ? & H3). split; [done|]. split; [done|]. intros Hx'. apply H3. set_solver. }
  destruct (String.eqb id ""); [by apply Hweak|].
  assert (exists n reg', match reg !! id with Some _ => reg | None => <[id := freshNode id 0 1]> reg end = reg' /\
            reg' !! id = Some n /\ stage k late hi reg') as (n & reg' & -> & Hn & S').
  { destruct (reg !! id) as [n|] eqn:E; [by exists n, reg|].
    exists (freshNode id 0 1), (<[id := freshNode id 0 1]> reg). split; [done|]. split; [apply lookup_insert_eq|].
    apply (stage_insert k late hi); try done; [set_solver|].
    apply fresh_steady. destruct (decide _); lia. }
  destruct (S' _ _ Hn) as (Hnid & (I & Hu & Hlat & Hst & Ht) & Hrep). specialize (Hrep Hid).
  destruct (slashNode_exact reason n I) as (Er & Ek & Es). unfold ApplySlash. rewrite Hn. cbn [fst].
  apply (stage_insert k late hi); [done|done|done|set_solver| |set_solver].
  split; [by apply slashNode_inv|]. repeat split; try done.
  rewrite Es, (proj2 (Z.ltb_ge _ _)); [done|]. unfold SuspensionThreshold. lia.
Qed.

Lemma slashBatch_stage k late hi reg ids reason :
  0 <= k -> reputationPenaltyFor reason <= 30000 -> NoDup ids -> list_to_set ids ⊆ hi -> stage k late hi reg ->
  stage k late (hi ∖ list_to_set ids) (ApplySlashBatch ids reason reg).
Proof.
  intros Hk Hp Hnd. unfold ApplySlashBatch. revert hi reg.
  induction Hnd as [|x l Hx Hnd IH]; intros hi reg Hs S; cbn [foldl list_to_set].
  { replace (hi ∖ ∅) with hi by set_solver. done. }
  rewrite list_to_set_cons in *. replace (hi ∖ ({[x]} ∪ list_to_set l)) with ((hi ∖ {[x]}) ∖ list_to_set l) by set_solver.
  apply IH; [set_solver|]. apply slashOne_stage; [done|done|set_solver|done].
Qed.

Lemma settle_stage {R : GoRange} k r c accepted pen connected reg :
  0 <= k < scoreBound -> vr_committee r = Some c -> NoDup pen ->
  (forall id, id ∈ pen -> is_Some (vr_votes r !! id)) -> stage k ∅ ∅ reg ->
  stage (k + 1) ∅ ∅ (settleRound r accepted pen connected reg).
Proof.
  intros Hk Hc Hnd Hpen S. unfold settleRound, applyVoteSlashing. rewrite Hc.
  pose proof (stats_stage k (vr_votes r) accepted c connected reg Hk S) as S1. cbv zeta in S1.
  set (abs := absentees (vr_votes r) (elements c)) in *.
  set (touched := list_to_set abs ∪ (list_to_set (range (vr_votes r)).*1 ∪ ∅) : gset string) in *.
  assert (Hps : list_to_set pen ⊆ touched).
  { intros id [y Hy]%elem_of_list_to_set%Hpen. unfold touched. apply elem_of_union_r, elem_of_union_l, elem_of_list_to_set.
    apply list_elem_of_fmap. exists (id, y). split; [done|]. by apply elem_of_range. }
  apply (slashBatch_stage k touched _ _ pen SlashAgainstMajority) in S1; [|lia|by vm_compute|done|done].
  apply (slashBatch_stage k touched _ _ abs SlashNoVote) in S1; [|lia|by vm_compute|apply NoDup_filter, NoDup_elements|].
  - intros id n Hn. destruct (S1 _ _ Hn) as (H1 & (A & B & C & D & E) & _). split; [done|]. split; [|set_solver].
    repeat split; try done; try apply A. rewrite decide_False by set_solver. destruct (decide _); lia.
  - intros id Hid. apply elem_of_difference. split; [set_solver|].
    rewrite elem_of_list_to_set in Hid |- *. intros Hp. apply absentees_spec in Hid as [Hn _]. apply Hpen in Hp as [? ?]. congruence.
Qed.

(** One settled round: the round, its verdict, the nodes to penalize, the connected nodes. *)
Definition settledRound : Type := voteRound * bool * list string * list string.

Definition settleAll {R : GoRange} (reg : Registry) (l : list settledRound) : Registry :=
  foldl (fun reg '(r, accepted, pen, connected) => settleRound r accepted pen connected reg) reg l.

Definition round_ok (x : settledRound) : Prop :=
  let '(r, _, pen, _) := x in
  is_Some (vr_committee r) /\ NoDup pen /\ forall id, id ∈ pen -> is_Some (vr_votes r !! id).

(** The bookkeeping of vote rounds alone never suspends a node: however many
    rounds are settled, with any votes, verdicts and committees, where each round
    penalizes distinct voters, a registry that starts empty has only active nodes.
    The penalty for missing a vote or voting against the majority is taken from a
    reputation that the same round has just recomputed from scratch, so penalties
    do not add up from round to round. *)
Theorem rounds_never_suspend {R : GoRange} (l : list settledRound) :
  Forall round_ok l -> Z.of_nat (length l) <= scoreBound ->
  forall id n, settleAll NewRegistry l !! id = Some n -> Status n = NodeStatusActive.
Proof.
  intros Hok Hlen. assert (stage (Z.of_nat (length l)) ∅ ∅ (settleAll NewRegistry l)) as S.
  { assert (forall k reg, 0 <= k -> k + Z.of_nat (length l) <= scoreBound -> stage k ∅ ∅ reg ->
      stage (k + Z.of_nat (length l)) ∅ ∅ (settleAll reg l)) as H.
    { clear Hlen. induction Hok as [|[[[r a] pen] conn] l (Hc & Hnd & Hp) _ IH]; intros k reg Hk Hb Hst;
        [by rewrite Z.add_0_r|]. cbn [length settleAll foldl] in *. destruct Hc as [c Hc].
      replace (k + Z.of_nat (S (length l))) with (k + 1 + Z.of_nat (length l)) by lia.
      apply IH; [lia|lia|]. apply (settle_stage k r c); try done; lia. }
    apply (H 0); [lia|lia|]. intros id n Hn. unfold NewRegistry in Hn. by rewrite lookup_empty in Hn. }
  intros id n Hn. by destruct (S _ _ Hn) as (_ & (_ & _ & _ & ? & _) & _).
Qed.

(** ** Witnesses *)

Definition demoCore (confirmed : bool) : ConsensusCore :=
  mkConsensusCore (fun n _ => Ok n) (fun l _ _ => Ok l.*1) (fun _ _ => Ok (Some (mkVoteResult confirmed []))).

Definition brokenCore : ConsensusCore :=
  mkConsensusCore (fun n _ => Ok n) (fun l _ _ => Ok l.*1) (fun _ _ => Err "rpc").

Definition demoEnv (k : string) : string := if String.eqb k "PLATARIUM_ALLOW_UNSIGNED_VOTES" then "1" else "".

Definition demoEvents : list event :=
  [EVote "blk" "peer1" true "" ""; EVote "blk" "outsider" true "" ""; EVote "blk" "peer2" true "" ""; ETimeout].

Definition demoRound : voteRound :=
  (runEvents (fun _ _ _ => true) demoEnv L1VoteThresholdPct
     (@openRound zero_rand None "blk" "me" ["me"; "peer1"; "peer2"] 0 NewRegistry, NewRegistry) demoEvents).1.

Lemma accepted_round_sound_witness :
  yesCount (vr_votes demoRound) = 3 /\
  Z.of_nat (size ({[ "me" ]} ∪ list_to_set (@committeeListFor zero_rand None "blk" "me" ["me"; "peer1"; "peer2"] 0 NewRegistry)
                  : gset string)) * L1VoteThresholdPct <= 100 * yesCount (vr_votes demoRound).
Proof.
  split; [vm_compute; reflexivity|].
  apply (@accepted_round_sound zero_rand canonical_range (fun _ _ _ => true) demoEnv L1VoteThresholdPct None true "blk" "me"
           ["me"; "peer1"; "peer2"] 0 NewRegistry demoEvents []).
  - apply Z.leb_le. vm_compute. reflexivity.
  - vm_compute. reflexivity.
Defined.

Definition lonelyRound : voteRound := mkRound "blk" {["me" := true]} 3 (Some {["me"; "peer1"; "peer2"]}) (Some false) true.

Lemma core_failure_verdict_witness :
  @decideRound canonical_range (Some brokenCore) true true false false "me" lonelyRound = (false, []) /\
  @decideRound canonical_range (Some brokenCore) true false true false "me" lonelyRound = (true, []).
Proof.
  split.
  - rewrite (@core_failure_verdict canonical_range brokenCore true true false false "me" lonelyRound); [|vm_compute; exact Logic.I].
    vm_compute. reflexivity.
  - rewrite (@core_failure_verdict canonical_range brokenCore true false true false "me" lonelyRound); [|vm_compute; exact Logic.I].
    vm_compute. reflexivity.
Defined.

(** Twenty rounds in which peer1 never votes. *)
Definition demoSettled : list settledRound := replicate 20 (lonelyRound, true, [], []).

Lemma rounds_never_suspend_witness :
  (ReputationScore <$> @settleAll canonical_range NewRegistry demoSettled !! "peer1") = Some 680000 /\
  (forall n, @settleAll canonical_range NewRegistry demoSettled !! "peer1" = Some n -> Status n = NodeStatusActive).
Proof.
  split; [vm_compute; reflexivity|]. intros n Hn.
  apply (@rounds_never_suspend canonical_range demoSettled) with "peer1"; [| |exact Hn].
  - unfold demoSettled. apply Forall_replicate. split; [eexists; reflexivity|].
    split; [apply NoDup_nil_2|]. intros id Hin. exfalso. exact (not_elem_of_nil id Hin).
  - apply Z.leb_le. vm_compute. reflexivity.
Defined.
