(* ===== verification/L1Validate.v ===== *)
(** * L1 validation of a transaction set (handlers_consensus.go, core/consensus.go)

    [validateTxsForL1] and the readers of Core's error texts it uses. [L1Core] is
    Core: its verdicts on a set and on a single transaction, at one state of the
    ledger. *)

From S2P Require Import Prelude GoStd Dag Tx.

#[local] Open Scope Z_scope.

(** ** fmt.Sscanf on the two formats the code uses

    A blank of the format needs a blank of the input; [%d] skips blanks and reads
    a signed 64-bit number; input after the last verb is ignored. Blanks are the
    ASCII ones except the line feed. *)

Inductive fmtItem := FLit (s : string) | FSpace | FInt.

Definition isBlank (c : Ascii.ascii) : bool :=
  let n := Ascii.N_of_ascii c in ((n =? 9) || (n =? 11) || (n =? 12) || (n =? 13) || (n =? 32))%N.

Fixpoint skipBlanks (s : string) : string :=
  match s with String c s' => if isBlank c then skipBlanks s' else s | EmptyString => s end.

Fixpoint takeDigits (s : string) : string * string :=
  match s with
  | String c s' => if digit c then let '(d, r) := takeDigits s' in (String c d, r) else (EmptyString, s)
  | EmptyString => (EmptyString, s)
  end.

Definition scanInt (s : string) : option (Z * string) :=
  let s := skipBlanks s in
  let '(neg, body) := split_sign s in
  let '(ds, rest) := takeDigits body in
  match parse_digits ds with
  | None => None
  | Some n =>
      let v := if neg : bool then - n else n in
      if (minInt64 <=? v) && (v <=? maxInt64) then Some (v, rest) else None
  end.

Fixpoint Sscanf (fmt : list fmtItem) (s : string) : option (list Z) :=
  match fmt with
  | [] => Some []
  | FLit l :: fmt' => if HasPrefix s l then Sscanf fmt' (str_drop (String.length l) s) else None
  | FSpace :: fmt' =>
      match s with
      | EmptyString => Sscanf fmt' s
      | String c _ => if isBlank c then Sscanf fmt' (skipBlanks s) else None
      end
  | FInt :: fmt' =>
      match scanInt s with
      | Some (v, rest) => cons v <$> Sscanf fmt' rest
      | None => None
      end
  end.

Definition fmtExpected : list fmtItem :=
  [FLit "expected"; FSpace; FInt; FLit ","; FSpace; FLit "got"; FSpace; FInt].
Definition fmtInvalidNonce : list fmtItem := FLit "invalid" :: FSpace :: FLit "nonce:" :: FSpace :: fmtExpected.

(** ** Reading Core's errors *)

Definition isPermanentMempoolInvalid (errMsg : string) : bool :=
  let msg := ToLower errMsg in
  if String.eqb msg "" then true
  else if HasPrefix msg "l1 verification failed for tx " && negb (Contains msg "signature")
          && negb (Contains msg "nonce") && negb (Contains msg "balance") then false
  else if Contains msg "nonce" then
    match Sscanf fmtInvalidNonce msg with
    | Some [expected; got] => negb (expected <? got)
    | _ =>
        let reExp := Index msg "expected " in
        let reGot := Index msg "got " in
        if (0 <=? reExp) && (reExp <? reGot) then
          match Sscanf fmtExpected (str_drop (Z.to_nat reExp) msg) with
          | Some [expected; got] => negb (expected <? got)
          | _ => true
          end
        else true
    end
  else true.

Definition firstNonEmpty (vals : list string) : string :=
  default "" (head (filter (fun v => TrimSpace v <> "") vals)).

(** [strings.IndexAny] followed by the cut: the part before the first byte of [cut]. *)
Fixpoint untilAny (cut : list Ascii.ascii) (s : string) : string :=
  match s with
  | EmptyString => EmptyString
  | String c s' => if bool_decide (c ∈ cut) then EmptyString else String c (untilAny cut s')
  end.

Definition blanks : list Ascii.ascii := Ascii.ascii_of_N <$> [32; 9; 10; 13]%N.
Definition comma : Ascii.ascii := Ascii.ascii_of_N 44.
Definition semicolon : Ascii.ascii := Ascii.ascii_of_N 59.

Definition l1FailedPrefix : string := "L1 verification failed for tx ".

Definition extractFailedTxHash (msg : string) : string :=
  let idx := Index msg l1FailedPrefix in
  if idx <? 0 then ""
  else
    let hash := TrimSpace (str_drop (Z.to_nat idx + String.length l1FailedPrefix) msg) in
    let hash := untilAny (blanks ++ [comma; semicolon]) hash in
    if len hash <? 16 then "" else hash.

(** ** core/consensus.go *)

Record L1TxVerifyResult := mkTxResult { vr_Hash : string; vr_Valid : bool; vr_Error : string }.

Record L1VerifyResult := mkVerify { lv_Valid : bool; lv_Error : string; lv_TxResults : list L1TxVerifyResult }.

Record L1Core := mkL1Core {
  ExecL1Verify : list coreJSON -> result L1VerifyResult;
  ValidateTx : coreJSON -> result unit
}.

(** [L1VerifyTxs]: the result, when there is one, and the error, when there is one. *)
Definition L1VerifyTxs (c : L1Core) (txs : list coreJSON) : option L1VerifyResult * option string :=
  match ExecL1Verify c txs with
  | Err e => (None, Some e)
  | Ok out =>
      if lv_Valid out then (Some out, None)
      else (Some out, Some (if String.eqb (lv_Error out) "" then "L1 verification failed" else lv_Error out))
  end.

(** ** validateTxsForL1 *)

Notation txptr := (option Transaction).

Definition fromFaucet (p : txptr) : bool := match p with Some tx => String.eqb (tx_From tx) FaucetAddress | None => false end.

Record l1ValidateOutcome := mkOutcome {
  oc_OK : bool; oc_Err : string; oc_InvalidHashes : list string; oc_ValidTxs : list txptr
}.

(** [txsToCoreJSONArray], before the rendering: nil and faucet entries are left out. *)
Fixpoint txsToCoreJSONArray (txs : list txptr) : option (list coreJSON) :=
  match txs with
  | [] => Some []
  | p :: txs' =>
      match p with
      | None => txsToCoreJSONArray txs'
      | Some _ =>
          if fromFaucet p then txsToCoreJSONArray txs'
          else match ToCoreJSON p with
          | None => None
          | Some j => cons j <$> txsToCoreJSONArray txs'
          end
      end
  end.

Definition coreCompatible (p : txptr) : bool :=
  match p with Some _ => fromFaucet p || bool_decide (is_Some (ToCoreJSON p)) | None => false end.

Definition hashOf (p : txptr) : string := match p with Some tx => tx_Hash tx | None => "" end.

Definition isSome (p : txptr) : bool := match p with Some _ => true | None => false end.

Definition incompatible (txs : list txptr) : l1ValidateOutcome :=
  let bad := hashOf <$> filter (fun p => isSome p && negb (coreCompatible p) = true) txs in
  match bad with
  | [] => mkOutcome false "transactions not Core-compatible" [] []
  | _ => mkOutcome false "transactions not Core-compatible" bad (filter (fun p => coreCompatible p = true) txs)
  end.

(** The outcome from Core's per-transaction results. *)
Definition fromTxResults (txs : list txptr) (res : L1VerifyResult) (err : option string) : l1ValidateOutcome :=
  let invalid := vr_Hash <$> filter (fun tr => negb (vr_Valid tr) && nonEmpty (vr_Hash tr)
                                               && isPermanentMempoolInvalid (vr_Error tr) = true) (lv_TxResults res) in
  let validSet : gset string := list_to_set (vr_Hash <$> filter (fun tr => vr_Valid tr = true) (lv_TxResults res)) in
  let good := filter (fun p => isSome p && (fromFaucet p || bool_decide (hashOf p ∈ validSet)) = true) txs in
  let failed := match err with Some _ => true | None => false end in
  if negb (bool_decide (invalid = [])) || (failed && negb (lv_Valid res) && bool_decide (good = [])) then
    mkOutcome false
      (match err with
       | Some e => e
       | None => if String.eqb (lv_Error res) "" then "L1 verification failed" else lv_Error res
       end) invalid good
  else if lv_Valid res && bool_decide (invalid = []) then mkOutcome true "" [] good
  else if negb (bool_decide (good = [])) then mkOutcome true "" [] good
  else mkOutcome false (firstNonEmpty [lv_Error res; "L1 verification failed"]) invalid good.

(** The transactions before [tx] (by identity) and before any nil entry. *)
Fixpoint goodBefore (tx : Transaction) (txs : list txptr) : list txptr :=
  match txs with
  | Some t :: txs' => if bool_decide (tx_ref t = tx_ref tx) then [] else Some t :: goodBefore tx txs'
  | _ => []
  end.

(** The loop without Core's batch command: one [ValidateTx] after the other. *)
Fixpoint validateEach (c : L1Core) (all rest : list txptr) : l1ValidateOutcome :=
  match rest with
  | [] => mkOutcome true "" [] all
  | p :: rest' =>
      match p with
      | None => validateEach c all rest'
      | Some tx =>
          if fromFaucet p then validateEach c all rest'
          else match ToCoreJSON p with
          | None => mkOutcome false "transaction not Core-compatible" [tx_Hash tx] []
          | Some j =>
              match ValidateTx c j with
              | Ok _ => validateEach c all rest'
              | Err e =>
                  if negb (isPermanentMempoolInvalid e) then
                    let good := goodBefore tx all in
                    if negb (bool_decide (good = [])) then mkOutcome true "" [] good
                    else mkOutcome false e [] []
                  else mkOutcome false e [tx_Hash tx] []
              end
          end
      end
  end.

(** [ledger] and [rust] tell whether the ledger and Core's process are there. *)
Definition validateTxsForL1 (c : L1Core) (ledger rust : bool) (txs : list txptr) : l1ValidateOutcome :=
  match txs with
  | [] => mkOutcome false "empty transaction set" [] []
  | _ =>
      if negb ledger then mkOutcome false "core ledger unavailable" [] []
      else match txsToCoreJSONArray txs with
      | None => incompatible txs
      | Some [] => mkOutcome true "" [] txs
      | Some js =>
          if rust then
            let '(res, err) := L1VerifyTxs c js in
            match res with
            | Some ((mkVerify _ _ (_ :: _)) as r) => fromTxResults txs r err
            | _ =>
                match err with
                | Some e =>
                    let hash := extractFailedTxHash e in
                    if negb (String.eqb hash "") then mkOutcome false e [hash] []
                    else mkOutcome false e [] []
                | None => mkOutcome true "" [] txs
                end
            end
          else validateEach c txs txs
      end
  end.

Example perm1 : isPermanentMempoolInvalid "invalid nonce: expected 3, got 5" = false.
Proof. vm_compute. reflexivity. Qed.

Example perm2 : isPermanentMempoolInvalid "invalid nonce: expected 5, got 3" = true.
Proof. vm_compute. reflexivity. Qed.

Example perm3 : isPermanentMempoolInvalid "Apply failed: Invalid nonce - expected 5, got 9" = false.
Proof. vm_compute. reflexivity. Qed.

Example hash1 :
  extractFailedTxHash "L1 verification failed for tx 0123456789abcdef0123456789abcdef, bad" = "0123456789abcdef0123456789abcdef".
Proof. vm_compute. reflexivity. Qed.
