(* ===== verification/Consensus.v ===== *)
(** * Block production: l1CollectBlockRun and l2ConfirmBlockRun (handlers.go, block_logic.go)

    The whole L1 and L2 handlers on top of the pools (Chain, Mempool), the vote
    rounds (Votes), the confirm boundary (Confirm, Boundary) and the rewards
    (Rewards). [ConsState] is the part of [Handler] they change besides the chain.
    A round lasts: [evs] are the votes and the timeout it receives, [meanwhile] what
    other handlers do to the chain until its end. The handler's own fields are taken
    as not written by others during a run (the results of other nodes' rounds, which
    [onL1VoteResult] stores, arrive before or after it). *)

From S2P Require Import Prelude GoStd Dag Tx ForkChoice Chain Confirm History TxPool Boundary Mempool Sha256.
From S2P Require Import Rating Rewards L1Validate Votes.

#[local] Open Scope Z_scope.

Record ConsState := mkCons {
  cs_reg : Registry;
  cs_lastL1Votes : gmap string bool; cs_lastL1Accepted : bool;
  cs_lastL2Votes : gmap string bool; cs_lastL2Accepted : bool;
  cs_beneficiary : string;
  cs_dist : Distributor;
  cs_earn : Earnings;
  cs_rewarded : gmap Z bool
}.

(** The node's surroundings during a round. *)
Record RoundEnv := mkRoundEnv {
  re_myId : string;
  re_peers : list string;
  re_connected : list string;
  re_core : option ConsensusCore;
  re_testnet : bool;
  re_getenv : string -> string;
  re_verify : list Z -> string -> list Z -> bool
}.

Definition candidatesOf (e : RoundEnv) : list string := re_myId e :: re_peers e.

Section Round.
Context {G : GoRand} {R : GoRange}.

(** From the committee to the settled registry: the round, the verdict and the
    registry after vote statistics and slashing. *)
Definition runRound (e : RoundEnv) (isL1 : bool) (blockId : string) (evs : list event) (reg : Registry)
  : voteRound * bool * Registry :=
  let pct := if isL1 then L1VoteThresholdPct else L2VoteThresholdPct in
  let loadPct := networkLoadPct (candidatesOf e) reg in
  let opened := openRound (re_core e) blockId (re_myId e) (candidatesOf e) loadPct reg in
  let '(r, reg) := runEvents (re_verify e) (re_getenv e) pct (opened, reg) evs in
  let ok := default false (vr_done r) in
  let '(accepted, toPenalize) :=
    decideRound (re_core e) isL1 (allowDegradedConsensus (re_getenv e)) (re_testnet e) ok (re_myId e) r in
  (r, accepted, settleRound r accepted toPenalize (re_connected e) reg).
End Round.

(** ** Packing: selectTxsForBlockCollect and the first half of l1CollectBlockRun *)

(** What packing needs from Core and from the DAG: the selection for a mempool
    snapshot, the order of digests, the verdicts, and the batch the DAG committed
    after the proposal, if any. *)
Record PackEnv := mkPack {
  pk_ledger : bool;
  pk_rust : bool;
  pk_core : L1Core;
  SelectBlockTxs : list Transaction -> result (list string);
  pk_dagOrdering : bool;
  pk_dagOrder : string -> list string -> result (option DagOrderDigestsResult);
  pk_dagCommit : list Transaction -> option (string * list string);
  pk_rocksConfirmed : gset string;
  pk_accountNonces : gmap string Z;
  pk_now : Z
}.

(** [pruneMempoolBeforeL1] on the chain. *)
Definition pk_prune (p : PackEnv) (bc : Blockchain) : Blockchain :=
  (PruneMempool (pk_rocksConfirmed p) (pk_accountNonces p) (pk_now p) None bc).1.2.

Definition applyDagCommit (anchor : string) (digests : list string) (bc : Blockchain) : Blockchain :=
  match digests with [] => bc | _ => SetDagCommitDigests anchor digests bc end.

Definition dagReorderSelected (p : PackEnv) (nodeID : string) (txs : list Transaction) : list Transaction :=
  if pk_dagOrdering p && (2 <=? length txs)%nat && negb (existsb (fun tx => String.eqb (tx_From tx) FaucetAddress) txs)
  then
    let digests := filter (fun h => h <> "") (hashes txs) in
    let producer := if String.eqb nodeID "" then "n0" else nodeID in
    match pk_dagOrder p producer digests with
    | Ok (Some o) => if dag_OK o && negb (bool_decide (dag_Digests o = [])) then PermuteByDigests tx_Hash (dag_Digests o) txs else txs
    | _ => txs
    end
  else txs.

Definition selectTxsForBlockCollect (p : PackEnv) (nodeID : string) (bc : Blockchain) : Blockchain * list Transaction :=
  if negb (pk_rust p) || negb (pk_ledger p) then (bc, [])
  else match SelectBlockTxs p (GetMempool bc) with
  | Err _ => (bc, [])
  | Ok hs =>
      let txs := dagReorderSelected p nodeID (SelectTxsByHashes bc hs) in
      (match pk_dagCommit p txs with Some (a, ds) => applyDagCommit a ds bc | None => bc end, txs)
  end.

(** The transactions that were selected and those that are put to the vote, or the
    reason why nothing is. *)
Definition packForL1 (p : PackEnv) (nodeID : string) (bc : Blockchain)
  : Blockchain * result (list Transaction * list txptr) :=
  let '(bc, selected) := selectTxsForBlockCollect p nodeID (pk_prune p bc) in
  match selected with
  | [] => (bc, Err "no packable transactions")
  | _ =>
      let outcome := validateTxsForL1 (pk_core p) (pk_ledger p) (pk_rust p) (Some <$> selected) in
      if oc_OK outcome then (bc, Ok (selected, Some <$> selected))
      else
      let bc := RemoveFromMempool (oc_InvalidHashes outcome) bc in
      let '(bc, retry) :=
        match oc_ValidTxs outcome with
        | [] => let '(bc, txs) := selectTxsForBlockCollect p nodeID (pk_prune p bc) in (bc, Some <$> txs)
        | v => (bc, v)
        end in
      match retry with
      | [] => (bc, Err "L1 validation failed")
      | _ =>
          let outcome2 := validateTxsForL1 (pk_core p) (pk_ledger p) (pk_rust p) retry in
          if oc_OK outcome2 then (bc, Ok (selected, retry))
          else (RemoveFromMempool (oc_InvalidHashes outcome2) bc, Err "L1 validation failed")
      end
  end.

Section Runs.
Context {G : GoRand} {R : GoRange} {CS RS : Type}.
Implicit Types (st : ConsState) (h : HandlerEnv CS RS) (f : Faults CS) (n : Node CS RS).

Definition NextBlockNumber (bc : Blockchain) : Z := blockCounter bc.

(** [l1CollectBlockRun]: the moved transactions, or the error of the response. *)
Definition l1CollectBlockRun (e : RoundEnv) (p : PackEnv) (stateRoot : string) (evs : list event)
    (meanwhile : Blockchain -> Blockchain) st (bc : Blockchain)
  : ConsState * Blockchain * result (list Transaction) :=
  let blockNum := NextBlockNumber bc in
  let '(bc, packed) := packForL1 p (re_myId e) bc in
  match packed with
  | Err m => (st, bc, Err m)
  | Ok (selected, collect) =>
      let blockId := computeVoteBlockID "l1" blockNum (txHashesFromTransactions collect) stateRoot in
      let '(r, accepted, reg) := runRound e true blockId evs (cs_reg st) in
      let bc := meanwhile bc in
      let st := mkCons reg (vr_votes r) accepted (cs_lastL2Votes st) (cs_lastL2Accepted st)
                  (if accepted then re_myId e else cs_beneficiary st) (cs_dist st) (cs_earn st) (cs_rewarded st) in
      if negb accepted then (st, bc, Err "L1 threshold not met")
      else let '(moved, bc) := L1CollectSelected (Some <$> selected) bc in (st, bc, Ok moved)
  end.

(** ** L2 *)

Definition isTOCTOU (m : string) : bool :=
  bool_decide (m ∈ ["pending changed during apply"; "pending hash mismatch"]).

Definition isPersistAfterApply (m : string) : bool := String.eqb m "explorer persist failed after core apply".

Definition yesNo (votes : gmap string bool) : Z * Z := (yesCount votes, Z.of_nat (size votes) - yesCount votes).

(** The operator's credits on the ledger: failures are only logged. *)
Definition creditOperator (ls : option (LedgerService CS)) (wallet : string) (rw : option operatorReward) (cs : CS) : CS :=
  match ls, rw with
  | Some ls, Some rw =>
      let cs := (Credit ls wallet 0 (u64 (feeCredit rw)) cs).1 in
      if 0 <? xpCredit rw then (CreditToken ls wallet TokenXP (u64 (xpCredit rw)) cs).1 else cs
  | _, _ => cs
  end.

(** The part of [l2ConfirmBlockRun] after the boundary: rewards, then the vote
    details of the block. *)
Definition afterConfirm (e : RoundEnv) h (wallet : string) (durationMs : Z) (b : BlockRecord) (r : voteRound) st n
  : ConsState * Node CS RS :=
  let fees := b_TotalFees b in
  let '(dist, (s1, s2)) := rewardBlock fees (cs_lastL1Votes st) (vr_votes r) (cs_reg st) (cs_dist st) in
  let earn := if 0 <? fees then recordEarnings (re_myId e) s1 s2 (cs_earn st) else cs_earn st in
  let load := networkLoadPct (re_myId e :: re_connected e) (cs_reg st) in
  let '(rewarded, rw) :=
    if 0 <? fees then
      applyOperatorBlockReward wallet (re_myId e) (bool_decide (is_Some (ledger (chainEnv h)))) (u64 (b_BlockNumber b)) load
        s1 s2 (cs_reg st) (cs_rewarded st)
    else (cs_rewarded st, None) in
  let w := n_world n in
  let w := with_state (creditOperator (ledger (chainEnv h)) wallet rw (w_state w)) w in
  let '(l1Yes, l1No) := yesNo (cs_lastL1Votes st) in
  let '(l2Yes, l2No) := yesNo (vr_votes r) in
  let bc := SetBlockVoteCounts (b_BlockNumber b) l1Yes l1No l2Yes l2No durationMs (cs_beneficiary st) (re_myId e) (w_bc w) in
  let bc := SetBlockVoteDetails (b_BlockNumber b) (cs_lastL1Votes st) (vr_votes r) bc in
  (mkCons (cs_reg st) (cs_lastL1Votes st) (cs_lastL1Accepted st) (cs_lastL2Votes st) (cs_lastL2Accepted st)
     (cs_beneficiary st) dist earn rewarded,
   with_world (with_bc bc w) n).

(** [l2ConfirmBlockRun]: [meanwhile] during the round, [meanwhile2] while the batch
    is applied, [now] the block's time. *)
Definition l2ConfirmBlockRun (e : RoundEnv) h f (wallet stateRoot : string) (evs : list event)
    (meanwhile meanwhile2 : Blockchain -> Blockchain) (now durationMs : Z) st n
  : ConsState * Node CS RS * result (BlockRecord * list Transaction) :=
  let pending := pendingBlock (w_bc (n_world n)) in
  match pending with
  | [] => (st, n, Err "no pending block (L1 collect first)")
  | _ =>
      let blockId := computeVoteBlockID "l2" (NextBlockNumber (w_bc (n_world n)))
                       (txHashesFromTransactions (Some <$> pending)) stateRoot in
      let '(r, accepted, reg) := runRound e false blockId evs (cs_reg st) in
      let n := with_world (with_bc (meanwhile (w_bc (n_world n))) (n_world n)) n in
      let st := mkCons reg (cs_lastL1Votes st) (cs_lastL1Accepted st) (vr_votes r) accepted
                  (cs_beneficiary st) (cs_dist st) (cs_earn st) (cs_rewarded st) in
      if negb accepted then (st, n, Err "L2 threshold not met")
      else
      let '(w, res) := L2ConfirmBlock (chainEnv h) f meanwhile2 now (n_world n) in
      let n := with_world w n in
      match res with
      | Err m =>
          if isTOCTOU m || isPersistAfterApply m then (st, n, Err m)
          else (st, with_world (with_bc (AbandonPendingBlock [] (w_bc w)).2 w) n, Err m)
      | Ok (moved, b, hasBak) =>
          let '(n, fin) := FinalizeConfirmedBlock h f b (Some <$> moved) hasBak (re_myId e) n in
          match fin with
          | Err m => (st, n, Err m)
          | Ok (b, _) =>
              let '(st, n) := afterConfirm e h wallet durationMs b r st n in (st, n, Ok (b, moved))
          end
      end
  end.
End Runs.
