(* ===== verification/ConsensusSpec.v ===== *)
(** * What block production promises (l1CollectBlockRun, l2ConfirmBlockRun)

    The effect of a whole L1 run on the pools, what an L2 run may change when it
    fails and what it owes when it succeeds, and the transactions an L1 run moves
    although nobody voted on them. *)

From S2P Require Import Prelude GoStd Dag Tx ForkChoice Chain Pool Confirm History TxPool Boundary Mempool MempoolSpec.
From S2P Require Import Rating RatingSpec Rewards L1Validate Votes Consensus.

#[local] Open Scope Z_scope.

(** ** Validation *)

Lemma fromTxResults_ok txs res err : oc_OK (fromTxResults txs res err) = true ->
  oc_InvalidHashes (fromTxResults txs res err) = [] /\
  forall q, q ∈ oc_ValidTxs (fromTxResults txs res err) -> q ∈ txs /\
    (fromFaucet q = true \/ exists tr, tr ∈ lv_TxResults res /\ vr_Hash tr = hashOf q /\ vr_Valid tr = true).
Proof.
  unfold fromTxResults. set (good := filter _ txs).
  assert (Hgood : forall q, q ∈ good -> q ∈ txs /\
    (fromFaucet q = true \/ exists tr, tr ∈ lv_TxResults res /\ vr_Hash tr = hashOf q /\ vr_Valid tr = true)).
  { intros q [Hq Hin]%list_elem_of_filter. split; [done|]. apply andb_true_iff in Hq as [_ [?|Hv]%orb_true_iff]; [by left|].
    right. bools. apply elem_of_list_to_set, list_elem_of_fmap in Hv as (tr & Htr & [Hvl Hin']%list_elem_of_filter). by exists tr. }
  destruct (_ || _); [done|]. destruct (_ && _); [done|]. destruct (negb _); done.
Qed.

(** When the L1 validation of a set approves, the transactions it names as valid
    are of the set, nothing is to be dropped from the mempool, and whenever Core
    reported a result per transaction each of them is a faucet credit or one that
    Core found valid. *)
Theorem l1_approval_sound c ledger rust txs :
  oc_OK (validateTxsForL1 c ledger rust txs) = true ->
  ledger = true /\ txs <> [] /\ oc_InvalidHashes (validateTxsForL1 c ledger rust txs) = [] /\
  forall q, q ∈ oc_ValidTxs (validateTxsForL1 c ledger rust txs) -> q ∈ txs /\
    (rust = true -> forall js res err, txsToCoreJSONArray txs = Some js -> js <> [] ->
       L1VerifyTxs c js = (Some res, err) -> lv_TxResults res <> [] ->
       fromFaucet q = true \/ exists tr, tr ∈ lv_TxResults res /\ vr_Hash tr = hashOf q /\ vr_Valid tr = true).
Proof.
  unfold validateTxsForL1. destruct txs as [|p txs']; [done|]. set (txs := p :: txs') in *.
  destruct ledger; cbn [negb]; [|done].
  destruct (txsToCoreJSONArray txs) as [[|j js]|] eqn:Ej.
  - intros _. repeat split; try done. intros _ js res err [= <-]. done.
  - destruct rust.
    + destruct (L1VerifyTxs c (j :: js)) as [res err] eqn:Ev.
      assert (Hres : forall r, res = Some r -> lv_TxResults r <> [] -> oc_OK (fromTxResults txs r err) = true ->
        true = true /\ txs <> [] /\ oc_InvalidHashes (fromTxResults txs r err) = [] /\
        forall q, q ∈ oc_ValidTxs (fromTxResults txs r err) -> q ∈ txs /\
          (true = true -> forall js0 res0 err0, Some (j :: js) = Some js0 -> js0 <> [] ->
            L1VerifyTxs c js0 = (Some res0, err0) -> lv_TxResults res0 <> [] ->
            fromFaucet q = true \/ exists tr, tr ∈ lv_TxResults res0 /\ vr_Hash tr = hashOf q /\ vr_Valid tr = true)).
      { intros r Hr Hne Ho. destruct (fromTxResults_ok _ _ _ Ho) as [Hi Hv]. split; [done|]. split; [done|]. split; [done|].
        intros q Hq. destruct (Hv q Hq) as [? ?]. split; [done|]. intros _ js0 res0 err0 [= <-] _ He _.
        rewrite Ev in He. simplify_eq. done. }
      destruct res as [[v e [|tr trs]]|].
      * destruct err as [m|]; [destruct (negb _); done|]. intros _. repeat split; try done.
        intros _ js0 res0 err0 [= <-] _ He Hne. rewrite Ev in He. by injection He as <- _.
      * by apply (Hres (mkVerify v e (tr :: trs))).
      * destruct err as [m|]; [destruct (negb _); done|]. intros _. repeat split; try done.
        intros _ js0 res0 err0 [= <-] _ He. rewrite Ev in He. done.
    + assert (forall rest, oc_OK (validateEach c txs rest) = true ->
        oc_InvalidHashes (validateEach c txs rest) = [] /\ forall q, q ∈ oc_ValidTxs (validateEach c txs rest) -> q ∈ txs) as H.
      { assert (forall tx l q, q ∈ goodBefore tx l -> q ∈ l) as Hg.
        { intros tx l q. induction l as [|[t|] l IH]; cbn [goodBefore]; [done| |by intros ?%elem_of_nil].
          case_bool_decide; [by intros ?%elem_of_nil|]. intros [->|?]%elem_of_cons; [by left|right; auto]. }
        induction rest as [|[tx|] rest IH]; cbn [validateEach]; [done| |done].
        destruct (fromFaucet _); [done|]. destruct (ToCoreJSON _); [|done]. destruct (ValidateTx c _); [done|].
        destruct (negb _); [|done]. destruct (negb _); [|done]. intros _. split; [done|]. intros q. apply Hg. }
      intros Ho. destruct (H txs Ho) as [Hi Hv]. repeat split; try done. by apply Hv.
  - unfold incompatible. destruct (hashOf <$> _); done.
Qed.

(** ** The L1 run *)

Lemma select_pools p id bc :
  pools_wf bc -> pools_wf (selectTxsForBlockCollect p id bc).1 /\
  mempool (selectTxsForBlockCollect p id bc).1 = mempool bc /\
  pendingBlock (selectTxsForBlockCollect p id bc).1 = pendingBlock bc.
Proof.
  intros H. unfold selectTxsForBlockCollect. destruct (_ || _); [done|]. destruct (SelectBlockTxs p _); [|done].
  simpl. destruct (pk_dagCommit p _) as [[anchor ds]|]; [|done]. unfold applyDagCommit. destruct ds; [done|].
  split; [|done]. by apply (pools_wf_submseteq bc).
Qed.

Lemma prune_pools p bc : pools_wf bc ->
  pools_wf (pk_prune p bc) /\ mempool (pk_prune p bc) `sublist_of` mempool bc /\
  pendingBlock (pk_prune p bc) = pendingBlock bc.
Proof.
  intros H. unfold pk_prune. split; [by apply PruneMempool_wf|].
  destruct (PruneMempool_shape (pk_rocksConfirmed p) (pk_accountNonces p) (pk_now p) None bc H)
    as (x & bc' & y & -> & _ & Hs & Hp & _). done.
Qed.

Lemma remove_pools hs bc : pools_wf bc ->
  pools_wf (RemoveFromMempool hs bc) /\ mempool (RemoveFromMempool hs bc) `sublist_of` mempool bc /\
  pendingBlock (RemoveFromMempool hs bc) = pendingBlock bc.
Proof.
  intros H. split; [by apply RemoveFromMempool_wf|]. destruct hs; [done|]. simpl. split; [apply sublist_filter|done].
Qed.

(** What packing may do to the pools. *)
Definition shrunk (bc bc' : Blockchain) : Prop :=
  pools_wf bc' /\ mempool bc' `sublist_of` mempool bc /\ pendingBlock bc' = pendingBlock bc.

Lemma shrunk_trans a b c : shrunk a b -> shrunk b c -> shrunk a c.
Proof. intros (_ & H2 & H3) (? & H5 & H6). split; [done|]. split; [by etransitivity|congruence]. Qed.

Lemma prune_select_pools p id bc : pools_wf bc -> shrunk bc (selectTxsForBlockCollect p id (pk_prune p bc)).1.
Proof.
  intros H. destruct (prune_pools p bc H) as (H1 & H2 & H3). destruct (select_pools p id _ H1) as (S1 & S2 & S3).
  split; [done|]. rewrite S2, S3. done.
Qed.

Lemma packForL1_pools p id bc : pools_wf bc -> shrunk bc (packForL1 p id bc).1.
Proof.
  intros H. unfold packForL1. pose proof (prune_select_pools p id bc H) as H1.
  destruct (selectTxsForBlockCollect p id (pk_prune p bc)) as [bc1 selected]. simpl in H1.
  destruct selected as [|x selected]; [done|]. set (o := validateTxsForL1 _ _ _ _). destruct (oc_OK o); [done|].
  assert (H2 : shrunk bc (RemoveFromMempool (oc_InvalidHashes o) bc1)).
  { apply (shrunk_trans _ bc1); [done|]. apply remove_pools, H1. }
  set (bc2 := RemoveFromMempool _ bc1) in *.
  assert (exists bc3 retry, match oc_ValidTxs o with
      | [] => let '(bc, txs) := selectTxsForBlockCollect p id (pk_prune p bc2) in (bc, Some <$> txs)
      | v => (bc2, v) end = (bc3, retry) /\ shrunk bc bc3) as (bc3 & retry & -> & H3).
  { destruct (oc_ValidTxs o) as [|v vs]; [|by eexists _, _].
    pose proof (prune_select_pools p id bc2 (proj1 H2)) as Hs.
    destruct (selectTxsForBlockCollect p id (pk_prune p bc2)) as [bc3 txs]. eexists _, _. split; [done|].
    by apply (shrunk_trans _ bc2). }
  destruct retry; [done|]. destruct (oc_OK _); [done|].
  apply (shrunk_trans _ bc3); [done|]. apply remove_pools, H3.
Qed.

(** C18: An L1 run keeps the pools free of conflicts whatever its round receives and
    whatever other handlers do to the pools meanwhile, as long as those keep them so.
    If it fails, no transaction has moved to the pending block; if it succeeds, its
    round was accepted, this node is the beneficiary, and the transactions it moved,
    each with a selected hash and no hash twice, are the pending block and together
    with the rest of the mempool are exactly the mempool it found. *)
Theorem l1_run_effect {G : GoRand} {R : GoRange} e p root evs meanwhile st bc :
  pools_wf bc -> (forall x, pools_wf x -> pools_wf (meanwhile x)) ->
  let bc1 := (packForL1 p (re_myId e) bc).1 in
  let '(st', bc', res) := l1CollectBlockRun e p root evs meanwhile st bc in
  pools_wf bc' /\ shrunk bc bc1 /\
  match res with
  | Ok moved => exists selected collect, packForL1 p (re_myId e) bc = (bc1, Ok (selected, collect)) /\
      cs_lastL1Accepted st' = true /\ cs_beneficiary st' = re_myId e /\ pendingBlock bc' = moved /\
      moved ++ mempool bc' ≡ₚ mempool (meanwhile bc1) /\ NoDup (hashes moved) /\
      (forall tx, tx ∈ moved -> tx_Hash tx ∈ hashes selected)
  | Err _ => bc' = bc1 \/ bc' = meanwhile bc1
  end.
Proof.
  intros Hwf Hm. cbv zeta. pose proof (packForL1_pools p (re_myId e) bc Hwf) as H1.
  unfold l1CollectBlockRun. destruct (packForL1 p (re_myId e) bc) as [bc1 packed] eqn:Ep. cbn [fst] in *.
  destruct packed as [[selected collect]|m]; [|split; [apply H1|split; [done|by left]]].
  destruct (runRound _ _ _ _ _) as [[r accepted] reg]. destruct accepted; cbn [negb].
  2:{ split; [by apply Hm, H1|]. split; [done|by right]. }
  destruct (L1CollectSelected (Some <$> selected) (meanwhile bc1)) as [moved bc'] eqn:Ec.
  pose proof (L1CollectSelected_wf (Some <$> selected) (meanwhile bc1) (Hm _ (proj1 H1))) as Hw. rewrite Ec in Hw.
  split; [done|]. split; [done|]. exists selected, collect.
  assert (selected <> []) as Hne.
  { intros ->. unfold packForL1 in Ep. destruct (selectTxsForBlockCollect _ _ _) as [? [|]]; [done|].
    destruct (oc_OK _); [done|]. destruct (oc_ValidTxs _); [destruct (selectTxsForBlockCollect _ _ _)|];
      repeat (match type of Ep with context [match ?x with _ => _ end] => destruct x end; try done). }
  apply L1CollectSelected_split in Ec as (Hp & Hpend & Hnd & Hin); [|by destruct selected].
  split; [done|]. split; [done|]. split; [done|]. split; [done|]. split; [done|]. split; [done|].
  rewrite Forall_forall in Hin. intros tx Htx%Hin.
  assert (nonNil (Some <$> selected) = selected) as Hs.
  { unfold nonNil. clear. induction selected as [|x l IH]; [done|]. cbn. by rewrite IH. }
  by rewrite Hs in Htx.
Qed.

(** ** Transactions nobody voted on *)

Definition txC : Transaction := demoTx 3 "hash-c" "PxC" "PxA" "1" 7 20.

(** Core packs three transactions; on verification it finds a valid, b
    permanently invalid, and c ahead of its sender's nonce. *)
Definition demoVerify : L1Core :=
  mkL1Core (fun js => Ok (match js with
                          | [_] => mkVerify true "" [mkTxResult "hash-a" true ""]
                          | _ => mkVerify false "L1 failed"
                                   [mkTxResult "hash-a" true ""; mkTxResult "hash-b" false "bad signature";
                                    mkTxResult "hash-c" false "invalid nonce: expected 3, got 7"]
                          end))
           (fun _ => Ok ()).

Definition demoPack : PackEnv :=
  mkPack true true demoVerify (fun l => Ok (hashes l)) false (fun _ _ => Err "") (fun _ => None) ∅ ∅ 0.

Definition soloEnv : RoundEnv := mkRoundEnv "me" [] [] None false (fun _ => "") (fun _ _ _ => false).

Definition emptyCons : ConsState := mkCons NewRegistry ∅ false ∅ false "" (mkDistributor DefaultConfig 0 0) (mkEarn ∅ 0 0) ∅.

Definition demoMempool : Blockchain := set_mempool [txA; txB; txC] NewBlockchain.

(** An L1 run can move a transaction that was neither approved by Core nor put to
    the vote: after a failed validation it votes on the remaining valid transactions
    but collects the original selection, so a transaction with a future nonce, kept
    in the mempool on purpose, lands in the pending block next to the voted ones. *)
Theorem l1_moves_unvoted_transaction :
  exists bc1 selected collect moved,
    packForL1 demoPack "me" demoMempool = (bc1, Ok (selected, collect)) /\
    hashOf <$> collect = ["hash-a"] /\
    (@l1CollectBlockRun zero_rand canonical_range soloEnv demoPack "root" [] (fun bc => bc) emptyCons demoMempool).2 = Ok moved /\
    hashes moved = ["hash-a"; "hash-c"].
Proof.
  eexists _, _, _, _. split; [vm_compute; reflexivity|]. split; [vm_compute; reflexivity|].
  split; [vm_compute; reflexivity|]. vm_compute. reflexivity.
Qed.

Lemma l1_run_effect_witness :
  exists st' bc' moved,
    @l1CollectBlockRun zero_rand canonical_range soloEnv demoPack "root" [] (fun bc => bc) emptyCons demoMempool = (st', bc', Ok moved) /\
    hashes moved = ["hash-a"; "hash-c"] /\ pools_wf bc' /\ pendingBlock bc' = moved.
Proof.
  assert (pools_wf demoMempool) as Hwf.
  { split; [apply (bool_decide_unpack _); vm_compute; done..| |];
      repeat (apply Forall_cons; split; [first [done|apply not_elem_of_empty]|]); apply Forall_nil_2. }
  pose proof (@l1_run_effect zero_rand canonical_range soloEnv demoPack "root" [] (fun bc => bc) emptyCons demoMempool Hwf (fun x H => H)) as H.
  cbv zeta in H.
  assert (hashes <$> (match (@l1CollectBlockRun zero_rand canonical_range soloEnv demoPack "root" [] (fun bc => bc) emptyCons demoMempool).2 with
                      | Ok m => Some m | Err _ => None end) = Some ["hash-a"; "hash-c"]) as He by (vm_compute; reflexivity).
  destruct (l1CollectBlockRun _ _ _ _ _ _ _) as [[st' bc'] [moved|m]]; [|done]. simpl in He.
  destruct H as (H1 & _ & s & c & _ & _ & _ & H2 & _).
  exists st', bc', moved. split; [reflexivity|]. split; [by injection He|]. split; [exact H1|exact H2].
Defined.

Lemma l1_approval_sound_witness :
  oc_ValidTxs (validateTxsForL1 demoVerify true true [Some txA]) = [Some txA] /\ true = true.
Proof.
  split; [vm_compute; reflexivity|]. apply (l1_approval_sound demoVerify true true [Some txA]). vm_compute. reflexivity.
Defined.

(** ** The L2 run *)

