(* ===== verification/Nonce.v ===== *)
(** * Nonce reservations (handlers.go: allocateNonceLocked, releaseNonceLocked)

    [Reserved] is [nonceReserved] under [mempoolAdmitMu]. The account's nonce comes
    from the ledger ([query]); the loop runs over the 257 nonces from there on, for
    account nonces that leave room for them below 2^64 - 1. *)

From S2P Require Import Prelude GoStd Tx Chain Pool.

#[local] Open Scope Z_scope.

Definition maxNonceReserveAhead : Z := 256.

Notation Reserved := (gmap string (gset Z)).

Definition reservedOf (a : string) (m : Reserved) : gset Z := default ∅ (m !! a).

Definition takenNonce (bc : Blockchain) (a : string) (m : Reserved) (n : Z) : bool :=
  bool_decide (n ∈ reservedOf a m) || HasInFlightNonce bc a (i64 n).

(** The loop: the first of [fuel] nonces from [n] on that nobody holds. *)
Fixpoint firstFree (bc : Blockchain) (a : string) (m : Reserved) (fuel : nat) (n : Z) : option Z :=
  match fuel with
  | O => None
  | S fuel' => if takenNonce bc a m n then firstFree bc a m fuel' (n + 1) else Some n
  end.

Definition allocateNonceLocked (ledger : bool) (query : string -> result Z) (a : string) (bc : Blockchain) (m : Reserved)
  : Reserved * result (Z * Z) :=
  if negb ledger then (m, Err "core ledger unavailable")
  else match query a with
  | Err e => (m, Err e)
  | Ok account =>
      let m := match m !! a with Some _ => m | None => <[a := ∅]> m end in
      let fuel := if u64 (account + maxNonceReserveAhead) <? account then O else S (Z.to_nat maxNonceReserveAhead) in
      match firstFree bc a m fuel account with
      | Some n => (<[a := {[n]} ∪ reservedOf a m]> m, Ok (n, account))
      | None => (m, Err "no free nonce")
      end
  end.

Definition dropReserved (a : string) (n : Z) (m : Reserved) : Reserved :=
  let s := reservedOf a m ∖ {[n]} in
  if bool_decide (s = ∅) then delete a m else <[a := s]> m.

Definition clearReservedNonceLocked (a : string) (n : Z) (m : Reserved) : Reserved :=
  match m !! a with Some _ => dropReserved a n m | None => m end.

Definition releaseNonceLocked (a : string) (n : Z) (bc : Blockchain) (m : Reserved) : Reserved * bool :=
  match m !! a with
  | None => (m, false)
  | Some s =>
      if negb (bool_decide (n ∈ s)) then (m, false)
      else if HasInFlightNonce bc a (i64 n) then (m, false)
      else (dropReserved a n m, true)
  end.

(** ** Facts *)

Lemma firstFree_spec bc a m fuel n :
  match firstFree bc a m fuel n with
  | Some k => n <= k < n + Z.of_nat fuel /\ takenNonce bc a m k = false /\
      (forall j, n <= j < k -> takenNonce bc a m j = true)
  | None => forall j, n <= j < n + Z.of_nat fuel -> takenNonce bc a m j = true
  end.
Proof.
  revert n. induction fuel as [|fuel IH]; intros n; cbn [firstFree]; [intros; lia|].
  destruct (takenNonce bc a m n) eqn:E.
  - specialize (IH (n + 1)). destruct (firstFree bc a m fuel (n + 1)) as [k|].
    + destruct IH as (H1 & H2 & H3). split; [lia|]. split; [done|]. intros j Hj.
      destruct (decide (j = n)) as [->|?]; [done|]. apply H3. lia.
    + intros j Hj. destruct (decide (j = n)) as [->|?]; [done|]. apply IH. lia.
  - split; [lia|]. split; [done|]. intros; lia.
Qed.

Lemma reservedOf_ensure a b (m : Reserved) :
  reservedOf b (match m !! a with Some _ => m | None => <[a := ∅]> m end) = reservedOf b m.
Proof.
  unfold reservedOf. destruct (m !! a) eqn:E; [done|]. rewrite lookup_insert. case_decide; subst; [by rewrite E|done].
Qed.

Lemma reservedOf_insert a b s (m : Reserved) : reservedOf b (<[a := s]> m) = if decide (a = b) then s else reservedOf b m.
Proof. unfold reservedOf. rewrite lookup_insert. by case_decide. Qed.

Lemma reservedOf_drop a b n (m : Reserved) :
  reservedOf b (dropReserved a n m) = if decide (a = b) then reservedOf a m ∖ {[n]} else reservedOf b m.
Proof.
  unfold dropReserved. case_bool_decide as H; [|apply reservedOf_insert].
  unfold reservedOf at 1. rewrite lookup_delete. case_decide; [by rewrite H|done].
Qed.

Lemma allocate_spec query a bc m account :
  query a = Ok account -> 0 <= account < two64 - 257 ->
  let '(m', res) := allocateNonceLocked true query a bc m in
  (forall b, b <> a -> reservedOf b m' = reservedOf b m) /\
  match res with
  | Ok (n, acc) => acc = account /\ account <= n <= account + 256 /\
      n ∉ reservedOf a m /\ HasInFlightNonce bc a (i64 n) = false /\
      (forall j, account <= j < n -> takenNonce bc a m j = true) /\
      reservedOf a m' = {[n]} ∪ reservedOf a m /\ takenNonce bc a m' n = true
  | Err _ => reservedOf a m' = reservedOf a m /\ forall j, account <= j <= account + 256 -> takenNonce bc a m j = true
  end.
Proof.
  intros Hq Ha. unfold allocateNonceLocked. rewrite Hq. cbn [negb].
  set (m0 := match m !! a with Some _ => m | None => <[a := ∅]> m end).
  assert (Hr : forall b, reservedOf b m0 = reservedOf b m) by (intros; apply reservedOf_ensure).
  assert (Ht : forall j, takenNonce bc a m0 j = takenNonce bc a m j) by (intros; unfold takenNonce; by rewrite Hr).
  unfold maxNonceReserveAhead. rewrite u64_small by (unfold is_u64, two64 in *; lia).
  rewrite (proj2 (Z.ltb_ge _ _)) by lia.
  pose proof (firstFree_spec bc a m0 (S (Z.to_nat 256)) account) as H.
  destruct (firstFree _ _ _ _ _) as [n|].
  - destruct H as (H1 & H2 & H3). rewrite Ht in H2. unfold takenNonce in H2. apply orb_false_iff in H2 as [H2 H2']. bools.
    split; [intros b Hb; by rewrite reservedOf_insert, decide_False|].
    split; [done|]. split; [lia|]. split; [done|]. split; [done|]. split; [intros j Hj; rewrite <- Ht; by apply H3|].
    rewrite reservedOf_insert, decide_True by done. rewrite Hr. split; [done|].
    unfold takenNonce. rewrite reservedOf_insert, decide_True by done. rewrite bool_decide_eq_true_2; [done|set_solver].
  - split; [intros; apply Hr|]. split; [apply Hr|]. intros j Hj. rewrite <- Ht. apply H. lia.
Qed.

(** An allocated nonce is the lowest one, from the account's nonce to 256 beyond
    it, that is neither reserved for that address nor used by a transaction in
    flight, and from then on it is reserved, so the next allocation gives another
    one; the reservations of other addresses do not change; and when the ledger
    answers, an allocation fails only if all 257 nonces are taken. *)
Theorem allocated_nonce_exact query a bc m account :
  query a = Ok account -> 0 <= account < two64 - 257 ->
  let '(m', res) := allocateNonceLocked true query a bc m in
  (forall b, b <> a -> reservedOf b m' = reservedOf b m) /\
  match res with
  | Ok (n, acc) => acc = account /\ account <= n <= account + 256 /\
      n ∉ reservedOf a m /\ HasInFlightNonce bc a (i64 n) = false /\
      (forall j, account <= j < n -> takenNonce bc a m j = true) /\
      reservedOf a m' = {[n]} ∪ reservedOf a m /\ takenNonce bc a m' n = true
  | Err _ => reservedOf a m' = reservedOf a m /\ forall j, account <= j <= account + 256 -> takenNonce bc a m j = true
  end.
Proof. apply allocate_spec. Qed.

Lemma allocated_nonce_exact_witness :
  exists m', allocateNonceLocked true (fun _ => Ok 0) "PxA" demoChain {["PxA" := {[1]}]} = (m', Ok (2, 0)) /\
    reservedOf "PxA" m' = {[2]} ∪ {[1]}.
Proof.
  pose proof (allocated_nonce_exact (fun _ => Ok 0) "PxA" demoChain {["PxA" := {[1]}]} 0) as H.
  assert ((allocateNonceLocked true (fun _ => Ok 0) "PxA" demoChain {["PxA" := {[1]}]}).2 = Ok (2, 0)) as He by (vm_compute; reflexivity).
  destruct (allocateNonceLocked _ _ _ _ _) as [m' res]. simpl in He. subst res. exists m'. split; [reflexivity|].
  destruct H as (_ & _ & _ & _ & _ & _ & H & _); [reflexivity|unfold two64; lia|exact H].
Defined.
