(* ===== verification/Voter.v ===== *)
(** * The answering side of vote rounds (handlers_consensus.go, handlers.go, nodes/identity.go)

    The key pair of a node and its file, the signed vote, the decision on a proposal
    of another node, and the messages that report results. A decision looks at the
    chain up to eight times, a quarter of a second apart; what it finds is an
    [Attempt] per look. Ed25519 is a parameter. *)

From S2P Require Import Prelude GoStd GoJson Sha256 Tx Chain Rating Rewards L1Validate Votes Consensus.

#[local] Open Scope Z_scope.

(** ** nodes/identity.go: the key file *)

Definition PrivateKeySize : nat := 64.

Record NodeIdentity := mkIdentity { id_NodeID : string; id_PubKey : string; id_PrivKey : string }.

(** What reading the file gives; [FileText None] is a file that is no JSON object of
    strings. *)
Inductive identityRead := FileText (f : option NodeIdentity) | FileMissing | FileUnreadable (e : string).

Definition keyBytes (hex : string) (size : nat) : option (list Z) :=
  match DecodeString hex with
  | Some l => if Nat.eqb (length l) size then Some l else None
  | None => None
  end.

Section identity.
(** [ed25519.GenerateKey] (public key, private key) and the outcome of the write. *)
Variable GenerateKey : result (list Z * list Z).
Variable Save : NodeIdentity -> result unit.

(** The result, and the identity written to the file, if one was. *)
Definition LoadOrCreateIdentity (read : identityRead) : result NodeIdentity * option NodeIdentity :=
  match read with
  | FileText None => (Err "parse node identity", None)
  | FileText (Some f) =>
      (if String.eqb (id_PrivKey f) "" || String.eqb (id_PubKey f) "" then Err "incomplete node identity"
       else match keyBytes (id_PrivKey f) PrivateKeySize with
       | None => Err "invalid privKey"
       | Some _ =>
           match keyBytes (id_PubKey f) PublicKeySize with
           | None => Err "invalid pubKey"
           | Some pub =>
               let expected := EncodeToString pub in
               let nodeID := if String.eqb (id_NodeID f) "" then expected else id_NodeID f in
               if negb (String.eqb nodeID expected) then Err "nodeId does not match pubKey"
               else Ok (mkIdentity nodeID (id_PubKey f) (id_PrivKey f))
           end
       end, None)
  | FileUnreadable e => (Err e, None)
  | FileMissing =>
      match GenerateKey with
      | Err e => (Err e, None)
      | Ok (pub, priv) =>
          let id := mkIdentity (EncodeToString pub) (EncodeToString pub) (EncodeToString priv) in
          match Save id with Err e => (Err e, None) | Ok _ => (Ok id, Some id) end
      end
  end.
End identity.

Section signing.
(** [ed25519.Sign]: private key, message, signature. *)
Variable Sign : list Z -> string -> list Z.

Definition SignVote (id : NodeIdentity) (blockID : string) (yes : bool) : result string :=
  match keyBytes (id_PrivKey id) PrivateKeySize with
  | None => Err "bad private key"
  | Some priv => Ok (EncodeToString (Sign priv (VoteMessage blockID yes)))
  end.

(** [nodeID] and [identity] are fields of the node manager. *)
Definition SignedVotePayload (nodeID : string) (identity : option NodeIdentity) (blockID : string) (yes : bool) : jobj :=
  [("blockId", JString blockID); ("nodeId", JString nodeID); ("yes", JBool yes)] ++
  match identity with
  | None => []
  | Some id =>
      match SignVote id blockID yes with
      | Ok sig => [("pubKey", JString (id_PubKey id)); ("signature", JString sig)]
      | Err _ => []
      end
  end.
End signing.

(** ** Deciding on a proposal *)

(** One look at the chain: [at_later] is the chain at the second read of the same
    look, [at_ledger] and [at_rust] tell what of Core is there. *)
Record Attempt := mkAttempt {
  at_bc : Blockchain;
  at_later : Blockchain;
  at_core : L1Core;
  at_ledger : bool;
  at_rust : bool
}.

Definition validates (a : Attempt) (txs : list Transaction) : bool :=
  oc_OK (validateTxsForL1 (at_core a) (at_ledger a) (at_rust a) (Some <$> txs)).

Definition resolveMempoolTxsForProposal (txCount : Z) (txHashes : list string) (bc : Blockchain) : option (list Transaction) :=
  match txHashes with
  | [] => let pool := GetMempool bc in if Z.of_nat (length pool) =? txCount then Some pool else None
  | _ => GetMempoolTxsByHashes bc txHashes
  end.

(** The body of the loop of [submitL1Vote]: the answer, or another attempt. *)
Definition l1Attempt (txCount : Z) (txHashes : list string) (a : Attempt) : option bool :=
  match resolveMempoolTxsForProposal txCount txHashes (at_bc a) with
  | None | Some [] => None
  | Some txs => Some (validates a txs)
  end.

Definition l2Attempt (txHashes : list string) (a : Attempt) : option bool :=
  let pending := pendingBlock (at_bc a) in
  if negb (bool_decide (txHashes = [])) && negb (PendingBlockMatchesHashes (at_later a) txHashes) then None
  else match pending with [] => None | _ => Some (validates a pending) end.

Definition maxAttempts : nat := 8.

(** No answer in any attempt is a vote of no. *)
Fixpoint firstAnswer (attempt : Attempt -> option bool) (views : list Attempt) : bool :=
  match views with
  | [] => false
  | a :: views' => match attempt a with Some yes => yes | None => firstAnswer attempt views' end
  end.

Definition submitL1Vote (txCount : Z) (txHashes : list string) (views : nat -> Attempt) : bool :=
  firstAnswer (l1Attempt txCount txHashes) (views <$> seq 0 maxAttempts).

Definition submitL2Vote (txHashes : list string) (views : nat -> Attempt) : bool :=
  firstAnswer (l2Attempt txHashes) (views <$> seq 0 maxAttempts).

(** ** The callbacks *)

(** [l1VotedIds] and [l2VotedIds]. *)
Record Voter := mkVoter { vo_l1 : gset string; vo_l2 : gset string }.

Inductive proposal :=
| L1Proposal (blockId proposer : string) (txCount : Z) (txHashes : list string)
| L2Proposal (blockId proposer : string) (txHashes : list string).

(** The vote that a callback makes the node broadcast: layer, block id, answer. *)
Definition ballot : Type := bool * string * bool.

Definition onL1Proposal (myId blockId proposer : string) (txCount : Z) (txHashes : list string) (views : nat -> Attempt) (v : Voter)
  : Voter * option ballot :=
  if String.eqb proposer myId then (v, None)
  else if bool_decide (blockId ∈ vo_l1 v) then (v, None)
  else (mkVoter ({[blockId]} ∪ vo_l1 v) (vo_l2 v), Some (true, blockId, submitL1Vote txCount txHashes views)).

Definition onL2Proposal (myId blockId proposer : string) (txHashes : list string) (views : nat -> Attempt) (v : Voter)
  : Voter * option ballot :=
  if String.eqb proposer myId then (v, None)
  else if bool_decide (blockId ∈ vo_l2 v) then (v, None)
  else (mkVoter (vo_l1 v) ({[blockId]} ∪ vo_l2 v), Some (false, blockId, submitL2Vote txHashes views)).

Definition onProposal (myId : string) (p : proposal) (views : nat -> Attempt) (v : Voter) : Voter * option ballot :=
  match p with
  | L1Proposal blockId proposer txCount txHashes => onL1Proposal myId blockId proposer txCount txHashes views v
  | L2Proposal blockId proposer txHashes => onL2Proposal myId blockId proposer txHashes views v
  end.

(** The proposals a node receives, in turn, and the votes it casts. *)
Fixpoint proposals (myId : string) (ps : list (proposal * (nat -> Attempt))) (v : Voter) : Voter * list ballot :=
  match ps with
  | [] => (v, [])
  | (p, views) :: ps' =>
      let '(v, b) := onProposal myId p views v in
      let '(v, bs) := proposals myId ps' v in
      (v, option_list b ++ bs)
  end.

(** ** Results reported by the proposer *)

Definition onL1BlockCollected (beneficiary : string) (st : ConsState) : ConsState :=
  if String.eqb beneficiary "" then st
  else mkCons (cs_reg st) (cs_lastL1Votes st) (cs_lastL1Accepted st) (cs_lastL2Votes st) (cs_lastL2Accepted st)
         beneficiary (cs_dist st) (cs_earn st) (cs_rewarded st).

Definition onL1VoteResult (votes : gmap string bool) (accepted : bool) (st : ConsState) : ConsState :=
  mkCons (cs_reg st) votes accepted (cs_lastL2Votes st) (cs_lastL2Accepted st)
    (cs_beneficiary st) (cs_dist st) (cs_earn st) (cs_rewarded st).

Definition onL2VoteResult (votes : gmap string bool) (accepted : bool) (st : ConsState) : ConsState :=
  mkCons (cs_reg st) (cs_lastL1Votes st) (cs_lastL1Accepted st) votes accepted
    (cs_beneficiary st) (cs_dist st) (cs_earn st) (cs_rewarded st).

Definition onNodeLoad (nodeId : string) (currentTasks maxCapacity : Z) (reg : Registry) : Registry :=
  SetLoad nodeId currentTasks maxCapacity (EnsureNode nodeId 0 1 reg).
