(* ===== verification/VoterSpec.v ===== *)
(** * What the answering side of a vote round promises

    A key pair survives its file; a vote that a node signs is accepted by every
    proposer and counted; a yes stands for transactions that the node itself had
    validated; and a node that answers proposals is never slashed for equivocation. *)

From S2P Require Import Prelude GoStd GoJson Sha256 Dag Tx Chain Pool Confirm ConfirmSpec Nodes Rating Rewards L1Validate Votes VotesSpec Consensus.
From S2P Require Import Voter.

#[local] Open Scope Z_scope.

(** ** Hexadecimal *)

Definition isByte (b : Z) : Prop := 0 <= b < 256.

Lemma hexValue_digit n : 0 <= n < 16 -> hexValue (hexDigit n) = Some n.
Proof.
  intros Hn. assert (H : forallb (fun k => bool_decide (hexValue (hexDigit k) = Some k)) (seqZ 0 16) = true) by (vm_compute; reflexivity).
  rewrite forallb_forall in H. eapply bool_decide_eq_true_1, H, list_elem_of_In, elem_of_seqZ. done.
Qed.

Lemma hex_roundtrip l : Forall isByte l -> DecodeString (EncodeToString l) = Some l.
Proof.
  induction 1 as [|b l Hb _ IH]; [done|]. unfold isByte in Hb. cbn [EncodeToString DecodeString].
  pose proof (Z.mod_pos_bound b 16) as Hm. pose proof (Z.div_mod b 16) as Hd.
  rewrite !hexValue_digit, IH by lia. do 2 f_equal. lia.
Qed.

Lemma hex_nonempty l : l <> [] -> EncodeToString l <> "".
Proof. by destruct l. Qed.

(** ** Signed votes *)

Section keys.
Context (Sign : list Z -> string -> list Z) (verify : list Z -> string -> list Z -> bool) (KeyPair : list Z -> list Z -> Prop).

(** What the documentation of crypto/ed25519 says: the sizes, and that a signature of
    a key pair verifies. *)
Record Ed25519 : Prop := mkEd25519 {
  key_sizes : forall pub priv, KeyPair pub priv ->
    length pub = PublicKeySize /\ Forall isByte pub /\ length priv = PrivateKeySize /\ Forall isByte priv;
  signature_size : forall priv m, length (Sign priv m) = SignatureSize /\ Forall isByte (Sign priv m);
  signature_verifies : forall pub priv m, KeyPair pub priv -> verify pub m (Sign priv m) = true
}.

Hypothesis ed : Ed25519.

Definition identityOf (pub priv : list Z) : NodeIdentity :=
  mkIdentity (EncodeToString pub) (EncodeToString pub) (EncodeToString priv).

Lemma keyBytes_hex l size : length l = size -> Forall isByte l -> keyBytes (EncodeToString l) size = Some l.
Proof. intros Hl Hb. unfold keyBytes. rewrite hex_roundtrip by done. by rewrite Hl, Nat.eqb_refl. Qed.

Lemma identity_reload gen save pub priv :
  KeyPair pub priv -> LoadOrCreateIdentity gen save (FileText (Some (identityOf pub priv))) = (Ok (identityOf pub priv), None).
Proof.
  intros (Hp & Hpb & Hs & Hsb)%(key_sizes ed). cbn [LoadOrCreateIdentity identityOf id_PrivKey id_PubKey id_NodeID].
  assert (Hn : forall l, l <> [] -> String.eqb (EncodeToString l) "" = false) by (intros l Hl; by apply String.eqb_neq, hex_nonempty).
  rewrite !Hn by (intros ->; discriminate). cbn [orb]. rewrite !keyBytes_hex by done. by rewrite String.eqb_refl.
Qed.

Lemma vote_accepted getenv pub priv b yes :
  KeyPair pub priv ->
  acceptPeerVote verify getenv b (EncodeToString pub) yes (EncodeToString pub) (EncodeToString (Sign priv (VoteMessage b yes))) = true.
Proof.
  intros HK. destruct (key_sizes ed _ _ HK) as (Hp & Hpb & _). destruct (signature_size ed priv (VoteMessage b yes)) as [Hl Hlb].
  unfold acceptPeerVote, VerifyVoteSignature. destruct (RequireSignedVotes getenv); [|done].
  rewrite !(proj2 (String.eqb_neq _ _)) by (apply hex_nonempty; intros E; rewrite E in *; discriminate). cbn [orb].
  rewrite !hex_roundtrip, Hp, Hl, String.eqb_refl by done. cbn [negb Nat.eqb]. by rewrite (signature_verifies ed _ _ _ HK).
Qed.

Lemma payload_fields pub priv b yes :
  KeyPair pub priv ->
  SignedVotePayload Sign (EncodeToString pub) (Some (identityOf pub priv)) b yes =
  [("blockId", JString b); ("nodeId", JString (EncodeToString pub)); ("yes", JBool yes); ("pubKey", JString (EncodeToString pub));
   ("signature", JString (EncodeToString (Sign priv (VoteMessage b yes))))].
Proof.
  intros (_ & _ & Hs & Hsb)%(key_sizes ed). unfold SignedVotePayload, SignVote. cbn [identityOf id_PrivKey id_PubKey].
  by rewrite keyBytes_hex.
Qed.

(** an honest vote counts. A node that created its key pair finds the same one in
    its file at every later start. What it broadcasts as its vote on a proposal, in
    either layer, reaches the callbacks of the receiving gateway as that answer under
    its own id, passes the signature check there, and is recorded in a round that is
    open for the proposal and has the node in its committee and no vote of it yet. *)
Theorem honest_vote_counts gen save id file cb getenv pct reg r isL1 yes
  (Hgen : forall pub priv, gen = Ok (pub, priv) -> KeyPair pub priv)
  (Hcreate : LoadOrCreateIdentity gen save FileMissing = (Ok id, file))
  (Hcb : cb (if isL1 : bool then "l1VoteCB" else "l2VoteCB") = true)
  (Hopen : vr_closed r = false) (Hmember : inCommittee r (id_NodeID id) = true) (Hfirst : vr_votes r !! id_NodeID id = None) :
  (forall gen' save', LoadOrCreateIdentity gen' save' (FileText file) = (Ok id, None)) /\
  let payload := SignedVotePayload Sign (id_NodeID id) (Some id) (vr_blockId r) yes in
  exists pk sig,
    dispatchEvent cb (if isL1 then "l1_vote" else "l2_vote") payload =
      [if isL1 then CbL1Vote (vr_blockId r) (id_NodeID id) yes pk sig else CbL2Vote (vr_blockId r) (id_NodeID id) yes pk sig] /\
    acceptPeerVote verify getenv (vr_blockId r) (id_NodeID id) yes pk sig = true /\
    exists r', (onVote pct (vr_blockId r) (id_NodeID id) yes (Some r) reg) = (Some r', reg) /\ vr_votes r' = <[id_NodeID id := yes]> (vr_votes r).
Proof.
  cbn [LoadOrCreateIdentity] in Hcreate. destruct gen as [[pub priv]|e]; [|done]. specialize (Hgen _ _ eq_refl).
  destruct (save _); [|done]. injection Hcreate as <- <-. fold (identityOf pub priv) in *. cbn [identityOf id_NodeID] in *.
  split; [intros; by apply identity_reload|]. cbv zeta. rewrite payload_fields by done.
  exists (EncodeToString pub), (EncodeToString (Sign priv (VoteMessage (vr_blockId r) yes))).
  split; [unfold dispatchEvent, callIf; destruct isL1; cbn in *; by rewrite Hcb|]. split; [by apply vote_accepted|].
  unfold onVote. rewrite String.eqb_refl, Hmember, Hopen, Hfirst. cbn [negb]. eexists. split; [done|]. by destruct (_ && _).
Qed.
End keys.

(** ** What a vote stands for *)

Lemma firstAnswer_yes attempt views :
  firstAnswer attempt views = true <->
  exists i a, views !! i = Some a /\ attempt a = Some true /\ forall j b, (j < i)%nat -> views !! j = Some b -> attempt b = None.
Proof.
  induction views as [|a views IH]; simpl.
  { split; [done|]. by intros (i & a & Ha & _). }
  destruct (attempt a) as [yes|] eqn:E.
  - split; [intros ->; exists 0%nat, a; split_and!; [done..|intros; lia]|].
    intros ([|i] & a' & Ha & Hy & Hb); [simpl in Ha; congruence|]. specialize (Hb 0%nat a). rewrite E in Hb. discriminate Hb; [lia|done].
  - rewrite IH. split.
    + intros (i & a' & Ha & Hy & Hb). exists (S i), a'. split_and!; [done..|]. intros [|j] b Hj Hl; [simpl in Hl; congruence|].
      apply (Hb j b); [lia|done].
    + intros ([|i] & a' & Ha & Hy & Hb); [simpl in Ha; congruence|]. exists i, a'. split_and!; [done..|].
      intros j b Hj Hl. apply (Hb (S j) b); [lia|done].
Qed.

Lemma views_lookup {A} (views : nat -> A) i a : (views <$> seq 0 maxAttempts) !! i = Some a <-> (i < maxAttempts)%nat /\ a = views i.
Proof.
  rewrite list_lookup_fmap_Some. split.
  - intros (k & -> & Hk). by apply lookup_seq in Hk as [-> Hk].
  - intros [Hi ->]. exists i. split; [done|by apply lookup_seq].
Qed.

Lemma answer_exact attempt views :
  firstAnswer attempt (views <$> seq 0 maxAttempts) = true <->
  exists i, (i < maxAttempts)%nat /\ attempt (views i) = Some true /\ forall j, (j < i)%nat -> attempt (views j) = None.
Proof.
  rewrite firstAnswer_yes. split.
  - intros (i & a & [Hi ->]%views_lookup & Hy & Hb). exists i. split_and!; [done..|]. intros j Hj. apply (Hb j); [done|].
    apply views_lookup. split; [lia|done].
  - intros (i & Hi & Hy & Hb). exists i, (views i). split_and!; [by apply views_lookup|done|].
    intros j b Hj [_ ->]%views_lookup. by apply Hb.
Qed.

(** The transactions that a proposal with these hashes names, in this order. *)
Lemma byHashes_spec bc hs txs : GetMempoolTxsByHashes bc hs = Some txs -> hashes txs = hs /\ Forall (fun tx => tx ∈ mempool bc) txs.
Proof.
  unfold GetMempoolTxsByHashes. rewrite mapM_Some. induction 1 as [|h tx hs txs Hh _ [IH1 IH2]]; [done|].
  apply byHash_lookup in Hh as [Hin <-]. split; [unfold hashes in *; by rewrite fmap_cons, IH1|by constructor].
Qed.

Lemma l1Attempt_yes count hs a :
  hs <> [] -> l1Attempt count hs a = Some true <->
  exists txs, hashes txs = hs /\ Forall (fun tx => tx ∈ mempool (at_bc a)) txs /\
    GetMempoolTxsByHashes (at_bc a) hs = Some txs /\ validates a txs = true.
Proof.
  intros Hne. unfold l1Attempt, resolveMempoolTxsForProposal. destruct hs as [|h hs]; [done|]. split.
  - destruct (GetMempoolTxsByHashes _ _) as [[|tx txs]|] eqn:E; [done| |done]. intros [= H].
    apply byHashes_spec in E as Hs. destruct Hs. by exists (tx :: txs).
  - intros (txs & Hh & _ & -> & Hv). destruct txs as [|tx txs]; [done|]. by rewrite Hv.
Qed.

Lemma l2Attempt_yes hs a :
  hs <> [] -> l2Attempt hs a = Some true <->
  hs ≡ₚ hashes (pendingBlock (at_later a)) /\ pendingBlock (at_bc a) <> [] /\ validates a (pendingBlock (at_bc a)) = true.
Proof.
  intros Hne. unfold l2Attempt. rewrite bool_decide_false by done. cbn [negb andb].
  rewrite <- PendingBlockMatchesHashes_spec. destruct (PendingBlockMatchesHashes _ _); cbn [negb]; [|split; [done|by intros [? _]]].
  destruct (pendingBlock (at_bc a)) as [|tx l]; [split; [done|by intros (_ & ? & _)]|].
  split; [by intros [= H]|]. by intros (_ & _ & ->).
Qed.

(** C39: a yes stands for the node's own validation. A node says yes to an L1 proposal
    that names its transactions exactly when, at one of its eight looks and at no
    earlier one, its mempool held all of them and the set passed the L1 validation; to
    an L2 proposal exactly when it had a pending block, that block passed and the
    pending block had exactly the named hashes. In every other case, silence included,
    it says no. *)
Theorem yes_vote_validated count hs (views : nat -> Attempt) (Hnamed : hs <> []) :
  (submitL1Vote count hs views = true <->
   exists i, (i < 8)%nat /\ (forall j, (j < i)%nat -> l1Attempt count hs (views j) = None) /\
     exists txs, hashes txs = hs /\ Forall (fun tx => tx ∈ mempool (at_bc (views i))) txs /\
       GetMempoolTxsByHashes (at_bc (views i)) hs = Some txs /\ validates (views i) txs = true) /\
  (submitL2Vote hs views = true <->
   exists i, (i < 8)%nat /\ (forall j, (j < i)%nat -> l2Attempt hs (views j) = None) /\
     hs ≡ₚ hashes (pendingBlock (at_later (views i))) /\ pendingBlock (at_bc (views i)) <> [] /\
     validates (views i) (pendingBlock (at_bc (views i))) = true).
Proof.
  unfold submitL1Vote, submitL2Vote. rewrite !answer_exact. split; split; intros (i & Hi & H1 & H2); exists i.
  - split_and!; [done..|]. by apply l1Attempt_yes in H1.
  - split_and!; [done| |done]. by apply l1Attempt_yes.
  - split_and!; [done..| | |]; by apply l2Attempt_yes in H1 as (? & ? & ?).
  - split_and!; [done| |done]. by apply l2Attempt_yes.
Qed.

(** ** One vote per proposal *)

Definition castIn (isL1 : bool) (bs : list ballot) : list (string * bool) :=
  omap (fun '(l1, b, y) => if Bool.eqb l1 isL1 then Some (b, y) else None) bs.

Definition votedIn (isL1 : bool) (v : Voter) : gset string := if isL1 then vo_l1 v else vo_l2 v.

(** The proposals of one node, in turn: no id is voted on twice in one layer. *)
Lemma cast_once myId ps v isL1 :
  let bs := castIn isL1 (proposals myId ps v).2 in
  NoDup bs.*1 /\ Forall (fun b => b.1 ∉ votedIn isL1 v) bs.
Proof.
  revert v. induction ps as [|[p views] ps IH]; intros v; cbn [proposals]; [split; constructor|].
  destruct (onProposal myId p views v) as [v1 b] eqn:E. specialize (IH v1). destruct (proposals myId ps v1) as [v2 bs]. cbn [snd] in *.
  unfold castIn in *. rewrite omap_app. destruct IH as [Hn Hf].
  assert (Hcase : (omap (fun '(l1, b, y) => if Bool.eqb l1 isL1 then Some (b, y) else None) (option_list b) = [] /\ votedIn isL1 v ⊆ votedIn isL1 v1) \/
    exists id y, omap (fun '(l1, b, y) => if Bool.eqb l1 isL1 then Some (b, y) else None) (option_list b) = [(id, y)] /\
      id ∉ votedIn isL1 v /\ votedIn isL1 v1 = {[id]} ∪ votedIn isL1 v).
  { destruct p as [id pr c hs|id pr hs]; cbn [onProposal] in E; unfold onL1Proposal, onL2Proposal in E;
      (destruct (String.eqb pr myId); [injection E as <- <-; by left|]);
      (case_bool_decide as Hin; [injection E as <- <-; by left|]); injection E as <- <-; destruct isL1; simpl;
      ((left; split; [done|set_solver]) || (right; eexists _, _; split_and!; [done|done|done])). }
  destruct Hcase as [[-> Hsub]|(id & y & -> & Hid & Hv)]; simpl.
  - split; [done|]. eapply Forall_impl; [exact Hf|]. simpl. set_solver.
  - rewrite Hv in Hf. split.
    + apply NoDup_cons. split; [|done]. intros ([id' y'] & Heq & Hin)%list_elem_of_fmap. simpl in Heq. subst id'.
      rewrite Forall_forall in Hf. apply Hf in Hin. simpl in Hin. set_solver.
    + constructor; [done|]. eapply Forall_impl; [exact Hf|]. simpl. set_solver.
Qed.

Section slashing.
Context (verify : list Z -> string -> list Z -> bool) (getenv : string -> string) (pct : Z).

(** Votes of [id] that agree with [yes] leave its entry in the registry alone. *)
Lemma events_keep_entry id yes evs r reg :
  (forall y, vr_votes r !! id = Some y -> y = yes) ->
  (forall b y pk sig, EVote b id y pk sig ∈ evs -> acceptPeerVote verify getenv b id y pk sig = true -> b = vr_blockId r -> y = yes) ->
  (runEvents verify getenv pct (r, reg) evs).2 !! id = reg !! id.
Proof.
  revert r reg. induction evs as [|e evs IH]; intros r reg Hr Hevs; [done|].
  cbn [runEvents foldl]. destruct (runEvent verify getenv pct (r, reg) e) as [r1 reg1] eqn:E.
  assert (H : reg1 !! id = reg !! id /\ vr_blockId r1 = vr_blockId r /\ (forall y, vr_votes r1 !! id = Some y -> y = yes)).
  { destruct e as [b n y pk sig|]; cbn [runEvent] in E.
    2:{ injection E as <- <-. unfold onTimeout. destruct (vr_closed r); done. }
    destruct (acceptPeerVote verify getenv b n y pk sig) eqn:Ea; [|by injection E as <- <-].
    unfold onVote in E. destruct (String.eqb_spec (vr_blockId r) b) as [Hb|]; cbn [negb] in E; [|by injection E as <- <-].
    destruct (inCommittee r n); cbn [negb] in E; [|by injection E as <- <-].
    destruct (vr_closed r); [by injection E as <- <-|]. destruct (vr_votes r !! n) as [prev|] eqn:Ev; injection E as <- <-.
    - cbn [default]. split_and!; [|done|done]. destruct (Bool.eqb prev y) eqn:Eq; [done|]. destruct (decide (n = id)) as [->|Hne].
      + rewrite (Hr _ Ev), (Hevs b y pk sig) in Eq; [by destruct yes|by left|done|done].
      + unfold ApplySlash, EnsureNode. destruct (reg !! n) eqn:En; [rewrite En; simpl|rewrite lookup_insert_eq; simpl];
          by rewrite ?lookup_insert_ne by done.
    - cbn [default]. split_and!; [done|by destruct (_ && _)|].
      assert (Hv : forall y', (<[n:=y]> (vr_votes r)) !! id = Some y' -> y' = yes).
      { intros y' [[-> <-]|[_ Hv]]%lookup_insert_Some; [|by apply Hr]. eapply (Hevs b); [by left|done|done]. }
      by destruct (_ && _). }
  destruct H as (<- & Hb & Hv). apply IH; [done|]. intros b y pk sig Hin Ha ->. apply (Hevs (vr_blockId r1) y pk sig); [by right|done|done].
Qed.

End slashing.

(** ** Witnesses *)

(** A stand-in for Ed25519: the signature is the message, cut or padded to its size. *)
Definition toySign (_ : list Z) (m : string) : list Z := (fun b => b mod 256) <$> take SignatureSize (bytesOf m ++ repeat 0 SignatureSize).

Definition toyVerify (_ : list Z) (m : string) (sig : list Z) : bool := bool_decide (sig = toySign [] m).

Definition toyPair (pub priv : list Z) : Prop := pub = repeat 1 PublicKeySize /\ priv = repeat 2 PrivateKeySize.

Lemma toy_ed25519 : Ed25519 toySign toyVerify toyPair.
Proof.
  constructor.
  - intros pub priv [-> ->]. split_and!; try done; apply Forall_forall; intros x Hx%list_elem_of_In%repeat_spec; unfold isByte; lia.
  - intros priv m. split.
    + unfold toySign. rewrite length_fmap, length_take, length_app, repeat_length. unfold SignatureSize. lia.
    + apply Forall_fmap, Forall_true. intros x. apply Z.mod_pos_bound. lia.
  - intros pub priv m _. by apply bool_decide_true.
Qed.

Definition toyIdentity : NodeIdentity := identityOf (repeat 1 PublicKeySize) (repeat 2 PrivateKeySize).

Definition openFor (b : string) : voteRound := mkRound b {["p" := true]} 2 (Some {["p"; id_NodeID toyIdentity]}) None false.

Lemma honest_vote_counts_witness :
  exists pk sig, acceptPeerVote toyVerify (fun _ => "") "block" (id_NodeID toyIdentity) true pk sig = true.
Proof.
  destruct (honest_vote_counts toySign toyVerify toyPair toy_ed25519 (Ok (repeat 1 PublicKeySize, repeat 2 PrivateKeySize)) (fun _ => Ok ())
    toyIdentity (Some toyIdentity) (fun _ => true) (fun _ => "") 67 ∅ (openFor "block") true true) as [_ (pk & sig & _ & Ha & _)].
  - by intros pub priv [= <- <-].
  - reflexivity.
  - reflexivity.
  - reflexivity.
  - apply bool_decide_true. set_solver.
  - vm_compute. reflexivity.
  - exists pk, sig. exact Ha.
Defined.

(** Core accepts everything. *)
Definition easyCore : L1Core := mkL1Core (fun _ => Ok (mkVerify true "" [])) (fun _ => Ok ()).

(** The mempool has the transaction only at the third look. *)
Definition lateView (i : nat) : Attempt :=
  let bc := if (i <? 2)%nat then NewBlockchain else set_mempool [txA] NewBlockchain in mkAttempt bc bc easyCore true true.

Lemma yes_vote_validated_witness : submitL1Vote 1 [tx_Hash txA] lateView = true.
Proof.
  apply (yes_vote_validated 1 [tx_Hash txA] lateView); [discriminate|]. exists 2%nat. split; [lia|]. split.
  - intros j Hj. assert (j = 0%nat \/ j = 1%nat) as [-> | ->] by lia; vm_compute; reflexivity.
  - exists [txA]. split; [reflexivity|]. split; [apply Forall_singleton, list_elem_of_singleton; reflexivity|]. split; vm_compute; reflexivity.
Defined.

(** The same proposal arrives twice, the second time with other transactions. *)
Definition twice : list (proposal * (nat -> Attempt)) :=
  [(L1Proposal "b" "p" 1 [tx_Hash txA], lateView); (L1Proposal "b" "p" 1 ["unknown"], lateView)].


(** A yes does not mean that the whole set is valid: when Core rejects one transaction
    for a reason that may pass, the validation succeeds with the others. *)
Definition pickyCore : L1Core :=
  mkL1Core (fun _ => Ok (mkVerify false "" [mkTxResult (tx_Hash txA) true ""; mkTxResult (tx_Hash txB) false "invalid nonce: expected 3, got 5"]))
    (fun _ => Ok ()).

Example yes_with_unready_transaction :
  let bc := set_mempool [txA; txB] NewBlockchain in
  submitL1Vote 2 [tx_Hash txA; tx_Hash txB] (fun _ => mkAttempt bc bc pickyCore true true) = true /\
  oc_ValidTxs (validateTxsForL1 pickyCore true true [Some txA; Some txB]) = [Some txA].
Proof. vm_compute. split; reflexivity. Qed.

(** The proposal's id is not compared with its transactions: a vote collected for one
    set is a valid vote for the same id over any other set. *)
Example vote_not_bound_to_transactions :
  (onL1Proposal "me" (computeVoteBlockID "l2" 9 ["other"] "root") "p" 1 [tx_Hash txA] lateView (mkVoter ∅ ∅)).2 =
  Some (true, computeVoteBlockID "l2" 9 ["other"] "root", true).
Proof. vm_compute. reflexivity. Qed.
