(* ===== verification/Admission.v ===== *)
(** * Admission of transactions (handlers.go, handlers_escrow_submit.go,
    handlers_deals.go, mempool_snapshot.go, txpool_restore.go)

    Every way a transaction enters the mempool ends in [admitToMempool]: the
    gateway checks faucet and XP rules, Core decides on the state file and a
    snapshot of both pools, and the insertion follows under [mempoolAdmitMu]. Core
    runs without the mutex, so what other requests do in between is an argument
    [meanwhile]. [Gateway] is the part of the handler and its services that these
    routes read and write. Core's answers are the fields of [GateCore]. A request
    body is the decoded struct; a route returns the new gateway and its answer. *)

From S2P Require Import Prelude GoStd GoJson Dag Tx Chain Pool Confirm TxPool Nonce Deals RateLimit ContactEconomy Ownership.
From Stdlib Require Import Floats.SpecFloat.

#[local] Open Scope Z_scope.

(** ** The snapshot for Core (mempool_snapshot.go) *)

Definition snapshotEntry (i : Z) (tx : Transaction) : coreJSON :=
  let m : coreJSON := list_to_map
    [("hash", JStr (tx_Hash tx)); ("from", JStr (tx_From tx)); ("to", JStr (tx_To tx)); ("asset", JStr (coreAsset tx));
     ("amount", JNum (tx_AmountUplp tx)); ("fee_uplp", JNum (tx_FeeUplp tx)); ("nonce", JNum (tx_Nonce tx));
     ("sig_main", JStr (tx_SigMain tx)); ("sig_derived", JStr (tx_SigDerived tx)); ("arrival_index", JNum i);
     ("timestamp", JNum (tx_Timestamp tx)); ("reads", JStrs (tx_Reads tx)); ("writes", JStrs (tx_Writes tx))] in
  let m := putIf ((tx_FeeUplp tx =? 0) && nonEmpty (tx_Fee tx)) "fee" (JStr (tx_Fee tx)) m in
  let m := putIf ((tx_AmountUplp tx =? 0) && nonEmpty (tx_Value tx)) "amount" (JStr (tx_Value tx)) m in
  let m := putIf (nonEmpty (tx_PubMain tx)) "pub_main" (JStr (tx_PubMain tx)) m in
  putIf (nonEmpty (tx_PubDerived tx)) "pub_derived" (JStr (tx_PubDerived tx)) m.

Definition transactionSnapshotJSON (txs : list Transaction) : list coreJSON :=
  imap (fun i tx => snapshotEntry (Z.of_nat i) tx) txs.

Definition AdmissionSnapshotJSON (bc : Blockchain) : list coreJSON := transactionSnapshotJSON (pendingBlock bc ++ mempool bc).

(** ** Decoding *)

(** [mapToTx]: the transaction and its [BlockNumber]; [ref] is the new object. *)
Definition mapToTx {C : GoConv} (ref : positive) (m : jobj) : option (Transaction * Z) :=
  let str := field asString "" m in
  let int := field asInt64 0 m in
  let uint := field asUint64 0 m in
  let strs := field asStrings [] m in
  hash ← str "hash"; from ← str "from"; to ← str "to"; value ← str "value"; fee ← str "fee";
  nonce ← int "nonce"; ts ← int "timestamp"; type ← str "type"; assetType ← str "assetType";
  contract ← str "contractAddress"; sigMain ← str "sig_main"; sigDerived ← str "sig_derived";
  pubMain ← str "pub_main"; pubDerived ← str "pub_derived"; asset ← str "asset"; amount ← uint "amount";
  feeUplp ← uint "fee_uplp"; reads ← strs "reads"; writes ← strs "writes"; blockNumber ← int "blockNumber";
  rid ← str "request_id_hash"; eid ← str "escrow_id"; purpose ← str "purpose"; expires ← int "expires_at";
  so ← field asUint8Ptr None m "settle_outcome"; sok ← str "settle_outcome_key"; payee ← str "settle_payee";
  node ← str "settle_node";
  if String.eqb hash "" then None
  else Some (mkTx ref hash from to value fee nonce ts type assetType contract sigMain sigDerived pubMain pubDerived asset
               amount feeUplp reads writes rid eid purpose expires so sok payee node, blockNumber).

(** ** Core, as these routes use it *)

Record MempoolAdmitResult := mkAdmitResult { ma_Accepted : bool; ma_Error : string }.

Record CoreVerifyMessage := mkVerify {
  vm_From : string; vm_To : string; vm_Value : string; vm_Nonce : Z; vm_Timestamp : option jval; vm_Type : string
}.

Record EscrowSignOpts := mkSignOpts {
  so_TxKind : string; so_EscrowID : string; so_Purpose : string; so_ExpiresAt : Z; so_SettleOutcomeKey : string;
  so_SettlePayee : string; so_SettleNode : string
}.

Record SignRequest := mkSign {
  sg_From : string; sg_To : string; sg_Asset : string; sg_Amount : Z; sg_FeeUplp : Z; sg_Nonce : Z; sg_Reads : list string;
  sg_Writes : list string; sg_Mnemonic : string; sg_Alphanumeric : string; sg_Opts : EscrowSignOpts
}.

(** The struct that [parseSignedEscrowTx] unmarshals. *)
Record SignedTx := mkSigned {
  st_Hash : string; st_From : string; st_To : string; st_Asset : string; st_Amount : Z; st_FeeUplp : Z; st_Nonce : Z;
  st_SigMain : string; st_SigDerived : string; st_PubMain : string; st_PubDerived : string; st_Reads : list string;
  st_Writes : list string; st_TxKind : string; st_EscrowID : string; st_RequestIDHash : string; st_Purpose : string;
  st_ExpiresAt : Z; st_SettleOutcomeKey : string; st_SettlePayee : string; st_SettleNode : string
}.

Record GateCore (CS : Type) := mkGateCore {
  MempoolAdmit : CS -> coreJSON -> list coreJSON -> result MempoolAdmitResult;
  VerifyTxSignature : CoreVerifyMessage -> string -> string -> result bool;
  SignTransactionExt : SignRequest -> result (option SignedTx);
  keyCore : KeyCore
}.
Arguments mkGateCore {CS} _ _ _ _.
Arguments MempoolAdmit {CS} _ _ _ _.
Arguments VerifyTxSignature {CS} _ _ _ _.
Arguments SignTransactionExt {CS} _ _.
Arguments keyCore {CS} _.

(** What does not change while requests are served. [g_query] is the account
    query of the ledger, [None] without a ledger. *)
Record GateConfig (CS : Type) := mkGateConfig {
  g_core : option (GateCore CS);
  g_query : option (CS -> string -> result Z);
  g_testnet : bool;
  g_operatorWallet : string
}.
Arguments mkGateConfig {CS} _ _ _ _.
Arguments g_core {CS} _.
Arguments g_query {CS} _.
Arguments g_testnet {CS} _.
Arguments g_operatorWallet {CS} _.

Record Gateway (CS : Type) := mkGateway {
  g_world : World CS;
  g_reserved : Reserved;
  g_txPool : option TxPool.Store;
  g_book : Book;
  g_economy : option ContactEconomy.Store;
  g_rate : option Limiter
}.
Arguments mkGateway {CS} _ _ _ _ _ _.
Arguments g_world {CS} _.
Arguments g_reserved {CS} _.
Arguments g_txPool {CS} _.
Arguments g_book {CS} _.
Arguments g_economy {CS} _.
Arguments g_rate {CS} _.

Section admission.
Context {CS : Type} {R : GoRange} {C : GoConv}.
(** [json.Marshal] of a transaction with its block number. *)
Variable marshal : Transaction -> Z -> string.
Implicit Types (g : Gateway CS) (k : GateConfig CS) (f : Faults CS) (o : putOutcome).

Definition g_bc g : Blockchain := w_bc (g_world g).

Definition with_world (w : World CS) g : Gateway CS :=
  mkGateway w (g_reserved g) (g_txPool g) (g_book g) (g_economy g) (g_rate g).
Definition with_gbc (bc : Blockchain) g : Gateway CS := with_world (with_bc bc (g_world g)) g.
Definition with_reserved (m : Reserved) g : Gateway CS :=
  mkGateway (g_world g) m (g_txPool g) (g_book g) (g_economy g) (g_rate g).
Definition with_txPool (p : option TxPool.Store) g : Gateway CS :=
  mkGateway (g_world g) (g_reserved g) p (g_book g) (g_economy g) (g_rate g).
Definition with_book (b : Book) g : Gateway CS :=
  mkGateway (g_world g) (g_reserved g) (g_txPool g) b (g_economy g) (g_rate g).
Definition with_economy (s : option ContactEconomy.Store) g : Gateway CS :=
  mkGateway (g_world g) (g_reserved g) (g_txPool g) (g_book g) s (g_rate g).
Definition with_rate (l : option Limiter) g : Gateway CS :=
  mkGateway (g_world g) (g_reserved g) (g_txPool g) (g_book g) (g_economy g) l.

(** ** Validation and insertion *)

Definition validateTxViaCore k (tx : Transaction) g : result unit :=
  match g_core k with
  | None => Err "rust core unavailable"
  | Some core =>
      match ToCoreJSON (Some tx) with
      | None => Err "transaction missing Core signature fields"
      | Some coreJSON =>
          match MempoolAdmit core (w_state (g_world g)) coreJSON (AdmissionSnapshotJSON (g_bc g)) with
          | Err e => Err e
          | Ok res =>
              if ma_Accepted res then Ok ()
              else Err (if nonEmpty (ma_Error res) then ma_Error res else "mempool admit rejected")
          end
      end
  end.

Definition validateTxForMempool k (tx : Transaction) g : result unit :=
  if String.eqb (tx_From tx) FaucetAddress || String.eqb (tx_Type tx) "faucet"
  then Err "faucet transactions are not admitted to mempool"
  else if IsNonTransferableAsset (tx_Asset tx) then Err "Token:XP is accumulate-only and cannot be transferred"
  else match g_core k, g_query k with
  | None, _ => Err "rust core unavailable"
  | _, None => Err "core ledger unavailable"
  | _, _ => validateTxViaCore k tx g
  end.

(** [SaveAdmittedTx]: a failed write of the pool file is only logged. *)
Definition SaveAdmittedTx o (tx : Transaction) g : Gateway CS :=
  match g_txPool g with
  | None => g
  | Some pool =>
      if String.eqb (tx_Hash tx) "" || bool_decide (tx_Hash tx ∈ confirmedHashes (g_bc g)) then g
      else with_txPool (Some (Put (fun _ => true) o (tx_Hash tx) (marshal tx (BlockNumber (g_bc g) tx)) pool).1) g
  end.

Definition wantsSnapshot (tx : Transaction) : bool :=
  bool_decide (tx_Type tx ∈ ["escrow_lock"; "escrow_settle"; "escrow_cancel"; "escrow_refund"]) || String.eqb (tx_Purpose tx) "deal".

Definition indexMempoolAdmission f o (tx : Transaction) g : Gateway CS * result unit :=
  match AddToMempool tx (g_bc g) with
  | Err e => (g, Err e)
  | Ok bc =>
      let bc := match AddTransaction tx bc with Ok bc => bc | Err _ => bc end in
      let g := SaveAdmittedTx o tx (with_gbc bc g) in
      (if wantsSnapshot tx then with_world (persistChain f (g_world g)).1 g else g, Ok ())
  end.

Definition admitToMempool k f o (meanwhile : Gateway CS -> Gateway CS) (tx : Transaction) g : Gateway CS * result unit :=
  match validateTxForMempool k tx g with
  | Err e => (g, Err e)
  | Ok _ =>
      let '(g, r) := indexMempoolAdmission f o tx (meanwhile g) in
      match r with
      | Err e => (g, Err e)
      | Ok _ => (with_reserved (clearReservedNonceLocked (tx_From tx) (u64 (tx_Nonce tx)) (g_reserved g)) g, Ok ())
      end
  end.

(** A decoded object comes with its block number. *)
Definition receive (tx : Transaction) (n : Z) g : Gateway CS := with_gbc (setBlockNumber tx n (g_bc g)) g.

Definition onMempoolAdd k f o meanwhile (ref : positive) (txMap : jobj) g : Gateway CS :=
  match mapToTx ref txMap with
  | None => g
  | Some (tx, n) => (admitToMempool k f o meanwhile tx (receive tx n g)).1
  end.

(** The objects of a peer's pending block, [refs] being fresh. *)
Definition onPendingBlockSync (refs : list positive) (pending : list jobj) g : Gateway CS :=
  let decoded := omap id (zip_with mapToTx refs pending) in
  let g := foldl (fun g '(tx, n) => receive tx n g) g decoded in
  match decoded with
  | [] => g
  | _ => with_gbc (SyncPendingBlock (Some <$> decoded.*1) (g_bc g)) g
  end.

(** ** A signed transaction over HTTP *)

(** [strconv.ParseFloat]. *)
Variable ParseFloat : string -> option spec_float.

Definition parseFloatAmount (v : spec_float) : result Z :=
  if negb (float_pos v) then Err "amount must be greater than 0"
  else if negb (float_integral v) then Err "amount must be integer uPLP"
  else Ok (uint64_of_float v).

Definition parseAmountToUplp (raw : option jval) : result Z :=
  match raw with
  | None | Some JNull => Err "missing amount"
  | Some (JNumber v) => parseFloatAmount v
  | Some (JUint v) => if v =? 0 then Err "amount must be greater than 0" else Ok v
  | Some (JString v) =>
      let s := TrimSpace v in
      if String.eqb s "" then Err "empty amount"
      else if Contains s "." || Contains s "e" || Contains s "E" then
        match ParseFloat s with Some v => parseFloatAmount v | None => Err "invalid amount" end
      else
        let '(u, ok) := ParseUint s in
        if negb ok then Err "invalid amount" else if u =? 0 then Err "amount must be greater than 0" else Ok u
  | Some _ => Err "unsupported amount type"
  end.

Definition normalizeCoreTxAmountField (txData : jobj) : result jobj :=
  match parseAmountToUplp (jget txData "amount") with
  | Err e => Err e
  | Ok uplp => Ok (txData ++ [("amount", JUint uplp)])
  end.

(** The defaults of [submitCoreSignedTx]. *)
Definition orStr (s fallback : string) : string := if String.eqb s "" then fallback else s.

Definition submitDefaults (now : Z) (tx : Transaction) : Transaction :=
  mkTx (tx_ref tx) (tx_Hash tx) (tx_From tx) (tx_To tx)
    (if String.eqb (tx_Value tx) "" && (0 <? tx_AmountUplp tx) then FormatUint (tx_AmountUplp tx) else tx_Value tx)
    (if String.eqb (tx_Fee tx) "" && (0 <? tx_FeeUplp tx) then FormatUint (tx_FeeUplp tx) else tx_Fee tx)
    (tx_Nonce tx) (if tx_Timestamp tx =? 0 then now else tx_Timestamp tx) (orStr (tx_Type tx) "transfer")
    (orStr (tx_AssetType tx) "native") (tx_ContractAddress tx) (tx_SigMain tx) (tx_SigDerived tx) (tx_PubMain tx)
    (tx_PubDerived tx) (orStr (tx_Asset tx) "PLP") (tx_AmountUplp tx) (tx_FeeUplp tx) (tx_Reads tx) (tx_Writes tx)
    (tx_RequestIDHash tx) (tx_EscrowID tx) (tx_Purpose tx) (tx_ExpiresAt tx) (tx_SettleOutcome tx) (tx_SettleOutcomeKey tx)
    (tx_SettlePayee tx) (tx_SettleNode tx).

Definition requireDealGuarantor k (tx : Transaction) : result unit :=
  if negb (String.eqb (tx_Purpose tx) PurposeDeal) || negb (String.eqb (tx_Type tx) TxKindLock) then Ok ()
  else
  let node := TrimSpace (g_operatorWallet k) in
  if String.eqb node "" then Err "this node has no guarantor address"
  else if negb (EqualFold (TrimSpace (tx_SettleNode tx)) node) then Err "guarantor is assigned by the node"
  else Ok ().

Definition submitCoreSignedTx k f o meanwhile (ref : positive) (now : Z) (txData : jobj) g : Gateway CS * result Transaction :=
  if g_testnet k && negb (bool_decide (is_Some (g_query k))) then (g, Err "Testnet requires Platarium Core; core unavailable")
  else match normalizeCoreTxAmountField txData with
  | Err e => (g, Err e)
  | Ok txData =>
      match mapToTx ref txData with
      | None => (g, Err "Invalid Core-signed transaction")
      | Some (tx, n) =>
          if tx_AmountUplp tx =? 0 then (g, Err "Invalid amount: amount must be greater than 0")
          else
          let tx := submitDefaults now tx in
          if IsNonTransferableAsset (tx_Asset tx) then (g, Err "Token:XP is accumulate-only and cannot be transferred")
          else match requireDealGuarantor k tx with
          | Err e => (g, Err e)
          | Ok _ =>
              let '(g, r) := admitToMempool k f o meanwhile tx (receive tx n g) in
              match r with Err e => (g, Err e) | Ok _ => (g, Ok tx) end
          end
      end
  end.

(** The legacy path with one signature: the transaction is indexed, not put in
    the mempool. [stamp] is the clock formatted to the second. *)
Definition coreMessageForVerification (txData : jobj) : CoreVerifyMessage :=
  mkVerify (getString txData "from") (getString txData "to") (orStr (getString txData "amount") (getString txData "value"))
    (getInt txData "nonce") (jget txData "timestamp") (orStr (getString txData "type") "transfer").

Definition generateHash (stamp : string) : string := stamp +:+ "-hash".

Definition legacyTx (ref : positive) (stamp : string) (now : Z) (txData : jobj) : Transaction :=
  mkTx ref (generateHash stamp) (getString txData "from") (getString txData "to") (getString txData "amount") "1"
    (getInt txData "nonce") now (orStr (getString txData "type") "transfer") (orStr (getString txData "assetType") "native")
    (getString txData "contractAddress") "" "" "" "" "" 0 0 [] [] "" "" "" 0 None "" "" "".

(** The check of the signature: always on a testnet, elsewhere only when Core is
    attached and the fields are given, and then an error of Core is no refusal. *)
Definition legacyCheck k (txData : jobj) : result unit :=
  let signature := getString txData "signature" in
  let pubKey := orStr (getString txData "pubkey") (getString txData "from") in
  if g_testnet k then
    match g_core k with
    | None => Err "Testnet requires Platarium Core; core unavailable"
    | Some core =>
        if String.eqb signature "" then Err "Testnet requires signature"
        else if String.eqb pubKey "" then Err "Testnet requires pubkey or from (public key)"
        else match VerifyTxSignature core (coreMessageForVerification txData) signature pubKey with
        | Err e => Err ("Signature verification failed: " +:+ e)
        | Ok false => Err "Invalid signature"
        | Ok true => Ok ()
        end
    end
  else match g_core k with
  | None => Ok ()
  | Some core =>
      if nonEmpty signature && nonEmpty pubKey then
        match VerifyTxSignature core (coreMessageForVerification txData) signature pubKey with
        | Ok false => Err "Invalid signature"
        | _ => Ok ()
        end
      else Ok ()
  end.

Definition SendTransaction k f o meanwhile (ref : positive) (stamp : string) (now : Z) (txData : jobj) g
  : Gateway CS * result Transaction :=
  if nonEmpty (getString txData "sig_main") then submitCoreSignedTx k f o meanwhile ref now txData g
  else match legacyCheck k txData with
  | Err e => (g, Err e)
  | Ok _ =>
      let tx := legacyTx ref stamp now txData in
      match AddTransaction tx (g_bc g) with
      | Err e => (g, Err e)
      | Ok bc => (with_gbc bc g, Ok tx)
      end
  end.

(** ** Escrow routes *)

(** The headers and addresses of a request; [rq_Host] is [net.SplitHostPort] of
    the remote address. *)
Record Request := mkRequest { rq_XForwardedFor : string; rq_RemoteAddr : string; rq_Host : option string; rq_DeviceHeader : string }.

Definition firstPart (s : string) : string := let i := Index s "," in if i <? 0 then s else str_take (Z.to_nat i) s.

Definition ClientIP (r : Request) : string :=
  let xff := TrimSpace (rq_XForwardedFor r) in
  if nonEmpty xff then TrimSpace (firstPart xff)
  else default (rq_RemoteAddr r) (rq_Host r).

Definition DeviceID (r : Request) : string := TrimSpace (rq_DeviceHeader r).

Definition allowContactRate (now : Z) (r : Request) (action : string) g : Gateway CS * bool :=
  match g_rate g with
  | None => (g, true)
  | Some l =>
      let dev := DeviceID r in
      let key := if nonEmpty dev then action +:+ "|dev:" +:+ dev else action +:+ "|" +:+ ClientIP r in
      let '(l, ok) := Allow l now key in (with_rate (Some l) g, ok)
  end.

Definition allocateNonceForAddress k (address : string) g : Gateway CS * result Z :=
  if String.eqb address "" then (g, Err "empty address")
  else
  let query := match g_query k with Some q => q (w_state (g_world g)) | None => fun _ => Err "" end in
  let '(m, r) := allocateNonceLocked (bool_decide (is_Some (g_query k))) query address (g_bc g) (g_reserved g) in
  (with_reserved m g, match r with Ok (n, _) => Ok (i64 n) | Err e => Err e end).

Definition releaseNonceForAddress (address : string) (nonce : Z) g : Gateway CS :=
  if nonce <? 0 then g else with_reserved (releaseNonceLocked address (u64 nonce) (g_bc g) (g_reserved g)).1 g.

(** [now] is the clock of the gateway. *)
Definition parseSignedEscrowTx (ref : positive) (now : Z) (signed : option SignedTx) : result Transaction :=
  match signed with
  | None => Err "parse signed tx"
  | Some t =>
      if String.eqb (st_TxKind t) "" then Err "signed tx missing tx_kind"
      else
      let escrowID := orStr (st_EscrowID t) (st_RequestIDHash t) in
      if String.eqb escrowID "" then Err "signed tx missing escrow_id"
      else Ok (mkTx ref (st_Hash t) (st_From t) (st_To t) (FormatUint (st_Amount t)) (FormatUint (st_FeeUplp t)) (st_Nonce t) now
                 (st_TxKind t) "native" "" (st_SigMain t) (st_SigDerived t) (st_PubMain t) (st_PubDerived t) (st_Asset t)
                 (st_Amount t) (st_FeeUplp t) (st_Reads t) (st_Writes t) escrowID escrowID (st_Purpose t) (i64 (st_ExpiresAt t))
                 None (st_SettleOutcomeKey t) (st_SettlePayee t) (st_SettleNode t))
  end.

(** The sender given, or the one whose keys the mnemonic yields. *)
Definition senderOf (core : GateCore CS) (from mnemonic alphanumeric : string) : result string :=
  if nonEmpty (TrimSpace from) then Ok (TrimSpace from)
  else match publicKeyOf (keyCore core) mnemonic alphanumeric with
  | Err e => Err ("GenerateKeys: " +:+ e)
  | Ok pk => Ok pk
  end.

Definition nonceFor k (given : option Z) (from : string) g : Gateway CS * result Z :=
  match given with
  | Some n => (g, Ok n)
  | None => let '(g, r) := allocateNonceForAddress k from g in
            (g, match r with Ok n => Ok n | Err e => Err ("nonce: " +:+ e) end)
  end.

(** Sign, parse and admit; the nonce is released when any of them fails. *)
Definition signAndAdmit k f o meanwhile (core : GateCore CS) (ref : positive) (now : Z) (from : string) (nonce : Z)
  (req : SignRequest) g : Gateway CS * result Transaction :=
  let fail g e := (releaseNonceForAddress from nonce g, Err e) in
  match SignTransactionExt core req with
  | Err e => fail g ("SignTransaction: " +:+ e)
  | Ok signed =>
      match parseSignedEscrowTx ref now signed with
      | Err e => fail g e
      | Ok tx =>
          let '(g, r) := admitToMempool k f o meanwhile tx g in
          match r with Err e => fail g e | Ok _ => (g, Ok tx) end
      end
  end.

Record LockBody := mkLockBody {
  lb_Mnemonic : string; lb_Alphanumeric : string; lb_From : string; lb_Beneficiary : string; lb_EscrowID : string;
  lb_AmountUplp : Z; lb_FeeUplp : Z; lb_Nonce : option Z; lb_ExpiresAt : Z; lb_Purpose : string
}.

Definition orFee (fee : Z) : Z := if fee =? 0 then 1 else fee.

Definition SubmitEscrowLock k f o meanwhile (r : Request) (clock : Z) (ref : positive) (now : Z) (b : LockBody) g
  : Gateway CS * result Transaction :=
  let '(g, allowed) := allowContactRate clock r "escrow_lock" g in
  if negb allowed then (g, Err "rate limit exceeded")
  else match g_core k with
  | None => (g, Err "core unavailable")
  | Some core =>
      if String.eqb (TrimSpace (lb_Mnemonic b)) "" || String.eqb (TrimSpace (lb_Alphanumeric b)) ""
      then (g, Err "mnemonic and alphanumeric required")
      else if String.eqb (lb_EscrowID b) "" || String.eqb (lb_Beneficiary b) "" || (lb_AmountUplp b =? 0)
      then (g, Err "escrowId, beneficiary, amountUplp required")
      else match senderOf core (lb_From b) (lb_Mnemonic b) (lb_Alphanumeric b) with
      | Err e => (g, Err e)
      | Ok from =>
          let '(g, n) := nonceFor k (lb_Nonce b) from g in
          match n with
          | Err e => (g, Err e)
          | Ok nonce =>
              let expires := if lb_ExpiresAt b =? 0 then i64 (now + 30 * 24 * 3600) else lb_ExpiresAt b in
              let opts := mkSignOpts TxKindLock (lb_EscrowID b) (DefaultPurpose (lb_Purpose b)) (u64 expires) "" (lb_Beneficiary b) "" in
              signAndAdmit k f o meanwhile core ref now from nonce
                (mkSign from (lb_Beneficiary b) "PLP" (lb_AmountUplp b) (orFee (lb_FeeUplp b)) (u64 nonce) []
                   [from; lb_Beneficiary b] (lb_Mnemonic b) (lb_Alphanumeric b) opts) g
          end
      end
  end.

Record SettleBody := mkSettleBody {
  sb_Mnemonic : string; sb_Alphanumeric : string; sb_From : string; sb_EscrowID : string; sb_AmountUplp : Z; sb_FeeUplp : Z;
  sb_Nonce : option Z; sb_OutcomeKey : string; sb_Beneficiary : string; sb_Creator : string; sb_Node : string; sb_Purpose : string;
  sb_RequestID : string
}.

(** The settlement is noted in the contact store; a failed write is ignored. *)
Definition noteSettled (saved : bool) (requestID escrowID hash : string) g : Gateway CS :=
  match g_economy g with
  | None => g
  | Some ce =>
      let id := if nonEmpty requestID then Some requestID else cr_RequestID <$> FindByEscrowID escrowID ce in
      match id with
      | Some id => with_economy (Some (MarkSettled saved id hash ce).1) g
      | None => g
      end
  end.

Definition settleOutcome (key : string) : string := orStr (MapProtocolOutcome key) (TrimSpace key).

Definition SubmitEscrowSettle k f o meanwhile (saved : bool) (r : Request) (clock : Z) (ref : positive) (now : Z) (b : SettleBody) g
  : Gateway CS * result Transaction :=
  let '(g, allowed) := allowContactRate clock r "escrow_settle" g in
  if negb allowed then (g, Err "rate limit exceeded")
  else match g_core k with
  | None => (g, Err "core unavailable")
  | Some core =>
      if String.eqb (TrimSpace (sb_Mnemonic b)) "" || String.eqb (TrimSpace (sb_Alphanumeric b)) ""
      then (g, Err "mnemonic and alphanumeric required")
      else
      let outcome := settleOutcome (sb_OutcomeKey b) in
      if String.eqb (sb_EscrowID b) "" || (sb_AmountUplp b =? 0) || String.eqb outcome ""
      then (g, Err "escrowId, amountUplp, outcomeKey required")
      else match senderOf core (sb_From b) (sb_Mnemonic b) (sb_Alphanumeric b) with
      | Err e => (g, Err e)
      | Ok from =>
          let to := orStr (orStr (sb_Creator b) (sb_Beneficiary b)) from in
          let '(g, n) := nonceFor k (sb_Nonce b) from g in
          match n with
          | Err e => (g, Err e)
          | Ok nonce =>
              let opts := mkSignOpts TxKindSettle (sb_EscrowID b) (DefaultPurpose (sb_Purpose b)) 0 outcome (sb_Beneficiary b) (sb_Node b) in
              let '(g, res) := signAndAdmit k f o meanwhile core ref now from nonce
                (mkSign from to "PLP" (sb_AmountUplp b) (orFee (sb_FeeUplp b)) (u64 nonce) [] [from; to] (sb_Mnemonic b)
                   (sb_Alphanumeric b) opts) g in
              match res with
              | Err e => (g, Err e)
              | Ok tx => (noteSettled saved (sb_RequestID b) (sb_EscrowID b) (tx_Hash tx) g, Ok tx)
              end
          end
      end
  end.

(** ** Deal routes (handlers_deals.go) *)

Record signedDealBody := mkDealBody { db_Mnemonic : string; db_Alphanumeric : string; db_Transaction : option SignedTx; db_CaseID : string }.

Definition rejectSecretMaterial (b : signedDealBody) : result unit :=
  if nonEmpty (TrimSpace (db_Mnemonic b)) || nonEmpty (TrimSpace (db_Alphanumeric b))
  then Err "mnemonic is not accepted on the signed deal path" else Ok ().

Definition admitted (p : Gateway CS * result unit) (tx : Transaction) : Gateway CS * result Transaction :=
  (p.1, match p.2 with Ok _ => Ok tx | Err e => Err e end).

Definition SubmitDealLock k f o meanwhile (ref : positive) (now : Z) (b : signedDealBody) g : Gateway CS * result Transaction :=
  match rejectSecretMaterial b with
  | Err e => (g, Err e)
  | Ok _ =>
      match parseSignedEscrowTx ref now (db_Transaction b) with
      | Err e => (g, Err e)
      | Ok tx =>
          if negb (String.eqb (tx_Type tx) TxKindLock) || negb (String.eqb (tx_Purpose tx) PurposeDeal)
          then (g, Err "signed lock must use purpose deal")
          else match requireDealGuarantor k tx with
          | Err e => (g, Err e)
          | Ok _ =>
              if negb (String.eqb (tx_Asset tx) "PLP") then (g, Err "deal lock asset must be PLP")
              else admitted (admitToMempool k f o meanwhile tx g) tx
          end
      end
  end.

(** The panel and the quorum of a dispute; asking for the quorum may freeze the
    case. *)
Definition checkDispute (caseID outcomeKey : string) g : Gateway CS * result unit :=
  match Panel caseID (g_book g) with
  | None => (g, Err "recorded panel is required")
  | Some _ =>
      let '(book, q) := Quorum caseID (g_book g) in
      let g := with_book book g in
      if bool_decide (q = Some outcomeKey) then (g, Ok ()) else (g, Err "dispute quorum does not match this settle")
  end.

Definition admitDealSettle k f o meanwhile (dispute : bool) (ref : positive) (now : Z) (b : signedDealBody) g
  : Gateway CS * result Transaction :=
  match rejectSecretMaterial b with
  | Err e => (g, Err e)
  | Ok _ =>
      match parseSignedEscrowTx ref now (db_Transaction b) with
      | Err e => (g, Err e)
      | Ok tx =>
          if negb (String.eqb (tx_Type tx) TxKindSettle) || negb (String.eqb (tx_Purpose tx) PurposeDeal)
          then (g, Err "signed settle must use purpose deal")
          else match (if String.eqb (tx_SettleOutcomeKey tx) "timeout" then TimeoutAllowed (db_CaseID b) (g_book g) else Ok ()) with
          | Err e => (g, Err e)
          | Ok _ =>
              let '(g, r) := if dispute then checkDispute (db_CaseID b) (tx_SettleOutcomeKey tx) g else (g, Ok ()) in
              match r with
              | Err e => (g, Err e)
              | Ok _ => admitted (admitToMempool k f o meanwhile tx g) tx
              end
          end
      end
  end.

Record DisputeBody := mkDispute {
  dp_Terms : string; dp_OpenBlock : string; dp_EscrowID : string; dp_Bonded : list string; dp_Creator : string;
  dp_Beneficiary : string; dp_Node : string; dp_PriorResult : string; dp_Party : string
}.

Definition OpenDealDispute (b : DisputeBody) g : Gateway CS * result Brief :=
  if nonEmpty (dp_Party b) && negb (String.eqb (dp_Party b) (dp_Creator b)) && negb (String.eqb (dp_Party b) (dp_Beneficiary b))
  then (g, Err "only a party may open a complaint")
  else
  let book := g_book g in
  let book := match bk_roster book, dp_Bonded b with [], _ :: _ => SetRoster (dp_Bonded b) book | _, _ => book end in
  let '(book, r) := OpenAppeal (dp_Terms b) (dp_OpenBlock b) (dp_EscrowID b) (dp_Bonded b)
                      [dp_Creator b; dp_Beneficiary b; dp_Node b] (dp_PriorResult b) book in
  (with_book book g, r).

(** The remaining deal routes pass their arguments to the book. *)
Definition onBook {A} (op : Book -> Book * A) g : Gateway CS * A := let '(b, a) := op (g_book g) in (with_book b g, a).

Definition PutVolunteerRoster (bonded : list string) g : Gateway CS := with_book (SetRoster bonded (g_book g)) g.
Definition CommitVolunteer (caseID key verdictHash : string) g := onBook (Deals.Commit caseID key verdictHash) g.
Definition RevealVolunteer (caseID key verdict nonce : string) g := onBook (RevealNonce caseID key verdict nonce) g.
Definition FreezeVolunteerHeight (height : Z) g : Gateway CS := with_book (SetHeight height (g_book g)) g.
End admission.
