(* ===== verification/AdmissionSpec.v ===== *)
(** * What admission guarantees *)

From S2P Require Import Prelude GoStd GoJson Dag Tx Chain Pool Confirm ConfirmSpec BoundarySpec TxPool Nonce Deals DealsSpec RateLimit ContactEconomy Ownership ForkChoice History Explorer Admission.
From Stdlib Require Import Floats.SpecFloat.

#[local] Open Scope Z_scope.

Section spec.
Context {CS : Type} {R : GoRange} {C : GoConv}.
Variable marshal : Transaction -> Z -> string.
Implicit Types (g : Gateway CS) (k : GateConfig CS) (f : Faults CS) (o : putOutcome).

(** ** Insertion *)

Lemma AddToMempool_hash tx bc bc' : AddToMempool tx bc = Ok bc' -> tx_Hash tx <> "".
Proof. unfold AddToMempool. destruct (String.eqb_spec (tx_Hash tx) ""); [done|]. done. Qed.

Lemma AddTransaction_spec tx bc : tx_Hash tx <> "" ->
  exists bc', AddTransaction tx bc = Ok bc' /\ mempool bc' = mempool bc /\ pendingBlock bc' = pendingBlock bc /\
    confirmedHashes bc' = confirmedHashes bc /\ transactions bc' = <[tx_Hash tx := tx]> (transactions bc).
Proof. intros H. unfold AddTransaction. rewrite (proj2 (String.eqb_neq _ _) H). eexists. by split_and!. Qed.

Lemma Save_frame o tx g :
  let g' := SaveAdmittedTx marshal o tx g in
  g_world g' = g_world g /\ g_reserved g' = g_reserved g /\ g_book g' = g_book g /\ g_economy g' = g_economy g.
Proof. unfold SaveAdmittedTx. cbv zeta. repeat case_match; by split_and!. Qed.

Lemma index_spec f o tx g g' r :
  indexMempoolAdmission marshal f o tx g = (g', r) ->
  g_reserved g' = g_reserved g /\ g_book g' = g_book g /\ g_economy g' = g_economy g /\ w_state (g_world g') = w_state (g_world g) /\
  match r with
  | Err _ => g' = g
  | Ok _ => exists bc1, AddToMempool tx (g_bc g) = Ok bc1 /\ mempool (g_bc g') = mempool bc1 /\
      pendingBlock (g_bc g') = pendingBlock bc1 /\ confirmedHashes (g_bc g') = confirmedHashes bc1 /\
      transactions (g_bc g') !! tx_Hash tx = Some tx
  end.
Proof.
  unfold indexMempoolAdmission. destruct (AddToMempool tx (g_bc g)) as [bc1|e] eqn:E; [|by intros [= <- <-]].
  destruct (AddTransaction_spec tx bc1) as (bc2 & H2 & Hm & Hp & Hc & Ht); [by eapply AddToMempool_hash|]. rewrite H2.
  destruct (Save_frame o tx (with_gbc bc2 g)) as (Sw & Sr & Sb & Se).
  set (g1 := SaveAdmittedTx marshal o tx (with_gbc bc2 g)) in *. clearbody g1.
  assert (Hlook : transactions bc2 !! tx_Hash tx = Some tx) by (rewrite Ht; by rewrite lookup_insert_eq).
  intros [= <- <-]. destruct (wantsSnapshot tx).
  - destruct (persistChain_frame f (g_world g1)) as (Ps & _ & d & Pd). unfold g_bc. simpl. rewrite Pd, Ps, Sw, Sr, Sb, Se. simpl.
    split_and!; try done. by exists bc1.
  - unfold g_bc. rewrite Sw, Sr, Sb, Se. split_and!; try done. by exists bc1.
Qed.

(** Core's consent to a transaction in a state of the gateway. *)
Definition coreAccepts k (tx : Transaction) g : Prop :=
  exists core json res, g_core k = Some core /\ ToCoreJSON (Some tx) = Some json /\
    MempoolAdmit core (w_state (g_world g)) json (AdmissionSnapshotJSON (g_bc g)) = Ok res /\ ma_Accepted res = true.

Lemma validate_spec k tx g :
  validateTxForMempool k tx g = Ok () ->
  tx_From tx <> FaucetAddress /\ tx_Type tx <> "faucet" /\ IsNonTransferableAsset (tx_Asset tx) = false /\ coreAccepts k tx g.
Proof.
  unfold validateTxForMempool, validateTxViaCore. intros H.
  destruct (String.eqb_spec (tx_From tx) FaucetAddress); [done|]. destruct (String.eqb_spec (tx_Type tx) "faucet"); [done|].
  cbn [orb] in H. destruct (IsNonTransferableAsset _); [done|]. destruct (g_core k) as [core|] eqn:Ec; [|done].
  destruct (g_query k); [|done]. destruct (ToCoreJSON _) as [json|] eqn:Ej; [|done].
  destruct (MempoolAdmit _ _ _ _) as [res|] eqn:Em; [|done]. destruct (ma_Accepted res) eqn:Ea; [|done].
  split_and!; try done. by exists core, json, res.
Qed.

Lemma clear_spec a n (m : Reserved) b :
  reservedOf b (clearReservedNonceLocked a n m) = if decide (a = b) then reservedOf a m ∖ {[n]} else reservedOf b m.
Proof.
  unfold clearReservedNonceLocked. destruct (m !! a) eqn:E; [apply reservedOf_drop|].
  case_decide; subst; [|done]. unfold reservedOf. rewrite E. simpl. set_solver.
Qed.

(** What a successful admission does to the gateway [g1] found at the insertion. *)
Definition inserted (tx : Transaction) g1 g' : Prop :=
  pendingBlock (g_bc g') = pendingBlock (g_bc g1) /\ confirmedHashes (g_bc g') = confirmedHashes (g_bc g1) /\
  (mempool (g_bc g') = mempool (g_bc g1) ++ [tx] /\ tx_Hash tx ∉ hashes (inflight (g_bc g1)) /\
     senderNonce tx ∉ senderNonce <$> inflight (g_bc g1) /\ tx_Hash tx ∉ confirmedHashes (g_bc g1) \/
   mempool (g_bc g') = mempool (g_bc g1) /\
     (tx_Hash tx ∈ confirmedHashes (g_bc g1) \/ tx_Hash tx ∈ hashes (inflight (g_bc g1)))) /\
  transactions (g_bc g') !! tx_Hash tx = Some tx /\
  (forall b, reservedOf b (g_reserved g') =
     if decide (tx_From tx = b) then reservedOf b (g_reserved g1) ∖ {[u64 (tx_Nonce tx)]} else reservedOf b (g_reserved g1)).

Lemma scanPool_same tx pool : scanPool tx pool = ScanSame -> tx_Hash tx ∈ hashes pool.
Proof.
  induction pool as [|t pool IH]; [done|]. unfold hashes in *. rewrite fmap_cons. simpl.
  destruct (String.eqb_spec (tx_Hash t) (tx_Hash tx)) as [->|]; [by left|].
  destruct (_ && _); [done|]. intros H. right. by apply IH.
Qed.

Lemma AddToMempool_where tx bc bc' : AddToMempool tx bc = Ok bc' ->
  pendingBlock bc' = pendingBlock bc /\ confirmedHashes bc' = confirmedHashes bc /\
  (mempool bc' = mempool bc ++ [tx] /\ tx_Hash tx ∉ hashes (inflight bc) /\ senderNonce tx ∉ senderNonce <$> inflight bc /\
     tx_Hash tx ∉ confirmedHashes bc \/
   mempool bc' = mempool bc /\ (tx_Hash tx ∈ confirmedHashes bc \/ tx_Hash tx ∈ hashes (inflight bc))).
Proof.
  intros H. assert (Hi : forall t, t ∈ hashes (mempool bc) \/ t ∈ hashes (pendingBlock bc) -> t ∈ hashes (inflight bc))
    by (intros t Ht; unfold inflight, hashes in *; rewrite fmap_app; set_solver).
  pose proof H as Hc. apply AddToMempool_cases in Hc as [->|(_ & Hn & Hf & ->)].
  - split_and!; [done..|]. right. split; [done|]. unfold AddToMempool in H.
    destruct (String.eqb _ _); [done|]. case_bool_decide; [by left|]. right. apply Hi.
    destruct (scanPool tx (pendingBlock bc)) eqn:Ep; [|right; by apply scanPool_same|done].
    destruct (scanPool tx (mempool bc)) eqn:Em; [|left; by apply scanPool_same|done].
    exfalso. injection H as H. apply (f_equal (length ∘ mempool)) in H. simpl in H. rewrite length_app in H. simpl in H. lia.
  - split_and!; [done..|]. left. rewrite Forall_forall in Hf. split_and!; [done| | |done].
    + intros (t & He & Ht)%list_elem_of_fmap. destruct (Hf t Ht). congruence.
    + intros (t & He & Ht)%list_elem_of_fmap. destruct (Hf t Ht). congruence.
Qed.

Lemma admit_ok k f o mw tx g g' :
  admitToMempool marshal k f o mw tx g = (g', Ok ()) ->
  validateTxForMempool k tx g = Ok () /\ inserted tx (mw g) g' /\ (pools_wf (g_bc (mw g)) -> pools_wf (g_bc g')) /\
  g_book g' = g_book (mw g) /\ g_economy g' = g_economy (mw g) /\ w_state (g_world g') = w_state (g_world (mw g)).
Proof.
  unfold admitToMempool. destruct (validateTxForMempool k tx g) as [[]|e]; [|done].
  destruct (indexMempoolAdmission marshal f o tx (mw g)) as [g1 [[]|e]] eqn:E; [|done]. intros [= <-].
  apply index_spec in E as (Er & Eb & Ee & Es & bc1 & Ha & Em & Ep & Ec & Et).
  split; [done|]. destruct (AddToMempool_where _ _ _ Ha) as (W1 & W2 & W3). split_and!; try done.
  - unfold inserted. change (g_bc (with_reserved _ g1)) with (g_bc g1). rewrite Em, Ep, Ec, W1, W2. split_and!; try done.
    intros b. simpl. rewrite clear_spec, Er. by case_decide; subst.
  - intros Hwf. apply (pools_wf_same bc1); [by eapply AddToMempool_wf|done..].
Qed.

Lemma admit_err k f o mw tx g g' e :
  admitToMempool marshal k f o mw tx g = (g', Err e) -> g' = g \/ g' = mw g.
Proof.
  unfold admitToMempool. destruct (validateTxForMempool k tx g) as [[]|e']; [|intros [= <- _]; by left].
  destruct (indexMempoolAdmission marshal f o tx (mw g)) as [g1 [[]|e']] eqn:E; [done|]. intros [= <- _].
  apply index_spec in E as (_ & _ & _ & _ & ->). by right.
Qed.

(** C11: admission to the mempool. Whatever other requests do while Core decides,
    an admitted transaction is no faucet transaction, moves no XP and was accepted
    by Core on its state and a snapshot of both pools; it is then the last entry of
    the mempool, with a hash and a (sender, nonce) pair that nothing in flight has,
    or its hash was already in flight or confirmed; the pools stay free of
    conflicts; its nonce is no longer reserved; and a refused transaction leaves
    the gateway to what the other requests made of it. *)
Theorem admission_sound k f o mw tx g g' r :
  admitToMempool marshal k f o mw tx g = (g', r) -> (pools_wf (g_bc g) -> pools_wf (g_bc (mw g))) -> pools_wf (g_bc g) ->
  pools_wf (g_bc g') /\
  match r with
  | Err _ => g' = g \/ g' = mw g
  | Ok _ => tx_From tx <> FaucetAddress /\ tx_Type tx <> "faucet" /\ IsNonTransferableAsset (tx_Asset tx) = false /\
      coreAccepts k tx g /\ inserted tx (mw g) g'
  end.
Proof.
  intros H Hmw Hwf. destruct r as [[]|e].
  - apply admit_ok in H as (Hv & Hi & Hw & _). apply validate_spec in Hv as (? & ? & ? & ?). split; [auto|by split_and!].
  - destruct (admit_err _ _ _ _ _ _ _ _ H) as [->| ->]; auto.
Qed.

(** ** Reservations *)

Lemma release_spec a n g b : n ∈ reservedOf a (g_reserved g) -> 0 <= n < 2 ^ 63 -> HasInFlightNonce (g_bc g) a n = false ->
  reservedOf b (g_reserved (releaseNonceForAddress a n g)) =
    if decide (a = b) then reservedOf a (g_reserved g) ∖ {[n]} else reservedOf b (g_reserved g).
Proof.
  intros Hin Hn Hf. unfold releaseNonceForAddress. rewrite (proj2 (Z.ltb_ge _ _)) by lia.
  rewrite u64_small by (unfold is_u64, two64; lia). cbn [g_reserved with_reserved]. unfold releaseNonceLocked.
  destruct (g_reserved g !! a) as [s|] eqn:E; [|unfold reservedOf in Hin; rewrite E in Hin; set_solver].
  assert (Hs : n ∈ s) by (unfold reservedOf in Hin; by rewrite E in Hin). rewrite bool_decide_eq_true_2 by done.
  rewrite i64_small by (unfold is_i64, two63; lia). rewrite Hf. apply reservedOf_drop.
Qed.

(** Core's account query answers with nonces that leave room for reservations. *)
Definition sane_query k : Prop := forall q cs a n, g_query k = Some q -> q cs a = Ok n -> 0 <= n < 2 ^ 63 - 257.

(** Core signs for the sender and with the nonce it is given. *)
Definition signs_request (core : GateCore CS) : Prop := forall req t,
  SignTransactionExt core req = Ok (Some t) -> st_From t = sg_From req /\ u64 (st_Nonce t) = sg_Nonce req.

Lemma nonceFor_spec k a g g1 r : sane_query k -> nonceFor k None a g = (g1, r) ->
  g_world g1 = g_world g /\
  match r with
  | Err _ => forall b, reservedOf b (g_reserved g1) = reservedOf b (g_reserved g)
  | Ok n => 0 <= n < 2 ^ 63 /\ n ∉ reservedOf a (g_reserved g) /\ HasInFlightNonce (g_bc g) a n = false /\
      forall b, reservedOf b (g_reserved g1) = if decide (a = b) then {[n]} ∪ reservedOf a (g_reserved g) else reservedOf b (g_reserved g)
  end.
Proof.
  intros Hq. unfold nonceFor, allocateNonceForAddress. destruct (String.eqb a ""); [by intros [= <- <-]|].
  destruct (g_query k) as [q|] eqn:Eq; [|by intros [= <- <-]].
  rewrite bool_decide_eq_true_2 by eauto. destruct (q (w_state (g_world g)) a) as [account|e] eqn:Ea.
  2: { unfold allocateNonceLocked. rewrite Ea. by intros [= <- <-]. }
  pose proof (allocate_spec (q (w_state (g_world g))) a (g_bc g) (g_reserved g) account Ea) as Hs.
  pose proof (Hq q _ _ _ Eq Ea) as Hacc. specialize (Hs ltac:(unfold two64; lia)).
  destruct (allocateNonceLocked _ _ _ _ _) as [m [[n acc]|e]]; intros [= <- <-]; (split; [done|]); destruct Hs as [Ho Hs].
  - destruct Hs as (_ & Hr & Hn & Hf & _ & Hm & _). rewrite i64_small in * by (unfold is_i64, two63; lia).
    split_and!; [lia|lia|done|done|]. intros b. simpl. case_decide; subst; auto.
  - destruct Hs as [Hm _]. intros b. simpl. destruct (decide (b = a)) as [->|]; auto.
Qed.

Lemma signAndAdmit_reserved k f o core ref now a n req g g' r b :
  signs_request core -> sg_From req = a -> sg_Nonce req = n ->
  n ∈ reservedOf a (g_reserved g) -> 0 <= n < 2 ^ 63 -> HasInFlightNonce (g_bc g) a n = false ->
  signAndAdmit marshal k f o (fun g => g) core ref now a n req g = (g', r) ->
  reservedOf b (g_reserved g') = if decide (a = b) then reservedOf a (g_reserved g) ∖ {[n]} else reservedOf b (g_reserved g).
Proof.
  intros Hsig Ha Hn Hin Hr Hf. unfold signAndAdmit.
  destruct (SignTransactionExt core req) as [signed|e] eqn:Es; [|intros [= <- _]; by apply release_spec].
  destruct (parseSignedEscrowTx ref now signed) as [tx|e] eqn:Ep; [|intros [= <- _]; by apply release_spec].
  destruct (admitToMempool marshal k f o (fun g => g) tx g) as [g1 [[]|e]] eqn:Ead; intros [= <- _].
  - apply admit_ok in Ead as (_ & (_ & _ & _ & _ & Hres) & _). rewrite Hres.
    assert (Htx : tx_From tx = a /\ u64 (tx_Nonce tx) = n).
    { unfold parseSignedEscrowTx in Ep. destruct signed as [t|]; [|done]. destruct (Hsig _ _ Es) as [H1 H2].
      repeat case_match; simplify_eq. simpl. by rewrite H1, H2. }
    destruct Htx as [-> ->]. by case_decide; subst.
  - destruct (admit_err _ _ _ _ _ _ _ _ Ead) as [->| ->]; by apply release_spec.
Qed.

Lemma rate_frame now q action g : let g' := (allowContactRate now q action g).1 in g_world g' = g_world g /\ g_reserved g' = g_reserved g.
Proof. unfold allowContactRate. cbv zeta. repeat case_match; simplify_eq; done. Qed.

Lemma held_then_dropped (s : gset Z) n : n ∉ s -> ({[n]} ∪ s) ∖ {[n]} = s.
Proof. set_solver. Qed.

Lemma reserve_sign k f o core ref now a g g1 n req g' r b :
  sane_query k -> signs_request core -> nonceFor k None a g = (g1, Ok n) -> sg_From req = a -> sg_Nonce req = u64 n ->
  signAndAdmit marshal k f o (fun g => g) core ref now a n req g1 = (g', r) ->
  reservedOf b (g_reserved g') = reservedOf b (g_reserved g).
Proof.
  intros Hq Hsig Hnf Ha Hn. apply nonceFor_spec in Hnf as (Hw & Hr & Hni & Hf & Hres); [|done].
  rewrite u64_small in Hn by (unfold is_u64, two64; lia).
  intros H. apply (signAndAdmit_reserved _ _ _ _ _ _ _ _ _ _ _ _ b Hsig Ha Hn) in H.
  - rewrite H, !Hres. repeat case_decide; subst; try done. by apply held_then_dropped.
  - rewrite Hres, decide_True by done. set_solver.
  - done.
  - unfold g_bc. by rewrite Hw.
Qed.

(** no reservation is lost or left behind. When the gateway picks the nonce of
    an escrow lock or settlement itself and nothing else runs meanwhile, the
    reservations after the request are those of before it, on every path: when
    Core cannot sign, when its answer is unusable, when admission fails, and when
    it succeeds and the nonce is in flight. *)
Theorem escrow_reservations_balanced k f o core q clock ref now saved (lock : LockBody) (settle : SettleBody) g :
  g_core k = Some core -> sane_query k -> signs_request core -> lb_Nonce lock = None -> sb_Nonce settle = None ->
  (forall a, reservedOf a (g_reserved (SubmitEscrowLock marshal k f o (fun g => g) q clock ref now lock g).1)
             = reservedOf a (g_reserved g)) /\
  (forall a, reservedOf a (g_reserved (SubmitEscrowSettle marshal k f o (fun g => g) saved q clock ref now settle g).1)
             = reservedOf a (g_reserved g)).
Proof.
  intros Hk Hq Hsig Hl Hs.
  assert (Herr : forall a0 g1 g2 e b, nonceFor k None a0 g1 = (g2, Err e) -> reservedOf b (g_reserved g2) = reservedOf b (g_reserved g1))
    by (intros a0 g1 g2 e b (_ & H)%nonceFor_spec; [apply H|done]).
  split; intros a.
  - unfold SubmitEscrowLock. rewrite Hk, Hl. destruct (rate_frame clock q "escrow_lock" g) as [_ Hr].
    destruct (allowContactRate _ _ _ g) as [g1 ok]. simpl in Hr. rewrite <- Hr. destruct ok; [|done]. cbn [negb].
    destruct (_ || _); [done|]. destruct (_ || _ || _); [done|]. destruct (senderOf _ _ _ _) as [from|]; [|done].
    destruct (nonceFor k None from g1) as [g2 [n|e]] eqn:En; [|by eapply Herr].
    destruct (signAndAdmit _ _ _ _ _ _ _ _ _ _ _ _) as [g3 r] eqn:E. by eapply reserve_sign in E.
  - unfold SubmitEscrowSettle. rewrite Hk, Hs. destruct (rate_frame clock q "escrow_settle" g) as [_ Hr].
    destruct (allowContactRate _ _ _ g) as [g1 ok]. simpl in Hr. rewrite <- Hr. destruct ok; [|done]. cbn [negb].
    destruct (_ || _); [done|]. destruct (_ || _ || _); [done|]. destruct (senderOf _ _ _ _) as [from|]; [|done].
    destruct (nonceFor k None from g1) as [g2 [n|e]] eqn:En; [|by eapply Herr].
    destruct (signAndAdmit _ _ _ _ _ _ _ _ _ _ _ _) as [g3 [tx|e]] eqn:E; eapply reserve_sign in E; try done.
    simpl. rewrite <- E. f_equal. unfold noteSettled. by repeat case_match.
Qed.

(** ** Disputes *)

(** C23: a disputed deal is settled only by its panel. On the dispute route an
    admitted settlement is a deal settlement that Core accepted, and the case named
    in the request has a panel of five of whom three revealed the verdict that the
    signed outcome stands for, after the case was frozen or its deadline passed. *)
Theorem dispute_settle_needs_quorum k f o mw ref now body g g' tx :
  book_wf (g_book g) -> admitDealSettle marshal k f o mw true ref now body g = (g', Ok tx) ->
  tx_Type tx = TxKindSettle /\ tx_Purpose tx = PurposeDeal /\
  (exists g1, g_world g1 = g_world g /\ coreAccepts k tx g1) /\
  exists c v, bk_cases (g_book g) !! db_CaseID body = Some c /\ length (c_panel c) = 5%nat /\ NoDup (c_panel c) /\
    (c_frozen c = true \/ c_deadline c < bk_height (g_book g)) /\
    3 <= votesFor v (c_reveals c) /\ tx_SettleOutcomeKey tx = coreOutcome v.
Proof.
  intros Hwf H. unfold admitDealSettle in H. destruct (rejectSecretMaterial body); [|done].
  destruct (parseSignedEscrowTx _ _ _) as [t|]; [|done]. destruct (_ || _) eqn:E; [done|].
  apply orb_false_iff in E as [E1%negb_false_iff%String.eqb_eq E2%negb_false_iff%String.eqb_eq].
  destruct (if String.eqb _ _ then _ else _); [|done]. unfold checkDispute in H.
  destruct (Panel _ _); [|done]. destruct (Quorum (db_CaseID body) (g_book g)) as [book q] eqn:Eq.
  case_bool_decide as Hq; [|done]. unfold admitted in H. set (g1 := with_book book g) in *.
  destruct (admitToMempool marshal k f o mw t g1) as [g2 [[]|]] eqn:Ead; simpl in H; [|done]. injection H as <- <-.
  apply admit_ok in Ead as (Hv & _). apply validate_spec in Hv as (_ & _ & _ & Hacc).
  split_and!; [done|done|by exists g1|].
  destruct (quorum_sound (g_book g) (db_CaseID body) (tx_SettleOutcomeKey t) Hwf) as (c & v & Hc & Hcw & Hp & H3 & Ho);
    [by rewrite Eq, Hq|].
  destruct (cw_panel c Hcw) as (H5 & Hnd & _). exists c, v. by split_and!.
Qed.

End spec.

(** ** Amounts *)

Section amounts.
Context {CS : Type} {R : GoRange} {C : GoConv}.
Variable marshal : Transaction -> Z -> string.
Variable ParseFloat : string -> option spec_float.
Implicit Types (g : Gateway CS) (k : GateConfig CS) (f : Faults CS) (o : putOutcome).

(** What a JSON amount stands for when it is an integer. *)
Definition amountOf (v : jval) (n : Z) : Prop :=
  match v with
  | JNumber x => float_pos x = true /\ float_integral x = true /\ n = uint64_of_float x
  | JUint m => n = m
  | JString s => ParseUint (TrimSpace s) = (n, true) \/ exists x, ParseFloat (TrimSpace s) = Some x /\
      float_pos x = true /\ float_integral x = true /\ n = uint64_of_float x
  | _ => False
  end.

Lemma parse_amount v n : parseAmountToUplp ParseFloat v = Ok n -> exists w, v = Some w /\ amountOf w n.
Proof.
  assert (Hf : forall x, parseFloatAmount x = Ok n -> float_pos x = true /\ float_integral x = true /\ n = uint64_of_float x).
  { intros x. unfold parseFloatAmount. destruct (float_pos x); [|done]. destruct (float_integral x); [|done]. by intros [= <-]. }
  unfold parseAmountToUplp. destruct v as [[| m | | x | s | |]|]; try done.
  - destruct (m =? 0); [done|]. intros [= ->]. by eexists.
  - intros H%Hf. by eexists.
  - destruct (String.eqb _ _); [done|]. destruct (_ || _ || _).
    + destruct (ParseFloat (TrimSpace s)) as [x|] eqn:E; [|done]. intros (? & ? & ?)%Hf. eexists. split; [done|]. right. by exists x.
    + destruct (ParseUint (TrimSpace s)) as [u [|]] eqn:E; [|done]. cbn [negb]. destruct (u =? 0); [done|]. intros [= ->].
      eexists. split; [done|]. by left.
Qed.

Lemma mapToTx_fields ref m tx n : mapToTx ref m = Some (tx, n) ->
  field asUint64 0 m "amount" = Some (tx_AmountUplp tx) /\ field asUint64 0 m "fee_uplp" = Some (tx_FeeUplp tx) /\
  field asString "" m "hash" = Some (tx_Hash tx) /\ field asString "" m "from" = Some (tx_From tx) /\
  field asString "" m "to" = Some (tx_To tx) /\ field asInt64 0 m "nonce" = Some (tx_Nonce tx) /\
  field asString "" m "sig_main" = Some (tx_SigMain tx) /\ field asInt64 0 m "blockNumber" = Some n.
Proof.
  unfold mapToTx. intros H. repeat (apply bind_Some in H as (? & ? & H)).
  destruct (String.eqb _ _); [done|]. injection H as <- <-. by split_and!.
Qed.

(** a signed amount is never rewritten. When a signed transaction is accepted
    over HTTP, its amount is positive, it is the integer that the JSON field
    [amount] stands for (a fraction is refused), whatever other spellings of the
    key the request carries, and the transaction shown to Core carries that amount
    with the sender, receiver, nonce and signature of the request. *)
Theorem submitted_amount_kept k f o mw ref now txData g g' tx :
  submitCoreSignedTx marshal ParseFloat k f o mw ref now txData g = (g', Ok tx) ->
  (exists v, jget txData "amount" = Some v /\ amountOf v (tx_AmountUplp tx)) /\ tx_AmountUplp tx <> 0 /\
  (exists m, normalizeCoreTxAmountField ParseFloat txData = Ok m /\ field asString "" m "from" = Some (tx_From tx) /\
     field asString "" m "to" = Some (tx_To tx) /\ field asInt64 0 m "nonce" = Some (tx_Nonce tx) /\
     field asString "" m "sig_main" = Some (tx_SigMain tx)) /\
  (exists json, ToCoreJSON (Some tx) = Some json /\ json !! "amount" = Some (JNum (tx_AmountUplp tx))).
Proof.
  unfold submitCoreSignedTx. destruct (_ && _); [done|]. unfold normalizeCoreTxAmountField.
  destruct (parseAmountToUplp ParseFloat (jget txData "amount")) as [n|] eqn:Ep; [|done].
  set (m := txData ++ [("amount", JUint n)]). destruct (mapToTx ref m) as [[t bn]|] eqn:Em; [|done].
  destruct (Z.eqb_spec (tx_AmountUplp t) 0) as [|Hne]; [done|]. destruct (IsNonTransferableAsset _); [done|].
  destruct (requireDealGuarantor _ _); [|done].
  destruct (admitToMempool _ _ _ _ _ _ _) as [g1 [[]|]] eqn:Ead; [|done]. intros [= <- <-].
  apply mapToTx_fields in Em as (Ham & _ & _ & Hfrom & Hto & Hnonce & Hsig & _).
  apply uint_field_set in Ham as Hn; [|done]. apply parse_amount in Ep as (v & Hv & Hof).
  apply admit_ok in Ead as (Hv' & _). apply validate_spec in Hv' as (_ & _ & _ & core & json & res & _ & Hj & _).
  split_and!; [exists v; split; [done|]; simpl; by rewrite Hn|done|by exists m|].
  exists json. split; [done|]. unfold ToCoreJSON in Hj. repeat case_match; simplify_eq.
  rewrite lookup_coreOptional by (unfold optionalKeys; set_solver). unfold coreFields, coreAmount. simpl.
  rewrite (proj2 (Z.eqb_neq _ _) Hne). done.
Qed.
End amounts.

(** ** Witnesses and concrete runs *)

#[local] Existing Instance canonical_range.
#[local] Existing Instance zero_conv.

Definition gateKeys : KeyCore := mkKeyCore (fun _ _ _ => Ok {["publicKey" := "PxA"]}) (fun _ _ _ => Ok true).

(** A Core that accepts everything and signs what it is given. *)
Definition gateSign (req : SignRequest) : result (option SignedTx) :=
  let p := sg_Opts req in
  Ok (Some (mkSigned "signed-1" (sg_From req) (sg_To req) (sg_Asset req) (sg_Amount req) (sg_FeeUplp req) (sg_Nonce req) "sig" "sig2"
              "" "" (sg_Reads req) (sg_Writes req) (so_TxKind p) (so_EscrowID p) "" (so_Purpose p) (so_ExpiresAt p)
              (so_SettleOutcomeKey p) (so_SettlePayee p) (so_SettleNode p))).

Definition openCore : GateCore Z :=
  mkGateCore (fun _ _ _ => Ok (mkAdmitResult true "")) (fun _ _ _ => Ok true)
    (fun req => if (0 <=? sg_Nonce req) && (sg_Nonce req <? two64) then gateSign req else Err "nonce") gateKeys.

Definition openConfig : GateConfig Z := mkGateConfig (Some openCore) (Some (fun _ _ => Ok 3)) false "PxNode".

Definition gate0 : Gateway Z := mkGateway (mkWorld NewBlockchain 0 None None) {["PxA" := {[3]}]} (Some ∅) NewBook None None.

Definition noFaults : Faults Z := mkFaults CopyOk CopyOk true WriteOk.

Definition textOf (tx : Transaction) (_ : Z) : string := tx_Hash tx.

Definition paid : jobj :=
  [("hash", JString "h1"); ("from", JString "PxA"); ("to", JString "PxB"); ("amount", JString " 1500 "); ("Amount", jint 7);
   ("fee_uplp", jint 1); ("nonce", jint 3); ("sig_main", JString "sig")].

Definition noFloat (_ : string) : option spec_float := None.

Definition paidTx : Transaction :=
  match mapToTx 1 (paid ++ [("amount", JUint 1500)]) with Some (tx, _) => submitDefaults 100 tx | None => txA end.

Lemma admission_sound_witness :
  let p := admitToMempool textOf openConfig noFaults PutOk (fun g => g) paidTx gate0 in
  p.2 = Ok () /\ pools_wf (g_bc p.1) /\ coreAccepts openConfig paidTx gate0 /\ mempool (g_bc p.1) = [paidTx] /\
  reservedOf "PxA" (g_reserved p.1) = ∅.
Proof.
  intros p. assert (E : p.2 = Ok ()) by (vm_compute; reflexivity).
  destruct (admission_sound textOf openConfig noFaults PutOk (fun g => g) paidTx gate0 p.1 (Ok ())) as (Hwf & _ & _ & _ & Hc & _).
  - rewrite <- E. apply surjective_pairing.
  - exact (fun H => H).
  - exact pools_wf_new.
  - split; [exact E|]. split; [exact Hwf|]. split; [exact Hc|]. split; [vm_compute; reflexivity|vm_compute; reflexivity].
Defined.

Lemma submitted_amount_kept_witness :
  exists g' tx, submitCoreSignedTx textOf noFloat openConfig noFaults PutOk (fun g => g) 1 100 paid gate0 = (g', Ok tx) /\
    tx_AmountUplp tx = 1500 /\ exists json, ToCoreJSON (Some tx) = Some json /\ json !! "amount" = Some (JNum 1500).
Proof.
  destruct (submitCoreSignedTx textOf noFloat openConfig noFaults PutOk (fun g => g) 1 100 paid gate0) as [g' [tx|e]] eqn:E;
    [|vm_compute in E; discriminate].
  exists g', tx. split; [reflexivity|]. assert (Ha : tx_AmountUplp tx = 1500) by (vm_compute in E; injection E as _ <-; reflexivity).
  destruct (submitted_amount_kept textOf noFloat openConfig noFaults PutOk (fun g => g) 1 100 paid gate0 g' tx E)
    as (_ & _ & _ & json & Hj & Hm).
  split; [exact Ha|]. exists json. split; [exact Hj|]. rewrite <- Ha. exact Hm.
Defined.

Definition someRequest : Request := mkRequest "" "1.2.3.4:5" (Some "1.2.3.4") "".

Definition lockBody (purpose : string) : LockBody := mkLockBody "words" "code" "PxA" "PxB" "e1" 500 0 None 0 purpose.
Definition settleBody : SettleBody := mkSettleBody "words" "code" "PxA" "e1" 500 0 None "accepted" "PxB" "" "" "" "r1".

Lemma escrow_reservations_balanced_witness :
  sane_query openConfig /\ signs_request openCore /\
  reservedOf "PxA" (g_reserved (SubmitEscrowLock textOf openConfig noFaults PutOk (fun g => g) someRequest 0 1 100 (lockBody "") gate0).1)
    = {[3]}.
Proof.
  assert (Hq : sane_query openConfig) by (intros q cs a n [= <-] [= <-]; lia).
  assert (Hs : signs_request openCore).
  { intros req t. unfold openCore. cbn [SignTransactionExt]. destruct (_ && _) eqn:E; [|discriminate]. intros [= <-].
    split; [reflexivity|]. apply andb_true_iff in E as [E1 E2]. apply u64_small. unfold is_u64. lia. }
  split; [exact Hq|]. split; [exact Hs|].
  exact (proj1 (escrow_reservations_balanced textOf openConfig noFaults PutOk openCore someRequest 0 1 100 true (lockBody "") settleBody
    gate0 eq_refl Hq Hs eq_refl eq_refl) "PxA").
Defined.

Definition disputed : signedDealBody :=
  mkDealBody "" "" (Some (mkSigned "s1" "PxA" "PxB" "PLP" 500 1 0 "sig" "sig2" "" "" [] [] "escrow_settle" "escrow-1" "" "deal" 0
                            OutcomeFulfilled "" "")) demoCaseID.

Definition gateVoted : Gateway Z := with_book votedBook gate0.

Lemma dispute_settle_needs_quorum_witness :
  exists g' tx c v, admitDealSettle textOf openConfig noFaults PutOk (fun g => g) true 1 100 disputed gateVoted = (g', Ok tx) /\
    bk_cases (g_book gateVoted) !! db_CaseID disputed = Some c /\ 3 <= votesFor v (c_reveals c) /\ tx_SettleOutcomeKey tx = coreOutcome v.
Proof.
  destruct (admitDealSettle textOf openConfig noFaults PutOk (fun g => g) true 1 100 disputed gateVoted) as [g' [tx|e]] eqn:E;
    [|vm_compute in E; discriminate].
  assert (Hwf : book_wf (g_book gateVoted)) by (exact (proj1 (book_steps_ok _ _ votedBook_reachable book_wf_new))).
  destruct (dispute_settle_needs_quorum textOf openConfig noFaults PutOk (fun g => g) 1 100 disputed gateVoted g' tx Hwf E)
    as (_ & _ & _ & c & v & Hc & _ & _ & _ & Hv & Ho).
  exists g', tx, c, v. split; [reflexivity|]. split; [exact Hc|]. split; [exact Hv|exact Ho].
Defined.

(** A number above 2^53 in the request is rounded before the gateway looks at it. *)
Example amount_rounded : parseAmountToUplp noFloat (Some (jint (2 ^ 53 + 1))) = Ok (2 ^ 53).
Proof. vm_compute. reflexivity. Qed.

(** The block number is part of the decoded transaction and not of what is
    signed: a client that adds it makes the explorer's history reach that height
    without any confirmation, and the next block is numbered after it. *)
Example forged_block_number :
  let g := (SendTransaction textOf noFloat openConfig noFaults PutOk (fun g => g) 1 "t" 100 (paid ++ [("blockNumber", jint 700)]) gate0).1 in
  let bc := (ConfirmedTxRefsNewestFirst None None (g_bc g)).1 in
  confirmedHashes bc = ∅ /\ hashes (mempool bc) = ["h1"] /\ b_BlockNumber <$> blockHistory bc = [700] /\ blockCounter bc = 701.
Proof. vm_compute. split_and!; reflexivity. Qed.

(** The escrow route admits a deal lock without a guarantor, which the deal route
    and the signed route refuse. *)
Example deal_lock_without_guarantor :
  let r := SubmitEscrowLock textOf openConfig noFaults PutOk (fun g => g) someRequest 0 1 100 (lockBody "deal") gate0 in
  (fun tx => (tx_Purpose tx, tx_SettleNode tx, requireDealGuarantor openConfig tx)) <$> mempool (g_bc r.1)
    = [("deal", "", Err "guarantor is assigned by the node")].
Proof. vm_compute. reflexivity. Qed.
