(* ===== verification/ContactHandlers.v ===== *)
(** * The contact and escrow routes over HTTP (handlers_contact_economy.go,
    handlers_escrow.go)

    The contact store is one object behind two pointers, the handler's and the
    websocket server's. A route works on the gateway's [g_economy] and hands the
    store on with [shareEconomy]. [rocks] and [meanwhile] are those of
    [GetTransaction]. *)

From S2P Require Import Prelude GoStd GoJson Dag Tx ForkChoice Chain Pool Confirm History Explorer TxPool Nonce Deals RateLimit ContactEconomy Ownership Messaging Admission.

#[local] Open Scope Z_scope.

Section routes.
Context {CS : Type} {R : GoRange} {C : GoConv}.
Implicit Types (g : Gateway CS) (s : Server) (rocks : option RocksReads) (q : Request).
(** [json.Marshal] of a contact request, and [h.rustCore]. *)
Variable marshal : ContactRequest -> string.
Variable keys : option KeyCore.

Definition shareEconomy g s : Server := SetContactEconomy (g_economy g) s.

(** ** Pricing *)

Definition SetContactPricing (saved : bool) (now : Z) (p : PricingAnnounce) (mnemonic alphanumeric pubMain : string) g s
  : Gateway CS * Server * result PricingAnnounce :=
  match g_economy g with
  | None => (g, s, Err "contact economy unavailable")
  | Some ce =>
      match verifyContactPricingOwnership keys (pa_Address p) (pa_Signature p) mnemonic alphanumeric pubMain with
      | Err e => (g, s, Err e)
      | Ok verified =>
          let p := mkPricing verified (pa_UnknownFee p) (pa_VerifiedFee p) (pa_Blocked p) (pa_Signature p) (pa_UpdatedAt p) in
          let '(ce, r) := SetPricing saved now p ce in
          let g := with_economy (Some ce) g in (g, shareEconomy g s, r)
      end
  end.

Definition QueryProtocolContact (a b : string) g : result (bool * bool) :=
  match g_economy g with
  | None => Ok (true, false)
  | Some ce =>
      let a := TrimSpace a in
      let b := TrimSpace b in
      if String.eqb a "" || String.eqb b "" then Err "a and b required"
      else Ok (HasProtocolContact a b ce, cf_Enabled (st_cfg ce))
  end.

(** ** Requests *)

Definition lockKind (tx : Transaction) : bool :=
  String.eqb (ToLower (tx_Type tx)) TxKindLock || String.eqb (ToLower (tx_Type tx)) "contact_escrow_lock".

Definition lockEscrowID (tx : Transaction) : string := orStr (tx_EscrowID tx) (tx_RequestIDHash tx).

(** The checks on the transaction found. *)
Definition checkLockTx (tx : Transaction) (sender : string) (amountUplp : Z) (escrowID : string) : result unit :=
  if negb (lockKind tx) then Err "tx is not escrow_lock"
  else if nonEmpty sender && negb (EqualFold (tx_From tx) sender) then Err "lock tx from mismatch"
  else if (0 <? amountUplp) && negb (tx_AmountUplp tx =? 0) && negb (tx_AmountUplp tx =? amountUplp) then Err "lock amount mismatch"
  else if nonEmpty escrowID && nonEmpty (lockEscrowID tx) && negb (EqualFold (lockEscrowID tx) escrowID)
  then Err "escrow id mismatch"
  else Ok ().

Definition verifyEscrowLockTx rocks (meanwhile : Blockchain -> Blockchain) (lockTxHash sender : string) (amountUplp : Z)
  (escrowID : string) g : Gateway CS * result unit :=
  let hash := TrimSpace lockTxHash in
  if String.eqb hash "" then (g, Err "lockTxHash required")
  else
  let '(bc, found) := GetTransaction rocks meanwhile hash (g_bc g) in
  let g := with_gbc bc g in
  let tx := match found with
    | Some tx => Some tx
    | None => snd <$> list_find (fun t => EqualFold (tx_Hash t) hash = true) (GetMempool bc)
    end in
  (g, match tx with
      | None => Err "lock tx not found in mempool/chain - submit escrow_lock first"
      | Some tx => checkLockTx tx sender amountUplp escrowID
      end).

Definition CreateContactRequest rocks meanwhile (net : Net) (saved : bool) q (clock now : Z) (body : ContactRequest) g s
  : Gateway CS * Server * list output * result ContactRequest :=
  let '(g, allowed) := allowContactRate clock q "contact_request" g in
  if negb allowed then (g, s, [], Err "rate limit exceeded")
  else match g_economy g with
  | None => (g, s, [], Err "contact economy unavailable")
  | Some ce =>
      let '(g, v) := verifyEscrowLockTx rocks meanwhile (cr_LockTxHash body) (cr_Sender body) (cr_AmountUplp body)
                       (RequestIDHash (cr_RequestID body)) g in
      match v with
      | Err e => (g, s, [], Err e)
      | Ok _ =>
          let '(ce, r) := CreateRequest saved now body ce ce in
          let g := with_economy (Some ce) g in
          let s := shareEconomy g s in
          match r with
          | Err e => (g, s, [], Err e)
          | Ok req => let '(s, outs) := DeliverContactRequest marshal net now req s in (g, s, outs, Ok req)
          end
      end
  end.

Record RespondBody := mkRespond {
  rb_RequestID : string; rb_Actor : string; rb_Outcome : string; rb_Signature : string; rb_EncryptedResponse : string;
  rb_Mnemonic : string; rb_Alphanumeric : string; rb_PubMain : string
}.

(** The experience an answer earns. *)
Definition answerXP (outcome actor sender : string) (ce : ContactEconomy.Store) : ContactEconomy.Store :=
  if String.eqb outcome OutcomeAccepted then AddXP sender 10 (AddXP actor 25 ce)
  else if String.eqb outcome OutcomeRejected then AddXP actor 1 ce
  else ce.

Definition RespondContactRequest (net : Net) (saved : bool) q (clock now : Z) (b : RespondBody) g s
  : Gateway CS * Server * list output * result (ContactRequest * SettleIntent) :=
  let '(g, allowed) := allowContactRate clock q "contact_respond" g in
  if negb allowed then (g, s, [], Err "rate limit exceeded")
  else match g_economy g with
  | None => (g, s, [], Err "contact economy unavailable")
  | Some ce =>
      match verifyContactRespondOwnership keys (rb_Actor b) (rb_RequestID b) (rb_Outcome b) (rb_Signature b) (rb_Mnemonic b)
              (rb_Alphanumeric b) (rb_PubMain b) with
      | Err e => (g, s, [], Err e)
      | Ok (actor, proof) =>
          let '(ce, r) := Respond saved now (rb_RequestID b) actor (rb_Outcome b) proof ce in
          match r with
          | Err e => let g := with_economy (Some ce) g in (g, shareEconomy g s, [], Err e)
          | Ok req =>
              let g := with_economy (Some (answerXP (rb_Outcome b) actor (cr_Sender req) ce)) g in
              let '(s, outs) := NotifyContactResolved net req (rb_EncryptedResponse b) (shareEconomy g s) in
              (g, s, outs, Ok (req, ContactSettleFromRequest req ""))
          end
      end
  end.

Definition ListContactRequests (address : string) g : result (list ContactRequest * Z * Z) :=
  match g_economy g with
  | None => Err "contact economy unavailable"
  | Some ce =>
      let addr := TrimSpace address in
      if String.eqb addr "" then Err "address required" else Ok (ListPendingFor addr ce, PendingLimit addr ce, GetXP addr ce)
  end.

Definition GetContactRequestStatus (id : string) g : result ContactRequest :=
  match g_economy g with
  | None => Err "contact economy unavailable"
  | Some ce =>
      let id := TrimSpace id in
      if String.eqb id "" then Err "id required" else match GetRequest id ce with Some r => Ok r | None => Err "not found" end
  end.

(** One tick of [runContactTimeoutSweeper]: the requests that ran out, with the
    settlement each of them now waits for. *)
Definition sweepTimeouts (now : Z) g s : Gateway CS * Server * list (ContactRequest * SettleIntent) :=
  match g_economy g with
  | None => (g, s, [])
  | Some ce =>
      let '(ce, expired) := ExpireDue now ce in
      let g := with_economy (Some ce) g in
      (g, shareEconomy g s, (fun req => (req, ContactSettleFromRequest req "")) <$> expired)
  end.

(** ** Escrow status *)

Definition GetEscrowStatus (id : string) g : result (EscrowStatus * option SettleIntent) :=
  let id := TrimSpace id in
  if String.eqb id "" then Err "escrow id required"
  else match g_economy g with
  | None => Err "escrow status unavailable"
  | Some ce =>
      match FindByEscrowID id ce with
      | None => Err "escrow not found"
      | Some req =>
          Ok (StatusFromContactRequest req,
              if String.eqb (cr_SettleOutcome req) "" || nonEmpty (cr_SettleTxHash req) then None
              else Some (ContactSettleFromRequest req ""))
      end
  end.

Definition AckEscrowSettled (saved : bool) (escrowID requestID settleTxHash : string) g s : Gateway CS * Server * result unit :=
  match g_economy g with
  | None => (g, s, Err "unavailable")
  | Some ce =>
      if String.eqb (TrimSpace settleTxHash) "" then (g, s, Err "settleTxHash required")
      else
      let id := TrimSpace requestID in
      let id := if String.eqb id "" && nonEmpty escrowID then default "" (cr_RequestID <$> FindByEscrowID escrowID ce) else id in
      if String.eqb id "" then (g, s, Err "requestId or escrowId required")
      else
      let '(ce, r) := MarkSettled saved id settleTxHash ce in
      let g := with_economy (Some ce) g in (g, shareEconomy g s, r)
  end.
End routes.
