(* ===== verification/ContactHandlersSpec.v ===== *)
(** * A paid first contact over HTTP, from the lock to the settlement *)

From S2P Require Import Prelude GoStd GoJson Dag Tx ForkChoice Chain Pool Confirm History Explorer TxPool Nonce Deals RateLimit ContactEconomy ContactEconomySpec Ownership Messaging MessagingSpec Admission AdmissionSpec ContactHandlers.

#[local] Open Scope Z_scope.

(** ** The shared store *)

Section shared.
Context {R : GoRange}.
Implicit Types s : Server.

Lemma remove_economy a id s : sv_contactEconomy (removeClientFromAddrLocked a id s) = sv_contactEconomy s.
Proof. unfold removeClientFromAddrLocked. by repeat case_match. Qed.

Lemma fanOut_economy net a e s : sv_contactEconomy (fanOutJSON net a e s).1.1 = sv_contactEconomy s.
Proof.
  unfold fanOutJSON. cbv zeta. simpl. match goal with |- context [foldl dropDead s ?l] => generalize l end. intros l.
  revert s. induction l as [|id l IH]; intros s; [done|]. simpl. rewrite IH. unfold dropDead. simpl.
  case_match; [done|]. by rewrite remove_economy.
Qed.

Lemma deliver_economy marshal net now req s :
  sv_contactEconomy (DeliverContactRequest marshal net now req s).1 = sv_contactEconomy s.
Proof.
  unfold DeliverContactRequest. match goal with |- context [fanOutJSON net ?a ?e s] => pose proof (fanOut_economy net a e s) as H end.
  destruct (fanOutJSON _ _ _ _) as [[s1 o1] k]. simpl in H. by destruct (0 <? k).
Qed.

Lemma notify_economy net req enc s : sv_contactEconomy (NotifyContactResolved net req enc s).1 = sv_contactEconomy s.
Proof.
  unfold NotifyContactResolved. cbv zeta. match goal with |- context [fanOutJSON net ?a ?e s] => pose proof (fanOut_economy net a e s) as H end.
  destruct (fanOutJSON net _ _ s) as [[s1 o1] k1].
  match goal with |- context [fanOutJSON net ?a ?e s1] => pose proof (fanOut_economy net a e s1) as H2 end.
  destruct (fanOutJSON net _ _ s1) as [[s2 o2] k2]. simpl in *. congruence.
Qed.
End shared.

(** ** The store *)

Lemma pairKey_normal a b : pairKey (normalize a) (normalize b) = pairKey a b.
Proof. unfold pairKey, normalize. by rewrite !TrimSpace_idemp. Qed.

Lemma create_ok saved now body ce ce' req :
  CreateRequest saved now body ce ce = (ce', Ok req) ->
  st_Requests ce' !! cr_RequestID body = Some req /\ st_Contacts ce' = st_Contacts ce /\ st_XP ce' = st_XP ce /\
  HasProtocolContact (cr_Sender body) (cr_Receiver body) ce = false /\ cr_Sender req = normalize (cr_Sender body) /\
  cr_Receiver req = normalize (cr_Receiver body) /\ isPending req = true /\ cr_LockTxHash req = cr_LockTxHash body /\
  cr_AmountUplp req = cr_AmountUplp body /\ cr_AmountUplp req <> 0 /\ cr_RequestIDHash req = RequestIDHash (cr_RequestID body) /\
  cr_RequestID req = cr_RequestID body.
Proof.
  unfold CreateRequest. destruct (createChecks now body ce) as [r|] eqn:E; [|done]. intros H.
  pose proof (checks_normal _ _ _ _ E) as (_ & _ & _ & Hc & _ & _ & Ha).
  assert (Hr : cr_RequestID r = cr_RequestID body /\ cr_Sender r = normalize (cr_Sender body) /\
    cr_Receiver r = normalize (cr_Receiver body) /\ cr_Status r = StatusPending /\ cr_LockTxHash r = cr_LockTxHash body /\
    cr_AmountUplp r = cr_AmountUplp body /\ cr_RequestIDHash r = RequestIDHash (cr_RequestID body)).
  { revert E. unfold createChecks. generalize (RequestIDHash (cr_RequestID body)). intros h E.
    repeat (match type of E with (if ?b then _ else _) = _ => destruct b; [done|] end). by injection E as <-. }
  destruct Hr as (Hid & Hs & Hv & Hst & Hl & Hm & Hh). unfold createLocked in H.
  repeat (case_bool_decide; [done|]). unfold persisted in H. destruct saved; [|done]. injection H as <- <-.
  unfold HasProtocolContact in *. rewrite Hs, Hv, pairKey_normal in Hc.
  split_and!; try done; [simpl; by rewrite Hid, lookup_insert_eq|unfold isPending; by rewrite Hst].
Qed.

Lemma respond_store saved now rid v outcome sig ce ce' req :
  Respond saved now rid v outcome sig ce = (ce', Ok req) ->
  st_XP ce' = st_XP ce /\
  (outcome = OutcomeAccepted /\ is_Some (st_Contacts ce' !! pairKey (cr_Sender req) (cr_Receiver req)) \/
   outcome = OutcomeRejected /\ st_Contacts ce' = st_Contacts ce).
Proof.
  unfold Respond. cbv zeta. intros H. destruct (String.eqb _ _); [done|]. destruct (_ && _); [done|]. destruct (_ && _); [done|].
  destruct (st_Requests ce !! rid) as [r|]; [|done]. destruct (isPending r); [|done]. destruct (EqualFold (cr_Receiver r) _); [|done].
  simpl in H. destruct (_ <? _); [done|]. unfold persisted in H.
  destruct (String.eqb_spec outcome OutcomeAccepted).
  - destruct saved; [|done]. injection H as <- <-. split; [done|]. left. split; [done|]. simpl. rewrite lookup_insert_eq. by eexists.
  - destruct (String.eqb_spec outcome OutcomeRejected); [|done]. destruct saved; [|done]. injection H as <- <-.
    split; [done|]. by right.
Qed.

Lemma AddXP_frame a d ce : st_Contacts (AddXP a d ce) = st_Contacts ce /\ st_cfg (AddXP a d ce) = st_cfg ce.
Proof. unfold AddXP. by destruct (_ || _). Qed.

Lemma answerXP_contacts outcome a b ce : st_Contacts (answerXP outcome a b ce) = st_Contacts ce.
Proof. unfold answerXP. repeat case_match; by rewrite ?(proj1 (AddXP_frame _ _ _)). Qed.

(** ** The lock *)

Section lock.
Context {CS : Type} {R : GoRange} {C : GoConv}.
Variable marshal : ContactRequest -> string.
Variable keys : option KeyCore.
Implicit Types (g : Gateway CS) (s : Server) (rocks : option RocksReads) (q : Request).

(** A transaction that the gateway knows under a hash: indexed, stored in
    RocksDB, or in the mempool up to the case of the hash. [mw] is what happens
    while RocksDB is read. *)
Definition known rocks (mw : Blockchain -> Blockchain) (hash : string) (bc : Blockchain) (tx : Transaction) : Prop :=
  transactions bc !! hash = Some tx \/ transactions (mw bc) !! hash = Some tx \/
  getTransactionFromRocks rocks hash = Some tx \/ (tx ∈ mempool bc /\ EqualFold (tx_Hash tx) hash = true).

(** What ties the lock to the request it pays for. *)
Definition pays (tx : Transaction) (body : ContactRequest) : Prop :=
  lockKind tx = true /\ (cr_Sender body <> "" -> EqualFold (tx_From tx) (cr_Sender body) = true) /\
  (tx_AmountUplp tx <> 0 -> 0 < cr_AmountUplp body -> tx_AmountUplp tx = cr_AmountUplp body) /\
  (lockEscrowID tx <> "" -> RequestIDHash (cr_RequestID body) <> "" ->
   EqualFold (lockEscrowID tx) (RequestIDHash (cr_RequestID body)) = true).

Lemma checkLockTx_spec tx sender amount eid :
  checkLockTx tx sender amount eid = Ok () ->
  lockKind tx = true /\ (sender <> "" -> EqualFold (tx_From tx) sender = true) /\
  (tx_AmountUplp tx <> 0 -> 0 < amount -> tx_AmountUplp tx = amount) /\
  (lockEscrowID tx <> "" -> eid <> "" -> EqualFold (lockEscrowID tx) eid = true).
Proof.
  unfold checkLockTx, nonEmpty. destruct (lockKind tx); [|done]. cbn [negb]. intros H.
  repeat match type of H with (if ?b then _ else _) = _ => destruct b eqn:?; [done|] end. split_and!; [done| | |].
  - intros Hs. apply String.eqb_neq in Hs. rewrite Hs in *. by destruct (EqualFold (tx_From tx) sender).
  - intros Hn Ha. apply Z.eqb_neq in Hn. apply Z.ltb_lt in Ha. rewrite Hn, Ha in *.
    by destruct (Z.eqb_spec (tx_AmountUplp tx) amount).
  - intros Hl He. apply String.eqb_neq in Hl, He. rewrite Hl, He in *. by destruct (EqualFold (lockEscrowID tx) eid).
Qed.

Lemma verifyLock_spec rocks mw hash sender amount eid g g' :
  verifyEscrowLockTx rocks mw hash sender amount eid g = (g', Ok ()) ->
  g_economy g' = g_economy g /\
  exists tx, known rocks mw (TrimSpace hash) (g_bc g) tx /\ checkLockTx tx sender amount eid = Ok ().
Proof.
  unfold verifyEscrowLockTx. cbv zeta. destruct (String.eqb _ _); [done|].
  destruct (GetTransaction rocks mw (TrimSpace hash) (g_bc g)) as [bc found] eqn:E. intros H. injection H as <- H.
  split; [done|]. unfold GetTransaction in E. unfold known. destruct found as [tx|].
  - exists tx. split; [|done]. destruct (transactions (g_bc g) !! TrimSpace hash) as [t|] eqn:Et; [left; congruence|].
    destruct (getTransactionFromRocks rocks (TrimSpace hash)) as [t|] eqn:Er; [|done]. cbv zeta in E.
    destruct (transactions (mw (g_bc g)) !! TrimSpace hash) as [t'|] eqn:Em; simplify_eq; auto.
  - destruct (transactions (g_bc g) !! TrimSpace hash) as [t|]; [done|].
    destruct (getTransactionFromRocks rocks (TrimSpace hash)) as [t|]; [by repeat case_match|]. injection E as <-.
    destruct (list_find _ _) as [[i tx]|] eqn:Ef; [|done]. simpl in H. exists tx. split; [|done].
    apply list_find_Some in Ef as (Hl & Hf & _). apply list_elem_of_lookup_2 in Hl. unfold GetMempool in Hl.
    rewrite SliceStable_perm in Hl. auto.
Qed.

Lemma create_route_spec rocks mw net saved q clock now body g s g1 s1 outs req :
  CreateContactRequest marshal rocks mw net saved q clock now body g s = (g1, s1, outs, Ok req) ->
  exists ce ce1 tx, g_economy g = Some ce /\ g_economy g1 = Some ce1 /\ CreateRequest saved now body ce ce = (ce1, Ok req) /\
    sv_contactEconomy s1 = Some ce1 /\ known rocks mw (TrimSpace (cr_LockTxHash body)) (g_bc g) tx /\ pays tx body.
Proof.
  unfold CreateContactRequest. intros H.
  assert (Hr : g_world (allowContactRate clock q "contact_request" g).1 = g_world g /\
               g_economy (allowContactRate clock q "contact_request" g).1 = g_economy g)
    by (unfold allowContactRate; by repeat case_match).
  destruct (allowContactRate clock q "contact_request" g) as [g0 [|]]; simpl in Hr; [|done]. destruct Hr as [Hw He].
  cbn [negb] in H. destruct (g_economy g0) as [ce|] eqn:Ee; [|done].
  destruct (verifyEscrowLockTx _ _ _ _ _ _ g0) as [g2 [[]|]] eqn:Ev; [|done].
  apply verifyLock_spec in Ev as (He2 & tx & Hk & Hc).
  destruct (CreateRequest saved now body ce ce) as [ce1 [r|]] eqn:Ec; [|done]. cbv zeta in H.
  match type of H with context [DeliverContactRequest ?m ?n ?t ?r0 ?x] => pose proof (deliver_economy m n t r0 x) as Hd;
    destruct (DeliverContactRequest m n t r0 x) as [s2 o2] end.
  injection H as <- <- _ <-. exists ce, ce1, tx. split_and!; try done.
  - unfold g_bc in *. by rewrite <- Hw.
  - by apply checkLockTx_spec.
Qed.

Lemma respond_route_spec net saved q clock now b g s g2 s2 outs req intent :
  RespondContactRequest keys net saved q clock now b g s = (g2, s2, outs, Ok (req, intent)) ->
  exists ce ce1 actor proof, g_economy g = Some ce /\
    verifyContactRespondOwnership keys (rb_Actor b) (rb_RequestID b) (rb_Outcome b) (rb_Signature b) (rb_Mnemonic b)
      (rb_Alphanumeric b) (rb_PubMain b) = Ok (actor, proof) /\
    Respond saved now (rb_RequestID b) actor (rb_Outcome b) proof ce = (ce1, Ok req) /\
    g_economy g2 = Some (answerXP (rb_Outcome b) actor (cr_Sender req) ce1) /\ sv_contactEconomy s2 = g_economy g2 /\
    intent = ContactSettleFromRequest req "".
Proof.
  unfold RespondContactRequest. intros H.
  assert (Hr : g_economy (allowContactRate clock q "contact_respond" g).1 = g_economy g)
    by (unfold allowContactRate; by repeat case_match).
  destruct (allowContactRate clock q "contact_respond" g) as [g0 [|]]; simpl in Hr; [|done]. cbn [negb] in H.
  destruct (g_economy g0) as [ce|] eqn:Ee; [|done].
  destruct (verifyContactRespondOwnership _ _ _ _ _ _ _ _) as [[actor proof]|] eqn:Ev; [|done].
  destruct (Respond _ _ _ _ _ _ ce) as [ce1 [r|]] eqn:Er; [|done]. cbv zeta in H.
  match type of H with context [NotifyContactResolved ?n ?r0 ?e ?x] => pose proof (notify_economy n r0 e x) as Hn;
    destruct (NotifyContactResolved n r0 e x) as [s3 o3] end.
  injection H as <- <- _ <- <-. exists ce, ce1, actor, proof. by split_and!.
Qed.

(** C27: a paid first contact, from the lock to the settlement. When a request
    created over HTTP is then answered over HTTP, the gateway knew a lock
    transaction for it (of the request's sender, and of its amount and escrow id
    where the transaction carries them); the two had no contact before; the
    answer came from a wallet proved to be the receiver's; the intent to settle
    names the request's escrow, lock, full amount, sender and receiver with the
    outcome of the answer; the two are contacts afterwards, in the gateway and in
    the websocket server alike, exactly when the answer was an acceptance. *)
Theorem rest_contact_lifecycle rocks mw net saved q clock now body g s g1 s1 outs req
    net' saved' q' clock' now' b g2 s2 outs' req' intent :
  CreateContactRequest marshal rocks mw net saved q clock now body g s = (g1, s1, outs, Ok req) ->
  RespondContactRequest keys net' saved' q' clock' now' b g1 s1 = (g2, s2, outs', Ok (req', intent)) ->
  rb_RequestID b = cr_RequestID body ->
  exists ce ce2 tx v, g_economy g = Some ce /\ g_economy g2 = Some ce2 /\ sv_contactEconomy s2 = Some ce2 /\
    known rocks mw (TrimSpace (cr_LockTxHash body)) (g_bc g) tx /\ pays tx body /\
    HasProtocolContact (cr_Sender body) (cr_Receiver body) ce = false /\
    proven keys (respondMessage (rb_RequestID b) (rb_Outcome b) (TrimSpace (rb_Actor b))) (rb_Signature b) (rb_Mnemonic b)
      (rb_Alphanumeric b) (rb_PubMain b) (TrimSpace (rb_Actor b)) v /\ EqualFold (normalize (cr_Receiver body)) (TrimSpace v) = true /\
    intent = BuildSettleIntent (RequestIDHash (cr_RequestID body)) PurposeContact (rb_Outcome b) (cr_AmountUplp body)
               (normalize (cr_Sender body)) (normalize (cr_Receiver body)) (cr_LockTxHash body) "" /\
    (HasProtocolContact (cr_Sender body) (cr_Receiver body) ce2 = true <-> rb_Outcome b = OutcomeAccepted).
Proof.
  intros Hc Hr Hid. apply create_route_spec in Hc as (ce & ce1 & tx & Hce & Hce1 & Hcr & _ & Hk & Hp).
  apply respond_route_spec in Hr as (ce1' & ce2 & v & proof & Hce1' & Hv & Hre & Hg2 & Hs2 & Hin).
  rewrite Hce1 in Hce1'. injection Hce1' as <-.
  apply create_ok in Hcr as (Hreq & Hcon & _ & Hno & Hsen & Hrec & _ & Hlock & Ham & _ & Hhash & Hrid).
  pose proof (respond_ok _ _ _ _ _ _ _ _ _ Hre) as (r & Hr1 & _ & Hf & _ & Hout).
  rewrite Hid, Hreq in Hr1. injection Hr1 as <-. apply verify_respond_spec in Hv as (Hpr & _).
  pose proof (respond_store _ _ _ _ _ _ _ _ _ Hre) as [_ Hst].
  assert (Hkey : pairKey (cr_Sender req') (cr_Receiver req') = pairKey (cr_Sender body) (cr_Receiver body))
    by (destruct Hout as [[_ ->]|[_ ->]]; simpl; rewrite Hsen, Hrec; apply pairKey_normal).
  exists ce, (answerXP (rb_Outcome b) v (cr_Sender req') ce2), tx, v. split_and!; try done.
  - by rewrite Hs2, Hg2.
  - by rewrite <- Hrec.
  - rewrite Hin. unfold ContactSettleFromRequest.
    destruct Hout as [[-> ->]|[-> ->]]; cbn [cr_SettleOutcome cr_RequestID cr_RequestIDHash cr_AmountUplp cr_Sender cr_Receiver cr_LockTxHash withStatus];
      rewrite Hhash, Hrid, Ham, Hsen, Hrec, Hlock; by destruct (String.eqb (RequestIDHash (cr_RequestID body)) "").
  - unfold HasProtocolContact. rewrite answerXP_contacts, bool_decide_eq_true.
    destruct Hst as [[-> Hs]|[-> Hs]]; [rewrite <- Hkey; by split|]. rewrite Hs, Hcon. split; [|done].
    intros Hx. unfold HasProtocolContact in Hno. by rewrite bool_decide_eq_true_2 in Hno.
Qed.
End lock.

(** ** Witness *)

#[local] Existing Instance canonical_range.
#[local] Existing Instance zero_conv.

Definition lockHash : string := "0123456789abcdef0123456789abcdef".

Definition lockTx : Transaction :=
  mkTx 9 lockHash "PxAlice" "PxBob" "5000" "1" 0 50 "escrow_lock" "native" "" "sig" "sig2" "" "" "PLP" 5000 1 [] []
    (RequestIDHash "r1") (RequestIDHash "r1") "contact" 0 None "" "PxBob" "".

Definition firstContact : ContactRequest := mkReq "r1" "" "PxAlice" " PxBob" "" "" "cipher" 0 0 lockHash 5000 "" "" "".

Definition bobKeys : option KeyCore := Some (mkKeyCore (fun _ _ _ => Ok {["publicKey" := "PxBob"]}) (fun _ _ _ => Ok false)).

Definition gateContact : Gateway Z :=
  mkGateway (mkWorld (set_transactions {[lockHash := lockTx]} NewBlockchain) 0 None None) ∅ None NewBook
    (Some (NewStore (mkConfig true 1000 100000 5000 2000 86400 3 true))) (Some (New 5 minute)).

Definition noNet : Net := fun _ => false.
Definition plainMarshal (_ : ContactRequest) : string := "{}".

Definition requested := CreateContactRequest plainMarshal None (fun bc => bc) noNet true someRequest 0 100 firstContact gateContact NewServer.

Definition acceptBody : RespondBody := mkRespond "r1" "pxbob" "accepted" "" "" "words" "code" "".

Definition answered := RespondContactRequest bobKeys noNet true someRequest 0 200 acceptBody requested.1.1.1 requested.1.1.2.

Lemma rest_contact_lifecycle_witness :
  exists req req' intent ce2, requested.2 = Ok req /\ answered.2 = Ok (req', intent) /\ g_economy answered.1.1.1 = Some ce2 /\
    si_AmountUplp intent = 5000 /\ HasProtocolContact "PxAlice" " PxBob" ce2 = true.
Proof.
  destruct requested as [[[g1 s1] outs] [req|e]] eqn:E1; [|vm_compute in E1; discriminate].
  destruct answered as [[[g2 s2] outs2] [[req' intent]|e]] eqn:E2; [|vm_compute in E2; discriminate].
  unfold answered in E2. rewrite E1 in E2. cbn [fst snd] in E2. unfold requested in E1.
  destruct (rest_contact_lifecycle plainMarshal bobKeys None (fun bc => bc) noNet true someRequest 0 100 firstContact gateContact NewServer
    g1 s1 outs req noNet true someRequest 0 200 acceptBody g2 s2 outs2 req' intent E1 E2 eq_refl)
    as (ce & ce2 & tx & v & _ & Hg & _ & _ & _ & _ & _ & _ & Hi & Hh).
  exists req, req', intent, ce2. split; [reflexivity|]. split; [reflexivity|]. split; [exact Hg|].
  split; [rewrite Hi; reflexivity|]. exact (proj2 Hh eq_refl).
Defined.
