(* ===== verification/Sync.v ===== *)
(** * Chain synchronisation between gateways (chain_sync.go, handlers_sync.go,
    handlers.go: onBlockConfirmed, onFeeDistribution) and the start of a gateway

    A gateway answers a sync request with its block records and the transactions
    it has indexed for them; the receiver sorts them, skips what it already has
    and adopts the rest block by block. An exported value is written here as the
    receiver's decoder yields it: an integer is a float64 ([jint]). [Slice] is
    [sort.Slice], which leaves equal keys in some order. Objects built by a decoder
    get consecutive new references. *)

From S2P Require Import Prelude GoStd GoJson Dag Tx ForkChoice Chain Confirm History TxPool Boundary Mempool Rating Rewards.
From S2P Require Import Votes Consensus Nonce Admission.
From Stdlib Require Import Floats.SpecFloat.

#[local] Open Scope Z_scope.

(** ** Export *)

(** The fields of an encoded struct or map; [None] is one left out. *)
Definition present (fs : list (string * option jval)) : jobj := omap (fun kv => pair kv.1 <$> kv.2) fs.

Lemma present_keys fs : sublist (present fs).*1 fs.*1.
Proof.
  induction fs as [|[k [v|]] fs IH]; simpl; [constructor|by apply sublist_skip|by apply sublist_cons].
Qed.

Lemma jget_present fs k i ov : NoDup fs.*1 -> fs !! i = Some (k, ov) -> jget (present fs) k = ov.
Proof.
  assert (Habs : forall fs k, k ∉ fs.*1 -> jget (present fs) k = None).
  { clear. induction fs as [|[k' [v|]] fs IH]; simpl; intros k Hk; [done| |by apply IH; set_solver].
    rewrite IH by set_solver. by rewrite (proj2 (String.eqb_neq _ _)) by set_solver. }
  revert i. induction fs as [|[k' w] fs IH]; intros i Hnd Hi; [done|]. apply NoDup_cons in Hnd as [Hk Hnd].
  destruct i as [|i]; simpl in Hi.
  - injection Hi as -> ->. destruct ov as [v|]; simpl; rewrite Habs by done; [|done]. by rewrite String.eqb_refl.
  - assert (Hne : k <> k').
    { intros ->. apply Hk, list_elem_of_fmap. exists (k', ov). split; [done|]. by eapply list_elem_of_lookup_2. }
    destruct w as [v|]; simpl; [|by apply (IH i)]. rewrite (IH i) by done. destruct ov; [done|].
    by rewrite (proj2 (String.eqb_neq _ _)).
Qed.

(** A field with [omitempty]. *)
Definition unless (zero : bool) (v : jval) : option jval := if zero then None else Some v.

Definition jstrs (l : list string) : jval := JArray (JString <$> l).
Definition isNil {A} (l : list A) : bool := match l with [] => true | _ => false end.

(** [transactionToMap]: [json.Marshal] of the struct, decoded again; [n] is its
    [BlockNumber]. *)
Definition txFields (tx : Transaction) (n : Z) : list (string * option jval) :=
  let str s := Some (JString s) in
  let int z := Some (jint z) in
  let strOpt s := unless (String.eqb s "") (JString s) in
  let intOpt z := unless (z =? 0) (jint z) in
  let strsOpt l := unless (isNil l) (jstrs l) in
  [("hash", str (tx_Hash tx)); ("from", str (tx_From tx)); ("to", str (tx_To tx)); ("value", str (tx_Value tx));
   ("fee", str (tx_Fee tx)); ("nonce", int (tx_Nonce tx)); ("timestamp", int (tx_Timestamp tx)); ("type", str (tx_Type tx));
   ("assetType", str (tx_AssetType tx)); ("contractAddress", strOpt (tx_ContractAddress tx));
   ("sig_main", strOpt (tx_SigMain tx)); ("sig_derived", strOpt (tx_SigDerived tx)); ("pub_main", strOpt (tx_PubMain tx));
   ("pub_derived", strOpt (tx_PubDerived tx)); ("asset", strOpt (tx_Asset tx)); ("amount", intOpt (tx_AmountUplp tx));
   ("fee_uplp", intOpt (tx_FeeUplp tx)); ("reads", strsOpt (tx_Reads tx)); ("writes", strsOpt (tx_Writes tx));
   ("blockNumber", intOpt n); ("request_id_hash", strOpt (tx_RequestIDHash tx)); ("escrow_id", strOpt (tx_EscrowID tx));
   ("purpose", strOpt (tx_Purpose tx)); ("expires_at", intOpt (tx_ExpiresAt tx));
   ("settle_outcome", jint <$> tx_SettleOutcome tx); ("settle_outcome_key", strOpt (tx_SettleOutcomeKey tx));
   ("settle_payee", strOpt (tx_SettlePayee tx)); ("settle_node", strOpt (tx_SettleNode tx))].

Definition transactionToMap (tx : Transaction) (n : Z) : jobj := present (txFields tx n).

Definition votesJSON (votes : gmap string bool) : option jval :=
  unless (bool_decide (votes = ∅)) (JObject ((fun kv => (kv.1, JBool kv.2)) <$> map_to_list votes)).

(** The transactions of a block that the index knows, in the block's order. *)
Definition indexedTxs (bc : Blockchain) (b : BlockRecord) : list Transaction :=
  omap (fun h => transactions bc !! h) (b_TxHashes b).

Definition blockFields (bc : Blockchain) (b : BlockRecord) : list (string * option jval) :=
  let str s := Some (JString s) in
  let int z := Some (jint z) in
  [("blockNumber", int (b_BlockNumber b)); ("timestamp", int (b_Timestamp b)); ("txHashes", Some (jstrs (b_TxHashes b)));
   ("txCount", int (b_TxCount b)); ("totalFees", int (b_TotalFees b));
   ("transactions", Some (JArray ((fun tx => JObject (transactionToMap tx (BlockNumber bc tx))) <$> indexedTxs bc b)));
   ("blockHash", str (b_BlockHash b)); ("merkleRoot", str (b_MerkleRoot b)); ("stateRoot", str (b_StateRoot b));
   ("previousHash", str (b_PreviousHash b)); ("producerNodeId", str (b_ProducerNodeID b));
   ("l1Yes", int (b_L1Yes b)); ("l1No", int (b_L1No b)); ("l2Yes", int (b_L2Yes b)); ("l2No", int (b_L2No b));
   ("durationMs", int (b_DurationMs b)); ("l1BeneficiaryNodeId", str (b_L1Beneficiary b));
   ("l2ConfirmerNodeId", str (b_L2Confirmer b)); ("l1Votes", votesJSON (b_L1Votes b)); ("l2Votes", votesJSON (b_L2Votes b))].

Definition blockEntry (bc : Blockchain) (b : BlockRecord) : jobj := present (blockFields bc b).

Definition ExportBlocksForSync (fromBlock : Z) (bc : Blockchain) : list jobj :=
  blockEntry bc <$> filter (fun b => (b_BlockNumber b <? fromBlock) = false) (blockHistory bc).

Definition onSyncRespond (probe : option (option Z)) (rocks : option RocksReads) (nodeId : string) (fromBlock : Z)
    (bc : Blockchain) : jobj :=
  [("nodeId", JString nodeId); ("fromBlockNumber", jint fromBlock);
   ("blocks", JArray (JObject <$> ExportBlocksForSync fromBlock bc))] ++
  match HeadBlock probe rocks bc with
  | Some head => [("headBlockNumber", jint (b_BlockNumber head)); ("headBlockHash", JString (b_BlockHash head));
                  ("stateRoot", JString (b_StateRoot head))]
  | None => [("headBlockNumber", jint (-1))]
  end.

(** ** Import *)

(** The vote map of a message: entries that are not booleans are left out. *)
Definition decodeVotes (m : jobj) : gmap string bool :=
  omap (fun v => match v with JBool b => Some b | _ => None end) (list_to_map (reverse m) : gmap string jval).

Definition stringsOf (l : list jval) : list string := omap (fun v => match v with JString s => Some s | _ => None end) l.

(** The block of a [block_confirmed] message; its [TxCount] is that of the hashes read. *)
Definition decodeBlock (data : jobj) : BlockRecord :=
  let hs := stringsOf (default [] (getArray data "txHashes")) in
  mkBlock (getInt data "blockNumber") (getInt data "timestamp") hs (Z.of_nat (length hs)) (getInt data "totalFees")
    (getString data "blockHash") (getString data "merkleRoot") (getString data "stateRoot") (getString data "previousHash")
    (getString data "producerNodeId") (getInt data "l1Yes") (getInt data "l1No") (getInt data "l2Yes") (getInt data "l2No")
    (getInt data "durationMs") (getString data "l1BeneficiaryNodeId") (getString data "l2ConfirmerNodeId")
    (decodeVotes (getObject data "l1Votes")) (decodeVotes (getObject data "l2Votes")).

Definition objectsOf (l : list jval) : list jobj := omap (fun v => match v with JObject m => Some m | _ => None end) l.

Fixpoint decodeTxs {C : GoConv} (ref : positive) (raws : list jobj) : list (Transaction * Z) :=
  match raws with
  | [] => []
  | m :: raws' => option_list (mapToTx ref m) ++ decodeTxs (Pos.succ ref) raws'
  end.

(** [entries[i]["blockNumber"].(float64) < entries[j]...]: an absent number is 0. *)
Definition entryNumber (m : jobj) : spec_float := default (S754_zero false) (getFloat m "blockNumber").
Definition entryLess (a b : jobj) : bool := SFltb (entryNumber a) (entryNumber b).

Section sync.
Context {CS RS : Type} {R : GoRange} {C : GoConv}.
Variable Slice : list jobj -> list jobj.
Implicit Types (h : HandlerEnv CS RS) (n : Node CS RS) (f : Faults CS).

Definition n_bc n : Blockchain := w_bc (n_world n).
Definition with_nbc (bc : Blockchain) n : Node CS RS := Boundary.with_world (with_bc bc (n_world n)) n.

Definition HeadOf h n : Z := HeadBlockNumber None (readsOf h n) (n_bc n).

(** [onBlockConfirmed]: the result is the number of the block it announces to the
    websocket clients, with its transaction count and fees. *)
Definition onBlockConfirmed h f (meanwhile : Blockchain -> Blockchain) (ref : positive) (data : jobj) n
  : Node CS RS * option (Z * Z * Z) :=
  let block := decodeBlock data in
  let decoded := decodeTxs ref (objectsOf (default [] (getArray data "transactions"))) in
  let n := with_nbc (foldl (fun bc tn => setBlockNumber tn.1 tn.2 bc) (n_bc n) decoded) n in
  match ApplyPeerConfirmedBlock h f meanwhile block (Some <$> decoded.*1) n with
  | (n, Ok true) => (n, Some (b_BlockNumber block, b_TxCount block, b_TotalFees block))
  | (n, _) => (n, None)
  end.

(** The loop of [onSyncApply]; the counter only feeds the log. *)
Fixpoint applyEntries h f (ref : positive) (entries : list jobj) n : Node CS RS * list (Z * Z * Z) :=
  match entries with
  | [] => (n, [])
  | entry :: rest =>
      if getInt entry "blockNumber" <=? HeadOf h n then applyEntries h f ref rest n
      else
      let used := length (objectsOf (default [] (getArray entry "transactions"))) in
      let '(n, ev) := onBlockConfirmed h f id ref entry n in
      let '(n, evs) := applyEntries h f (ref + Pos.of_succ_nat used)%positive rest n in
      (n, option_list ev ++ evs)
  end.

Definition onSyncApply h f (ref : positive) (data : jobj) n : Node CS RS * list (Z * Z * Z) :=
  match getArray data "blocks" with
  | None | Some [] => (n, [])
  | Some blocksRaw => applyEntries h f ref (Slice (objectsOf blocksRaw)) n
  end.
End sync.

(** ** Fee distribution announced by another node *)

(** The shares of a message: entries that are not numbers are left out. *)
Definition decodeShares (m : jobj) : gmap string Z :=
  omap (fun v => match v with JNumber x => Some (int64_of_float x) | _ => None end) (list_to_map (reverse m) : gmap string jval).

Section fees.
Context {CS RS : Type} {R : GoRange} {C : GoConv}.

(** The round environment supplies the node's name and its connected peers. *)
Definition onFeeDistribution (e : RoundEnv) (h : HandlerEnv CS RS) (wallet : string) (data : jobj) (st : ConsState) (n : Node CS RS)
  : ConsState * Node CS RS :=
  let l1 := decodeShares (getObject data "l1Shares") in
  let l2 := decodeShares (getObject data "l2Shares") in
  let earn := recordEarnings (re_myId e) l1 l2 (cs_earn st) in
  let burn := getInt data "burn" in
  let treasury := getInt data "treasury" in
  let dist := if (0 <? burn) || (0 <? treasury) then AddBurnTreasury burn treasury (cs_dist st) else cs_dist st in
  let blockNumber := match getFloat data "blockNumber" with
                     | Some bn => if SFleb (S754_zero false) bn then uint64_of_float bn else 0
                     | None => 0
                     end in
  let loadPct := match getFloat data "loadPct" with
                 | Some lp => int64_of_float lp
                 | None => networkLoadPct (re_myId e :: re_connected e) (cs_reg st)
                 end in
  let '(rewarded, rw) :=
    if 0 <? blockNumber then
      applyOperatorBlockReward wallet (re_myId e) (bool_decide (is_Some (ledger (chainEnv h)))) blockNumber loadPct l1 l2
        (cs_reg st) (cs_rewarded st)
    else (cs_rewarded st, None) in
  let w := n_world n in
  (mkCons (cs_reg st) (cs_lastL1Votes st) (cs_lastL1Accepted st) (cs_lastL2Votes st) (cs_lastL2Accepted st)
     (cs_beneficiary st) dist earn rewarded,
   Boundary.with_world (with_state (creditOperator (ledger (chainEnv h)) wallet rw (w_state w)) w) n).
End fees.
