(* ===== verification/SyncSpec.v ===== *)
(** * Contracts of chain synchronisation

    What a gateway exports decodes to the same block and transactions as long as
    the integers fit a float64; a response only ever appends blocks; one response
    brings a gateway that lags behind to the history of its peer. *)

From S2P Require Import Prelude GoStd GoJson Dag Tx ForkChoice Chain Pool Confirm ConfirmSpec History HistorySpec TxPool.
From S2P Require Import Boundary BoundarySpec PeerSpec Mempool Rating Rewards Votes Consensus Nonce Admission Sync.
From Stdlib Require Import Floats.SpecFloat.
From stdpp Require Import sorting.

#[local] Open Scope Z_scope.

(** ** Encoded structs *)

(** In an object whose keys differ up to case, a tag selects its own entry. *)
Lemma fieldEntries_present fs tag i ov :
  NoDup (ToLower <$> fs.*1) -> fs !! i = Some (tag, ov) -> fieldEntries (present fs) tag = option_list ov.
Proof.
  intros Hnd Hi.
  assert (Hfs : NoDup (present fs).*1).
  { eapply sublist_NoDup; [apply NoDup_fmap_1 in Hnd; exact Hnd|apply present_keys]. }
  assert (Hp : filter (fun kv => EqualFold kv.1 tag = true) (present fs) = pair tag <$> option_list ov).
  { clear Hfs. revert i Hi. induction fs as [|[k w] fs IH]; intros i Hi; [done|].
    rewrite fmap_cons, fmap_cons in Hnd. apply NoDup_cons in Hnd as [Hk Hnd].
    assert (Hnone : forall gs : list (string * option jval), ToLower tag ∉ ToLower <$> gs.*1 ->
      filter (fun kv => EqualFold kv.1 tag = true) (present gs) = []).
    { clear. induction gs as [|[k [v|]] gs IH]; intros Hg; simpl; [done| |apply IH; set_solver].
      rewrite filter_cons_False; [apply IH; set_solver|]. simpl. unfold EqualFold. rewrite String.eqb_eq. set_solver. }
    destruct i as [|i]; simpl in Hi.
    - injection Hi as -> ->. destruct ov as [v|]; simpl; [|by apply Hnone].
      rewrite filter_cons_True by (apply EqualFold_refl). by rewrite Hnone.
    - assert (Hne : ToLower k <> ToLower tag).
      { intros He. apply Hk. simpl. rewrite He. apply list_elem_of_fmap_2, (list_elem_of_fmap_2 fst _ (tag, ov)).
        by eapply list_elem_of_lookup_2. }
      destruct w as [v|]; simpl; [|by apply (IH Hnd i)].
      rewrite filter_cons_False by (simpl; unfold EqualFold; by rewrite String.eqb_eq). by apply (IH Hnd i). }
  unfold fieldEntries.
  assert (Hperm : SliceStable keyLess (map_to_list (list_to_map (reverse (present fs)) : gmap string jval)) ≡ₚ present fs).
  { rewrite SliceStable_perm, map_to_list_to_map; [apply reverse_Permutation|]. by rewrite reverse_Permutation. }
  apply (filter_Permutation (fun kv => EqualFold kv.1 tag = true)) in Hperm. rewrite Hp in Hperm.
  destruct ov as [v|]; simpl in Hperm |- *.
  - apply Permutation_singleton_r in Hperm. by rewrite Hperm.
  - apply Permutation_nil_r in Hperm. by rewrite Hperm.
Qed.

Lemma field_present {A} (assign : A -> jval -> option A) zero fs tag i ov :
  NoDup (ToLower <$> fs.*1) -> fs !! i = Some (tag, ov) ->
  field assign zero (present fs) tag = match ov with Some v => assign zero v | None => Some zero end.
Proof. intros Hnd Hi. unfold field. rewrite (fieldEntries_present _ _ _ _ Hnd Hi). by destruct ov. Qed.

(** ** Integers *)

Definition exact53 (z : Z) : Prop := Z.abs z < 2 ^ 53.

Lemma float_literal_exact {C : GoConv} z : exact53 z -> literal (jint z) = Some (z, z <? 0).
Proof.
  unfold exact53, literal, jint, float64. intros Hz. destruct z as [|p|p]; [done| |]; cbn [binary_normalize Z.ltb Z.compare].
  - destruct (binary_round_int false p) as (m & e & -> & He & Hm); [lia|]. cbn [float_literal].
    rewrite (float_trunc_int _ _ _ p) by done. unfold float_integral. rewrite Hm, Z.mod_mul, Z.eqb_refl, orb_true_r by (apply Z.pow_nonzero; lia).
    simpl negb. rewrite (proj2 (Z.leb_gt _ _)), (proj2 (Z.ltb_lt _ _)) by lia. done.
  - change (Z.pos p < 2 ^ 53) in Hz. destruct (binary_round_int true p) as (m & e & -> & He & Hm); [lia|]. cbn [float_literal].
    rewrite (float_trunc_int _ _ _ p) by done. unfold float_integral. rewrite Hm, Z.mod_mul, Z.eqb_refl, orb_true_r by (apply Z.pow_nonzero; lia).
    simpl negb. rewrite (proj2 (Z.leb_gt _ _)), (proj2 (Z.ltb_lt _ _)) by lia. done.
Qed.

Lemma asInt64_jint {C : GoConv} old z : exact53 z -> asInt64 old (jint z) = Some z.
Proof.
  intros Hz. unfold asInt64. change (jint z) with (JNumber (float64 z)) at 1. cbv iota. rewrite float_literal_exact by done. simpl.
  unfold exact53 in Hz. unfold minInt64, maxInt64. rewrite !(proj2 (Z.leb_le _ _)) by lia. done.
Qed.

Lemma asUnsigned_jint {C : GoConv} bound z : exact53 z -> 0 <= z <= bound -> asUnsigned bound (jint z) = Some z.
Proof.
  intros Hz Hb. unfold asUnsigned. rewrite float_literal_exact by done. simpl.
  by rewrite (proj2 (Z.ltb_ge _ _)), (proj2 (Z.leb_le _ _)) by lia.
Qed.

Lemma asStrings_jstrs old l : asStrings old (jstrs l) = Some l.
Proof. unfold asStrings, jstrs. apply mapM_Some. induction l; by constructor. Qed.

(** ** Transactions *)

(** What survives the trip: a hash, and integers that a float64 holds exactly. *)
Record tx_exact (tx : Transaction) (n : Z) : Prop := mkExact {
  ex_hash : tx_Hash tx <> "";
  ex_nonce : exact53 (tx_Nonce tx);
  ex_ts : exact53 (tx_Timestamp tx);
  ex_expires : exact53 (tx_ExpiresAt tx);
  ex_block : exact53 n;
  ex_amount : 0 <= tx_AmountUplp tx < 2 ^ 53;
  ex_fee : 0 <= tx_FeeUplp tx < 2 ^ 53;
  ex_outcome : match tx_SettleOutcome tx with Some o => 0 <= o <= 255 | None => True end
}.

(** The same transaction as another object. *)
Definition with_ref (ref : positive) (tx : Transaction) : Transaction :=
  mkTx ref (tx_Hash tx) (tx_From tx) (tx_To tx) (tx_Value tx) (tx_Fee tx) (tx_Nonce tx) (tx_Timestamp tx)
    (tx_Type tx) (tx_AssetType tx) (tx_ContractAddress tx) (tx_SigMain tx) (tx_SigDerived tx)
    (tx_PubMain tx) (tx_PubDerived tx) (tx_Asset tx) (tx_AmountUplp tx) (tx_FeeUplp tx) (tx_Reads tx)
    (tx_Writes tx) (tx_RequestIDHash tx) (tx_EscrowID tx) (tx_Purpose tx) (tx_ExpiresAt tx)
    (tx_SettleOutcome tx) (tx_SettleOutcomeKey tx) (tx_SettlePayee tx) (tx_SettleNode tx).

Lemma txFields_keys tx n : NoDup (ToLower <$> (txFields tx n).*1).
Proof.
  change ((txFields tx n).*1) with ((txFields (mkTx 1 "" "" "" "" "" 0 0 "" "" "" "" "" "" "" "" 0 0 [] [] "" "" "" 0 None "" "" "") 0).*1).
  apply (bool_decide_unpack _). vm_compute. exact I.
Qed.

Section trip.
Context {C : GoConv}.

Lemma str_field tx n i tag s : txFields tx n !! i = Some (tag, Some (JString s)) ->
  field asString "" (transactionToMap tx n) tag = Some s.
Proof. intros Hi. unfold transactionToMap. by rewrite (field_present _ _ _ _ _ _ (txFields_keys tx n) Hi). Qed.

Lemma strOpt_field tx n i tag s : txFields tx n !! i = Some (tag, unless (String.eqb s "") (JString s)) ->
  field asString "" (transactionToMap tx n) tag = Some s.
Proof.
  intros Hi. unfold transactionToMap. rewrite (field_present _ _ _ _ _ _ (txFields_keys tx n) Hi).
  destruct (String.eqb_spec s "") as [E|]; [by rewrite E|done].
Qed.

Lemma int_field tx n i tag z : exact53 z -> txFields tx n !! i = Some (tag, Some (jint z)) ->
  field asInt64 0 (transactionToMap tx n) tag = Some z.
Proof.
  intros Hz Hi. unfold transactionToMap. rewrite (field_present _ _ _ _ _ _ (txFields_keys tx n) Hi). by apply asInt64_jint.
Qed.

Lemma intOpt_field tx n i tag z : exact53 z -> txFields tx n !! i = Some (tag, unless (z =? 0) (jint z)) ->
  field asInt64 0 (transactionToMap tx n) tag = Some z.
Proof.
  intros Hz Hi. unfold transactionToMap. rewrite (field_present _ _ _ _ _ _ (txFields_keys tx n) Hi).
  destruct (Z.eqb_spec z 0) as [E|]; [by rewrite E|]. by apply asInt64_jint.
Qed.

Lemma uintOpt_field tx n i tag z : 0 <= z < 2 ^ 53 -> txFields tx n !! i = Some (tag, unless (z =? 0) (jint z)) ->
  field asUint64 0 (transactionToMap tx n) tag = Some z.
Proof.
  intros Hz Hi. unfold transactionToMap. rewrite (field_present _ _ _ _ _ _ (txFields_keys tx n) Hi).
  destruct (Z.eqb_spec z 0) as [E|]; [by rewrite E|]. simpl unless. cbv iota. unfold asUint64. change (jint z) with (JNumber (float64 z)) at 1.
  cbv iota. apply asUnsigned_jint; unfold exact53, maxUint64; lia.
Qed.

Lemma strsOpt_field tx n i tag l : txFields tx n !! i = Some (tag, unless (isNil l) (jstrs l)) ->
  field asStrings [] (transactionToMap tx n) tag = Some l.
Proof.
  intros Hi. unfold transactionToMap. rewrite (field_present _ _ _ _ _ _ (txFields_keys tx n) Hi).
  destruct l as [|s l]; [done|]. cbn [isNil unless]. apply asStrings_jstrs.
Qed.

Lemma outcome_field tx n i tag o : match o with Some o => 0 <= o <= 255 | None => True end ->
  txFields tx n !! i = Some (tag, jint <$> o) -> field asUint8Ptr None (transactionToMap tx n) tag = Some o.
Proof.
  intros Ho Hi. unfold transactionToMap. rewrite (field_present _ _ _ _ _ _ (txFields_keys tx n) Hi).
  destruct o as [o|]; [|done]. cbn [fmap option_fmap option_map]. unfold asUint8Ptr. change (jint o) with (JNumber (float64 o)) at 1. cbv iota.
  rewrite asUnsigned_jint; [done|unfold exact53; lia|lia].
Qed.

Lemma mapToTx_trip ref tx n : tx_exact tx n -> mapToTx ref (transactionToMap tx n) = Some (with_ref ref tx, n).
Proof.
  intros [Hh Hn Ht He Hb Ha Hf Ho]. unfold mapToTx.
  rewrite (str_field tx n 0 "hash" _ eq_refl), (str_field tx n 1 "from" _ eq_refl), (str_field tx n 2 "to" _ eq_refl),
    (str_field tx n 3 "value" _ eq_refl), (str_field tx n 4 "fee" _ eq_refl), (int_field tx n 5 "nonce" _ Hn eq_refl),
    (int_field tx n 6 "timestamp" _ Ht eq_refl), (str_field tx n 7 "type" _ eq_refl), (str_field tx n 8 "assetType" _ eq_refl),
    (strOpt_field tx n 9 "contractAddress" _ eq_refl), (strOpt_field tx n 10 "sig_main" _ eq_refl),
    (strOpt_field tx n 11 "sig_derived" _ eq_refl), (strOpt_field tx n 12 "pub_main" _ eq_refl),
    (strOpt_field tx n 13 "pub_derived" _ eq_refl), (strOpt_field tx n 14 "asset" _ eq_refl),
    (uintOpt_field tx n 15 "amount" _ Ha eq_refl), (uintOpt_field tx n 16 "fee_uplp" _ Hf eq_refl),
    (strsOpt_field tx n 17 "reads" _ eq_refl), (strsOpt_field tx n 18 "writes" _ eq_refl),
    (intOpt_field tx n 19 "blockNumber" _ Hb eq_refl), (strOpt_field tx n 20 "request_id_hash" _ eq_refl),
    (strOpt_field tx n 21 "escrow_id" _ eq_refl), (strOpt_field tx n 22 "purpose" _ eq_refl),
    (intOpt_field tx n 23 "expires_at" _ He eq_refl), (outcome_field tx n 24 "settle_outcome" _ Ho eq_refl),
    (strOpt_field tx n 25 "settle_outcome_key" _ eq_refl), (strOpt_field tx n 26 "settle_payee" _ eq_refl),
    (strOpt_field tx n 27 "settle_node" _ eq_refl).
  cbn [mbind option_bind]. by rewrite (proj2 (String.eqb_neq _ _) Hh).
Qed.
End trip.

(** ** Blocks *)

Record block_exact (b : BlockRecord) : Prop := mkBlockExact {
  bx_count : b_TxCount b = Z.of_nat (length (b_TxHashes b));
  bx_ints : Forall exact53 [b_BlockNumber b; b_Timestamp b; b_TotalFees b; b_L1Yes b; b_L1No b; b_L2Yes b; b_L2No b; b_DurationMs b]
}.

Lemma blockFields_keys bc b : NoDup (blockFields bc b).*1.
Proof.
  change ((blockFields bc b).*1) with ((blockFields NewBlockchain zeroBlock).*1). apply (bool_decide_unpack _). vm_compute. exact I.
Qed.

Lemma entry_get bc b i k ov : blockFields bc b !! i = Some (k, ov) -> jget (blockEntry bc b) k = ov.
Proof. apply jget_present, blockFields_keys. Qed.

Lemma entry_int bc b i k z : exact53 z -> blockFields bc b !! i = Some (k, Some (jint z)) -> getInt (blockEntry bc b) k = z.
Proof. intros Hz Hi. unfold getInt, getFloat. rewrite (entry_get _ _ _ _ _ Hi). cbn [jint]. by apply float64_exact. Qed.

Lemma entry_str bc b i k s : blockFields bc b !! i = Some (k, Some (JString s)) -> getString (blockEntry bc b) k = s.
Proof. intros Hi. unfold getString. by rewrite (entry_get _ _ _ _ _ Hi). Qed.

Lemma decodeVotes_trip votes : decodeVotes (match votesJSON votes with Some (JObject o) => o | _ => [] end) = votes.
Proof.
  unfold votesJSON. destruct (bool_decide_reflect (votes = ∅)) as [->|Hne]; [done|]. simpl. unfold decodeVotes.
  set (l := (fun kv : string * bool => (kv.1, JBool kv.2)) <$> map_to_list votes).
  assert (Hnd : NoDup l.*1).
  { unfold l. rewrite <- list_fmap_compose. change (NoDup (map_to_list votes).*1). apply NoDup_fst_map_to_list. }
  apply map_eq. intros k. rewrite lookup_omap.
  assert (Hl : (list_to_map (reverse l) : gmap string jval) !! k = JBool <$> votes !! k).
  { assert (Hr : NoDup (reverse l).*1) by (by rewrite reverse_Permutation).
    destruct (votes !! k) as [v|] eqn:E; simpl.
    - apply elem_of_list_to_map_1; [done|]. rewrite elem_of_reverse. apply list_elem_of_fmap. exists (k, v).
      split; [done|]. by apply elem_of_map_to_list.
    - apply not_elem_of_list_to_map_1. rewrite reverse_Permutation. intros Hin. unfold l in Hin.
      rewrite <- list_fmap_compose in Hin. apply list_elem_of_fmap in Hin as ([k' v] & -> & Hin).
      apply elem_of_map_to_list in Hin. simpl in E. congruence. }
  rewrite Hl. by destruct (votes !! k).
Qed.

Lemma entry_votes bc b i k votes : blockFields bc b !! i = Some (k, votesJSON votes) ->
  decodeVotes (getObject (blockEntry bc b) k) = votes.
Proof. intros Hi. unfold getObject. rewrite (entry_get _ _ _ _ _ Hi). apply decodeVotes_trip. Qed.

Lemma entry_hashes bc b : stringsOf (default [] (getArray (blockEntry bc b) "txHashes")) = b_TxHashes b.
Proof.
  unfold getArray. rewrite (entry_get bc b 2 "txHashes" _ eq_refl). cbn [jstrs default]. unfold stringsOf.
  induction (b_TxHashes b) as [|s l IH]; [done|]. simpl. by f_equal.
Qed.

Lemma decodeBlock_trip bc b : block_exact b -> decodeBlock (blockEntry bc b) = b.
Proof.
  intros [Hc Hi]. unfold decodeBlock. rewrite entry_hashes, <- Hc.
  repeat (apply Forall_cons in Hi as [? Hi]).
  rewrite (entry_int bc b 0 "blockNumber" (b_BlockNumber b)), (entry_int bc b 1 "timestamp" (b_Timestamp b)),
    (entry_int bc b 4 "totalFees" (b_TotalFees b)), (entry_str bc b 6 "blockHash" _ eq_refl),
    (entry_str bc b 7 "merkleRoot" _ eq_refl), (entry_str bc b 8 "stateRoot" _ eq_refl),
    (entry_str bc b 9 "previousHash" _ eq_refl), (entry_str bc b 10 "producerNodeId" _ eq_refl),
    (entry_int bc b 11 "l1Yes" (b_L1Yes b)), (entry_int bc b 12 "l1No" (b_L1No b)), (entry_int bc b 13 "l2Yes" (b_L2Yes b)),
    (entry_int bc b 14 "l2No" (b_L2No b)), (entry_int bc b 15 "durationMs" (b_DurationMs b)),
    (entry_str bc b 16 "l1BeneficiaryNodeId" _ eq_refl), (entry_str bc b 17 "l2ConfirmerNodeId" _ eq_refl),
    (entry_votes bc b 18 "l1Votes" _ eq_refl), (entry_votes bc b 19 "l2Votes" _ eq_refl) by done.
  by destruct b.
Qed.

(** The new objects are numbered from [ref] on. *)
Fixpoint renumber (ref : positive) (txs : list Transaction) : list Transaction :=
  match txs with [] => [] | tx :: txs' => with_ref ref tx :: renumber (Pos.succ ref) txs' end.

Lemma decodeTxs_trip {C : GoConv} (num : Transaction -> Z) txs ref :
  Forall (fun tx => tx_exact tx (num tx)) txs ->
  decodeTxs ref ((fun tx => transactionToMap tx (num tx)) <$> txs) = zip (renumber ref txs) (num <$> txs).
Proof.
  intros H. revert ref. induction H as [|tx txs Hx _ IH]; intros ref; [done|].
  rewrite fmap_cons. cbn [decodeTxs renumber zip zip_with fmap list_fmap]. rewrite mapToTx_trip by done. simpl. by rewrite IH.
Qed.

Lemma entry_txs bc b :
  objectsOf (default [] (getArray (blockEntry bc b) "transactions")) =
  (fun tx => transactionToMap tx (BlockNumber bc tx)) <$> indexedTxs bc b.
Proof.
  unfold getArray. rewrite (entry_get bc b 5 "transactions" _ eq_refl). cbn [default]. unfold objectsOf.
  induction (indexedTxs bc b) as [|tx l IH]; [done|]. simpl. by f_equal.
Qed.

(** C25: a block survives the trip to a peer. What [ExportBlocksForSync] writes for
    a block is decoded by the receiver to the same record, votes included, and to
    the transactions the sender has indexed for it, in the block's order and with
    their block numbers, as new objects; all integers must be below 2^53 in absolute
    value (float64), the stored count must be that of the hashes, and every
    transaction must have a hash. *)
Theorem sync_export_roundtrip {C : GoConv} (bc : Blockchain) (b : BlockRecord) (ref : positive)
  (Hb : block_exact b) (Htx : Forall (fun tx => tx_exact tx (BlockNumber bc tx)) (indexedTxs bc b)) :
  let entry := blockEntry bc b in
  decodeBlock entry = b /\
  decodeTxs ref (objectsOf (default [] (getArray entry "transactions"))) =
    zip (renumber ref (indexedTxs bc b)) (BlockNumber bc <$> indexedTxs bc b).
Proof. cbv zeta. split; [by apply decodeBlock_trip|]. rewrite entry_txs. by apply decodeTxs_trip. Qed.

(** ** The order of the entries *)

Lemma binary_round_shape neg p :
  Z.pos p < 2 ^ 53 ->
  exists m, binary_round 53 1024 neg p 0 = S754_finite neg m (Z.pos (digits2_pos p) - 53) /\
            Z.pos m = Z.pos p * 2 ^ (53 - Z.pos (digits2_pos p)).
Proof.
  intros Hp. pose proof (digits_small p 53 ltac:(lia) Hp) as Hd.
  assert (Hf : fexp 53 1024 (Z.pos (digits2_pos p) + 0) = Z.pos (digits2_pos p) - 53)
    by (unfold fexp, emin; lia).
  unfold binary_round, shl_align. rewrite Hf.
  destruct (Z.pos (digits2_pos p) - 53 - 0) as [|d|d] eqn:E; try lia.
  - exists p. replace (Z.pos (digits2_pos p)) with 53 by lia. rewrite round_aux_exact; [split; [done|simpl; lia]| |lia].
    unfold fexp, emin. lia.
  - exists (Pos.iter xO p d). replace (Z.pos (digits2_pos p) - 53) with (Z.neg d) by lia.
    rewrite round_aux_exact; [split; [done|]| |lia].
    + rewrite iter_xO. do 2 f_equal. lia.
    + rewrite digits2_pos_shift, Pos2Z.inj_add. unfold fexp, emin. lia.
Qed.

Lemma float64_ltb a b : 0 <= a < 2 ^ 53 -> 0 <= b < 2 ^ 53 -> SFltb (float64 a) (float64 b) = (a <? b).
Proof.
  intros Ha Hb. unfold SFltb, float64. destruct a as [|p|p], b as [|q|q]; try lia; cbn [binary_normalize Z.ltb Z.compare];
    try (destruct (binary_round_shape false q) as (m & -> & Hm); [lia|]);
    try (destruct (binary_round_shape false p) as (m' & -> & Hm'); [lia|]); try done.
  cbn [SFcompare]. pose proof (digits2_pos_bound p) as Bp. pose proof (digits2_pos_bound q) as Bq.
  change (Z.pos p ?= Z.pos q) with (p ?= q)%positive.
  destruct (Z.compare_spec (Z.pos (digits2_pos p) - 53) (Z.pos (digits2_pos q) - 53)) as [E|E|E].
  - assert (Hd : digits2_pos p = digits2_pos q) by lia. rewrite Hd in Hm'.
    assert (0 < 2 ^ (53 - Z.pos (digits2_pos q))) by (apply Z.pow_pos_nonneg; [lia|]; pose proof (digits_small q 53); lia).
    replace (Pcompare m' m Eq) with (m' ?= m)%positive by done.
    destruct (Pos.compare_spec m' m), (Pos.compare_spec p q); try done; nia.
  - assert (2 ^ Z.pos (digits2_pos p) <= 2 ^ (Z.pos (digits2_pos q) - 1)) by (apply Z.pow_le_mono_r; lia).
    destruct (Pos.compare_spec p q); try done; lia.
  - assert (2 ^ Z.pos (digits2_pos q) <= 2 ^ (Z.pos (digits2_pos p) - 1)) by (apply Z.pow_le_mono_r; lia).
    destruct (Pos.compare_spec p q); try done; lia.
Qed.

(** ** Applying one entry *)

Section apply.
Context {CS RS : Type} {R : GoRange} {C : GoConv}.
Implicit Types (h : HandlerEnv CS RS) (n : Node CS RS) (f : Faults CS).

(** What the boundary of a peer's block does to the history, fail point apart. *)
Lemma peer_apply_history h f b txs n n' r :
  ApplyPeerConfirmedBlock h f id b (Some <$> txs) n = (n', r) ->
  ledger (chainEnv h) <> None -> restoreCopy f = CopyOk -> confirmFailPoint h <> FailPointCrashAfterExplorer ->
  if decide (r = Ok true) then blockHistory (n_bc n') = blockHistory (n_bc n) ++ [b] /\ b_BlockNumber b ∉ numbers (blockHistory (n_bc n))
  else blockHistory (n_bc n') = blockHistory (n_bc n).
Proof.
  unfold ApplyPeerConfirmedBlock, n_bc. intros H Hl Hc Hp.
  destruct (AddConfirmedBlock _ _ _ _ _ _) as [w1 r1] eqn:Ea. pose proof (peer_block_cases _ _ _ _ _ _ _ Ea Hl Hc) as Hcase.
  destruct (decide (b_BlockNumber b ∈ _)) as [Hin|Hin].
  - destruct Hcase as [-> Hr]. destruct r1 as [[?|]|m]; [done| |]; injection H as <- <-; by rewrite decide_False.
  - destruct r1 as [[hb|]|m]; [|done|].
    2:{ injection H as <- <-. rewrite decide_False by done. simpl. by destruct Hcase. }
    destruct Hcase as (Hh & -> & Hbak & _).
    destruct (DurableCommitAfterExplorer _ _ _ _ _ _) as [n1 r2] eqn:Ed. apply durable_cases in Ed; [|done].
    cbn [n_world Boundary.with_world] in Ed. destruct r2 as [c|m]; injection H as <- <-.
    + destruct Ed as (_ & _ & ->). by rewrite decide_True.
    + rewrite decide_False by done. rewrite Ed.
      destruct (undo_world (chainEnv h) f b (Some <$> txs) w1 (w_state (n_world n))) as (_ & d & ->); [done|done|done|].
      cbn [blockHistory set_durableHead].
      destruct (undoExplorer_spec (w_bc w1) (blockHistory (w_bc (n_world n))) b b txs "pending" Hh eq_refl) as (-> & _). done.
Qed.

Lemma receive_frame bc (decoded : list (Transaction * Z)) :
  let bc' := foldl (fun bc tn => setBlockNumber tn.1 tn.2 bc) bc decoded in
  blockHistory bc' = blockHistory bc /\ durableHead bc' = durableHead bc /\ peerConfirmInject bc' = peerConfirmInject bc.
Proof.
  cbv zeta. revert bc. induction decoded as [|[tx m] l IH]; intros bc; [done|]. simpl.
  by destruct (IH (setBlockNumber tx m bc)) as (-> & -> & ->).
Qed.

Lemma nbc_with bc n : n_bc (with_nbc bc n) = bc.
Proof. done. Qed.

Definition announce (b : BlockRecord) : Z * Z * Z := (b_BlockNumber b, b_TxCount b, b_TotalFees b).

Lemma onBlockConfirmed_history h f ref data n n' ev :
  onBlockConfirmed h f id ref data n = (n', ev) ->
  ledger (chainEnv h) <> None -> restoreCopy f = CopyOk -> confirmFailPoint h <> FailPointCrashAfterExplorer ->
  match ev with
  | Some e => blockHistory (n_bc n') = blockHistory (n_bc n) ++ [decodeBlock data] /\ e = announce (decodeBlock data) /\
              b_BlockNumber (decodeBlock data) ∉ numbers (blockHistory (n_bc n))
  | None => blockHistory (n_bc n') = blockHistory (n_bc n)
  end.
Proof.
  unfold onBlockConfirmed. intros H Hl Hc Hp. set (decoded := decodeTxs _ _) in *.
  destruct (receive_frame (n_bc n) decoded) as (Hh & _).
  destruct (ApplyPeerConfirmedBlock _ _ _ _ _ _) as [n1 r] eqn:Ea.
  pose proof (peer_apply_history _ _ _ _ _ _ _ Ea Hl Hc Hp) as Hr.
  rewrite !nbc_with, Hh in Hr. destruct (decide (r = Ok true)) as [->|Hne].
  - injection H as <- <-. by destruct Hr.
  - destruct r as [[]|m]; [done|by injection H as <- <-|by injection H as <- <-].
Qed.

(** ** A whole response *)

Lemma StronglySorted_snoc2 (l : list Z) x y : StronglySorted Z.lt (l ++ [x]) -> x < y -> StronglySorted Z.lt ((l ++ [x]) ++ [y]).
Proof.
  intros Hs Hxy. induction l as [|z l IH]; simpl in *; [repeat constructor; done|].
  inversion Hs as [|? ? Hs' Hz]; subst. constructor; [by apply IH|].
  rewrite !Forall_app, !Forall_singleton in *. destruct Hz as [Hz Hzx]. split_and!; [done|done|lia].
Qed.

Lemma lastNumber_snoc hist b : lastNumber (hist ++ [b]) = b_BlockNumber b.
Proof.
  unfold lastNumber. rewrite length_app, Nat.add_comm. simpl. by rewrite lookup_app_r, Nat.sub_diag by lia.
Qed.

Lemma sorted_append hist b :
  StronglySorted Z.lt (numbers hist) -> lastNumber hist < b_BlockNumber b -> StronglySorted Z.lt (numbers (hist ++ [b])).
Proof.
  intros Hs Hlt. destruct (decide (hist = [])) as [->|Hne]; [repeat constructor|].
  destruct hist as [|c hist] using rev_ind; [done|]. rewrite lastNumber_snoc in Hlt.
  unfold numbers in *. rewrite !fmap_app in *. by apply StronglySorted_snoc2.
Qed.

Lemma headOf_norocks h n : rocksClient h = None -> HeadOf h n = lastNumber (blockHistory (n_bc n)).
Proof. intros Hr. unfold HeadOf, HeadBlockNumber, readsOf. by rewrite Hr. Qed.

Lemma applyEntries_history h f ref entries n n' evs :
  applyEntries h f ref entries n = (n', evs) ->
  ledger (chainEnv h) <> None -> restoreCopy f = CopyOk -> confirmFailPoint h <> FailPointCrashAfterExplorer ->
  exists bs, blockHistory (n_bc n') = blockHistory (n_bc n) ++ bs /\ evs = announce <$> bs /\
    sublist bs (decodeBlock <$> entries) /\ Forall (fun b => b_BlockNumber b ∉ numbers (blockHistory (n_bc n))) bs /\
    NoDup (numbers bs) /\
    (rocksClient h = None -> StronglySorted Z.lt (numbers (blockHistory (n_bc n))) ->
     StronglySorted Z.lt (numbers (blockHistory (n_bc n')))).
Proof.
  intros H Hl Hc Hp. revert ref n n' evs H. induction entries as [|m entries IH]; intros ref n n' evs H; simpl in H.
  { injection H as <- <-. exists []. rewrite app_nil_r. split_and!; try done; constructor. }
  destruct (Z.leb_spec (getInt m "blockNumber") (HeadOf h n)) as [Hle|Hgt].
  { destruct (IH _ _ _ _ H) as (bs & Hh & He & Hs & Hrest). exists bs. split_and!; [done|done|by apply sublist_cons|apply Hrest..]. }
  destruct (onBlockConfirmed h f id ref m n) as [n1 ev] eqn:Eo.
  destruct (applyEntries h f _ entries n1) as [n2 evs2] eqn:Ea. injection H as <- <-.
  apply onBlockConfirmed_history in Eo; [|done..]. destruct (IH _ _ _ _ Ea) as (bs & Hh & -> & Hs & Hf & Hnd & Hso).
  destruct ev as [e|].
  - destruct Eo as (Hh1 & -> & Hnew). exists (decodeBlock m :: bs). rewrite Hh1 in *.
    rewrite Forall_forall in Hf.
    assert (Hold : forall b, b ∈ bs -> b_BlockNumber b ∉ numbers (blockHistory (n_bc n)) /\ b_BlockNumber b <> b_BlockNumber (decodeBlock m)).
    { intros b Hb. specialize (Hf b Hb). unfold numbers in *. rewrite fmap_app in Hf. simpl in Hf. set_solver. }
    split_and!; [by rewrite Hh, <- app_assoc|done|by apply sublist_skip| | |].
    + apply Forall_cons. split; [done|]. apply Forall_forall. intros b Hb. by apply Hold.
    + unfold numbers. rewrite fmap_cons. apply NoDup_cons. split; [|done]. intros (b & Hb & Hin)%list_elem_of_fmap. by apply (Hold b Hin).
    + intros Hr Hst. apply Hso; [done|]. apply sorted_append; [done|]. rewrite headOf_norocks in Hgt by done. simpl. lia.
  - rewrite Eo in *. exists bs. split_and!; [done|done|by apply sublist_cons|done|done|done].
Qed.

Lemma objectsOf_elem m l : m ∈ objectsOf l <-> JObject m ∈ l.
Proof.
  unfold objectsOf. rewrite list_elem_of_omap. split; [|intros H; by exists (JObject m)].
  intros (v & Hv & Hm). destruct v; by simplify_eq.
Qed.

(** a sync response only appends. Whatever a peer sends and however equal
    heights are ordered, the history keeps all its blocks in place and gains blocks
    decoded from the response, none at a height the gateway has and no two at one
    height; each of them, and nothing else, is announced to the websocket clients.
    Without RocksDB the heights stay strictly increasing. *)
Theorem sync_only_appends (Slice : list jobj -> list jobj) h f ref data n
  (Hslice : forall l, Slice l ≡ₚ l) (Hledger : ledger (chainEnv h) <> None) (Hcopy : restoreCopy f = CopyOk)
  (Hpoint : confirmFailPoint h <> FailPointCrashAfterExplorer) :
  let '(n', evs) := onSyncApply Slice h f ref data n in
  exists bs, blockHistory (n_bc n') = blockHistory (n_bc n) ++ bs /\ evs = announce <$> bs /\
    Forall (fun b => exists m, JObject m ∈ default [] (getArray data "blocks") /\ b = decodeBlock m) bs /\
    Forall (fun b => b_BlockNumber b ∉ numbers (blockHistory (n_bc n))) bs /\ NoDup (numbers bs) /\
    (rocksClient h = None -> StronglySorted Z.lt (numbers (blockHistory (n_bc n))) ->
     StronglySorted Z.lt (numbers (blockHistory (n_bc n')))).
Proof.
  destruct (onSyncApply Slice h f ref data n) as [n' evs] eqn:E. unfold onSyncApply in E.
  assert (Hnil : Slice [] = []) by (apply Permutation_nil_r, Hslice).
  assert (E' : applyEntries h f ref (Slice (objectsOf (default [] (getArray data "blocks")))) n = (n', evs)).
  { destruct (getArray data "blocks") as [[|v l]|]; [|done|]; simpl; by rewrite Hnil. }
  destruct (applyEntries_history _ _ _ _ _ _ _ E') as (bs & Hh & He & Hs & Hrest); [done..|].
  exists bs. split; [done|]. split; [done|]. split; [|done].
  apply Forall_forall. intros b Hb. eapply elem_of_submseteq in Hb; [|by apply sublist_submseteq].
  apply list_elem_of_fmap in Hb as (m & -> & Hm). rewrite Hslice, objectsOf_elem in Hm. by exists m.
Qed.

(** ** Catching up *)

(** A gateway whose file is not ahead of its history and that has no injected fault. *)
Record ready n : Prop := mkReady {
  rd_inject : peerConfirmInject (n_bc n) <> PeerInjectExplorerWrite;
  rd_durable : durableHead (n_bc n) <= lastNumber (blockHistory (n_bc n));
  rd_sorted : StronglySorted Z.lt (numbers (blockHistory (n_bc n)))
}.

Lemma sorted_le_last hist k : StronglySorted Z.lt (numbers hist) -> k ∈ numbers hist -> k <= lastNumber hist.
Proof.
  intros Hs Hk. destruct hist as [|c hist _] using rev_ind; [by apply elem_of_nil in Hk|].
  rewrite lastNumber_snoc. unfold numbers in *. rewrite fmap_app in *. simpl in *. revert Hk.
  induction (b_BlockNumber <$> hist) as [|z l IH]; simpl in *; [set_solver by lia|].
  inversion Hs as [|? ? Hs' Hz]; subst. rewrite elem_of_cons. intros [->|Hk]; [|by apply IH].
  rewrite Forall_app, Forall_singleton in Hz. lia.
Qed.

Lemma historyHead_append hist b : StronglySorted Z.lt (numbers hist) -> lastNumber hist < b_BlockNumber b -> 0 <= b_BlockNumber b ->
  historyHead (hist ++ [b]) = b_BlockNumber b.
Proof.
  intros Hs Hlt H0. apply historyHead_snoc. destruct (historyHead_max hist) as (_ & _ & [->|Hin]); [lia|].
  apply (sorted_le_last _ _ Hs) in Hin. lia.
Qed.

Lemma adoptBlock_inject b txs bc : peerConfirmInject (adoptBlock b txs bc) = peerConfirmInject bc.
Proof.
  unfold adoptBlock. cbv zeta. set (bc0 := if (0 <=? _) && _ then _ else _).
  assert (H0 : peerConfirmInject bc0 = peerConfirmInject bc) by (subst bc0; by destruct (_ && _)).
  destruct (adopt_foldl_frame (b_BlockNumber b) bc0 (nonNil txs)) as (_ & _ & _ & _ & _ & _ & _ & _ & _ & Hi).
  cbn. by rewrite Hi.
Qed.

Lemma persistChain_accepts f w :
  chainWrite f = WriteOk -> durableHead (w_bc w) <= historyHead (blockHistory (w_bc w)) ->
  exists w', persistChain f w = (w', Ok ()) /\ durableHead (w_bc w') <= historyHead (blockHistory (w_bc w)) /\
    blockHistory (w_bc w') = blockHistory (w_bc w) /\ peerConfirmInject (w_bc w') = peerConfirmInject (w_bc w).
Proof.
  intros Hw Hd. unfold persistChain. destruct (String.eqb _ _); [by exists w|]. cbn [f_Blocks chainSnapshot].
  rewrite (proj2 (Z.ltb_ge _ _)), andb_false_r by done. unfold atomicWriteFile. rewrite Hw.
  destruct (Z.ltb_spec (durableHead (w_bc w)) (historyHead (blockHistory (w_bc w)))); eexists; (split; [done|]); simpl; split_and!; (done || lia).
Qed.

Lemma peer_accepts h f b txs n :
  rocksClient h = None -> confirmFailPoint h = FailPointNone -> chainWrite f = WriteOk -> ledger (chainEnv h) <> None ->
  (applyConfirmedTransactions (chainEnv h) f (Some <$> txs) (n_world n)).2 = Ok true ->
  ready n -> lastNumber (blockHistory (n_bc n)) < b_BlockNumber b -> 0 <= b_BlockNumber b ->
  exists n', ApplyPeerConfirmedBlock h f id b (Some <$> txs) n = (n', Ok true) /\
    blockHistory (n_bc n') = blockHistory (n_bc n) ++ [b] /\ ready n'.
Proof.
  intros Hr Hp Hw Hl Ha [Hi Hd Hs] Hlt H0. unfold n_bc in *. set (w := n_world n) in *.
  destruct (applyConfirmedTransactions _ _ _ _) as [wa ra] eqn:Ea. simpl in Ha. subst ra. apply apply_ok in Ea as Hok. destruct Hok as (Hdag & _).
  assert (Hha : blockHistory (w_bc wa) = blockHistory (w_bc w)) by (by destruct Hdag as [-> | ->]).
  assert (Hia : peerConfirmInject (w_bc wa) = peerConfirmInject (w_bc w)) by (by destruct Hdag as [-> | ->]).
  assert (Hda : durableHead (w_bc wa) = durableHead (w_bc w)) by (by destruct Hdag as [-> | ->]).
  assert (Hnew : b_BlockNumber b ∉ numbers (blockHistory (w_bc w))) by (intros Hin%(sorted_le_last _ _ Hs); lia).
  pose proof (adopt_durableHead b (Some <$> txs) (w_bc wa)) as Had. pose proof (adoptBlock_inject b (Some <$> txs) (w_bc wa)) as Hai.
  pose proof (proj1 (adoptBlock_fields b (Some <$> txs) (w_bc wa))) as Hah. rewrite Hha in Hah.
  set (bca := adoptBlock b (Some <$> txs) (w_bc wa)) in *.
  destruct (persistChain_accepts f (with_bc bca wa) Hw) as (wp & Ep & Hpd & Hph & Hpi).
  { cbn [w_bc with_bc]. rewrite Had, Hah, historyHead_append by done. lia. }
  cbn [w_bc with_bc] in *. rewrite Hah in Hph, Hpd. rewrite historyHead_append in Hpd by done.
  unfold ApplyPeerConfirmedBlock, AddConfirmedBlock. fold w.
  pose proof (scanHeight_spec b (blockHistory (w_bc w))) as Hsc. destruct (scanHeight b _);
    [|destruct Hsc as (c & Hc & Hn & _); destruct Hnew; rewrite <- Hn; by apply list_elem_of_fmap_2..].
  rewrite Ea. cbn [id]. fold bca. cbn [w_bc with_bc]. rewrite (proj2 (String.eqb_neq _ _)) by congruence. rewrite Ep.
  unfold DurableCommitAfterExplorer, commitBlockToRocks. rewrite Hp, Hr. cbn [n_world Boundary.with_world n_rocks].
  eexists. split; [done|]. assert (Hrem : w_bc (removeBak f wp) = w_bc wp) by (unfold removeBak; by destruct (removeOk f)).
  cbn [n_world]. rewrite Hrem. split; [done|]. constructor; unfold n_bc; cbn [n_world]; rewrite Hrem.
  - congruence.
  - rewrite Hph, lastNumber_snoc. done.
  - rewrite Hph. by apply sorted_append.
Qed.

Lemma renumber_zip ref txs (num : Transaction -> Z) : (zip (renumber ref txs) (num <$> txs)).*1 = renumber ref txs.
Proof. revert ref. induction txs as [|tx txs IH]; intros ref; [done|]. simpl. by rewrite IH. Qed.

Section catch.
Variables (h : HandlerEnv CS RS) (f : Faults CS) (peer : Blockchain).
Hypotheses (Hrocks : rocksClient h = None) (Hpoint : confirmFailPoint h = FailPointNone) (Hwrite : chainWrite f = WriteOk)
  (Hledger : ledger (chainEnv h) <> None).

(** A block that a gateway with this Core can take over from the peer. *)
Definition acceptable (b : BlockRecord) : Prop :=
  block_exact b /\ 0 <= b_BlockNumber b /\ Forall (fun tx => tx_exact tx (BlockNumber peer tx)) (indexedTxs peer b) /\
  forall w ref, (applyConfirmedTransactions (chainEnv h) f (Some <$> renumber ref (indexedTxs peer b)) w).2 = Ok true.

Lemma applyEntries_catch rest ref n :
  ready n -> Forall acceptable rest -> StronglySorted Z.lt (lastNumber (blockHistory (n_bc n)) :: numbers rest) ->
  let '(n', evs) := applyEntries h f ref (blockEntry peer <$> rest) n in
  blockHistory (n_bc n') = blockHistory (n_bc n) ++ rest /\ evs = announce <$> rest.
Proof.
  revert ref n. induction rest as [|b rest IH]; intros ref n Hn Hacc Hs; [simpl; by rewrite app_nil_r|].
  apply Forall_cons in Hacc as [(Hb & H0 & Htx & Hcore) Hacc]. inversion Hs as [|? ? Hs' Hlt]; subst.
  apply Forall_cons in Hlt as [Hlt _]. rewrite fmap_cons. cbn [applyEntries].
  assert (Hnum : getInt (blockEntry peer b) "blockNumber" = b_BlockNumber b).
  { change (getInt (blockEntry peer b) "blockNumber") with (b_BlockNumber (decodeBlock (blockEntry peer b))).
    by rewrite decodeBlock_trip. }
  rewrite Hnum, headOf_norocks, (proj2 (Z.leb_gt _ _)) by done. unfold onBlockConfirmed.
  rewrite decodeBlock_trip, entry_txs, decodeTxs_trip, renumber_zip by done.
  set (bc0 := foldl _ _ _). destruct (receive_frame (n_bc n) (zip (renumber ref (indexedTxs peer b)) (BlockNumber peer <$> indexedTxs peer b))) as (Hh & Hd & Hi).
  fold bc0 in Hh, Hd, Hi. destruct Hn as [Hn1 Hn2 Hn3].
  destruct (peer_accepts h f b (renumber ref (indexedTxs peer b)) (with_nbc bc0 n)) as (n1 & -> & Hh1 & Hr1); try done.
  { constructor; rewrite nbc_with, ?Hh, ?Hd, ?Hi; done. }
  { by rewrite nbc_with, Hh. }
  rewrite nbc_with, Hh in Hh1. match goal with |- context [applyEntries h f ?r _ n1] => specialize (IH r n1 Hr1 Hacc) end.
  rewrite Hh1, lastNumber_snoc in IH. specialize (IH Hs'). destruct (applyEntries _ _ _ _ _) as [n2 evs2]. destruct IH as [-> ->].
  by rewrite <- app_assoc.
Qed.

Lemma entryNumber_entry b : entryNumber (blockEntry peer b) = float64 (b_BlockNumber b).
Proof. unfold entryNumber, getFloat. by rewrite (entry_get peer b 0 "blockNumber" _ eq_refl). Qed.

(** A height that float64 holds: on such entries the less function is a strict order. *)
Definition exactEntry (m : jobj) : Prop := exists z, 0 <= z < 2 ^ 53 /\ entryNumber m = float64 z.

Lemma acceptable_entry b : acceptable b -> exactEntry (blockEntry peer b).
Proof.
  intros ([_ [Hx _]%Forall_cons] & H0 & _). exists (b_BlockNumber b). unfold exact53 in Hx. split; [lia|apply entryNumber_entry].
Qed.

(** The entries arrive in the order of their heights. *)
Lemma entries_sorted rest :
  Forall acceptable rest -> StronglySorted Z.lt (numbers rest) ->
  StronglySorted (notLess entryLess) (blockEntry peer <$> rest) /\
  (forall a b, a ∈ blockEntry peer <$> rest -> b ∈ blockEntry peer <$> rest -> notLess entryLess a b -> notLess entryLess b a -> a = b).
Proof.
  intros Hacc Hs. rewrite Forall_forall in Hacc.
  assert (Hless : forall a b, a ∈ rest -> b ∈ rest -> entryLess (blockEntry peer a) (blockEntry peer b) = (b_BlockNumber a <? b_BlockNumber b)).
  { intros a b Ha Hb. unfold entryLess. rewrite !entryNumber_entry.
    destruct (Hacc a Ha) as ([_ [Ha1 _]%Forall_cons] & ? & _), (Hacc b Hb) as ([_ [Hb1 _]%Forall_cons] & ? & _).
    unfold exact53 in *. apply float64_ltb; lia. }
  split.
  - clear Hacc. induction rest as [|a rest IH]; [constructor|]. unfold numbers in Hs. rewrite fmap_cons in *.
    inversion Hs as [|? ? Hs' Ha]; subst. constructor; [apply IH; [done|intros; apply Hless; by right]|].
    rewrite Forall_fmap in Ha. apply Forall_fmap. rewrite Forall_forall in *. intros b Hb. specialize (Ha b Hb). simpl in *.
    unfold notLess. rewrite Hless by set_solver. apply Z.ltb_ge. lia.
  - intros ? ? (a & -> & Ha)%list_elem_of_fmap (b & -> & Hb)%list_elem_of_fmap H1 H2.
    unfold notLess in H1, H2. rewrite Hless in H1, H2 by done. apply Z.ltb_ge in H1, H2. f_equal.
    assert (Hab : b_BlockNumber a = b_BlockNumber b) by lia. clear -Hs Ha Hb Hab.
    induction rest as [|c rest IH]; [by apply elem_of_nil in Ha|]. unfold numbers in Hs. rewrite fmap_cons in Hs.
    inversion Hs as [|? ? Hs' Hc]; subst. rewrite Forall_fmap, Forall_forall in Hc.
    apply elem_of_cons in Ha as [->|Ha], Hb as [->|Hb]; [done| | |by apply IH].
    + specialize (Hc b Hb). simpl in Hc. lia.
    + specialize (Hc a Ha). simpl in Hc. lia.
Qed.
End catch.

Lemma export_rest peer from hist rest :
  blockHistory peer = hist ++ rest -> Forall (fun b => b_BlockNumber b < from) hist -> Forall (fun b => from <= b_BlockNumber b) rest ->
  ExportBlocksForSync from peer = blockEntry peer <$> rest.
Proof.
  intros Hp Hh Hr. unfold ExportBlocksForSync. rewrite Hp, filter_app. f_equal.
  assert (filter (fun b => (b_BlockNumber b <? from) = false) hist = []) as ->.
  { clear -Hh. induction Hh as [|b hist Hb _ IH]; [done|]. rewrite filter_cons_False; [done|]. rewrite Z.ltb_ge. lia. }
  clear -Hr. induction Hr as [|b rest Hb _ IH]; [done|]. simpl in *. rewrite filter_cons_True; [by f_equal|]. by apply Z.ltb_ge.
Qed.

Lemma respond_blocks probe rocks id from bc :
  getArray (onSyncRespond probe rocks id from bc) "blocks" = Some (JObject <$> ExportBlocksForSync from bc).
Proof. unfold onSyncRespond, getArray. by destruct (HeadBlock probe rocks bc). Qed.

Lemma objectsOf_all l : objectsOf (JObject <$> l) = l.
Proof. unfold objectsOf. induction l as [|m l IH]; [done|]. simpl. by f_equal. Qed.

End apply.

(** ** Witnesses *)

#[local] Instance syncConv : GoConv := zero_conv.
#[local] Instance syncRange : GoRange := canonical_range.

Definition plainEnv : Env Z := mkEnv Z (Some (mkLedger Z demoCore true)) false false "n1".

Definition plainHandler : HandlerEnv Z unit :=
  mkHandler _ _ plainEnv (fun cs => Ok "root") (fun a cs => Ok None) true
    (fun cs n prev ts hs p => Ok (mkHeader "" "" "" prev)) None FailPointNone.

Definition signedTx : Transaction :=
  mkTx 7 "h1" "PxA" "PxB" "" "" 0 10 "transfer" "native" "" "sm" "sd" "" "" "PLP" 5 1 ["PxA"] ["PxA"; "PxB"] "" "" "" 0 (Some 2) "" "" "".

Definition blk (k : Z) (hs : list string) (votes : gmap string bool) : BlockRecord :=
  mkBlock k (k + 100) hs (Z.of_nat (length hs)) 1 "bh" "mr" "sr" "ph" "n2" 2 0 1 1 7 "b" "c" votes ∅.

Definition peerChain : Blockchain :=
  set_blockHistory [blk 0 [] ∅; blk 1 ["h1"; "h9"] {["n1" := true; "n2" := false]}; blk 2 [] ∅]
    (setBlockNumber signedTx 1 (set_transactions {["h1" := signedTx]} NewBlockchain)).

Definition laggard : Node Z unit :=
  mkNode (mkWorld (set_blockHistory [blk 0 [] ∅] NewBlockchain) 100 None None) tt None.

Lemma signed_exact : tx_exact signedTx 1.
Proof. constructor; unfold exact53; simpl; (done || lia). Qed.

Lemma sync_export_roundtrip_witness :
  decodeBlock (blockEntry peerChain (blk 1 ["h1"; "h9"] {["n1" := true; "n2" := false]})) =
  blk 1 ["h1"; "h9"] {["n1" := true; "n2" := false]}.
Proof.
  refine (proj1 (sync_export_roundtrip peerChain (blk 1 ["h1"; "h9"] {["n1" := true; "n2" := false]}) 20 _ _)).
  - constructor; [done|]. unfold exact53. repeat constructor; simpl; lia.
  - apply Forall_singleton. exact signed_exact.
Defined.

Lemma sync_only_appends_witness :
  exists bs, blockHistory (n_bc (onSyncApply (SliceStable entryLess) plainHandler (demoFaults WriteOk) 20
    (onSyncRespond None None "peer" 0 peerChain) laggard).1) = blockHistory (n_bc laggard) ++ bs.
Proof.
  pose proof (sync_only_appends (SliceStable entryLess) plainHandler (demoFaults WriteOk) 20 (onSyncRespond None None "peer" 0 peerChain)
    laggard (SliceStable_perm entryLess) ltac:(done) eq_refl ltac:(done)) as H.
  destruct (onSyncApply _ _ _ _ _ _) as [n' evs]. destruct H as (bs & H & _). exists bs. exact H.
Defined.

(** Sorting by the truncated number is a [sort.Slice] for such entries. *)
Definition intLess (a b : jobj) : bool := getInt a "blockNumber" <? getInt b "blockNumber".

Lemma intLess_slice l : Forall exactEntry l -> StronglySorted (notLess entryLess) (SliceStable intLess l).
Proof.
  intros Hl. assert (Hs : StronglySorted (notLess intLess) (SliceStable intLess l)).
  { apply SliceStable_sorted; unfold notLess, intLess; intros *; rewrite ?Z.ltb_lt, ?Z.ltb_ge; lia. }
  assert (Hl' : Forall exactEntry (SliceStable intLess l)) by (by rewrite SliceStable_perm).
  assert (Hkey : forall m, exactEntry m -> exists z, 0 <= z < 2 ^ 53 /\ entryNumber m = float64 z /\ getInt m "blockNumber" = z).
  { intros m (z & Hz & Hm). exists z. split; [done|]. split; [done|]. unfold entryNumber in Hm. unfold getInt.
    destruct (getFloat m "blockNumber"); simpl in Hm; [subst; apply float64_exact; lia|].
    transitivity (int64_of_float (float64 z)); [by rewrite <- Hm|apply float64_exact; lia]. }
  induction Hs as [|a k Hk IH Ha]; [constructor|]. apply Forall_cons in Hl' as [Hea Hek]. constructor; [by apply IH|].
  rewrite Forall_forall in *. intros b Hb. specialize (Ha b Hb). unfold notLess, intLess, entryLess in *.
  destruct (Hkey a Hea) as (x & Hx & -> & Hxa), (Hkey b (Hek b Hb)) as (y & Hy & -> & Hyb).
  rewrite float64_ltb by done. by rewrite <- Hxa, <- Hyb.
Qed.


(** A refused block is skipped, not retried: the blocks after it are adopted, the
    head moves past it, and the next request starts after the head. *)
Definition strayTx : Transaction := mkTx 8 "h1" "PxA" "PxB" "" "" 0 10 "transfer" "native" "" "" "" "" "" "PLP" 5 1 [] [] "" "" "" 0 None "" "" "".

Example sync_leaves_gap :
  let peer := set_transactions {["h1" := strayTx]} peerChain in
  let n := (onSyncApply (SliceStable intLess) plainHandler (demoFaults WriteOk) 20 (onSyncRespond None None "peer" 1 peer) laggard).1 in
  numbers (blockHistory (n_bc n)) = [0; 2] /\ ExportBlocksForSync (HeadOf plainHandler n + 1) peer = [].
Proof. vm_compute. split; reflexivity. Qed.
