(* ===== verification/Startup.v ===== *)
(** * The start of a gateway (handlers_sync.go, rocks_reads.go, chain_store.go)

    chain.json is loaded, RocksDB is migrated from it or takes over, the durable
    transaction pool is opened and restored, the mempool is pruned, and the explorer
    index is rebuilt from RocksDB where it lags. [Migrate] is the migration done by
    Core ([migrate-json-to-rocks]); [decode] reads a pool entry as a new object.

    The fee totals after a restart are those that confirming the blocks one by one
    had accumulated; a chain cache ahead of RocksDB survives the rebuild of the
    explorer index. *)

From S2P Require Import Prelude GoStd Dag Tx ForkChoice Chain Pool Confirm ConfirmSpec History TxPool Boundary BoundarySpec Mempool Rating Rewards RewardsSpec.

#[local] Open Scope Z_scope.

Section startup.
Context {CS RS : Type} {R : GoRange}.
Implicit Types (h : HandlerEnv CS RS) (n : Node CS RS) (f : Faults CS) (d : Distributor).

Definition chainOf n : Blockchain := w_bc (n_world n).
Definition put_bc (bc : Blockchain) n : Node CS RS := with_world (with_bc bc (n_world n)) n.
Definition put_pool (pool : option Store) n : Node CS RS := mkNode (n_world n) (n_rocks n) pool.

(** ** Fee totals *)

Definition feeStep (c : Config) (acc : Z * Z) (b : BlockRecord) : Z * Z :=
  if b_TotalFees b <=? 0 then acc
  else let sr := SplitBlockFees c (b_TotalFees b) in (i64 (acc.1 + Burn sr), i64 (acc.2 + Treasury sr)).

Definition rebuildDistributorTotalsFromChain (history : list BlockRecord) d : Distributor :=
  let '(burned, treasury) := foldl (feeStep (config d)) (0, 0) history in
  if (0 <? burned) || (0 <? treasury) then SetTotals burned treasury d else d.

(** ** The explorer index *)

Definition ExpectedConfirmedTxCount (bc : Blockchain) : Z :=
  Z.of_nat (size (historyHashes (blockHistory bc))).
Definition IndexedTransactionCount (bc : Blockchain) : Z := Z.of_nat (size (transactions bc)).
Definition MemoryHeadBlockNumber (bc : Blockchain) : Z := historyHead (blockHistory bc).

Definition ChainCacheLeadsRocks h n : option (Z * Z) :=
  let mem := MemoryHeadBlockNumber (chainOf n) in
  match headBlockNumberFromRocks None (readsOf h n) with
  | None => None
  | Some rocksHead => if rocksHead <? mem then Some (mem, rocksHead) else None
  end.

Definition PersistChainSnapshot f n : Node CS RS := with_world (persistChain f (n_world n)).1 n.

Definition visibleHistory h n : list BlockRecord := GetBlockHistory None (readsOf h n) (chainOf n).

Definition hydrateExplorerIndexFromRocksIfNeeded h f d n : Node CS RS * Distributor :=
  match readsOf h n with
  | None => (n, d)
  | Some r =>
      match RocksGetHead r with
      | Err _ => (n, d)
      | Ok head =>
          let expected := ExpectedConfirmedTxCount (chainOf n) in
          let indexed := IndexedTransactionCount (chainOf n) in
          let historyLen := Z.of_nat (length (visibleHistory h n)) in
          if (head =? 0) && (expected =? 0) then (n, d)
          else match ChainCacheLeadsRocks h n with
          | Some _ => (PersistChainSnapshot f n, d)
          | None =>
              let needsHydrate := (0 <? head) && ((indexed <? expected) || (indexed =? 0) || (historyLen =? 0)) in
              if negb needsHydrate then
                (if (0 <? head) && (indexed =? expected) && (0 <? expected) then PersistChainSnapshot f n else n, d)
              else
              let n := put_bc (SyncFromRocksHead (readsOf h n) (chainOf n)).1 n in
              match HydrateExplorerIndexFromRocks (readsOf h n) (chainOf n) with
              | (bc, Err _) => (put_bc bc n, d)
              | (bc, Ok _) =>
                  let n := PersistChainSnapshot f (put_bc bc n) in
                  (n, rebuildDistributorTotalsFromChain (visibleHistory h n) d)
              end
          end
      end
  end.

(** ** RocksDB *)

Variable Migrate : option ChainFileData -> RS -> RS * result unit.

(** The chain file exists when it has a content. *)
Definition initRocksFromChainFile h (chainFile : string) n : Node CS RS :=
  match readsOf h n with
  | None => n
  | Some r =>
      match RocksGetHead r with
      | Err _ => n
      | Ok head =>
          let n := if (head =? 0) && nonEmpty chainFile && bool_decide (is_Some (w_chain (n_world n)))
                   then mkNode (n_world n) (Migrate (w_chain (n_world n)) (n_rocks n)).1 (n_pool n) else n in
          put_bc (SyncFromRocksHead (readsOf h n) (chainOf n)).1 n
      end
  end.

(** ** The durable pool *)

Variables (decode : string -> option Transaction) (marshal : Transaction -> Z -> string) (putResult : string -> putOutcome).

(** [RestoreDurableTxs] with what it does to the pool and to chain.json. *)
Definition restoreDurable h f n : Node CS RS :=
  let pooled := match n_pool n with Some s => pooledTxs decode (TxPool.List s) | None => ∅ end in
  let '(st, dropped) := RestoreDurableTxs (headBlockNumberFromRocks None (readsOf h n)) pooled (chainOf n) in
  let bc := rs_bc st in
  let pool := (fun s =>
    let s := foldl (fun s hash => (Delete true hash s).1) s (rs_forget st) in
    foldl (fun s tx => (Put (fun _ => true) (putResult (tx_Hash tx)) (tx_Hash tx) (marshal tx (BlockNumber bc tx)) s).1)
      s (rs_restored st)) <$> n_pool n in
  let n := put_pool pool (put_bc bc n) in
  if dropped then PersistChainSnapshot f n else n.

Definition rocksConfirmed h n : gset string :=
  match listBlockHistoryFromRocks (readsOf h n) with Ok bs => historyHashes bs | Err _ => ∅ end.

Definition pruneNode h (query : option (string -> option Z)) (now : Z) n : Node CS RS :=
  let '(_, bc, pool) :=
    PruneMempool (rocksConfirmed h n) (accountNoncesForMempool query (chainOf n)) now (n_pool n) (chainOf n) in
  put_pool pool (put_bc bc n).

(** [initChainPersistence]. [loadErr] is a failure to read chain.json, [opened] the
    pool that [txpool.Open] returns. The hydration runs in the background: [meanwhile]
    is what requests do to the chain before it. *)
Definition initChainPersistence h f (chainFile : string) (loadErr : option string) (opened : option Store)
    (query : option (string -> option Z)) (now : Z) (meanwhile : Blockchain -> Blockchain) d n : Node CS RS * Distributor :=
  let '(n, d) :=
    if nonEmpty chainFile then
      let n := put_bc (set_chainFile chainFile (chainOf n)) n in
      match LoadChainFile chainFile (match loadErr with Some m => Err m | None => Ok (w_chain (n_world n)) end) (chainOf n) with
      | Err _ => (n, d)
      | Ok bc => let n := put_bc bc n in (n, rebuildDistributorTotalsFromChain (visibleHistory h n) d)
      end
    else (n, d) in
  let n := if RocksEnabled h then initRocksFromChainFile h chainFile n else n in
  let n := put_pool opened n in
  let n := pruneNode h query now (restoreDurable h f n) in
  if RocksEnabled h then hydrateExplorerIndexFromRocksIfNeeded h f d (put_bc (meanwhile (chainOf n)) n) else (n, d).
End startup.

(** * Contracts of the start *)

Definition feesOf (hist : list BlockRecord) : Z := foldr (fun b t => Z.max 0 (b_TotalFees b) + t) 0 hist.

Lemma feesOf_nonneg hist : 0 <= feesOf hist.
Proof. induction hist as [|b hist IH]; simpl; lia. Qed.

(** What the confirmations add to the distributor, block by block. *)
Definition accumulate {R : GoRange} (reg : Registry) (hist : list BlockRecord) (d : Distributor) : Distributor :=
  foldl (fun d b => (rewardBlock (b_TotalFees b) ∅ ∅ reg d).1) d hist.

Lemma reward_step {R : GoRange} reg d b :
  let d' := (rewardBlock (b_TotalFees b) ∅ ∅ reg d).1 in
  config d' = config d /\ (TotalBurned d', TotalTreasury d') = feeStep (config d) (TotalBurned d, TotalTreasury d) b.
Proof.
  unfold feeStep, rewardBlock. destruct (Z.leb_spec (b_TotalFees b) 0).
  - by rewrite (proj2 (Z.ltb_ge 0 (b_TotalFees b))) by lia.
  - by rewrite (proj2 (Z.ltb_lt 0 (b_TotalFees b))) by lia.
Qed.

Lemma accumulate_steps {R : GoRange} reg hist d :
  accumulate reg hist d =
  let '(b, t) := foldl (feeStep (config d)) (TotalBurned d, TotalTreasury d) hist in mkDistributor (config d) b t.
Proof.
  unfold accumulate. revert d. induction hist as [|b hist IH]; intros d; [by destruct d|]. cbn [foldl]. rewrite IH.
  by destruct (reward_step reg d b) as [-> ->].
Qed.

(** The sums stay non-negative and within the fees. *)
Lemma feeStep_bounds c hist b0 t0 :
  Forall (fun b => splitRange c (Z.max 0 (b_TotalFees b))) hist -> 0 <= b0 -> 0 <= t0 -> b0 + t0 + feesOf hist < two63 ->
  let '(b, t) := foldl (feeStep c) (b0, t0) hist in 0 <= b /\ 0 <= t.
Proof.
  intros Hr. revert b0 t0. induction Hr as [|b hist Hb _ IH]; intros b0 t0 H1 H2 H3; [done|]. cbn [foldl feesOf foldr] in *.
  fold (feesOf hist) in *. pose proof (feesOf_nonneg hist). 
  change (feeStep c (b0, t0) b) with (if b_TotalFees b <=? 0 then (b0, t0) else
    (i64 (b0 + Burn (SplitBlockFees c (b_TotalFees b))), i64 (t0 + Treasury (SplitBlockFees c (b_TotalFees b))))).
  destruct (Z.leb_spec (b_TotalFees b) 0) as [Hle|Hgt]; [apply IH; lia|].
  rewrite Z.max_r in Hb, H3 by lia. destruct (split_exact c (b_TotalFees b) Hb) as (Hs & ? & ? & ? & ?). cbn [fst snd].
  rewrite !i64_small by (unfold is_i64, two63 in *; lia). apply IH; lia.
Qed.

Lemma rebuild_totals {R : GoRange} reg hist d :
  Forall (fun b => splitRange (config d) (Z.max 0 (b_TotalFees b))) hist -> feesOf hist < two63 ->
  TotalBurned d = 0 -> TotalTreasury d = 0 ->
  rebuildDistributorTotalsFromChain hist d = accumulate reg hist d.
Proof.
  intros Hr Hs Hb Ht. rewrite accumulate_steps, Hb, Ht. unfold rebuildDistributorTotalsFromChain.
  pose proof (feeStep_bounds (config d) hist 0 0 Hr ltac:(lia) ltac:(lia) ltac:(lia)) as Hpos.
  destruct (foldl _ _ hist) as [b t]. destruct Hpos as [Hb0 Ht0]. unfold SetTotals.
  destruct (_ || _) eqn:E.
  - by rewrite !(proj2 (Z.ltb_ge _ _)) by lia.
  - apply orb_false_iff in E as [E1 E2]. apply Z.ltb_ge in E1, E2. replace b with 0 by lia. replace t with 0 by lia.
    destruct d; simpl in *; by subst.
Qed.

Section startup.
Context {CS RS : Type} {R : GoRange}.
Implicit Types (h : HandlerEnv CS RS) (n : Node CS RS) (f : Faults CS) (d : Distributor).

(** a restart restores the fee totals. When a gateway without RocksDB starts
    with a readable chain.json, its burned and treasury totals are those that
    confirming the blocks of the loaded history one after the other gives, whatever
    else the start does to pools and files; percentages and fees must leave room for
    64-bit products, and the fees of the chain must add up below 2^63. *)
Theorem restart_restores_fee_totals Migrate decode marshal putResult h f path opened query now meanwhile reg d n bc1
  (Hrocks : rocksClient h = None) (Hpath : path <> "") (Hzero : TotalBurned d = 0 /\ TotalTreasury d = 0)
  (Hload : LoadChainFile path (Ok (w_chain (n_world n))) (set_chainFile path (chainOf n)) = Ok bc1)
  (Hrange : Forall (fun b => splitRange (config d) (Z.max 0 (b_TotalFees b))) (blockHistory bc1))
  (Hsum : feesOf (blockHistory bc1) < two63) :
  (initChainPersistence Migrate decode marshal putResult h f path None opened query now meanwhile d n).2 =
  accumulate reg (blockHistory bc1) d.
Proof.
  unfold initChainPersistence, RocksEnabled. rewrite Hrocks. unfold nonEmpty. rewrite (proj2 (String.eqb_neq _ _) Hpath). cbn [negb].
  change (w_chain (n_world (put_bc (set_chainFile path (chainOf n)) n))) with (w_chain (n_world n)).
  change (chainOf (put_bc (set_chainFile path (chainOf n)) n)) with (set_chainFile path (chainOf n)). rewrite Hload. cbn [snd].
  assert (Hv : visibleHistory h (put_bc bc1 (put_bc (set_chainFile path (chainOf n)) n)) = blockHistory bc1).
  { unfold visibleHistory, GetBlockHistory, readsOf. rewrite Hrocks. 
    change (chainOf (put_bc bc1 (put_bc (set_chainFile path (chainOf n)) n))) with bc1. simpl. by destruct (blockHistory bc1). }
  rewrite Hv. destruct Hzero. by apply rebuild_totals.
Qed.

(** a chain cache ahead of RocksDB is never overwritten. When the explorer's
    history reaches further than RocksDB, the rebuild of the index leaves history,
    index, address lists, pools and block counter as they are, and at most writes
    the same chain to chain.json. *)
Theorem hydrate_keeps_leading_cache h f d n mem rocksHead
  (Hlead : ChainCacheLeadsRocks h n = Some (mem, rocksHead)) :
  let '(n', d') := hydrateExplorerIndexFromRocksIfNeeded h f d n in
  d' = d /\ (exists k, chainOf n' = set_durableHead k (chainOf n)) /\ w_state (n_world n') = w_state (n_world n) /\
  n_rocks n' = n_rocks n /\ n_pool n' = n_pool n /\
  (w_chain (n_world n') = w_chain (n_world n) \/ w_chain (n_world n') = Some (chainSnapshot (chainOf n))).
Proof.
  assert (Hsame : exists k, chainOf n = set_durableHead k (chainOf n)).
  { eexists. symmetry. apply set_durableHead_same. }
  unfold hydrateExplorerIndexFromRocksIfNeeded. destruct (readsOf h n) as [r|]; [|split_and!; auto].
  destruct (RocksGetHead r) as [head|m]; [|split_and!; auto].
  destruct (_ && _); [split_and!; auto|]. rewrite Hlead. split; [done|]. unfold PersistChainSnapshot.
  destruct (persistChain_frame f (n_world n)) as (Hs & _ & k & Hk). unfold chainOf. cbn [n_world with_world n_rocks n_pool].
  split; [by exists k|]. split; [done|]. split; [done|]. split; [done|].
  destruct (persistChain f (n_world n)) as [w' [u|m]] eqn:E; simpl.
  - apply persistChain_ok in E as [[-> _]|(_ & _ & ->)]; simpl; auto.
  - apply persistChain_err in E as ->. by left.
Qed.
End startup.

(** ** Witnesses *)

#[local] Instance startRange : GoRange := canonical_range.

Definition feeBlock (k fees : Z) (hs : list string) : BlockRecord :=
  mkBlock k (k + 10) hs (Z.of_nat (length hs)) fees "h" "" "" "" "" 0 0 0 0 0 "" "" ∅ ∅.

Definition savedChain : Blockchain := set_blockHistory [feeBlock 0 100 ["hash-a"]; feeBlock 1 0 []; feeBlock 2 57 []] NewBlockchain.

Definition emptyClient : RocksStoreClient unit :=
  mkClient _ (fun _ => mkRocks (Ok 1) (fun _ => Ok None) (fun _ => Ok None)) (fun _ _ => Ok None) (fun p rs => (rs, Ok 0)).

Definition startHandler (rocks : option (RocksStoreClient unit)) : HandlerEnv Z unit :=
  mkHandler _ _ demoEnv (fun cs => Ok "root") (fun a cs => Ok None) true
    (fun cs n prev ts hs p => Ok (mkHeader "" "" "" prev)) rocks FailPointNone.

Definition startNode : Node Z unit := mkNode (mkWorld NewBlockchain 0 None (Some (chainSnapshot savedChain))) tt None.

Definition loadedChain : Blockchain :=
  match LoadChainFile "chain.json" (Ok (w_chain (n_world startNode))) (set_chainFile "chain.json" (chainOf startNode)) with
  | Ok bc => bc
  | Err _ => NewBlockchain
  end.

Lemma restart_restores_fee_totals_witness :
  let d := mkDistributor DefaultConfig 0 0 in
  (initChainPersistence (fun _ rs => (rs, Ok ())) (fun _ => None) (fun _ _ => "") (fun _ => PutOk) (startHandler None) (demoFaults WriteOk)
     "chain.json" None None None 0 id d startNode).2 = accumulate ∅ (blockHistory loadedChain) d /\
  TotalBurned (accumulate ∅ (blockHistory loadedChain) d) = 15.
Proof.
  intros d. split; [|vm_compute; reflexivity].
  apply (restart_restores_fee_totals (fun _ rs => (rs, Ok ())) (fun _ => None) (fun _ _ => "") (fun _ => PutOk) (startHandler None)
    (demoFaults WriteOk) "chain.json" None None 0 id ∅ d startNode loadedChain); try done.
  - assert (blockHistory loadedChain = [feeBlock 0 100 ["hash-a"]; feeBlock 1 0 []; feeBlock 2 57 []]) as -> by (vm_compute; reflexivity).
    repeat constructor; vm_compute; done.
Defined.

Lemma hydrate_keeps_leading_cache_witness :
  let n := mkNode (mkWorld savedChain 0 None None) tt None in
  let d := mkDistributor DefaultConfig 0 0 in
  ChainCacheLeadsRocks (startHandler (Some emptyClient)) n = Some (2, 0) /\
  (hydrateExplorerIndexFromRocksIfNeeded (startHandler (Some emptyClient)) (demoFaults WriteOk) d n).2 = d.
Proof.
  intros n d. assert (Hl : ChainCacheLeadsRocks (startHandler (Some emptyClient)) n = Some (2, 0)) by (vm_compute; reflexivity).
  split; [exact Hl|]. pose proof (hydrate_keeps_leading_cache (startHandler (Some emptyClient)) (demoFaults WriteOk) d n 2 0 Hl) as H.
  destruct (hydrateExplorerIndexFromRocksIfNeeded _ _ d n) as [n' d']. apply H.
Defined.
