(* ===== verification/AutoBlock.v ===== *)
(** * The automatic block worker and the consensus routes (auto_block.go, handlers.go)

    Every half second the worker drains the mempool: it confirms a pending block or
    packs a new one, until Core asks for no block, a step fails or the round limit
    is reached. [RoundInput] is what one round meets: Core's answers, the votes, what
    other requests do meanwhile, the answer of a peer a step is forwarded to. A
    response is a status code and a body. *)

From S2P Require Import Prelude GoStd Dag Tx ForkChoice Chain Confirm History TxPool Boundary Mempool Sha256.
From S2P Require Import Rating Rewards L1Validate Votes Consensus Nonce Admission.

#[local] Open Scope Z_scope.

Record Response := mkResp { rp_status : Z; rp_body : string }.

(** ** Configuration from the environment *)

Definition switchOff (v : string) : bool := bool_decide (v ∈ ["0"; "false"; "no"; "off"]).
Definition switchOn (v : string) : bool := bool_decide (v ∈ ["1"; "true"; "yes"; "on"]).

Definition AutoBlockEnabled (getenv : string -> string) (testnet : bool) : bool :=
  let v := TrimSpace (getenv "PLATARIUM_AUTO_BLOCK") in
  if String.eqb v "" then testnet else negb (switchOff (ToLower v)).

Definition autoBlockDrainMaxRounds (getenv : string -> string) : Z :=
  let v := TrimSpace (getenv "PLATARIUM_AUTO_BLOCK_DRAIN_MAX") in
  if String.eqb v "" then 12
  else let '(n, ok) := ParseInt v in if ok && (0 <? n) then n else 12.

(** [mode] is [None] without Core. *)
Definition coreBlockCycleEnabled (mode : option string) (e : RoundEnv) : bool :=
  let v := ToLower (TrimSpace (re_getenv e "PLATARIUM_CORE_BLOCK_CYCLE")) in
  let rpc := match mode with Some m => String.eqb m "rpc" | None => false end in
  if switchOff v then false
  else if switchOn v then rpc
  else if negb rpc then false
  else Nat.eqb (length (re_peers e)) 0.

Definition allowBlockCycleAutoConfirm (e : RoundEnv) : bool :=
  let alone := Nat.eqb (length (re_peers e)) 0 in
  let v := ToLower (TrimSpace (re_getenv e "PLATARIUM_BLOCK_CYCLE_AUTO_CONFIRM")) in
  if nonEmpty v && switchOff v then false
  else if nonEmpty v && switchOn v then alone
  else re_testnet e && alone.

(** ** Forwarded requests *)

(** The headers of a request that these routes read. *)
Record Headers := mkHeaders { hd_selected : string; hd_forward : string; hd_token : string; hd_auth : string }.

(** The request the worker builds: no header is set. *)
Definition autoBlockPOST : Headers := mkHeaders "" "" "" "".

Definition consensusAuthToken (getenv : string -> string) : string :=
  let expected := TrimSpace (getenv "PLATARIUM_CONSENSUS_TOKEN") in
  if String.eqb expected "" then TrimSpace (getenv "PLATARIUM_CORE_RPC_TOKEN") else expected.

Definition consensusTokenFromRequest (r : Headers) : string :=
  let got := TrimSpace (hd_token r) in
  if String.eqb got "" && HasPrefix (ToLower (hd_auth r)) "bearer " then TrimSpace (str_drop 7 (hd_auth r)) else got.

Definition isTrustedForward (getenv : string -> string) (r : Headers) : bool :=
  if negb (String.eqb (hd_forward r) "1") then false
  else
  let expected := consensusAuthToken getenv in
  let insecure := TrimSpace (getenv "PLATARIUM_CONSENSUS_INSECURE") in
  if String.eqb expected "" then EqualFold insecure "1" || EqualFold insecure "true"
  else String.eqb (consensusTokenFromRequest r) expected.

Definition runsAsSelected (e : RoundEnv) (r : Headers) : bool :=
  String.eqb (hd_selected r) (re_myId e) && isTrustedForward (re_getenv e) r.

(** What the first receiver does with a request: run it, or hand it on. *)
Inductive route := RunHere | ForwardTo (url : string).

Definition routeOf {G : GoRand} (restURL : string -> string) (e : RoundEnv) (reg : Registry) : route :=
  let selected := SelectByWeight 0 (candidatesOf e) reg in
  if String.eqb selected (re_myId e) then RunHere
  else if nonEmpty (restURL selected) then ForwardTo (restURL selected) else RunHere.

(** ** One round *)

Record BlockCycleParams := mkCycle {
  bp_MempoolTxs : list coreJSON; bp_BlockNumber : Z; bp_PreviousHash : string; bp_Timestamp : Z; bp_ProducerID : string;
  bp_AutoConfirm : bool; bp_ApplyTxs : bool
}.

Record BlockCycleResult := mkCycleResult { bc_OK : bool; bc_Error : string; bc_L1 : string; bc_ValidHashes : list string }.

Section worker.
Context {G : GoRand} {R : GoRange} {CS RS : Type}.
Implicit Types (st : ConsState) (h : HandlerEnv CS RS) (n : Node CS RS).

Record RoundInput := mkInput {
  ri_pack : PackEnv;
  ri_stateRoot : string;
  ri_votes : list event;
  ri_meanwhile : Blockchain -> Blockchain;
  ri_meanwhile2 : Blockchain -> Blockchain;
  ri_now : Z;
  ri_duration : Z;
  ri_faults : Faults CS;
  ri_forwarded : option Response;
  ri_status : list coreJSON -> result bool;
  ri_cycle : BlockCycleParams -> result BlockCycleResult
}.

(** The worker's surroundings. *)
Record WorkerEnv := mkWorker {
  wk_env : RoundEnv;
  wk_handler : HandlerEnv CS RS;
  wk_wallet : string;
  wk_mode : option string;
  wk_restURL : string -> string;
  wk_query : string -> option Z
}.
Implicit Types (k : WorkerEnv) (i : RoundInput).

Definition forwardAnswer (i : RoundInput) (what : string) : Response := default (mkResp 502 what) (ri_forwarded i).

Definition l2Response {A} (r : result A) : Response :=
  match r with
  | Ok _ => mkResp 200 ""
  | Err m =>
      if isTOCTOU m then mkResp 409 ("L2ConfirmBlock TOCTOU: " +:+ m)
      else mkResp (if bool_decide (m ∈ ["no pending block (L1 collect first)"; "L2 threshold not met"]) then 400 else 500) m
  end.

Definition runL2 k i st n : ConsState * Node CS RS * Response :=
  let '(st, n, r) := l2ConfirmBlockRun (wk_env k) (wk_handler k) (ri_faults i) (wk_wallet k) (ri_stateRoot i) (ri_votes i)
    (ri_meanwhile i) (ri_meanwhile2 i) (ri_now i) (ri_duration i) st n in
  (st, n, l2Response r).

(** The handler [L2ConfirmBlock]: a trusted forward that names this node runs here. *)
Definition HandleL2ConfirmBlock k (req : Headers) i st n : ConsState * Node CS RS * Response :=
  if runsAsSelected (wk_env k) req then runL2 k i st n
  else match pendingBlock (w_bc (n_world n)) with
  | [] => (st, n, mkResp 400 "no pending block (L1 collect first)")
  | _ =>
      match routeOf (wk_restURL k) (wk_env k) (cs_reg st) with
      | RunHere => runL2 k i st n
      | ForwardTo _ => (st, n, forwardAnswer i "forward to selected confirmer failed")
      end
  end.

Definition runL1 k i st n : ConsState * Node CS RS * Response :=
  let '(st, bc, r) := l1CollectBlockRun (wk_env k) (ri_pack i) (ri_stateRoot i) (ri_votes i) (ri_meanwhile i) st (w_bc (n_world n)) in
  (st, Boundary.with_world (with_bc bc (n_world n)) n, match r with Ok _ => mkResp 200 "" | Err m => mkResp 400 m end).

(** The handler [L1CollectBlock]. *)
Definition HandleL1CollectBlock k (req : Headers) i st n : ConsState * Node CS RS * Response :=
  if runsAsSelected (wk_env k) req then runL1 k i st n
  else match mempool (w_bc (n_world n)) with
  | [] => (st, n, mkResp 400 "mempool empty")
  | _ =>
      match routeOf (wk_restURL k) (wk_env k) (cs_reg st) with
      | RunHere => runL1 k i st n
      | ForwardTo _ => (st, n, forwardAnswer i "forward to selected proposer failed")
      end
  end.

Definition pendingOf n : list Transaction := pendingBlock (w_bc (n_world n)).
Definition put_chain (bc : Blockchain) n : Node CS RS := Boundary.with_world (with_bc bc (n_world n)) n.
Definition abandon (drop : list string) n : Node CS RS := put_chain (AbandonPendingBlock drop (w_bc (n_world n))).2 n.

Definition autoBlockConfirmPending k i st n : ConsState * Node CS RS * bool :=
  match pendingOf n with
  | [] => (st, n, true)
  | pending =>
      let p := ri_pack i in
      let outcome := validateTxsForL1 (pk_core p) (pk_ledger p) (pk_rust p) (Some <$> pending) in
      if negb (oc_OK outcome) && negb (bool_decide (oc_InvalidHashes outcome = [])) then
        (st, abandon (oc_InvalidHashes outcome) n, false)
      else
      let '(st, n, w) := HandleL2ConfirmBlock k autoBlockPOST i st n in
      if 400 <=? rp_status w then
        (st, if negb (bool_decide (pendingOf n = [])) && negb (Contains (rp_body w) "TOCTOU") then abandon [] n else n, false)
      else (st, n, bool_decide (pendingOf n = []))
  end.

(** The worker calls the run itself, not the route. *)
Definition autoBlockCollectL1 k i st n : ConsState * Node CS RS * bool :=
  let '(st, n, w) := runL1 k i st n in
  (st, n, (rp_status w <? 400) && negb (bool_decide (pendingOf n = []))).

Definition pruneMempoolBeforeL1 i n : Node CS RS := put_chain (pk_prune (ri_pack i) (w_bc (n_world n))) n.

Definition cycleParams k i n : BlockCycleParams :=
  let bc := w_bc (n_world n) in
  let prev := GetPreviousBlockHash None (readsOf (wk_handler k) n) bc in
  mkCycle (transactionSnapshotJSON (mempool bc)) (u64 (NextBlockNumber bc)) (if String.eqb prev "" then "0" else prev) (ri_now i)
    (re_myId (wk_env k)) (allowBlockCycleAutoConfirm (wk_env k)) false.

Definition autoBlockCollectViaCycle k i st n : ConsState * Node CS RS * bool :=
  let n := pruneMempoolBeforeL1 i n in
  if negb (pk_ledger (ri_pack i)) || negb (bool_decide (is_Some (wk_mode k))) then autoBlockCollectL1 k i st n
  else match ri_cycle i (cycleParams k i n) with
  | Err _ => autoBlockCollectL1 k i st n
  | Ok res =>
      if negb (bc_OK res) || bool_decide (bc_ValidHashes res = []) then
        let detail := TrimSpace (bc_Error res +:+ " " +:+ bc_L1 res) in
        let hash := extractFailedTxHash (bc_Error res) in
        if nonEmpty hash && isPermanentMempoolInvalid detail then
          (st, put_chain (RemoveFromMempool [hash] (w_bc (n_world n))) n, false)
        else autoBlockCollectL1 k i st n
      else match SelectTxsByHashes (w_bc (n_world n)) (bc_ValidHashes res) with
      | [] => (st, n, false)
      | txs => (st, put_chain (SetPendingBlock (Some <$> txs) (w_bc (n_world n))) n, true)
      end
  end.

(** One pass of the loop of [autoBlockTick]; [false] ends the tick. *)
Definition drainRound k i st n : ConsState * Node CS RS * bool :=
  if negb (bool_decide (pendingOf n = [])) then autoBlockConfirmPending k i st n
  else match ri_status i (transactionSnapshotJSON (mempool (w_bc (n_world n)))) with
  | Err _ => (st, n, false)
  | Ok shouldPropose =>
      if negb (bool_decide (is_Some (wk_mode k))) || negb shouldPropose then (st, n, false)
      else if coreBlockCycleEnabled (wk_mode k) (wk_env k) then autoBlockCollectViaCycle k i st n
      else autoBlockCollectL1 k i st n
  end.

(** The loop; the result counts the rounds that were begun. *)
Fixpoint drain k (rounds : nat) (inputs : nat -> RoundInput) st n : ConsState * Node CS RS * nat :=
  match rounds with
  | O => (st, n, O)
  | S rounds' =>
      let '(st, n, continue) := drainRound k (inputs O) st n in
      if continue then let '(st, n, c) := drain k rounds' (fun j => inputs (S j)) st n in (st, n, S c)
      else (st, n, 1%nat)
  end.

(** [locked]: a tick that is still running. *)
Definition autoBlockTick k (locked : bool) (now : Z) (inputs : nat -> RoundInput) st n : ConsState * Node CS RS * nat :=
  if locked then (st, n, O)
  else
  let n := put_chain (RequeueUnconfirmedEscrows (wk_query k) now (w_bc (n_world n))).2 n in
  drain k (Z.to_nat (autoBlockDrainMaxRounds (re_getenv (wk_env k)))) inputs st n.
End worker.
Arguments RoundInput CS : clear implicits.
Arguments WorkerEnv CS RS : clear implicits.
