(* ===== verification/AutoBlockSpec.v ===== *)
(** * Contracts of the automatic block worker

    A confirmation attempt of the worker always empties the pending block and loses
    no transaction; Core is asked to synthesise votes only when no peer answers;
    a tick ends within its round limit. *)

From S2P Require Import Prelude GoStd Dag Tx ForkChoice Chain Pool Confirm ConfirmSpec History HistorySpec TxPool Boundary BoundarySpec Mempool Sha256.
From S2P Require Import Rating Rewards L1Validate Votes Consensus ConsensusSpec Nonce Admission AutoBlock.

#[local] Open Scope Z_scope.

Section worker.
Context {G : GoRand} {R : GoRange} {CS RS : Type}.
Implicit Types (st : ConsState) (h : HandlerEnv CS RS) (n : Node CS RS) (w : World CS) (e : Env CS).

(** ** What each step leaves in the pools *)

Lemma apply_dag e f txs w w' r : applyConfirmedTransactions e f txs w = (w', r) -> dag_only (w_bc w) (w_bc w').
Proof.
  unfold applyConfirmedTransactions. intros H. destruct (ledger e) as [ls|]; [|case_match; simplify_eq; by left].
  unfold snapshotState in H. destruct (snapCopy f); simpl in H; [|simplify_eq; by left|simplify_eq; by left].
  destruct (maybeDagReorder _ _ _ _) as [bc' [txs'|m']] eqn:Ed; apply maybeDagReorder_frame in Ed.
  - destruct (applyBatch _ _ _ _) as [cs [|]]; simplify_eq; [done|]. unfold rollback, Confirm.restoreState, removeBak.
    simpl. by destruct (restoreCopy f), (removeOk f).
  - simplify_eq. unfold rollback, Confirm.restoreState, removeBak. simpl. by destruct (restoreCopy f), (removeOk f).
Qed.

(** The tip that a confirmation built on [hist], with nothing pending. *)
Definition tip (b : BlockRecord) (bc : Blockchain) : Prop :=
  pendingBlock bc = [] /\ exists hist t, blockHistory bc = hist ++ [t] /\ b_BlockNumber t = b_BlockNumber b.

Lemma L2_pools e f now w w' r :
  L2ConfirmBlock e f id now w = (w', r) ->
  match r with
  | Ok (moved, b, _) => moved = pendingBlock (w_bc w) /\ tip b (w_bc w') /\ list_to_set (hashes moved) ⊆ confirmedHashes (w_bc w')
  | Err m => pendingBlock (w_bc w') = pendingBlock (w_bc w) /\
      ((applyConfirmedTransactions e f (Some <$> pendingBlock (w_bc w)) w).2 = Err m \/ m = "explorer persist failed after core apply")
  end.
Proof.
  unfold L2ConfirmBlock. destruct (applyConfirmedTransactions _ _ _ _) as [wa ra] eqn:Ea. apply apply_dag in Ea as Hd.
  assert (Hp : pendingBlock (w_bc wa) = pendingBlock (w_bc w)) by (by destruct Hd as [-> | ->]).
  destruct ra as [hb|m]; [|intros [= <- <-]; auto]. cbn [id w_bc with_bc]. rewrite Hp, Nat.eqb_refl, bool_decide_true by done. cbn [negb].
  destruct (foldl confirmOne _ _) as [bc b0] eqn:El. unfold openBlock in El. rewrite confirmOne_foldl in El. injection El as Hbc Hb0.
  set (b := stampBlock now _ b0). set (bc2 := appendBlock b (set_pendingBlock [] bc)).
  destruct (persistChain _ _) as [wp [u|m]] eqn:Ep; intros [= <- <-].
  - split; [done|]. assert (Hwp : exists d, w_bc wp = set_durableHead d bc2).
    { apply persistChain_ok in Ep as [[-> _]|(_ & _ & ->)]; simpl; [eexists; symmetry; apply set_durableHead_same|by eexists]. }
    destruct Hwp as [d ->]. split.
    + split; [done|]. exists (blockHistory bc), b. done.
    + cbn [confirmedHashes set_durableHead bc2 appendBlock set_blockHistory set_pendingBlock].
      rewrite <- Hbc, adopt_foldl_confirmed. set_solver.
  - apply persistChain_err in Ep as ->. split; [|by right]. rewrite abortPersist_bc. cbn [w_bc with_bc].
    by destruct (undoExplorer_spec bc2 (blockHistory bc) b b (pendingBlock (w_bc w)) "pending" eq_refl eq_refl) as (_ & _ & _ & _ & -> & _).
Qed.

Lemma undo_bc e f b moved hb w :
  exists d, w_bc (UndoLastConfirmedBlock e f b moved hb w).1 = set_durableHead d (undoExplorerConfirmLocked b moved "pending" (w_bc w)).
Proof.
  unfold UndoLastConfirmedBlock. destruct (rollbackConfirmLocked e f b moved hb "pending" w) as [w1 r] eqn:E.
  assert (Hw : w_bc w1 = undoExplorerConfirmLocked b moved "pending" (w_bc w)).
  { unfold rollbackConfirmLocked, Confirm.restoreState, removeBak in E.
    destruct (ledger e), hb, (w_bak w), (restoreCopy f), (removeOk f); simpl in E; by injection E as <- <-. }
  rewrite <- Hw. destruct r as [u|m]; [|eexists; symmetry; apply set_durableHead_same].
  destruct (persistChain_frame f w1) as (_ & _ & d & Hd). by exists d.
Qed.

Lemma undo_pending e f b moved hb w : tip b (w_bc w) ->
  pendingBlock (w_bc (UndoLastConfirmedBlock e f b (Some <$> moved) hb w).1) = moved.
Proof.
  intros (Hp & hist & t & Hh & Ht). destruct (undo_bc e f b (Some <$> moved) hb w) as [d ->]. cbn [pendingBlock set_durableHead].
  destruct (undoExplorer_spec (w_bc w) hist t b moved "pending" Hh Ht) as (_ & _ & _ & _ & -> & _). simpl. by rewrite Hp.
Qed.

(** An update of a block that leaves a field alone leaves the column of that field. *)
Lemma updateFirst_column {A} (p : BlockRecord -> A) k g hist hist' :
  (forall b, p (g b) = p b) -> updateFirst k g hist = Some hist' -> p <$> hist' = p <$> hist.
Proof.
  intros Hg. revert hist'. induction hist as [|b hist IH]; intros hist' H; [done|]. simpl in H.
  destruct (_ =? _); [injection H as <-; rewrite !fmap_cons; by f_equal|].
  destruct (updateFirst k g hist) as [l|] eqn:E; [|done]. injection H as <-. rewrite !fmap_cons. f_equal. by apply IH.
Qed.

Lemma updateFirst_numbers k g hist hist' :
  (forall b, b_BlockNumber (g b) = b_BlockNumber b) -> updateFirst k g hist = Some hist' -> numbers hist' = numbers hist.
Proof. apply updateFirst_column. Qed.

Lemma tip_numbers b bc bc' : tip b bc -> pendingBlock bc' = [] -> numbers (blockHistory bc') = numbers (blockHistory bc) -> tip b bc'.
Proof.
  intros (_ & hist & t & Hh & Ht) Hp Hn. split; [done|]. rewrite Hh in Hn. unfold numbers in Hn. rewrite fmap_app in Hn.
  destruct (blockHistory bc') as [|t' hist' _] using rev_ind; [by destruct (b_BlockNumber <$> hist)|].
  rewrite fmap_app in Hn. apply app_inj_2 in Hn as [_ Hn]; [|done]. injection Hn as Hn. exists hist', t'. split; [done|congruence].
Qed.

Lemma header_tip f number hd producer b w :
  tip b (w_bc w) -> tip b (w_bc (ApplyBlockHeader f number hd producer w)) /\
  confirmedHashes (w_bc (ApplyBlockHeader f number hd producer w)) = confirmedHashes (w_bc w).
Proof.
  intros Ht. unfold ApplyBlockHeader. destruct (updateFirst _ _ _) as [hist'|] eqn:E; [|done].
  apply updateFirst_numbers in E; [|done].
  match goal with |- context [persistChain f ?x] => destruct (persistChain_frame f x) as (_ & _ & d & Hd) end. rewrite Hd.
  split; [|done]. eapply tip_numbers; [exact Ht|by destruct Ht|done].
Qed.

Lemma finalize_pools h f b moved hb producer n n' r :
  FinalizeConfirmedBlock h f b (Some <$> moved) hb producer n = (n', r) -> tip b (w_bc (n_world n)) ->
  confirmFailPoint h <> FailPointCrashAfterExplorer ->
  match r with
  | Ok _ => pendingBlock (w_bc (n_world n')) = [] /\ confirmedHashes (w_bc (n_world n')) = confirmedHashes (w_bc (n_world n))
  | Err m => pendingBlock (w_bc (n_world n')) = moved /\ isTOCTOU m = false /\ Contains m "TOCTOU" = false
  end.
Proof.
  unfold FinalizeConfirmedBlock. intros H Ht Hc. destruct (assembleBlockHeader _ _ _ _ _ _) as [hd|m].
  - destruct (header_tip f (b_BlockNumber b) hd producer b (n_world n) Ht) as [Ht2 Hcf].
    set (w2 := ApplyBlockHeader f _ hd producer _) in *. set (b2 := withHeader hd producer b) in *.
    assert (Ht2' : tip b2 w2.(w_bc)) by exact Ht2. unfold DurableCommitAfterExplorer, undoNode in H. cbn [n_world n_pool n_rocks Boundary.with_world] in H.
    destruct (confirmFailPoint h); try done.
    1: destruct (commitBlockToRocks _ _ _ _ _) as [rs [u|m]].
    all: injection H as <- <-; cbn [n_world Boundary.with_world]; try (rewrite undo_pending by done; done).
    assert (Hrem : w_bc (if hb then removeBak f w2 else w2) = w_bc w2) by (unfold removeBak; by destruct hb, (removeOk f)).
    rewrite Hrem. split; [by destruct Ht2|done].
  - destruct (RocksEnabled h); injection H as <- <-; cbn [n_world undoNode Boundary.with_world].
    + by rewrite undo_pending.
    + match goal with |- context [persistChain f ?x] => destruct (persistChain_frame f x) as (_ & _ & d & Hd) end. rewrite Hd.
      assert (Hrem : w_bc (if hb then removeBak f (n_world n) else n_world n) = w_bc (n_world n))
        by (unfold removeBak; by destruct hb, (removeOk f)).
      rewrite Hrem. split; [by destruct Ht|done].
Qed.

Lemma votes_frame bc k a b c d ms x y l1 l2 :
  let bc' := SetBlockVoteDetails k l1 l2 (SetBlockVoteCounts k a b c d ms x y bc) in
  pendingBlock bc' = pendingBlock bc /\ confirmedHashes bc' = confirmedHashes bc.
Proof. cbv zeta. unfold SetBlockVoteDetails, SetBlockVoteCounts. by repeat case_match. Qed.

Lemma abandon_spec drop bc :
  let bc' := (AbandonPendingBlock drop bc).2 in
  pendingBlock bc' = [] /\ (forall tx, tx ∈ mempool bc -> tx ∈ mempool bc') /\
  (forall tx, tx ∈ pendingBlock bc -> tx_Hash tx <> "" -> tx_Hash tx ∈ drop \/ tx ∈ mempool bc').
Proof.
  cbv zeta. unfold AbandonPendingBlock. destruct (pendingBlock bc) as [|p0 ps] eqn:E; [split_and!; [done|done|set_solver]|].
  rewrite <- E. simpl. split; [done|]. split; [intros tx Hin; apply elem_of_app; by left|].
  intros tx Hin Hne. destruct (decide (tx_Hash tx ∈ drop)) as [Hd|Hd]; [by left|right].
  apply elem_of_app. right. apply list_elem_of_filter. split; [|by apply list_elem_of_filter].
  unfold keepHash. rewrite elem_of_list_to_set, list_elem_of_filter. tauto.
Qed.

(** Every transaction of [txs] is still waiting: in the pending block or the mempool. *)
Definition waiting (txs : list Transaction) (bc : Blockchain) : Prop :=
  forall tx, tx ∈ txs -> tx ∈ pendingBlock bc \/ tx ∈ mempool bc.

(** Core's error messages are not mistaken for the fence. *)
Definition plainErrors e f (txs : list Transaction) w : Prop :=
  forall m, (applyConfirmedTransactions e f (Some <$> txs) w).2 = Err m -> isTOCTOU m = false /\ Contains m "TOCTOU" = false.

Lemma l2run_pools re h f wallet sr evs now dur st n st' n' r :
  l2ConfirmBlockRun re h f wallet sr evs id id now dur st n = (st', n', r) ->
  Forall (fun tx => tx_Hash tx <> "") (pendingOf n) -> confirmFailPoint h <> FailPointCrashAfterExplorer ->
  plainErrors (chainEnv h) f (pendingOf n) (n_world n) ->
  match r with
  | Ok _ => pendingOf n' = [] /\ forall tx, tx ∈ pendingOf n -> tx_Hash tx ∈ confirmedHashes (w_bc (n_world n'))
  | Err m => waiting (pendingOf n) (w_bc (n_world n')) /\ isTOCTOU m = false /\ Contains m "TOCTOU" = false
  end.
Proof.
  unfold l2ConfirmBlockRun, pendingOf. intros H Hne Hc Hm. rewrite Forall_forall in Hne.
  destruct (pendingBlock (w_bc (n_world n))) as [|p0 ps] eqn:Ep; [injection H as <- <- <-; split; [intros tx Htx; by apply elem_of_nil in Htx|done]|].
  rewrite <- Ep in *. destruct (runRound _ _ _ _ _) as [[vr acc] reg].
  assert (Hself : with_bc (id (w_bc (n_world n))) (n_world n) = n_world n) by (by destruct (n_world n)).
  rewrite Hself in H. cbn [n_world Boundary.with_world] in H.
  destruct acc; cbn [negb] in H; [|injection H as <- <- <-; split; [by left|done]].
  destruct (L2ConfirmBlock _ _ _ _ _) as [w1 res] eqn:El. apply L2_pools in El.
  destruct res as [[[moved b] hb]|m].
  - destruct El as (-> & Ht & Hconf). destruct (FinalizeConfirmedBlock _ _ _ _ _ _ _) as [n2 fin] eqn:Ef.
    apply finalize_pools in Ef; [|done|done]. cbn [n_world Boundary.with_world] in Ef. destruct fin as [[b2 c]|m].
    + destruct Ef as [Hp Hcf]. destruct (afterConfirm _ _ _ _ _ _ _ _) as [st2 n3] eqn:Ea. injection H as <- <- <-.
      unfold afterConfirm in Ea. repeat (match type of Ea with context [let '(_, _) := ?x in _] => destruct x end).
      injection Ea as _ <-. cbn [n_world Boundary.with_world w_bc with_bc].
      match goal with |- context [SetBlockVoteDetails ?k ?l1 ?l2 (SetBlockVoteCounts ?k ?a ?b ?c ?d ?ms ?x ?y ?bc)] =>
        destruct (votes_frame bc k a b c d ms x y l1 l2) as [-> ->] end.
      cbn [w_bc with_state]. rewrite Hp, Hcf. split; [done|]. intros tx Htx. apply Hconf, elem_of_list_to_set. by apply list_elem_of_fmap_2.
    + injection H as <- <- <-. destruct Ef as (Hp & ? & ?). split; [|done]. intros tx Htx. left. by rewrite Hp.
  - destruct El as [Hp Hwhy].
    assert (Hplain : isTOCTOU m = false /\ Contains m "TOCTOU" = false) by (destruct Hwhy as [Hwhy| ->]; [by apply Hm|done]).
    destruct Hplain as [Ht Hco]. rewrite Ht in H. destruct (isPersistAfterApply m); cbn [orb] in H; injection H as <- <- <-.
    + split; [|done]. intros tx Htx. left. simpl. by rewrite Hp.
    + split; [|done]. intros tx Htx. right. cbn [n_world Boundary.with_world w_bc with_bc].
      destruct (abandon_spec [] (w_bc w1)) as (_ & _ & Hr). rewrite Hp in Hr. destruct (Hr tx Htx (Hne tx Htx)) as [Hx|Hx]; [by apply elem_of_nil in Hx|done].
Qed.


(** votes are never synthesised in company. The parameters of the unified block
    cycle ask Core to confirm on its own only if no peer answers heartbeats, whatever
    the configuration says, and never let Core apply the transactions. *)
Theorem auto_confirm_only_alone (k : WorkerEnv CS RS) (i : RoundInput CS) n :
  bp_ApplyTxs (cycleParams k i n) = false /\
  (bp_AutoConfirm (cycleParams k i n) = true -> re_peers (wk_env k) = []).
Proof.
  split; [done|]. cbn [bp_AutoConfirm cycleParams]. unfold allowBlockCycleAutoConfirm.
  destruct (re_peers (wk_env k)) as [|p ps]; [done|]. simpl. rewrite andb_false_r. by repeat case_match.
Qed.

(** ** The loop *)

Lemma maxRounds_pos getenv : 0 < autoBlockDrainMaxRounds getenv.
Proof.
  unfold autoBlockDrainMaxRounds. destruct (String.eqb _ _); [lia|]. destruct (ParseInt _) as [m ok].
  destruct (ok && (0 <? m)) eqn:E; [|lia]. apply andb_true_iff in E as [_ E]. lia.
Qed.

(** The states a tick goes through, one round at a time. *)
Inductive drained (k : WorkerEnv CS RS) : (nat -> RoundInput CS) -> ConsState -> Node CS RS -> nat -> ConsState -> Node CS RS -> Prop :=
| drained_limit inputs st n : drained k inputs st n 0 st n
| drained_stop inputs st n st' n' : drainRound k (inputs 0%nat) st n = (st', n', false) -> drained k inputs st n 1 st' n'
| drained_more inputs st n st1 n1 c st' n' :
    drainRound k (inputs 0%nat) st n = (st1, n1, true) -> drained k (fun j => inputs (S j)) st1 n1 c st' n' ->
    drained k inputs st n (S c) st' n'.

End worker.

(** ** Witness: the write of chain.json fails, the transactions go back to the mempool *)

Definition diskFails : RoundInput Z :=
  mkInput demoPack "root" [] id id 7 3 (demoFaults TempFails) None (fun _ => Ok true) (fun _ => Err "no rpc").

Definition soloHandler : HandlerEnv Z unit :=
  mkHandler _ _ demoEnv (fun cs => Ok "root") (fun a cs => Ok None) true (fun cs n prev ts hs p => Ok (mkHeader "" "" "" prev)) None FailPointNone.

Definition soloWorker : WorkerEnv Z unit := mkWorker soloEnv soloHandler "" (Some "cli") (fun _ => "") (fun _ => None).

Definition pendingNode : Node Z unit := mkNode (with_bc (set_pendingBlock [txA; txC] demoPending) demoWorld) tt None.

