(* ===== verification/ChainLog.v ===== *)
(** * The history refines an append-only log of heights

    The abstract chain is a list of heights to which only fresh heights are
    appended. [gateway_step] are the ways in which a running gateway changes its
    history: an L2 run of its own, a block announced by a peer and a sync response.
    Each of them, whatever fails inside, is simulated by steps of the abstract log,
    and the block counter stays above every height, so that the next local block is
    fresh too. *)

From S2P Require Import Prelude GoStd GoJson Dag Tx ForkChoice Chain Pool Confirm ConfirmSpec History HistorySpec TxPool.
From S2P Require Import Boundary BoundarySpec PeerSpec Mempool Rating Rewards L1Validate Votes Consensus ConsensusSpec Nonce Admission.
From S2P Require Import Sync SyncSpec AutoBlock AutoBlockSpec.

#[local] Open Scope Z_scope.

(** ** The specification *)

Inductive log_append : list Z -> list Z -> Prop :=
| log_append_fresh log k : k ∉ log -> log_append log (log ++ [k]).

Definition logHeights (bc : Blockchain) : list Z := numbers (blockHistory bc).

(** What the simulation keeps: heights are distinct and below the counter. *)
Record log_wf (bc : Blockchain) : Prop := mkLogWf {
  lw_nodup : NoDup (logHeights bc);
  lw_below : Forall (fun k => k < blockCounter bc) (logHeights bc);
  lw_counter : 0 <= blockCounter bc
}.

(** [bc'] is [bc] after some appends. *)
Definition extends (bc bc' : Blockchain) : Prop := rtc log_append (logHeights bc) (logHeights bc') /\ log_wf bc'.

Lemma extends_same bc bc' : log_wf bc -> logHeights bc' = logHeights bc -> blockCounter bc' = blockCounter bc -> extends bc bc'.
Proof. intros [H1 H2 H3] Hh Hc. split; [by rewrite Hh|]. constructor; by rewrite ?Hh, ?Hc. Qed.

Lemma extends_append bc bc' k :
  log_wf bc -> logHeights bc' = logHeights bc ++ [k] -> k ∉ logHeights bc -> blockCounter bc <= blockCounter bc' -> k < blockCounter bc' ->
  extends bc bc'.
Proof.
  intros [H1 H2 H3] Hh Hk Hc Hlt. split; [rewrite Hh; by apply rtc_once, log_append_fresh|]. constructor.
  - rewrite Hh. apply NoDup_app. split; [done|]. split; [|by apply NoDup_singleton]. intros x Hx ->%list_elem_of_singleton. done.
  - rewrite Hh, Forall_app, Forall_singleton. split; [|done]. eapply Forall_impl; [exact H2|]. simpl. lia.
  - lia.
Qed.

Lemma extends_trans bc1 bc2 bc3 : extends bc1 bc2 -> extends bc2 bc3 -> extends bc1 bc3.
Proof. intros [H1 _] [H2 H3]. split; [by etransitivity|done]. Qed.

(** ** Heights and counter through the operations *)

Definition same_log (bc bc' : Blockchain) : Prop := logHeights bc' = logHeights bc /\ blockCounter bc' = blockCounter bc.

#[export] Instance same_log_preorder : PreOrder same_log.
Proof. unfold same_log. split; [done|]. intros a b c [] []. split; congruence. Qed.

Lemma extends_log bc bc' : log_wf bc -> same_log bc bc' -> extends bc bc'.
Proof. intros Hw [Hh Hc]. by apply extends_same. Qed.

Lemma dag_log bc bc' : dag_only bc bc' -> same_log bc bc'.
Proof. by intros [-> | ->]. Qed.

Lemma durable_log d bc : same_log bc (set_durableHead d bc).
Proof. done. Qed.

Lemma abandon_log drop bc : same_log bc (AbandonPendingBlock drop bc).2.
Proof. unfold AbandonPendingBlock. by destruct (pendingBlock bc). Qed.

Lemma set_history_log k g bc hist' :
  (forall b, b_BlockNumber (g b) = b_BlockNumber b) -> updateFirst k g (blockHistory bc) = Some hist' -> same_log bc (set_blockHistory hist' bc).
Proof. intros Hg H. apply updateFirst_numbers in H; [|done]. by split. Qed.

Lemma votes_log bc k a b c d ms x y l1 l2 :
  same_log bc (SetBlockVoteDetails k l1 l2 (SetBlockVoteCounts k a b c d ms x y bc)).
Proof.
  assert (H1 : same_log bc (SetBlockVoteCounts k a b c d ms x y bc)).
  { unfold SetBlockVoteCounts. destruct (updateFirst _ _ _) eqn:E; [|done]. by eapply set_history_log, E. }
  etransitivity; [exact H1|]. unfold SetBlockVoteDetails. destruct (updateFirst _ _ _) eqn:E; [|done]. by eapply set_history_log, E.
Qed.

(** Removing the tip gives back the log before it; the counter returns to its height. *)
Lemma undo_log b moved requeue bc log :
  logHeights bc = log ++ [b_BlockNumber b] ->
  let bc' := undoExplorerConfirmLocked b (Some <$> moved) requeue bc in
  logHeights bc' = log /\ blockCounter bc' = if blockCounter bc =? i64 (b_BlockNumber b + 1) then b_BlockNumber b else blockCounter bc.
Proof.
  intros Hh. cbv zeta. unfold logHeights, numbers in *. destruct (blockHistory bc) as [|t hist _] eqn:Eh using rev_ind; [by destruct log|].
  rewrite fmap_app in Hh. apply app_inj_2 in Hh as [Hl Ht]; [|done]. injection Ht as Ht.
  destruct (undoExplorer_spec bc hist t b moved requeue Eh Ht) as (-> & -> & _). done.
Qed.

Lemma i64_succ c : 0 <= c -> c + 1 < two63 -> i64 (c + 1) = c + 1.
Proof. intros. apply i64_small. unfold is_i64, two63 in *. lia. Qed.

Section simulation.
Context {G : GoRand} {R : GoRange} {C : GoConv} {CS RS : Type}.
Implicit Types (h : HandlerEnv CS RS) (n : Node CS RS) (w : World CS) (e : Env CS) (f : Faults CS).

Lemma L2_log e f now w w' r :
  L2ConfirmBlock e f id now w = (w', r) -> 0 <= blockCounter (w_bc w) -> blockCounter (w_bc w) + 1 < two63 ->
  match r with
  | Ok (_, b, _) => b_BlockNumber b = blockCounter (w_bc w) /\ logHeights (w_bc w') = logHeights (w_bc w) ++ [b_BlockNumber b] /\
                    blockCounter (w_bc w') = blockCounter (w_bc w) + 1
  | Err _ => same_log (w_bc w) (w_bc w')
  end.
Proof.
  unfold L2ConfirmBlock. intros H H0 Hroom. destruct (applyConfirmedTransactions _ _ _ _) as [wa ra] eqn:Ea. apply apply_dag in Ea as Hd.
  apply dag_log in Hd as [Hh Hc]. destruct ra as [hb|m]; [|by injection H as <- <-]. cbn [id w_bc with_bc] in H.
  destruct (negb (Nat.eqb _ _)); [injection H as <- <-; rewrite abortTOCTOU_bc; by split|].
  destruct (negb (bool_decide _)); [injection H as <- <-; rewrite abortTOCTOU_bc; by split|].
  destruct (foldl confirmOne _ _) as [bc b0] eqn:El. unfold openBlock in El. rewrite confirmOne_foldl in El. injection El as Hbc Hb0.
  destruct (blockAdd_foldl (mkBlock (blockCounter (w_bc wa)) 0 [] 0 0 "" "" "" "" "" 0 0 0 0 0 "" "" ∅ ∅) (pendingBlock (w_bc w)))
    as (Hn0 & _); [by unfold is_i64, two63|]. cbn zeta in Hn0. cbn [b_BlockNumber] in Hn0, Hbc. rewrite Hb0 in Hn0.
  cbn [lastTx set_pendingBlock] in H. destruct (stampBlock_fields now (lastTx bc) b0) as (Hn & _). set (b := stampBlock now (lastTx bc) b0) in *.
  destruct (adopt_foldl_frame (blockCounter (w_bc wa)) (set_blockCounter (i64 (blockCounter (w_bc wa) + 1)) (w_bc wa)) (pendingBlock (w_bc w)))
    as (_ & _ & Fc & Fh & _). rewrite Hbc in Fc, Fh. cbn [blockCounter blockHistory set_blockCounter] in Fc, Fh.
  set (bc2 := appendBlock b (set_pendingBlock [] bc)) in *.
  assert (Hb : b_BlockNumber b = blockCounter (w_bc w)) by (rewrite Hn, Hn0; exact Hc).
  assert (Hh2 : logHeights bc2 = logHeights (w_bc w) ++ [b_BlockNumber b]).
  { rewrite <- Hh. unfold logHeights, numbers, bc2. cbn. by rewrite fmap_app, Fh. }
  assert (Hc2 : blockCounter bc2 = blockCounter (w_bc w) + 1) by (unfold bc2; cbn; rewrite Fc, Hc; by apply i64_succ).
  destruct (persistChain _ _) as [wp [u|m]] eqn:Ep; injection H as <- <-.
  - assert (Hwp : exists d, w_bc wp = set_durableHead d bc2).
    { apply persistChain_ok in Ep as [[-> _]|(_ & _ & ->)]; simpl; [eexists; symmetry; apply set_durableHead_same|by eexists]. }
    destruct Hwp as [d ->]. done.
  - apply persistChain_err in Ep as ->. rewrite abortPersist_bc. cbn [w_bc with_bc].
    destruct (undo_log b (pendingBlock (w_bc w)) "pending" bc2 (logHeights (w_bc w)) Hh2) as [Hu1 Hu2].
    split; [done|]. rewrite Hu2, Hc2, Hb, i64_succ, Z.eqb_refl by done. done.
Qed.

Lemma finalize_log h f b moved hb producer n n' r log :
  FinalizeConfirmedBlock h f b (Some <$> moved) hb producer n = (n', r) -> confirmFailPoint h <> FailPointCrashAfterExplorer ->
  0 <= b_BlockNumber b -> b_BlockNumber b + 1 < two63 ->
  logHeights (w_bc (n_world n)) = log ++ [b_BlockNumber b] -> blockCounter (w_bc (n_world n)) = b_BlockNumber b + 1 ->
  match r with
  | Ok _ => same_log (w_bc (n_world n)) (w_bc (n_world n'))
  | Err _ => logHeights (w_bc (n_world n')) = log /\ blockCounter (w_bc (n_world n')) = b_BlockNumber b
  end.
Proof.
  unfold FinalizeConfirmedBlock. intros H Hc H0 Hroom Hh Hcnt.
  assert (Hundo : forall b2 w2, b_BlockNumber b2 = b_BlockNumber b -> same_log (w_bc (n_world n)) (w_bc w2) ->
    let bc' := w_bc (UndoLastConfirmedBlock (chainEnv h) f b2 (Some <$> moved) hb w2).1 in
    logHeights bc' = log /\ blockCounter bc' = b_BlockNumber b).
  { intros b2 w2 Hb2 [Hs1 Hs2]. cbv zeta. destruct (undo_bc (chainEnv h) f b2 (Some <$> moved) hb w2) as [d ->].
    destruct (durable_log d (undoExplorerConfirmLocked b2 (Some <$> moved) "pending" (w_bc w2))) as [-> ->].
    destruct (undo_log b2 moved "pending" (w_bc w2) log) as [-> ->]; [by rewrite Hs1, Hb2|].
    by rewrite Hs2, Hb2, Hcnt, i64_succ, Z.eqb_refl by done. }
  destruct (assembleBlockHeader _ _ _ _ _ _) as [hd|m].
  - set (w2 := ApplyBlockHeader f _ hd producer _) in *.
    assert (Hs2 : same_log (w_bc (n_world n)) (w_bc w2)).
    { unfold w2, ApplyBlockHeader. destruct (updateFirst _ _ _) as [hist'|] eqn:E; [|done].
      match goal with |- context [persistChain f ?x] => destruct (persistChain_frame f x) as (_ & _ & d & ->) end.
      etransitivity; [eapply set_history_log, E; done|apply durable_log]. }
    unfold DurableCommitAfterExplorer, undoNode in H. cbn [n_world n_pool n_rocks Boundary.with_world] in H.
    destruct (confirmFailPoint h); try done.
    1: destruct (commitBlockToRocks _ _ _ _ _) as [rs [u|m]].
    all: injection H as <- <-; cbn [n_world Boundary.with_world]; try (by apply Hundo).
    assert (Hrem : w_bc (if hb then removeBak f w2 else w2) = w_bc w2) by (unfold removeBak; by destruct hb, (removeOk f)).
    by rewrite Hrem.
  - destruct (RocksEnabled h); injection H as <- <-; cbn [n_world undoNode Boundary.with_world]; [by apply Hundo|].
    match goal with |- context [persistChain f ?x] => destruct (persistChain_frame f x) as (_ & _ & d & ->) end.
    unfold removeBak. by destruct hb, (removeOk f).
Qed.

(** ** The three steps *)

Definition nodeLog n : Blockchain := w_bc (n_world n).

Lemma afterConfirm_log re h wallet dur b vr st n : same_log (nodeLog n) (nodeLog (afterConfirm re h wallet dur b vr st n).2).
Proof.
  destruct (afterConfirm _ _ _ _ _ _ _ _) as [st2 n3] eqn:Ea. unfold afterConfirm in Ea.
  repeat (match type of Ea with context [let '(_, _) := ?x in _] => destruct x end).
  injection Ea as _ <-. exact (votes_log _ _ _ _ _ _ _ _ _ _ _).
Qed.

Lemma l2run_log re h f wallet sr evs now dur st n st' n' r :
  l2ConfirmBlockRun re h f wallet sr evs id id now dur st n = (st', n', r) ->
  confirmFailPoint h <> FailPointCrashAfterExplorer -> blockCounter (nodeLog n) + 1 < two63 ->
  log_wf (nodeLog n) -> extends (nodeLog n) (nodeLog n').
Proof.
  unfold l2ConfirmBlockRun. intros H Hc Hroom Hw. pose proof (lw_counter _ Hw) as H0.
  assert (Hsame : extends (nodeLog n) (nodeLog n)) by (by apply extends_same).
  destruct (pendingBlock (w_bc (n_world n))) as [|p0 ps]; [by injection H as <- <- <-|]. destruct (runRound _ _ _ _ _) as [[vr acc] reg].
  assert (Hself : with_bc (id (w_bc (n_world n))) (n_world n) = n_world n) by (by destruct (n_world n)).
  rewrite Hself in H. cbn [n_world Boundary.with_world] in H. destruct acc; cbn [negb] in H; [|by injection H as <- <- <-].
  destruct (L2ConfirmBlock _ _ _ _ _) as [w1 res] eqn:El. apply L2_log in El; [|done|done]. destruct res as [[[moved b] hb]|m].
  - destruct El as (Hb & Hh & Hcnt). destruct (FinalizeConfirmedBlock _ _ _ _ _ _ _) as [n2 fin] eqn:Ef.
    eapply (finalize_log h f b moved hb _ _ _ _ (logHeights (nodeLog n))) in Ef; cbn [n_world Boundary.with_world] in *;
      [|unfold nodeLog in *; first [done|lia]..].
    destruct fin as [[b2 c]|m].
    + destruct (afterConfirm _ _ _ _ _ _ _ _) as [st2 n3] eqn:Ea. injection H as <- <- <-.
      destruct (afterConfirm_log re h wallet dur b2 vr (mkCons reg (cs_lastL1Votes st) (cs_lastL1Accepted st) (vr_votes vr) true
                  (cs_beneficiary st) (cs_dist st) (cs_earn st) (cs_rewarded st)) n2) as [Ha1 Ha2].
      rewrite Ea in Ha1, Ha2. cbn [snd] in Ha1, Ha2. destruct Ef as [Hf1 Hf2]. unfold nodeLog in *.
      apply (extends_append _ _ (b_BlockNumber b)); [done|congruence| |rewrite Ha2, Hf2; lia..].
      intros Hin. pose proof (lw_below _ Hw) as Hlt. rewrite Forall_forall in Hlt. specialize (Hlt _ Hin). lia.
    + injection H as <- <- <-. destruct Ef as [Hf1 Hf2]. unfold nodeLog in *. apply extends_same; [done|done|congruence].
  - destruct (isTOCTOU m || isPersistAfterApply m); injection H as <- <- <-; [by apply extends_log|].
    apply extends_log; [done|]. etransitivity; [exact El|]. apply (abandon_log [] (w_bc w1)).
Qed.

(** The counter after a peer's block at height [k]. *)
Lemma adoptBlock_log b txs bc :
  0 <= b_BlockNumber b -> b_BlockNumber b + 1 < two63 ->
  logHeights (adoptBlock b txs bc) = logHeights bc ++ [b_BlockNumber b] /\
  blockCounter (adoptBlock b txs bc) = Z.max (blockCounter bc) (b_BlockNumber b + 1).
Proof.
  intros H0 Hroom. split.
  - destruct (adoptBlock_fields b txs bc) as [Hh _]. unfold logHeights, numbers. rewrite Hh. by rewrite fmap_app.
  - unfold adoptBlock. cbv zeta. rewrite i64_succ, (proj2 (Z.leb_le _ _)) by done. cbn [andb]. set (bc0 := if _ <? _ then _ else _).
    destruct (adopt_foldl_frame (b_BlockNumber b) bc0 (nonNil txs)) as (_ & _ & Hc & _). cbn. rewrite Hc. unfold bc0.
    destruct (Z.ltb_spec (blockCounter bc) (b_BlockNumber b + 1)); cbn; lia.
Qed.

(** A peer's block that is undone leaves the heights; its height was fresh, so the
    counter it falls back to is still above all of them. *)
Lemma undone_extends b moved requeue bc bc1 :
  log_wf bc -> b_BlockNumber b ∉ logHeights bc -> 0 <= b_BlockNumber b -> b_BlockNumber b + 1 < two63 ->
  logHeights bc1 = logHeights bc ++ [b_BlockNumber b] -> blockCounter bc1 = Z.max (blockCounter bc) (b_BlockNumber b + 1) ->
  extends bc (undoExplorerConfirmLocked b (Some <$> moved) requeue bc1).
Proof.
  intros [Hn Hb H0] Hfresh Hk Hroom Hh Hc. destruct (undo_log b moved requeue bc1 (logHeights bc) Hh) as [Hu Hcu].
  rewrite Hc, i64_succ in Hcu by done. split; [by rewrite Hu|]. rewrite Forall_forall in Hb.
  assert (Hlt : forall k, k ∈ logHeights bc -> k < blockCounter (undoExplorerConfirmLocked b (Some <$> moved) requeue bc1)).
  { intros k Hin. specialize (Hb k Hin). rewrite Hcu. assert (k <> b_BlockNumber b) by (by intros ->).
    destruct (Z.eqb_spec (Z.max (blockCounter bc) (b_BlockNumber b + 1)) (b_BlockNumber b + 1)); lia. }
  constructor; rewrite ?Hu; [done|by apply Forall_forall|].
  rewrite Hcu. destruct (_ =? _); lia.
Qed.

Lemma rollback_bc e f b moved hb requeue w :
  w_bc (rollbackConfirmLocked e f b moved hb requeue w).1 = undoExplorerConfirmLocked b moved requeue (w_bc w).
Proof.
  unfold rollbackConfirmLocked, Confirm.restoreState, removeBak.
  by destruct (ledger e), hb, (w_bak w), (restoreCopy f), (removeOk f).
Qed.

(** What adding a peer's block does to the log: it is undone, refused, or it is the
    new tip. *)
Lemma addConfirmed_log e f b txs w w' r :
  AddConfirmedBlock e f id b txs w = (w', r) -> log_wf (w_bc w) -> 0 <= b_BlockNumber b -> b_BlockNumber b + 1 < two63 ->
  match r with
  | Ok (Some _) => b_BlockNumber b ∉ logHeights (w_bc w) /\ logHeights (w_bc w') = logHeights (w_bc w) ++ [b_BlockNumber b] /\
                   blockCounter (w_bc w') = Z.max (blockCounter (w_bc w)) (b_BlockNumber b + 1)
  | _ => extends (w_bc w) (w_bc w')
  end.
Proof.
  unfold AddConfirmedBlock. intros H Hw H0 Hroom. pose proof (scanHeight_spec b (blockHistory (w_bc w))) as Hscan.
  destruct (scanHeight b _) as [| |m]; [|injection H as <- <-; by apply extends_log..].
  destruct (applyConfirmedTransactions _ _ _ _) as [wa ra] eqn:Ea. apply apply_dag in Ea as [Hh Hc]%dag_log.
  destruct ra as [hb|m]; [|injection H as <- <-; by apply extends_same]. cbn [id w_bc with_bc] in H.
  destruct (adoptBlock_log b txs (w_bc wa) H0 Hroom) as [Hah Hac]. rewrite Hh in Hah. rewrite Hc in Hac.
  assert (Hroll : forall w2, w_bc w2 = adoptBlock b txs (w_bc wa) ->
    extends (w_bc w) (w_bc (rollbackConfirmLocked e f b (Some <$> nonNil txs) hb "mempool" w2).1)).
  { intros w2 Hw2. rewrite rollback_bc, Hw2. by apply undone_extends. }
  destruct (String.eqb _ _); [injection H as <- <-; by apply Hroll|].
  destruct (persistChain _ _) as [wp [u|m]] eqn:Ep; injection H as <- <-.
  - match type of Ep with persistChain f ?x = _ => destruct (persistChain_frame f x) as (_ & _ & d & Hd) end.
    rewrite Ep in Hd. cbn [fst w_bc with_bc] in Hd. rewrite Hd. by destruct (durable_log d (adoptBlock b txs (w_bc wa))) as [-> ->].
  - apply persistChain_err in Ep as ->. by apply Hroll.
Qed.

Lemma applyPeer_log h f b txs n n' r :
  ApplyPeerConfirmedBlock h f id b (Some <$> txs) n = (n', r) -> log_wf (nodeLog n) ->
  0 <= b_BlockNumber b -> b_BlockNumber b + 1 < two63 -> extends (nodeLog n) (nodeLog n').
Proof.
  unfold ApplyPeerConfirmedBlock. intros H Hw H0 Hroom. destruct (AddConfirmedBlock _ _ _ _ _ _) as [w1 r1] eqn:Ea.
  eapply addConfirmed_log in Ea; [|done..]. destruct r1 as [[hb|]|m]; [|by injection H as <- <-..].
  destruct Ea as (Hfresh & Hh & Hc).
  assert (Happ : extends (nodeLog n) (w_bc w1)) by (unfold nodeLog; apply (extends_append _ _ (b_BlockNumber b)); [done..|lia|lia]).
  assert (Hundo : extends (nodeLog n) (w_bc (UndoLastConfirmedBlock (chainEnv h) f b (Some <$> txs) hb w1).1)).
  { destruct (undo_bc (chainEnv h) f b (Some <$> txs) hb w1) as [d ->].
    destruct (undone_extends b txs "pending" (nodeLog n) (w_bc w1)) as [Hu1 Hu2]; [done..|].
    eapply extends_trans; [by split|]. by apply extends_log. }
  destruct (DurableCommitAfterExplorer _ _ _ _ _ _) as [n1 r2] eqn:Ed. injection H as <- _.
  unfold DurableCommitAfterExplorer, undoNode in Ed. cbn [n_world n_pool n_rocks Boundary.with_world] in Ed.
  destruct (confirmFailPoint h); try (by injection Ed as <- <-).
  destruct (commitBlockToRocks _ _ _ _ _) as [rs [u|m]]; injection Ed as <- <-; cbn [nodeLog n_world Boundary.with_world]; [|done].
  unfold removeBak. by destruct hb, (removeOk f).
Qed.

Lemma receive_log bc (decoded : list (Transaction * Z)) :
  same_log bc (foldl (fun bc tn => setBlockNumber tn.1 tn.2 bc) bc decoded).
Proof. revert bc. induction decoded as [|[tx m] l IH]; intros bc; [done|]. simpl. etransitivity; [|apply IH]. done. Qed.

(** The heights a message may name. *)
Definition heightOk (data : jobj) : Prop := 0 <= b_BlockNumber (decodeBlock data) /\ b_BlockNumber (decodeBlock data) + 1 < two63.

Lemma onBlockConfirmed_log h f ref data n :
  log_wf (nodeLog n) -> heightOk data -> extends (nodeLog n) (nodeLog (onBlockConfirmed h f id ref data n).1).
Proof.
  intros Hw [H0 Hroom]. unfold onBlockConfirmed. set (decoded := decodeTxs _ _).
  set (n0 := with_nbc _ n). assert (Hr : extends (nodeLog n) (nodeLog n0)) by (apply extends_log; [done|apply receive_log]).
  destruct (ApplyPeerConfirmedBlock _ _ _ _ _ _) as [n1 r] eqn:Ea. apply applyPeer_log in Ea; [|apply Hr|done|done].
  eapply extends_trans; [exact Hr|]. by destruct r as [[]|].
Qed.

Lemma applyEntries_log h f ref entries n :
  log_wf (nodeLog n) -> Forall heightOk entries -> extends (nodeLog n) (nodeLog (applyEntries h f ref entries n).1).
Proof.
  intros Hw Hok. revert ref n Hw. induction Hok as [|m entries Hm _ IH]; intros ref n Hw; simpl; [by apply extends_log|].
  destruct (_ <=? _); [by apply IH|]. pose proof (onBlockConfirmed_log h f ref m n Hw Hm) as Ho.
  destruct (onBlockConfirmed _ _ _ _ _ _) as [n1 ev]. cbn [fst] in Ho.
  pose proof (IH (ref + Pos.of_succ_nat (length (objectsOf (default [] (getArray m "transactions")))))%positive n1 (proj2 Ho)) as Hi.
  destruct (applyEntries h f _ entries n1) as [n2 evs]. by eapply extends_trans.
Qed.

(** ** The gateway as a transition system *)

(** One step: a run of [l2ConfirmBlockRun] or a [block_confirmed] or [sync_response]
    message handled on its own, under any faults of the disk, the ledger and RocksDB
    (the injected crash point apart), or any change of the pools: admission, L1
    collection, pruning, abandoned blocks. *)
Inductive gateway_step (Slice : list jobj -> list jobj) h : ConsState * Node CS RS -> ConsState * Node CS RS -> Prop :=
| step_confirm re f wallet sr evs now dur st n st' n' r :
    blockCounter (nodeLog n) + 1 < two63 -> l2ConfirmBlockRun re h f wallet sr evs id id now dur st n = (st', n', r) ->
    gateway_step Slice h (st, n) (st', n')
| step_peer f ref data st n : heightOk data -> gateway_step Slice h (st, n) (st, (onBlockConfirmed h f id ref data n).1)
| step_sync f ref data st n :
    Forall heightOk (objectsOf (default [] (getArray data "blocks"))) -> gateway_step Slice h (st, n) (st, (onSyncApply Slice h f ref data n).1)
| step_pools bc st n :
    blockHistory bc = blockHistory (nodeLog n) -> blockCounter bc = blockCounter (nodeLog n) ->
    gateway_step Slice h (st, n) (st, with_nbc bc n).

Lemma gateway_step_simulated Slice h s s' :
  (forall l, Slice l ≡ₚ l) -> confirmFailPoint h <> FailPointCrashAfterExplorer ->
  gateway_step Slice h s s' -> log_wf (nodeLog s.2) -> extends (nodeLog s.2) (nodeLog s'.2).
Proof.
  intros Hs Hc Hstep Hw. destruct Hstep as [re f wallet sr evs now dur st n st' n' r Hroom H|f ref data st n Hok|f ref data st n Hok|bc st n Hh Hb]; cbn [snd] in *.
  - by eapply l2run_log.
  - by apply onBlockConfirmed_log.
  - unfold onSyncApply. destruct (getArray data "blocks") as [[|v l]|]; [by apply extends_log| |by apply extends_log].
    apply applyEntries_log; [done|]. by rewrite Hs.
  - apply extends_same; [done| |done]. unfold logHeights. by rewrite <- Hh.
Qed.

(** C6: the history of a running gateway refines an append-only log. In any number of
    steps (L2 runs of its own, blocks announced by peers, sync responses, changes of
    the pools), whatever fails in them, the list of confirmed heights changes only by
    appending heights it does not hold: nothing is lost, reordered or confirmed twice.
    The block counter stays above every height, so the next L2 run finds a free
    one. *)
Theorem history_refines_log Slice h s s'
  (Hslice : forall l, Slice l ≡ₚ l) (Hpoint : confirmFailPoint h <> FailPointCrashAfterExplorer)
  (Hreach : rtc (gateway_step Slice h) s s') (Hstart : log_wf (w_bc (n_world s.2))) :
  rtc log_append (logHeights (w_bc (n_world s.2))) (logHeights (w_bc (n_world s'.2))) /\ log_wf (w_bc (n_world s'.2)).
Proof.
  induction Hreach as [s|s1 s2 s3 Hstep _ IH]; [by apply extends_log|].
  pose proof (gateway_step_simulated Slice h s1 s2 Hslice Hpoint Hstep Hstart) as H12.
  exact (extends_trans _ _ _ H12 (IH (proj2 H12))).
Qed.
End simulation.

(** ** Witness: a run of its own, then the blocks of a peer *)

#[local] Instance logRand : GoRand := zero_rand.
#[local] Instance logRange : GoRange := canonical_range.
#[local] Instance logConv : GoConv := zero_conv.

Definition soloStart : Node Z unit := mkNode (with_bc (set_pendingBlock [txA; txC] NewBlockchain) demoWorld) tt None.

Definition soloConfirmed : ConsState * Node Z unit :=
  let '(st, n, _) := l2ConfirmBlockRun soloEnv plainHandler (demoFaults WriteOk) "" "root" [] id id 7 3 emptyCons soloStart in (st, n).

Definition soloSynced : ConsState * Node Z unit :=
  (soloConfirmed.1, (onSyncApply (SliceStable entryLess) plainHandler (demoFaults WriteOk) 20 (onSyncRespond None None "peer" 1 peerChain) soloConfirmed.2).1).

Lemma history_refines_log_witness :
  logHeights (w_bc (n_world soloSynced.2)) = [0; 1; 2] /\ log_wf (w_bc (n_world soloSynced.2)).
Proof.
  split; [vm_compute; reflexivity|].
  refine (proj2 (history_refines_log (SliceStable entryLess) plainHandler (emptyCons, soloStart) soloSynced (SliceStable_perm entryLess) _ _ _)).
  - done.
  - apply (rtc_l _ _ soloConfirmed); [|apply rtc_once].
    + unfold soloConfirmed. destruct (l2ConfirmBlockRun _ _ _ _ _ _ _ _ _ _ _ _) as [[st n] r] eqn:E.
      eapply (step_confirm _ _ soloEnv (demoFaults WriteOk) "" "root" [] 7 3 _ _ st n r); [vm_compute; reflexivity|exact E].
    + unfold soloSynced. generalize soloConfirmed. intros [st n]. apply (step_sync _ _ (demoFaults WriteOk) 20 (onSyncRespond None None "peer" 1 peerChain)).
      assert (Hk : b_BlockNumber ∘ decodeBlock <$> objectsOf (default [] (getArray (onSyncRespond None None "peer" 1 peerChain) "blocks")) = [1; 2])
        by (vm_compute; reflexivity).
      apply (proj1 (Forall_fmap (b_BlockNumber ∘ decodeBlock) (fun k => 0 <= k /\ k + 1 < two63) _)). rewrite Hk. repeat constructor; vm_compute; (done || discriminate).
  - constructor; vm_compute; [constructor..|discriminate].
Defined.

(** An announced block needs neither a parent nor a signature: an empty block at any
    free height is appended, the counter follows it, and the heights between are
    never asked for again. *)
Example announced_height_leaves_gap :
  let n := (onBlockConfirmed plainHandler (demoFaults WriteOk) id 20 [("blockNumber", jint 1000); ("blockHash", JString "x")] soloConfirmed.2).1 in
  logHeights (n_bc n) = [0; 1000] /\ blockCounter (n_bc n) = 1001 /\
  (onSyncApply (SliceStable entryLess) plainHandler (demoFaults WriteOk) 20 (onSyncRespond None None "peer" 1 peerChain) n).1 = n.
Proof. vm_compute. split_and!; reflexivity. Qed.
