(* ===== verification/TxLife.v ===== *)
(** * A transaction is confirmed at most once

    The abstract state of the chain is the list of the hashes of all confirmed
    transactions, in the order of the blocks ([chainHashes]); it may only grow, and
    never by a hash it holds. [life_step] are the ways a running gateway changes its
    pools and its history: the pool operations, pruning, whole L1 and L2 runs under
    any faults and with other requests in between, and blocks of peers that bring
    the transactions they name. The examples at the end show what happens with the
    legacy confirmation, which does not mark what it confirms, and with blocks of
    peers that repeat a hash or leave out a transaction. *)

From S2P Require Import Prelude GoStd GoJson Dag Tx ForkChoice Chain Pool Confirm ConfirmSpec History HistorySpec TxPool.
From S2P Require Import Boundary BoundarySpec PeerSpec Mempool MempoolSpec Rating Rewards L1Validate Votes Consensus ConsensusSpec Nonce Admission AdmissionSpec Explorer.
From S2P Require Import Sync SyncSpec AutoBlock AutoBlockSpec ChainLog.

#[local] Open Scope Z_scope.

(** ** The specification *)

(** The height and the hashes of a block. *)
Definition entry (b : BlockRecord) : Z * list string := (b_BlockNumber b, b_TxHashes b).

Definition entries (bc : Blockchain) : list (Z * list string) := entry <$> blockHistory bc.

Definition chainHashes (bc : Blockchain) : list string := entries bc ≫= snd.

(** What is in flight has a hash of its own that no block has, and what a block has is
    marked. *)
Record life_wf (bc : Blockchain) : Prop := mkLife {
  lf_hashes : NoDup (hashes (inflight bc));
  lf_nonempty : Forall (fun tx => tx_Hash tx <> "") (inflight bc);
  lf_fresh : Forall (fun tx => tx_Hash tx ∉ confirmedHashes bc) (inflight bc);
  lf_once : NoDup (chainHashes bc);
  lf_marked : forall h, h ∈ chainHashes bc -> h ∈ confirmedHashes bc
}.

(** [bc'] is [bc] with more confirmed. *)
Definition grows (bc bc' : Blockchain) : Prop := entries bc `prefix_of` entries bc' /\ life_wf bc'.

Lemma grows_trans a b c : grows a b -> grows b c -> grows a c.
Proof. intros [H _] [H' Hw]. split; [by etransitivity|done]. Qed.

(** An operation that confirms nothing and at most drops transactions. *)
Definition calm (bc bc' : Blockchain) : Prop :=
  entries bc' = entries bc /\ confirmedHashes bc' = confirmedHashes bc /\ inflight bc' ⊆+ inflight bc.

Lemma calm_chain bc bc' : calm bc bc' -> chainHashes bc' = chainHashes bc.
Proof. intros [H _]. unfold chainHashes. by rewrite H. Qed.

#[export] Instance calm_preorder : PreOrder calm.
Proof.
  unfold calm. split; [by intros x|]. intros x y z (? & ? & ?) (? & ? & ?). split_and!; [congruence..|by etransitivity].
Qed.

Lemma calm_grows bc bc' : life_wf bc -> calm bc bc' -> grows bc bc'.
Proof.
  intros [H1 H2 H3 H4 H5] (Hc & Hm & Hs). split; [by rewrite Hc|].
  assert (Hf : forall P, Forall P (inflight bc) -> Forall P (inflight bc')).
  { intros P HP. rewrite Forall_forall in HP |- *. intros x Hx. apply HP. by apply (elem_of_submseteq _ _ _ Hx Hs). }
  destruct (submseteq_Permutation _ _ Hs) as [k Hk]. unfold hashes in H1. rewrite Hk, fmap_app in H1. apply NoDup_app in H1 as [? _].
  constructor; unfold chainHashes; rewrite ?Hc, ?Hm; auto.
Qed.

(** Pools that are the same, and a history whose blocks hold the same hashes. *)
Lemma calm_frame bc bc' :
  entries bc' = entries bc -> confirmedHashes bc' = confirmedHashes bc -> mempool bc' = mempool bc -> pendingBlock bc' = pendingBlock bc ->
  calm bc bc'.
Proof. intros Hc Hm Hp Hq. split_and!; [done..|]. unfold inflight. by rewrite Hp, Hq. Qed.

(** ** The pools *)

Lemma insert_submseteq {A} (l : list A) i (x : A) : <[i := x]> l ⊆+ l ++ [x].
Proof.
  revert i. induction l as [|y l IH]; intros [|i]; simpl; [by apply submseteq_nil_l..| |by apply submseteq_skip, IH].
  rewrite <- Permutation_cons_append. by apply submseteq_cons.
Qed.

Lemma pruneOne_kept confirmed pending nonces st tx : pr_kept (pruneOne confirmed pending nonces st tx) ⊆+ pr_kept st ++ [tx].
Proof.
  assert (Hdrop : pr_kept st ⊆+ pr_kept st ++ [tx]) by (by apply submseteq_inserts_r).
  unfold pruneOne. cbv zeta. repeat (case_match; simpl; try done; try apply insert_submseteq).
Qed.

Lemma prune_kept confirmed pending nonces l st : pr_kept (foldl (pruneOne confirmed pending nonces) st l) ⊆+ pr_kept st ++ l.
Proof.
  revert st. induction l as [|tx l IH]; intros st; simpl; [by rewrite app_nil_r|]. rewrite IH.
  replace (pr_kept st ++ tx :: l) with ((pr_kept st ++ [tx]) ++ l) by (by rewrite <- app_assoc). apply submseteq_app; [apply pruneOne_kept|done].
Qed.

Lemma prune_calm rocksConfirmed nonces now pool bc : calm bc (PruneMempool rocksConfirmed nonces now pool bc).1.2.
Proof.
  unfold PruneMempool. simpl. destruct (0 <? _); [|reflexivity]. split_and!; [done..|]. unfold inflight. simpl.
  apply submseteq_app; [|done]. etransitivity; [apply sublist_submseteq, dropUnpackable_spec|]. apply (prune_kept _ _ _ (mempool bc) (mkPrune [] ∅ 0)).
Qed.

Lemma remove_calm hs bc : calm bc (RemoveFromMempool hs bc).
Proof.
  destruct hs; simpl; [reflexivity|]. split_and!; [done..|]. unfold inflight. simpl. apply submseteq_app; [apply filter_submseteq|done].
Qed.

Lemma collect_calm selected bc : calm bc (L1CollectSelected selected bc).2.
Proof.
  unfold L1CollectSelected. destruct selected; [reflexivity|]. destruct (pickOut _ _) as [m rest] eqn:E. simpl. apply pickOut_perm in E.
  split_and!; [done..|]. unfold inflight. simpl. rewrite (Permutation_app_comm rest), E. by apply submseteq_inserts_r.
Qed.

Lemma abandon_calm drop bc : calm bc (AbandonPendingBlock drop bc).2.
Proof.
  unfold AbandonPendingBlock. destruct (pendingBlock bc) as [|p ps] eqn:E; [reflexivity|]. split_and!; [done..|]. unfold inflight. simpl.
  rewrite app_nil_r, E. apply submseteq_app; [done|]. etransitivity; apply filter_submseteq.
Qed.

Lemma select_calm p id bc : calm bc (selectTxsForBlockCollect p id bc).1.
Proof.
  unfold selectTxsForBlockCollect. destruct (_ || _); [reflexivity|]. destruct (SelectBlockTxs p _); [|reflexivity]. simpl.
  destruct (pk_dagCommit p _) as [[anchor ds]|]; [|reflexivity]. unfold applyDagCommit. destruct ds; [reflexivity|]. by apply calm_frame.
Qed.

Lemma prune_select_calm p id bc : calm bc (selectTxsForBlockCollect p id (pk_prune p bc)).1.
Proof. transitivity (pk_prune p bc); [apply prune_calm|apply select_calm]. Qed.

Lemma pack_calm p id bc : calm bc (packForL1 p id bc).1.
Proof.
  unfold packForL1. pose proof (prune_select_calm p id bc) as H1.
  destruct (selectTxsForBlockCollect p id (pk_prune p bc)) as [bc1 selected]. simpl in H1.
  destruct selected as [|x selected]; [done|]. set (o := validateTxsForL1 _ _ _ _). destruct (oc_OK o); [done|].
  assert (H2 : calm bc (RemoveFromMempool (oc_InvalidHashes o) bc1)) by (etransitivity; [exact H1|apply remove_calm]).
  set (bc2 := RemoveFromMempool _ bc1) in *.
  destruct (match oc_ValidTxs o with [] => _ | _ => _ end) as [bc3 retry] eqn:E3.
  assert (H3 : calm bc bc3).
  { destruct (oc_ValidTxs o); [|by injection E3 as <- <-]. pose proof (prune_select_calm p id bc2) as Hs.
    destruct (selectTxsForBlockCollect p id (pk_prune p bc2)) as [bc4 txs]. injection E3 as <- <-. by etransitivity. }
  destruct retry; [done|]. destruct (oc_OK _); [done|]. etransitivity; [exact H3|apply remove_calm].
Qed.

Lemma pool_step_grows bc bc' : life_wf bc -> pool_step bc bc' -> grows bc bc'.
Proof.
  intros Hw Hs. assert (Hmem : NoDup (hashes (mempool bc))).
  { pose proof (lf_hashes _ Hw) as H. unfold inflight, hashes in H. rewrite fmap_app in H. by apply NoDup_app in H as [? _]. }
  destruct Hs as [tx bc bc' H|tx bc bc' H|hs bc|limit bc|selected bc|hs bc Hnd|drop bc|anchor ds bc].
  - apply AddToMempool_cases in H as [->|(Hne & Hc & Hfree & ->)]; [by apply calm_grows|]. destruct Hw as [H1 H2 H3 H4 H5].
    assert (Hp : inflight (set_mempool (mempool bc ++ [tx]) bc) ≡ₚ inflight bc ++ [tx]).
    { unfold inflight. simpl. rewrite <- !app_assoc. f_equiv. apply Permutation_app_comm. }
    rewrite Forall_forall in Hfree. split; [done|]. constructor; unfold hashes; rewrite ?Hp; [|by apply Forall_app; split; [|constructor]..|done|done].
    apply NoDup_fmap_snoc; [done|]. intros y Hy. by apply Hfree.
  - apply calm_grows; [done|]. unfold AddTransaction in H. destruct (String.eqb _ _); [done|]. injection H as <-. by apply calm_frame.
  - by apply calm_grows, remove_calm.
  - apply calm_grows; [done|]. split_and!; [done..|]. unfold inflight. simpl. rewrite (Permutation_app_comm (drop _ _)), take_drop. by apply submseteq_inserts_r.
  - by apply calm_grows, collect_calm.
  - apply calm_grows; [done|]. split_and!; [done..|]. by apply SetPendingBlock_selected_inflight.
  - by apply calm_grows, abandon_calm.
  - apply calm_grows; [done|]. by apply calm_frame.
Qed.

(** ** Confirming and undoing *)

(** New hashes [hs] on top of the chain, gone from the pools. *)
Lemma adopt_life bc bc' k hs :
  life_wf bc -> entries bc' = entries bc ++ [(k, hs)] -> NoDup hs -> (forall h, h ∈ hs -> h ∉ chainHashes bc) ->
  (forall h, h ∈ confirmedHashes bc' <-> h ∈ hs \/ h ∈ confirmedHashes bc) -> inflight bc' ⊆+ inflight bc ->
  (forall tx, tx ∈ inflight bc' -> tx_Hash tx ∉ hs) -> grows bc bc'.
Proof.
  intros Hw He Hnd Hd Hm Hs Hout. split; [rewrite He; by apply prefix_app_r|].
  assert (Hc : chainHashes bc' = chainHashes bc ++ hs) by (unfold chainHashes; by rewrite He, bind_app, bind_singleton).
  assert (Hcalm : life_wf (set_blockHistory (blockHistory bc) (set_confirmedHashes (confirmedHashes bc) bc'))).
  { apply (calm_grows bc); [done|]. by split_and!. }
  destruct Hcalm as [H1 H2 H3 H4 H5]. constructor; [exact H1|exact H2| | |].
  - rewrite Forall_forall in H3 |- *. intros tx Htx. specialize (H3 tx Htx). specialize (Hout tx Htx). rewrite Hm. naive_solver.
  - rewrite Hc. apply NoDup_app. split_and!; [done| |done]. intros h Hh Hin. by apply (Hd h).
  - intros h. rewrite Hc, elem_of_app, Hm. intros [Hh|Hh]; [right; by apply (lf_marked _ Hw)|by left].
Qed.

(** The index finds the transaction, at that height. *)
Definition indexedAt (k : Z) (bc : Blockchain) (tx : Transaction) : Prop := transactions bc !! tx_Hash tx = Some tx /\ BlockNumber bc tx = k.

(** The tip holds exactly [moved], and the index says so. *)
Definition tipHolds (b : BlockRecord) (moved : list Transaction) (bc : Blockchain) : Prop :=
  exists hist t, blockHistory bc = hist ++ [t] /\ b_BlockNumber t = b_BlockNumber b /\ b_TxHashes t = hashes moved /\
    Forall (indexedAt (b_BlockNumber b) bc) moved.

Lemma adopted_indexed k bc txs : NoDup (hashes txs) -> Forall (indexedAt k (foldl (adoptOne k) bc txs)) txs.
Proof.
  intros Hnd. apply Forall_forall. intros tx Htx. split; [by apply adopt_foldl_tx|]. apply adopt_foldl_number. by apply list_elem_of_fmap_2.
Qed.

(** Undoing the tip puts its transactions back in flight. *)
Lemma undo_life bc b moved requeue :
  life_wf bc -> tipHolds b moved bc -> Forall (fun tx => tx_Hash tx <> "") moved ->
  let bc' := undoExplorerConfirmLocked b (Some <$> moved) requeue bc in
  life_wf bc' /\ entries bc = entries bc' ++ [(b_BlockNumber b, hashes moved)].
Proof.
  intros [H1 H2 H3 H4 H5] (hist & t & Hh & Hn & Ht & _) Hne. cbv zeta.
  destruct (undoExplorer_spec bc hist t b moved requeue Hh Hn) as (Uh & _ & _ & Um & Up & Uc & _).
  set (bc' := undoExplorerConfirmLocked _ _ _ _) in *.
  assert (He : entries bc = entries bc' ++ [(b_BlockNumber b, hashes moved)]).
  { unfold entries. rewrite Uh, Hh, fmap_app. f_equal. unfold entry. simpl. by rewrite Hn, Ht. }
  assert (Hchain : chainHashes bc = chainHashes bc' ++ hashes moved) by (unfold chainHashes; by rewrite He, bind_app, bind_singleton).
  assert (Hin : inflight bc' ≡ₚ inflight bc ++ moved).
  { unfold inflight. rewrite Um, Up. destruct (String.eqb requeue "mempool"); [|by rewrite app_assoc].
    rewrite <- !app_assoc. f_equiv. apply Permutation_app_comm. }
  split; [|done]. rewrite Hchain in H4, H5. apply NoDup_app in H4 as (Hn1 & Hdis & Hn2). rewrite Forall_forall in H3.
  constructor; [| | |done|].
  - unfold hashes. rewrite Hin, fmap_app. apply NoDup_app. split_and!; [done| |done]. intros h (tx & -> & Htx)%list_elem_of_fmap Hm.
    apply (H3 tx Htx), H5, elem_of_app. by right.
  - rewrite Hin. by apply Forall_app.
  - rewrite Hin, Forall_app, Uc. split; apply Forall_forall; intros tx Htx.
    + specialize (H3 tx Htx). set_solver.
    + apply (list_elem_of_fmap_2 tx_Hash) in Htx. set_solver.
  - intros h Hch. rewrite Uc. apply elem_of_difference. split; [apply H5, elem_of_app; by left|]. rewrite elem_of_list_to_set. by apply Hdis.
Qed.

Section life.
Context {G : GoRand} {R : GoRange} {C : GoConv} {CS RS : Type}.
Implicit Types (h : HandlerEnv CS RS) (n : Node CS RS) (w : World CS) (e : Env CS) (f : Faults CS).

(** What other requests may do while a lock is released: anything that confirms no
    transaction twice. *)
Definition harmless (g : Blockchain -> Blockchain) : Prop := forall bc, life_wf bc -> grows bc (g bc).

Lemma dag_calm bc bc' : dag_only bc bc' -> calm bc bc'.
Proof. intros [-> | ->]; [reflexivity|by apply calm_frame]. Qed.

Lemma durable_calm d bc : calm bc (set_durableHead d bc).
Proof. by apply calm_frame. Qed.

Lemma hashes_pending_fresh bc : life_wf bc -> forall x, x ∈ hashes (pendingBlock bc) -> x ∉ chainHashes bc /\ x ∉ hashes (mempool bc).
Proof.
  intros [H1 _ H3 _ H5] x Hx. unfold inflight in *. split.
  - intros Hc. apply list_elem_of_fmap in Hx as (tx & -> & Htx). rewrite Forall_app, !Forall_forall in H3. by apply (proj2 H3 tx Htx), H5.
  - unfold hashes in H1. rewrite fmap_app in H1. apply NoDup_app in H1 as (_ & Hd & _). intros Hm. by apply (Hd x).
Qed.

(** The block that the loop over [moved] builds, on a chain whose pending block has the
    same hashes. *)
Lemma confirm_loop_life bc1 moved now bc b0 :
  life_wf bc1 -> hashes (pendingBlock bc1) = hashes moved -> foldl confirmOne (openBlock bc1) moved = (bc, b0) ->
  let b := stampBlock now (lastTx (set_pendingBlock [] bc)) b0 in
  let bc2 := appendBlock b (set_pendingBlock [] bc) in
  grows bc1 bc2 /\ tipHolds b moved bc2 /\ entries bc2 = entries bc1 ++ [(b_BlockNumber b, hashes moved)].
Proof.
  intros Hw Hfp El. cbv zeta. unfold openBlock in El. rewrite confirmOne_foldl in El. injection El as Hbc Hb0.
  destruct (blockAdd_foldl (mkBlock (blockCounter bc1) 0 [] 0 0 "" "" "" "" "" 0 0 0 0 0 "" "" ∅ ∅) moved) as (Hn0 & Hh0 & _); [by unfold is_i64, two63|].
  cbn zeta in Hn0, Hh0. cbn [b_BlockNumber b_TxHashes] in Hn0, Hh0. rewrite Hb0 in Hn0, Hh0.
  set (b := stampBlock now _ b0). destruct (stampBlock_fields now (lastTx (set_pendingBlock [] bc)) b0) as (Hn & Hh & _). fold b in Hn, Hh.
  destruct (adopt_foldl_frame (blockCounter bc1) (set_blockCounter (i64 (blockCounter bc1 + 1)) bc1) moved) as (Fm & _ & _ & Fh & _).
  pose proof (adopt_foldl_confirmed (blockCounter bc1) (set_blockCounter (i64 (blockCounter bc1 + 1)) bc1) moved) as Fc.
  cbn [b_BlockNumber] in Hbc. rewrite Hbc in Fm, Fh, Fc. cbn [mempool blockHistory confirmedHashes set_blockCounter] in Fm, Fh, Fc.
  set (bc2 := appendBlock b (set_pendingBlock [] bc)).
  assert (Hchain : entries bc2 = entries bc1 ++ [(b_BlockNumber b, hashes moved)]).
  { unfold entries, bc2. cbn. rewrite Fh, fmap_app. simpl. unfold entry. by rewrite Hh, Hh0. }
  pose proof (hashes_pending_fresh _ Hw) as Hfresh. rewrite Hfp in Hfresh.
  assert (Hnd : NoDup (hashes moved)).
  { rewrite <- Hfp. pose proof (lf_hashes _ Hw) as Hnd. unfold inflight, hashes in Hnd. rewrite fmap_app in Hnd. by apply NoDup_app in Hnd as (_ & _ & ?). }
  split_and!; [|exists (blockHistory bc1), b; split_and!|done].
  - apply (adopt_life bc1 bc2 (b_BlockNumber b) (hashes moved)); [done|done|done|intros x Hx; by apply Hfresh| | |].
    + intros x. unfold bc2. cbn. rewrite Fc. set_solver.
    + unfold inflight, bc2. cbn. rewrite Fm, app_nil_r. by apply submseteq_inserts_r.
    + intros tx Htx Hin. unfold inflight, bc2 in Htx. cbn in Htx. rewrite Fm, app_nil_r in Htx. apply (Hfresh _ Hin). by apply list_elem_of_fmap_2.
  - unfold bc2. cbn. by rewrite Fh.
  - done.
  - by rewrite Hh, Hh0.
  - rewrite Hn, Hn0. unfold bc2. rewrite <- Hbc. exact (adopted_indexed _ _ _ Hnd).
Qed.

Lemma clear_calm bc : calm bc (set_pendingBlock [] bc).
Proof. split_and!; [done..|]. unfold inflight. simpl. rewrite app_nil_r. by apply submseteq_inserts_r. Qed.

Lemma persist_calm f w : calm (w_bc w) (w_bc (persistChain f w).1).
Proof. destruct (persistChain_frame f w) as (_ & _ & d & ->). apply durable_calm. Qed.

Lemma pending_nonempty bc : life_wf bc -> Forall (fun tx => tx_Hash tx <> "") (pendingBlock bc).
Proof. intros Hw. pose proof (lf_nonempty _ Hw) as Hne. by apply Forall_app in Hne as [_ ?]. Qed.

(** Undoing a tip that was built on top of [bc]. *)
Lemma undo_grows bc bc2 b moved requeue :
  life_wf bc2 -> entries bc2 = entries bc ++ [(b_BlockNumber b, hashes moved)] -> tipHolds b moved bc2 -> Forall (fun tx => tx_Hash tx <> "") moved ->
  grows bc (undoExplorerConfirmLocked b (Some <$> moved) requeue bc2).
Proof.
  intros Hw Hc Ht Hne. destruct (undo_life bc2 b moved requeue Hw Ht Hne) as [Hu Hcu]. split; [|done].
  rewrite Hc in Hcu. apply app_inj_2 in Hcu as [-> _]; [done|done].
Qed.

(** A confirmation leaves [bc] with [moved] on top, or it grows in another way. *)
Definition confirmedOn (bc : Blockchain) (b : BlockRecord) (moved : list Transaction) (bc' : Blockchain) : Prop :=
  exists bc1, grows bc bc1 /\ entries bc' = entries bc1 ++ [(b_BlockNumber b, hashes moved)] /\ life_wf bc' /\ tipHolds b moved bc' /\
    Forall (fun tx => tx_Hash tx <> "") moved.

Lemma confirmedOn_grows bc b moved bc' : confirmedOn bc b moved bc' -> grows bc bc'.
Proof. intros (bc1 & [Hg _] & Hc & Hw & _). split; [|done]. etransitivity; [exact Hg|]. rewrite Hc. by apply prefix_app_r. Qed.

Lemma confirmedOn_undo bc b b' moved bc' requeue :
  confirmedOn bc b moved bc' -> b_BlockNumber b' = b_BlockNumber b -> grows bc (undoExplorerConfirmLocked b' (Some <$> moved) requeue bc').
Proof.
  intros (bc1 & Hg & Hc & Hw & (hist & t & Hh & Hn & Ht & Hi) & Hne) Hb. eapply grows_trans; [exact Hg|]. apply (undo_grows bc1 bc'); [done|by rewrite Hb| |done].
  exists hist, t. rewrite Hb. by split_and!.
Qed.

Lemma confirmedOn_after a bc b b' moved bc' :
  grows a bc -> b_BlockNumber b' = b_BlockNumber b -> confirmedOn bc b moved bc' -> confirmedOn a b' moved bc'.
Proof.
  intros Hg Hb (bc1 & Hg1 & Hc & Hw & (hist & t & Hh & Hn & Ht & Hi) & Hne). exists bc1. rewrite <- Hb in Hc. split_and!; [by apply (grows_trans _ bc)..|done|done| |done].
  exists hist, t. rewrite Hb. by split_and!.
Qed.

Lemma L2_life e f meanwhile now w w' r :
  L2ConfirmBlock e f meanwhile now w = (w', r) -> life_wf (w_bc w) -> harmless meanwhile ->
  match r with
  | Ok (moved, b, _) => moved = pendingBlock (w_bc w) /\ confirmedOn (w_bc w) b moved (w_bc w')
  | Err _ => grows (w_bc w) (w_bc w')
  end.
Proof.
  unfold L2ConfirmBlock. intros H Hw Hm. destruct (applyConfirmedTransactions _ _ _ _) as [wa ra] eqn:Ea.
  apply apply_dag, dag_calm, (calm_grows _ _ Hw) in Ea as Ha. destruct ra as [hb|m]; [|by injection H as <- <-]. cbn [w_bc with_bc] in H.
  pose proof (grows_trans _ _ _ Ha (Hm _ (proj2 Ha))) as Hg. set (bc1 := meanwhile (w_bc wa)) in *.
  assert (Hdrop : grows (w_bc w) (set_pendingBlock [] bc1)) by (eapply grows_trans; [exact Hg|apply calm_grows; [apply Hg|apply clear_calm]]).
  destruct (negb (Nat.eqb _ _)); [injection H as <- <-; rewrite abortTOCTOU_bc; exact Hdrop|].
  case_bool_decide as Hfp; cbn [negb] in H; [|injection H as <- <-; rewrite abortTOCTOU_bc; exact Hdrop]. set (moved := pendingBlock (w_bc w)) in *.
  destruct (foldl confirmOne _ _) as [bc b0] eqn:El. destruct (confirm_loop_life bc1 moved now bc b0 (proj2 Hg) Hfp El) as (Hgrow & Htip & Hchain).
  pose proof (pending_nonempty _ Hw) as Hne. destruct (persistChain _ _) as [wp [u|m]] eqn:Ep; injection H as <- <-.
  - split; [done|]. match type of Ep with persistChain f ?x = _ => pose proof (persist_calm f x) as Hp; destruct (persistChain_frame f x) as (_ & _ & d & Hd) end.
    rewrite Ep in Hp, Hd. cbn [fst w_bc with_bc] in Hp, Hd. exists bc1. split; [done|]. rewrite (proj1 Hp). split; [done|].
    split; [by apply (calm_grows _ _ (proj2 Hgrow))|]. by rewrite Hd.
  - apply persistChain_err in Ep as ->. rewrite abortPersist_bc. cbn [w_bc with_bc]. eapply grows_trans; [exact Hg|]. by apply (undo_grows bc1 _ _ moved "pending" (proj2 Hgrow)).
Qed.

(** ** Changes of a block that leave its number and its transactions alone *)

Definition same_entries (bc bc' : Blockchain) : Prop :=
  entries bc' = entries bc /\ confirmedHashes bc' = confirmedHashes bc /\ mempool bc' = mempool bc /\ pendingBlock bc' = pendingBlock bc /\
  transactions bc' = transactions bc /\ blockNumberOf bc' = blockNumberOf bc.

#[local] Instance same_entries_preorder : PreOrder same_entries.
Proof. unfold same_entries. split; [by intros x|]. intros x y z (? & ? & ? & ? & ? & ?) (? & ? & ? & ? & ? & ?). split_and!; congruence. Qed.

Lemma entries_calm bc bc' : same_entries bc bc' -> calm bc bc'.
Proof. intros (He & Hc & Hm & Hp & _). by apply calm_frame. Qed.

Lemma entries_tip bc bc' b moved : same_entries bc bc' -> tipHolds b moved bc -> tipHolds b moved bc'.
Proof.
  intros (He & _ & _ & _ & Htx & Hbn) (hist & t & Hh & Hn & Ht & Hi). unfold entries in He. rewrite Hh, fmap_app in He. destruct (blockHistory bc') as [|t' hist' _] eqn:E using rev_ind; [by destruct (entry <$> hist)|].
  rewrite fmap_app in He. apply app_inj_2 in He as [_ He]; [|done]. injection He as Hn' Ht'. exists hist', t'.
  split_and!; [done|congruence..|]. eapply Forall_impl; [exact Hi|]. unfold indexedAt, BlockNumber. by rewrite Htx, Hbn.
Qed.

Lemma confirmedOn_entries bc b moved bc1 bc2 : confirmedOn bc b moved bc1 -> same_entries bc1 bc2 -> confirmedOn bc b moved bc2.
Proof.
  intros (bc0 & Hg & Hc & Hw & Ht & Hne) He. exists bc0. pose proof (entries_calm _ _ He) as Hcalm. split_and!; [apply Hg..| | | |done].
  - by rewrite (proj1 Hcalm).
  - by apply (calm_grows bc1).
  - by apply (entries_tip bc1).
Qed.

Lemma durable_entries d bc : same_entries bc (set_durableHead d bc).
Proof. done. Qed.

Lemma update_entries k g bc hist' :
  (forall b, entry (g b) = entry b) -> updateFirst k g (blockHistory bc) = Some hist' -> same_entries bc (set_blockHistory hist' bc).
Proof. intros Hg H. apply (updateFirst_column entry) in H; [|done]. by split_and!. Qed.

Lemma header_entries f number hd producer w : same_entries (w_bc w) (w_bc (ApplyBlockHeader f number hd producer w)).
Proof.
  unfold ApplyBlockHeader. destruct (updateFirst _ _ _) as [hist'|] eqn:E; [|reflexivity].
  match goal with |- context [persistChain f ?x] => destruct (persistChain_frame f x) as (_ & _ & d & ->) end.
  etransitivity; [by eapply update_entries, E|apply durable_entries].
Qed.

Lemma votes_entries bc k a b c d ms x y l1 l2 : same_entries bc (SetBlockVoteDetails k l1 l2 (SetBlockVoteCounts k a b c d ms x y bc)).
Proof.
  assert (H1 : same_entries bc (SetBlockVoteCounts k a b c d ms x y bc)).
  { unfold SetBlockVoteCounts. destruct (updateFirst _ _ _) eqn:E; [|reflexivity]. by eapply update_entries, E. }
  etransitivity; [exact H1|]. unfold SetBlockVoteDetails. destruct (updateFirst _ _ _) eqn:E; [|reflexivity]. by eapply update_entries, E.
Qed.

Lemma removeBak_bc f (hb : bool) w : w_bc (if hb then removeBak f w else w) = w_bc w.
Proof. unfold removeBak. by destruct hb, (removeOk f). Qed.

(** ** The durable half of a confirmation *)

Lemma undoNode_life h f b b' moved hb n bc :
  confirmedOn bc b moved (nodeLog n) -> b_BlockNumber b' = b_BlockNumber b -> grows bc (nodeLog (undoNode h f b' (Some <$> moved) hb n)).
Proof.
  intros Hc Hb. unfold nodeLog, undoNode. cbn [n_world Boundary.with_world]. destruct (undo_bc (chainEnv h) f b' (Some <$> moved) hb (n_world n)) as [d ->].
  pose proof (confirmedOn_undo bc b b' moved _ "pending" Hc Hb) as Hg. eapply grows_trans; [exact Hg|]. apply calm_grows; [apply Hg|apply durable_calm].
Qed.

Lemma durable_life h f b b' moved hb n n' r bc :
  DurableCommitAfterExplorer h f b' (Some <$> moved) hb n = (n', r) -> confirmedOn bc b moved (nodeLog n) -> b_BlockNumber b' = b_BlockNumber b ->
  grows bc (nodeLog n') /\ (is_ok r = true -> confirmedOn bc b moved (nodeLog n')).
Proof.
  unfold DurableCommitAfterExplorer. intros H Hc Hb. destruct (confirmFailPoint h).
  - destruct (commitBlockToRocks _ _ _ _ _) as [rs [u|m]]; injection H as <- <-.
    + unfold nodeLog. cbn [n_world]. rewrite removeBak_bc. split; [by eapply confirmedOn_grows|done].
    + split; [|done]. by apply (undoNode_life h f b b').
  - injection H as <- <-. split; [|done]. by apply (undoNode_life h f b b').
  - injection H as <- <-. split; [|done]. by apply (undoNode_life h f b b').
  - injection H as <- <-. split; [|done]. by eapply confirmedOn_grows.
Qed.

Lemma finalize_life h f b moved hb producer n n' r bc :
  FinalizeConfirmedBlock h f b (Some <$> moved) hb producer n = (n', r) -> confirmedOn bc b moved (nodeLog n) ->
  grows bc (nodeLog n') /\ match r with Ok (b', _) => b_BlockNumber b' = b_BlockNumber b /\ confirmedOn bc b moved (nodeLog n') | Err _ => True end.
Proof.
  unfold FinalizeConfirmedBlock. intros H Hc. destruct (assembleBlockHeader _ _ _ _ _ _) as [hd|m].
  - destruct (DurableCommitAfterExplorer _ _ _ _ _ _) as [n1 r1] eqn:Ed. apply (durable_life h f b) with (bc := bc) in Ed as [Hg Hok]; [| |done].
    + injection H as <- <-. split; [done|]. destruct r1 as [c|]; [|done]. by split; [|apply Hok].
    + eapply confirmedOn_entries; [exact Hc|]. apply header_entries.
  - destruct (RocksEnabled h); injection H as <- <-; [split; [by apply (undoNode_life h f b b)|done]|].
    unfold nodeLog. cbn [n_world Boundary.with_world]. assert (Hd : confirmedOn bc b moved (w_bc (persistChain f (if hb then removeBak f (n_world n) else n_world n)).1)).
    { destruct (persistChain_frame f (if hb then removeBak f (n_world n) else n_world n)) as (_ & _ & d & ->). rewrite removeBak_bc. by eapply confirmedOn_entries. }
    split; [by eapply confirmedOn_grows|done].
Qed.

(** ** Whole runs *)

Lemma afterConfirm_entries re h wallet dur b vr st n : same_entries (nodeLog n) (nodeLog (afterConfirm re h wallet dur b vr st n).2).
Proof.
  destruct (afterConfirm _ _ _ _ _ _ _ _) as [st2 n3] eqn:Ea. unfold afterConfirm in Ea.
  repeat (match type of Ea with context [let '(_, _) := ?x in _] => destruct x end). injection Ea as _ <-. exact (votes_entries _ _ _ _ _ _ _ _ _ _ _).
Qed.

Lemma l2run_life re h f wallet sr evs g1 g2 now dur st n st' n' r :
  l2ConfirmBlockRun re h f wallet sr evs g1 g2 now dur st n = (st', n', r) -> life_wf (nodeLog n) -> harmless g1 -> harmless g2 ->
  grows (nodeLog n) (nodeLog n') /\
  match r with Ok (b, moved) => confirmedOn (nodeLog n) b moved (nodeLog n') /\ moved = pendingBlock (g1 (nodeLog n)) | Err _ => True end.
Proof.
  unfold l2ConfirmBlockRun. intros H Hw H1 H2. destruct (pendingBlock (w_bc (n_world n))) as [|p0 ps]; [injection H as <- <- <-; by split; [apply calm_grows|]|].
  destruct (runRound _ _ _ _ _) as [[vr acc] reg]. set (n0 := Boundary.with_world (with_bc (g1 (w_bc (n_world n))) (n_world n)) n) in *.
  pose proof (H1 _ Hw) as Hg0. change (g1 (nodeLog n)) with (nodeLog n0) in Hg0 |- *.
  destruct acc; cbn [negb] in H; [|by injection H as <- <- <-].
  destruct (L2ConfirmBlock _ _ _ _ _) as [w1 res] eqn:El. apply L2_life in El; [|apply Hg0|done]. change (w_bc (n_world n0)) with (nodeLog n0) in El.
  destruct res as [[[moved b] hb]|m].
  - destruct El as [-> Hc]. destruct (FinalizeConfirmedBlock _ _ _ _ _ _ _) as [n2 fin] eqn:Ef.
    apply (finalize_life h f b _ hb) with (bc := nodeLog n0) in Ef as [Hg Hok]; [|exact Hc]. pose proof (grows_trans _ _ _ Hg0 Hg) as Hgn.
    destruct fin as [[b2 c]|m]; [|by injection H as <- <- <-]. destruct Hok as [Hb Hok].
    match type of H with context [afterConfirm ?a ?b ?c ?d ?e ?f ?g ?i] => pose proof (afterConfirm_entries a b c d e f g i) as Ha; destruct (afterConfirm a b c d e f g i) as [st2 n3] end.
    cbn [snd] in Ha. injection H as <- <- <-. apply (confirmedOn_entries _ _ _ _ (nodeLog n3)) in Hok; [|done].
    apply (confirmedOn_after (nodeLog n) _ _ b2) in Hok; [|done..]. split; [by eapply confirmedOn_grows|done].
  - destruct (isTOCTOU m || isPersistAfterApply m); injection H as <- <- <-; (split; [|done]); (eapply grows_trans; [exact Hg0|]); [exact El|].
    eapply grows_trans; [exact El|]. apply calm_grows; [apply El|apply abandon_calm].
Qed.

Lemma l1run_life re p root evs g st bc st' bc' r :
  l1CollectBlockRun re p root evs g st bc = (st', bc', r) -> life_wf bc -> harmless g -> grows bc bc'.
Proof.
  unfold l1CollectBlockRun. intros H Hw Hg. pose proof (pack_calm p (re_myId re) bc) as Hc. destruct (packForL1 p (re_myId re) bc) as [bc1 packed].
  apply (calm_grows _ _ Hw) in Hc. cbn [fst] in Hc. destruct packed as [[selected collect]|m]; [|by injection H as <- <- <-].
  pose proof (grows_trans _ _ _ Hc (Hg _ (proj2 Hc))) as Hg1. destruct (runRound _ _ _ _ _) as [[vr acc] reg]. destruct acc; cbn [negb] in H; [|by injection H as <- <- <-].
  pose proof (collect_calm (Some <$> selected) (g bc1)) as Hl. destruct (L1CollectSelected _ _) as [moved bc2]. injection H as <- <- <-.
  eapply grows_trans; [exact Hg1|]. by apply calm_grows; [apply Hg1|].
Qed.

(** ** Blocks of peers *)

(** The block brings the transactions it names, each once, and none that a block of
    the chain has already. *)
Definition wholeBlock (bc : Blockchain) (b : BlockRecord) (txs : list Transaction) : Prop :=
  b_TxHashes b = hashes txs /\ NoDup (hashes txs) /\ Forall (fun tx => tx_Hash tx <> "") txs /\
  Forall (fun tx => tx_Hash tx ∉ chainHashes bc) txs.

Lemma adoptBlock_life bc b txs : life_wf bc -> wholeBlock bc b txs -> confirmedOn bc b txs (adoptBlock b (Some <$> txs) bc).
Proof.
  intros Hw (Hb & Hnd & Hne & Hout). destruct (adoptBlock_fields b (Some <$> txs) bc) as [Hh _]. rewrite Forall_forall in Hout.
  assert (Hchain : entries (adoptBlock b (Some <$> txs) bc) = entries bc ++ [(b_BlockNumber b, hashes txs)]).
  { unfold entries. rewrite Hh, fmap_app. simpl. unfold entry. by rewrite Hb. }
  exists bc. split; [by apply calm_grows|]. split; [done|]. split; [|split; [exists (blockHistory bc), b; split_and!; [done..|]|done]].
  2:{ unfold adoptBlock. cbv zeta. rewrite nonNil_Some. exact (adopted_indexed _ _ _ Hnd). }
  unfold adoptBlock in *. cbv zeta in *. rewrite nonNil_Some in *. set (bc0 := if (0 <=? _) && _ then _ else _) in *.
  assert (H0 : mempool bc0 = mempool bc /\ pendingBlock bc0 = pendingBlock bc /\ confirmedHashes bc0 = confirmedHashes bc) by (unfold bc0; by destruct (_ && _)).
  destruct H0 as (Hm0 & Hp0 & Hc0). destruct (adopt_foldl_frame (b_BlockNumber b) bc0 txs) as (Fm & Fp & _).
  pose proof (adopt_foldl_confirmed (b_BlockNumber b) bc0 txs) as Fc. rewrite Hm0 in Fm. rewrite Hp0 in Fp. rewrite Hc0 in Fc.
  eapply (adopt_life bc _ (b_BlockNumber b) (hashes txs)); [done|exact Hchain|done| | | |].
  - intros h (tx & -> & Htx)%list_elem_of_fmap. by apply Hout.
  - intros h. cbn. rewrite Fc, Hb, !elem_of_union, !elem_of_list_to_set, list_elem_of_filter. tauto.
  - unfold inflight. cbn. rewrite Fm, Fp. apply submseteq_app; apply filter_submseteq.
  - intros tx Htx Hin. unfold inflight in Htx. cbn in Htx. apply elem_of_app in Htx.
    destruct Htx as [[Hk _]%list_elem_of_filter|[Hk _]%list_elem_of_filter]; by apply Hk, elem_of_list_to_set.
Qed.

Lemma addConfirmed_life e f b txs w w' r :
  AddConfirmedBlock e f id b (Some <$> txs) w = (w', r) -> life_wf (w_bc w) -> wholeBlock (w_bc w) b txs ->
  match r with Ok (Some _) => confirmedOn (w_bc w) b txs (w_bc w') | _ => grows (w_bc w) (w_bc w') end.
Proof.
  unfold AddConfirmedBlock. intros H Hw Hb. destruct (scanHeight b _) as [| |m]; [|injection H as <- <-; by apply calm_grows..].
  destruct (applyConfirmedTransactions _ _ _ _) as [wa ra] eqn:Ea. apply apply_dag, dag_calm in Ea. pose proof (calm_grows _ _ Hw Ea) as Ha.
  destruct ra as [hb|m]; [|by injection H as <- <-]. cbn [id w_bc with_bc] in H. rewrite nonNil_Some in H.
  assert (Hc : confirmedOn (w_bc w) b txs (adoptBlock b (Some <$> txs) (w_bc wa))).
  { eapply confirmedOn_after; [exact Ha|done|]. apply adoptBlock_life; [apply Ha|]. unfold wholeBlock. by rewrite (calm_chain _ _ Ea). }
  assert (Hroll : forall w2, w_bc w2 = adoptBlock b (Some <$> txs) (w_bc wa) ->
    grows (w_bc w) (w_bc (rollbackConfirmLocked e f b (Some <$> txs) hb "mempool" w2).1)).
  { intros w2 Hw2. rewrite rollback_bc, Hw2. by apply (confirmedOn_undo _ b). }
  destruct (String.eqb _ _); [injection H as <- <-; by apply Hroll|].
  destruct (persistChain _ _) as [wp [u|m]] eqn:Ep; injection H as <- <-.
  - match type of Ep with persistChain f ?x = _ => destruct (persistChain_frame f x) as (_ & _ & d & Hd) end.
    rewrite Ep in Hd. cbn [fst w_bc with_bc] in Hd. rewrite Hd. by eapply confirmedOn_entries.
  - apply persistChain_err in Ep as ->. by apply Hroll.
Qed.

Lemma applyPeer_life h f b txs n n' r :
  ApplyPeerConfirmedBlock h f id b (Some <$> txs) n = (n', r) -> life_wf (nodeLog n) -> wholeBlock (nodeLog n) b txs -> grows (nodeLog n) (nodeLog n').
Proof.
  unfold ApplyPeerConfirmedBlock. intros H Hw Hb. destruct (AddConfirmedBlock _ _ _ _ _ _) as [w1 r1] eqn:Ea. apply addConfirmed_life in Ea; [|done..].
  destruct r1 as [[hb|]|m]; [|by injection H as <- <-..]. destruct (DurableCommitAfterExplorer _ _ _ _ _ _) as [n1 r2] eqn:Ed. injection H as <- _.
  by apply (durable_life h f b) with (bc := nodeLog n) in Ed as [Hg _].
Qed.

(** The block and the transactions of an announcement. *)
Definition announcedBlock (ref : positive) (data : jobj) : BlockRecord * list Transaction :=
  (decodeBlock data, (decodeTxs ref (objectsOf (default [] (getArray data "transactions")))).*1).

Lemma received_calm bc (decoded : list (Transaction * Z)) : calm bc (foldl (fun bc tn => setBlockNumber tn.1 tn.2 bc) bc decoded).
Proof. revert bc. induction decoded as [|[tx m] l IH]; intros bc; [reflexivity|]. simpl. etransitivity; [|apply IH]. by apply calm_frame. Qed.

Lemma onBlockConfirmed_life h f ref data n :
  life_wf (nodeLog n) -> wholeBlock (nodeLog n) (announcedBlock ref data).1 (announcedBlock ref data).2 ->
  grows (nodeLog n) (nodeLog (onBlockConfirmed h f id ref data n).1).
Proof.
  intros Hw Hb. unfold onBlockConfirmed. set (decoded := decodeTxs _ _) in *. set (n0 := with_nbc _ n).
  assert (Hc : calm (nodeLog n) (nodeLog n0)) by apply received_calm. pose proof (calm_grows _ _ Hw Hc) as Hg.
  destruct (ApplyPeerConfirmedBlock _ _ _ _ _ _) as [n1 r] eqn:Ea. apply applyPeer_life in Ea; [|apply Hg|].
  - eapply grows_trans; [exact Hg|]. by destruct r as [[]|].
  - unfold wholeBlock in *. by rewrite (calm_chain _ _ Hc).
Qed.

(** ** Admission *)

Lemma index_life marshal f o tx (g g' : Gateway CS) r :
  indexMempoolAdmission marshal f o tx g = (g', r) -> life_wf (g_bc g) -> grows (g_bc g) (g_bc g').
Proof.
  unfold indexMempoolAdmission. intros H Hw. destruct (AddToMempool tx (g_bc g)) as [bc1|e] eqn:E; [|injection H as <- <-; by apply calm_grows].
  pose proof (pool_step_grows _ _ Hw (step_admit _ _ _ E)) as Hg1.
  destruct (AddTransaction_spec tx bc1) as (bc2 & H2 & _); [by eapply AddToMempool_hash|]. rewrite H2 in H.
  pose proof (grows_trans _ _ _ Hg1 (pool_step_grows _ _ (proj2 Hg1) (step_index _ _ _ H2))) as Hg2.
  destruct (Save_frame marshal o tx (with_gbc bc2 g)) as (Sw & _). injection H as <- <-.
  destruct (wantsSnapshot tx); unfold g_bc; cbn [g_world Admission.with_world]; rewrite Sw; [|exact Hg2].
  eapply grows_trans; [exact Hg2|]. apply calm_grows; [apply Hg2|]. apply persist_calm.
Qed.

Lemma admit_life marshal k f o mw tx (g g' : Gateway CS) r :
  admitToMempool marshal k f o mw tx g = (g', r) -> life_wf (g_bc g) -> grows (g_bc g) (g_bc (mw g)) -> grows (g_bc g) (g_bc g').
Proof.
  unfold admitToMempool. intros H Hw Hm. destruct (validateTxForMempool k tx g); [|injection H as <- <-; by apply calm_grows].
  destruct (indexMempoolAdmission marshal f o tx (mw g)) as [g1 r1] eqn:E. apply index_life in E; [|apply Hm].
  pose proof (grows_trans _ _ _ Hm E) as Hg. by destruct r1; injection H as <- <-.
Qed.

(** ** The gateway as a transition system *)

Inductive life_step h : ConsState * Node CS RS -> ConsState * Node CS RS -> Prop :=
| life_pool st n bc : pool_step (nodeLog n) bc -> life_step h (st, n) (st, with_nbc bc n)
| life_admit marshal k f o mw tx (g g' : Gateway CS) r st n :
    g_bc g = nodeLog n -> grows (g_bc g) (g_bc (mw g)) -> admitToMempool marshal k f o mw tx g = (g', r) -> life_step h (st, n) (st, with_nbc (g_bc g') n)
| life_prune rocksConfirmed nonces now st n :
    life_step h (st, n) (st, with_nbc (PruneMempool rocksConfirmed nonces now None (nodeLog n)).1.2 n)
| life_collect re p root evs g st n st' bc' r :
    harmless g -> l1CollectBlockRun re p root evs g st (nodeLog n) = (st', bc', r) -> life_step h (st, n) (st', with_nbc bc' n)
| life_confirm re f wallet sr evs g1 g2 now dur st n st' n' r :
    harmless g1 -> harmless g2 -> l2ConfirmBlockRun re h f wallet sr evs g1 g2 now dur st n = (st', n', r) -> life_step h (st, n) (st', n')
| life_peer f ref data st n :
    wholeBlock (nodeLog n) (announcedBlock ref data).1 (announcedBlock ref data).2 -> life_step h (st, n) (st, (onBlockConfirmed h f id ref data n).1).

Lemma life_step_grows h s s' : life_step h s s' -> life_wf (nodeLog s.2) -> grows (nodeLog s.2) (nodeLog s'.2).
Proof.
  destruct 1 as [st n bc Hp|marshal k f o mw tx g g' r st n Hbc Hm H|rc nonces now st n|re p root evs g st n st' bc' r Hg H|re f wallet sr evs g1 g2 now dur st n st' n' r H1 H2 H|f ref data st n Hb];
    cbn [snd]; intros Hw.
  - by apply pool_step_grows.
  - rewrite <- Hbc in *. by eapply admit_life.
  - apply calm_grows, prune_calm. done.
  - by eapply l1run_life.
  - by eapply l2run_life.
  - by apply onBlockConfirmed_life.
Qed.

Lemma life_steps_grow h s s' : rtc (life_step h) s s' -> life_wf (nodeLog s.2) -> grows (nodeLog s.2) (nodeLog s'.2).
Proof.
  induction 1 as [s|s1 s2 s3 Hstep _ IH]; intros Hw; [by apply calm_grows|].
  pose proof (life_step_grows h s1 s2 Hstep Hw) as H12. exact (grows_trans _ _ _ H12 (IH (proj2 H12))).
Qed.

(** ** Where a hash is *)

Lemma bind_nodup_position {A B} (f : A -> list B) (l : list A) i j a b x :
  NoDup (l ≫= f) -> l !! i = Some a -> l !! j = Some b -> x ∈ f a -> x ∈ f b -> i = j.
Proof.
  revert i j. induction l as [|c l IH]; intros i j Hnd Hi Hj Ha Hb; [done|]. rewrite bind_cons in Hnd. apply NoDup_app in Hnd as (_ & Hd & Hnd).
  assert (Hin : forall k d, l !! k = Some d -> x ∈ f d -> x ∈ l ≫= f) by (intros k d Hk Hx; apply list_elem_of_bind; exists d; split; [done|by eapply list_elem_of_lookup_2]).
  destruct i as [|i], j as [|j]; simpl in Hi, Hj; simplify_eq; [done|exfalso; by eapply Hd, Hin|exfalso; by eapply Hd, Hin|]. f_equal. by eapply IH.
Qed.


End life.

(** ** Witnesses *)

#[local] Instance lifeRand : GoRand := zero_rand.
#[local] Instance lifeRange : GoRange := canonical_range.
#[local] Instance lifeConv : GoConv := zero_conv.

(** The invariant of a chain with nothing in flight that is confirmed already. *)
Lemma life_wf_empty bc : bool_decide (NoDup (hashes (inflight bc))) = true -> bool_decide (Forall (fun tx => tx_Hash tx <> "") (inflight bc)) = true ->
  confirmedHashes bc = ∅ -> blockHistory bc = [] -> life_wf bc.
Proof.
  intros H1%bool_decide_eq_true H2%bool_decide_eq_true Hc Hh. constructor; [done|done| | |].
  - rewrite Hc. apply Forall_forall. intros tx _. apply not_elem_of_empty.
  - unfold chainHashes, entries. rewrite Hh. constructor.
  - unfold chainHashes, entries. rewrite Hh. intros h Hin. by apply not_elem_of_nil in Hin.
Qed.


(** The way of [paidTx] through admission, L1 collection and an L2 run. *)
Definition lifeEntered : Gateway Z := (admitToMempool textOf openConfig noFaults PutOk (fun g => g) paidTx gate0).1.
Definition lifeStart : Node Z unit := with_nbc (g_bc lifeEntered) (mkNode (mkWorld NewBlockchain 0 None None) tt None).
Definition lifeCollected : Node Z unit := with_nbc (L1CollectSelected [Some paidTx] (nodeLog lifeStart)).2 lifeStart.
Definition lifeRun := l2ConfirmBlockRun soloEnv plainHandler noFaults "" "root" [] id id 7 3 emptyCons lifeCollected.
Definition lifeConfirmed : Node Z unit := lifeRun.1.2.


(** ** Confirmed twice *)

(** The legacy confirmation does not mark what it confirms: the same transaction is
    admitted again and confirmed a second time. *)
Example legacy_confirms_twice :
  let start := with_bc (set_mempool [txA] NewBlockchain) demoWorld in
  let w1 := (ConfirmMempoolToChain demoEnv (demoFaults WriteOk) id 7 start).1 in
  (match AddToMempool txA (w_bc w1) with
   | Ok bc2 => chainHashes (w_bc (ConfirmMempoolToChain demoEnv (demoFaults WriteOk) id 8 (with_bc bc2 w1)).1)
   | Err _ => []
   end) = ["hash-a"; "hash-a"].
Proof. vm_compute. reflexivity. Qed.

(** A peer's block that names a hash without bringing the transaction marks it as
    confirmed and leaves it in the mempool, from where the next block takes it once more.
    The block without the transaction gives Core nothing to apply. *)
Example bodiless_block_confirms_twice :
  let start := mkNode (with_bc (set_mempool [txA] NewBlockchain) demoWorld) tt None in
  let n1 := (onBlockConfirmed plainHandler (demoFaults WriteOk) id 20
               [("blockNumber", jint 0); ("blockHash", JString "x"); ("txHashes", JArray [JString "hash-a"])] start).1 in
  let n2 := with_nbc (L1CollectSelected [Some txA] (nodeLog n1)).2 n1 in
  let n3 := (l2ConfirmBlockRun soloEnv plainHandler (demoFaults WriteOk) "" "root" [] id id 7 3 emptyCons n2).1.2 in
  hashes (mempool (nodeLog n1)) = ["hash-a"] /\ entries (nodeLog n3) = [(0, ["hash-a"]); (1, ["hash-a"])].
Proof. vm_compute. by split. Qed.

(** Nothing compares the transactions of a peer's block with those of the chain: a
    block at a new height may repeat a confirmed hash, if Core lets the batch pass. *)
Example peer_block_repeats_hash :
  let data := [("blockNumber", jint 5); ("blockHash", JString "y"); ("txHashes", JArray [JString "hash-a"])] in
  entries (nodeLog (onBlockConfirmed plainHandler (demoFaults WriteOk) id 20 data soloConfirmed.2).1) = [(0, ["hash-a"; "hash-c"]); (5, ["hash-a"])].
Proof. vm_compute. reflexivity. Qed.
