(* ===== verification/DagExchange.v ===== *)
(** * The DAG of transaction batches between nodes (core/dag.go, block_logic.go, handlers.go)

    Gateways exchange vertices of a DAG that Core keeps; when enough batches of a round
    are there, Core commits an order of digests, which a gateway caches in its chain and
    announces. [rpc] is the client of Core, absent outside of RPC mode; [DS] holds the
    client and the DAG store of Core. Integers of the texts that Core and the gateway
    exchange are literals ([JUint]); those of messages between gateways go through the
    decoder and are float64. *)

From S2P Require Import Prelude GoStd GoJson CoreRpc Dag Tx Chain Nodes Consensus Sync.

#[local] Open Scope Z_scope.

(** Both switches are on unless one of four words turns them off. *)
Definition switchedOn (v : string) : bool := negb (bool_decide (ToLower (TrimSpace v) ∈ ["0"; "false"; "no"; "off"])).

Definition DagOrderingEnabled (getenv : string -> string) : bool := switchedOn (getenv "PLATARIUM_DAG_ORDERING").
Definition DagP2PEnabled (getenv : string -> string) : bool := switchedOn (getenv "PLATARIUM_DAG_P2P").

(** ** Vertices *)

Record DagVertexWire := mkVertex {
  dv_ID : string;
  dv_Round : Z;
  dv_Author : string;
  dv_Parents : list string;
  dv_TxDigests : list string
}.

Definition VertexToMap (v : DagVertexWire) : jobj :=
  [("id", JString (dv_ID v)); ("round", jint (dv_Round v)); ("author", JString (dv_Author v));
   ("parents", jstrs (dv_Parents v)); ("tx_digests", jstrs (dv_TxDigests v))].

Definition stringSliceFromAny (raw : option jval) : list string :=
  match raw with Some (JArray l) => stringItems l | _ => [] end.

Definition VertexFromMap {C : GoConv} (m : jobj) : option DagVertexWire :=
  let id := getString m "id" in
  let author := getString m "author" in
  if String.eqb id "" || String.eqb author "" then None
  else
  let round := match jget m "round" with Some (JNumber f) => uint64_of_float f | Some (JUint n) => n | _ => 0 end in
  Some (mkVertex id round author (stringSliceFromAny (jget m "parents")) (stringSliceFromAny (jget m "tx_digests"))).

(** ** Results of Core *)

Record DagInsertResult := mkInserted { di_OK : bool; di_ID : string }.
Record DagOrder := mkOrder { do_OK : bool; do_Digests : list string; do_VertexOrder : list string; do_Tip : string }.
Record DagCommit := mkCommit {
  dc_OK : bool; dc_Committed : bool; dc_Anchor : string; dc_Digests : list string; dc_VertexOrder : list string; dc_Round : Z
}.
Record DagVertexResult := mkVertexResult { dp_OK : bool; dp_Status : string; dp_Vertex : DagVertexWire; dp_Error : string }.
Record DagIngestResult := mkIngested { dg_OK : bool; dg_Status : string; dg_ID : string; dg_Flushed : list string; dg_Error : string }.

Section parse.
Context {C : GoConv}.

(** A struct inside a struct: each entry is read over the fields found so far. *)
Definition asVertex (old : DagVertexWire) (v : jval) : option DagVertexWire :=
  match v with
  | JNull => Some old
  | JObject m =>
      id ← field asString (dv_ID old) m "id"; r ← field asUint64 (dv_Round old) m "round"; a ← field asString (dv_Author old) m "author";
      p ← field asStrings (dv_Parents old) m "parents"; d ← field asStrings (dv_TxDigests old) m "tx_digests"; Some (mkVertex id r a p d)
  | _ => None
  end.

Definition noVertex : DagVertexWire := mkVertex "" 0 "" [] [].

Definition parseInserted (m : jobj) : option DagInsertResult :=
  ok ← field asBool false m "ok"; id ← field asString "" m "id"; Some (mkInserted ok id).

Definition parseLinear (m : jobj) : option DagOrder :=
  ok ← field asBool false m "ok"; ds ← field asStrings [] m "digests"; vo ← field asStrings [] m "vertex_order"; Some (mkOrder ok ds vo "").

Definition parseOrder (m : jobj) : option DagOrder :=
  o ← parseLinear m; tip ← field asString "" m "tip"; Some (mkOrder (do_OK o) (do_Digests o) (do_VertexOrder o) tip).

Definition parseCommit (m : jobj) : option DagCommit :=
  ok ← field asBool false m "ok"; c ← field asBool false m "committed"; a ← field asString "" m "anchor"; ds ← field asStrings [] m "digests";
  vo ← field asStrings [] m "vertex_order"; r ← field asUint64 0 m "round"; Some (mkCommit ok c a ds vo r).

Definition parseGenesis (m : jobj) : option DagVertexResult :=
  ok ← field asBool false m "ok"; s ← field asString "" m "status"; v ← field asVertex noVertex m "vertex"; e ← field asString "" m "error";
  Some (mkVertexResult ok s v e).

(** The missing parents and flushed vertices of a proposal are only checked. *)
Definition parsePropose (m : jobj) : option DagVertexResult :=
  r ← parseGenesis m; _ ← field asStrings [] m "missing_parents"; _ ← field asStrings [] m "flushed"; Some r.

Definition parseIngest (m : jobj) : option DagIngestResult :=
  ok ← field asBool false m "ok"; s ← field asString "" m "status"; id ← field asString "" m "id"; _ ← field asStrings [] m "missing_parents";
  fl ← field asStrings [] m "flushed"; e ← field asString "" m "error"; Some (mkIngested ok s id fl e).
End parse.

Section rpc.
Context {DS : Type} {C : GoConv} (jsonOf : string -> option jval) (rpc : option (string -> jobj -> DS -> DS * result coreOut)).
Implicit Types ds : DS.

Definition rpcParsed {A} (method : string) (params : jobj) (parse : jobj -> option A) ds : DS * result A :=
  match rpc with
  | None => (ds, Err (method +:+ " requires PLATARIUM_CORE_MODE=rpc"))
  | Some call =>
      let '(ds, r) := call method params ds in
      (ds, match r with
           | Err e => Err e
           | Ok out => match m ← structFields (decodeOut jsonOf out); parse m with Some a => Ok a | None => Err ("parse " +:+ method) end
           end)
  end.

Definition orN0 (name : string) : string := if String.eqb name "" then "n0" else name.

(** [dag_reset] hands its text on unread. *)
Definition DagReset ds : DS * result unit :=
  match rpc with
  | None => (ds, Err "dag_reset requires PLATARIUM_CORE_MODE=rpc")
  | Some call => let '(ds, r) := call "dag_reset" [] ds in (ds, match r with Ok _ => Ok () | Err e => Err e end)
  end.

Definition DagInsert (round : Z) (author : string) (parents txDigests : list string) ds : DS * result DagInsertResult :=
  rpcParsed "dag_insert"
    [("vertex", JObject [("round", JUint round); ("author", JString author); ("parents", jstrs parents); ("tx_digests", jstrs txDigests)])]
    parseInserted ds.

Definition DagLinearize (anchor : string) ds : DS * result DagOrder := rpcParsed "dag_linearize" [("anchor", JString anchor)] parseLinear ds.

Definition DagTryCommit (round : Z) (committee : list string) (f : Z) ds : DS * result DagCommit :=
  rpcParsed "dag_try_commit" [("round", JUint round); ("committee", jstrs committee); ("f", JUint f)] parseCommit ds.

Definition RpcDagOrder (producer : string) (digests : list string) ds : DS * result DagOrder :=
  rpcParsed "dag_order_digests" [("producer", JString (orN0 producer)); ("digests", jstrs digests)] parseOrder ds.

Definition DagEnsureGenesis ds : DS * result DagVertexResult := rpcParsed "dag_ensure_genesis" [] parseGenesis ds.

Definition DagTryCommitBatches (batchRound : Z) (committee : list string) (f : option Z) ds : DS * result DagCommit :=
  rpcParsed "dag_try_commit_batches"
    ([("batch_round", JUint batchRound); ("committee", jstrs committee)] ++ match f with Some f => [("f", JUint f)] | None => [] end)
    parseCommit ds.

Definition DagLastCommit ds : DS * result DagCommit := rpcParsed "dag_last_commit" [] parseCommit ds.

Definition DagPropose (round : Z) (author : string) (parents txDigests : list string) ds : DS * result DagVertexResult :=
  rpcParsed "dag_propose"
    [("round", JUint round); ("author", JString (orN0 author)); ("parents", jstrs parents); ("tx_digests", jstrs txDigests)]
    parsePropose ds.

Definition DagIngest (v : DagVertexWire) ds : DS * result DagIngestResult :=
  rpcParsed "dag_ingest"
    [("vertex", JObject [("id", JString (dv_ID v)); ("round", JUint (dv_Round v)); ("author", JString (dv_Author v));
                         ("parents", jstrs (dv_Parents v)); ("tx_digests", jstrs (dv_TxDigests v))])]
    parseIngest ds.

(** ** The gateway *)

(** [rust] tells whether the gateway has a Core; [peers] are the connected nodes. *)
Record DagEnv := mkDagEnv { de_getenv : string -> string; de_rust : bool; de_myId : string; de_peers : list string }.

Definition broadcast : Type := string * jobj.

Definition commitMessage (anchor : string) (digests : list string) : broadcast :=
  ("dag:commit", [("anchor", JString anchor); ("digests", jstrs digests)]).

(** [applyDagCommit] with its announcement. *)
Definition announceDagCommit (anchor : string) (digests : list string) (bc : Blockchain) : Blockchain * list broadcast :=
  match digests with [] => (bc, []) | _ => (SetDagCommitDigests anchor digests bc, [commitMessage anchor digests]) end.

Definition maybeTryDagBatchCommit (e : DagEnv) (bc : Blockchain) ds : Blockchain * DS * list broadcast :=
  if negb (DagP2PEnabled (de_getenv e)) || negb (de_rust e) then (bc, ds, [])
  else match BuildDagCommittee (de_myId e) (de_peers e) with
  | [] => (bc, ds, [])
  | committee =>
      let '(ds, r) := DagTryCommitBatches 1 committee None ds in
      match r with
      | Ok res => if dc_Committed res then let '(bc, out) := announceDagCommit (dc_Anchor res) (dc_Digests res) bc in (bc, ds, out) else (bc, ds, [])
      | Err _ => (bc, ds, [])
      end
  end.

Definition proposable (tx : Transaction) : bool := nonEmpty (tx_Hash tx) && negb (String.eqb (tx_From tx) FaucetAddress).

Definition maybeProposeAndBroadcastDag (e : DagEnv) (txs : list Transaction) (bc : Blockchain) ds : Blockchain * DS * list broadcast :=
  if negb (DagP2PEnabled (de_getenv e)) || negb (de_rust e) || bool_decide (txs = []) then (bc, ds, [])
  else match hashes (filter (fun tx => proposable tx = true) txs) with
  | [] => (bc, ds, [])
  | digests =>
      let '(ds, gen) := DagEnsureGenesis ds in
      match gen with
      | Err _ => (bc, ds, [])
      | Ok gen =>
          let '(ds, prop) := DagPropose 1 (orN0 (de_myId e)) [dv_ID (dp_Vertex gen)] digests ds in
          match prop with
          | Err _ => (bc, ds, [])
          | Ok prop =>
              if String.eqb (dp_Status prop) "rejected" then (bc, ds, [])
              else
              let '(bc, ds, out) := maybeTryDagBatchCommit e bc ds in
              (bc, ds, [("dag:vertex", VertexToMap (dp_Vertex gen)); ("dag:vertex", VertexToMap (dp_Vertex prop))] ++ out)
          end
      end
  end.

Definition onDagVertex (e : DagEnv) (payload : jobj) (bc : Blockchain) ds : Blockchain * DS * list broadcast :=
  if negb (DagP2PEnabled (de_getenv e)) || negb (de_rust e) then (bc, ds, [])
  else match VertexFromMap payload with
  | None => (bc, ds, [])
  | Some v =>
      let '(ds, r) := DagIngest v ds in
      match r with Err _ => (bc, ds, []) | Ok _ => maybeTryDagBatchCommit e bc ds end
  end.

Definition onDagCommit (e : DagEnv) (payload : jobj) (bc : Blockchain) : Blockchain :=
  if negb (DagP2PEnabled (de_getenv e)) then bc
  else match stringSliceFromAny (jget payload "digests") with
  | [] => bc
  | digests => SetDagCommitDigests (getString payload "anchor") digests bc
  end.
End rpc.

(** ** What the exchange promises *)

Lemma stringItems_strs l : stringItems (JString <$> l) = l.
Proof. unfold stringItems. induction l as [|s l IH]; simpl; [done|]. by f_equal. Qed.

(** a vertex survives the trip to a peer. What one gateway broadcasts for a vertex
    is read by the other one as the same vertex: id, round, author, parents and
    digests in order; id and author must not be empty and the round be below 2^53. *)
Theorem vertex_roundtrip {C : GoConv} v (Hid : dv_ID v <> "") (Hauthor : dv_Author v <> "") (Hround : 0 <= dv_Round v < 2 ^ 53) :
  VertexFromMap (VertexToMap v) = Some v.
Proof.
  destruct v as [id r a p d]. simpl in Hid, Hauthor, Hround. unfold VertexFromMap, VertexToMap, getString. cbn.
  rewrite !(proj2 (String.eqb_neq _ _)) by done. cbn. rewrite !stringItems_strs.
  by rewrite float64_u64_exact.
Qed.

Section exchange.
Context {DS : Type} {C : GoConv} (jsonOf : string -> option jval) (rpc : option (string -> jobj -> DS -> DS * result coreOut)).

(** The chain after an operation and its announcement of the commit it cached. *)
Definition commitOnly (bc bc' : Blockchain) (out : list broadcast) : Prop :=
  exists commit, bc' = match commit with Some (a, ds) => applyDagCommit a ds bc | None => bc end /\
    filter (fun m => m.1 = "dag:commit") out =
      match commit with Some (a, (d :: ds)) => [commitMessage a (d :: ds)] | _ => [] end.

Lemma tryCommit_only e bc ds : let '(bc', _, out) := maybeTryDagBatchCommit jsonOf rpc e bc ds in commitOnly bc bc' out.
Proof.
  unfold maybeTryDagBatchCommit. assert (Hnone : commitOnly bc bc []) by (by exists None).
  destruct (_ || _); [done|]. destruct (BuildDagCommittee _ _) as [|n l]; [done|].
  destruct (DagTryCommitBatches _ _ _ _ _ _) as [ds1 [res|m]]; [|done]. destruct (dc_Committed res); [|done].
  unfold announceDagCommit. destruct (dc_Digests res) as [|d dl]; [done|]. by exists (Some (dc_Anchor res, d :: dl)).
Qed.

Lemma onDagVertex_only e payload bc ds : let '(bc', _, out) := onDagVertex jsonOf rpc e payload bc ds in commitOnly bc bc' out.
Proof.
  unfold onDagVertex. destruct (_ || _); [by exists None|]. destruct (VertexFromMap payload); [|by exists None].
  destruct (DagIngest _ _ _ _) as [ds1 [res|m]]; [|by exists None]. apply tryCommit_only.
Qed.

Lemma propose_only e txs bc ds : let '(bc', _, out) := maybeProposeAndBroadcastDag jsonOf rpc e txs bc ds in commitOnly bc bc' out.
Proof.
  unfold maybeProposeAndBroadcastDag. destruct (_ || _); [by exists None|]. destruct (hashes _) as [|d dl]; [by exists None|].
  destruct (DagEnsureGenesis _ _ _) as [ds1 [gen|m]]; [|by exists None]. destruct (DagPropose _ _ _ _ _ _ _) as [ds2 [prop|m]]; [|by exists None].
  destruct (String.eqb _ _); [by exists None|]. pose proof (tryCommit_only e bc ds2) as H.
  destruct (maybeTryDagBatchCommit _ _ _ _ _) as [[bc' ds3] out]. destruct H as (commit & -> & Ho). by exists commit.
Qed.

(** [bc'] differs from [bc] by a newly cached order at most; if it does, [out] holds one
    announcement, and whoever takes an announcement of [out] in sorts batches alike. *)
Definition sharedCommit (bc bc' : Blockchain) (out : list broadcast) : Prop :=
  (bc' = bc \/ exists a d dl, bc' = SetDagCommitDigests a (d :: dl) bc) /\
  (bc' = bc \/ exists m, filter (fun m => m.1 = "dag:commit") out = [m]) /\
  forall m e bc2, m ∈ out -> m.1 = "dag:commit" -> DagP2PEnabled (de_getenv e) = true ->
    let bc2' := onDagCommit e m.2 bc2 in
    dagCommitAnchor bc2' = dagCommitAnchor bc' /\ dagCommitDigests bc2' = dagCommitDigests bc' /\
    forall batch, PermuteByDigests tx_Hash (dagCommitDigests bc2') batch = PermuteByDigests tx_Hash (dagCommitDigests bc') batch.

Lemma commitOnly_shared bc bc' out : commitOnly bc bc' out -> sharedCommit bc bc' out.
Proof.
  intros (commit & -> & Ho).
  destruct commit as [[a [|d dl]]|]; unfold sharedCommit; cbn [applyDagCommit].
  2:{ split_and!; [right; by exists a, d, dl|right; by eexists|]. intros m e bc2 Hm He Hp.
      assert (Hin : m ∈ [commitMessage a (d :: dl)]) by (rewrite <- Ho; by apply list_elem_of_filter).
      apply list_elem_of_singleton in Hin as ->. unfold onDagCommit. rewrite Hp. cbn. rewrite stringItems_strs. done. }
  all: split_and!; [by left..|]; intros m e bc2 Hm He; exfalso; eapply (elem_of_nil (A := broadcast)); rewrite <- Ho; by apply list_elem_of_filter.
Qed.

(** gateways agree on a committed order. Proposing a batch and receiving a vertex
    change nothing of a chain but its cached order of digests; and whenever they cache
    one, exactly one announcement goes out, and every gateway that takes it in has the
    same anchor and the same order cached afterwards, so that both sort a batch of
    transactions alike. *)
Theorem dag_commit_shared e bc ds payload txs :
  (let '(bc', _, out) := maybeProposeAndBroadcastDag jsonOf rpc e txs bc ds in sharedCommit bc bc' out) /\
  (let '(bc', _, out) := onDagVertex jsonOf rpc e payload bc ds in sharedCommit bc bc' out).
Proof.
  pose proof (propose_only e txs bc ds) as H1. pose proof (onDagVertex_only e payload bc ds) as H2.
  destruct (maybeProposeAndBroadcastDag _ _ _ _ _ _) as [[? ?] ?], (onDagVertex _ _ _ _ _ _) as [[? ?] ?].
  split; by apply commitOnly_shared.
Qed.
End exchange.

(** ** Witnesses *)

Lemma vertex_roundtrip_witness :
  @VertexFromMap zero_conv (VertexToMap (mkVertex "v1" 1 "n1" ["genesis"] ["h1"; "h2"])) = Some (mkVertex "v1" 1 "n1" ["genesis"] ["h1"; "h2"]).
Proof. apply (@vertex_roundtrip zero_conv); simpl; [discriminate|discriminate|lia]. Defined.

(** A Core that commits the digests of every round at once. *)
Definition eagerCore (method : string) (params : jobj) (n : Z) : Z * result coreOut :=
  (n + 1, Ok (OutJson (JObject (
    if String.eqb method "dag_try_commit_batches" then [("ok", JBool true); ("committed", JBool true); ("anchor", JString "a1"); ("digests", jstrs ["h2"; "h1"])]
    else [("ok", JBool true); ("status", JString "stored"); ("vertex", JObject [("id", JString "v"); ("author", JString "n1"); ("round", JUint 1)])])))).

Example batch_is_announced :
  let e := mkDagEnv (fun _ => "") true "n1" ["n2"] in
  let '(bc, n, out) := @onDagVertex Z zero_conv (fun _ => None) (Some eagerCore) e (VertexToMap (mkVertex "v1" 1 "n2" [] ["h1"])) NewBlockchain 0 in
  dagCommitDigests bc = ["h2"; "h1"] /\ n = 2 /\ out = [commitMessage "a1" ["h2"; "h1"]] /\
  dagCommitDigests (onDagCommit e (commitMessage "a1" ["h2"; "h1"]).2 NewBlockchain) = ["h2"; "h1"].
Proof. vm_compute. split_and!; reflexivity. Qed.
