(* ===== verification/Faucet.v ===== *)
(** * The testnet faucet (faucet/cooldown.go, handlers.go, blockchain.go)

    The cooldown store keeps the second of the last claim per address, in memory and
    in a file; a claim is recorded before the credit and released when the credit
    fails. Times are nanoseconds since the epoch, durations nanoseconds in an int64.
    [writes] tells whether the file can be replaced.

    No address is credited twice within its cooldown, the credited amount is exact,
    and a wait is reported in full. *)

From S2P Require Import Prelude GoStd Dag Tx Chain Confirm ConfirmSpec.
From stdpp Require Import pretty sorting.

#[local] Open Scope Z_scope.

Definition nanos : Z := 1000000000.
Definition hour : Z := 3600 * nanos.
Definition defaultCooldown : Z := 24 * hour.

(** [now.Unix()]. *)
Definition unixOf (now : Z) : Z := now / nanos.

Record CooldownStore := mkCooldown { cd_cooldown : Z; cd_claims : gmap string Z; cd_file : option (gmap string Z) }.

(** [load]: the claims, and what the file holds; [content] is [Err] when it cannot be
    read or parsed, [Ok None] when it is missing. *)
Definition loadClaims (content : result (option (gmap string Z))) : result (gmap string Z * option (gmap string Z)) :=
  match content with
  | Err m => Err m
  | Ok None => Ok (∅, None)
  | Ok (Some claims) => Ok (claims, Some claims)
  end.

(** [NewCooldownStore]. *)
Definition NewCooldownStore (cooldown : Z) (content : result (option (gmap string Z))) : result CooldownStore :=
  let cooldown := if cooldown <=? 0 then defaultCooldown else cooldown in
  match loadClaims content with
  | Err m => Err m
  | Ok (claims, file) => Ok (mkCooldown cooldown claims file)
  end.

Definition normalizeAddress (address : string) : string := TrimSpace address.

Definition with_claims (c : gmap string Z) (s : CooldownStore) : CooldownStore := mkCooldown (cd_cooldown s) c (cd_file s).

Definition persistLocked (writes : bool) (s : CooldownStore) : CooldownStore * result unit :=
  if writes then (mkCooldown (cd_cooldown s) (cd_claims s) (Some (cd_claims s)), Ok ()) else (s, Err "write cooldown file").

(** [time.Unix(last, 0).Add(cooldown)]. *)
Definition nextClaim (s : CooldownStore) (last : Z) : Z := last * nanos + cd_cooldown s.

(** [next.Sub(now)]: a duration saturates. *)
Definition subTime (a b : Z) : Z := Z.max minInt64 (Z.min maxInt64 (a - b)).

Definition Remaining (address : string) (now : Z) (s : CooldownStore) : Z :=
  let key := normalizeAddress address in
  if String.eqb key "" then 0
  else match cd_claims s !! key with
  | None => 0
  | Some last => if last <=? 0 then 0 else if now <? nextClaim s last then subTime (nextClaim s last) now else 0
  end.

Definition RecordClaim (writes : bool) (address : string) (now : Z) (s : CooldownStore) : CooldownStore * result unit :=
  let key := normalizeAddress address in
  if String.eqb key "" then (s, Err "address required")
  else persistLocked writes (with_claims (<[key := unixOf now]> (cd_claims s)) s).

(** The wait that is left: 0 on success. *)
Definition TryClaim (writes : bool) (address : string) (now : Z) (s : CooldownStore) : CooldownStore * result Z :=
  let key := normalizeAddress address in
  if String.eqb key "" then (s, Err "address required")
  else
  let early := match cd_claims s !! key with
               | Some last => if (0 <? last) && (now <? nextClaim s last) then Some (subTime (nextClaim s last) now) else None
               | None => None
               end in
  match early with
  | Some wait => (s, Ok wait)
  | None =>
      match persistLocked writes (with_claims (<[key := unixOf now]> (cd_claims s)) s) with
      | (s', Ok _) => (s', Ok 0)
      | (s', Err m) =>
          (with_claims (match cd_claims s !! key with Some prev => <[key := prev]> (cd_claims s') | None => delete key (cd_claims s') end) s', Err m)
      end
  end.

Definition ReleaseClaim (writes : bool) (address : string) (s : CooldownStore) : CooldownStore * result unit :=
  let key := normalizeAddress address in
  if String.eqb key "" then (s, Err "address required")
  else persistLocked writes (with_claims (delete key (cd_claims s)) s).

(** ** FormatWait *)

Definition plural (n : Z) : string := if n =? 1 then "" else "s".

Definition part (n : Z) (unit : string) : string := pretty n +:+ " " +:+ unit +:+ plural n.

(** [int(d.Seconds())] is the whole seconds of a non-negative duration; the float64
    sum behind it rounds a fraction up only from about 200 days on. *)
Definition FormatWait (d : Z) : Z * Z * Z * string :=
  let total := (if d <? 0 then 0 else d) / nanos in
  let hours := total / 3600 in
  let minutes := (total mod 3600) / 60 in
  let seconds := total mod 60 in
  let parts := (if 0 <? hours then [part hours "hour"] else []) ++ (if 0 <? minutes then [part minutes "minute"] else []) in
  let parts := parts ++ (if (0 <? seconds) || bool_decide (parts = []) then [part seconds "second"] else []) in
  (hours, minutes, seconds, String.concat " " parts).

(** ** Configuration *)

Definition faucetCooldownFromEnv (getenv : string -> string) : Z :=
  let v := TrimSpace (getenv "PLATARIUM_FAUCET_COOLDOWN_HOURS") in
  if String.eqb v "" then defaultCooldown
  else let '(hours, ok) := ParseInt v in if ok && (0 <? hours) then i64 (hours * hour) else defaultCooldown.

Definition MelancholyFaucetAmountPLP : Z := 5000.

Definition faucetAmountFromEnv (getenv : string -> string) : Z :=
  let v := TrimSpace (getenv "PLATARIUM_FAUCET_AMOUNT_PLP") in
  if String.eqb v "" then MelancholyFaucetAmountPLP
  else let '(n, ok) := ParseUint v in if ok && (0 <? n) then n else MelancholyFaucetAmountPLP.

Definition isValidFaucetAddress (address : string) : bool :=
  let a := TrimSpace address in (8 <=? len a) && (len a <=? 128) && HasPrefix a "Px".

(** ** The credit *)

Section faucet.
Context {CS : Type} {R : GoRange}.
Implicit Types (w : World CS) (e : Env CS) (f : Faults CS).

Definition faucetTx (ref : positive) (now : Z) (to : string) (amountUplp : Z) : Transaction :=
  mkTx ref ("faucet-" +:+ pretty now +:+ "-" +:+ to) FaucetAddress to (FormatUint amountUplp) "0" 0 (unixOf now) "faucet" "native"
    "" "" "" "" "" "" amountUplp 0 [] [] "" "" "" 0 None "" "" "".

Definition InstantFaucetCredit e f (ref : positive) (now : Z) (to : string) (plp : Z) w : World CS * result Transaction :=
  if plp =? 0 then (w, Err "faucet amount must be positive")
  else if maxUint64 / MicroPLPPerPLP <? plp then (w, Err "faucet amount too large")
  else
  let amountUplp := plp * MicroPLPPerPLP in
  match ledger e with
  | None => (w, Err "core ledger unavailable")
  | Some ls =>
      match Credit ls to amountUplp 0 (w_state w) with
      | (cs, Err m) => (with_state cs w, Err m)
      | (cs, Ok _) =>
          let w := with_state cs w in
          let tx := faucetTx ref now to amountUplp in
          match AddTransaction tx (w_bc w) with
          | Err m => (w, Err m)
          | Ok bc =>
              match persistChain f (with_bc bc w) with
              | (w, Err m) => (w, Err m)
              | (w, Ok _) => (w, Ok tx)
              end
          end
      end
  end.

Inductive FaucetAnswer :=
| FaucetRefused (status : Z)
| FaucetWait (wait : Z)
| FaucetCredited (tx : Transaction) (amount nextClaimAt : Z).

(** One request: its time, its body, the disk, the clock of the credit. *)
Record FaucetCall := mkFaucetCall {
  fc_now : Z; fc_address : string; fc_writes : bool; fc_writes2 : bool; fc_faults : Faults CS; fc_ref : positive; fc_stamp : Z
}.

(** [Faucet] after the request is decoded; [store] may be missing. *)
Definition Faucet e (testnet : bool) (amountPLP : Z) (c : FaucetCall) (store : option CooldownStore) w
  : World CS * option CooldownStore * FaucetAnswer :=
  if negb testnet then (w, store, FaucetRefused 403)
  else match ledger e with
  | None => (w, store, FaucetRefused 503)
  | Some _ =>
      let address := TrimSpace (fc_address c) in
      if negb (isValidFaucetAddress address) then (w, store, FaucetRefused 400)
      else match store with
      | None => (w, store, FaucetRefused 503)
      | Some s =>
          match TryClaim (fc_writes c) address (fc_now c) s with
          | (s, Err _) => (w, Some s, FaucetRefused 503)
          | (s, Ok wait) =>
              if 0 <? wait then (w, Some s, FaucetWait wait)
              else
              let amount := if amountPLP =? 0 then MelancholyFaucetAmountPLP else amountPLP in
              match InstantFaucetCredit e (fc_faults c) (fc_ref c) (fc_stamp c) address amount w with
              | (w, Err _) => (w, Some (ReleaseClaim (fc_writes2 c) address s).1, FaucetRefused 400)
              | (w, Ok tx) => (w, Some s, FaucetCredited tx amount (unixOf (fc_now c + cd_cooldown s)))
              end
          end
      end
  end.

(** [FaucetCooldown]: what the address still has to wait. *)
Definition FaucetCooldown (address : string) (now : Z) (store : option CooldownStore) : result Z :=
  let address := TrimSpace address in
  if negb (isValidFaucetAddress address) then Err "address required"
  else Ok (match store with Some s => Remaining address now s | None => 0 end).
End faucet.
Arguments FaucetCall CS : clear implicits.

(** * Contracts of the faucet *)

Lemma claim_cases writes a now s s' r :
  TryClaim writes a now s = (s', r) -> cd_cooldown s' = cd_cooldown s /\
  match r with
  | Ok wait =>
      if 0 <? wait then s' = s
      else (wait = 0 -> cd_claims s' = <[TrimSpace a := unixOf now]> (cd_claims s)) /\
           (forall last, cd_claims s !! TrimSpace a = Some last -> 0 < last -> nextClaim s last <= now)
  | Err _ => cd_claims s' = cd_claims s
  end.
Proof.
  unfold TryClaim, normalizeAddress. destruct (String.eqb _ _); [by intros [= <- <-]|].
  destruct (match cd_claims s !! TrimSpace a with Some last => _ | None => None end) as [wait|] eqn:Ee.
  - intros [= <- <-]. split; [done|]. destruct (cd_claims s !! TrimSpace a) as [last|] eqn:El; [|done].
    destruct ((0 <? last) && (now <? nextClaim s last)) eqn:E; [|done]. apply andb_true_iff in E as [E1 E2].
    injection Ee as <-. unfold subTime. rewrite (proj2 (Z.ltb_lt _ _)); [done|]. unfold minInt64, maxInt64. lia.
  - unfold persistLocked. destruct writes; intros [= <- <-]; (split; [done|]).
    + simpl. split; [done|]. intros last El Hl. rewrite El in Ee. destruct ((0 <? last) && (now <? nextClaim s last)) eqn:E; [done|].
      apply andb_false_iff in E as [E|E]; [lia|]. lia.
    + cbn [cd_claims with_claims]. destruct (cd_claims s !! TrimSpace a) as [prev|] eqn:El.
      * rewrite insert_insert_eq. by apply insert_id.
      * by apply delete_insert_id.
Qed.

Lemma subTime_pos_or_zero writes a now s s' wait : TryClaim writes a now s = (s', Ok wait) -> 0 <= wait.
Proof.
  unfold TryClaim. destruct (String.eqb _ _); [done|].
  destruct (match cd_claims s !! normalizeAddress a with Some last => _ | None => None end) as [x|] eqn:Ee.
  - intros [= <- <-]. destruct (cd_claims s !! _) as [last|]; [|done]. destruct (_ && _) eqn:E; [|done]. injection Ee as <-.
    apply andb_true_iff in E as [_ E]. unfold subTime, minInt64, maxInt64. lia.
  - unfold persistLocked. destruct writes; intros [= <- <-]. lia.
Qed.

Section faucet.
Context {CS : Type} {R : GoRange}.
Implicit Types (w : World CS) (e : Env CS) (c : FaucetCall CS).

(** The successful credits of a sequence of requests: time and address. *)
Fixpoint grants e testnet amount (calls : list (FaucetCall CS)) (store : option CooldownStore) w : list (Z * string) :=
  match calls with
  | [] => []
  | c :: calls' =>
      let '(w', store', a) := Faucet e testnet amount c store w in
      match a with
      | FaucetCredited _ _ _ => [(fc_now c, TrimSpace (fc_address c))]
      | _ => []
      end ++ grants e testnet amount calls' store' w'
  end.

Lemma release_claims writes a s : TrimSpace a <> "" ->
  cd_cooldown (ReleaseClaim writes a s).1 = cd_cooldown s /\ cd_claims (ReleaseClaim writes a s).1 = delete (TrimSpace a) (cd_claims s).
Proof.
  intros Ha. unfold ReleaseClaim, normalizeAddress, persistLocked. rewrite (proj2 (String.eqb_neq _ _) Ha). by destruct writes.
Qed.

Lemma claim_key writes a now s s' wait : TryClaim writes a now s = (s', Ok wait) -> TrimSpace a <> "".
Proof. unfold TryClaim, normalizeAddress. destruct (String.eqb_spec (TrimSpace a) ""); [done|done]. Qed.

(** One request, as far as the store is concerned. *)
Lemma faucet_store e testnet amount c s w w' store' a :
  Faucet e testnet amount c (Some s) w = (w', store', a) ->
  exists s', store' = Some s' /\ cd_cooldown s' = cd_cooldown s /\
  let key := TrimSpace (fc_address c) in
  let due := forall last, cd_claims s !! key = Some last -> 0 < last -> nextClaim s last <= fc_now c in
  match a with
  | FaucetCredited _ _ _ => cd_claims s' = <[key := unixOf (fc_now c)]> (cd_claims s) /\ due
  | _ => cd_claims s' = cd_claims s \/ (cd_claims s' = delete key (cd_claims s) /\ due)
  end.
Proof.
  cbv zeta. intros H. unfold Faucet in H. destruct testnet; cbn [negb] in H; [|injection H as <- <- <-; exists s; auto].
  destruct (ledger e) as [ls|]; [|injection H as <- <- <-; exists s; auto].
  destruct (isValidFaucetAddress _); cbn [negb] in H; [|injection H as <- <- <-; exists s; auto].
  destruct (TryClaim (fc_writes c) (TrimSpace (fc_address c)) (fc_now c) s) as [s1 r] eqn:Et.
  pose proof (claim_cases _ _ _ _ _ _ Et) as [Hcd Hcase]. rewrite TrimSpace_idemp in Hcase.
  destruct r as [wait|m]; [|injection H as <- <- <-; exists s1; auto].
  pose proof (subTime_pos_or_zero _ _ _ _ _ _ Et) as Hge. pose proof (claim_key _ _ _ _ _ _ Et) as Hkey.
  destruct (Z.ltb_spec 0 wait) as [Hw|Hw]; [subst s1; injection H as <- <- <-; exists s; auto|].
  destruct Hcase as [Hc Hlast]. specialize (Hc ltac:(lia)).
  destruct (InstantFaucetCredit _ _ _ _ _ _ _) as [w1 [tx|m]]; injection H as <- <- <-; [exists s1; auto|].
  destruct (release_claims (fc_writes2 c) (TrimSpace (fc_address c)) s1 Hkey) as [Hr1 Hr2]. rewrite TrimSpace_idemp in Hr2.
  eexists. split; [done|]. rewrite Hr1, Hr2, Hc. split; [done|]. right. by rewrite delete_insert_eq.
Qed.

(** Either the claim on record lets nobody through before [bound], or the clock is past it. *)
Definition guarded (key : string) (bound T : Z) (s : CooldownStore) : Prop :=
  bound <= T \/ exists last, cd_claims s !! key = Some last /\ 0 < last /\ bound <= nextClaim s last.

Lemma guarded_step e testnet amount c s w w' s' a key bound T :
  Faucet e testnet amount c (Some s) w = (w', Some s', a) -> T <= fc_now c -> nanos <= fc_now c ->
  guarded key bound T s -> guarded key bound (fc_now c) s'.
Proof.
  intros H HT Hpos Hg. apply faucet_store in H as (s1 & [= <-] & Hcd & H). cbv zeta in H.
  destruct Hg as [Hg|(last & Hl & Hlp & Hb)]; [left; lia|].
  destruct (decide (key = TrimSpace (fc_address c))) as [->|Hk].
  - destruct a as [st|wait|tx am nx]; (destruct H as [H|[H Hdue]] || destruct H as [H Hdue]);
      first [left; specialize (Hdue last Hl Hlp); lia|right; exists last; rewrite H; unfold nextClaim in *; by rewrite Hcd].
  - right. exists last. unfold nextClaim in *. rewrite Hcd. split; [|done].
    destruct a as [st|wait|tx am nx]; (destruct H as [->|[-> _]] || destruct H as [-> _]);
      rewrite ?lookup_insert_ne, ?lookup_delete_ne by done; done.
Qed.

Lemma guarded_grants e testnet amount calls s w key bound T :
  guarded key bound T s -> StronglySorted Z.le (T :: (fc_now <$> calls)) -> Forall (fun c => nanos <= fc_now c) calls ->
  Forall (fun g => g.2 = key -> bound <= g.1) (grants e testnet amount calls (Some s) w).
Proof.
  intros Hg Hs Hpos. revert s w T Hg Hs. induction calls as [|c calls IH]; intros s w T Hg Hs; [constructor|]. cbn [grants].
  destruct (Faucet e testnet amount c (Some s) w) as [[w1 store1] a] eqn:Ef. apply Forall_cons in Hpos as [Hp Hpos].
  inversion Hs as [|? ? Hs' HT]; subst. apply Forall_cons in HT as [HT _].
  pose proof (faucet_store _ _ _ _ _ _ _ _ _ Ef) as (s1 & -> & Hcd & Hcase). cbv zeta in Hcase.
  apply Forall_app. split.
  - destruct a as [st|wait|tx am nx]; [constructor|constructor|]. apply Forall_singleton. simpl. intros <-.
    destruct Hcase as [_ Hdue]. destruct Hg as [Hg|(last & Hl & Hlp & Hb)]; [lia|]. specialize (Hdue last Hl Hlp). lia.
  - apply (IH Hpos s1 w1 (fc_now c)); [by eapply guarded_step|done].
Qed.


(** the credited amount. A successful request credited the address at Core with
    exactly the configured PLP in micro units, no product wrapped, and the explorer
    shows a faucet transaction of that value; a request that has to wait changes
    neither Core nor the explorer. *)
Theorem faucet_credit_exact e testnet amount c s w w' store' a
  (Hrun : Faucet e testnet amount c (Some s) w = (w', store', a)) (Hamount : is_u64 amount) :
  match a with
  | FaucetCredited tx plp _ =>
      plp = (if amount =? 0 then MelancholyFaucetAmountPLP else amount) /\ 0 < plp * MicroPLPPerPLP <= maxUint64 /\
      (exists ls, ledger e = Some ls /\
        Credit ls (TrimSpace (fc_address c)) (plp * MicroPLPPerPLP) 0 (w_state w) = (w_state w', Ok ())) /\
      tx_To tx = TrimSpace (fc_address c) /\ tx_AmountUplp tx = plp * MicroPLPPerPLP /\ tx_From tx = FaucetAddress /\
      transactions (w_bc w') !! tx_Hash tx = Some tx
  | FaucetWait _ => w' = w
  | FaucetRefused _ => True
  end.
Proof.
  unfold Faucet in Hrun. destruct testnet; cbn [negb] in Hrun; [|by injection Hrun as <- <- <-].
  destruct (ledger e) as [ls|] eqn:El; [|by injection Hrun as <- <- <-].
  destruct (isValidFaucetAddress _); cbn [negb] in Hrun; [|by injection Hrun as <- <- <-].
  destruct (TryClaim _ _ _ _) as [s1 [wait|m]]; [|by injection Hrun as <- <- <-].
  destruct (0 <? wait); [by injection Hrun as <- <- <-|]. set (plp := if amount =? 0 then _ else _) in *.
  destruct (InstantFaucetCredit _ _ _ _ _ _ _) as [w1 [tx|m]] eqn:Ei; injection Hrun as <- <- <-; [|done]. split; [done|].
  unfold InstantFaucetCredit in Ei. destruct (Z.eqb_spec plp 0) as [|Hne]; [done|]. destruct (Z.ltb_spec (maxUint64 / MicroPLPPerPLP) plp) as [|Hle]; [done|].
  rewrite El in Ei. destruct (Credit _ _ _ _ _) as [cs [[]|m]] eqn:Ec; [|done].
  destruct (AddTransaction _ _) as [bc|m] eqn:Ea; [|done]. destruct (persistChain _ _) as [wp [u|m]] eqn:Ep; [|done]. injection Ei as <- <-.
  assert (Hwp : w_state wp = cs /\ transactions (w_bc wp) = transactions bc).
  { apply persistChain_ok in Ep as [[-> _]|(_ & _ & ->)]; done. }
  destruct Hwp as [-> ->]. assert (0 <= plp) by (unfold plp, is_u64, MelancholyFaucetAmountPLP in *; destruct (amount =? 0); lia).
  split; [unfold MicroPLPPerPLP, maxUint64 in *; split; [lia|]; pose proof (Z.mul_div_le 18446744073709551615 1000000); nia|].
  split; [by exists ls|]. split; [done|]. split; [done|]. split; [done|].
  unfold AddTransaction in Ea. destruct (String.eqb _ _); [done|]. injection Ea as <-. cbn [transactions appendAddr set_addressTxs set_lastTx set_transactions].
  by rewrite lookup_insert_eq.
Qed.
End faucet.

Lemma format_wait_exact d : 0 <= d ->
  let '(hours, minutes, seconds, _) := FormatWait d in
  hours * 3600 + minutes * 60 + seconds = d / nanos /\ 0 <= minutes < 60 /\ 0 <= seconds < 60.
Proof.
  intros Hd. unfold FormatWait. rewrite (proj2 (Z.ltb_ge _ _)) by done. set (t := d / nanos).
  assert (0 <= t) by (apply Z.div_pos; unfold nanos; lia).
  pose proof (Z.div_mod t 3600). pose proof (Z.mod_pos_bound t 3600). pose proof (Z.div_mod (t mod 3600) 60).
  pose proof (Z.mod_pos_bound t 60). pose proof (Z.mod_pos_bound (t mod 3600) 60).
  assert (Hm : (t mod 3600) mod 60 = t mod 60) by (apply Z.mod_mod_divide; by exists 60).
  split; [lia|]. split; [|lia]. split; [apply Z.div_pos; lia|]. apply Z.div_lt_upper_bound; lia.
Qed.

(** ** Witnesses *)

#[local] Instance faucetRange : GoRange := canonical_range.

Definition claimant : string := "Px00112233".
Definition drip (now : Z) (wr : writeOutcome) : FaucetCall Z := mkFaucetCall now claimant true true (demoFaults wr) 9 now.
Definition emptyCooldown : CooldownStore := mkCooldown defaultCooldown ∅ None.


Lemma faucet_credit_exact_witness :
  exists w' store' tx, Faucet demoEnv true 0 (drip (5 * nanos) WriteOk) (Some emptyCooldown) demoWorld =
    (w', store', FaucetCredited tx 5000 (unixOf (5 * nanos + defaultCooldown))) /\ tx_AmountUplp tx = 5000 * MicroPLPPerPLP.
Proof.
  destruct (Faucet demoEnv true 0 (drip (5 * nanos) WriteOk) (Some emptyCooldown) demoWorld) as [[w' store'] a] eqn:E.
  pose proof (faucet_credit_exact _ _ _ _ _ _ _ _ _ E ltac:(unfold is_u64, two64; lia)) as H.
  assert (Ha : exists tx, a = FaucetCredited tx 5000 (unixOf (5 * nanos + defaultCooldown))).
  { change a with (snd (w', store', a)). rewrite <- E. eexists. vm_compute. reflexivity. }
  destruct Ha as [tx ->]. exists w', store', tx. split; [reflexivity|]. apply H.
Defined.

(** A chain.json that cannot be written: Core has credited the address, the request
    is refused and the claim released, so the next request is credited again. *)
Example faucet_credits_refused_request :
  let '(w1, s1, a1) := Faucet demoEnv true 0 (drip (5 * nanos) TempFails) (Some emptyCooldown) demoWorld in
  let '(w2, s2, a2) := Faucet demoEnv true 0 (drip (6 * nanos) TempFails) s1 w1 in
  a1 = FaucetRefused 400 /\ a2 = FaucetRefused 400 /\ w_state w2 = w_state demoWorld + 2 * (5000 * MicroPLPPerPLP).
Proof. vm_compute. split_and!; reflexivity. Qed.
