(* ===== verification/ChannelIdentity.v ===== *)
(** * The registry of channel owners (channelidentity/store.go, handlers_channel_identity.go)

    Records by canonical address, written to a file after every change. [writes]
    tells whether the file can be written; a failure is ignored. *)

From S2P Require Import Prelude GoStd GoJson Tx Chain ContactEconomy Ownership Messaging MessagingSpec.

#[local] Open Scope Z_scope.

Record ChannelRecord := mkRecord { ci_Address : string; ci_OwnerAddress : string; ci_Name : string; ci_Kind : string; ci_CreatedAt : Z }.

Record ChannelStore := mkRegistry { ci_byID : gmap string ChannelRecord; ci_file : option (list ChannelRecord) }.

Definition CanonPx (addr : string) : string :=
  let v := TrimSpace addr in
  if len v <? 4 then ""
  else if HasPrefix v "Px" || HasPrefix v "px" || HasPrefix v "PX" then
    let hex := ToLower (str_drop 2 v) in
    if negb (hexDigits hex) then ""
    else if len hex <? 8 then "" else "Px" +:+ hex
  else "".

Definition GetRecord (address : string) (s : ChannelStore) : option ChannelRecord := ci_byID s !! CanonPx address.

Section registry.
Context {R : GoRange}.

Definition saveLocked (writes : bool) (s : ChannelStore) : ChannelStore :=
  if writes then mkRegistry (ci_byID s) (Some (range (ci_byID s)).*2) else s.

Definition PutRecord (writes : bool) (now : Z) (rec : ChannelRecord) (s : ChannelStore) : ChannelStore * ChannelRecord :=
  let address := CanonPx (ci_Address rec) in
  let kind := if String.eqb (ci_Kind rec) "" then "channel" else ci_Kind rec in
  let created := if ci_CreatedAt rec =? 0 then now else ci_CreatedAt rec in
  let created := match ci_byID s !! address with
                 | Some old => if 0 <? ci_CreatedAt old then ci_CreatedAt old else created
                 | None => created
                 end in
  let rec := mkRecord address (CanonPx (ci_OwnerAddress rec)) (ci_Name rec) kind created in
  (saveLocked writes (mkRegistry (<[address := rec]> (ci_byID s)) (ci_file s)), rec).

Definition loadOne (m : gmap string ChannelRecord) (rec : ChannelRecord) : gmap string ChannelRecord :=
  let id := CanonPx (ci_Address rec) in
  if String.eqb id "" then m
  else <[id := mkRecord id (CanonPx (ci_OwnerAddress rec)) (ci_Name rec)
                 (if String.eqb (ci_Kind rec) "" then "channel" else ci_Kind rec) (ci_CreatedAt rec)]> m.

(** [load]: what the file holds replaces the registry. *)
Definition loadRecords (l : list ChannelRecord) : ChannelStore := mkRegistry (foldl loadOne ∅ l) (Some l).

(** [NewStore]: a missing file is an empty registry, one that cannot be parsed an error. *)
Definition NewChannelStore (content : result (option (list ChannelRecord))) : result ChannelStore :=
  match content with
  | Err m => Err m
  | Ok None => Ok (mkRegistry ∅ None)
  | Ok (Some l) => Ok (loadRecords l)
  end.

(** [PutChannelIdentity] after decoding; [wallet] is the X-Platarium-Wallet header. *)
Definition PutChannelIdentity (writes : bool) (now : Z) (wallet : string) (body : ChannelRecord) (store : option ChannelStore)
  : option ChannelStore * result ChannelRecord :=
  match store with
  | None => (store, Err "channel identity unavailable")
  | Some s =>
      let wallet := CanonPx wallet in
      let owner := CanonPx (ci_OwnerAddress body) in
      let addr := CanonPx (ci_Address body) in
      if String.eqb wallet "" || String.eqb owner "" || String.eqb addr "" || negb (String.eqb wallet owner)
      then (store, Err "owner wallet header required")
      else
      let '(s, saved) := PutRecord writes now (mkRecord addr owner (ci_Name body) (ci_Kind body) (ci_CreatedAt body)) s in
      (Some s, Ok saved)
  end.

Definition GetChannelIdentity (address : string) (store : option ChannelStore) : result (option ChannelRecord) :=
  match store with
  | None => Err "channel identity unavailable"
  | Some s => Ok (GetRecord (TrimSpace address) s)
  end.
End registry.

(** ** Canonical addresses *)

Lemma CanonPx_shape a : CanonPx a <> "" ->
  exists hex, CanonPx a = "Px" +:+ hex /\ hexDigits hex = true /\ ToLower hex = hex /\ 8 <= len hex.
Proof.
  unfold CanonPx. destruct (len _ <? 4); [done|]. destruct (_ || _); [|done]. set (hex := ToLower _).
  destruct (hexDigits hex) eqn:Eh; [|done]. destruct (Z.ltb_spec (len hex) 8); [done|]. intros _. exists hex.
  split; [done|]. split; [done|]. split; [apply ToLower_idemp|done].
Qed.

Lemma CanonPx_idemp a : CanonPx (CanonPx a) = CanonPx a.
Proof.
  destruct (decide (CanonPx a = "")) as [->|Hne]; [done|]. destruct (CanonPx_shape a Hne) as (hex & -> & Hh & Hl & Hlen).
  unfold CanonPx. rewrite px_trimmed.
  2:{ unfold isHexString. rewrite Hh, andb_true_r. destruct hex; [done|done]. }
  assert (Hlen2 : len ("Px" +:+ hex) = 2 + len hex) by (unfold len; change (String.length ("Px" +:+ hex)) with (S (S (String.length hex))); lia).
  rewrite Hlen2, (proj2 (Z.ltb_ge _ _)) by lia. assert (HasPrefix ("Px" +:+ hex) "Px" = true) as -> by (unfold HasPrefix; rewrite !str_app_cons; by destruct hex). cbn [orb].
  change (str_drop 2 ("Px" +:+ hex)) with hex. rewrite Hl, Hh. cbn [negb]. by rewrite (proj2 (Z.ltb_ge _ _)) by lia.
Qed.

(** ** The registry *)

(** Records are filed under their own canonical address and normalised. *)
Definition filed (id : string) (r : ChannelRecord) : Prop :=
  id <> "" /\ CanonPx id = id /\ ci_Address r = id /\ CanonPx (ci_OwnerAddress r) = ci_OwnerAddress r /\ ci_Kind r <> "".

Definition registry_wf (s : ChannelStore) : Prop := map_Forall filed (ci_byID s).

Lemma load_filed (m : gmap string ChannelRecord) (l : list (string * ChannelRecord)) :
  NoDup l.*1 -> Forall (fun kv => filed kv.1 kv.2) l ->
  foldl loadOne m l.*2 = list_to_map l ∪ m.
Proof.
  revert m. induction l as [|[id r] l IH]; intros m Hnd Hf; simpl; [by rewrite (left_id_L ∅ (∪))|].
  apply NoDup_cons in Hnd as [Hid Hnd]. apply Forall_cons in Hf as [(Hne & Hc & Ha & Ho & Hk) Hf]. simpl in *.
  rewrite (IH _ Hnd Hf). unfold loadOne. rewrite Ha, Hc, (proj2 (String.eqb_neq _ _) Hne), Ho, (proj2 (String.eqb_neq _ _) Hk).
  rewrite <- insert_union_r by (by apply not_elem_of_list_to_map_1). rewrite <- insert_union_l. f_equal. destruct r; simpl in *; by subst.
Qed.

Section registry_spec.
Context {R : GoRange}.

Lemma reload s : registry_wf s -> foldl loadOne ∅ (range (ci_byID s)).*2 = ci_byID s.
Proof.
  intros Hwf. rewrite load_filed.
  - rewrite (right_id_L ∅ (∪)). rewrite <- (list_to_map_to_list (ci_byID s)) at 2. apply list_to_map_proper; [|apply range_perm].
    apply range_keys_nodup.
  - apply range_keys_nodup.
  - apply Forall_forall. intros [id r] Hin. apply elem_of_range in Hin. by apply Hwf.
Qed.

Lemma put_wf writes now rec s :
  registry_wf s -> CanonPx (ci_Address rec) <> "" -> registry_wf (PutRecord writes now rec s).1.
Proof.
  intros Hwf Ha. unfold PutRecord, saveLocked, registry_wf.
  assert (Hf : filed (CanonPx (ci_Address rec)) (PutRecord writes now rec s).2).
  { unfold PutRecord, filed. simpl. rewrite !CanonPx_idemp. split_and!; try done. by destruct (String.eqb_spec (ci_Kind rec) ""). }
  destruct writes; simpl; by apply map_Forall_insert_2.
Qed.

(** the registry survives a restart. Along the route that stores a channel,
    every record stays filed under its canonical address with a canonical owner, and
    when the file is written a gateway started from it has the same registry: the
    channel is found under any spelling of its address, with the record that the
    request was answered with. *)
Theorem channel_registry_survives_restart now wallet body s s' saved spelling
  (Hwf : registry_wf s) (Hput : PutChannelIdentity true now wallet body (Some s) = (Some s', Ok saved))
  (Hspell : CanonPx (TrimSpace spelling) = CanonPx (ci_Address body)) :
  registry_wf s' /\
  exists s2, NewChannelStore (Ok (ci_file s')) = Ok s2 /\ ci_byID s2 = ci_byID s' /\
    GetChannelIdentity spelling (Some s2) = Ok (Some saved) /\ ci_OwnerAddress saved = CanonPx wallet.
Proof.
  unfold PutChannelIdentity in Hput. destruct (_ || _) eqn:E; [done|].
  rewrite !orb_false_iff, negb_false_iff in E. destruct E as [[[_ _] Ha] Hw]. apply String.eqb_neq in Ha. apply String.eqb_eq in Hw.
  set (rec := mkRecord _ _ _ _ _) in Hput.
  assert (Hrec : CanonPx (ci_Address rec) = CanonPx (ci_Address body)) by apply CanonPx_idemp.
  pose proof (put_wf true now rec s Hwf ltac:(by rewrite Hrec)) as Hwf'.
  destruct (PutRecord true now rec s) as [s1 r] eqn:Ep. injection Hput as -> ->. split; [done|].
  assert (Hfile : ci_file s' = Some (range (ci_byID s')).*2) by (unfold PutRecord in Ep; by injection Ep as <- _).
  rewrite Hfile. eexists. split; [done|]. cbn [ci_byID]. unfold loadRecords. rewrite (reload s' Hwf'). split; [done|].
  unfold GetChannelIdentity, GetRecord. cbn [ci_byID]. rewrite Hspell, <- Hrec. unfold PutRecord in Ep. injection Ep as <- <-.
  cbn [ci_byID saveLocked ci_OwnerAddress]. rewrite lookup_insert_eq. split; [done|]. subst rec. cbn [ci_OwnerAddress]. by rewrite CanonPx_idemp.
Qed.
End registry_spec.

(** ** Witness *)

#[local] Instance registryRange : GoRange := canonical_range.

Definition channelOf (owner : string) : ChannelRecord := mkRecord " pxABCDEF0123 " owner "news" "" 0.

Lemma channel_registry_survives_restart_witness :
  exists s' saved s2,
    PutChannelIdentity true 7 "Px00000001" (channelOf "PX00000001") (Some (mkRegistry ∅ None)) = (Some s', Ok saved) /\
    NewChannelStore (Ok (ci_file s')) = Ok s2 /\ GetChannelIdentity "Pxabcdef0123" (Some s2) = Ok (Some saved).
Proof.
  destruct (PutChannelIdentity true 7 "Px00000001" (channelOf "PX00000001") (Some (mkRegistry ∅ None))) as [[s'|] [saved|m]] eqn:E;
    try (exfalso; vm_compute in E; discriminate E).
  destruct (channel_registry_survives_restart 7 "Px00000001" (channelOf "PX00000001") (mkRegistry ∅ None) s' saved "Pxabcdef0123")
    as (_ & s2 & H2 & _ & H3 & _); [by intros id r|exact E|vm_compute; reflexivity|].
  exists s', saved, s2. split; [reflexivity|]. split; [exact H2|exact H3].
Defined.

(** The route compares the header with the body, not with the stored owner: whoever
    names his own wallet takes over an existing channel. *)
Example channel_takeover :
  let s1 := (PutChannelIdentity true 7 "Px00000001" (channelOf "Px00000001") (Some (mkRegistry ∅ None))).1 in
  let s2 := (PutChannelIdentity true 8 "Px00000002" (channelOf "Px00000002") s1).1 in
  (option_map ci_OwnerAddress <$> match GetChannelIdentity "Pxabcdef0123" s1 with Ok r => Some r | Err _ => None end) = Some (Some "Px00000001") /\
  (option_map ci_OwnerAddress <$> match GetChannelIdentity "Pxabcdef0123" s2 with Ok r => Some r | Err _ => None end) = Some (Some "Px00000002").
Proof. vm_compute. split; reflexivity. Qed.
