(* ===== verification/GoText.v ===== *)
(** * More of strings, strconv and sort: base 16, Fields, Slice

    What the read-only routes, the metrics and the daemon use beyond GoStd, and the
    page arithmetic that the listings of transactions and of accounts share: the page
    number is clamped to the last page, and the slice expression panics outside of its
    bounds. [pages_concat] shows that it never does and that the pages partition the
    list. *)

From S2P Require Import Prelude GoStd Sha256.
From stdpp Require Import sorting pretty.
From Stdlib Require Import Ascii.

#[local] Open Scope Z_scope.

(** ** Base 16 *)

Definition hexValue (c : ascii) : option Z :=
  let n := Z.of_N (N_of_ascii c) in
  if (48 <=? n) && (n <=? 57) then Some (n - 48)
  else if (97 <=? n) && (n <=? 102) then Some (n - 87)
  else if (65 <=? n) && (n <=? 70) then Some (n - 55)
  else None.

Fixpoint hexDigits_value (acc : Z) (s : string) : option Z :=
  match s with
  | EmptyString => Some acc
  | String c s' => match hexValue c with Some d => hexDigits_value (acc * 16 + d) s' | None => None end
  end.

(** [strconv.ParseInt(s, 16, 64)]. *)
Definition ParseIntHex (s : string) : Z * bool :=
  let '(neg, body) := split_sign s in
  match (match body with EmptyString => None | _ => hexDigits_value 0 body end) with
  | None => (0, false)
  | Some n =>
      if neg then (if n <=? two63 then (- n, true) else (minInt64, false))
      else (if n <=? maxInt64 then (n, true) else (maxInt64, false))
  end.

(** The verb [%x] of an integer. The fuel, one more than the binary logarithm, is
    at least the number of hexadecimal digits. *)
Fixpoint hexLoop (fuel : nat) (n : Z) (acc : string) : string :=
  match fuel with
  | O => acc
  | S f => let acc := String (hexDigit (n mod 16)) acc in if n <? 16 then acc else hexLoop f (n / 16) acc
  end.

Definition hexOf (n : Z) : string := hexLoop (S (Z.to_nat (Z.log2 n))) n "".

Definition FormatHex (n : Z) : string := if n <? 0 then String "-" (hexOf (- n)) else hexOf n.

(** [fmt.Sprintf("0x%x", n)]. *)
Definition quantity (n : Z) : string := "0x" +:+ FormatHex n.

Lemma hexDigit_value d : 0 <= d < 16 -> hexValue (hexDigit d) = Some d.
Proof.
  intros H. assert (Hin : d ∈ seqZ 0 16) by (apply elem_of_seqZ; lia).
  clear H. revert d Hin. apply Forall_forall, (bool_decide_eq_true_1 _). vm_compute. reflexivity.
Qed.

Lemma hexDigit_graphic d : 0 <= d < 16 -> graphic (hexDigit d) = true.
Proof.
  intros H. assert (Hin : d ∈ seqZ 0 16) by (apply elem_of_seqZ; lia).
  clear H. revert d Hin. apply Forall_forall, (bool_decide_eq_true_1 _). vm_compute. reflexivity.
Qed.

Lemma hexDigit_unsigned d t : 0 <= d < 16 -> split_sign (String (hexDigit d) t) = (false, String (hexDigit d) t).
Proof.
  intros H. assert (Hin : d ∈ seqZ 0 16) by (apply elem_of_seqZ; lia). clear H. revert d Hin. apply Forall_forall.
  unfold seqZ. simpl. repeat constructor.
Qed.

Lemma hexLoop_value fuel n acc :
  0 <= n < 16 ^ Z.of_nat fuel -> (0 < fuel)%nat -> hexDigits_value 0 (hexLoop fuel n acc) = hexDigits_value n acc.
Proof.
  revert n acc. induction fuel as [|fuel IH]; intros n acc Hn Hf; [lia|]. cbn [hexLoop].
  pose proof (Z.mod_pos_bound n 16 eq_refl) as Hm. pose proof (Z.div_mod n 16 ltac:(done)) as Hd.
  assert (Hstep : forall v, hexDigits_value v (String (hexDigit (n mod 16)) acc) = hexDigits_value (v * 16 + n mod 16) acc)
    by (intros v; cbn [hexDigits_value]; by rewrite hexDigit_value).
  destruct (Z.ltb_spec n 16) as [Hlt|Hge].
  - rewrite Hstep. f_equal. rewrite Z.mod_small; lia.
  - rewrite Nat2Z.inj_succ, Z.pow_succ_r in Hn by lia.
    rewrite IH; [rewrite Hstep; f_equal; lia| |destruct fuel; simpl in Hn; lia].
    split; [apply Z.div_pos; lia|apply Z.div_lt_upper_bound; lia].
Qed.

Lemma hexLoop_first fuel n acc :
  0 <= n -> (0 < fuel)%nat -> exists d t, hexLoop fuel n acc = String (hexDigit d) t /\ 0 <= d < 16.
Proof.
  revert n acc. induction fuel as [|fuel IH]; intros n acc Hn Hf; [lia|]. cbn [hexLoop].
  pose proof (Z.mod_pos_bound n 16 eq_refl) as Hm.
  destruct (n <? 16); [by eexists _, _|]. destruct fuel as [|f]; [by eexists _, _|].
  apply IH; [apply Z.div_pos; lia|lia].
Qed.

Lemma hexLoop_tail fuel n acc : exists p, hexLoop fuel n acc = p +:+ acc.
Proof.
  revert n acc. induction fuel as [|fuel IH]; intros n acc; cbn [hexLoop]; [by exists ""|].
  destruct (n <? 16); [by exists (String (hexDigit (n mod 16)) "")|].
  destruct (IH (n / 16) (String (hexDigit (n mod 16)) acc)) as [p ->].
  exists (p +:+ String (hexDigit (n mod 16)) ""). by rewrite str_app_assoc.
Qed.

Lemma hexOf_first n : 0 <= n -> exists d t, hexOf n = String (hexDigit d) t /\ 0 <= d < 16.
Proof. intros H. apply hexLoop_first; lia. Qed.

Lemma hexOf_last n : 0 <= n -> exists d p, hexOf n = p +:+ String (hexDigit d) "" /\ 0 <= d < 16.
Proof.
  intros H. unfold hexOf. cbn [hexLoop]. pose proof (Z.mod_pos_bound n 16 eq_refl).
  destruct (n <? 16); [by exists (n mod 16), ""|].
  destruct (hexLoop_tail (Z.to_nat (Z.log2 n)) (n / 16) (String (hexDigit (n mod 16)) "")) as [p ->]. by eexists _, _.
Qed.

Lemma hexOf_value n : 0 <= n -> hexDigits_value 0 (hexOf n) = Some n.
Proof.
  intros H. unfold hexOf. rewrite hexLoop_value; [done| |lia]. split; [done|].
  destruct (decide (n = 0)) as [->|Hne]; [done|].
  rewrite Nat2Z.inj_succ, Z2Nat.id by apply Z.log2_nonneg.
  apply (Z.lt_le_trans _ (2 ^ Z.succ (Z.log2 n))); [apply Z.log2_spec; lia|].
  apply Z.pow_le_mono_l. lia.
Qed.

(** [%x] and [ParseInt] with base 16 are inverse on 64-bit integers. *)
Lemma hex_int_roundtrip n : is_i64 n -> ParseIntHex (FormatHex n) = (n, true).
Proof.
  unfold is_i64, ParseIntHex, FormatHex. intros H.
  destruct (Z.ltb_spec n 0) as [Hneg|Hpos].
  - cbn [split_sign]. destruct (hexOf_first (- n)) as (d & t & E & _); [lia|].
    pose proof (hexOf_value (- n) ltac:(lia)) as V. rewrite E in *. rewrite V.
    rewrite (proj2 (Z.leb_le _ _)) by lia. f_equal. lia.
  - destruct (hexOf_first n Hpos) as (d & t & E & Hd). pose proof (hexOf_value n Hpos) as V. rewrite E in *.
    pose proof (hexDigit_unsigned d t Hd) as Hs.
    rewrite Hs, V, (proj2 (Z.leb_le _ _)); [done|]. unfold maxInt64, two63 in *. lia.
Qed.

Lemma quantity_trimmed n : TrimSpace (quantity n) = quantity n.
Proof.
  assert (Hl : exists p d, quantity n = p +:+ String (hexDigit d) "" /\ 0 <= d < 16).
  { unfold quantity, FormatHex. destruct (Z.ltb_spec n 0).
    - destruct (hexOf_last (- n)) as (d & p & -> & Hd); [lia|]. exists ("0x-" +:+ p), d. by rewrite str_app_assoc.
    - destruct (hexOf_last n) as (d & p & -> & Hd); [lia|]. exists ("0x" +:+ p), d. by rewrite str_app_assoc. }
  destruct Hl as (p & d & E & Hd).
  change (quantity n) with (String "0" (String "x" (FormatHex n))) in *.
  apply (TrimSpace_graphic "0" _ (hexDigit d) (str_rev p)); [done|by apply hexDigit_graphic|].
  rewrite E, str_rev_append. done.
Qed.

(** ** strings.Fields and strings.LastIndex *)

(** [skip] bytes of a multi-byte space are still to be passed over; [word] is the
    current word, reversed. *)
Fixpoint fieldsLoop (skip : nat) (word : string) (s : string) : list string :=
  let flush rest := if String.eqb word "" then rest else str_rev word :: rest in
  match s with
  | EmptyString => flush []
  | String c s' =>
      match skip with
      | S k => fieldsLoop k word s'
      | O =>
          match filter (fun p => HasPrefix s p = true) space_runes with
          | p :: _ => flush (fieldsLoop (pred (String.length p)) "" s')
          | [] => fieldsLoop 0 (String c word) s'
          end
      end
  end.

Definition Fields (s : string) : list string := fieldsLoop 0 "" s.

(** [strings.LastIndex]: -1 when absent. *)
Fixpoint lastIndexFrom (i : Z) (s p : string) : Z :=
  let later := match s with EmptyString => -1 | String _ s' => lastIndexFrom (i + 1) s' p end in
  if 0 <=? later then later else if HasPrefix s p then i else -1.

Definition LastIndex (s p : string) : Z := lastIndexFrom 0 s p.

Example fields_demo : Fields "  ab c d " = ["ab"; "c"; "d"] /\ LastIndex "a)b)c" ")" = 3.
Proof. split; vm_compute; reflexivity. Qed.

(** ** sort.Slice

    A permutation in which no later element is less than an earlier one, for a
    comparison that is a strict weak order; the order of equal elements is open. *)
Record StrictWeak {T} (less : T -> T -> bool) : Prop := mkStrictWeak {
  sw_asym : forall a b, less a b = true -> less b a = false;
  sw_trans : forall a b c, notLess less a b -> notLess less b c -> notLess less a c
}.

Class GoSort := {
  sortSlice : forall {T : Type}, (T -> T -> bool) -> list T -> list T;
  sortSlice_perm : forall {T} (less : T -> T -> bool) l, sortSlice less l ≡ₚ l;
  sortSlice_sorted : forall {T} (less : T -> T -> bool) l, StrictWeak less -> StronglySorted (notLess less) (sortSlice less l)
}.

Definition stable_sort : GoSort.
Proof.
  refine {| sortSlice := @SliceStable; sortSlice_perm := @SliceStable_perm |}.
  intros T less l [H1 H2]. by apply SliceStable_sorted.
Defined.

(** Comparing integer keys, largest first. *)
Lemma strict_weak_desc {T} (key : T -> Z) : StrictWeak (fun a b => key b <? key a).
Proof.
  split; unfold notLess; intros *; rewrite ?Z.ltb_lt, ?Z.ltb_ge; lia.
Qed.

(** ** Decimal numbers read back *)

Lemma pretty_char_digit d : (d < 10)%N -> digit (pretty_N_char d) = Some (Z.of_N d) /\ graphic (pretty_N_char d) = true.
Proof.
  intros H. assert (Hin : d ∈ N.of_nat <$> seq 0 10).
  { apply list_elem_of_fmap. exists (N.to_nat d). split; [lia|]. apply elem_of_seq. lia. }
  clear H. revert d Hin. apply Forall_forall, (bool_decide_eq_true_1 _). vm_compute. reflexivity.
Qed.

Lemma pretty_go_value x s : digits_value 0 (pretty_N_go x s) = digits_value (Z.of_N x) s.
Proof.
  revert s. induction (N.lt_wf_0 x) as [x _ IH]; intros s. destruct (decide (x = 0)%N) as [->|Hx]; [by rewrite pretty_N_go_0|].
  rewrite pretty_N_go_step by lia. assert (x `mod` 10 < 10)%N as Hm by (apply N.mod_lt; lia).
  rewrite IH by (apply N.div_lt; lia). cbn [digits_value]. rewrite (proj1 (pretty_char_digit _ Hm)). f_equal.
  pose proof (N.div_mod x 10 ltac:(lia)). lia.
Qed.

Fixpoint allGraphic (s : string) : bool := match s with EmptyString => true | String c s' => graphic c && allGraphic s' end.

Lemma pretty_go_graphic x s : allGraphic s = true -> allGraphic (pretty_N_go x s) = true.
Proof.
  revert s. induction (N.lt_wf_0 x) as [x _ IH]; intros s Hs. destruct (decide (x = 0)%N) as [->|Hx]; [by rewrite pretty_N_go_0|].
  rewrite pretty_N_go_step by lia. assert (x `mod` 10 < 10)%N as Hm by (apply N.mod_lt; lia).
  apply IH; [apply N.div_lt; lia|]. cbn [allGraphic]. by rewrite (proj2 (pretty_char_digit _ Hm)).
Qed.

Lemma FormatUint_value z : 0 <= z -> digits_value 0 (FormatUint z) = Some z /\ allGraphic (FormatUint z) = true.
Proof.
  intros Hz. unfold FormatUint, pretty, pretty_N. case_decide as E; [assert (z = 0) as -> by lia; done|].
  rewrite pretty_go_value, pretty_go_graphic by done. simpl. split; [f_equal; lia|done].
Qed.

Lemma split_sign_none c s : c <> "+"%char -> c <> "-"%char -> split_sign (String c s) = (false, String c s).
Proof. unfold split_sign. destruct c as [[] [] [] [] [] [] [] []]; done. Qed.

(** A trailing line break is trimmed. *)
Lemma allGraphic_app a b : allGraphic (a +:+ b) = allGraphic a && allGraphic b.
Proof. induction a as [|c a IH]; [done|]. rewrite str_app_cons. cbn [allGraphic]. by rewrite IH, andb_assoc. Qed.

Lemma allGraphic_rev s : allGraphic (str_rev s) = allGraphic s.
Proof.
  induction s as [|c s IH]; [done|]. change (str_rev (String c s)) with (str_rev_app s (String c "")).
  rewrite str_rev_app_eq, allGraphic_app, IH. cbn. by rewrite andb_true_r, andb_comm.
Qed.

Lemma trim_done_graphic ps s : (forall c p, graphic c = true -> p ∈ ps -> p <> "" /\ has_byte c p = false) -> allGraphic s = true -> strip_one ps s = None.
Proof.
  intros Hps Hs. destruct s as [|c s].
  - apply strip_one_none. intros p Hp. destruct (Hps "a"%char p eq_refl Hp) as [Hne _]. by destruct p.
  - cbn in Hs. apply andb_true_iff in Hs as [Hc _]. apply strip_graphic. intros p. by apply Hps.
Qed.

Lemma strip_newline s : strip_one (map str_rev space_runes) (String "010" s) = Some s.
Proof. by destruct s. Qed.

Lemma TrimSpace_newline s : allGraphic s = true -> TrimSpace (s +:+ String "010" "") = s.
Proof.
  intros Hs. unfold TrimSpace, trim_right.
  assert (Hps : forall c p, graphic c = true -> p ∈ space_runes -> p <> "" /\ has_byte c p = false)
    by (intros c p Hc Hp; split; [by apply space_runes_nonempty|by apply space_runes_not_graphic]).
  assert (Hps' : forall c p, graphic c = true -> p ∈ map str_rev space_runes -> p <> "" /\ has_byte c p = false).
  { intros c p Hc (q & -> & Hq)%list_elem_of_fmap. rewrite has_byte_rev. destruct (Hps c q Hc Hq) as [Hne ?]. split; [|done]. by intros ?%str_rev_empty. }
  destruct s as [|c s']; [vm_compute; reflexivity|].
  rewrite (trim_left_done space_runes).
  - rewrite str_rev_append. change (str_rev (String "010" "") +:+ str_rev (String c s')) with (String "010" (str_rev (String c s'))).
    unfold trim_left. cbn [String.length trim_left_fuel].
    rewrite strip_newline.
    pose proof (trim_done_graphic _ (str_rev (String c s')) Hps' ltac:(by rewrite allGraphic_rev)) as Hd.
    assert (Hf : forall n, trim_left_fuel (map str_rev space_runes) n (str_rev (String c s')) = str_rev (String c s')) by (intros [|n]; cbn [trim_left_fuel]; [done|by rewrite Hd]).
    by rewrite Hf, str_rev_involutive.
  - rewrite str_app_cons. cbn in Hs. apply andb_true_iff in Hs as [Hc _]. apply strip_graphic. intros p. by apply Hps.
Qed.

(** [strconv.Itoa] of a number that is not negative reads back. *)
Lemma FormatUint_parse z : 0 <= z <= maxInt64 -> ParseInt (FormatUint z) = (z, true).
Proof.
  intros Hz. destruct (FormatUint_value z ltac:(lia)) as [Hv Hg]. unfold ParseInt.
  assert (Hs : split_sign (FormatUint z) = (false, FormatUint z) /\ parse_digits (FormatUint z) = Some z).
  { destruct (FormatUint z) as [|c s] eqn:E; [simpl in Hv; simplify_eq; done|].
    split; [|exact Hv]. simpl in Hv. destruct (digit c) as [d|] eqn:Ed; [|done].
    assert (Hc : c <> "+"%char /\ c <> "-"%char) by (split; intros ->; vm_compute in Ed; done).
    destruct Hc. by apply split_sign_none. }
  destruct Hs as [-> ->]. by rewrite (proj2 (Z.leb_le _ _)) by lia.
Qed.

(** ** Pages of a listing *)

(** [l[start:end]]; [None] is the panic. *)
Definition sliceOf {A} (l : list A) (start end_ : Z) : option (list A) :=
  if (0 <=? start) && (start <=? end_) && (end_ <=? Z.of_nat (length l))
  then Some (take (Z.to_nat (end_ - start)) (drop (Z.to_nat start) l)) else None.

Record Bounds := mkBounds { pb_page : Z; pb_totalPages : Z; pb_start : Z; pb_end : Z }.

(** [/] of ints truncates; [limit] is positive at every use. *)
Definition pageBounds (totalCount page limit : Z) : Bounds :=
  let totalPages := Z.quot (i64 (i64 (totalCount + limit) - 1)) limit in
  let totalPages := if totalPages <? 1 then 1 else totalPages in
  let page := if totalPages <? page then totalPages else page in
  let start := i64 ((page - 1) * limit) in
  let start := if totalCount <? start then totalCount else start in
  let end_ := i64 (start + limit) in
  let end_ := if totalCount <? end_ then totalCount else end_ in
  mkBounds page totalPages start end_.

Definition pageOf {A} (l : list A) (page limit : Z) : option (list A) :=
  let b := pageBounds (Z.of_nat (length l)) page limit in sliceOf l (pb_start b) (pb_end b).

Definition totalPagesOf {A} (l : list A) (limit : Z) : Z := pb_totalPages (pageBounds (Z.of_nat (length l)) 1 limit).

(** ** Facts *)

(** A list that fits in memory, and the limits of the routes. *)
Definition smallList {A} (l : list A) : Prop := Z.of_nat (length l) < 2 ^ 62.

Lemma totalPages_eq {A} (l : list A) limit : smallList l -> 1 <= limit <= 100 ->
  totalPagesOf l limit = Z.max 1 ((Z.of_nat (length l) + limit - 1) / limit).
Proof.
  unfold smallList, totalPagesOf, pageBounds. cbn [pb_totalPages]. intros Hs Hl.
  rewrite (i64_small (_ + limit)), i64_small by (unfold is_i64, two63; lia).
  rewrite Z.quot_div_nonneg by lia. destruct (Z.ltb_spec (( Z.of_nat (length l) + limit - 1) / limit) 1); lia.
Qed.

Lemma totalPages_cover {A} (l : list A) limit : smallList l -> 1 <= limit <= 100 ->
  1 <= totalPagesOf l limit /\ Z.of_nat (length l) <= totalPagesOf l limit * limit /\ (totalPagesOf l limit - 1) * limit <= Z.of_nat (length l).
Proof.
  intros Hs Hl. rewrite totalPages_eq by done.
  pose proof (Z.div_mod (Z.of_nat (length l) + limit - 1) limit ltac:(lia)).
  pose proof (Z.mod_pos_bound (Z.of_nat (length l) + limit - 1) limit ltac:(lia)). nia.
Qed.

(** The page a request is served: its own, or the last one. *)
Definition servedPage {A} (l : list A) (page limit : Z) : Z := Z.min page (totalPagesOf l limit).

Lemma pageOf_eq {A} (l : list A) page limit : smallList l -> 1 <= limit <= 100 -> 1 <= page ->
  pb_page (pageBounds (Z.of_nat (length l)) page limit) = servedPage l page limit /\
  pageOf l page limit = Some (take (Z.to_nat limit) (drop (Z.to_nat ((servedPage l page limit - 1) * limit)) l)).
Proof.
  intros Hs Hl Hp. pose proof (totalPages_cover l limit Hs Hl) as (T1 & T2 & T3).
  unfold pageOf. set (n := Z.of_nat (length l)) in *.
  assert (Hb : pageBounds n page limit = mkBounds (servedPage l page limit) (totalPagesOf l limit)
            ((servedPage l page limit - 1) * limit) (Z.min n ((servedPage l page limit - 1) * limit + limit))).
  { unfold pageBounds. change (if Z.quot _ _ <? 1 then 1 else _) with (totalPagesOf l limit).
    set (T := totalPagesOf l limit) in *. unfold servedPage. fold T.
    replace (if T <? page then T else page) with (Z.min page T) by (destruct (Z.ltb_spec T page); lia).
    set (p := Z.min page T). assert (1 <= p <= T) by lia. unfold smallList in Hs. fold n in Hs.
    assert (0 <= (p - 1) * limit <= n) by nia.
    rewrite (i64_small ((p - 1) * limit)) by (unfold is_i64, two63; lia).
    rewrite (proj2 (Z.ltb_ge _ _)) by lia. rewrite i64_small by (unfold is_i64, two63; lia).
    f_equal. destruct (Z.ltb_spec n ((p - 1) * limit + limit)); lia. }
  rewrite Hb. cbn [pb_page pb_start pb_end]. split; [done|].
  assert (1 <= servedPage l page limit <= totalPagesOf l limit) by (unfold servedPage; lia).
  set (p := servedPage l page limit) in *. assert (0 <= (p - 1) * limit <= n) by nia.
  unfold sliceOf. fold n. rewrite !(proj2 (Z.leb_le _ _)) by lia. cbn [andb]. f_equal.
  destruct (Z.le_gt_cases ((p - 1) * limit + limit) n).
  - rewrite Z.min_r by lia. f_equal. lia.
  - rewrite Z.min_l by lia. rewrite !take_ge; [done| |]; rewrite length_drop; subst n; lia.
Qed.

(** The pages 1 to k together are the first k * limit elements. *)
Lemma pages_prefix {A} (l : list A) (L k : nat) : concat ((fun i => take L (drop (i * L) l)) <$> seq 0 k) = take (k * L) l.
Proof.
  induction k as [|k IH]; [done|]. rewrite seq_S, fmap_app, concat_app, IH. simpl.
  rewrite app_nil_r, take_take_drop. f_equal. lia.
Qed.

(** No page panics, and the pages 1 to the last one, in order, are the whole list,
    each element on one page. *)
Lemma pages_concat {A} (l : list A) limit : smallList l -> 1 <= limit <= 100 ->
  exists ps, mapM (fun p => pageOf l p limit) (seqZ 1 (totalPagesOf l limit)) = Some ps /\ concat ps = l.
Proof.
  intros Hs Hl. pose proof (totalPages_cover l limit Hs Hl) as (T1 & T2 & T3).
  set (T := totalPagesOf l limit) in *.
  exists ((fun i => take (Z.to_nat limit) (drop (i * Z.to_nat limit) l)) <$> seq 0 (Z.to_nat T)). split.
  - rewrite mapM_Some. unfold seqZ. rewrite Forall2_fmap. apply Forall_Forall2_diag, Forall_forall.
    intros i Hi%elem_of_seq. destruct (pageOf_eq l (Z.of_nat i + 1) limit Hs Hl ltac:(lia)) as [_ ->].
    unfold servedPage. fold T. rewrite Z.min_l by lia. do 3 f_equal. lia.
  - rewrite pages_prefix. apply take_ge. nia.
Qed.

(** A page beyond the last one repeats the last one. *)
Lemma page_beyond {A} (l : list A) page limit : smallList l -> 1 <= limit <= 100 -> totalPagesOf l limit <= page ->
  pageOf l page limit = pageOf l (totalPagesOf l limit) limit.
Proof.
  intros Hs Hl Hp. pose proof (totalPages_cover l limit Hs Hl) as (T1 & _).
  destruct (pageOf_eq l page limit Hs Hl) as [_ ->]; [lia|].
  destruct (pageOf_eq l (totalPagesOf l limit) limit Hs Hl) as [_ ->]; [lia|].
  unfold servedPage. by rewrite !Z.min_r by lia.
Qed.
