(* ===== verification/ChainRpc.v ===== *)
(** * The JSON-RPC of the chain (handlers/chain_rpc.go) and account queries
    (blockchain.go, rocks_reads.go)

    A request is the decoded body. Core is reached through two functions on its
    state [S]: the account query of the ledger and the account query of RocksDB,
    [None] where the gateway has no ledger or no RocksDB client. *)

From S2P Require Import Prelude GoStd GoJson Dag Tx ForkChoice Chain Confirm History Explorer CoreRpc CoreCalls GoText.

#[local] Open Scope Z_scope.

(** ** Accounts *)

Section accounts.
Context {S : Type}.
Implicit Types s : S.
Variable ledger : option (string -> S -> S * result CoreQuery).
Variable rocksAccount : option (string -> S -> S * result (option CoreAccount)).

Definition GetBalance (address : string) s : S * result string :=
  match ledger with
  | None => (s, Err "core ledger unavailable")
  | Some query => let '(s, r) := query address s in (s, match r with Ok q => Ok (cq_Balance q) | Err e => Err e end)
  end.

(** The account of an address that RocksDB does not know. *)
Definition unknownAccount (address : string) : CoreQuery := mkCoreQuery address "PLP" "0" "" "" 0 ∅ "" "" "".

Definition accountOfRocks (acct : CoreAccount) : CoreQuery :=
  mkCoreQuery (ca_Address acct) "PLP" (ca_Balance acct) (ca_UplpBalance acct) "" (ca_Nonce acct) (ca_Tokens acct)
    (if String.eqb (ca_Xp acct) "" then TokenXPFromMap (ca_Tokens acct) else ca_Xp acct) "" "".

Definition getAccountFromRocks (address : string) s : S * result CoreQuery :=
  match rocksAccount with
  | None => (s, Err "rocks store unavailable")
  | Some get =>
      let '(s, r) := get address s in
      (s, match r with
          | Err e => Err e
          | Ok None => Ok (unknownAccount address)
          | Ok (Some acct) => Ok (accountOfRocks acct)
          end)
  end.

(** The ledger first, RocksDB when it fails, and the ledger once more. *)
Definition GetAccountQuery (address : string) s : S * result CoreQuery :=
  let '(s, live) := match ledger with Some query => query address s | None => (s, Err "core ledger unavailable") end in
  match live with
  | Ok q => (s, Ok q)
  | Err _ =>
      let '(s, stored) := getAccountFromRocks address s in
      match stored with
      | Ok q => (s, Ok q)
      | Err _ => match ledger with
                 | None => (s, Err "core ledger unavailable")
                 | Some query => query address s
                 end
      end
  end.
End accounts.

(** ** Requests and answers *)

Record jsonRPCRequest := mkRpcReq { rq_JSONRPC : string; rq_ID : option jval; rq_Method : string; rq_Params : option jval }.

Record RpcBlock := mkRpcBlock {
  rpb_number : string; rpb_hash : string; rpb_parentHash : string; rpb_timestamp : string; rpb_transactions : list string;
  rpb_transactionCount : Z; rpb_merkleRoot : string; rpb_stateRoot : string; rpb_totalFees : Z; rpb_producerNodeId : string
}.

Record RpcTx := mkRpcTx {
  rpt_hash : string; rpt_from : string; rpt_to : string; rpt_value : string; rpt_fee : string; rpt_nonce : string; rpt_asset : string
}.

Inductive rpcValue := RText (t : string) | RBlock (b : RpcBlock) | RTx (t : RpcTx).

Record jsonRPCError := mkRpcErr { er_Code : Z; er_Message : string }.

(** A result is [None] when the handler returns nil for it. *)
Record jsonRPCResponse := mkRpcResp { rr_ID : option jval; rr_Result : option rpcValue; rr_Error : option jsonRPCError }.

(** The members of the encoded response: [result] and [error] are [omitempty]. *)
Definition encodedMembers (r : jsonRPCResponse) : list string :=
  ["jsonrpc"; "id"] ++ (match rr_Result r with Some _ => ["result"] | None => [] end)
  ++ (match rr_Error r with Some _ => ["error"] | None => [] end).

Definition writeJSONRPC (id : option jval) (result : option rpcValue) (err : option jsonRPCError) : jsonRPCResponse := mkRpcResp id result err.
Definition writeJSONRPCError (id : option jval) (code : Z) (msg : string) : jsonRPCResponse := writeJSONRPC id None (Some (mkRpcErr code msg)).

Definition platariumChainID : string := "0x7070".

Definition blockToRPC (b : BlockRecord) : RpcBlock :=
  mkRpcBlock (quantity (b_BlockNumber b)) (b_BlockHash b) (b_PreviousHash b) (quantity (b_Timestamp b)) (b_TxHashes b)
    (Z.of_nat (length (b_TxHashes b))) (b_MerkleRoot b) (b_StateRoot b) (b_TotalFees b) (b_ProducerNodeID b).

Definition txToRPC (tx : Transaction) : RpcTx :=
  mkRpcTx (tx_Hash tx) (tx_From tx) (tx_To tx) (tx_Value tx) (tx_Fee tx) (quantity (tx_Nonce tx)) (tx_Asset tx).

(** The params as a slice: anything but an array leaves it empty. *)
Definition rpcArgs (params : option jval) : list jval := match params with Some (JArray l) => l | _ => [] end.

(** [args[0].(string)]. *)
Definition argString (v : jval) : string := match v with JString t => t | _ => "" end.

Section dispatch.
Context {S : Type}.
Implicit Types (rocks : option RocksReads) (probe : option (option Z)) (bc : Blockchain) (s : S).
Variable ledger : option (string -> S -> S * result CoreQuery).
Variable rocksAccount : option (string -> S -> S * result (option CoreAccount)).

Definition parseBlockNumberArg probe rocks bc (v : jval) : result Z :=
  match v with
  | JString t =>
      let t := TrimSpace t in
      if HasPrefix t "0x" || HasPrefix t "0X" then
        let '(n, ok) := ParseIntHex (str_drop 2 t) in if ok then Ok n else Err "invalid hex block number"
      else if String.eqb t "latest" then Ok (HeadBlockNumber probe rocks bc)
      else let '(n, ok) := ParseInt t in if ok then Ok n else Err "invalid block number"
  | JNumber f => Ok (int64_of_float f)
  | _ => Err "invalid block number type"
  end.

(** The answer of a method: a value or nil, or an error. *)
Definition rpcAnswer : Type := option rpcValue + jsonRPCError.

Definition rpcGetBlockByNumber probe rocks bc (params : option jval) : rpcAnswer :=
  match rpcArgs params with
  | [] => inr (mkRpcErr (-32602) "block number required")
  | v :: _ =>
      match parseBlockNumberArg probe rocks bc v with
      | Err e => inr (mkRpcErr (-32602) e)
      | Ok num => inl (RBlock ∘ blockToRPC <$> GetBlockByNumber probe rocks num bc)
      end
  end.

Definition plainHash (h : string) : string := TrimPrefix (ToLower h) "0x".

Definition rpcGetBlockByHash probe rocks bc (params : option jval) : rpcAnswer :=
  match rpcArgs params with
  | [] => inr (mkRpcErr (-32602) "block hash required")
  | v :: _ =>
      let hash := plainHash (argString v) in
      inl (RBlock ∘ blockToRPC <$> findFirst (fun b => String.eqb (plainHash (b_BlockHash b)) hash) (GetBlockHistory probe rocks bc))
  end.

Definition rpcGetTransactionByHash rocks (meanwhile : Blockchain -> Blockchain) bc (params : option jval) : Blockchain * rpcAnswer :=
  match rpcArgs params with
  | [] => (bc, inr (mkRpcErr (-32602) "tx hash required"))
  | v :: _ => let '(bc, tx) := GetTransaction rocks meanwhile (argString v) bc in (bc, inl (RTx ∘ txToRPC <$> tx))
  end.

Definition rpcGetBlockTxCount probe rocks bc (params : option jval) : rpcAnswer :=
  match rpcArgs params with
  | [] => inr (mkRpcErr (-32602) "block number required")
  | v :: _ =>
      match parseBlockNumberArg probe rocks bc v with
      | Err e => inr (mkRpcErr (-32602) e)
      | Ok num => inl (Some (RText (match GetBlockByNumber probe rocks num bc with
                                    | None => "0x0"
                                    | Some b => quantity (Z.of_nat (length (b_TxHashes b)))
                                    end)))
      end
  end.

Definition rpcGetBalance (params : option jval) s : S * rpcAnswer :=
  match rpcArgs params with
  | [] => (s, inr (mkRpcErr (-32602) "address required"))
  | v :: _ =>
      let '(s, account) := GetAccountQuery ledger rocksAccount (argString v) s in
      (s, match account with
          | Err e => inr (mkRpcErr (-32000) e)
          | Ok a => let '(bal, ok) := ParseUint (cq_Balance a) in
                    if ok then inl (Some (RText (quantity bal))) else inr (mkRpcErr (-32000) "invalid balance")
          end)
  end.

Definition isMethod (m : string) (names : list string) : bool := bool_decide (m ∈ names).

(** One request: the blockchain (its transaction cache), Core and the answer. *)
Definition dispatchChainRPC probe rocks (meanwhile : Blockchain -> Blockchain) (method : string) (params : option jval) bc s
  : Blockchain * S * rpcAnswer :=
  if isMethod method ["platarium_chainId"; "eth_chainId"] then (bc, s, inl (Some (RText platariumChainID)))
  else if isMethod method ["platarium_net_version"; "net_version"] then (bc, s, inl (Some (RText "7070")))
  else if isMethod method ["platarium_blockNumber"; "eth_blockNumber"] then
    let head := HeadBlockNumber probe rocks bc in
    (bc, s, inl (Some (RText (if head <? 0 then "0x0" else quantity head))))
  else if isMethod method ["platarium_getBalance"; "eth_getBalance"] then
    let '(s, a) := rpcGetBalance params s in (bc, s, a)
  else if isMethod method ["platarium_getBlockByNumber"; "eth_getBlockByNumber"] then (bc, s, rpcGetBlockByNumber probe rocks bc params)
  else if isMethod method ["platarium_getBlockByHash"; "eth_getBlockByHash"] then (bc, s, rpcGetBlockByHash probe rocks bc params)
  else if isMethod method ["platarium_getTransactionByHash"; "eth_getTransactionByHash"] then
    let '(bc, a) := rpcGetTransactionByHash rocks meanwhile bc params in (bc, s, a)
  else if isMethod method ["platarium_getBlockTransactionCountByNumber"] then (bc, s, rpcGetBlockTxCount probe rocks bc params)
  else (bc, s, inr (mkRpcErr (-32601) ("method not found: " +:+ method))).

(** The body of a POST: unreadable, not JSON, or decoded. *)
Inductive rpcBody := BodyUnreadable | BodyNotJson | BodyJson (v : jval).

Definition decodeRPC (v : jval) : option jsonRPCRequest :=
  m ← structFields (Some v); j ← field asString "" m "jsonrpc"; mt ← field asString "" m "method";
  Some (mkRpcReq j (rawField m "id") mt (rawField m "params")).

(** What a request is answered with: status 405, or a JSON-RPC response. *)
Inductive rpcReply := NotAllowed | Reply (r : jsonRPCResponse).

Definition ChainRPC probe rocks (meanwhile : Blockchain -> Blockchain) (httpMethod : string) (body : rpcBody) bc s
  : Blockchain * S * rpcReply :=
  if negb (String.eqb httpMethod "POST") then (bc, s, NotAllowed)
  else match body with
  | BodyUnreadable => (bc, s, Reply (writeJSONRPCError None (-32700) "failed to read body"))
  | BodyNotJson => (bc, s, Reply (writeJSONRPCError None (-32700) "parse error"))
  | BodyJson v =>
      match decodeRPC v with
      | None => (bc, s, Reply (writeJSONRPCError None (-32700) "parse error"))
      | Some req =>
          if nonEmpty (rq_JSONRPC req) && negb (String.eqb (rq_JSONRPC req) "2.0")
          then (bc, s, Reply (writeJSONRPCError (rq_ID req) (-32600) "invalid jsonrpc version"))
          else
          let '(bc, s, a) := dispatchChainRPC probe rocks meanwhile (rq_Method req) (rq_Params req) bc s in
          (bc, s, Reply (match a with
                         | inr e => writeJSONRPC (rq_ID req) None (Some e)
                         | inl v => writeJSONRPC (rq_ID req) v None
                         end))
      end
  end.
End dispatch.
