(* ===== verification/ChainRpcSpec.v ===== *)
(** * What the JSON-RPC of the chain promises

    Quantities read back as the numbers they show; the views of a block agree; a
    request changes nothing but the cache of transactions; every answer has the
    error code of its cause. *)

From S2P Require Import Prelude GoStd GoJson Dag Tx ForkChoice Chain Confirm History HistorySpec Explorer CoreRpc CoreCalls GoText ChainRpc.

#[local] Open Scope Z_scope.

Lemma int64_of_float_range f : is_i64 (int64_of_float f).
Proof.
  unfold int64_of_float, is_i64, two63, minInt64, maxInt64. destruct f; try lia.
  destruct (_ && _) eqn:E; bools; lia.
Qed.

Lemma hexValue_nonneg c d : hexValue c = Some d -> 0 <= d.
Proof. unfold hexValue. repeat case_match; bools; intros; simplify_eq; lia. Qed.

Lemma hexDigits_value_nonneg s acc n : 0 <= acc -> hexDigits_value acc s = Some n -> acc <= n.
Proof.
  revert acc. induction s as [|c s IH]; simpl; intros acc Ha; [intros [= ->]; lia|].
  destruct (hexValue c) as [d|] eqn:E; [|done]. apply hexValue_nonneg in E. intros Hx%IH; lia.
Qed.

Lemma ParseIntHex_range s : is_i64 (ParseIntHex s).1.
Proof.
  unfold ParseIntHex. destruct (split_sign s) as [neg body].
  destruct (match body with EmptyString => None | _ => hexDigits_value 0 body end) as [n|] eqn:E; [|done].
  assert (0 <= n) by (destruct body; [done|]; by apply hexDigits_value_nonneg in E).
  unfold is_i64, maxInt64, minInt64, two63. repeat case_match; bools; simpl; lia.
Qed.

(** The two numberings are inverse on all of int64, at the edges by wrap-around. *)
Lemma height_inverse n : is_i64 n -> RocksHeightToGatewayBlock (GatewayBlockToRocksHeight n) = n.
Proof.
  intros H. unfold RocksHeightToGatewayBlock, GatewayBlockToRocksHeight.
  destruct (Z.eqb_spec (u64 (n + 1)) 0) as [E|_].
  - unfold is_i64, two63, u64, two64 in *.
    apply Z.mod_divide in E as [k Hk]; lia.
  - replace (i64 (u64 (n + 1)) - 1) with (i64 (u64 (n + 1)) + -1) by lia. rewrite i64_add_l.
    unfold u64, i64.
    replace ((n + 1) mod two64 + -1 + two63) with ((n + 1) mod two64 + (two63 - 1)) by lia.
    rewrite Z.add_mod_idemp_l by done. replace (n + 1 + (two63 - 1)) with (n + two63) by lia.
    by apply i64_small.
Qed.

Section spec.
Context {S : Type}.
Implicit Types (rocks : option RocksReads) (probe : option (option Z)) (bc : Blockchain) (s : S).
Variable ledger : option (string -> S -> S * result CoreQuery).
Variable rocksAccount : option (string -> S -> S * result (option CoreAccount)).

(** Core answers a request for a height with the block of that height. *)
Definition honestHeights rocks : Prop := forall r h b, rocks = Some r -> storedAt r h = Some b -> rb_Height b = h.

Lemma parse_quantity probe rocks bc n : is_i64 n -> parseBlockNumberArg probe rocks bc (JString (quantity n)) = Ok n.
Proof.
  intros H. unfold parseBlockNumberArg. rewrite quantity_trimmed.
  change (HasPrefix (quantity n) "0x") with (HasPrefix ("0x" +:+ FormatHex n) "0x"). rewrite prefix_of_app.
  change (str_drop 2 (quantity n)) with (FormatHex n). cbn [orb]. by rewrite hex_int_roundtrip.
Qed.

Lemma parse_range probe rocks bc v n :
  is_i64 (HeadBlockNumber probe rocks bc) -> parseBlockNumberArg probe rocks bc v = Ok n -> is_i64 n.
Proof.
  intros Hh. unfold parseBlockNumberArg. destruct v as [| | |f|t| |]; try done.
  - intros [= <-]. apply int64_of_float_range.
  - destruct (_ || _).
    + pose proof (ParseIntHex_range (str_drop 2 (TrimSpace t))). destruct (ParseIntHex _) as [k []]; [|done]. by intros [= <-].
    + destruct (String.eqb _ _); [by intros [= <-]|].
      pose proof (ParseInt_range (TrimSpace t)). destruct (ParseInt _) as [k []]; [|done]. by intros [= <-].
Qed.

Lemma block_number_of probe rocks bc n b :
  honestHeights rocks -> is_i64 n -> GetBlockByNumber probe rocks n bc = Some b -> b_BlockNumber b = n.
Proof.
  intros Hh Hn. unfold GetBlockByNumber. case_match; [done|].
  unfold findFirst. destruct (list_find _ _) as [[i b']|] eqn:El; simpl.
  - intros [= <-]. apply list_find_Some in El as (_ & Hb & _). by bools.
  - unfold getBlockFromRocks. destruct rocks as [r|]; [|done].
    destruct (storedAt r _) as [st|] eqn:Es; simpl; [|done]. intros [= <-]. simpl.
    rewrite (Hh r _ st eq_refl Es). by apply height_inverse.
Qed.

Definition one (v : jval) : option jval := Some (JArray [v]).

(** C30: the views of a block agree. When a block is served for some argument (a
    decimal or hexadecimal text, "latest", a JSON number), asking again with the
    number shown in the answer serves the same block; the transaction count asked
    for that argument is the count shown in the block, which is the length of its
    list; and "latest" stands for the number that eth_blockNumber shows. *)
Theorem rpc_block_views_agree probe rocks bc v rb
  (Hheights : honestHeights rocks) (Hhead : is_i64 (HeadBlockNumber probe rocks bc))
  (Hserved : rpcGetBlockByNumber probe rocks bc (one v) = inl (Some (RBlock rb))) :
  rpcGetBlockByNumber probe rocks bc (one (JString (rpb_number rb))) = inl (Some (RBlock rb)) /\
  rpcGetBlockTxCount probe rocks bc (one v) = inl (Some (RText (quantity (rpb_transactionCount rb)))) /\
  rpb_transactionCount rb = Z.of_nat (length (rpb_transactions rb)) /\
  (0 <= HeadBlockNumber probe rocks bc -> exists shown,
     (forall meanwhile s, dispatchChainRPC ledger rocksAccount probe rocks meanwhile "eth_blockNumber" None bc s = (bc, s, inl (Some (RText shown)))) /\
     rpcGetBlockByNumber probe rocks bc (one (JString shown)) = rpcGetBlockByNumber probe rocks bc (one (JString "latest"))).
Proof.
  unfold rpcGetBlockByNumber in Hserved. cbn [rpcArgs one] in Hserved.
  destruct (parseBlockNumberArg probe rocks bc v) as [num|] eqn:Ep; [|done].
  pose proof (parse_range probe rocks bc v num Hhead Ep) as Hnum.
  destruct (GetBlockByNumber probe rocks num bc) as [b|] eqn:Eb; [|done]. injection Hserved as <-.
  pose proof (block_number_of probe rocks bc num b Hheights Hnum Eb) as Hb.
  split; [|split; [|split; [done|]]].
  - unfold rpcGetBlockByNumber. cbn [rpcArgs one blockToRPC rpb_number]. by rewrite Hb, parse_quantity, Eb.
  - unfold rpcGetBlockTxCount. cbn [rpcArgs one]. by rewrite Ep, Eb.
  - intros H0. exists (quantity (HeadBlockNumber probe rocks bc)). split.
    + intros meanwhile s. unfold dispatchChainRPC. simpl. by rewrite (proj2 (Z.ltb_ge _ _) H0).
    + unfold rpcGetBlockByNumber. cbn [rpcArgs one]. by rewrite parse_quantity.
Qed.

(** A block found by hash is listed and has that hash up to case and prefix; with
    or without the prefix, in any case, a hash finds the same block. *)
Theorem rpc_block_by_hash probe rocks bc h rb :
  (rpcGetBlockByHash probe rocks bc (one (JString h)) = inl (Some (RBlock rb)) ->
   exists b, b ∈ GetBlockHistory probe rocks bc /\ rb = blockToRPC b /\ plainHash (b_BlockHash b) = plainHash h) /\
  (forall h', plainHash h' = plainHash h -> rpcGetBlockByHash probe rocks bc (one (JString h')) = rpcGetBlockByHash probe rocks bc (one (JString h))).
Proof.
  unfold rpcGetBlockByHash. cbn [rpcArgs one argString]. split; [|by intros h' ->].
  unfold findFirst. destruct (list_find _ _) as [[i b]|] eqn:El; simpl; [|done]. intros [= <-].
  apply list_find_Some in El as (Hi & Hb & _). exists b. split; [by apply list_elem_of_lookup_2 in Hi|].
  split; [done|]. by apply String.eqb_eq.
Qed.

(** no answer leads RocksDB. With a readable RocksDB head, the head number,
    every block served by number or by hash, and the block "latest" are at or below
    it; a number above it is answered with null. *)
Theorem rpc_never_leads_rocks probe rocks bc head
  (Hhead : headBlockNumberFromRocks probe rocks = Some head) (Hrange : 0 <= head < maxInt64) (Hheights : honestHeights rocks) :
  HeadBlockNumber probe rocks bc = head /\
  (forall v n, parseBlockNumberArg probe rocks bc v = Ok n -> head < n -> rpcGetBlockByNumber probe rocks bc (one v) = inl None) /\
  (forall v n rb, parseBlockNumberArg probe rocks bc v = Ok n -> rpcGetBlockByNumber probe rocks bc (one v) = inl (Some (RBlock rb)) ->
     n <= head /\ rpb_number rb = quantity n) /\
  (forall h rb, rpcGetBlockByHash probe rocks bc (one (JString h)) = inl (Some (RBlock rb)) ->
     exists n, n <= head /\ rpb_number rb = quantity n).
Proof.
  destruct (reads_never_lead_rocks probe rocks bc head Hhead ltac:(lia) Hheights) as (H1 & H2 & H3 & _).
  split; [done|]. split; [|split].
  - intros v n Hv Hn. unfold rpcGetBlockByNumber. cbn [rpcArgs one]. by rewrite Hv, H3.
  - intros v n rb Hv. unfold rpcGetBlockByNumber. cbn [rpcArgs one]. rewrite Hv.
    destruct (GetBlockByNumber probe rocks n bc) as [b|] eqn:Eb; [|done]. intros [= <-].
    assert (Hn : is_i64 n) by (apply (parse_range probe rocks bc v); [|done]; rewrite H1; unfold is_i64, two63, maxInt64 in *; lia).
    split; [|simpl; by rewrite (block_number_of probe rocks bc n b Hheights Hn Eb)].
    destruct (Z.le_gt_cases n head); [done|]. by rewrite H3 in Eb.
  - intros h rb H. apply rpc_block_by_hash in H as (b & Hin & -> & _). exists (b_BlockNumber b).
    split; [|done]. rewrite Forall_forall in H2. by apply H2.
Qed.

(** ** Errors *)

Definition byNumber : list string :=
  ["platarium_getBlockByNumber"; "eth_getBlockByNumber"; "platarium_getBlockTransactionCountByNumber"].
Definition balanceMethods : list string := ["platarium_getBalance"; "eth_getBalance"].
Definition withArgs : list string :=
  byNumber ++ balanceMethods ++ ["platarium_getBlockByHash"; "eth_getBlockByHash"; "platarium_getTransactionByHash"; "eth_getTransactionByHash"].
Definition rpcMethods : list string :=
  withArgs ++ ["platarium_chainId"; "eth_chainId"; "platarium_net_version"; "net_version"; "platarium_blockNumber"; "eth_blockNumber"].

(** The cause of each error code. *)
Definition causeOf probe rocks bc (method : string) (params : option jval) (e : jsonRPCError) : Prop :=
  (er_Code e = -32601 /\ method ∉ rpcMethods) \/
  (er_Code e = -32602 /\ method ∈ withArgs /\
     (rpcArgs params = [] \/ exists v rest, rpcArgs params = v :: rest /\ method ∈ byNumber /\ is_ok (parseBlockNumberArg probe rocks bc v) = false)) \/
  (er_Code e = -32000 /\ method ∈ balanceMethods /\ rpcArgs params <> []).

(** Which cache a request may fill. *)
Definition onlyCaches rocks (bc bc' : Blockchain) : Prop :=
  bc' = bc \/ exists h tx, getTransactionFromRocks rocks h = Some tx /\ transactions bc !! h = None /\ bc' = cacheTx h tx bc.

Lemma method_in method names (l : list string) : isMethod method names = true -> Forall (fun n => n ∈ l) names -> method ∈ l.
Proof. unfold isMethod. intros H%bool_decide_eq_true Hl. by apply (proj1 (Forall_forall _ _) Hl). Qed.

Lemma method_out method names : isMethod method names = false -> method ∉ names.
Proof. apply bool_decide_eq_false. Qed.

Ltac listed H := apply (method_in _ _ _ H), (bool_decide_eq_true_1 _); vm_compute; reflexivity.

Lemma rpc_getTransaction_spec rocks bc params :
  let '(bc', a) := rpcGetTransactionByHash rocks id bc params in
  onlyCaches rocks bc bc' /\
  match a with inl _ => rpcArgs params <> [] | inr e => er_Code e = -32602 /\ rpcArgs params = [] end.
Proof.
  unfold rpcGetTransactionByHash, GetTransaction, onlyCaches. destruct (rpcArgs params) as [|v rest]; [by auto|].
  destruct (transactions bc !! argString v) as [tx|] eqn:Et; [by auto|].
  destruct (getTransactionFromRocks rocks (argString v)) as [tx|] eqn:Er; [|by auto].
  cbn [id]. rewrite Et. split; [|done]. right. by exists (argString v), tx.
Qed.

Lemma rpc_getBalance_spec params s :
  match (rpcGetBalance ledger rocksAccount params s).2 with
  | inl _ => rpcArgs params <> []
  | inr e => (er_Code e = -32602 /\ rpcArgs params = []) \/ (er_Code e = -32000 /\ rpcArgs params <> [])
  end.
Proof.
  unfold rpcGetBalance. destruct (rpcArgs params) as [|v rest]; [by left|].
  destruct (GetAccountQuery _ _ _ _) as [s' [q|e]]; simpl; [|by right].
  destruct (ParseUint (cq_Balance q)) as [bal []]; [done|by right].
Qed.

Lemma rpc_byNumber_spec probe rocks bc params a :
  a = rpcGetBlockByNumber probe rocks bc params \/ a = rpcGetBlockTxCount probe rocks bc params ->
  match a with
  | inl _ => True
  | inr e => er_Code e = -32602 /\
      (rpcArgs params = [] \/ exists v rest, rpcArgs params = v :: rest /\ is_ok (parseBlockNumberArg probe rocks bc v) = false)
  end.
Proof.
  unfold rpcGetBlockByNumber, rpcGetBlockTxCount. destruct (rpcArgs params) as [|v rest]; [intros [->| ->]; by auto|].
  destruct (parseBlockNumberArg probe rocks bc v) eqn:E; intros [->| ->]; try done; (split; [done|right; by exists v, rest; rewrite E]).
Qed.

(** reading through the RPC changes nothing but the cache of transactions (and
    what the account queries do to Core), and a refusal names its cause: code -32601
    exactly for an unknown method, -32602 for missing arguments or an unreadable
    block number, -32000 for a balance Core does not give. *)
Theorem rpc_reads_only probe rocks bc s method params bc' s' a
  (Hrun : dispatchChainRPC ledger rocksAccount probe rocks id method params bc s = (bc', s', a)) :
  onlyCaches rocks bc bc' /\ (s' = s \/ method ∈ balanceMethods) /\
  match a with inl _ => method ∈ rpcMethods | inr e => causeOf probe rocks bc method params e end.
Proof.
  unfold dispatchChainRPC in Hrun.
  destruct (isMethod method ["platarium_chainId"; _]) eqn:M1; [simplify_eq; split_and!; [by left|by left|listed M1]|].
  destruct (isMethod method ["platarium_net_version"; _]) eqn:M2; [simplify_eq; split_and!; [by left|by left|listed M2]|].
  destruct (isMethod method ["platarium_blockNumber"; _]) eqn:M3; [simplify_eq; split_and!; [by left|by left|listed M3]|].
  destruct (isMethod method ["platarium_getBalance"; _]) eqn:M4.
  { pose proof (rpc_getBalance_spec params s) as Hb. destruct (rpcGetBalance _ _ _ _) as [s1 b]. simplify_eq.
    split_and!; [by left|right; listed M4|]. simpl in Hb. destruct a as [r|e]; [listed M4|].
    destruct Hb as [[? ?]|[? ?]]; [right; left|by right; right; split_and!; [|listed M4|]].
    split_and!; [done|listed M4|by left]. }
  destruct (isMethod method ["platarium_getBlockByNumber"; _]) eqn:M5.
  { pose proof (rpc_byNumber_spec probe rocks bc params _ (or_introl eq_refl)) as Hn. simplify_eq.
    split_and!; [by left|by left|]. destruct (rpcGetBlockByNumber _ _ _ _) as [r|e]; [listed M5|].
    destruct Hn as [? Hn]. right; left. split_and!; [done|listed M5|].
    destruct Hn as [?|(v & rest & ? & ?)]; [by left|]. right. exists v, rest. split_and!; [done|listed M5|done]. }
  destruct (isMethod method ["platarium_getBlockByHash"; _]) eqn:M6.
  { simplify_eq. split_and!; [by left|by left|]. unfold rpcGetBlockByHash. destruct (rpcArgs params) eqn:E; [|listed M6].
    right; left. split_and!; [done|listed M6|by left]. }
  destruct (isMethod method ["platarium_getTransactionByHash"; _]) eqn:M7.
  { pose proof (rpc_getTransaction_spec rocks bc params) as Ht. destruct (rpcGetTransactionByHash _ _ _ _) as [bc1 b].
    simplify_eq. destruct Ht as [Hc Ha]. split_and!; [done|by left|]. destruct a as [r|e]; [listed M7|].
    right; left. split_and!; [apply Ha|listed M7|left; apply Ha]. }
  destruct (isMethod method ["platarium_getBlockTransactionCountByNumber"]) eqn:M8.
  { pose proof (rpc_byNumber_spec probe rocks bc params _ (or_intror eq_refl)) as Hn. simplify_eq.
    split_and!; [by left|by left|]. destruct (rpcGetBlockTxCount _ _ _ _) as [r|e]; [listed M8|].
    destruct Hn as [? Hn]. right; left. split_and!; [done|listed M8|].
    destruct Hn as [?|(v & rest & ? & ?)]; [by left|]. right. exists v, rest. split_and!; [done|listed M8|done]. }
  simplify_eq. split_and!; [by left|by left|]. left. split; [done|].
  apply method_out in M1, M2, M3, M4, M5, M6, M7, M8.
  unfold rpcMethods, withArgs, byNumber, balanceMethods. set_solver.
Qed.
End spec.

(** ** Concrete chains *)

Definition rpcChain : Blockchain := set_blockHistory [demoBlock 0; demoBlock 1] NewBlockchain.

(** A RocksDB with the heights 1 and 2. *)
Definition rpcRocks : RocksReads :=
  mkRocks (Ok 2) (fun h => if (1 <=? h) && (h <=? 2) then Ok (Some (mkStored h "" 7 ["t"] "" "" "" "")) else Ok None) (fun _ => Ok None).

Lemma rpcRocks_honest : honestHeights (Some rpcRocks).
Proof.
  intros r h b [= <-]. unfold storedAt, rpcRocks. simpl. destruct (_ && _); [|done]. by intros [= <-].
Qed.

Lemma rpc_block_views_agree_witness :
  rpcGetBlockByNumber None (Some rpcRocks) rpcChain (one (JString "0x1")) = inl (Some (RBlock (blockToRPC (demoBlock 1)))).
Proof.
  destruct (rpc_block_views_agree (S := unit) None None None (Some rpcRocks) rpcChain (JString "latest") (blockToRPC (demoBlock 1))
    rpcRocks_honest) as [H _]; [vm_compute; split; congruence|reflexivity|exact H].
Defined.

Lemma rpc_never_leads_rocks_witness :
  rpcGetBlockByNumber None (Some rpcRocks) rpcChain (one (JString "9")) = inl None.
Proof.
  destruct (rpc_never_leads_rocks None (Some rpcRocks) rpcChain 1) as (_ & H & _);
    [reflexivity|vm_compute; split; congruence|exact rpcRocks_honest|].
  apply (H _ 9); [reflexivity|lia].
Defined.

Lemma rpc_reads_only_witness :
  causeOf None (Some rpcRocks) rpcChain "eth_sendTransaction" None (mkRpcErr (-32601) "method not found: eth_sendTransaction").
Proof.
  exact (proj2 (proj2 (rpc_reads_only (S := unit) None None None (Some rpcRocks) rpcChain tt "eth_sendTransaction" None rpcChain tt _ eq_refl))).
Defined.

(** A null result leaves the response without a [result] and without an [error]
    member, though JSON-RPC 2.0 asks for one of them. *)
Example null_result_without_member :
  (ChainRPC (S := unit) None None None (Some rpcRocks) id "POST"
     (BodyJson (JObject [("method", JString "eth_getBlockByNumber"); ("params", JArray [JString "9"])])) rpcChain tt).2
  = Reply (mkRpcResp None None None) /\ encodedMembers (mkRpcResp None None None) = ["jsonrpc"; "id"].
Proof. split; vm_compute; reflexivity. Qed.

(** An argument that is not a string stands for the empty hash, which finds the
    first block without one. *)
Example number_as_hash_finds_block :
  rpcGetBlockByHash None None (set_blockHistory [zeroBlock] NewBlockchain) (one (JBool true)) = inl (Some (RBlock (blockToRPC zeroBlock))).
Proof. vm_compute. reflexivity. Qed.

(** When the ledger fails once, an account that RocksDB does not know yet is served
    as empty, with nonce 0. *)
Example ledger_failure_serves_empty_account :
  (GetAccountQuery (S := unit) (Some (fun _ s => (s, Err "busy"))) (Some (fun _ s => (s, Ok None))) "PxA" tt).2
  = Ok (mkCoreQuery "PxA" "PLP" "0" "" "" 0 ∅ "" "" "").
Proof. reflexivity. Qed.
