(* ===== verification/ExplorerRoutes.v ===== *)
(** * The explorer's routes (handlers.go)

    Lookups and pages of transactions and blocks over HTTP. [q] is the query of the
    request: [q k] is the value of parameter [k], empty when it is absent. A row of
    a listing is a map: what [txToMap] gives, with entries set and deleted; an
    integer that the handler stores in it is a [JUint].

    [GetTransaction] hands out the pointer that mempool, pending block and index
    share, and the route writes a block number and a timestamp through it:
    [writeTimestamp] changes every place that holds the object. *)

From S2P Require Import Prelude GoStd GoJson Dag Tx ForkChoice Chain Confirm History Explorer Sync GoText.

#[local] Open Scope Z_scope.

(** An answer: an error status with its text, or status 200 with a body. *)
Inductive httpReply (B : Type) := HttpError (code : Z) (msg : string) | HttpOk (body : B).
Arguments HttpError {B} _ _.
Arguments HttpOk {B} _.

(** ** Query parameters *)

(** [if v != "" { if n, err := Atoi(v); err == nil && n > 0 { out = n } }]. *)
Definition positiveParam (q : string -> string) (k : string) (default : Z) : Z :=
  if String.eqb (q k) "" then default
  else let '(n, ok) := ParseInt (q k) in if ok && (0 <? n) then n else default.

Definition int64Param (q : string -> string) (k : string) : option Z :=
  if String.eqb (q k) "" then None else let '(n, ok) := ParseInt (q k) in if ok then Some n else None.

Definition transactionsUseConfirmedDefault (q : string -> string) : bool :=
  if String.eqb (q "mempool") "1" || String.eqb (q "pending") "1" then false
  else negb (bool_decide (ToLower (TrimSpace (q "status")) ∈ ["all"; "pending"; "mempool"])).

Definition blockPageFromQuery (q : string -> string) : BlockPageQuery :=
  mkPageQuery (positiveParam q "limit" DefaultBlockPageLimit) (positiveParam q "page" 1) (int64Param q "from") (int64Param q "to")
    (String.eqb (q "full") "1" || EqualFold (q "full") "true").

(** ** Rows *)

Definition mapDelete (k : string) (m : jobj) : jobj := filter (fun kv => kv.1 <> k) m.
Definition mapSet (k : string) (v : jval) (m : jobj) : jobj := mapDelete k m ++ [(k, v)].

Definition txMapTimestamp (m : jobj) : Z :=
  match jget m "timestamp" with Some (JNumber f) => int64_of_float f | Some (JUint n) => n | _ => 0 end.

Definition txToMap (bc : Blockchain) (tx : Transaction) : jobj := transactionToMap tx (BlockNumber bc tx).

(** ** The list of an address *)

Definition listedAsset (asset assetType : string) : string :=
  let a := TrimSpace asset in
  if HasPrefix a "Token:" then a
  else
  let kind := ToLower (TrimSpace assetType) in
  if String.eqb kind "native" && (String.eqb a "" || EqualFold a "NATIVE") then "PLP" else a.

Definition withAsset (a : string) (tx : Transaction) : Transaction :=
  mkTx (tx_ref tx) (tx_Hash tx) (tx_From tx) (tx_To tx) (tx_Value tx) (tx_Fee tx) (tx_Nonce tx) (tx_Timestamp tx)
    (tx_Type tx) (tx_AssetType tx) (tx_ContractAddress tx) (tx_SigMain tx) (tx_SigDerived tx)
    (tx_PubMain tx) (tx_PubDerived tx) a (tx_AmountUplp tx) (tx_FeeUplp tx) (tx_Reads tx)
    (tx_Writes tx) (tx_RequestIDHash tx) (tx_EscrowID tx) (tx_Purpose tx) (tx_ExpiresAt tx)
    (tx_SettleOutcome tx) (tx_SettleOutcomeKey tx) (tx_SettlePayee tx) (tx_SettleNode tx).

(** A copy: the stored transaction keeps its asset. *)
Definition presentListedTx (tx : Transaction) : Transaction := withAsset (listedAsset (tx_Asset tx) (tx_AssetType tx)) tx.

(** ** Writing through a shared pointer *)

Definition stampTx (ref : positive) (ts : Z) (tx : Transaction) : Transaction :=
  if Pos.eqb (tx_ref tx) ref then withTxTimestamp ts tx else tx.

Definition writeTimestamp (ref : positive) (ts : Z) (bc : Blockchain) : Blockchain :=
  let f := stampTx ref ts in
  let bc := set_transactions (f <$> (transactions bc : gmap string Transaction)) bc in
  let bc := set_mempool (map f (mempool bc)) bc in
  let bc := set_pendingBlock (map f (pendingBlock bc)) bc in
  let bc := set_addressTxs (map f <$> (addressTxs bc : gmap string (list Transaction))) bc in
  set_lastTx (option_map f (lastTx bc)) bc.

Section routes.
Context {R : GoRange} {G : GoSort}.
Variable RocksListAddressTxs : string -> result (list string).
Implicit Types (rocks : option RocksReads) (probe : option (option Z)) (bc : Blockchain) (q : string -> string).

Definition GetTransactionsRoute rocks (address : string) bc : list Transaction :=
  presentListedTx <$> GetTransactionsByAddress RocksListAddressTxs rocks address bc.

(** GET /pg-tx/{hash}. *)
Definition GetTransactionRoute probe rocks (meanwhile : Blockchain -> Blockchain) (hash : string) bc : Blockchain * httpReply Transaction :=
  match GetTransaction rocks meanwhile hash bc with
  | (bc, None) => (bc, HttpError 404 "Transaction not found")
  | (bc, Some tx) =>
      match TxHashToBlockNumber rocks bc !! hash with
      | None => (bc, HttpOk tx)
      | Some bn =>
          let bc := setBlockNumber tx bn bc in
          if 0 <? tx_Timestamp tx then (bc, HttpOk tx)
          else match GetBlockByNumber probe rocks bn bc with
          | Some b => if 0 <? b_Timestamp b
                      then (writeTimestamp (tx_ref tx) (b_Timestamp b) bc, HttpOk (withTxTimestamp (b_Timestamp b) tx))
                      else (bc, HttpOk tx)
          | None => (bc, HttpOk tx)
          end
      end
  end.

(** GET /api/mempool and /api/pending-block. *)
Definition GetMempoolRoute bc : list Transaction * Z := (GetMempool bc, Z.of_nat (length (GetMempool bc))).
Definition GetPendingBlock bc : list Transaction := pendingBlock bc.
Definition GetPendingBlockRoute bc : list Transaction * Z := (GetPendingBlock bc, Z.of_nat (length (GetPendingBlock bc))).

(** ** GET /api/transactions *)

Record TxPage := mkTxPage { tp_transactions : list jobj; tp_count : Z; tp_page : Z; tp_limit : Z; tp_totalPages : Z }.

Definition mkPage {A} (all : list A) (page limit : Z) (rows : list jobj) : TxPage :=
  let b := pageBounds (Z.of_nat (length all)) page limit in
  mkTxPage rows (Z.of_nat (length all)) (pb_page b) limit (pb_totalPages b).

(** The row of a confirmed transaction; a placeholder when it cannot be read. *)
Definition refRow bc (ref : ConfirmedTxRef) (tx : option Transaction) : jobj :=
  match tx with
  | None => [("hash", JString (ref_Hash ref)); ("blockNumber", JUint (ref_BlockNumber ref)); ("timestamp", JUint (ref_Timestamp ref));
             ("status", JString "confirmed"); ("value", JString "0"); ("fee", JString "0")]
  | Some tx =>
      let m := txToMap bc tx in
      let m := mapSet "blockNumber" (JUint (ref_BlockNumber ref)) m in
      let m := mapSet "status" (JString "confirmed") m in
      if (txMapTimestamp m <=? 0) && (0 <? ref_Timestamp ref) then mapSet "timestamp" (JUint (ref_Timestamp ref)) m else m
  end.

Fixpoint refRows rocks (meanwhile : Blockchain -> Blockchain) (refs : list ConfirmedTxRef) bc : Blockchain * list jobj :=
  match refs with
  | [] => (bc, [])
  | ref :: rest =>
      let '(bc, tx) := GetTransaction rocks meanwhile (ref_Hash ref) bc in
      let row := refRow bc ref tx in
      let '(bc, rows) := refRows rocks meanwhile rest bc in (bc, row :: rows)
  end.

(** [None] is a panic of the slice expression. *)
Definition serveConfirmedTransactionsPage probe rocks (meanwhile : Blockchain -> Blockchain) (page limit : Z) bc : option (Blockchain * TxPage) :=
  let '(bc, refs) := ConfirmedTxRefsNewestFirst probe rocks bc in
  pageRefs ← pageOf refs page limit;
  let '(bc, out) := refRows rocks meanwhile pageRefs bc in
  Some (bc, mkPage refs page limit out).

Definition blockTimestamps (blocks : list BlockRecord) : gmap Z Z :=
  foldl (fun m b => if 0 <? b_Timestamp b then <[b_BlockNumber b := b_Timestamp b]> m else m) ∅ blocks.

(** The timestamp of the block replaces a missing one. *)
Definition stampRow (blockTs : gmap Z Z) (n : Z) (m : jobj) : jobj :=
  if txMapTimestamp m <=? 0 then
    match blockTs !! n with Some ts => if 0 <? ts then mapSet "timestamp" (JUint ts) m else m | None => m end
  else m.

Definition confirmRow (blockTs : gmap Z Z) (n : Z) (m : jobj) : jobj :=
  stampRow blockTs n (mapSet "status" (JString "confirmed") (mapSet "blockNumber" (JUint n) m)).

(** [appendTx]: the row of a transaction, [None] when it is not listed. *)
Definition explorerRow bc (blockByHash : gmap string Z) (blockTs : gmap Z Z) (rocksCanonical allowUnconfirmed : bool) (tx : Transaction) : option jobj :=
  let m := txToMap bc tx in
  match blockByHash !! tx_Hash tx with
  | Some bn => Some (confirmRow blockTs bn m)
  | None =>
      if rocksCanonical && negb allowUnconfirmed then None
      else if negb rocksCanonical && (0 <? BlockNumber bc tx) then Some (confirmRow blockTs (BlockNumber bc tx) m)
      else Some (mapDelete "status" (mapDelete "blockNumber" m))
  end.

Fixpoint appendRows bc (blockByHash : gmap string Z) (blockTs : gmap Z Z) (rocksCanonical allowUnconfirmed : bool) (seen : gset string) (txs : list Transaction)
  : gset string * list jobj :=
  match txs with
  | [] => (seen, [])
  | tx :: rest =>
      let skip := appendRows bc blockByHash blockTs rocksCanonical allowUnconfirmed seen rest in
      if String.eqb (tx_Hash tx) "" || bool_decide (tx_Hash tx ∈ seen) then skip
      else match explorerRow bc blockByHash blockTs rocksCanonical allowUnconfirmed tx with
      | None => skip
      | Some row =>
          let '(seen, rows) := appendRows bc blockByHash blockTs rocksCanonical allowUnconfirmed (seen ∪ {[tx_Hash tx]}) rest in (seen, row :: rows)
      end
  end.

Definition rowNewer (a b : jobj) : bool := txMapTimestamp b <? txMapTimestamp a.

Definition buildExplorerTransactionList probe rocks bc : list jobj :=
  let blockByHash := TxHashToBlockNumber rocks bc in
  let canonical := match rocks with Some _ => true | None => false end in
  let blockTs := blockTimestamps (GetBlockHistory probe rocks bc) in
  let '(seen, r1) := appendRows bc blockByHash blockTs canonical false ∅ (GetAllTransactions bc) in
  let '(seen, r2) := appendRows bc blockByHash blockTs canonical true seen (GetPendingBlock bc) in
  let '(_, r3) := appendRows bc blockByHash blockTs canonical true seen (GetMempool bc) in
  sortSlice rowNewer (r1 ++ r2 ++ r3).

Definition transactionsLimit q : Z := let limit := positiveParam q "limit" 50 in if 100 <? limit then 100 else limit.

Definition GetAllTransactionsRoute probe rocks (meanwhile : Blockchain -> Blockchain) q bc : option (Blockchain * TxPage) :=
  let page := positiveParam q "page" 1 in
  let limit := transactionsLimit q in
  if transactionsUseConfirmedDefault q then serveConfirmedTransactionsPage probe rocks meanwhile page limit bc
  else
  let items := buildExplorerTransactionList probe rocks bc in
  rows ← pageOf items page limit; Some (bc, mkPage items page limit rows).

(** ** Blocks *)

(** GET /api/blocks; [None] is the panic of [PageBlocks]. *)
Definition GetBlockHistoryRoute probe rocks q bc : option (list BlockRecord) :=
  PageBlocks (GetBlockHistory probe rocks bc) (blockPageFromQuery q).

(** The transactions of a block that can be read, in its order. *)
Fixpoint blockTxMaps rocks (meanwhile : Blockchain -> Blockchain) (hs : list string) bc : Blockchain * list jobj :=
  match hs with
  | [] => (bc, [])
  | h :: rest =>
      let '(bc, tx) := GetTransaction rocks meanwhile h bc in
      let row := match tx with Some tx => [txToMap bc tx] | None => [] end in
      let '(bc, rows) := blockTxMaps rocks meanwhile rest bc in (bc, row ++ rows)
  end.

(** GET /api/block/{blockNumber}. *)
Definition blockAt probe rocks (n : Z) bc : option BlockRecord :=
  match GetBlockByNumber probe rocks n bc with
  | Some b => Some b
  | None => findFirst (fun b => b_BlockNumber b =? n) (GetBlockHistory probe rocks bc)
  end.

Definition GetBlockRoute probe rocks (meanwhile : Blockchain -> Blockchain) (blockNumStr : string) bc : Blockchain * httpReply (BlockRecord * list jobj) :=
  if String.eqb blockNumStr "" then (bc, HttpError 400 "blockNumber required")
  else
  let '(n, ok) := ParseInt blockNumStr in
  if negb ok || (n <? 0) then (bc, HttpError 400 "invalid blockNumber")
  else match blockAt probe rocks n bc with
  | None => (bc, HttpError 404 "block not found")
  | Some block => let '(bc, txs) := blockTxMaps rocks meanwhile (b_TxHashes block) bc in (bc, HttpOk (block, txs))
  end.
End routes.
