(* ===== verification/ExplorerRoutesSpec.v ===== *)
(** * What the explorer's routes promise

    The pages of confirmed transactions show every confirmed transaction once; the
    full list shows what is stored, pending and waiting, each once and with the
    status RocksDB gives it. *)

From S2P Require Import Prelude GoStd GoJson Dag Tx ForkChoice Chain Pool Confirm History HistorySpec Explorer ExplorerSpec Sync GoText ExplorerRoutes.

From stdpp Require Import sorting.

#[local] Open Scope Z_scope.

(** ** Maps *)

Lemma jget_app m1 m2 k : jget (m1 ++ m2) k = match jget m2 k with Some v => Some v | None => jget m1 k end.
Proof.
  induction m1 as [|[k' v] m1 IH]; simpl; [by destruct (jget m2 k)|]. rewrite IH. by destruct (jget m2 k).
Qed.

Lemma jget_notin m k : k ∉ m.*1 -> jget m k = None.
Proof.
  induction m as [|[k' v] m IH]; simpl; [done|]. rewrite not_elem_of_cons. intros [Hne Hm]. rewrite (IH Hm).
  by destruct (String.eqb_spec k k').
Qed.

Lemma jget_delete k' k m : jget (mapDelete k' m) k = if String.eqb k k' then None else jget m k.
Proof.
  destruct (String.eqb_spec k k') as [->|Hne].
  - apply jget_notin. intros (kv & -> & H%list_elem_of_filter)%list_elem_of_fmap. by destruct H.
  - unfold mapDelete. induction m as [|[c v] m IH]; [done|]. rewrite filter_cons. case_decide as Hd; simpl in *.
    + by rewrite IH.
    + rewrite IH. subst c. destruct (jget m k); [done|]. by destruct (String.eqb_spec k k').
Qed.

Lemma jget_set k' v k m : jget (mapSet k' v m) k = if String.eqb k k' then Some v else jget m k.
Proof.
  unfold mapSet. rewrite jget_app, jget_delete. simpl. by destruct (String.eqb k k').
Qed.

Lemma elem_of_present fs k : k ∈ (present fs).*1 -> k ∈ fs.*1.
Proof.
  induction fs as [|[k' [v|]] fs IH]; simpl; [done| |]; rewrite !elem_of_cons; naive_solver.
Qed.

Definition txKeys : list string :=
  ["hash"; "from"; "to"; "value"; "fee"; "nonce"; "timestamp"; "type"; "assetType"; "contractAddress"; "sig_main"; "sig_derived";
   "pub_main"; "pub_derived"; "asset"; "amount"; "fee_uplp"; "reads"; "writes"; "blockNumber"; "request_id_hash"; "escrow_id";
   "purpose"; "expires_at"; "settle_outcome"; "settle_outcome_key"; "settle_payee"; "settle_node"].

Lemma txFields_keyList tx n : (txFields tx n).*1 = txKeys.
Proof. reflexivity. Qed.

Lemma txKeys_nodup : NoDup txKeys.
Proof. apply (bool_decide_unpack _). vm_compute. exact I. Qed.

Lemma status_not_key : "status" ∉ txKeys.
Proof. apply (bool_decide_unpack _). vm_compute. exact I. Qed.

Lemma txToMap_hash bc tx : jget (txToMap bc tx) "hash" = Some (JString (tx_Hash tx)).
Proof. apply (jget_present _ _ 0); [rewrite txFields_keyList; apply txKeys_nodup|done]. Qed.

(** A status is never part of an encoded transaction. *)
Lemma txToMap_status bc tx : jget (txToMap bc tx) "status" = None.
Proof.
  unfold txToMap, transactionToMap. apply jget_notin. intros Hin. apply elem_of_present in Hin. rewrite txFields_keyList in Hin.
  exact (status_not_key Hin).
Qed.

Definition rowHash (m : jobj) : string := getString m "hash".

(** ** Pages of confirmed transactions *)

(** The index files a transaction under its hash, and RocksDB answers with the
    transaction that was asked for. *)
Definition keyed (bc : Blockchain) : Prop := forall h tx, transactions bc !! h = Some tx -> tx_Hash tx = h.
Definition honestTxs (rocks : option RocksReads) : Prop := forall h tx, getTransactionFromRocks rocks h = Some tx -> tx_Hash tx = h.

(** What a row shows of a confirmed transaction. *)
Definition rowShows (m : jobj) (ref : ConfirmedTxRef) : Prop :=
  rowHash m = ref_Hash ref /\ jget m "blockNumber" = Some (JUint (ref_BlockNumber ref)) /\ jget m "status" = Some (JString "confirmed").

Lemma refRow_shows bc ref tx : (forall t, tx = Some t -> tx_Hash t = ref_Hash ref) -> rowShows (refRow bc ref tx) ref.
Proof.
  intros H. destruct tx as [t|]; [|done]. specialize (H t eq_refl). unfold rowShows, refRow, rowHash, getString.
  pose proof (txToMap_hash bc t) as Hm. generalize dependent (txToMap bc t). intros m Hm.
  destruct (_ && _); rewrite !jget_set; simpl; rewrite Hm, H; done.
Qed.

Section pages.
Context {R : GoRange}.
Implicit Types (rocks : option RocksReads) (probe : option (option Z)) (bc : Blockchain).
Variable meanwhile : Blockchain -> Blockchain.
Hypothesis meanwhile_keyed : forall bc, keyed bc -> keyed (meanwhile bc).

Lemma cacheTx_transactions h tx bc : transactions (cacheTx h tx bc) = <[h := tx]> (transactions bc).
Proof. unfold cacheTx, appendAddr. repeat case_match; done. Qed.

Lemma GetTransaction_keyed rocks h bc bc' tx :
  honestTxs rocks -> keyed bc -> GetTransaction rocks meanwhile h bc = (bc', tx) ->
  keyed bc' /\ (forall t, tx = Some t -> tx_Hash t = h).
Proof.
  intros Hr Hk. unfold GetTransaction.
  destruct (transactions bc !! h) as [t|] eqn:Et; [intros [= <- <-]; split; [done|intros ? [= <-]; by apply Hk]|].
  destruct (getTransactionFromRocks rocks h) as [t|] eqn:Er; [|by intros [= <- <-]].
  pose proof (meanwhile_keyed bc Hk) as Hm.
  destruct (transactions (meanwhile bc) !! h) as [t'|] eqn:Em; intros [= <- <-].
  - split; [done|]. intros ? [= <-]. by apply Hm.
  - split; [|intros ? [= <-]; by apply (Hr h)]. intros h' t'. rewrite cacheTx_transactions, lookup_insert.
    case_decide as E; [subst; intros [= <-]; by apply (Hr h')|apply Hm].
Qed.

Lemma refRows_show rocks refs bc : honestTxs rocks -> keyed bc -> Forall2 rowShows (refRows rocks meanwhile refs bc).2 refs.
Proof.
  intros Hr. revert bc. induction refs as [|ref refs IH]; intros bc Hk; simpl; [constructor|].
  destruct (GetTransaction rocks meanwhile (ref_Hash ref) bc) as [bc1 tx] eqn:E.
  destruct (GetTransaction_keyed rocks _ bc bc1 tx Hr Hk E) as [Hk1 Ht].
  specialize (IH bc1 Hk1). destruct (refRows rocks meanwhile refs bc1) as [bc2 rows]. simpl in *.
  constructor; [by apply refRow_shows|done].
Qed.

Lemma ConfirmedTxRefs_transactions probe rocks bc :
  transactions (ConfirmedTxRefsNewestFirst probe rocks bc).1 = transactions bc.
Proof.
  unfold ConfirmedTxRefsNewestFirst.
  assert (Ha : transactions (attachConfirmedTxsToHistoryLocked bc) = transactions bc)
    by (unfold attachConfirmedTxsToHistoryLocked, noteDurableHeadLocked; repeat case_match; done).
  assert (Hc : forall bs b, transactions (cacheHistory bs b) = transactions b)
    by (intros bs b; unfold cacheHistory, noteDurableHeadLocked; repeat case_match; done).
  set (bc1 := attachConfirmedTxsToHistoryLocked bc) in *. clearbody bc1.
  repeat case_match; simplify_eq; cbn [fst]; rewrite ?Hc; done.
Qed.

(** The pages of one state of the chain. *)
Definition confirmedPages probe rocks limit bc (k : Z) : option (list (Blockchain * TxPage)) :=
  mapM (fun p => serveConfirmedTransactionsPage probe rocks meanwhile p limit bc) (seqZ 1 k).

Lemma pages_rows probe rocks bc limit ps parts (refs := (ConfirmedTxRefsNewestFirst probe rocks bc).2) :
  honestTxs rocks -> keyed bc -> mapM (fun p => pageOf refs p limit) ps = Some parts ->
  exists pages, mapM (fun p => serveConfirmedTransactionsPage probe rocks meanwhile p limit bc) ps = Some pages /\
    Forall2 rowShows (concat ((tp_transactions ∘ snd) <$> pages)) (concat parts) /\
    Forall (fun pg => tp_count pg.2 = Z.of_nat (length refs)) pages.
Proof.
  intros Hr Hk. revert parts. induction ps as [|p ps IH]; intros parts.
  { intros [= <-]. exists []. split_and!; [done|constructor|constructor]. }
  simpl. destruct (pageOf refs p limit) as [part|] eqn:Hp; [|done]. simpl.
  destruct (mapM _ ps) as [parts'|] eqn:Hps; [|done]. simpl. intros [= <-].
  destruct (IH parts' eq_refl) as (pages & -> & Hrows & Hcount).
  pose proof (ConfirmedTxRefs_transactions probe rocks bc) as Ht.
  unfold serveConfirmedTransactionsPage. subst refs.
  destruct (ConfirmedTxRefsNewestFirst probe rocks bc) as [bc1 refs]. simpl in *. rewrite Hp. simpl.
  pose proof (refRows_show rocks part bc1 Hr) as Hshow. unfold keyed in Hshow at 1. rewrite Ht in Hshow. specialize (Hshow Hk).
  destruct (refRows rocks meanwhile part bc1) as [bc2 rows].
  eexists. split; [done|]. simpl. split; [by apply Forall2_app|by constructor].
Qed.

(** the pages of confirmed transactions. For every limit the route allows, no page
    panics; the pages 1 to the last one together show the list of confirmed
    transactions in its order, each entry exactly once, with its hash, its block
    number and the status confirmed, even where a transaction cannot be read; every
    page tells the full count. *)
Theorem confirmed_pages_partition probe rocks bc limit (refs := (ConfirmedTxRefsNewestFirst probe rocks bc).2)
  (Hrocks : honestTxs rocks) (Hkeyed : keyed bc) (Hsmall : smallList refs) (Hlimit : 1 <= limit <= 100) :
  exists pages, confirmedPages probe rocks limit bc (totalPagesOf refs limit) = Some pages /\
    Forall2 rowShows (concat ((tp_transactions ∘ snd) <$> pages)) refs /\
    Forall (fun pg => tp_count pg.2 = Z.of_nat (length refs)) pages.
Proof.
  destruct (pages_concat refs limit Hsmall Hlimit) as (parts & Hparts & Hcat).
  destruct (pages_rows probe rocks bc limit _ parts Hrocks Hkeyed Hparts) as (pages & Hpages & Hrows & Hcount).
  exists pages. by rewrite Hcat in Hrows.
Qed.
End pages.

(** ** The full list *)

Section listing.
Context {R : GoRange} {G : GoSort}.
Implicit Types (rocks : option RocksReads) (probe : option (option Z)) (bc : Blockchain).

(** Which hashes a source may list. *)
Definition listable (byHash : gmap string Z) (canonical allow : bool) (h : string) : Prop :=
  canonical = false \/ allow = true \/ is_Some (byHash !! h).

(** What a row of the full list shows. *)
Definition rowStatus (byHash : gmap string Z) (canonical : bool) (m : jobj) : Prop :=
  match byHash !! rowHash m with
  | Some n => jget m "blockNumber" = Some (JUint n) /\ jget m "status" = Some (JString "confirmed")
  | None => canonical = true -> jget m "blockNumber" = None /\ jget m "status" = None
  end.

Lemma confirmRow_get blockTs n m k :
  k <> "timestamp" -> jget (confirmRow blockTs n m) k =
  if String.eqb k "status" then Some (JString "confirmed") else if String.eqb k "blockNumber" then Some (JUint n) else jget m k.
Proof.
  intros Hk. assert (Hs : forall m, jget (stampRow blockTs n m) k = jget m k).
  { intros m'. unfold stampRow. repeat case_match; try done. rewrite jget_set. by destruct (String.eqb_spec k "timestamp"). }
  unfold confirmRow. by rewrite Hs, !jget_set.
Qed.

Lemma explorerRow_spec bc byHash blockTs canonical allow tx row :
  explorerRow bc byHash blockTs canonical allow tx = Some row ->
  rowHash row = tx_Hash tx /\ listable byHash canonical allow (tx_Hash tx) /\ rowStatus byHash canonical row.
Proof.
  unfold explorerRow, listable, rowStatus, rowHash, getString.
  pose proof (txToMap_hash bc tx) as Hm. generalize dependent (txToMap bc tx). intros m Hm.
  destruct (byHash !! tx_Hash tx) as [n|] eqn:E.
  { intros [= <-]. rewrite !confirmRow_get by done. simpl. rewrite Hm, E. split_and!; [done|eauto|done|done]. }
  destruct canonical, allow; simpl; try done.
  - intros [= <-]. rewrite !jget_delete. simpl. rewrite Hm, E. split_and!; [done|auto|done].
  - destruct (0 <? BlockNumber bc tx); intros [= <-]; rewrite ?confirmRow_get, ?jget_delete by done; simpl; rewrite Hm, E; split_and!; auto; done.
  - destruct (0 <? BlockNumber bc tx); intros [= <-]; rewrite ?confirmRow_get, ?jget_delete by done; simpl; rewrite Hm, E; split_and!; auto; done.
Qed.

Lemma explorerRow_listed bc byHash blockTs canonical allow tx :
  listable byHash canonical allow (tx_Hash tx) -> is_Some (explorerRow bc byHash blockTs canonical allow tx).
Proof.
  unfold explorerRow, listable. destruct (byHash !! tx_Hash tx) as [n|]; [eauto|].
  intros [->|[->|[n Hn]]]; [|by destruct canonical; simpl; eauto; case_match; eauto|done]. simpl. case_match; eauto.
Qed.

Lemma appendRows_spec bc byHash blockTs canonical allow txs seen seen' rows :
  appendRows bc byHash blockTs canonical allow seen txs = (seen', rows) ->
  seen' = seen ∪ list_to_set (rowHash <$> rows) /\ NoDup (rowHash <$> rows) /\
  (forall h, h ∈ rowHash <$> rows <-> h <> "" /\ h ∉ seen /\ listable byHash canonical allow h /\ h ∈ hashes txs) /\
  Forall (rowStatus byHash canonical) rows.
Proof.
  revert seen seen' rows. induction txs as [|tx txs IH]; intros seen seen' rows; simpl.
  { intros [= <- <-]. split_and!; [set_solver|constructor| |constructor]. set_solver. }
  destruct (appendRows _ _ _ _ _ seen txs) as [s1 r1] eqn:Eskip. specialize (IH seen) as IHskip. rewrite Eskip in IHskip.
  specialize (IHskip _ _ eq_refl) as (I1 & I2 & I3 & I4).
  destruct (_ || _) eqn:Eb.
  { intros [= <- <-]. split_and!; [done|done| |done]. intros h. rewrite I3. change (hashes (tx :: txs)) with (tx_Hash tx :: hashes txs). rewrite elem_of_cons.
    apply orb_true_iff in Eb as [Eb%String.eqb_eq|Eb%bool_decide_eq_true]; naive_solver. }
  apply orb_false_iff in Eb as [Ene%String.eqb_neq Enew%bool_decide_eq_false].
  destruct (explorerRow _ _ _ _ _ tx) as [row|] eqn:Er.
  - destruct (explorerRow_spec _ _ _ _ _ _ _ Er) as (Hh & Hl & Hst).
    destruct (appendRows _ _ _ _ _ (seen ∪ _) txs) as [s2 r2] eqn:E2. destruct (IH _ _ _ E2) as (J1 & J2 & J3 & J4).
    intros [= <- <-]. rewrite fmap_cons, Hh. split_and!.
    + rewrite J1. set_solver.
    + constructor; [|done]. rewrite J3. set_solver.
    + intros h. change (hashes (tx :: txs)) with (tx_Hash tx :: hashes txs). rewrite !elem_of_cons, J3. rewrite not_elem_of_union, elem_of_singleton. destruct (decide (h = tx_Hash tx)) as [->|]; tauto.
    + by constructor.
  - intros [= <- <-]. split_and!; [done|done| |done]. intros h. rewrite I3. change (hashes (tx :: txs)) with (tx_Hash tx :: hashes txs). rewrite elem_of_cons.
    split; [naive_solver|]. intros (? & ? & Hl & [->|?]); [|done].
    destruct (explorerRow_listed bc byHash blockTs canonical allow tx Hl) as [r Hr]. congruence.
Qed.

Lemma rowNewer_weak : StrictWeak rowNewer.
Proof. exact (strict_weak_desc txMapTimestamp). Qed.

Lemma hashes_index bc h : h ∈ hashes (GetAllTransactions bc) <-> exists k tx, transactions bc !! k = Some tx /\ tx_Hash tx = h.
Proof.
  unfold hashes, GetAllTransactions. unfold exchangeSort. rewrite exchangeLoop_perm, list_elem_of_fmap. split.
  - intros (tx & -> & ([k t] & -> & Hk)%list_elem_of_fmap). exists k, t. split; [by apply elem_of_range|done].
  - intros (k & tx & Hk & <-). exists tx. split; [done|]. apply list_elem_of_fmap. exists (k, tx). split; [done|by apply elem_of_range].
Qed.

End listing.

(** ** Blocks *)

Section blocks.
Implicit Types (rocks : option RocksReads) (probe : option (option Z)) (bc : Blockchain).

Lemma findFirst_None P hist : findFirst P hist = None <-> forall b, b ∈ hist -> P b = false.
Proof.
  unfold findFirst. destruct (list_find _ hist) as [[i b]|] eqn:E; simpl.
  - apply list_find_Some in E as (Hi & Hb & _). split; [done|]. intros H. rewrite H in Hb; [done|by apply list_elem_of_lookup_2 in Hi].
  - apply list_find_None in E. split; [|done]. intros _ b Hb. rewrite Forall_forall in E. specialize (E b Hb). by destruct (P b).
Qed.

(** The search of the whole history that follows a failed lookup of a block never
    finds one. *)
Theorem block_fallback_finds_nothing probe rocks n bc
  (Hheights : forall r h b, rocks = Some r -> storedAt r h = Some b -> rb_Height b = h)
  (Hhead : forall r head, rocks = Some r -> RocksGetHead r = Ok head -> head < two63) :
  blockAt probe rocks n bc = GetBlockByNumber probe rocks n bc.
Proof.
  unfold blockAt. destruct (GetBlockByNumber probe rocks n bc) as [b|] eqn:E; [done|].
  apply findFirst_None. intros b Hb. apply Z.eqb_neq. intros Hn.
  unfold GetBlockByNumber in E. unfold GetBlockHistory in Hb.
  set (out := match blockHistory bc with [] => _ | _ :: _ => _ end) in Hb.
  assert (Hout : b ∈ out /\ forall h, headBlockNumberFromRocks probe rocks = Some h -> b_BlockNumber b <= h).
  { destruct (headBlockNumberFromRocks probe rocks) as [h|]; [|by split].
    unfold FreezeBlockHistory in Hb. simpl in Hb. destruct out as [|b0 out']; [by apply elem_of_nil in Hb|].
    destruct (h <? 0); [by apply elem_of_nil in Hb|]. apply list_elem_of_filter in Hb as [Hle Hin]. split; [done|]. by intros ? [= <-]. }
  destruct Hout as [Hin Hle].
  assert (Eahead : match headBlockNumberFromRocks probe rocks with Some h => h <? n | None => false end = false).
  { destruct (headBlockNumberFromRocks probe rocks) as [h|]; [|done]. apply Z.ltb_ge. rewrite <- Hn. by apply Hle. }
  rewrite Eahead in E. destruct (findFirst _ (blockHistory bc)) eqn:Ef; [done|].
  assert (Hmem : b ∉ blockHistory bc).
  { intros Hm. rewrite findFirst_None in Ef. specialize (Ef b Hm). apply Z.eqb_neq in Ef. done. }
  subst out. destruct (blockHistory bc) as [|b0 hist]; [|done]. destruct rocks as [r|]; [|done].
  unfold listBlockHistoryFromRocks in Hin. destruct (RocksGetHead r) as [head|] eqn:Eh; [|done].
  apply list_elem_of_omap in Hin as (h & Hh & (st & Hst & ->)%fmap_Some). simpl in E, Hn.
  rewrite (Hheights r h st eq_refl Hst) in Hn. unfold heights in Hh. apply list_elem_of_fmap in Hh as (i & -> & Hi%elem_of_seq).
  pose proof (Hhead r head eq_refl Eh) as Hlt.
  unfold RocksHeightToGatewayBlock in Hn. rewrite (proj2 (Z.eqb_neq _ _)) in Hn by lia.
  rewrite (i64_small (Z.of_nat i)), i64_small in Hn by (unfold is_i64, two63 in *; lia).
  unfold GatewayBlockToRocksHeight in E. rewrite u64_small in E by (unfold is_u64, two64, two63 in *; lia).
  replace (n + 1) with (Z.of_nat i) in E by lia. by rewrite Hst in E.
Qed.
End blocks.

(** ** Concrete chains *)

Definition routeBlock : BlockRecord := mkBlock 1 50 ["hash-a"; "lost"] 2 0 "" "" "" "" "" 0 0 0 0 0 "" "" ∅ ∅.
Definition undatedTx : Transaction := demoTx 1 "hash-a" "PxA" "PxB" "2" 0 0.

Definition routeChain : Blockchain :=
  set_blockHistory [routeBlock] (set_mempool [txB] (set_transactions {[ "hash-a" := undatedTx ]} NewBlockchain)).

Lemma routeChain_keyed : keyed routeChain.
Proof. intros h tx. simpl. rewrite lookup_singleton_Some. by intros [<- <-]. Qed.

Lemma confirmed_pages_partition_witness : exists pages,
  confirmedPages (R := canonical_range) id None None 1 routeChain 2 = Some pages /\
  (rowHash <$> concat ((tp_transactions ∘ snd) <$> pages)) = ["lost"; "hash-a"].
Proof.
  destruct (confirmed_pages_partition (R := canonical_range) id (fun _ H => H) None None routeChain 1) as (pages & Hp & Hr & _).
  - intros h tx. done.
  - exact routeChain_keyed.
  - vm_compute. reflexivity.
  - lia.
  - exists pages. split; [exact Hp|]. revert Hr.
    match goal with |- Forall2 _ _ ?refs -> _ => change refs with [mkRef "lost" 1 50; mkRef "hash-a" 1 50] || (let r := eval vm_compute in refs in replace refs with r by (vm_compute; reflexivity)) end.
    intros Hr. apply Forall2_cons_inv_r in Hr as (r1 & l1 & [H1 _] & Hr & ->). apply Forall2_cons_inv_r in Hr as (r2 & l2 & [H2 _] & Hr & ->).
    apply Forall2_nil_inv_r in Hr as ->. rewrite !fmap_cons, H1, H2. reflexivity.
Defined.

(** A lookup of a transaction writes the timestamp of its block into the object that
    the index, and the pools, share: the GET changes what they hold. *)
Example lookup_stamps_shared_object :
  let '(bc, reply) := GetTransactionRoute None None id "hash-a" routeChain in
  reply = HttpOk (withTxTimestamp 50 undatedTx) /\ transactions bc !! "hash-a" = Some (withTxTimestamp 50 undatedTx) /\
  BlockNumber bc undatedTx = 1.
Proof. vm_compute. done. Qed.

(** The query that makes the block list panic. *)
Example blocks_query_panics :
  GetBlockHistoryRoute None None (fun k => if String.eqb k "page" then "9223372036854775807" else "") routeChain = None.
Proof. vm_compute. reflexivity. Qed.
