(* ===== verification/ExploreMetrics.v ===== *)
(** * Live metrics (handlers/explore_metrics.go)

    Counters, two windows of timestamps (milliseconds), the delays from admission to
    confirmation and the peaks of the rates. Rates are float64. The clock is an
    argument of each operation; so are the memory and CPU figures of the process. *)

From S2P Require Import Prelude GoStd GoJson GoText.
From Stdlib Require Import Floats.SpecFloat.

#[local] Open Scope Z_scope.

Definition metricsWindowMs : Z := 10 * 60 * 1000.
Definition metricsMaxSamples : Z := 4096.

Definition float_div (a b : spec_float) : spec_float := SFdiv 53 1024 a b.
Definition float_add (a b : spec_float) : spec_float := SFadd 53 1024 a b.
Definition zeroF : spec_float := S754_zero false.

Record exploreMetrics := mkMetrics {
  m_txReceived : Z; m_txAccepted : Z; m_txRejected : Z; m_l1Rounds : Z; m_l2Rounds : Z;
  m_admitAt : gmap string Z;
  m_confirmed : list Z;
  m_admitted : list Z;
  m_confirmMsSamples : list Z; m_confirmMsTotal : Z; m_confirmMsCount : Z;
  m_peakConfirm1s : spec_float; m_peakConfirm10s : spec_float; m_peakIngress1s : spec_float; m_peakIngress10s : spec_float;
  m_lastCPUTicks : Z; m_lastCPUTime : option Z; m_lastCPUPct : spec_float
}.

Definition newExploreMetrics : exploreMetrics := mkMetrics 0 0 0 0 0 ∅ [] [] [] 0 0 zeroF zeroF zeroF zeroF 0 None zeroF.

(** Counters and CPU samples, windows, delays, peaks. *)
Definition with_counters (rec acc rej l1 l2 : Z) (m : exploreMetrics) : exploreMetrics :=
  mkMetrics rec acc rej l1 l2 (m_admitAt m) (m_confirmed m) (m_admitted m) (m_confirmMsSamples m) (m_confirmMsTotal m) (m_confirmMsCount m)
    (m_peakConfirm1s m) (m_peakConfirm10s m) (m_peakIngress1s m) (m_peakIngress10s m) (m_lastCPUTicks m) (m_lastCPUTime m) (m_lastCPUPct m).

Definition with_windows (admitAt : gmap string Z) (confirmed admitted : list Z) (m : exploreMetrics) : exploreMetrics :=
  mkMetrics (m_txReceived m) (m_txAccepted m) (m_txRejected m) (m_l1Rounds m) (m_l2Rounds m) admitAt confirmed admitted
    (m_confirmMsSamples m) (m_confirmMsTotal m) (m_confirmMsCount m)
    (m_peakConfirm1s m) (m_peakConfirm10s m) (m_peakIngress1s m) (m_peakIngress10s m) (m_lastCPUTicks m) (m_lastCPUTime m) (m_lastCPUPct m).

Definition with_delays (samples : list Z) (total count : Z) (m : exploreMetrics) : exploreMetrics :=
  mkMetrics (m_txReceived m) (m_txAccepted m) (m_txRejected m) (m_l1Rounds m) (m_l2Rounds m) (m_admitAt m) (m_confirmed m) (m_admitted m)
    samples total count
    (m_peakConfirm1s m) (m_peakConfirm10s m) (m_peakIngress1s m) (m_peakIngress10s m) (m_lastCPUTicks m) (m_lastCPUTime m) (m_lastCPUPct m).

Definition with_peaks (c1 c10 i1 i10 : spec_float) (m : exploreMetrics) : exploreMetrics :=
  mkMetrics (m_txReceived m) (m_txAccepted m) (m_txRejected m) (m_l1Rounds m) (m_l2Rounds m) (m_admitAt m) (m_confirmed m) (m_admitted m)
    (m_confirmMsSamples m) (m_confirmMsTotal m) (m_confirmMsCount m) c1 c10 i1 i10 (m_lastCPUTicks m) (m_lastCPUTime m) (m_lastCPUPct m).

Definition with_cpu (ticks : Z) (at_ : option Z) (pct : spec_float) (m : exploreMetrics) : exploreMetrics :=
  mkMetrics (m_txReceived m) (m_txAccepted m) (m_txRejected m) (m_l1Rounds m) (m_l2Rounds m) (m_admitAt m) (m_confirmed m) (m_admitted m)
    (m_confirmMsSamples m) (m_confirmMsTotal m) (m_confirmMsCount m)
    (m_peakConfirm1s m) (m_peakConfirm10s m) (m_peakIngress1s m) (m_peakIngress10s m) ticks at_ pct.

(** ** Windows *)

(** The entries of the window are moved to the front, and the slice is cut after the
    first [metricsMaxSamples] of them. *)
Definition trimTimesLocked (now : Z) (times : list Z) : list Z :=
  take (Z.to_nat metricsMaxSamples) (filter (fun t => i64 (now - metricsWindowMs) <= t) times).

(** From the end, up to the first entry before the cutoff. *)
Fixpoint countBack (cutoff : Z) (rtimes : list Z) : Z :=
  match rtimes with [] => 0 | t :: rest => if t <? cutoff then 0 else 1 + countBack cutoff rest end.

Definition countInWindow (times : list Z) (now windowMs : Z) : Z := countBack (i64 (now - windowMs)) (reverse times).

Definition tps1s (times : list Z) (now : Z) : spec_float := float64 (countInWindow times now 1000).
Definition tps10s (times : list Z) (now : Z) : spec_float := float_div (float64 (countInWindow times now 10000)) (float64 10).

(** [if tps > peak { peak = tps }]. *)
Definition raise (peak tps : spec_float) : spec_float := if SFltb peak tps then tps else peak.

Definition updateConfirmPeaksLocked (now : Z) (m : exploreMetrics) : exploreMetrics :=
  with_peaks (raise (m_peakConfirm1s m) (tps1s (m_confirmed m) now)) (raise (m_peakConfirm10s m) (tps10s (m_confirmed m) now))
    (m_peakIngress1s m) (m_peakIngress10s m) m.

Definition updateIngressPeaksLocked (now : Z) (m : exploreMetrics) : exploreMetrics :=
  with_peaks (m_peakConfirm1s m) (m_peakConfirm10s m)
    (raise (m_peakIngress1s m) (tps1s (m_admitted m) now)) (raise (m_peakIngress10s m) (tps10s (m_admitted m) now)) m.

(** ** Events *)

Definition recordTxReceived (m : exploreMetrics) : exploreMetrics :=
  with_counters (u64 (m_txReceived m + 1)) (m_txAccepted m) (m_txRejected m) (m_l1Rounds m) (m_l2Rounds m) m.

Definition recordTxRejected (m : exploreMetrics) : exploreMetrics :=
  with_counters (m_txReceived m) (m_txAccepted m) (u64 (m_txRejected m + 1)) (m_l1Rounds m) (m_l2Rounds m) m.

Definition recordL1Round (m : exploreMetrics) : exploreMetrics :=
  with_counters (m_txReceived m) (m_txAccepted m) (m_txRejected m) (u64 (m_l1Rounds m + 1)) (m_l2Rounds m) m.

Definition recordTxAccepted (hash : string) (now : Z) (m : exploreMetrics) : exploreMetrics :=
  let m := with_counters (m_txReceived m) (u64 (m_txAccepted m + 1)) (m_txRejected m) (m_l1Rounds m) (m_l2Rounds m) m in
  let admitAt := if String.eqb hash "" then m_admitAt m else <[hash := now]> (m_admitAt m) in
  let m := with_windows admitAt (m_confirmed m) (trimTimesLocked now (m_admitted m ++ [now])) m in
  updateIngressPeaksLocked now m.

(** The last 512 samples. *)
Definition keepSamples (l : list Z) : list Z := drop (length l - 512) l.

(** One confirmed hash. *)
Definition confirmHash (now : Z) (m : exploreMetrics) (h : string) : exploreMetrics :=
  if String.eqb h "" then m
  else
  let m := match m_admitAt m !! h with
    | Some at_ =>
        if 0 <? at_ then
          let delta := i64 (now - at_) in
          let m := if 0 <=? delta
                   then with_delays (keepSamples (m_confirmMsSamples m ++ [delta])) (i64 (m_confirmMsTotal m + delta)) (u64 (m_confirmMsCount m + 1)) m
                   else m in
          with_windows (delete h (m_admitAt m)) (m_confirmed m) (m_admitted m) m
        else m
    | None => m
    end in
  with_windows (m_admitAt m) (m_confirmed m ++ [now]) (m_admitted m) m.

Definition recordL2Confirm (hashes : list string) (now : Z) (m : exploreMetrics) : exploreMetrics :=
  let m := with_counters (m_txReceived m) (m_txAccepted m) (m_txRejected m) (m_l1Rounds m) (u64 (m_l2Rounds m + 1)) m in
  let m := foldl (confirmHash now) m hashes in
  let m := with_windows (m_admitAt m) (trimTimesLocked now (m_confirmed m)) (m_admitted m) m in
  updateConfirmPeaksLocked now m.

(** ** Process figures *)

(** [/proc/self/stat]: [stat] is its first line, [None] when it cannot be read. The
    result is [None] where the index [fields[12]] is out of range and panics. *)
Definition linuxProcessCPUTicks (stat : option string) : option (option Z) :=
  match stat with
  | None => Some None
  | Some line =>
      let closeIdx := LastIndex line ")" in
      if (closeIdx <? 0) || (len line <=? closeIdx + 2) then Some None
      else
      let fields := Fields (str_drop (Z.to_nat (closeIdx + 2)) line) in
      if (length fields <? 12)%nat then Some None
      else match fields !! 11%nat, fields !! 12%nat with
      | Some u, Some s =>
          let '(utime, ok1) := ParseInt u in
          let '(stime, ok2) := ParseInt s in
          Some (if ok1 && ok2 then Some (i64 (utime + stime)) else None)
      | _, _ => None
      end
  end.

Definition nanos : Z := 1000000000.

(** [Duration.Seconds]. *)
Definition seconds (d : Z) : spec_float :=
  float_add (float64 (Z.quot d nanos)) (float_div (float64 (Z.rem d nanos)) (float64 nanos)).

(** 0.05 as a float64. *)
Definition float005 : spec_float := S754_finite false 7205759403792794 (-57).

(** 0.5. *)
Definition half : spec_float := S754_finite false 4503599627370496 (-53).

Definition hundred : spec_float := float64 100.

(** The CPU share and the new samples; [numCPU] is [runtime.NumCPU()], [now] in
    nanoseconds. *)
Definition readProcessResources (ticks : option Z) (now numCPU : Z) (m : exploreMetrics) : exploreMetrics * spec_float :=
  let '(cpu, last) := match ticks, m_lastCPUTime m with
    | Some t, Some lastAt =>
        let elapsed := seconds (Z.max minInt64 (Z.min maxInt64 (now - lastAt))) in
        let delta := i64 (t - m_lastCPUTicks m) in
        if SFltb float005 elapsed && (0 <=? delta) then
          let c := float_mul (float_div (float_div (float64 delta) hundred) elapsed) hundred in
          let c := if SFltb c zeroF then zeroF else c in
          let most := float_mul hundred (float64 numCPU) in
          let c := if SFltb most c then most else c in (c, c)
        else (zeroF, m_lastCPUPct m)
    | _, _ => (zeroF, m_lastCPUPct m)
    end in
  let m := match ticks with Some t => with_cpu t (Some now) last m | None => with_cpu (m_lastCPUTicks m) (m_lastCPUTime m) last m end in
  (m, if SFeqb cpu zeroF && SFltb zeroF last then last else cpu).

Definition round2 (v : spec_float) : spec_float :=
  float_div (float64 (int64_of_float (float_add (float_mul v hundred) half))) hundred.

Definition round0 (v : spec_float) : spec_float := float64 (int64_of_float (float_add v half)).

Record Snapshot := mkSnapshot {
  sn_txReceived : Z; sn_txAccepted : Z; sn_txRejected : Z; sn_l1Rounds : Z; sn_l2Rounds : Z;
  sn_currentTps : spec_float; sn_currentConfirmTps : spec_float; sn_peakTps1s : spec_float; sn_peakTps10s : spec_float;
  sn_peakConfirmTps1s : spec_float; sn_peakConfirmTps10s : spec_float; sn_avgConfirmationTimeMs : spec_float; sn_cpuUsagePct : spec_float
}.

(** [now] in milliseconds, [nowNs] the later reading in nanoseconds. *)
Definition snapshot (now nowNs numCPU : Z) (ticks : option Z) (m : exploreMetrics) : exploreMetrics * Snapshot :=
  let m := updateIngressPeaksLocked now (updateConfirmPeaksLocked now m) in
  let avg := if 0 <? m_confirmMsCount m then float_div (float64 (m_confirmMsTotal m)) (float64 (m_confirmMsCount m)) else zeroF in
  let currentIngress := tps1s (m_admitted m) now in
  let currentConfirm := tps1s (m_confirmed m) now in
  let '(m, cpu) := readProcessResources ticks nowNs numCPU m in
  (m, mkSnapshot (m_txReceived m) (m_txAccepted m) (m_txRejected m) (m_l1Rounds m) (m_l2Rounds m)
        (round2 currentIngress) (round2 currentConfirm) (round2 (m_peakIngress1s m)) (round2 (m_peakIngress10s m))
        (round2 (m_peakConfirm1s m)) (round2 (m_peakConfirm10s m)) (round0 avg) (round2 cpu)).
