(* ===== verification/ExploreMetricsSpec.v ===== *)
(** * What the live metrics show

    Memory is bounded; the peaks are the maxima of the counted rates; the counted
    rate is the number of events in the window as long as the window is not full,
    and a full window stops counting. *)

From S2P Require Import Prelude GoStd GoJson GoText ExploreMetrics.
From Stdlib Require Import Floats.SpecFloat.
From stdpp Require Import sorting.

#[local] Open Scope Z_scope.

(** ** Events *)

Inductive metricEvent :=
| EvReceived | EvRejected | EvL1
| EvAccepted (hash : string) (now : Z)
| EvConfirmed (hashes : list string) (now : Z)
| EvSnapshot (now nowNs numCPU : Z) (ticks : option Z).

Definition recordEvent (m : exploreMetrics) (e : metricEvent) : exploreMetrics :=
  match e with
  | EvReceived => recordTxReceived m
  | EvRejected => recordTxRejected m
  | EvL1 => recordL1Round m
  | EvAccepted h now => recordTxAccepted h now m
  | EvConfirmed hs now => recordL2Confirm hs now m
  | EvSnapshot now nowNs n ticks => (snapshot now nowNs n ticks m).1
  end.

Definition recordEvents (es : list metricEvent) : exploreMetrics := foldl recordEvent newExploreMetrics es.

Lemma recordEvents_snoc es e : recordEvents (es ++ [e]) = recordEvent (recordEvents es) e.
Proof. unfold recordEvents. by rewrite foldl_app. Qed.

(** ** Which fields an event touches *)

Lemma readProcess_frame ticks now n m m' cpu : readProcessResources ticks now n m = (m', cpu) ->
  m_admitted m' = m_admitted m /\ m_confirmed m' = m_confirmed m /\ m_confirmMsSamples m' = m_confirmMsSamples m /\
  m_peakConfirm1s m' = m_peakConfirm1s m /\ m_peakConfirm10s m' = m_peakConfirm10s m /\
  m_peakIngress1s m' = m_peakIngress1s m /\ m_peakIngress10s m' = m_peakIngress10s m.
Proof.
  unfold readProcessResources. destruct (match ticks with Some t => _ | None => _ end) as [c last].
  intros [= <- _]. by destruct ticks.
Qed.

Lemma snapshot_frame now nowNs n ticks m (m' := (snapshot now nowNs n ticks m).1) :
  m_admitted m' = m_admitted m /\ m_confirmed m' = m_confirmed m /\ m_confirmMsSamples m' = m_confirmMsSamples m /\
  m_peakConfirm1s m' = raise (m_peakConfirm1s m) (tps1s (m_confirmed m) now) /\
  m_peakConfirm10s m' = raise (m_peakConfirm10s m) (tps10s (m_confirmed m) now) /\
  m_peakIngress1s m' = raise (m_peakIngress1s m) (tps1s (m_admitted m) now) /\
  m_peakIngress10s m' = raise (m_peakIngress10s m) (tps10s (m_admitted m) now).
Proof.
  subst m'. unfold snapshot. set (u := updateIngressPeaksLocked now _).
  destruct (readProcessResources ticks nowNs n u) as [m2 cpu] eqn:E. apply readProcess_frame in E. simpl. by subst u.
Qed.

Lemma confirmHashes_frame now hs m (m' := foldl (confirmHash now) m hs) :
  m_admitted m' = m_admitted m /\ m_confirmed m' = m_confirmed m ++ ((fun _ => now) <$> filter (fun h => h <> "") hs) /\
  m_peakConfirm1s m' = m_peakConfirm1s m /\ m_peakConfirm10s m' = m_peakConfirm10s m /\
  m_peakIngress1s m' = m_peakIngress1s m /\ m_peakIngress10s m' = m_peakIngress10s m /\
  ((length (m_confirmMsSamples m) <= 512)%nat -> (length (m_confirmMsSamples m') <= 512)%nat).
Proof.
  subst m'. revert m. induction hs as [|h hs IH]; intros m; [rewrite app_nil_r; by auto|].
  cbn [foldl]. specialize (IH (confirmHash now m h)). destruct IH as (-> & -> & -> & -> & -> & -> & Hs).
  unfold confirmHash in *. rewrite filter_cons. destruct (String.eqb_spec h "") as [->|Hne].
  { rewrite decide_False by (by intros []). done. }
  rewrite decide_True by done.
  assert (Hk : forall l d, (length (keepSamples (l ++ [d])) <= 512)%nat).
  { intros l d. unfold keepSamples. rewrite length_drop. lia. }
  destruct (m_admitAt m !! h) as [a|]; [destruct (0 <? a); [destruct (0 <=? _)|]|];
    cbn -[keepSamples] in *; rewrite <- ?app_assoc; split_and!; auto.
Qed.

(** ** Bounds *)

Lemma trim_length now l : (length (trimTimesLocked now l) <= 4096)%nat.
Proof. unfold trimTimesLocked. rewrite length_take. unfold metricsMaxSamples. lia. Qed.

Lemma countBack_bound c l : 0 <= countBack c l <= Z.of_nat (length l).
Proof. induction l as [|t l IH]; simpl; [lia|]. destruct (t <? c); lia. Qed.

Lemma count_bound l now w : 0 <= countInWindow l now w <= Z.of_nat (length l).
Proof. unfold countInWindow. rewrite <- (length_reverse l). apply countBack_bound. Qed.

(** Whatever happens, the windows keep at most 4096 timestamps each and the delays
    at most 512 samples. *)
Record bounded (m : exploreMetrics) : Prop := mkBounded {
  bd_admitted : (length (m_admitted m) <= 4096)%nat;
  bd_confirmed : (length (m_confirmed m) <= 4096)%nat;
  bd_samples : (length (m_confirmMsSamples m) <= 512)%nat
}.

Lemma recordEvent_bounded m e : bounded m -> bounded (recordEvent m e).
Proof.
  intros [H1 H2 H3]. destruct e as [| | |h now|hs now|now nowNs n ticks]; cbn [recordEvent]; try done.
  - split; [apply trim_length|done|done].
  - unfold recordL2Confirm. set (m1 := with_counters _ _ _ _ _ m).
    destruct (confirmHashes_frame now hs m1) as (Ha & _ & _ & _ & _ & _ & Hs).
    split; cbn; [by rewrite Ha|apply trim_length|by apply Hs].
  - destruct (snapshot_frame now nowNs n ticks m) as (E1 & E2 & E3 & _). split; [by rewrite E1|by rewrite E2|by rewrite E3].
Qed.

Theorem metrics_bounded es : bounded (recordEvents es).
Proof.
  induction es as [|e es IH] using rev_ind; [split; simpl; lia|]. rewrite recordEvents_snoc. by apply recordEvent_bounded.
Qed.

(** ** Rates as floats are ordered like the counts *)

(** Positive doubles in the order of their exponent and mantissa. *)
Definition fkey (f : spec_float) : option (Z * Z) :=
  match f with S754_zero _ => Some (-5000, 0) | S754_finite false m e => Some (e, Z.pos m) | _ => None end.

Definition klt (a b : Z * Z) : bool := (a.1 <? b.1) || ((a.1 =? b.1) && (a.2 <? b.2)).

Definition fkeyLess (f g : spec_float) : bool :=
  match fkey f, fkey g with Some a, Some b => (-5000 <=? a.1) && klt a b | _, _ => false end.

Lemma klt_irrefl a : klt a a = false.
Proof. unfold klt. rewrite !Z.ltb_irrefl. by rewrite andb_false_r. Qed.

Lemma klt_trans a b c : klt a b = true -> klt b c = true -> klt a c = true.
Proof. unfold klt. rewrite !orb_true_iff, !andb_true_iff, !Z.ltb_lt, !Z.eqb_eq. lia. Qed.

Lemma fkeyLess_trans f g h : fkeyLess f g = true -> fkeyLess g h = true -> fkeyLess f h = true.
Proof.
  unfold fkeyLess. destruct (fkey f) as [a|], (fkey g) as [b|], (fkey h) as [c|]; try done.
  rewrite !andb_true_iff. intros [H1 H2] [H3 H4]. split; [done|]. by apply (klt_trans a b c).
Qed.

Lemma fkeyLess_SFltb f g : fkeyLess f g = true -> SFltb f g = true /\ SFltb g f = false.
Proof.
  unfold fkeyLess, fkey, klt, SFltb, SFcompare.
  destruct f as [sf|sf| |[] mf ef], g as [sg|sg| |[] mg eg]; try done; cbn [fst snd];
    rewrite andb_true_iff, orb_true_iff, andb_true_iff, Z.leb_le, !Z.ltb_lt, Z.eqb_eq; intros [H0 H]; [lia..|].
  destruct (Z.compare_spec ef eg) as [->|Hlt|Hgt]; [|rewrite (proj2 (Z.compare_gt_iff eg ef)) by lia; done|lia].
  rewrite Z.compare_refl. change (Pos.compare_cont Eq mf mg) with (mf ?= mg)%positive.
  change (Pos.compare_cont Eq mg mf) with (mg ?= mf)%positive.
  assert (mf < mg)%positive by lia. rewrite (proj2 (Pos.compare_lt_iff mf mg)), (proj2 (Pos.compare_gt_iff mg mf)) by lia. done.
Qed.

(** A sequence of doubles whose neighbours increase, up to [n]. *)
Definition increasing (f : Z -> spec_float) (n : nat) : bool :=
  forallb (fun i => fkeyLess (f (Z.of_nat i)) (f (Z.of_nat i + 1))) (seq 0 n).

Lemma increasing_less f n a b : increasing f n = true -> 0 <= a < b -> b <= Z.of_nat n -> fkeyLess (f a) (f b) = true.
Proof.
  unfold increasing. rewrite forallb_forall. intros H Ha Hb.
  assert (Hs : forall i, 0 <= i < Z.of_nat n -> fkeyLess (f i) (f (i + 1)) = true).
  { intros i Hi. specialize (H (Z.to_nat i)). rewrite Z2Nat.id in H by lia. apply H, in_seq. lia. }
  assert (Hk : forall k : nat, a + 1 + Z.of_nat k <= Z.of_nat n -> fkeyLess (f a) (f (a + 1 + Z.of_nat k)) = true).
  { induction k as [|k IH]; intros Hk.
    - replace (a + 1 + Z.of_nat 0) with (a + 1) by lia. apply Hs. lia.
    - eapply fkeyLess_trans; [apply IH; lia|]. replace (a + 1 + Z.of_nat (S k)) with (a + 1 + Z.of_nat k + 1) by lia. apply Hs. lia. }
  specialize (Hk (Z.to_nat (b - a - 1))). replace (a + 1 + Z.of_nat (Z.to_nat (b - a - 1))) with b in Hk by lia. by apply Hk.
Qed.

Lemma raise_max f n a b : increasing f n = true -> 0 <= a <= Z.of_nat n -> 0 <= b <= Z.of_nat n ->
  raise (f a) (f b) = f (Z.max a b).
Proof.
  intros H Ha Hb. unfold raise. destruct (Z.lt_trichotomy a b) as [Hlt|[->|Hgt]].
  - pose proof (increasing_less f n a b H ltac:(lia) ltac:(lia)) as [-> _]%fkeyLess_SFltb. f_equal. lia.
  - rewrite Z.max_id. by destruct (SFltb _ _).
  - pose proof (increasing_less f n b a H ltac:(lia) ltac:(lia)) as [_ ->]%fkeyLess_SFltb. f_equal. lia.
Qed.

Definition perSecond (k : Z) : spec_float := float64 k.
Definition perTenSeconds (k : Z) : spec_float := float_div (float64 k) (float64 10).

Lemma perSecond_increasing : increasing perSecond 4096 = true.
Proof. vm_compute. reflexivity. Qed.

Lemma perTenSeconds_increasing : increasing perTenSeconds 4096 = true.
Proof. vm_compute. reflexivity. Qed.

(** ** Peaks *)

(** The count that an event observes in a window, after the event. *)
Definition observed (times : exploreMetrics -> list Z) (confirm : bool) (w : Z) (m : exploreMetrics) (e : metricEvent) : Z :=
  match e with
  | EvAccepted _ now => if confirm then 0 else countInWindow (times m) now w
  | EvConfirmed _ now => if confirm then countInWindow (times m) now w else 0
  | EvSnapshot now _ _ _ => countInWindow (times m) now w
  | _ => 0
  end.

Definition windowOf (confirm : bool) : exploreMetrics -> list Z := if confirm then m_confirmed else m_admitted.

(** The largest count observed so far: the abstract peak. *)
Definition largest (confirm : bool) (w : Z) (es : list metricEvent) : Z :=
  (foldl (fun '(m, k) e => let m := recordEvent m e in (m, Z.max k (observed (windowOf confirm) confirm w m e))) (newExploreMetrics, 0) es).2.

Lemma largest_snoc confirm w es e :
  largest confirm w (es ++ [e]) = Z.max (largest confirm w es) (observed (windowOf confirm) confirm w (recordEvents (es ++ [e])) e).
Proof.
  unfold largest. rewrite foldl_app. cbn [foldl].
  assert (Hm : forall es m k, (foldl (fun '(m, k) e => let m := recordEvent m e in (m, Z.max k (observed (windowOf confirm) confirm w m e))) (m, k) es).1
             = foldl recordEvent m es).
  { induction es0 as [|x xs IH]; intros m k; [done|]. cbn [foldl]. apply IH. }
  specialize (Hm es newExploreMetrics 0). destruct (foldl _ (newExploreMetrics, 0) es) as [m k]. simpl in *.
  by rewrite recordEvents_snoc, Hm.
Qed.

Lemma observed_bound confirm w m e : bounded m -> 0 <= observed (windowOf confirm) confirm w m e <= 4096.
Proof.
  intros [H1 H2 _]. pose proof (count_bound (m_admitted m)) as Ca. pose proof (count_bound (m_confirmed m)) as Cc.
  destruct confirm, e as [| | |h now|hs now|now ? ? ?]; simpl; try lia; specialize (Ca now w); specialize (Cc now w); lia.
Qed.

Lemma largest_bound confirm w es : 0 <= largest confirm w es <= 4096.
Proof.
  induction es as [|e es IH] using rev_ind; [done|]. rewrite largest_snoc.
  pose proof (observed_bound confirm w (recordEvents (es ++ [e])) e (metrics_bounded _)). lia.
Qed.

#[local] Opaque float64 float_div SFdiv.

Lemma tps1s_eq l now : tps1s l now = perSecond (countInWindow l now 1000).
Proof. reflexivity. Qed.

Lemma tps10s_eq l now : tps10s l now = perTenSeconds (countInWindow l now 10000).
Proof. reflexivity. Qed.

(** Whether an event looks at a window. *)
Definition looks (confirm : bool) (e : metricEvent) : bool :=
  match e with EvAccepted _ _ => negb confirm | EvConfirmed _ _ => confirm | EvSnapshot _ _ _ _ => true | _ => false end.

(** How an event moves a peak. *)
Definition moved (confirm : bool) (f : Z -> spec_float) (w : Z) (m' : exploreMetrics) (e : metricEvent) (p : spec_float) : spec_float :=
  if looks confirm e then raise p (f (observed (windowOf confirm) confirm w m' e)) else p.

Lemma peaks_step m e (m' := recordEvent m e) :
  m_peakConfirm1s m' = moved true perSecond 1000 m' e (m_peakConfirm1s m) /\
  m_peakConfirm10s m' = moved true perTenSeconds 10000 m' e (m_peakConfirm10s m) /\
  m_peakIngress1s m' = moved false perSecond 1000 m' e (m_peakIngress1s m) /\
  m_peakIngress10s m' = moved false perTenSeconds 10000 m' e (m_peakIngress10s m).
Proof.
  subst m'. unfold moved. destruct e as [| | |h now|hs now|now nowNs n ticks]; cbn [looks negb recordEvent observed windowOf].
  1-3: split_and!; reflexivity.
  - unfold recordTxAccepted, updateIngressPeaksLocked.
    cbn [with_peaks with_windows with_counters m_peakConfirm1s m_peakConfirm10s m_peakIngress1s m_peakIngress10s m_admitted m_confirmed].
    rewrite tps1s_eq, tps10s_eq. split_and!; reflexivity.
  - unfold recordL2Confirm. set (m1 := with_counters _ _ _ _ _ m).
    destruct (confirmHashes_frame now hs m1) as (_ & _ & E1 & E2 & E3 & E4 & _).
    set (m2 := foldl (confirmHash now) m1 hs) in *. clearbody m2.
    unfold updateConfirmPeaksLocked. cbn [with_peaks with_windows m_peakConfirm1s m_peakConfirm10s m_peakIngress1s m_peakIngress10s m_confirmed].
    rewrite E1, E2, E3, E4, tps1s_eq, tps10s_eq. split_and!; reflexivity.
  - destruct (snapshot_frame now nowNs n ticks m) as (E1 & E2 & _ & E4 & E5 & E6 & E7).
    rewrite E1, E2, E4, E5, E6, E7, !tps1s_eq, !tps10s_eq. split_and!; reflexivity.
Qed.

Lemma peak_step confirm f w es e p :
  increasing f 4096 = true -> p = f (largest confirm w es) ->
  moved confirm f w (recordEvents (es ++ [e])) e p = f (largest confirm w (es ++ [e])).
Proof.
  intros Hf ->. rewrite largest_snoc. unfold moved. pose proof (largest_bound confirm w es) as Hl.
  pose proof (observed_bound confirm w (recordEvents (es ++ [e])) e (metrics_bounded _)) as Ho.
  destruct (looks confirm e) eqn:El; [by apply (raise_max f 4096)|].
  replace (observed _ _ _ _ e) with 0; [f_equal; lia|]. by destruct confirm, e.
Qed.

Lemma peak_is_largest confirm f w (peak : exploreMetrics -> spec_float) :
  increasing f 4096 = true -> peak newExploreMetrics = f 0 ->
  (forall m e, peak (recordEvent m e) = moved confirm f w (recordEvent m e) e (peak m)) ->
  forall es, peak (recordEvents es) = f (largest confirm w es).
Proof.
  intros Hf H0 Hstep. induction es as [|e es IH] using rev_ind; [exact H0|].
  rewrite recordEvents_snoc, Hstep, <- recordEvents_snoc. by apply peak_step.
Qed.

(** the four peaks are the maxima of what was observed. After any sequence of
    events, with any clock readings, each peak is the float64 rate of the largest
    count that an update of it saw (per second, or over ten seconds divided by ten),
    so no peak is ever lost or lowered by the comparison of floats; and counts never
    exceed 4096. *)
Theorem peaks_refine_maxima es (m := recordEvents es) :
  m_peakConfirm1s m = perSecond (largest true 1000 es) /\ m_peakConfirm10s m = perTenSeconds (largest true 10000 es) /\
  m_peakIngress1s m = perSecond (largest false 1000 es) /\ m_peakIngress10s m = perTenSeconds (largest false 10000 es) /\
  (forall confirm w, 0 <= largest confirm w es <= 4096).
Proof.
  subst m. pose proof (fun m e => peaks_step m e) as P.
  split; [apply (peak_is_largest true perSecond 1000 m_peakConfirm1s perSecond_increasing eq_refl); intros m e; apply P|].
  split; [apply (peak_is_largest true perTenSeconds 10000 m_peakConfirm10s perTenSeconds_increasing eq_refl); intros m e; apply P|].
  split; [apply (peak_is_largest false perSecond 1000 m_peakIngress1s perSecond_increasing eq_refl); intros m e; apply P|].
  split; [apply (peak_is_largest false perTenSeconds 10000 m_peakIngress10s perTenSeconds_increasing eq_refl); intros m e; apply P|].
  intros confirm w. apply largest_bound.
Qed.

(** ** Rates *)

Definition acceptTimes (es : list metricEvent) : list Z := omap (fun e => match e with EvAccepted _ t => Some t | _ => None end) es.

(** How many of the times lie in the window that ends now. *)
Definition recent (now w : Z) (times : list Z) : Z := Z.of_nat (length (filter (fun t => now - w <= t) times)).

(** A clock that does not go back, in a range that no subtraction leaves. *)
Definition clockOk (times : list Z) : Prop := StronglySorted Z.le times /\ Forall (fun t => 0 <= t < 2 ^ 62) times.

(** No ten minutes see more than 4096 admissions. *)
Definition unsaturated (times : list Z) : Prop := forall k t, times !! k = Some t -> recent t metricsWindowMs (take (S k) times) <= metricsMaxSamples.

Lemma filter_twice (a b : Z) (l : list Z) : a <= b -> filter (fun t => b <= t) (filter (fun t => a <= t) l) = filter (fun t => b <= t) l.
Proof.
  intros H. rewrite list_filter_filter. apply list_filter_iff. intros t. split; [tauto|]. intros; split; lia.
Qed.

(** Only admissions touch the ingress window. *)
Lemma admitted_frame m e : match e with EvAccepted _ _ => False | _ => True end -> m_admitted (recordEvent m e) = m_admitted m.
Proof.
  destruct e as [| | |h now|hs now|now nowNs n ticks]; cbn [recordEvent]; try done; intros _.
  - unfold recordL2Confirm. set (m1 := with_counters _ _ _ _ _ m). by destruct (confirmHashes_frame now hs m1) as (-> & _).
  - by destruct (snapshot_frame now nowNs n ticks m) as (-> & _).
Qed.

Lemma acceptTimes_snoc es e :
  acceptTimes (es ++ [e]) = acceptTimes es ++ match e with EvAccepted _ t => [t] | _ => [] end.
Proof. unfold acceptTimes. rewrite omap_app. by destruct e. Qed.

Lemma admitted_none es : acceptTimes es = [] -> m_admitted (recordEvents es) = [].
Proof.
  induction es as [|e es IH] using rev_ind; [done|]. rewrite acceptTimes_snoc, recordEvents_snoc. intros [El Ee]%app_eq_nil.
  rewrite admitted_frame; [by apply IH|]. by destruct e.
Qed.

Lemma sorted_last (l : list Z) t now : StronglySorted Z.le (l ++ [now]) -> last l = Some t -> t <= now.
Proof.
  intros Hs [l' ->]%last_Some. rewrite <- app_assoc in Hs. apply StronglySorted_app_1_r in Hs.
  inversion Hs as [|? ? _ Hf]; subst. by apply Forall_cons in Hf as [? _].
Qed.

Lemma admitted_kept es t :
  clockOk (acceptTimes es) -> unsaturated (acceptTimes es) -> last (acceptTimes es) = Some t ->
  m_admitted (recordEvents es) = filter (fun x => t - metricsWindowMs <= x) (acceptTimes es).
Proof.
  revert t. induction es as [|e es IH] using rev_ind; intros t; [done|].
  rewrite acceptTimes_snoc, recordEvents_snoc. destruct (match e with EvAccepted _ _ => false | _ => true end) eqn:Ee.
  { rewrite admitted_frame by (by destruct e). destruct e; try done; rewrite app_nil_r; apply IH. }
  destruct e as [| | |h now| |]; try done. cbn [recordEvent]. intros [Hs Hr] Hu. rewrite last_snoc. intros [= <-].
  cbn [m_admitted recordTxAccepted updateIngressPeaksLocked with_peaks with_windows with_counters].
  unfold trimTimesLocked. apply Forall_app in Hr as [Hr Hn]. apply Forall_cons in Hn as [Hn _].
  rewrite i64_small by (unfold is_i64, two63, metricsWindowMs; lia).
  assert (Hu' : unsaturated (acceptTimes es)).
  { intros k x Hk. specialize (Hu k x). rewrite lookup_app_l, take_app_le in Hu by (apply lookup_lt_Some in Hk; lia). by apply Hu. }
  assert (Hin : filter (fun x => now - metricsWindowMs <= x) (m_admitted (recordEvents es)) = filter (fun x => now - metricsWindowMs <= x) (acceptTimes es)).
  { destruct (last (acceptTimes es)) as [t|] eqn:El.
    - rewrite (IH t); [|split; [by apply StronglySorted_app_1_l in Hs|done]|done|done]. apply filter_twice.
      pose proof (sorted_last _ t now Hs El). lia.
    - apply last_None in El. by rewrite El, (admitted_none es El). }
  rewrite !filter_app, Hin. apply take_ge.
  specialize (Hu (length (acceptTimes es)) now). rewrite lookup_app_r, Nat.sub_diag in Hu by lia. specialize (Hu eq_refl).
  rewrite take_ge in Hu by (rewrite length_app; simpl; lia). unfold recent in Hu. rewrite filter_app in Hu. lia.
Qed.

(** Counting from the end of a sorted slice counts all entries of the window. *)
Lemma countBack_sorted c l : StronglySorted Z.ge l -> countBack c l = Z.of_nat (length (filter (fun t => c <= t) l)).
Proof.
  induction 1 as [|t l Hl IH Ht]; [done|]. simpl. rewrite filter_cons. destruct (Z.ltb_spec t c).
  - rewrite decide_False by lia. assert (filter (fun t => c <= t) l = []) as ->; [|done].
    destruct (filter _ l) as [|x r] eqn:E; [done|]. assert (Hx : x ∈ filter (fun t => c <= t) l) by (rewrite E; left).
    apply list_elem_of_filter in Hx as [? Hx]. rewrite Forall_forall in Ht. specialize (Ht x Hx). lia.
  - rewrite decide_True by lia. simpl. rewrite IH. lia.
Qed.

Lemma sorted_reverse l : StronglySorted Z.le l -> StronglySorted Z.ge (reverse l).
Proof.
  induction 1 as [|t l Hl IH Ht]; [constructor|]. rewrite reverse_cons. apply StronglySorted_app. split_and!; [|done|by repeat constructor].
  intros x y Hx Hy%list_elem_of_singleton. subst y. rewrite elem_of_reverse in Hx. rewrite Forall_forall in Ht. specialize (Ht x Hx). lia.
Qed.

Lemma count_sorted l now w : StronglySorted Z.le l -> is_i64 (now - w) -> countInWindow l now w = recent now w l.
Proof.
  intros Hs Hw. unfold countInWindow, recent. rewrite i64_small by done.
  rewrite countBack_sorted by (by apply sorted_reverse).
  by rewrite reverse_Permutation.
Qed.

Lemma filter_sorted (P : Z -> Prop) `{!forall x, Decision (P x)} l : StronglySorted Z.le l -> StronglySorted Z.le (filter P l).
Proof.
  induction 1 as [|t l Hl IH Ht]; [constructor|]. rewrite filter_cons. case_decide; [|done]. constructor; [done|].
  apply Forall_forall. intros x [_ Hx]%list_elem_of_filter. rewrite Forall_forall in Ht. by apply Ht.
Qed.

(** the ingress rate is exact while the window is not full. With a clock that does
    not go back and at most 4096 admissions in any ten minutes, the count shown for
    a window of up to ten minutes is the number of transactions admitted in it,
    whatever else happened: trimming loses none of them and counting from the end
    stops at the right place. *)
Theorem ingress_rate_exact es now w
  (Hclock : clockOk (acceptTimes es)) (Hnow : Forall (fun t => t <= now) (acceptTimes es)) (Hrange : 0 <= now < 2 ^ 62)
  (Hfull : unsaturated (acceptTimes es)) (Hw : 0 <= w <= metricsWindowMs) :
  countInWindow (m_admitted (recordEvents es)) now w = recent now w (acceptTimes es).
Proof.
  assert (Hi : is_i64 (now - w)) by (unfold is_i64, two63, metricsWindowMs in *; lia).
  destruct (last (acceptTimes es)) as [t|] eqn:El.
  - rewrite (admitted_kept es t Hclock Hfull El). rewrite count_sorted; [|apply filter_sorted, Hclock|done].
    unfold recent. rewrite filter_twice; [done|]. apply last_Some in El as [l' El].
    rewrite El, Forall_app, Forall_singleton in Hnow. lia.
  - apply last_None in El. by rewrite (admitted_none es El), El.
Qed.

Lemma ingress_rate_exact_witness :
  countInWindow (m_admitted (recordEvents [EvAccepted "a" 1000; EvReceived; EvAccepted "b" 700000; EvAccepted "c" 700500])) 701000 1000 = 2.
Proof.
  set (es := [EvAccepted "a" 1000; EvReceived; EvAccepted "b" 700000; EvAccepted "c" 700500]).
  assert (Ht : acceptTimes es = [1000; 700000; 700500]) by reflexivity.
  rewrite (ingress_rate_exact es 701000 1000); rewrite ?Ht.
  - vm_compute. reflexivity.
  - split; repeat constructor; lia.
  - repeat constructor; lia.
  - lia.
  - intros k t Hk. destruct k as [|[|[|k]]]; [injection Hk as <-..|discriminate Hk]; intros H; vm_compute in H; discriminate H.
  - unfold metricsWindowMs. lia.
Defined.

Lemma filter_all (P : Z -> Prop) `{!forall x, Decision (P x)} l : Forall P l -> filter P l = l.
Proof. induction 1 as [|x l Hx Hl IH]; [done|]. rewrite filter_cons, decide_True by done. by rewrite IH. Qed.

(** Admissions with their times, one after the other. *)
Definition admitAll (m : exploreMetrics) (txs : list (string * Z)) : exploreMetrics := foldl (fun m x => recordTxAccepted x.1 x.2 m) m txs.

(** A full window stops counting: trimming keeps the oldest 4096 entries, so that
    from then on, for up to ten minutes, admissions are not counted at all. One
    second after the window filled, the current rate shown is 0 however many
    transactions are being admitted. *)
Theorem full_window_goes_blind m t0 t1 txs
  (Hlen : length (m_admitted m) = 4096%nat) (Htimes : Forall (fun t => t0 <= t <= t1) (m_admitted m)) (H0 : 0 <= t0) (H1 : t1 < 2 ^ 62)
  (Htxs : Forall (fun x => t1 + 1000 < x.2 <= t0 + metricsWindowMs) txs) :
  m_admitted (admitAll m txs) = m_admitted m /\
  (forall now, t1 + 1000 < now <= t0 + metricsWindowMs -> countInWindow (m_admitted (admitAll m txs)) now 1000 = 0).
Proof.
  assert (Ht01 : t0 <= t1) by (destruct (m_admitted m); [done|]; apply Forall_cons in Htimes as [? _]; lia).
  assert (Hkeep : m_admitted (admitAll m txs) = m_admitted m).
  { revert m Hlen Htimes. induction Htxs as [|[h now] txs Hx Htxs IH]; intros m Hlen Htimes; [done|]. cbn [admitAll foldl fst snd] in *.
    assert (Hstep : m_admitted (recordTxAccepted h now m) = m_admitted m).
    { cbn [m_admitted recordTxAccepted updateIngressPeaksLocked with_peaks with_windows with_counters]. unfold trimTimesLocked.
      rewrite i64_small by (unfold is_i64, two63, metricsWindowMs in *; simpl in Hx; lia).
      rewrite filter_app, filter_all by (eapply Forall_impl; [exact Htimes|]; simpl in *; intros; lia).
      rewrite take_app_le by (rewrite Hlen; unfold metricsMaxSamples; lia). apply take_ge. rewrite Hlen. unfold metricsMaxSamples. lia. }
    specialize (IH (recordTxAccepted h now m)). unfold admitAll in IH. rewrite IH; [done|by rewrite Hstep|by rewrite Hstep]. }
  split; [done|]. intros now Hnow. rewrite Hkeep. unfold countInWindow.
  rewrite i64_small by (unfold is_i64, two63, metricsWindowMs in *; lia).
  destruct (reverse (m_admitted m)) as [|t r] eqn:E; [done|]. simpl.
  assert (Hin : t ∈ m_admitted m) by (rewrite <- elem_of_reverse, E; left).
  rewrite Forall_forall in Htimes. specialize (Htimes t Hin). by rewrite (proj2 (Z.ltb_lt _ _)) by lia.
Qed.

(** A line of /proc/self/stat with exactly twelve fields after the name passes the
    length check and panics at the thirteenth. *)
Example twelve_fields_panic : linuxProcessCPUTicks (Some "1 (x) S 1 2 3 4 5 6 7 8 9 10 11") = None.
Proof. vm_compute. reflexivity. Qed.

Example cpu_ticks_read : linuxProcessCPUTicks (Some "1 (a b) S 1 2 3 4 5 6 7 8 9 10 70 30 0") = Some (Some 100).
Proof. vm_compute. reflexivity. Qed.

(** The admission time of a transaction that is never confirmed is never forgotten. *)
Example admission_time_kept :
  m_admitAt (recordL2Confirm ["b"] 90000000 (recordTxAccepted "b" 6 (recordTxAccepted "a" 5 newExploreMetrics))) !! "a" = Some 5.
Proof. vm_compute. reflexivity. Qed.
