(* ===== verification/Accounts.v ===== *)
(** * The ranking of accounts (blockchain/accounts_index.go, GetAccounts)

    The balances are read from Core's state file, added up per address, and listed
    by balance in pages. [file] is the outcome of reading and decoding the file.
    Balances are unbounded integers ([big.Int]). *)

From S2P Require Import Prelude GoStd GoJson Dag Tx Chain ExplorerSpec CoreRpc CoreCalls GoText ExplorerRoutes.
From Stdlib Require Import Floats.SpecFloat.
From stdpp Require Import sorting.

#[local] Open Scope Z_scope.

(** ** The state file *)

Record stateFileAccounts := mkStateFile { sf_AssetBalances : list (list jval); sf_Nonces : list (list jval) }.

(** [[][]interface{}]. *)
Definition asRows (old : list (list jval)) (v : jval) : option (list (list jval)) :=
  match v with
  | JNull => Some []
  | JArray l => mapM (fun r => match r with JArray row => Some row | JNull => Some [] | _ => None end) l
  | _ => None
  end.

Definition parseStateFile (v : jval) : option stateFileAccounts :=
  m ← structFields (Some v); b ← field asRows [] m "asset_balances"; n ← field asRows [] m "nonces"; Some (mkStateFile b n).

(** [SetString(s, 10)] of a [big.Int]. *)
Definition parseBig (s : string) : option Z :=
  let '(neg, body) := split_sign s in n ← parse_digits body; Some (if neg then - n else n).

(** The number that [SetString] reads from [fmt.Sprint(v)]. A float64 is printed
    with the verb %g: from 10^6 on with an exponent, which [SetString] refuses. *)
Definition sprintBig (v : jval) : option Z :=
  match v with
  | JString s => parseBig s
  | JUint n => Some n
  | JNumber (S754_zero _) => Some 0
  | JNumber (S754_finite neg m e) =>
      let t := float_trunc neg m e in
      if float_integral (S754_finite neg m e) && (Z.abs t <? 10 ^ 6) then Some t else None
  | _ => None
  end.

Definition rowString (v : jval) : string := match v with JString s => s | _ => "" end.

(** One entry of [asset_balances]. *)
Definition addBalance (balances : gmap string Z) (entry : list jval) : gmap string Z :=
  match entry with
  | a :: t :: b :: _ =>
      if String.eqb (rowString a) "" || negb (String.eqb (rowString t) "PLP") then balances
      else match sprintBig b with
      | None => balances
      | Some bal => <[rowString a := default 0 (balances !! rowString a) + bal]> balances
      end
  | _ => balances
  end.

Definition addNonce {C : GoConv} (nonces : gmap string Z) (entry : list jval) : gmap string Z :=
  match entry with
  | a :: v :: _ =>
      if String.eqb (rowString a) "" then nonces
      else match v with
      | JNumber f => <[rowString a := uint64_of_float f]> nonces
      | JString s => let '(n, ok) := ParseUint s in if ok then <[rowString a := n]> nonces else nonces
      | _ => nonces
      end
  | _ => nonces
  end.

Definition loadStateBalances {C : GoConv} (file : result stateFileAccounts) : result (gmap string Z * gmap string Z) :=
  match file with
  | Err e => Err e
  | Ok data => Ok (foldl addBalance ∅ (sf_AssetBalances data), foldl addNonce ∅ (sf_Nonces data))
  end.

(** ** The listing *)

Record AccountRow := mkAccountRow { ar_address : string; ar_balance : Z; ar_nonce : Z; ar_txCount : Z }.

Record AccountListResult := mkAccountList {
  al_Accounts : list AccountRow; al_TotalCount : Z; al_TotalSupply : Z; al_Largest : option Z; al_Page : Z; al_Limit : Z; al_TotalPages : Z
}.

Section listing.
Context {R : GoRange} {G : GoSort} {C : GoConv}.

(** [txCounts[addr]]: the empty address is not counted. *)
Definition txCountOf (bc : Blockchain) (addr : string) : Z :=
  if String.eqb addr "" then 0 else Z.of_nat (length (addrTxs bc addr)).

Definition accountRows (bc : Blockchain) (balances nonces : gmap string Z) : list AccountRow :=
  omap (fun '(addr, bal) => if bal <=? 0 then None
                            else Some (mkAccountRow addr bal (default 0 (nonces !! addr)) (txCountOf bc addr))) (range balances).

Definition richer (a b : AccountRow) : bool := ar_balance b <? ar_balance a.

Definition accountsLimit (limit : Z) : Z :=
  let limit := if limit <? 1 then 25 else limit in if 100 <? limit then 100 else limit.

(** The inner [None] is a panic of the slice expression. *)
Definition ListTopAccounts (file : result stateFileAccounts) (page limit : Z) (bc : Blockchain) : result (option AccountListResult) :=
  let page := if page <? 1 then 1 else page in
  let limit := accountsLimit limit in
  match loadStateBalances file with
  | Err e => Err e
  | Ok (balances, nonces) =>
      let rows := accountRows bc balances nonces in
      let totalSupply := foldl (fun acc r => acc + ar_balance r) 0 rows in
      let rows := sortSlice richer rows in
      let b := pageBounds (Z.of_nat (length rows)) page limit in
      Ok (out ← pageOf rows page limit;
          Some (mkAccountList out (Z.of_nat (length rows)) totalSupply (ar_balance <$> head rows) (pb_page b) limit (pb_totalPages b)))
  end.

(** GET /api/accounts; [ledger] tells whether Core's ledger is there. *)
Definition GetAccounts (ledger : bool) (file : result stateFileAccounts) (q : string -> string) (bc : Blockchain) : option (httpReply AccountListResult) :=
  if negb ledger then Some (HttpError 503 "Core ledger unavailable")
  else match ListTopAccounts file (positiveParam q "page" 1) (positiveParam q "limit" 25) bc with
  | Err e => Some (HttpError 500 e)
  | Ok r => HttpOk <$> r
  end.

(** ** What the listing shows *)

(** The balances that the file holds. *)
Definition fileBalances (data : stateFileAccounts) : gmap string Z := foldl addBalance ∅ (sf_AssetBalances data).

Lemma accountRows_spec bc balances nonces :
  NoDup (ar_address <$> accountRows bc balances nonces) /\
  (forall r, r ∈ accountRows bc balances nonces <->
     balances !! ar_address r = Some (ar_balance r) /\ 0 < ar_balance r /\
     ar_nonce r = default 0 (nonces !! ar_address r) /\ ar_txCount r = txCountOf bc (ar_address r)).
Proof.
  unfold accountRows. split.
  - pose proof (range_keys_nodup balances) as Hn. induction (range balances) as [|[a b] l IH]; [constructor|].
    simpl in *. apply NoDup_cons in Hn as [Ha Hn]. specialize (IH Hn). destruct (b <=? 0); [done|]. simpl. constructor; [|done].
    intros (r & Hr & ([a' b'] & Hin & Hs)%list_elem_of_omap)%list_elem_of_fmap. destruct (b' <=? 0); [done|]. simplify_eq. simpl in *. subst.
    apply Ha. apply list_elem_of_fmap. by exists (a', b').
  - intros r. rewrite list_elem_of_omap. split.
    + intros ([a b] & Hin%elem_of_range & Hs). destruct (b <=? 0) eqn:E; [done|]. simplify_eq. bools. simpl. split_and!; [done|lia|done|done].
    + intros (Hb & Hp & Hn & Ht). exists (ar_address r, ar_balance r). split; [by apply elem_of_range|].
      rewrite (proj2 (Z.leb_gt _ _)) by done. f_equal. destruct r; simpl in *. by rewrite Hn, Ht.
Qed.

Lemma supply_foldl (l : list AccountRow) acc : foldl (fun acc r => acc + ar_balance r) acc l = acc + foldr (fun r z => ar_balance r + z) 0 l.
Proof. revert acc. induction l as [|r l IH]; intros acc; simpl; [lia|]. rewrite IH. lia. Qed.

(** Pages 1 to k of the listing. *)
Definition accountPages (file : result stateFileAccounts) (limit : Z) (bc : Blockchain) (k : Z) : option (list AccountListResult) :=
  mapM (fun p => match ListTopAccounts file p limit bc with Ok (Some r) => Some r | _ => None end) (seqZ 1 k).

(** Pages built from the parts of a list. *)
Lemma pages_built {A B} (f : Z -> option A) (h : Z -> option B) (g : Z -> A -> B) (part : B -> A) ps parts :
  mapM f ps = Some parts -> Forall (fun p => forall x, f p = Some x -> h p = Some (g p x)) ps -> (forall p x, part (g p x) = x) ->
  exists pages, mapM h ps = Some pages /\ part <$> pages = parts /\ Forall (fun q => exists p x, p ∈ ps /\ q = g p x) pages.
Proof.
  rewrite mapM_Some. intros H Hh Hg. exists (zip_with g ps parts). rewrite mapM_Some.
  induction H as [|p x ps parts Hx Hr IH]; [by split_and!|]. apply Forall_cons in Hh as [Hp Hh]. destruct (IH Hh) as (I1 & I2 & I3).
  cbn [zip_with]. split_and!.
  - constructor; [by apply Hp|done].
  - by rewrite fmap_cons, Hg, I2.
  - constructor; [exists p, x; split; [left|done]|]. eapply Forall_impl; [exact I3|]. intros q (p' & x' & ? & ->). exists p', x'. split; [by right|done].
Qed.

Lemma omap_shorter {A B} (f : A -> option B) l : (length (omap f l) <= length l)%nat.
Proof. induction l as [|x l IH]; [done|]. cbn. destruct (f x); cbn; [exact (le_n_S _ _ IH)|exact (le_S _ _ IH)]. Qed.

Lemma supply_perm l1 l2 : l1 ≡ₚ l2 -> foldr (fun r z => ar_balance r + z) 0 l1 = foldr (fun r z => ar_balance r + z) 0 l2.
Proof. induction 1; simpl; lia. Qed.

(** the ranking of accounts. For every state file and every limit, no page panics,
    and the pages together list exactly the addresses with a positive balance, each
    once, with the balance, the nonce and the number of indexed transactions,
    richest first; the supply shown on each page is the sum of all those balances
    and the largest balance is the first one. *)
Theorem accounts_ranking_exact data limit bc (balances := fileBalances data) (nonces := foldl addNonce ∅ (sf_Nonces data))
  (Hsmall : Z.of_nat (size balances) < 2 ^ 62) :
  exists k pages rows, 1 <= k /\ accountPages (Ok data) limit bc k = Some pages /\ concat (al_Accounts <$> pages) = rows /\
    StronglySorted (fun a b => ar_balance b <= ar_balance a) rows /\ NoDup (ar_address <$> rows) /\
    (forall r, r ∈ rows <-> balances !! ar_address r = Some (ar_balance r) /\ 0 < ar_balance r /\
       ar_nonce r = default 0 (nonces !! ar_address r) /\ ar_txCount r = txCountOf bc (ar_address r)) /\
    Forall (fun p => al_TotalCount p = Z.of_nat (length rows) /\ al_TotalPages p = k /\ al_Largest p = ar_balance <$> head rows /\
                     al_TotalSupply p = foldr (fun r z => ar_balance r + z) 0 rows) pages.
Proof.
  set (raw := accountRows bc balances nonces). set (rows := sortSlice richer raw). set (L := accountsLimit limit).
  assert (Hp : rows ≡ₚ raw) by apply sortSlice_perm.
  destruct (accountRows_spec bc balances nonces) as [Hnd Hin]. fold raw in Hnd, Hin.
  assert (Hlim : 1 <= L <= 100).
  { unfold L, accountsLimit. destruct (Z.ltb_spec limit 1); [|destruct (Z.ltb_spec 100 limit)]; simpl; lia. }
  assert (Hsm : smallList rows).
  { unfold smallList. rewrite Hp. pose proof (omap_shorter _ (range balances) : (length raw <= _)%nat). rewrite range_length in *. lia. }
  destruct (pages_concat rows L Hsm Hlim) as (parts & Hparts & Hcat). pose proof (totalPages_cover rows L Hsm Hlim) as (Hk & _).
  set (g := fun p out => mkAccountList out (Z.of_nat (length rows)) (foldl (fun acc r => acc + ar_balance r) 0 raw) (ar_balance <$> head rows)
              (pb_page (pageBounds (Z.of_nat (length rows)) p L)) L (pb_totalPages (pageBounds (Z.of_nat (length rows)) p L))).
  destruct (pages_built _ (fun p => match ListTopAccounts (Ok data) p limit bc with Ok (Some r) => Some r | _ => None end) g al_Accounts _ _ Hparts)
    as (pages & H1 & H2 & H3); [|done|].
  { apply Forall_forall. intros p Hps%elem_of_seqZ x Hx. unfold ListTopAccounts. rewrite (proj2 (Z.ltb_ge _ _)) by lia. simpl.
    change (foldl addBalance ∅ (sf_AssetBalances data)) with balances. fold nonces raw rows L. by rewrite Hx. }
  exists (totalPagesOf rows L), pages, rows. split_and!; [done|done|by rewrite H2| | | |].
  - eapply StronglySorted_weaken; [|apply (sortSlice_sorted richer raw), (strict_weak_desc ar_balance)].
    intros x y Hxy. unfold notLess, richer in Hxy. by apply Z.ltb_ge in Hxy.
  - by rewrite Hp.
  - intros r. by rewrite Hp.
  - eapply Forall_impl; [exact H3|]. intros q (p & x & _ & ->). cbn [g al_TotalCount al_TotalPages al_Largest al_TotalSupply].
    split_and!; [done|done|done|]. rewrite supply_foldl. by rewrite (supply_perm _ _ Hp).
Qed.
End listing.

Definition demoState : stateFileAccounts :=
  mkStateFile [[JString "PxLow"; JString "PLP"; JString "100"]; [JString "PxHigh"; JString "PLP"; JString "9000"]; [JString "PxLow"; JString "Token:XP"; JString "7"];
               [JString "PxZero"; JString "PLP"; JString "0"]; [JString "PxLow"; JString "PLP"; jint 5]] [[JString "PxHigh"; jint 2]].

Lemma accounts_ranking_exact_witness : exists pages rows,
  accountPages (R := canonical_range) (G := stable_sort) (C := zero_conv) (Ok demoState) 1 NewBlockchain 2 = Some pages /\
  concat (al_Accounts <$> pages) = rows /\ mkAccountRow "PxLow" 105 0 0 ∈ rows.
Proof.
  destruct (accounts_ranking_exact (R := canonical_range) (G := stable_sort) (C := zero_conv) demoState 1 NewBlockchain)
    as (k & pages & rows & Hk & Hp & Hrows & _ & _ & Hin & Htot); [vm_compute; reflexivity|].
  assert (Hl : mkAccountRow "PxLow" 105 0 0 ∈ rows) by (apply Hin; split_and!; vm_compute; reflexivity).
  exists pages, rows. split_and!; [|exact Hrows|exact Hl].
  destruct pages as [|q pages].
  { rewrite <- Hrows in Hl. by apply elem_of_nil in Hl. }
  apply Forall_cons in Htot as [(_ & Ht & _) _].
  unfold accountPages in Hp. replace k with 2 in Hp; [exact Hp|].
  rewrite seqZ_cons in Hp by lia. apply mapM_Some in Hp. apply Forall2_cons in Hp as [Hq _].
  match type of Hq with ?l = _ => let v := eval vm_compute in l in change l with v in Hq end. injection Hq as <-. exact Ht.
Defined.

(** A balance written as a number of a million or more is left out of the ranking
    and of the supply. *)
Example large_number_dropped :
  sprintBig (jint 999999) = Some 999999 /\ sprintBig (jint 1000000) = None /\ sprintBig (JString "1000000") = Some 1000000.
Proof. split_and!; vm_compute; reflexivity. Qed.
