(* ===== verification/Doctor.v ===== *)
(** * The consistency diagnostic and the durability counters
    (blockchain/consistency.go, core/consistency.go, handlers/consistency.go,
    metrics/counters.go, the --doctor flag of main.go)

    A read-only comparison of the state file, RocksDB and the chain history. What the
    stores answer is an argument: the ledger's state root, Core's own check, the reads
    of RocksDB, and chain.json on disk ([None]: no file, [Some None]: unreadable). *)

From S2P Require Import Prelude GoStd GoJson Dag Tx ForkChoice Chain Confirm History CoreRpc CoreCalls ExplorerRoutes.

#[local] Open Scope Z_scope.

(** ** Core's check *)

Record CoreConsistencyReport := mkCoreReport { cr_OK : bool; cr_Head : Z; cr_Errors : list string }.

Definition parseReport {C : GoConv} (m : jobj) : option CoreConsistencyReport :=
  ok ← field asBool false m "ok"; h ← field asUint64 0 m "head"; e ← field asStrings [] m "errors"; Some (mkCoreReport ok h e).

Section check.
Context {S : Type} {C : GoConv} (jsonOf : string -> option jval) (render : jval -> string).

(** [db] is the path of an enabled client, [None] otherwise. *)
Definition CheckConsistency (core : Core (S := S)) (db : option string) (s : S) : S * result CoreConsistencyReport :=
  match db with
  | None => (s, Err "rocks store unavailable")
  | Some dbPath => executeParsed jsonOf render core ["check-consistency"; "--db-path"; dbPath] parseReport s
  end.
End check.

(** ** Counters *)

Record DurabilityCounters := mkCounters { dc_coreRPCErrors : Z; dc_rocksCommitErrors : Z; dc_stateRocksDivergence : Z }.

Definition zeroCounters : DurabilityCounters := mkCounters 0 0 0.

(** A nil receiver is a no-op; [atomic.Int64] wraps. *)
Definition IncCoreRPCErrors (c : option DurabilityCounters) : option DurabilityCounters :=
  (fun c => mkCounters (i64 (dc_coreRPCErrors c + 1)) (dc_rocksCommitErrors c) (dc_stateRocksDivergence c)) <$> c.
Definition IncRocksCommitErrors (c : option DurabilityCounters) : option DurabilityCounters :=
  (fun c => mkCounters (dc_coreRPCErrors c) (i64 (dc_rocksCommitErrors c + 1)) (dc_stateRocksDivergence c)) <$> c.
Definition IncStateRocksDivergence (c : option DurabilityCounters) : option DurabilityCounters :=
  (fun c => mkCounters (dc_coreRPCErrors c) (dc_rocksCommitErrors c) (i64 (dc_stateRocksDivergence c + 1))) <$> c.
Definition CountersSnapshot (c : option DurabilityCounters) : DurabilityCounters := default zeroCounters c.
Definition ResetForTest (c : option DurabilityCounters) : option DurabilityCounters := (fun _ => zeroCounters) <$> c.

(** ** The diagnostic *)

(** A layer with its path and error text. *)
Record LayerView := mkLayer { lv_Path : string; lv_Tip : LayerTip; lv_Error : string }.

Record ConsistencyDiagnostic := mkDiag {
  cd_Status : string; cd_DiagnosticOnly : bool; cd_StateFile : LayerView; cd_Rocks : LayerView; cd_ChainJSON : LayerView;
  cd_CoreOK : option bool; cd_CoreHead : option Z; cd_Reasons : list string
}.

(** What the stores answer. *)
Record Stores := mkStores {
  ds_ledger : option (string * result string);
  ds_rocks : option (string * RocksReads);
  ds_check : result CoreConsistencyReport;
  ds_disk : option (option (list BlockRecord))
}.

Definition stateLayer (ledger : option (string * result string)) : LayerView * list string :=
  match ledger with
  | Some (path, Ok root) => (mkLayer path (mkTip 0 "" root true) "", [])
  | Some (path, Err e) => (mkLayer path (mkTip 0 "" "" true) e, ["state_file state_root: " +:+ e])
  | None => (mkLayer "" (mkTip 0 "" "" false) "ledger unavailable", [])
  end.

(** Height, hash and root of the block at the head, the height given by [other]
    when the head cannot be read. *)
Definition rocksTip (r : RocksReads) (other : Z) : LayerTip :=
  match RocksGetHead r with
  | Err _ => mkTip other "" "" true
  | Ok head =>
      match (if 0 <? head then storedAt r head else None) with
      | Some b => mkTip head (rb_BlockHash b) (rb_StateRoot b) true
      | None => mkTip head "" "" true
      end
  end.

Definition rocksLayer (rocks : option (string * RocksReads)) (check : result CoreConsistencyReport) : LayerView * option bool * option Z * list string :=
  match rocks with
  | None => (mkLayer "" (mkTip 0 "" "" false) "rocks unavailable", None, None, [])
  | Some (path, r) =>
      let headError := match RocksGetHead r with Err e => e | Ok _ => "" end in
      match check with
      | Err e => (mkLayer path (rocksTip r 0) (if nonEmpty e then e else headError), None, None, ["core check_consistency: " +:+ e])
      | Ok rep => (mkLayer path (rocksTip r (cr_Head rep)) headError, Some (cr_OK rep), Some (cr_Head rep),
                   if cr_OK rep then [] else (fun e => "rocks_internal: " +:+ e) <$> cr_Errors rep)
      end
  end.

Definition tipOfBlock (b : BlockRecord) : LayerTip :=
  mkTip (GatewayBlockToRocksHeight (b_BlockNumber b)) (b_BlockHash b) (b_StateRoot b) true.

(** The history in memory; the file only when there is none. *)
Definition chainLayer (chainPath : string) (disk : option (option (list BlockRecord))) (history : list BlockRecord) : LayerView :=
  let there := nonEmpty chainPath && match disk with Some _ => true | None => false end in
  match last history with
  | Some tip => mkLayer chainPath (tipOfBlock tip) ""
  | None =>
      match (if nonEmpty chainPath then disk ≫= (fun bs => bs ≫= last) else None) with
      | Some tip => mkLayer chainPath (tipOfBlock tip) ""
      | None => mkLayer chainPath (mkTip 0 "" "" there) ""
      end
  end.

Definition BuildConsistencyDiagnostic (d : Stores) (bc : Blockchain) : ConsistencyDiagnostic :=
  let '(state, r1) := stateLayer (ds_ledger d) in
  let '(rocks, coreOK, coreHead, r2) := rocksLayer (ds_rocks d) (ds_check d) in
  let chain := chainLayer (chainFile bc) (ds_disk d) (blockHistory bc) in
  let reasons := r1 ++ r2 ++ EvaluateLayerConsistency (lv_Tip rocks) (lv_Tip chain) (lv_Tip state) in
  mkDiag (match reasons with [] => ConsistencyStatusConsistent | _ => ConsistencyStatusDiverged end) true state rocks chain coreOK coreHead reasons.

(** ** Routes and the --doctor flag *)

(** [bc] is [None] when the handler has no blockchain. *)
Definition ConsistencyCheck (method : string) (d : Stores) (bc : option Blockchain) (c : option DurabilityCounters)
  : option DurabilityCounters * httpReply ConsistencyDiagnostic :=
  if negb (String.eqb method "GET") then (c, HttpError 405 "GET required")
  else match bc with
  | None => (c, HttpError 503 "blockchain unavailable")
  | Some bc =>
      let report := BuildConsistencyDiagnostic d bc in
      (if String.eqb (cd_Status report) ConsistencyStatusDiverged then IncStateRocksDivergence c else c, HttpOk report)
  end.

Definition DurabilityCountersCheck (method : string) (c : option DurabilityCounters) : httpReply DurabilityCounters :=
  if negb (String.eqb method "GET") then HttpError 405 "GET required" else HttpOk (CountersSnapshot c).

Definition noLayer : LayerView := mkLayer "" (mkTip 0 "" "" false) "".

Definition RunDoctorConsistency (d : Stores) (bc : option Blockchain) : ConsistencyDiagnostic :=
  match bc with
  | None => mkDiag ConsistencyStatusDiverged true noLayer noLayer noLayer None None ["blockchain unavailable"]
  | Some bc => BuildConsistencyDiagnostic d bc
  end.

(** The exit code of --doctor. *)
Definition doctorExit (rep : ConsistencyDiagnostic) : Z := if String.eqb (cd_Status rep) ConsistencyStatusDiverged then 2 else 0.

(** ** What a report means *)

(** Core's own check found nothing to report. *)
Definition coreSilent (check : result CoreConsistencyReport) : Prop :=
  match check with Err _ => False | Ok rep => cr_OK rep = true \/ cr_Errors rep = [] end.

(** Two values agree unless both are known and differ. *)
Definition agree (a b : string) : Prop := a = "" \/ b = "" \/ a = b.

(** The tips of RocksDB and of the history agree. *)
Definition tipsAgree (r c : LayerTip) : Prop :=
  t_Present r = true -> t_Present c = true -> 0 < t_Height c ->
  t_Height r = t_Height c /\ agree (t_BlockHash r) (t_BlockHash c) /\ agree (t_StateRoot r) (t_StateRoot c).

Lemma rootsDiffer_agree a b : rootsDiffer a b = false <-> agree a b.
Proof.
  unfold rootsDiffer, agree, nonEmpty. destruct (String.eqb_spec a ""), (String.eqb_spec b ""), (String.eqb_spec a b); simpl; naive_solver.
Qed.

Lemma evaluate_nil r c st : EvaluateLayerConsistency r c st = [] <->
  tipsAgree r c /\ (t_Present r = true -> t_Present st = true -> agree (t_StateRoot r) (t_StateRoot st)).
Proof. rewrite <- status_consistent_nil, consistency_status_exact. unfold tipsAgree. by rewrite !rootsDiffer_agree. Qed.


(** Core says that RocksDB is not consistent and names no error: the report says
    CONSISTENT. *)
Example core_not_ok_unnoticed :
  let d := mkStores None (Some ("db", mkRocks (Ok 0) (fun _ => Ok None) (fun _ => Ok None))) (Ok (mkCoreReport false 0 [])) None in
  cd_Status (BuildConsistencyDiagnostic d NewBlockchain) = ConsistencyStatusConsistent /\
  cd_CoreOK (BuildConsistencyDiagnostic d NewBlockchain) = Some false.
Proof. split; reflexivity. Qed.

(** chain.json on disk is not looked at while the history is in memory. *)
Example disk_file_not_compared disk :
  lv_Tip (chainLayer "chain.json" disk [demoBlock 3]) = tipOfBlock (demoBlock 3).
Proof. reflexivity. Qed.
