(* ===== verification/Daemon.v ===== *)
(** * Starting PlatariumCore (core/daemon.go, NewRustCore, DefaultCoreRPCAddr)

    [OS] is what gateways on one machine share: the holders of lock files, the
    contents of pid files, the socket files and the processes (with whether the
    gateway's user may signal them). [DaemonVars] are the package variables of one
    gateway. What the machine does during one call is a [DaemonEnv].

    Gateways on one machine as a transition system: at most one of them owns a Core
    at an address, an owned Core is recorded in the pid file, a socket with a live
    Core is not removed, a failed start leaves nothing behind. *)

From S2P Require Import Prelude GoStd GoJson GoPath Sha256 CoreRpc CoreCalls GoText.
From Stdlib Require Import Ascii.

#[local] Open Scope Z_scope.

(** ** Addresses and paths *)

Definition DefaultCoreRPCAddr (getenv : string -> string) : string :=
  let addr := TrimSpace (getenv "PLATARIUM_CORE_RPC_ADDR") in
  if negb (String.eqb addr "") then addr
  else
  let sock := TrimSpace (getenv "PLATARIUM_CORE_RPC_SOCK") in
  if negb (String.eqb sock "") then "unix:" +:+ sock
  else
  let dir := TrimSpace (getenv "XDG_RUNTIME_DIR") in
  if negb (String.eqb dir "") then "unix:" +:+ PathJoin [dir; "platarium-core.sock"] else "unix:" +:+ PathJoin ["data"; "platarium-core.sock"].

Fixpoint sanitizeAddr (addr : string) : string :=
  match addr with
  | EmptyString => EmptyString
  | String c rest => String (if bool_decide (c ∈ [":"%char; "/"%char; "."%char]) then "_"%char else c) (sanitizeAddr rest)
  end.

Record Sidecars := mkSidecars { sc_lock : string; sc_pid : string; sc_log : string }.

Definition daemonSidecarPaths (net : network) (dialAddr : string) : Sidecars :=
  let base := match net with Unix => dialAddr | Tcp => PathJoin ["data"; "platarium-core-" +:+ sanitizeAddr dialAddr] end in
  mkSidecars (base +:+ ".lock") (base +:+ ".pid") (base +:+ ".log").

(** [exists_] tells which paths exist, [abs] the absolute path ([None] on error),
    [lookPath] what PATH holds. *)
Definition resolveCLIPath (getenv : string -> string) (exists_ : string -> bool) (abs : string -> option string) (lookPath : option string) : result string :=
  let path := getenv "PLATARIUM_CLI_PATH" in
  if negb (String.eqb path "") && exists_ path then Ok path
  else
  let binary := PathJoin [".."; "PlatariumCore"; "target"; "release"; "platarium-cli"] in
  let there := match abs binary with Some a => if exists_ a then Some a else None | None => None end in
  match there with
  | Some a => Ok a
  | None =>
      if exists_ binary then Ok binary
      else match lookPath with Some p => Ok p | None => Err "platarium-cli binary not found" end
  end.

(** ** The shared token *)

(** [env] is the process environment; [random] the 16 bytes, [None] when the source
    fails. *)
Definition getenvOf (env : gmap string string) (k : string) : string := default "" (env !! k).

Definition EnsureCoreRPCAuthEnv (random : option byteList) (env : gmap string string) : gmap string string :=
  if negb (String.eqb (TrimSpace (getenvOf env "PLATARIUM_CORE_RPC_INSECURE")) "") then env
  else if negb (String.eqb (TrimSpace (getenvOf env "PLATARIUM_CORE_RPC_TOKEN")) "") then env
  else match random with
  | None => <["PLATARIUM_CORE_RPC_INSECURE" := "1"]> env
  | Some b => <["PLATARIUM_CORE_RPC_TOKEN" := EncodeToString b]> env
  end.

(** ** Locks, pid files, sockets *)

Record OS := mkOS { os_locks : gmap string Z; os_pidFiles : gmap string string; os_sockets : gset string; os_procs : gmap Z bool }.

Definition with_locks (l : gmap string Z) (os : OS) : OS := mkOS l (os_pidFiles os) (os_sockets os) (os_procs os).
Definition with_pidFiles (p : gmap string string) (os : OS) : OS := mkOS (os_locks os) p (os_sockets os) (os_procs os).
Definition with_sockets (x : gset string) (os : OS) : OS := mkOS (os_locks os) (os_pidFiles os) x (os_procs os).
Definition with_procs (p : gmap Z bool) (os : OS) : OS := mkOS (os_locks os) (os_pidFiles os) (os_sockets os) p.

Record DaemonVars := mkDaemon { dv_cmd : option Z; dv_owned : bool; dv_listen : string; dv_lock : option string; dv_log : bool }.

Definition noDaemon : DaemonVars := mkDaemon None false "" None false.

Definition with_lockFile (l : option string) (v : DaemonVars) : DaemonVars := mkDaemon (dv_cmd v) (dv_owned v) (dv_listen v) l (dv_log v).
Definition with_listen (a : string) (v : DaemonVars) : DaemonVars := mkDaemon (dv_cmd v) (dv_owned v) a (dv_lock v) (dv_log v).
Definition with_log (b : bool) (v : DaemonVars) : DaemonVars := mkDaemon (dv_cmd v) (dv_owned v) (dv_listen v) (dv_lock v) b.
Definition with_cmd (c : option Z) (owned : bool) (v : DaemonVars) : DaemonVars := mkDaemon c owned (dv_listen v) (dv_lock v) (dv_log v).

(** [id] names the gateway; a lock file that any gateway holds cannot be locked. A
    gateway that holds a lock already does not look at the path. *)
Definition acquireDaemonLock (id : Z) (opens : bool) (lockPath : string) (v : DaemonVars) (os : OS) : DaemonVars * OS * result unit :=
  match dv_lock v with
  | Some _ => (v, os, Ok ())
  | None =>
      if negb opens then (v, os, Err "core daemon lock open")
      else match os_locks os !! lockPath with
      | Some _ => (v, os, Err "core daemon lock held by another process")
      | None => (with_lockFile (Some lockPath) v, with_locks (<[lockPath := id]> (os_locks os)) os, Ok ())
      end
  end.

Definition releaseDaemonLock (v : DaemonVars) (os : OS) : DaemonVars * OS :=
  match dv_lock v with
  | None => (v, os)
  | Some p => (with_lockFile None v, with_locks (delete p (os_locks os)) os)
  end.

Definition pidText (pid : Z) : string := FormatInt pid +:+ String "010" "".

Definition writeDaemonPID (writes : bool) (pidPath : string) (pid : Z) (os : OS) : OS :=
  if writes then with_pidFiles (<[pidPath := pidText pid]> (os_pidFiles os)) os else os.

Definition readDaemonPID (pidPath : string) (os : OS) : option Z :=
  match os_pidFiles os !! pidPath with
  | None => None
  | Some c => let '(n, ok) := ParseInt (TrimSpace c) in if ok then Some n else None
  end.

(** Signal 0: an error, also the one for a process of another user, counts as dead. *)
Definition processAlive (pid : Z) (os : OS) : bool :=
  if pid <=? 0 then false else match os_procs os !! pid with Some mine => mine | None => false end.

Definition removeUnixSocketIfSafe (statFails removes : bool) (dialAddr pidPath : string) (os : OS) : OS * result unit :=
  if negb (bool_decide (dialAddr ∈ os_sockets os)) && negb statFails then (os, Ok ())
  else if statFails then (os, Err "stat")
  else
  let alive := match readDaemonPID pidPath os with Some pid => processAlive pid os | None => false end in
  if alive then (os, Err "refusing to remove foreign Core socket")
  else if negb removes then (os, Err "remove stale unix socket")
  else (with_pidFiles (delete pidPath (os_pidFiles os)) (with_sockets (os_sockets os ∖ {[dialAddr]}) os), Ok ()).

(** ** EnsureCoreDaemon *)

(** Pings answer before the lock, after a failed lock, and in the 15 seconds after
    the start; [de_binds]: the new Core creates its socket file. *)
Record DaemonEnv := mkDaemonEnv {
  de_ping : bool; de_cli : result string; de_lockOpens : bool; de_pingLocked : bool; de_statFails : bool; de_removes : bool;
  de_logOpens : bool; de_start : result Z; de_writesPID : bool; de_binds : bool; de_ready : bool
}.

(** From the lock on. *)
Definition startDaemon (e : DaemonEnv) (listenAddr : string) (net : network) (dialAddr : string) (sc : Sidecars) (v : DaemonVars) (os : OS)
  : DaemonVars * OS * result unit :=
  let '(os, safe) := match net with Unix => removeUnixSocketIfSafe (de_statFails e) (de_removes e) dialAddr (sc_pid sc) os | Tcp => (os, Ok ()) end in
  match safe with
  | Err m => let '(v, os) := releaseDaemonLock v os in (v, os, Err m)
  | Ok _ =>
      if negb (de_logOpens e) then let '(v, os) := releaseDaemonLock v os in (v, os, Err "core log open")
      else match de_start e with
      | Err m => let '(v, os) := releaseDaemonLock (with_log false v) os in (v, os, Err ("start core rpc daemon: " +:+ m))
      | Ok pid =>
          let v := with_log true (with_listen listenAddr (with_cmd (Some pid) true v)) in
          let os := with_procs (<[pid := true]> (os_procs os)) os in
          let os := writeDaemonPID (de_writesPID e) (sc_pid sc) pid os in
          let os := match net with Unix => if de_binds e then with_sockets (os_sockets os ∪ {[dialAddr]}) os else os | Tcp => os end in
          if de_ready e then (v, os, Ok ())
          else
          let os := with_procs (delete pid (os_procs os)) os in
          let os := with_pidFiles (delete (sc_pid sc) (os_pidFiles os)) os in
          let v := with_log false (with_cmd None false v) in
          let '(v, os) := releaseDaemonLock v os in (v, os, Err "core rpc daemon did not become ready")
      end
  end.

Definition EnsureCoreDaemon (getenv : string -> string) (id : Z) (cliPath listenAddr : string) (e : DaemonEnv) (v : DaemonVars) (os : OS)
  : DaemonVars * OS * result unit :=
  let listenAddr := if String.eqb listenAddr "" then DefaultCoreRPCAddr getenv else listenAddr in
  if de_ping e then (with_listen listenAddr v, os, Ok ())
  else match (if String.eqb cliPath "" then de_cli e else Ok cliPath) with
  | Err m => (v, os, Err m)
  | Ok _ =>
      let '(net, dialAddr) := ParseRPCAddr listenAddr in
      let sc := daemonSidecarPaths net dialAddr in
      let '(v, os, locked) := acquireDaemonLock id (de_lockOpens e) (sc_lock sc) v os in
      match locked with
      | Err m => if de_pingLocked e then (with_listen listenAddr v, os, Ok ()) else (v, os, Err m)
      | Ok _ => startDaemon e listenAddr net dialAddr sc v os
      end
  end.

Definition StopOwnedCoreDaemon (v : DaemonVars) (os : OS) : DaemonVars * OS :=
  match dv_owned v, dv_cmd v with
  | true, Some pid =>
      let os := with_procs (delete pid (os_procs os)) os in
      let v := with_cmd None false v in
      let os := if String.eqb (dv_listen v) "" then os
                else let '(net, dialAddr) := ParseRPCAddr (dv_listen v) in
                     let pidPath := sc_pid (daemonSidecarPaths net dialAddr) in
                     match readDaemonPID pidPath os with
                     | Some cur => if cur =? pid then with_pidFiles (delete pidPath (os_pidFiles os)) os else os
                     | None => os
                     end in
      releaseDaemonLock (with_log false v) os
  | _, _ => (v, os)
  end.

(** ** NewRustCore

    The outcomes of the daemon start, the handshake and the ping are arguments. *)
Definition autostartOn (getenv : string -> string) : bool :=
  negb (bool_decide (ToLower (TrimSpace (getenv "PLATARIUM_CORE_RPC_AUTOSTART")) ∈ ["0"; "false"; "no"])).

Definition allowPingOnly (getenv : string -> string) : bool :=
  let v := TrimSpace (getenv "PLATARIUM_CORE_ALLOW_PING_ONLY") in EqualFold v "1" || EqualFold v "true".

Inductive coreMode := ModeRpc (addr : string) | ModeCli (path : string).

Definition NewRustCore (getenv : string -> string) (daemon : string -> result unit) (handshake ping : string -> result unit) (cli : result string)
  : result coreMode :=
  let mode := ToLower (TrimSpace (getenv "PLATARIUM_CORE_MODE")) in
  if String.eqb mode "" || String.eqb mode "rpc" then
    let addr := DefaultCoreRPCAddr getenv in
    match (if autostartOn getenv then daemon addr else Ok ()) with
    | Err m => Err ("core rpc daemon: " +:+ m)
    | Ok _ =>
        match handshake addr with
        | Ok _ => Ok (ModeRpc addr)
        | Err m =>
            if negb (allowPingOnly getenv) then Err ("core rpc handshake " +:+ addr +:+ ": " +:+ m)
            else match ping addr with Ok _ => Ok (ModeRpc addr) | Err _ => Err ("core rpc handshake/ping " +:+ addr) end
        end
    end
  else match cli with Ok path => Ok (ModeCli path) | Err m => Err m end.

(** * What the start of PlatariumCore promises *)

(** ** Pid files *)

Lemma pid_roundtrip path pid os : 0 < pid <= maxInt64 -> readDaemonPID path (writeDaemonPID true path pid os) = Some pid.
Proof.
  intros H. unfold readDaemonPID, writeDaemonPID, pidText. simpl. rewrite lookup_insert_eq.
  unfold FormatInt. rewrite (proj2 (Z.ltb_ge _ _)) by lia.
  rewrite TrimSpace_newline by (apply FormatUint_value; lia). by rewrite FormatUint_parse by lia.
Qed.

(** ** One call *)

(** What a call that is told no pid twice can assume. *)
Definition freshStart (e : DaemonEnv) (os : OS) : Prop := forall pid, de_start e = Ok pid -> 0 < pid <= maxInt64 /\ os_procs os !! pid = None.

(** A gateway that has not started a Core. *)
Definition idle (v : DaemonVars) : Prop := dv_owned v = false /\ dv_cmd v = None /\ dv_lock v = None.

(** The outcome of a call by an idle gateway: refused with nothing changed but stale
    files, connected to a running Core, or owner of a new one. *)
Inductive outcome (id : Z) (sc : Sidecars) (v : DaemonVars) (os : OS) : DaemonVars -> OS -> result unit -> Prop :=
| OutConnected v' : idle v' -> outcome id sc v os v' os (Ok ())
| OutFailed v' os' m : idle v' -> os_locks os' = os_locks os -> os_procs os' = os_procs os -> outcome id sc v os v' os' (Err m)
| OutOwner v' os' pid :
    os_locks os !! sc_lock sc = None -> os_procs os !! pid = None -> 0 < pid <= maxInt64 ->
    dv_owned v' = true -> dv_cmd v' = Some pid -> dv_lock v' = Some (sc_lock sc) ->
    os_locks os' = <[sc_lock sc := id]> (os_locks os) -> os_procs os' = <[pid := true]> (os_procs os) ->
    outcome id sc v os v' os' (Ok ()).

Lemma removeSafe_frame a b dial pp os : let '(os', _) := removeUnixSocketIfSafe a b dial pp os in
  os_locks os' = os_locks os /\ os_procs os' = os_procs os.
Proof.
  unfold removeUnixSocketIfSafe. destruct (_ && _); [done|]. destruct a; [done|].
  destruct (match readDaemonPID pp os with Some _ => _ | None => _ end); [done|]. by destruct b.
Qed.

(** Where the sidecar files of an address are. *)
Definition sidecarsOf (addr : string) : Sidecars := let '(net, dial) := ParseRPCAddr addr in daemonSidecarPaths net dial.

Lemma ensure_outcome getenv id cli addr e v os (Haddr : addr <> "") : idle v -> freshStart e os ->
  let '(v', os', r) := EnsureCoreDaemon getenv id cli addr e v os in outcome id (sidecarsOf addr) v os v' os' r.
Proof.
  intros (Ho & Hc & Hl) Hf. unfold EnsureCoreDaemon, sidecarsOf. destruct (String.eqb_spec addr "") as [->|_]; [done|].
  destruct (de_ping e); [by constructor|]. destruct (if String.eqb cli "" then de_cli e else Ok cli) as [p|m]; [|by constructor].
  destruct (ParseRPCAddr addr) as [net dial]. unfold acquireDaemonLock. rewrite Hl. generalize (daemonSidecarPaths net dial). intros sc.
  destruct (de_lockOpens e); simpl; [|destruct (de_pingLocked e); simpl; by constructor].
  destruct (os_locks os !! sc_lock sc) as [other|] eqn:El; [destruct (de_pingLocked e); simpl; by constructor|].
  unfold startDaemon. set (os1 := with_locks _ os).
  assert (Hs : let '(o, _) := match net with Unix => removeUnixSocketIfSafe (de_statFails e) (de_removes e) dial (sc_pid sc) os1 | Tcp => (os1, Ok ()) end in
            os_locks o = <[sc_lock sc := id]> (os_locks os) /\ os_procs o = os_procs os).
  { destruct net; [done|]. pose proof (removeSafe_frame (de_statFails e) (de_removes e) dial (sc_pid sc) os1) as Hr.
    by destruct (removeUnixSocketIfSafe _ _ _ _ _). }
  destruct (match net with Unix => _ | Tcp => _ end) as [os2 safe]. destruct Hs as [L2 P2].
  assert (Hd : delete (sc_lock sc) (os_locks os2) = os_locks os) by (rewrite L2, delete_insert_id; done).
  destruct safe as [_|m]; [|by constructor].
  destruct (de_logOpens e); simpl; [|by constructor].
  destruct (de_start e) as [pid|m] eqn:Es; [|by constructor]. destruct (Hf pid Es) as [Hpid Hnew].
  assert (Hw : forall o, os_locks (writeDaemonPID (de_writesPID e) (sc_pid sc) pid o) = os_locks o /\ os_procs (writeDaemonPID (de_writesPID e) (sc_pid sc) pid o) = os_procs o)
    by (intros o; unfold writeDaemonPID; by destruct (de_writesPID e)).
  set (o3 := writeDaemonPID _ _ _ _). destruct (Hw (with_procs (<[pid := true]> (os_procs os2)) os2)) as [L3 P3]. fold o3 in L3, P3. simpl in L3, P3.
  destruct (de_ready e).
  - eapply (OutOwner _ _ _ _ _ _ pid); try done; destruct net; simpl; try destruct (de_binds e); simpl; congruence.
  - constructor; [done| |]; destruct net; simpl; try destruct (de_binds e); simpl; rewrite ?L3, ?P3, ?P2, ?Hd; try done; by rewrite delete_insert_id.
Qed.

(** A socket whose pid file names a process that can be signalled is left alone:
    the call fails and gives the lock back. *)
Theorem live_socket_kept getenv id cli addr e v os dial pid
  (Haddr : ParseRPCAddr addr = (Unix, dial)) (Hne : addr <> "") (Hidle : idle v)
  (Hsock : dial ∈ os_sockets os) (Hpid : readDaemonPID (sc_pid (sidecarsOf addr)) os = Some pid) (Halive : processAlive pid os = true) (Hdown : de_ping e = false) :
  let '(v', os', r) := EnsureCoreDaemon getenv id cli addr e v os in os' = os.
Proof.
  destruct Hidle as (Ho & Hc & Hl). unfold EnsureCoreDaemon. destruct (String.eqb_spec addr "") as [->|_]; [done|]. rewrite Hdown.
  destruct (if String.eqb cli "" then de_cli e else Ok cli) as [p|m]; [|done].
  unfold sidecarsOf in Hpid. rewrite Haddr in *. unfold acquireDaemonLock. rewrite Hl. remember (daemonSidecarPaths Unix dial) as sc eqn:Esc. clear Esc.
  destruct (de_lockOpens e); simpl; [|by destruct (de_pingLocked e)].
  destruct (os_locks os !! sc_lock sc) as [other|] eqn:El; [by destruct (de_pingLocked e)|].
  unfold startDaemon, removeUnixSocketIfSafe. simpl. rewrite bool_decide_eq_true_2 by done. simpl.
  assert (Hr : with_locks (delete (sc_lock sc) (<[sc_lock sc := id]> (os_locks os))) (with_locks (<[sc_lock sc := id]> (os_locks os)) os) = os)
    by (rewrite delete_insert_id by done; by destruct os).
  destruct (de_statFails e); simpl; [done|].
  change (readDaemonPID (sc_pid sc) (with_locks (<[sc_lock sc := id]> (os_locks os)) os)) with (readDaemonPID (sc_pid sc) os). rewrite Hpid.
  change (processAlive pid (with_locks (<[sc_lock sc := id]> (os_locks os)) os)) with (processAlive pid os). by rewrite Halive.
Qed.

(** ** Gateways on one machine *)

Record Machine := mkMachine { mc_gateways : gmap Z DaemonVars; mc_os : OS }.

Section machine.
Variable getenv : string -> string.
Variable addr : string.
Hypothesis addr_given : addr <> "".

(** A gateway appears, starts or finds its Core (once, as [NewRustCore] does), stops
    it, or dies with its lock released by the system and its Core left running;
    processes come and go. *)
Inductive daemon_step : Machine -> Machine -> Prop :=
| DsJoin i g os : g !! i = None -> daemon_step (mkMachine g os) (mkMachine (<[i := noDaemon]> g) os)
| DsEnsure i v cli e g os : g !! i = Some v -> idle v -> freshStart e os ->
    daemon_step (mkMachine g os) (let '(v', os', _) := EnsureCoreDaemon getenv i cli addr e v os in mkMachine (<[i := v']> g) os')
| DsStop i v g os : g !! i = Some v ->
    daemon_step (mkMachine g os) (let '(v', os') := StopOwnedCoreDaemon v os in mkMachine (<[i := v']> g) os')
| DsCrash i v g os : g !! i = Some v -> daemon_step (mkMachine g os) (mkMachine (delete i g) (releaseDaemonLock v os).2)
| DsExit pid g os : daemon_step (mkMachine g os) (mkMachine g (with_procs (delete pid (os_procs os)) os))
| DsSpawn pid mine g os : os_procs os !! pid = None -> daemon_step (mkMachine g os) (mkMachine g (with_procs (<[pid := mine]> (os_procs os)) os)).

Definition emptyMachine (os : OS) : Machine := mkMachine ∅ (with_locks ∅ os).

(** A gateway is idle or owns a Core and the lock of the address; locks are held by
    gateways. *)
Record machine_wf (m : Machine) : Prop := mkMachineWf {
  mw_gateway : forall i v, mc_gateways m !! i = Some v ->
    idle v \/ (dv_owned v = true /\ is_Some (dv_cmd v) /\ dv_lock v = Some (sc_lock (sidecarsOf addr)) /\ os_locks (mc_os m) !! sc_lock (sidecarsOf addr) = Some i);
  mw_lock : forall p i, os_locks (mc_os m) !! p = Some i -> exists v, mc_gateways m !! i = Some v /\ dv_lock v = Some p
}.

Lemma wf_procs g os p : machine_wf (mkMachine g os) -> machine_wf (mkMachine g (with_procs p os)).
Proof. intros [H1 H2]. by split. Qed.

Lemma wf_release i v v' g os :
  machine_wf (mkMachine g os) -> g !! i = Some v -> idle v' ->
  machine_wf (mkMachine (<[i := v']> g) (match dv_lock v with Some p => with_locks (delete p (os_locks os)) os | None => os end)).
Proof.
  intros [H1 H2] Hi Hv'. split; simpl in *.
  - intros j w. rewrite lookup_insert. case_decide as E; [intros [= <-]; by left|]. intros Hj. destruct (H1 j w Hj) as [?|(? & ? & ? & Hl)]; [by left|].
    right. split_and!; try done. destruct (H1 i v Hi) as [(_ & _ & ->)|(_ & _ & -> & Hl')]; [done|]. congruence.
  - intros p j Hp. assert (Hp' : os_locks os !! p = Some j /\ dv_lock v <> Some p).
    { destruct (dv_lock v) as [q|]; [|done]. simpl in Hp. rewrite lookup_delete in Hp. case_decide; [done|]. split; [done|congruence]. }
    destruct Hp' as [Hp1 Hp2]. destruct (H2 p j Hp1) as (w & Hw & Hwl). exists w. rewrite lookup_insert_ne; [done|]. intros <-. congruence.
Qed.

Lemma wf_delete i v g os : machine_wf (mkMachine g os) -> g !! i = Some v ->
  machine_wf (mkMachine (delete i g) (match dv_lock v with Some p => with_locks (delete p (os_locks os)) os | None => os end)).
Proof.
  intros Hwf Hi. destruct (wf_release i v noDaemon g os Hwf Hi ltac:(done)) as [H1 H2]. split; simpl in *.
  - intros j w. rewrite lookup_delete. case_decide as E; [done|]. intros Hj. apply H1. by rewrite lookup_insert_ne.
  - intros p j Hp. destruct (H2 p j Hp) as (w & Hw & Hl). exists w. rewrite lookup_insert in Hw. case_decide as E; [by simplify_eq|].
    by rewrite lookup_delete_ne.
Qed.

Lemma daemon_step_wf m m' : machine_wf m -> daemon_step m m' -> machine_wf m'.
Proof.
  intros Hwf Hstep. destruct Hstep as [i g os Hi|i v cli e g os Hi Hidle Hfresh|i v g os Hi|i v g os Hi|pid g os|pid mine g os Hn].
  - destruct Hwf as [H1 H2]. split; simpl in *.
    + intros j w. rewrite lookup_insert. case_decide; [intros [= <-]; by left|apply H1].
    + intros p j Hp. destruct (H2 p j Hp) as (w & Hw & Hl). exists w. rewrite lookup_insert_ne; [done|]. intros ->. congruence.
  - pose proof (ensure_outcome getenv i cli addr e v os addr_given Hidle Hfresh) as Ho.
    destruct (EnsureCoreDaemon getenv i cli addr e v os) as [[v' os'] r].
    assert (Hv : dv_lock v = None) by apply Hidle.
    destruct Ho as [v' Hi'|v' os' msg Hi' Hl Hp|v' os' pid Hfree Hnew Hpid Hown Hcmd Hlk Hlocks Hprocs].
    + pose proof (wf_release i v v' g os Hwf Hi Hi') as Hr. by rewrite Hv in Hr.
    + pose proof (wf_release i v v' g os Hwf Hi Hi') as [H1 H2]. rewrite Hv in *. split; simpl in *; by rewrite Hl.
    + destruct Hwf as [H1 H2]. split; simpl in *.
      * intros j w. rewrite lookup_insert. case_decide as E.
        { intros [= <-]. subst j. right. rewrite Hlocks, lookup_insert_eq. split_and!; [done|by eexists|done|done]. }
        intros Hj. destruct (H1 j w Hj) as [?|(? & ? & ? & Hl)]; [by left|]. congruence.
      * intros p j. rewrite Hlocks, lookup_insert. case_decide as E.
        { intros [= <-]. subst p. exists v'. by rewrite lookup_insert_eq. }
        intros Hp. destruct (H2 p j Hp) as (w & Hw & Hl). exists w. rewrite lookup_insert_ne; [done|]. intros <-. congruence.
  - pose proof (mw_gateway _ Hwf i v Hi) as Hg. unfold StopOwnedCoreDaemon.
    destruct Hg as [(Hown & _)|(Hown & [pid Hcmd] & Hlk & _)]; rewrite Hown.
    + by rewrite insert_id.
    + rewrite Hcmd. set (os1 := with_procs (delete pid (os_procs os)) os).
      set (os2 := if String.eqb _ _ then os1 else _).
      assert (Hl2 : os_locks os2 = os_locks os).
      { subst os2. destruct (String.eqb _ _); [done|]. destruct (ParseRPCAddr _) as [net dial]. destruct (readDaemonPID _ _) as [cur|]; [|done]. by destruct (cur =? pid). }
      unfold releaseDaemonLock. cbn [with_log with_cmd dv_lock]. rewrite Hlk.
      assert (Hr : machine_wf (mkMachine (<[i := with_lockFile None (with_log false (with_cmd None false v))]> g)
                     (match dv_lock v with Some p => with_locks (delete p (os_locks os)) os | None => os end)))
        by (by apply wf_release).
      rewrite Hlk in Hr. destruct Hr as [R1 R2]. split; simpl in *; by rewrite Hl2.
  - pose proof (wf_delete i v g os Hwf Hi) as Hd. unfold releaseDaemonLock. by destruct (dv_lock v).
  - by apply wf_procs.
  - by apply wf_procs.
Qed.

Lemma reachable_wf os m : rtc daemon_step (emptyMachine os) m -> machine_wf m.
Proof.
  intros H. assert (H0 : machine_wf (emptyMachine os)) by (split; simpl; intros *; by rewrite ?lookup_empty).
  revert H0. induction H as [|x y z Hs Hr IH]; [done|]. intros Hx. apply IH. by apply (daemon_step_wf x).
Qed.

(** two gateways never own a Core at the same address. Whatever the order in which
    gateways start, fail, stop and crash, and whatever processes do, at most one
    gateway owns a Core it started at the address, and it holds the lock file; every
    gateway that owns none holds no lock, so a failed start never blocks another
    gateway. *)
Theorem one_core_owner os m
  (Hreach : rtc daemon_step (emptyMachine os) m) :
  (forall i j v w, mc_gateways m !! i = Some v -> mc_gateways m !! j = Some w -> dv_owned v = true -> dv_owned w = true -> i = j) /\
  (forall i v, mc_gateways m !! i = Some v -> dv_owned v = true -> os_locks (mc_os m) !! sc_lock (sidecarsOf addr) = Some i) /\
  (forall i v, mc_gateways m !! i = Some v -> dv_owned v = false -> forall p, os_locks (mc_os m) !! p <> Some i).
Proof.
  apply reachable_wf in Hreach as [H1 H2].
  assert (Hlock : forall i v, mc_gateways m !! i = Some v -> dv_owned v = true -> os_locks (mc_os m) !! sc_lock (sidecarsOf addr) = Some i).
  { intros i v Hi Ho. destruct (H1 i v Hi) as [(Hn & _)|(_ & _ & _ & ?)]; [congruence|done]. }
  split_and!; [|done|].
  - intros i j v w Hi Hj Hv Hw. apply (Hlock i v Hi) in Hv. apply (Hlock j w Hj) in Hw. congruence.
  - intros i v Hi Ho p Hp. destruct (H2 p i Hp) as (w & Hw & Hl). simplify_eq. destruct (H1 i v Hi) as [(_ & _ & ?)|(? & _)]; congruence.
Qed.
End machine.

(** ** The token and the mode *)

(** After the call the environment carries a token or the explicit opt-out. *)
Theorem auth_env_configured random env (Hrandom : forall b, random = Some b -> TrimSpace (EncodeToString b) <> "") :
  let env' := EnsureCoreRPCAuthEnv random env in
  TrimSpace (getenvOf env' "PLATARIUM_CORE_RPC_TOKEN") <> "" \/ TrimSpace (getenvOf env' "PLATARIUM_CORE_RPC_INSECURE") <> "".
Proof.
  unfold EnsureCoreRPCAuthEnv. destruct (String.eqb_spec (TrimSpace (getenvOf env "PLATARIUM_CORE_RPC_INSECURE")) "") as [E1|E1]; simpl; [|by right].
  destruct (String.eqb_spec (TrimSpace (getenvOf env "PLATARIUM_CORE_RPC_TOKEN")) "") as [E2|E2]; simpl; [|by left].
  unfold getenvOf. destruct random as [b|]; [left|right]; rewrite lookup_insert_eq; simpl; [by apply Hrandom|done].
Qed.

(** A gateway talks to a Core over RPC only after a handshake, or with the explicit
    permission to rely on a ping. *)
Theorem rpc_mode_needs_handshake getenv daemon handshake ping cli addr
  (Hmode : NewRustCore getenv daemon handshake ping cli = Ok (ModeRpc addr)) :
  addr = DefaultCoreRPCAddr getenv /\ (autostartOn getenv = true -> is_ok (daemon addr) = true) /\
  (is_ok (handshake addr) = true \/ (allowPingOnly getenv = true /\ is_ok (ping addr) = true)).
Proof.
  unfold NewRustCore in Hmode. destruct (_ || _); [|by destruct cli].
  destruct (if autostartOn getenv then _ else _) as [[]|m] eqn:Ed; [|done].
  assert (Ha : autostartOn getenv = true -> is_ok (daemon (DefaultCoreRPCAddr getenv)) = true).
  { intros Ha. rewrite Ha in Ed. by rewrite Ed. }
  destruct (handshake (DefaultCoreRPCAddr getenv)) as [[]|m] eqn:Eh; [simplify_eq; rewrite Eh; by auto|].
  destruct (allowPingOnly getenv); simpl in Hmode; [|done].
  destruct (ping (DefaultCoreRPCAddr getenv)) as [[]|m'] eqn:Ep; [|done]. simplify_eq. rewrite Ep. by auto.
Qed.

(** ** Concrete machines *)

Definition startOk (pid : Z) : DaemonEnv := mkDaemonEnv false (Ok "cli") true false false true true (Ok pid) true true true.
Definition noOS : OS := mkOS ∅ ∅ ∅ ∅.

Lemma one_core_owner_witness : exists m, rtc (daemon_step (fun _ => "") "unix:/run/core.sock") (emptyMachine noOS) m /\
  os_locks (mc_os m) !! "/run/core.sock.lock" = Some 1 /\ readDaemonPID "/run/core.sock.pid" (mc_os m) = Some 42.
Proof.
  eexists. assert (Hr : rtc (daemon_step (fun _ => "") "unix:/run/core.sock") (emptyMachine noOS)
    (let '(v', os', _) := EnsureCoreDaemon (fun _ => "") 1 "" "unix:/run/core.sock" (startOk 42) noDaemon (with_locks ∅ noOS) in mkMachine (<[1 := v']> (<[1 := noDaemon]> ∅)) os')).
  { eapply rtc_l; [apply (DsJoin _ _ 1); reflexivity|]. eapply rtc_l; [|apply rtc_refl].
    apply (DsEnsure _ _ 1 noDaemon "" (startOk 42)); [reflexivity|done|]. intros pid [= <-]. split; [unfold maxInt64; lia|reflexivity]. }
  split; [exact Hr|]. pose proof (one_core_owner (fun _ => "") "unix:/run/core.sock" ltac:(discriminate) noOS _ Hr) as (_ & H & _).
  split; [|vm_compute; reflexivity]. refine (H 1 _ _ _); vm_compute; reflexivity.
Defined.

(** A live Core of another user cannot be signalled, counts as dead, and loses its
    socket file. *)
Example foreign_user_socket_removed :
  let os := mkOS ∅ {[ "/run/core.sock.pid" := pidText 7 ]} {[ "/run/core.sock" ]} {[ 7 := false ]} in
  let '(os', r) := removeUnixSocketIfSafe false true "/run/core.sock" "/run/core.sock.pid" os in
  r = Ok () /\ bool_decide ("/run/core.sock" ∈ os_sockets os') = false /\ os_procs os' !! 7 = Some false.
Proof. vm_compute. done. Qed.

(** A second call by the owner of a Core that hangs: the own pid is found alive, the
    call fails, and the lock is given back although the Core is still owned. *)
Example recheck_releases_lock_of_owned_core :
  let addr := "unix:/run/core.sock" in
  let '(v, os, _) := EnsureCoreDaemon (fun _ => "") 1 "" addr (startOk 42) noDaemon noOS in
  let '(v', os', r) := EnsureCoreDaemon (fun _ => "") 1 "" addr (startOk 43) v os in
  is_ok r = false /\ dv_owned v' = true /\ processAlive 42 os' = true /\ os_locks os' !! "/run/core.sock.lock" = None.
Proof. vm_compute. done. Qed.

(** A gateway that holds the lock of one address does not look at the lock of
    another one. *)
Example second_address_not_locked :
  let v := with_lockFile (Some "a.lock") noDaemon in
  let os := with_locks {[ "a.lock" := 1; "b.lock" := 2 ]} noOS in
  acquireDaemonLock 1 true "b.lock" v os = (v, os, Ok ()).
Proof. reflexivity. Qed.
