(* ===== verification/HttpGates.v ===== *)
(** * The router of the gateway (main.go, handlers/lab_endpoints.go)

    The table of routes as main.go registers it, the two guards in front of mutating
    routes, and the dispatch of a request: the first route whose path and method match
    serves it; a path that only other methods match is answered 405, any other path
    404. A variable of a path matches one non-empty segment. Paths are taken as the
    router sees them, already cleaned. Handlers are named by their methods. *)

From S2P Require Import Prelude GoStd GoPath.

#[local] Open Scope Z_scope.

(** ** Guards *)

Record HttpRequest := mkHttp { hr_method : string; hr_path : string; hr_labToken : string; hr_consensusToken : string; hr_authorization : string }.

(** The token of a header, else that of a bearer authorization. *)
Definition requestToken (header authorization : string) : string :=
  let got := TrimSpace header in
  if String.eqb got "" && HasPrefix (ToLower authorization) "bearer " then TrimSpace (str_drop 7 authorization) else got.

Definition insecureConsensus (getenv : string -> string) : bool :=
  let v := TrimSpace (getenv "PLATARIUM_CONSENSUS_INSECURE") in EqualFold v "1" || EqualFold v "true".

Definition consensusToken (getenv : string -> string) : string :=
  let expected := TrimSpace (getenv "PLATARIUM_CONSENSUS_TOKEN") in
  if String.eqb expected "" then TrimSpace (getenv "PLATARIUM_CORE_RPC_TOKEN") else expected.

(** A guard lets a request through ([None]) or answers with a status. *)
Definition requireConsensusAuth (getenv : string -> string) (r : HttpRequest) : option Z :=
  let expected := consensusToken getenv in
  if String.eqb expected "" then (if insecureConsensus getenv then None else Some 401)
  else if String.eqb (requestToken (hr_consensusToken r) (hr_authorization r)) expected then None else Some 401.

Definition LabEndpointsEnabled (getenv : string -> string) : bool :=
  let v := TrimSpace (getenv "ENABLE_LAB_ENDPOINTS") in EqualFold v "1" || EqualFold v "true" || EqualFold v "yes".

Definition requireLabAuth (getenv : string -> string) (r : HttpRequest) : option Z :=
  let expected := TrimSpace (getenv "PLATARIUM_LAB_TOKEN") in
  if String.eqb expected "" then Some 401
  else
  let got := requestToken (hr_labToken r) (hr_authorization r) in
  if String.eqb got "" then Some 401 else if String.eqb got expected then None else Some 403.

(** ** The table *)

Inductive guardKind := Open | ConsensusAuth | LabAuth.

Record Route := mkRoute { rt_method : string; rt_path : string; rt_guard : guardKind; rt_handler : string }.

Definition LabMutationCanonicalPaths : list string := ["/api/test-set-load"; "/api/reward-credit-l1"].

(** [RegisterLabRoutes]. *)
Definition RegisterLabRoutes (getenv : string -> string) : list Route :=
  if negb (LabEndpointsEnabled getenv) then []
  else omap (fun path => if String.eqb path "/api/test-set-load" then Some (mkRoute "POST" path LabAuth "TestSetLoad")
                         else if String.eqb path "/api/reward-credit-l1" then Some (mkRoute "POST" path LabAuth "RewardCreditL1")
                         else None) LabMutationCanonicalPaths.

Definition LabMutationAliasCandidates : list string :=
  ["/api/test/set-load"; "/api/testsetload"; "/api/test_set_load"; "/test-set-load"; "/rpc/test-set-load"; "/api/reward/credit-l1";
   "/api/rewardcreditl1"; "/api/reward_credit_l1"; "/reward-credit-l1"; "/rpc/reward-credit-l1"; "/api/lab/test-set-load";
   "/api/lab/reward-credit-l1"].

(** The routes before and after the laboratory ones. *)
Definition routesBefore : list Route :=
  [mkRoute "GET" "/api" Open "HealthCheck";
   mkRoute "GET" "/network" Open "NetworkStatus";
   mkRoute "GET" "/sockets" Open "GetSockets";
   mkRoute "GET" "/internal/consistency" Open "ConsistencyCheck";
   mkRoute "GET" "/internal/counters" Open "DurabilityCountersCheck";
   mkRoute "GET" "/rpc/status" Open "GetDetailedStatus";
   mkRoute "GET" "/rpc/sockets" Open "GetSockets";
   mkRoute "GET" "/rpc/ping" Open "PingPeer";
   mkRoute "POST" "/rpc/v1" Open "ChainRPC";
   mkRoute "GET" "/pg-bal/{address}" Open "GetBalance";
   mkRoute "GET" "/pg-tx/{hash}" Open "GetTransaction";
   mkRoute "GET" "/pg-alltx/{address}" Open "GetTransactions";
   mkRoute "POST" "/pg-sendtx" Open "SendTransaction";
   mkRoute "POST" "/api/nonce/allocate" Open "AllocateNonce";
   mkRoute "POST" "/api/nonce/release" Open "ReleaseNonce";
   mkRoute "GET" "/api/mempool" Open "GetMempool";
   mkRoute "GET" "/api/transactions" Open "GetAllTransactions";
   mkRoute "GET" "/api/blocks" Open "GetBlockHistory";
   mkRoute "GET" "/api/block/{blockNumber}" Open "GetBlock";
   mkRoute "GET" "/api/stats" Open "GetStats";
   mkRoute "GET" "/api/accounts" Open "GetAccounts";
   mkRoute "POST" "/api/demo-sendtx" Open "DemoSendTx";
   mkRoute "GET" "/api/pending-block" Open "GetPendingBlock";
   mkRoute "POST" "/api/l1-collect" ConsensusAuth "L1CollectBlock";
   mkRoute "POST" "/api/l2-confirm" ConsensusAuth "L2ConfirmBlock";
   mkRoute "POST" "/api/confirm-block" ConsensusAuth "ConfirmBlock";
   mkRoute "GET" "/api/reward-config" Open "GetRewardConfig";
   mkRoute "GET" "/api/fee-distribution" Open "GetFeeDistribution";
   mkRoute "GET" "/api/node-ratings" Open "GetNodeRatings";
   mkRoute "GET" "/api/last-votes" Open "GetLastVotes"].

Definition routesAfter : list Route :=
  [mkRoute "GET" "/api/generate-wallet" Open "GenerateWallet";
   mkRoute "POST" "/api/restore-wallet" Open "RestoreWallet";
   mkRoute "POST" "/api/faucet" Open "Faucet";
   mkRoute "GET" "/api/faucet/cooldown" Open "FaucetCooldown";
   mkRoute "GET" "/api/turn-ice" Open "WebRtcTurnIce";
   mkRoute "GET" "/api/e2ee-pubkey" Open "GetE2eePubkey";
   mkRoute "GET" "/api/channel-identity" Open "GetChannelIdentity";
   mkRoute "POST" "/api/channel-identity" Open "PutChannelIdentity";
   mkRoute "GET" "/api/contact/pricing" Open "GetContactPricing";
   mkRoute "POST" "/api/contact/pricing" Open "SetContactPricing";
   mkRoute "GET" "/api/contact/protocol" Open "QueryProtocolContact";
   mkRoute "POST" "/api/contact/request" Open "CreateContactRequest";
   mkRoute "POST" "/api/contact/respond" Open "RespondContactRequest";
   mkRoute "GET" "/api/contact/requests" Open "ListContactRequests";
   mkRoute "GET" "/api/contact/request/{id}" Open "GetContactRequestStatus";
   mkRoute "POST" "/api/deals/lock" Open "SubmitDealLock";
   mkRoute "POST" "/api/deals/settle" Open "SubmitDealSettle";
   mkRoute "POST" "/api/deals/dispute-settle" Open "SubmitDealDisputeSettle";
   mkRoute "GET" "/api/deals" Open "ListDeals";
   mkRoute "POST" "/api/deals/dispute" Open "OpenDealDispute";
   mkRoute "PUT" "/api/deals/volunteers" Open "PutVolunteerRoster";
   mkRoute "GET" "/api/deals/volunteers/briefs" Open "ListVolunteerBriefs";
   mkRoute "POST" "/api/deals/volunteers/height" Open "FreezeVolunteerHeight";
   mkRoute "GET" "/api/deals/cases/{caseId}" Open "GetVolunteerBrief";
   mkRoute "POST" "/api/deals/cases/{caseId}/commit" Open "CommitVolunteer";
   mkRoute "POST" "/api/deals/cases/{caseId}/reveal" Open "RevealVolunteer";
   mkRoute "GET" "/api/deals/{id}" Open "GetDeal";
   mkRoute "POST" "/api/escrow/lock" Open "SubmitEscrowLock";
   mkRoute "POST" "/api/escrow/settle" Open "SubmitEscrowSettle";
   mkRoute "POST" "/api/escrow/settled" Open "AckEscrowSettled";
   mkRoute "GET" "/api/escrow/{id}" Open "GetEscrowStatus";
   mkRoute "POST" "/api/ai/chat/completions" Open "AiChatCompletions";
   mkRoute "GET" "/api/ai/quota" Open "AiQuota";
   mkRoute "GET" "/api/ai/models" Open "AiModels";
   mkRoute "GET" "/index.html" Open "index.html";
   mkRoute "GET" "/" Open "index.html"].

Definition routes (getenv : string -> string) : list Route := routesBefore ++ RegisterLabRoutes getenv ++ routesAfter.

(** ** Dispatch *)

Definition isVariable (seg : string) : bool := HasPrefix seg "{".

Fixpoint segmentsMatch (tmpl path : list string) : bool :=
  match tmpl, path with
  | [], [] => true
  | t :: tmpl, p :: path => (if isVariable t then negb (String.eqb p "") else String.eqb t p) && segmentsMatch tmpl path
  | _, _ => false
  end.

Definition pathMatches (rt : Route) (path : string) : bool := segmentsMatch (splitSlash (rt_path rt)) (splitSlash path).

(** What answers: a status, the files under ./web/, or a handler. *)
Inductive served := Status (code : Z) | StaticFile | ServedBy (handler : string).

Definition guarded (getenv : string -> string) (g : guardKind) (r : HttpRequest) : option Z :=
  match g with Open => None | ConsensusAuth => requireConsensusAuth getenv r | LabAuth => requireLabAuth getenv r end.

Definition dispatch (getenv : string -> string) (table : list Route) (r : HttpRequest) : served :=
  if HasPrefix (hr_path r) "/web/" then StaticFile
  else
  let onPath := filter (fun rt => pathMatches rt (hr_path r) = true) table in
  match filter (fun rt => rt_method rt = hr_method r) onPath with
  | rt :: _ => match guarded getenv (rt_guard rt) r with Some code => Status code | None => ServedBy (rt_handler rt) end
  | [] => Status (match onPath with [] => 404 | _ => 405 end)
  end.

(** [corsMiddleware] around the router. *)
Definition serve (getenv : string -> string) (r : HttpRequest) : served :=
  if String.eqb (hr_method r) "OPTIONS" then Status 200 else dispatch getenv (routes getenv) r.

(** ** Start-up settings *)

Definition TLSEnabled (certFile keyFile : string) : bool := negb (String.eqb certFile "") && negb (String.eqb keyFile "").

Definition flagOr (s fallback : string) : string := if String.eqb s "" then fallback else s.

Record Flags := mkFlags {
  fl_testnet : bool; fl_stateFile : string; fl_chainFile : string; fl_tlsCert : string; fl_tlsKey : string; fl_wsTLSCert : string;
  fl_wsTLSKey : string; fl_peerTLSCA : string
}.

Record TlsSettings := mkTls { tl_restCert : string; tl_restKey : string; tl_wsCert : string; tl_wsKey : string; tl_peerCA : string }.

Definition tlsSettings (f : Flags) (getenv : string -> string) : TlsSettings :=
  let restCert := flagOr (fl_tlsCert f) (getenv "PLATARIUM_TLS_CERT") in
  let restKey := flagOr (fl_tlsKey f) (getenv "PLATARIUM_TLS_KEY") in
  mkTls restCert restKey (flagOr (fl_wsTLSCert f) restCert) (flagOr (fl_wsTLSKey f) restKey) (flagOr (fl_peerTLSCA f) (getenv "PLATARIUM_PEER_TLS_CA")).

(** The variables that main sets: the files named by flags, then those of a test network. *)
Definition fileEnv (f : Flags) (env : gmap string string) : gmap string string :=
  let env := if String.eqb (fl_stateFile f) "" then env else <["PLATARIUM_STATE_FILE" := fl_stateFile f]> env in
  if String.eqb (fl_chainFile f) "" then env else <["PLATARIUM_CHAIN_FILE" := fl_chainFile f]> env.

Definition testnetEnv (f : Flags) (env : gmap string string) : gmap string string :=
  if fl_testnet f
  then <["PLATARIUM_DAG_ALLOW_UNSIGNED" := "1"]> (<["PLATARIUM_CORE_ALLOW_REMOTE_SIGN" := "1"]> (<["PLATARIUM_CORE_TESTNET" := "1"]> env))
  else env.

(** An address of an interface: not a network, or one with its kind and its text. *)
Record IPNet := mkIPNet { ip_loopback : bool; ip_v4 : bool; ip_text : string }.

Fixpoint firstIP (addrs : list (option IPNet)) : string :=
  match addrs with
  | [] => "localhost"
  | Some ip :: rest => if negb (ip_loopback ip) && ip_v4 ip then ip_text ip else firstIP rest
  | None :: rest => firstIP rest
  end.

Definition getLocalIP (addrs : result (list (option IPNet))) : string := match addrs with Err _ => "localhost" | Ok l => firstIP l end.

(** The host of the node, and the addresses it announces. *)
Definition nodeHost (getenv : string -> string) (addrs : result (list (option IPNet))) : string := flagOr (getenv "NODE_HOST") (getLocalIP addrs).

Definition announced (t : TlsSettings) (host : string) (portWS portREST : Z) : string * string :=
  ((if TLSEnabled (tl_wsCert t) (tl_wsKey t) then "wss" else "ws") +:+ "://" +:+ host +:+ ":" +:+ FormatInt portWS,
   (if TLSEnabled (tl_restCert t) (tl_restKey t) then "https://" else "http://") +:+ host +:+ ":" +:+ FormatInt portREST).

Definition peerDelaySec (getenv : string -> string) : Z :=
  let s := getenv "PLATARIUM_PEER_CONNECT_DELAY_SEC" in
  if String.eqb s "" then 1
  else let '(n, ok) := ParseInt s in if ok && (0 <? n) then Z.min n 60 else 1.

(** ** What the guards promise *)

Definition labHandlers : list string := ["TestSetLoad"; "RewardCreditL1"].
Definition consensusHandlers : list string := ["L1CollectBlock"; "L2ConfirmBlock"; "ConfirmBlock"].

Lemma requireLabAuth_pass getenv r : requireLabAuth getenv r = None ->
  let expected := TrimSpace (getenv "PLATARIUM_LAB_TOKEN") in expected <> "" /\ requestToken (hr_labToken r) (hr_authorization r) = expected.
Proof.
  unfold requireLabAuth. destruct (String.eqb_spec (TrimSpace (getenv "PLATARIUM_LAB_TOKEN")) ""); [done|].
  destruct (String.eqb _ ""); [done|]. destruct (String.eqb_spec (requestToken (hr_labToken r) (hr_authorization r)) (TrimSpace (getenv "PLATARIUM_LAB_TOKEN"))); [by split|done].
Qed.

Lemma requireConsensusAuth_pass getenv r : requireConsensusAuth getenv r = None ->
  (consensusToken getenv <> "" /\ requestToken (hr_consensusToken r) (hr_authorization r) = consensusToken getenv) \/
  (consensusToken getenv = "" /\ insecureConsensus getenv = true).
Proof.
  unfold requireConsensusAuth. destruct (String.eqb_spec (consensusToken getenv) ""); [destruct (insecureConsensus getenv); naive_solver|].
  destruct (String.eqb_spec (requestToken (hr_consensusToken r) (hr_authorization r)) (consensusToken getenv)); naive_solver.
Qed.

Lemma lab_routes_origin getenv rt : rt ∈ routes getenv -> rt_handler rt ∈ labHandlers -> rt ∈ RegisterLabRoutes getenv.
Proof.
  unfold routes. rewrite !elem_of_app. intros [H|[H|H]] Hh; [|done|].
  - assert (Hf : Forall (fun rt => rt_handler rt ∉ labHandlers) routesBefore) by (apply (bool_decide_eq_true_1 _); vm_compute; reflexivity).
    rewrite Forall_forall in Hf. by destruct (Hf rt H).
  - assert (Hf : Forall (fun rt => rt_handler rt ∉ labHandlers) routesAfter) by (apply (bool_decide_eq_true_1 _); vm_compute; reflexivity).
    rewrite Forall_forall in Hf. by destruct (Hf rt H).
Qed.

Lemma serve_route getenv r h : serve getenv r = ServedBy h ->
  exists rt, rt ∈ routes getenv /\ rt_handler rt = h /\ rt_method rt = hr_method r /\ pathMatches rt (hr_path r) = true /\ guarded getenv (rt_guard rt) r = None.
Proof.
  unfold serve, dispatch. destruct (String.eqb _ _); [done|]. destruct (HasPrefix _ _); [done|].
  destruct (filter (fun rt => rt_method rt = hr_method r) _) as [|rt l] eqn:E; [by case_match|].
  destruct (guarded getenv (rt_guard rt) r) eqn:Eg; [done|]. intros [= <-]. exists rt.
  assert (Hin : rt ∈ filter (fun rt => rt_method rt = hr_method r) (filter (fun rt => pathMatches rt (hr_path r) = true) (routes getenv))) by (rewrite E; left).
  apply list_elem_of_filter in Hin as [Hm Hin]. apply list_elem_of_filter in Hin as [Hp Hin]. done.
Qed.

Lemma join_split s : joinSlash (splitSlash s) = s.
Proof.
  induction s as [|c s IH]; [done|]. cbn [splitSlash]. pose proof (split_nonempty s) as Hn.
  destruct (splitSlash s) as [|part parts]; [done|]. destruct (Ascii.eqb_spec c slash) as [->|_].
  - cbn [joinSlash] in IH |- *. by rewrite IH.
  - cbn [joinSlash] in IH |- *. destruct parts; [by rewrite IH|]. by rewrite <- IH.
Qed.

Lemma segmentsMatch_literal tmpl path : Forall (fun t => isVariable t = false) tmpl -> segmentsMatch tmpl path = true <-> path = tmpl.
Proof.
  intros H. revert path. induction H as [|t tmpl Ht H IH]; intros [|p path]; cbn [segmentsMatch]; [done..|].
  rewrite Ht, andb_true_iff, String.eqb_eq, IH. naive_solver.
Qed.

(** A path without variables matches itself only. *)
Lemma pathMatches_literal rt path : Forall (fun t => isVariable t = false) (splitSlash (rt_path rt)) -> pathMatches rt path = true <-> path = rt_path rt.
Proof.
  intros H. unfold pathMatches. rewrite (segmentsMatch_literal _ _ H). split; [|by intros ->].
  intros E. by rewrite <- (join_split path), E, join_split.
Qed.

Definition consensusPaths : list string := ["/api/l1-collect"; "/api/l2-confirm"; "/api/confirm-block"].

(** The table binds a group of handlers to POST, to literal paths and to one guard. *)
Definition boundTo (hs paths : list string) (g : guardKind) (rt : Route) : Prop :=
  rt_handler rt ∈ hs ->
  rt_method rt = "POST" /\ rt_path rt ∈ paths /\ rt_guard rt = g /\ Forall (fun t => isVariable t = false) (splitSlash (rt_path rt)).

#[global] Instance guardKind_eq_dec : EqDecision guardKind.
Proof. solve_decision. Defined.

#[global] Instance boundTo_dec hs paths g rt : Decision (boundTo hs paths g rt).
Proof. unfold boundTo. apply _. Defined.

Ltac by_table := apply (bool_decide_eq_true_1 _); vm_compute; reflexivity.

Lemma routes_bound getenv hs paths g :
  Forall (boundTo hs paths g) routesBefore -> Forall (boundTo hs paths g) routesAfter ->
  (LabEndpointsEnabled getenv = true -> Forall (boundTo hs paths g) (RegisterLabRoutes getenv)) -> Forall (boundTo hs paths g) (routes getenv).
Proof.
  intros H1 H2 H3. unfold routes. rewrite !Forall_app. split_and!; [done| |done].
  destruct (LabEndpointsEnabled getenv) eqn:E; [by apply H3|]. unfold RegisterLabRoutes. rewrite E. constructor.
Qed.

Lemma lab_bound getenv : Forall (boundTo labHandlers LabMutationCanonicalPaths LabAuth) (routes getenv).
Proof.
  apply routes_bound; [by_table..|]. intros E. unfold RegisterLabRoutes. rewrite E. by_table.
Qed.

Lemma consensus_bound getenv : Forall (boundTo consensusHandlers consensusPaths ConsensusAuth) (routes getenv).
Proof.
  apply routes_bound; [by_table..|]. intros E. unfold RegisterLabRoutes. rewrite E. by_table.
Qed.

(** A request that reaches a bound handler used POST, one of its paths, and passed the guard. *)
Lemma bound_reached getenv hs paths g r h :
  Forall (boundTo hs paths g) (routes getenv) -> serve getenv r = ServedBy h -> h ∈ hs ->
  hr_method r = "POST" /\ hr_path r ∈ paths /\ guarded getenv g r = None.
Proof.
  intros Hb Hs Hh. destruct (serve_route _ _ _ Hs) as (rt & Hin & <- & Hm & Hp & Hg).
  rewrite Forall_forall in Hb. destruct (Hb rt Hin Hh) as (H1 & H2 & <- & H4).
  apply (pathMatches_literal _ _ H4) in Hp. rewrite Hp. split_and!; congruence || done.
Qed.

(** The routes a POST to one of the guarded paths finds. *)
Definition matching (getenv : string -> string) (path : string) : list Route :=
  filter (fun rt => rt_method rt = "POST") (filter (fun rt => pathMatches rt path = true) (routes getenv)).

Lemma serve_single getenv r rt :
  hr_method r = "POST" -> HasPrefix (hr_path r) "/web/" = false -> matching getenv (hr_path r) = [rt] -> guarded getenv (rt_guard rt) r = None ->
  serve getenv r = ServedBy (rt_handler rt).
Proof.
  unfold serve, dispatch, matching. intros -> -> E Hg. change (String.eqb "POST" "OPTIONS") with false.
  cbv beta iota zeta. rewrite E, Hg. reflexivity.
Qed.

Lemma lab_matching getenv path : LabEndpointsEnabled getenv = true -> path ∈ LabMutationCanonicalPaths ->
  HasPrefix path "/web/" = false /\ exists h, h ∈ labHandlers /\ matching getenv path = [mkRoute "POST" path LabAuth h].
Proof.
  intros E Hp. unfold matching, routes, RegisterLabRoutes. rewrite E.
  apply list_elem_of_In in Hp as [<-|[<-|[]]]; (split; [reflexivity|]); [exists "TestSetLoad"|exists "RewardCreditL1"]; (split; [set_solver|vm_compute; reflexivity]).
Qed.

Lemma consensus_matching getenv path : path ∈ consensusPaths ->
  HasPrefix path "/web/" = false /\ exists h, h ∈ consensusHandlers /\ matching getenv path = [mkRoute "POST" path ConsensusAuth h].
Proof.
  intros Hp. unfold matching, routes, RegisterLabRoutes. destruct (LabEndpointsEnabled getenv);
  apply list_elem_of_In in Hp as [<-|[<-|[<-|[]]]]; (split; [reflexivity|]); [exists "L1CollectBlock"|exists "L2ConfirmBlock"|exists "ConfirmBlock"|exists "L1CollectBlock"|exists "L2ConfirmBlock"|exists "ConfirmBlock"]; (split; [set_solver|vm_compute; reflexivity]).
Qed.

Lemma requireLabAuth_iff getenv r : requireLabAuth getenv r = None <->
  TrimSpace (getenv "PLATARIUM_LAB_TOKEN") <> "" /\ requestToken (hr_labToken r) (hr_authorization r) = TrimSpace (getenv "PLATARIUM_LAB_TOKEN").
Proof.
  split; [apply requireLabAuth_pass|]. intros [Hn He]. unfold requireLabAuth. rewrite He, String.eqb_refl.
  by destruct (String.eqb_spec (TrimSpace (getenv "PLATARIUM_LAB_TOKEN")) "").
Qed.

Lemma requireConsensusAuth_iff getenv r : requireConsensusAuth getenv r = None <->
  (consensusToken getenv <> "" /\ requestToken (hr_consensusToken r) (hr_authorization r) = consensusToken getenv) \/
  (consensusToken getenv = "" /\ insecureConsensus getenv = true).
Proof.
  split; [apply requireConsensusAuth_pass|]. unfold requireConsensusAuth. intros [[Hn ->]|[-> ->]]; [|done].
  rewrite String.eqb_refl. by destruct (String.eqb_spec (consensusToken getenv) "").
Qed.

(** C14: the guarded handlers are reached exactly by authorised requests. A laboratory
    handler serves a request if and only if the laboratory endpoints are enabled, the
    request is a POST to one of the two canonical paths, a token is configured and the
    request carries it; none of the alternative spellings of the paths reaches one,
    whatever the method and the token. A consensus handler serves a request if and only if it is a
    POST to one of the three consensus paths and carries the configured token, or no
    token is configured and insecure consensus has been chosen explicitly. *)
Theorem guarded_handlers_exact getenv r :
  ((exists h, h ∈ labHandlers /\ serve getenv r = ServedBy h) <->
   LabEndpointsEnabled getenv = true /\ hr_method r = "POST" /\ hr_path r ∈ LabMutationCanonicalPaths /\
   TrimSpace (getenv "PLATARIUM_LAB_TOKEN") <> "" /\ requestToken (hr_labToken r) (hr_authorization r) = TrimSpace (getenv "PLATARIUM_LAB_TOKEN")) /\
  (hr_path r ∈ LabMutationAliasCandidates -> ~ exists h, h ∈ labHandlers /\ serve getenv r = ServedBy h) /\
  ((exists h, h ∈ consensusHandlers /\ serve getenv r = ServedBy h) <->
   hr_method r = "POST" /\ hr_path r ∈ consensusPaths /\
   ((consensusToken getenv <> "" /\ requestToken (hr_consensusToken r) (hr_authorization r) = consensusToken getenv) \/
    (consensusToken getenv = "" /\ insecureConsensus getenv = true))).
Proof.
  rewrite <- requireLabAuth_iff, <- requireConsensusAuth_iff. split_and!.
  - split.
    + intros (h & Hh & Hs). destruct (serve_route _ _ _ Hs) as (rt & Hin & Hrt & _). rewrite <- Hrt in Hh.
      pose proof (lab_routes_origin _ _ Hin Hh) as Ho. rewrite Hrt in Hh.
      destruct (bound_reached _ _ _ _ _ _ (lab_bound getenv) Hs Hh) as (? & ? & ?). split_and!; try done.
      unfold RegisterLabRoutes in Ho. by destruct (LabEndpointsEnabled getenv); [|set_solver].
    + intros (He & Hm & Hp & Hg). destruct (lab_matching _ _ He Hp) as (Hw & h & Hh & E). exists h. split; [done|].
      by apply (serve_single _ _ _ Hm Hw E).
  - intros Ha (h & Hh & Hs). destruct (bound_reached _ _ _ _ _ _ (lab_bound getenv) Hs Hh) as (_ & Hp & _).
    assert (Hd : Forall (fun p => p ∉ LabMutationCanonicalPaths) LabMutationAliasCandidates) by by_table.
    rewrite Forall_forall in Hd. by apply (Hd _ Ha).
  - split.
    + intros (h & Hh & Hs). by destruct (bound_reached _ _ _ _ _ _ (consensus_bound getenv) Hs Hh) as (? & ? & ?).
    + intros (Hm & Hp & Hg). destruct (consensus_matching getenv _ Hp) as (Hw & h & Hh & E). exists h. split; [done|].
      by apply (serve_single _ _ _ Hm Hw E).
Qed.

(** The roster of volunteers and the freeze of a height, which decide who judges a
    dispute, are open: a request without any credential is served while the consensus
    routes refuse it. *)
Example volunteer_routes_open :
  let getenv := fun k => if String.eqb k "PLATARIUM_CONSENSUS_TOKEN" then "secret" else "" in
  serve getenv (mkHttp "PUT" "/api/deals/volunteers" "" "" "") = ServedBy "PutVolunteerRoster" /\
  serve getenv (mkHttp "POST" "/api/deals/volunteers/height" "" "" "") = ServedBy "FreezeVolunteerHeight" /\
  serve getenv (mkHttp "POST" "/api/confirm-block" "" "" "") = Status 401.
Proof. vm_compute. done. Qed.

(** "briefs" is served by the listing and any other name by the deal, since the listing
    is registered first. *)
Example first_route_wins :
  serve (fun _ => "") (mkHttp "GET" "/api/deals/volunteers/briefs" "" "" "") = ServedBy "ListVolunteerBriefs" /\
  serve (fun _ => "") (mkHttp "GET" "/api/deals/d1" "" "" "") = ServedBy "GetDeal" /\
  serve (fun _ => "") (mkHttp "GET" "/api/deals/volunteers" "" "" "") = ServedBy "GetDeal" /\
  serve (fun _ => "") (mkHttp "POST" "/api/mempool" "" "" "") = Status 405.
Proof. vm_compute. done. Qed.

(** A key without its certificate does not turn TLS on: the servers fall back to plain
    connections, and the node announces plain addresses. *)
Example half_tls_is_plain :
  let t := tlsSettings (mkFlags false "" "" "" "key.pem" "" "" "") (fun _ => "") in
  announced t (nodeHost (fun _ => "") (Ok [Some (mkIPNet true true "127.0.0.1"); Some (mkIPNet false false "fe80::1"); Some (mkIPNet false true "10.0.0.7")])) 1813 1812 =
    ("ws://10.0.0.7:1813", "http://10.0.0.7:1812").
Proof. vm_compute. reflexivity. Qed.
