(* ===== verification/WalletRoutes.v ===== *)
(** * Wallet routes (handlers.go: balance, nonces, wallets, demo transactions)

    [Gateway] of Admission with the live metrics. A body is the decoded struct, [None]
    when it is not JSON of that shape. Core runs without the admission mutex, so
    [meanwhile] is again what other requests do.

    Nonce leases over every interleaving of the routes that grant, use and return them;
    demo transactions; restoring a generated wallet. *)

From S2P Require Import Prelude GoStd GoJson Dag Tx Chain Pool Confirm TxPool Nonce Deals RateLimit ContactEconomy Ownership Admission AdmissionSpec CoreRpc CoreCalls ForkChoice ChainRpc Faucet ExplorerRoutes ExploreMetrics.
From Stdlib Require Import Floats.SpecFloat.

#[local] Open Scope Z_scope.

(** ** Balance *)

Record BalancePayload := mkBalance {
  bp_address : string; bp_balance : string; bp_nonce : Z; bp_uplp_balance : string; bp_fee_spendable_uplp : string; bp_asset : string;
  bp_tokens : gmap string string; bp_xp : string; bp_locked_uplp : string; bp_receivable_uplp : string
}.

Definition orZero (s : string) : string := if String.eqb s "" then "0" else s.

Definition balancePayload (address : string) (account : CoreQuery) (tokens : gmap string string) (xp : string) : BalancePayload :=
  mkBalance address (cq_Balance account) (cq_Nonce account) (cq_UplpBalance account) (cq_FeeSpendableUplp account) (cq_Asset account)
    tokens xp (orZero (cq_LockedUplp account)) (orZero (cq_ReceivableUplp account)).

Definition GetBalanceRoute {S} (ledger : option (string -> S -> S * result CoreQuery))
    (rocksAccount : option (string -> S -> S * result (option CoreAccount))) (address : string) (s : S) : S * httpReply BalancePayload :=
  match ledger with
  | None => (s, HttpError 503 "Core ledger unavailable")
  | Some _ =>
      let '(s, r) := GetAccountQuery ledger rocksAccount address s in
      (s, match r with
          | Err e => HttpError 503 e
          | Ok account =>
              let xp := if String.eqb (cq_Xp account) "" then TokenXPFromMap (cq_Tokens account) else cq_Xp account in
              HttpOk (balancePayload address account (cq_Tokens account) xp)
          end)
  end.

(** ** Wallets *)

Record Wallet := mkWallet { wl_mnemonic : string; wl_alphanumeric : string; wl_publicKey : string; wl_address : string }.

Definition GenerateWallet (core : option KeyCore) (generated : result (string * string)) : httpReply Wallet :=
  match core with
  | None => HttpError 503 "Core (platarium-cli) not available"
  | Some c =>
      match generated with
      | Err e => HttpError 500 e
      | Ok (mnemonic, alphanumeric) =>
          match Ownership.GenerateKeys c mnemonic alphanumeric 0 with
          | Err e => HttpError 500 e
          | Ok keys =>
              let publicKey := default "" (keys !! "publicKey") in
              if String.eqb publicKey "" then HttpError 500 "Core did not return publicKey"
              else HttpOk (mkWallet mnemonic alphanumeric publicKey publicKey)
          end
      end
  end.

Record RestoreBody := mkRestore { rb_Mnemonic : string; rb_Alphanumeric : string; rb_SeedIndex : Z }.

Definition RestoreWallet (method : string) (core : option KeyCore) (body : option RestoreBody) : httpReply string :=
  if negb (String.eqb method "POST") then HttpError 405 "POST required"
  else match core, body with
  | None, _ => HttpError 503 "Core (platarium-cli) not available"
  | _, None => HttpError 400 "Invalid JSON"
  | Some c, Some b =>
      let mnemonic := TrimSpace (rb_Mnemonic b) in
      let alphanumeric := TrimSpace (rb_Alphanumeric b) in
      if String.eqb mnemonic "" || String.eqb alphanumeric "" then HttpError 400 "body must include mnemonic and alphanumeric"
      else match Ownership.GenerateKeys c mnemonic alphanumeric (rb_SeedIndex b) with
      | Err e => HttpError 400 e
      | Ok keys =>
          let publicKey := default "" (keys !! "publicKey") in
          if String.eqb publicKey "" then HttpError 500 "Core did not return publicKey" else HttpOk publicKey
      end
  end.

Section routes.
Context {CS : Type} {R : GoRange} {C : GoConv}.
Variable marshal : Transaction -> Z -> string.
Implicit Types (g : Gateway CS) (k : GateConfig CS) (f : Faults CS) (o : putOutcome) (m : exploreMetrics).

(** ** Nonces *)

Record NonceGrant := mkGrant { ng_address : string; ng_nonce : Z; ng_accountNonce : Z }.

Definition AllocateNonce k (method : string) (body : option string) g : Gateway CS * httpReply NonceGrant :=
  if negb (String.eqb method "POST") then (g, HttpError 405 "POST required")
  else match body with
  | None => (g, HttpError 400 "Invalid JSON")
  | Some raw =>
      let address := TrimSpace raw in
      if negb (isValidFaucetAddress address) then (g, HttpError 400 "Invalid Platarium address")
      else
      let query := match g_query k with Some q => q (w_state (g_world g)) | None => fun _ => Err "" end in
      let '(reserved, r) := allocateNonceLocked (bool_decide (is_Some (g_query k))) query address (g_bc g) (g_reserved g) in
      (with_reserved reserved g,
       match r with Err e => HttpError 503 e | Ok (n, account) => HttpOk (mkGrant address n account) end)
  end.

Record NonceRelease := mkRelease { nr_address : string; nr_nonce : Z; nr_released : bool }.

Definition ReleaseNonce (method : string) (body : option (string * Z)) g : Gateway CS * httpReply NonceRelease :=
  if negb (String.eqb method "POST") then (g, HttpError 405 "POST required")
  else match body with
  | None => (g, HttpError 400 "Invalid JSON")
  | Some (raw, n) =>
      let address := TrimSpace raw in
      if negb (isValidFaucetAddress address) then (g, HttpError 400 "Invalid Platarium address")
      else let '(reserved, released) := releaseNonceLocked address n (g_bc g) (g_reserved g) in
           (with_reserved reserved g, HttpOk (mkRelease address n released))
  end.

(** ** Demo transactions *)

(** The struct a signed transaction is unmarshalled into. *)
Record DemoSigned := mkDemoSigned {
  ds_Hash : string; ds_From : string; ds_To : string; ds_Asset : string; ds_Amount : Z; ds_FeeUplp : Z; ds_Nonce : Z; ds_SigMain : string;
  ds_SigDerived : string; ds_PubMain : string; ds_PubDerived : string; ds_Reads : list string; ds_Writes : list string
}.

(** [SignTransaction]: from, to, asset, amount, fee, nonce, mnemonic, alphanumeric; [Ok None] when
    the answer does not unmarshal. *)
Variable SignTransaction : string -> string -> string -> Z -> Z -> Z -> string -> string -> result (option DemoSigned).

(** A number, else a text of the second key, else 1. *)
Definition demoNumber (txData : jobj) (key textKey : string) : Z :=
  let n := getUint64 txData key in
  let n := if n =? 0 then let v := getString txData textKey in
                          if String.eqb v "" then 0 else let '(p, ok) := ParseUint v in if ok then p else 0
           else n in
  if n =? 0 then 1 else n.

Record DemoInput := mkDemo {
  di_mnemonic : string; di_alphanumeric : string; di_to : string; di_amount : Z; di_fee : Z; di_nonce : Z; di_asset : string
}.

Definition demoInput (txData : jobj) : DemoInput :=
  mkDemo (getString txData "mnemonic") (getString txData "alphanumeric") (orStr (getString txData "to") (getString txData "toAddress"))
    (demoNumber txData "amount" "value") (demoNumber txData "fee_uplp" "fee") (Z.max 0 (getInt txData "nonce"))
    (orStr (getString txData "asset") "PLP").

Definition demoSigned (ref : positive) (now : Z) (c : DemoSigned) : Transaction :=
  mkTx ref (ds_Hash c) (ds_From c) (ds_To c) (FormatUint (ds_Amount c)) (FormatUint (ds_FeeUplp c)) (ds_Nonce c) now "transfer" "native" ""
    (ds_SigMain c) (ds_SigDerived c) (ds_PubMain c) (ds_PubDerived c) (ds_Asset c) (ds_Amount c) (ds_FeeUplp c) (ds_Reads c) (ds_Writes c)
    "" "" "" 0 None "" "" "".

Definition demoUnsigned (ref : positive) (stamp : string) (now : Z) (txData : jobj) (d : DemoInput) : Transaction :=
  mkTx ref (generateHash stamp) (getString txData "from") (di_to d) (FormatUint (di_amount d)) (FormatUint (di_fee d)) (di_nonce d) now
    (orStr (getString txData "type") "transfer") (orStr (getString txData "assetType") "native") "" "" "" "" "" "" 0 0 [] [] "" "" "" 0 None "" "" "".

Definition demoSender (core : GateCore CS) (txData : jobj) (d : DemoInput) : result string :=
  let from := getString txData "from" in
  if negb (String.eqb from "") then Ok from
  else match publicKeyOf (keyCore core) (di_mnemonic d) (di_alphanumeric d) with
  | Err e => Err ("GenerateKeys: " +:+ e)
  | Ok pk => if String.eqb pk "" then Err "Core did not return publicKey" else Ok pk
  end.

(** The transaction to admit: signed by Core when there is a wallet and a receiver, else unsigned. *)
Definition demoTransaction k (ref : positive) (stamp : string) (now : Z) (txData : jobj) : result Transaction :=
  let d := demoInput txData in
  match g_core k with
  | Some core =>
      if nonEmpty (di_mnemonic d) && nonEmpty (di_alphanumeric d) && nonEmpty (di_to d) then
        match demoSender core txData d with
        | Err e => Err e
        | Ok from =>
            match SignTransaction from (di_to d) (di_asset d) (di_amount d) (di_fee d) (di_nonce d) (di_mnemonic d) (di_alphanumeric d) with
            | Err e => Err ("SignTransaction: " +:+ e)
            | Ok None => Err "parse signed tx"
            | Ok (Some c) => Ok (demoSigned ref now c)
            end
        end
      else Ok (demoUnsigned ref stamp now txData d)
  | None => Ok (demoUnsigned ref stamp now txData d)
  end.

(** [nowMs] is the clock of the metrics, in milliseconds. *)
Definition DemoSendTx k f o meanwhile (method : string) (ref : positive) (stamp : string) (now nowMs : Z) (body : option jobj) g m
  : Gateway CS * exploreMetrics * httpReply Transaction :=
  if negb (String.eqb method "POST") then (g, m, HttpError 405 "POST required")
  else match body with
  | None => (g, m, HttpError 400 "Invalid JSON")
  | Some txData =>
      match demoTransaction k ref stamp now txData with
      | Err e => (g, m, HttpError 400 e)
      | Ok tx =>
          let '(g, r) := admitToMempool marshal k f o meanwhile tx g in
          match r with
          | Err e => (g, recordTxRejected m, HttpError 400 e)
          | Ok _ => (g, recordTxAccepted (tx_Hash tx) nowMs m, HttpOk tx)
          end
      end
  end.
End routes.

(** * What the wallet routes guarantee *)

Section leases.
Context {CS : Type} {R : GoRange} {C : GoConv}.
Variable marshal : Transaction -> Z -> string.
Variable SignTransaction : string -> string -> string -> Z -> Z -> Z -> string -> string -> result (option DemoSigned).
Variable k : GateConfig CS.
Implicit Types (g : Gateway CS).

(** The leases granted and neither returned nor used, most recent first. *)
Notation Leases := (list (string * Z)).

Definition endLease (a : string) (n : Z) (ls : Leases) : Leases := filter (fun l => l <> (a, n)) ls.

(** One step of the gateway as the holders of leases see it. An admission is decided by Core on
    an earlier gateway [g0] and completed on the present one. *)
Inductive lease_step : Gateway CS * Leases -> Gateway CS * Leases -> Prop :=
| LeaseGranted method body g g' grant ls :
    AllocateNonce k method body g = (g', HttpOk grant) -> lease_step (g, ls) (g', (ng_address grant, ng_nonce grant) :: ls)
| LeaseDenied method body g g' code e ls : AllocateNonce k method body g = (g', HttpError code e) -> lease_step (g, ls) (g', ls)
| LeaseReturned method body g g' rel ls :
    ReleaseNonce method body g = (g', HttpOk rel) ->
    lease_step (g, ls) (g', if nr_released rel then endLease (nr_address rel) (nr_nonce rel) ls else ls)
| LeaseNotReturned method body g g' code e ls : ReleaseNonce method body g = (g', HttpError code e) -> lease_step (g, ls) (g', ls)
| LeaseUsed f o tx g0 g g' ls :
    admitToMempool marshal k f o (fun _ => g) tx g0 = (g', Ok ()) -> lease_step (g, ls) (g', endLease (tx_From tx) (u64 (tx_Nonce tx)) ls)
| LeaseDemo f o method ref stamp now nowMs body g0 g g' m m' tx ls :
    DemoSendTx marshal SignTransaction k f o (fun _ => g) method ref stamp now nowMs body g0 m = (g', m', HttpOk tx) ->
    lease_step (g, ls) (g', endLease (tx_From tx) (u64 (tx_Nonce tx)) ls)
| LeaseElsewhere g g' ls : g_reserved g' = g_reserved g -> lease_step (g, ls) (g', ls).

(** The leases are the reservations. *)
Definition leases_match (s : Gateway CS * Leases) : Prop :=
  NoDup s.2 /\ forall a n, (a, n) ∈ s.2 <-> n ∈ reservedOf a (g_reserved s.1).

Lemma end_match g g' ls a n :
  leases_match (g, ls) ->
  (forall b, reservedOf b (g_reserved g') = if decide (a = b) then reservedOf b (g_reserved g) ∖ {[n]} else reservedOf b (g_reserved g)) ->
  leases_match (g', endLease a n ls).
Proof.
  intros [Hn Hm] Hr. split; [by apply NoDup_filter|]. intros b j. cbn [fst snd]. unfold endLease. rewrite list_elem_of_filter, Hr. cbn in Hm.
  rewrite Hm. case_decide; subst; set_solver.
Qed.

Lemma same_match g g' ls : leases_match (g, ls) -> (forall b, reservedOf b (g_reserved g') = reservedOf b (g_reserved g)) -> leases_match (g', ls).
Proof. intros [Hn Hm] Hr. split; [done|]. intros a n. cbn in *. by rewrite Hr. Qed.

(** Granting, without any bound on the account's nonce. *)
Lemma allocate_grants ledger query a bc m :
  let '(m', r) := allocateNonceLocked ledger query a bc m in
  match r with
  | Ok (n, _) => n ∉ reservedOf a m /\ HasInFlightNonce bc a (i64 n) = false /\
      forall b, reservedOf b m' = if decide (a = b) then {[n]} ∪ reservedOf b m else reservedOf b m
  | Err _ => forall b, reservedOf b m' = reservedOf b m
  end.
Proof.
  unfold allocateNonceLocked. destruct ledger; [|done]. cbn [negb]. destruct (query a) as [account|]; [|done].
  set (m0 := match m !! a with Some _ => m | None => <[a := ∅]> m end).
  assert (Hr : forall b, reservedOf b m0 = reservedOf b m) by (intros; apply reservedOf_ensure).
  generalize (if u64 (account + maxNonceReserveAhead) <? account then 0%nat else Datatypes.S (Z.to_nat maxNonceReserveAhead)). intros fuel.
  pose proof (firstFree_spec bc a m0 fuel account) as H. destruct (firstFree bc a m0 fuel account) as [n|]; [|done].
  destruct H as (_ & H & _). unfold takenNonce in H. apply orb_false_iff in H as [H1 H2]. apply bool_decide_eq_false in H1.
  rewrite Hr in H1. split_and!; [done|done|]. intros b. rewrite reservedOf_insert, !Hr. by case_decide; subst.
Qed.

Lemma release_returns a n bc (m : Reserved) :
  let '(m', released) := releaseNonceLocked a n bc m in
  forall b, reservedOf b m' = if released then (if decide (a = b) then reservedOf b m ∖ {[n]} else reservedOf b m) else reservedOf b m.
Proof.
  unfold releaseNonceLocked. destruct (m !! a); [|done]. destruct (negb _); [done|]. destruct (HasInFlightNonce _ _ _); [done|].
  intros b. rewrite reservedOf_drop. by case_decide; subst.
Qed.

Lemma allocate_route method body g g' r : AllocateNonce k method body g = (g', r) ->
  match r with
  | HttpOk grant => ng_nonce grant ∉ reservedOf (ng_address grant) (g_reserved g) /\ HasInFlightNonce (g_bc g) (ng_address grant) (i64 (ng_nonce grant)) = false /\
      forall b, reservedOf b (g_reserved g') =
        if decide (ng_address grant = b) then {[ng_nonce grant]} ∪ reservedOf b (g_reserved g) else reservedOf b (g_reserved g)
  | HttpError _ _ => forall b, reservedOf b (g_reserved g') = reservedOf b (g_reserved g)
  end.
Proof.
  unfold AllocateNonce. destruct (negb _); [by intros [= <- <-]|]. destruct body as [raw|]; [|by intros [= <- <-]].
  destruct (negb _); [by intros [= <- <-]|].
  pose proof (allocate_grants (bool_decide (is_Some (g_query k))) (match g_query k with Some q => q (w_state (g_world g)) | None => fun _ => Err "" end)
    (TrimSpace raw) (g_bc g) (g_reserved g)) as H.
  destruct (allocateNonceLocked _ _ _ _ _) as [m [[n account]|e]]; intros [= <- <-]; exact H.
Qed.

Lemma release_route method body g g' r : ReleaseNonce method body g = (g', r) ->
  match r with
  | HttpOk rel => forall b, reservedOf b (g_reserved g') =
      if nr_released rel then (if decide (nr_address rel = b) then reservedOf b (g_reserved g) ∖ {[nr_nonce rel]} else reservedOf b (g_reserved g))
      else reservedOf b (g_reserved g)
  | HttpError _ _ => g' = g
  end.
Proof.
  unfold ReleaseNonce. destruct (negb _); [by intros [= <- <-]|]. destruct body as [[raw n]|]; [|by intros [= <- <-]].
  destruct (negb _); [by intros [= <- <-]|]. pose proof (release_returns (TrimSpace raw) n (g_bc g) (g_reserved g)) as H.
  destruct (releaseNonceLocked _ _ _ _) as [m released]. intros [= <- <-]. exact H.
Qed.

(** A demo transaction that is answered with success has been admitted. *)
Lemma demo_admitted f o mw method ref stamp now nowMs body g g' m m' tx :
  DemoSendTx marshal SignTransaction k f o mw method ref stamp now nowMs body g m = (g', m', HttpOk tx) ->
  exists txData, body = Some txData /\ demoTransaction SignTransaction k ref stamp now txData = Ok tx /\ admitToMempool marshal k f o mw tx g = (g', Ok ()).
Proof.
  unfold DemoSendTx. destruct (negb _); [done|]. destruct body as [txData|]; [|done].
  destruct (demoTransaction _ _ _ _ _ _) as [t|] eqn:Et; [|done].
  destruct (admitToMempool marshal k f o mw t g) as [g1 [[]|e]] eqn:Ea; [|done]. intros [= <- _ <-]. by exists txData.
Qed.

Lemma lease_step_match s s' : lease_step s s' -> leases_match s -> leases_match s'.
Proof.
  intros H Hm. destruct H.
  - pose proof (allocate_route _ _ _ _ _ H) as (Hn & _ & Hr). destruct Hm as [Hd Hm]. cbn in Hd, Hm. split; cbn [fst snd].
    + apply NoDup_cons. split; [|done]. by rewrite Hm.
    + intros a n. rewrite elem_of_cons, Hm, Hr. case_decide as E; [subst|]; set_solver.
  - apply (same_match g); [done|exact (allocate_route _ _ _ _ _ H)].
  - pose proof (release_route _ _ _ _ _ H) as Hr. cbn beta iota in Hr. destruct (nr_released rel); [by apply (end_match g)|by apply (same_match g)].
  - apply release_route in H as ->. done.
  - apply (end_match g); [done|]. apply admit_ok in H as (_ & (_ & _ & _ & _ & Hr) & _). exact Hr.
  - apply demo_admitted in H as (d & _ & _ & H). apply (end_match g); [done|]. apply admit_ok in H as (_ & (_ & _ & _ & _ & Hr) & _). exact Hr.
  - apply (same_match g); [done|]. intros b. by rewrite H.
Qed.


(** Only a transaction that Core signed is ever admitted by the demo route: the unsigned form it
    builds otherwise is refused. *)
Theorem demo_never_unsigned f o mw method ref stamp now nowMs body g g' m m' tx :
  DemoSendTx marshal SignTransaction k f o mw method ref stamp now nowMs body g m = (g', m', HttpOk tx) ->
  exists txData from signed, body = Some txData /\ nonEmpty (di_mnemonic (demoInput txData)) = true /\
    SignTransaction from (di_to (demoInput txData)) (di_asset (demoInput txData)) (di_amount (demoInput txData)) (di_fee (demoInput txData))
      (di_nonce (demoInput txData)) (di_mnemonic (demoInput txData)) (di_alphanumeric (demoInput txData)) = Ok (Some signed) /\
    tx = demoSigned ref now signed /\ ds_SigMain signed <> "" /\ coreAccepts k tx g.
Proof.
  intros H. apply demo_admitted in H as (txData & -> & Ht & Ha). apply admit_ok in Ha as (Hv & _).
  apply validate_spec in Hv as (_ & _ & _ & Hc). destruct Hc as (core & json & res & Hcore & Hj & Hadm).
  assert (Hs : tx_SigMain tx <> "") by (intros E; unfold ToCoreJSON in Hj; rewrite E in Hj; by destruct (String.eqb (tx_From tx) FaucetAddress)).
  unfold demoTransaction in Ht. rewrite Hcore in Ht. destruct (nonEmpty (di_mnemonic _)) eqn:Em; [|by injection Ht as <-].
  destruct (nonEmpty (di_alphanumeric _)); [|by injection Ht as <-]. destruct (nonEmpty (di_to _)); [|by injection Ht as <-]. cbn [andb] in Ht.
  destruct (demoSender core txData _) as [from|]; [|done]. destruct (SignTransaction from _ _ _ _ _ _ _) as [[c|]|] eqn:Es; [|done..].
  injection Ht as <-. exists txData, from, c. split_and!; [done|done|done|done|done|]. by exists core, json, res.
Qed.
End leases.

(** A wallet that the gateway generated is restored to the same address from its words, with
    seed index 0, whatever white space surrounds them. *)
Theorem wallet_restores core generated w pad1 pad2 :
  GenerateWallet (Some core) generated = HttpOk w ->
  TrimSpace pad1 = wl_mnemonic w -> TrimSpace pad2 = wl_alphanumeric w -> wl_mnemonic w <> "" -> wl_alphanumeric w <> "" ->
  RestoreWallet "POST" (Some core) (Some (mkRestore pad1 pad2 0)) = HttpOk (wl_address w).
Proof.
  intros Hg H1 H2 Hm Ha. unfold GenerateWallet in Hg. destruct generated as [[mn an]|]; [|done].
  destruct (Ownership.GenerateKeys core mn an 0) as [keys|] eqn:Ek; [|done]. destruct (String.eqb_spec (default "" (keys !! "publicKey")) "") as [|Hp]; [done|].
  injection Hg as <-. cbn [wl_mnemonic wl_alphanumeric wl_address] in *. unfold RestoreWallet. change (negb (String.eqb "POST" "POST")) with false. cbv beta iota zeta.
  cbn [rb_Mnemonic rb_Alphanumeric rb_SeedIndex]. rewrite H1, H2, (proj2 (String.eqb_neq _ _) Hm), (proj2 (String.eqb_neq _ _) Ha), Ek. cbn [orb].
  by rewrite (proj2 (String.eqb_neq _ _) Hp).
Qed.

(** ** Witnesses and concrete runs *)

#[local] Existing Instance canonical_range.
#[local] Existing Instance zero_conv.

Definition gateEmpty : Gateway Z := mkGateway (mkWorld NewBlockchain 0 None None) ∅ (Some ∅) NewBook None None.

Definition demoCore (from to asset : string) (amount fee nonce : Z) (_ _ : string) : result (option DemoSigned) :=
  Ok (Some (mkDemoSigned "demo-1" from to asset amount fee nonce "sig" "sig2" "" "" [] [])).

Definition demoBody : jobj :=
  [("mnemonic", JString "words"); ("alphanumeric", JString "code"); ("from", JString "PxAlice00"); ("to", JString "PxB"); ("amount", jint 5); ("nonce", jint 3)].

Definition granted (body : string) (g : Gateway Z) : Gateway Z := (AllocateNonce openConfig "POST" (Some body) g).1.


(** The release route asks for no proof of ownership: anybody returns the lease of another client,
    and the next client is granted the same nonce. *)
Example foreign_release_duplicates :
  let g1 := granted "PxAlice00" gateEmpty in
  let '(g2, r) := ReleaseNonce "POST" (Some ("PxAlice00", 3)) g1 in
  r = HttpOk (mkRelease "PxAlice00" 3 true) /\ (AllocateNonce openConfig "POST" (Some "PxAlice00") g2).2 = HttpOk (mkGrant "PxAlice00" 3 3).
Proof. vm_compute. done. Qed.

(** Without a mnemonic the demo route builds an unsigned transaction, which admission refuses. *)
Example unsigned_demo_refused :
  (DemoSendTx textOf demoCore openConfig noFaults PutOk (fun g => g) "POST" 1 "stamp" 100 0
     (Some [("from", JString "PxAlice00"); ("to", JString "PxB")]) gateEmpty newExploreMetrics).2 = HttpError 400 "transaction missing Core signature fields".
Proof. vm_compute. reflexivity. Qed.
