(* ===== verification/StatusRoutes.v ===== *)
(** * Consensus, reward and status routes (handlers.go, nodes.go)

    The legacy confirmation in one step, the reward and rating pages, the laboratory
    switches, the status pages of a node with the measurement of its peers, and the ICE
    list of calls. Reads of the node manager come first, as in the code; broadcasts change
    nothing of this state. *)

From S2P Require Import Prelude GoStd GoJson Dag Tx ForkChoice Chain Pool Confirm ConfirmSpec History Explorer TxPool Boundary BoundarySpec PeerSpec Rating Rewards L1Validate Votes Consensus CoreRpc CoreCalls GoText ExplorerRoutes ExploreMetrics Nodes.

#[local] Open Scope Z_scope.

(** ** Consensus and rewards *)

Section confirm.
Context {R : GoRange} {CS RS : Type}.
Implicit Types (h : HandlerEnv CS RS) (f : Faults CS) (n : Node CS RS) (d : Distributor).

(** The legacy confirmation: the mempool becomes a block, which is then finalised. *)
Definition ConfirmBlock h f (meanwhile : Blockchain -> Blockchain) (method myId : string) (now : Z) d n
  : Distributor * Node CS RS * httpReply (BlockRecord * Z) :=
  if negb (String.eqb method "POST") then (d, n, HttpError 405 "POST required")
  else
  let '(w, r) := ConfirmMempoolToChain (chainEnv h) f meanwhile now (n_world n) in
  let n := with_world w n in
  match r with
  | Err e => (d, n, HttpError 500 e)
  | Ok (moved, block, hasBak) =>
      let '(n, fin) := FinalizeConfirmedBlock h f block (Some <$> moved) hasBak myId n in
      match fin with
      | Err e => (d, n, HttpError 500 e)
      | Ok (block, _) =>
          (if 0 <? b_TotalFees block then (ApplyBlock (b_TotalFees block) d).1 else d, n, HttpOk (block, Z.of_nat (length moved)))
      end
  end.
End confirm.

(** Percentages, burned, treasury. *)
Definition GetRewardConfig (d : Distributor) : Config * Z * Z := (config d, TotalBurned d, TotalTreasury d).

(** The body is the decoded amount. *)
Definition RewardCreditL1 (method : string) (body : option Z) (e : Earnings) : Earnings * httpReply unit :=
  if negb (String.eqb method "POST") then (e, HttpError 405 "POST required")
  else match body with
  | None => (e, HttpError 400 "invalid amount")
  | Some amount =>
      if amount <=? 0 then (e, HttpError 400 "invalid amount")
      else (mkEarn (allNodeEarnings e) (i64 (nodeEarnedL1 e + amount)) (nodeEarnedFees e), HttpOk ())
  end.

Definition GetLastVotes (st : ConsState) : gmap string bool * bool * (gmap string bool * bool) :=
  (cs_lastL1Votes st, cs_lastL1Accepted st, (cs_lastL2Votes st, cs_lastL2Accepted st)).

Section pages.
Context {R : GoRange}.

Record FeeRow := mkFeeRow { fr_nodeId : string; fr_l1Earned : Z; fr_l2Earned : Z }.

(** A node with no earnings, unless it is listed already. *)
Definition addZeroRow (acc : list FeeRow * gset string) (id : string) : list FeeRow * gset string :=
  let '(rows, seen) := acc in
  if bool_decide (id ∈ seen) then acc else (rows ++ [mkFeeRow id 0 0], {[id]} ∪ seen).

Definition feeRows (thisID : string) (connected : list NodeInfo) (e : Earnings) : list FeeRow :=
  let rows := (fun '(id, (l1, l2)) => mkFeeRow id l1 l2) <$> range (allNodeEarnings e) in
  (foldl addZeroRow (rows, list_to_set (fr_nodeId <$> rows)) (thisID :: (ni_NodeID <$> connected))).1.

Definition GetFeeDistribution (thisID : string) (connected : list NodeInfo) (e : Earnings) (d : Distributor) : list FeeRow * (Config * Z * Z) :=
  (feeRows thisID connected e, GetRewardConfig d).

Record LoadBody := mkLoadBody { lb_NodeID : string; lb_CurrentTasks : Z; lb_MaxCapacity : Z }.
Record LoadReply := mkLoadReply { lr_nodeId : string; lr_currentTasks : Z; lr_maxCapacity : Z; lr_loadScore : Z; lr_selectionWeight : Z }.

(** [None] in the answer: "load set" without the figures. *)
Definition TestSetLoad (method myId : string) (body : option LoadBody) (reg : Registry) : Registry * httpReply (option LoadReply) :=
  if negb (String.eqb method "POST") then (reg, HttpError 405 "POST required")
  else match body with
  | None => (reg, HttpError 400 "invalid JSON")
  | Some b =>
      let nodeID := if String.eqb (lb_NodeID b) "" then myId else lb_NodeID b in
      let reg := SetLoad nodeID (lb_CurrentTasks b) (lb_MaxCapacity b) (EnsureNode nodeID 0 1 reg) in
      (reg, HttpOk ((fun n => mkLoadReply nodeID (CurrentTasks n) (MaxCapacity n) (LoadScore n) (SelectionWeight n)) <$> Get nodeID reg))
  end.

Record RatingRow := mkRatingRow {
  rr_nodeId : string; rr_status : string; rr_uptimeScore : Z; rr_latencyScore : Z; rr_missedVotes : Z; rr_totalVotes : Z; rr_stake : Z;
  rr_reputationScore : Z; rr_loadScore : Z; rr_selectionWeight : Z; rr_voteAccuracy : Z
}.

Definition ratingRow (s : NodeScores) : RatingRow :=
  mkRatingRow (NodeID s) (Status s) (UptimeScore s) (LatencyScore s) (MissedVotes s) (TotalVotes s) (Stake s) (ReputationScore s) (LoadScore s)
    (SelectionWeight s) (VoteAccuracy s).

(** The page registers this node and its peers, then lists all. *)
Definition ensurePeer (reg : Registry) (id : string) : Registry := if String.eqb id "" then reg else EnsureNode id 0 1 reg.

Definition GetNodeRatings (thisID : string) (connected : list NodeInfo) (reg : Registry) : Registry * (list RatingRow * Z) :=
  let reg := foldl ensurePeer (EnsureNode thisID 0 1 reg) (ni_NodeID <$> connected) in
  (reg, (ratingRow <$> All reg, ScoreScale)).
End pages.

(** ** Statistics *)

(** [coreBlockProposalStatus]: without Core an error. [snapshot] is the mempool as JSON. *)
Definition coreBlockProposalStatus {S} (status : option (string -> Z -> S -> S * result BlockProposalStatusResult)) (snapshot : result string)
    (nowUnix : Z) (s : S) : S * result BlockProposalStatusResult :=
  match status with
  | None => (s, Err "rust core unavailable")
  | Some ask => match snapshot with Err e => (s, Err e) | Ok snap => ask snap nowUnix s end
  end.

Record StatsReply := mkStatsReply {
  sr_chain : ChainStats; sr_nodeEarnedFees : Z; sr_nodeEarnedL1 : Z; sr_rewards : Config * Z * Z; sr_operatorWallet : string; sr_networkId : string;
  sr_blockProposal : result BlockProposalStatusResult; sr_liveMetrics : Snapshot
}.

Definition GetStatsRoute {S} probe rocks (status : option (string -> Z -> S -> S * result BlockProposalStatusResult)) (snapshotJSON : result string)
    (wallet network : string) (nowUnix nowMs nowNs numCPU : Z) (ticks : option Z) (bc : Blockchain) (e : Earnings) (d : Distributor) (m : exploreMetrics) (s : S)
  : S * exploreMetrics * StatsReply :=
  let '(s, proposal) := coreBlockProposalStatus status snapshotJSON nowUnix s in
  let '(m, live) := snapshot nowMs nowNs numCPU ticks m in
  (s, m, mkStatsReply (GetStats probe rocks bc) (nodeEarnedFees e) (nodeEarnedL1 e) (GetRewardConfig d) wallet network proposal live).

(** ** The status of a node *)

Section status.
Context {R : GoRange}.
Implicit Types nm : NodesManager.

Record Health := mkHealth { he_nodeId : string; he_nodeAddress : string; he_connectedPeers : Z }.

Definition HealthCheck nm : Health := mkHealth (nm_nodeID nm) (nm_nodeAddress nm) (Z.of_nat (length (GetConnectedNodes nm))).

Definition NetworkStatus nm : string * string * string * list NodeInfo :=
  (nm_nodeID nm, nm_nodeAddress nm, nm_restBaseURL nm, GetConnectedNodes nm).

Record Sockets := mkSockets { so_sockets : list SocketInfo; so_connectedClients : Z; so_connectedPeers : Z }.

(** The peers are asked for their lists; what they answer is seen by a later request. *)
Definition GetSockets (local : list SocketInfo) nm : list effect * Sockets :=
  let all := GetConnectedSockets local nm in
  (QueryPeerSockets nm, mkSockets all (Z.of_nat (length all)) (Z.of_nat (length (GetConnectedNodes nm)))).

(** *** The measurement of peers (nodes.go) *)

(** The HTTP address a peer is measured at. *)
Definition pingURL (address : string) : string :=
  (if HasPrefix address "ws://" then "http://" +:+ str_drop 5 address
   else if HasPrefix address "wss://" then "https://" +:+ str_drop 6 address else address) +:+ "/api".

(** The measurement of one peer; [get] is the time of a request, [None] when it failed. *)
Definition measurePeer (get : string -> option Z) (p : PeerConnection) : option Z :=
  match pr_Conn p with None => None | Some _ => get (pingURL (pr_Address p)) end.

(** What the collecting loop receives: the answer of a peer, or the deadline of two
    seconds, which fires once. *)
Inductive pingEvent := Arrived (index : nat) (ping : option Z) | Deadline.

(** One round per peer: the deadline ends its round of the select only. *)
Fixpoint collectPings (rounds : nat) (evs : list pingEvent) (results : gmap nat (option Z)) : gmap nat (option Z) :=
  match rounds, evs with
  | S rounds, Arrived i ping :: evs => collectPings rounds evs (<[i := ping]> results)
  | S rounds, Deadline :: evs => collectPings rounds evs results
  | _, _ => results
  end.

Record PeerWithPing := mkPeerPing { pp_NodeID : string; pp_Address : string; pp_Host : string; pp_Port : Z; pp_Ping : option Z }.

Definition GetPeersWithPing (evs : list pingEvent) nm : list PeerWithPing :=
  let results := collectPings (length (peers nm)) evs ∅ in
  imap (fun i p => mkPeerPing (pr_NodeID p) (pr_Address p) (pr_Host p) (pr_Port p) (default None (results !! i))) (peers nm).

Record PeerMetric := mkPeerMetric { pm_nodeId : string; pm_address : string; pm_pingFailures : Z; pm_lastPong : Z }.

(** Times in nanoseconds, answers in milliseconds. *)
Definition peerMetric (now : Z) (p : PeerConnection) : PeerMetric :=
  mkPeerMetric (pr_NodeID p) (pr_Address p) (pr_PingFailures p) (match pr_LastPong p with None => 0 | Some t => Z.quot (now - t) 1000000 end).

Record Metrics := mkNodeMetrics { mt_connectedPeers : Z; mt_connectedClients : Z; mt_peers : list PeerMetric; mt_seenEvents : Z }.

Definition GetMetrics (local : list SocketInfo) (now : Z) nm : Metrics :=
  mkNodeMetrics (Z.of_nat (length (peers nm))) (Z.of_nat (length (GetConnectedSockets local nm))) (peerMetric now <$> peers nm)
    (Z.of_nat (size (nm_seenEvents nm))).

(** *** The status page *)

Definition okIf (b : bool) : string := if b then "ok" else "not_ok".

(** [balance]: the result of the balance query for "test" and whether there is a ledger; [None] without a blockchain. *)
Definition statusComponents (wsServer : bool) (balance : option (result string * bool)) nm : list (string * string) :=
  [("REST", "ok"); ("WebSocket", okIf wsServer);
   ("P2P", okIf (0 <? Z.of_nat (length (GetConnectedNodes nm))));
   ("Balance", match balance with Some (Ok _, _) => "ok" | Some (Err _, ledger) => okIf ledger | None => "not_ok" end);
   ("Transactions", okIf (bool_decide (is_Some balance)))].

Definition overallStatus (components : list (string * string)) : string :=
  okIf (negb (existsb (fun c => String.eqb c.2 "not_ok") components)).

Record DetailedStatus := mkDetailed {
  dt_status : string; dt_components : list (string * string); dt_connectedPeers : Z; dt_peers : list PeerWithPing; dt_connectedClients : Z; dt_metrics : Metrics
}.

Definition GetDetailedStatus (wsServer : bool) (balance : option (result string * bool)) (local : list SocketInfo) (evs : list pingEvent) (now : Z) nm : DetailedStatus :=
  let components := statusComponents wsServer balance nm in
  mkDetailed (overallStatus components) components (Z.of_nat (length (GetConnectedNodes nm))) (GetPeersWithPing evs nm)
    (Z.of_nat (length (GetConnectedSockets local nm))) (GetMetrics local now nm).
End status.

(** The address to measure of [PingPeer], and its answer; [elapsed] is [None] when the request failed. *)
Definition pingPeerURL (address : string) : string :=
  (if (2 <? len address) && String.eqb (str_take 2 address) "ws" then "http" +:+ str_drop 2 address else address) +:+ "/".

Definition PingPeer (address : string) (get : string -> option Z) : httpReply (string * option Z) :=
  if String.eqb address "" then HttpError 400 "address parameter is required"
  else HttpOk (address, get (pingPeerURL address)).

(** ** Calls *)

Definition defaultPublicStunIceServers : list jval :=
  [JObject [("urls", JString "stun:stun.l.google.com:19302")]; JObject [("urls", JString "stun:stun1.l.google.com:19302")]].

(** [jsonOf] is the decoder of JSON. *)
Definition WebRtcTurnIce (jsonOf : string -> option jval) (getenv : string -> string) : list jval :=
  let raw := TrimSpace (getenv "WEBRTC_ICE_SERVERS_JSON") in
  if String.eqb raw "" then defaultPublicStunIceServers
  else match jsonOf raw with
  | Some (JArray (v :: l)) => v :: l
  | _ => defaultPublicStunIceServers
  end.

(** * What these routes guarantee *)

(** ** The measurement of peers *)

Section pings.
Context {R : GoRange}.
Variable get : string -> option Z.
Implicit Types (nm : NodesManager) (order : list nat).

Definition pingOf nm (i : nat) : option Z := peers nm !! i ≫= measurePeer get.

(** The answers in the order they arrive, the deadline after the first [j] of them. *)
Definition arrivals nm order : list pingEvent := (fun i => Arrived i (pingOf nm i)) <$> order.
Definition pingEvents nm order (j : nat) : list pingEvent := arrivals nm (take j order) ++ Deadline :: arrivals nm (drop j order).

Definition recordPing nm (m : gmap nat (option Z)) (i : nat) : gmap nat (option Z) := <[i := pingOf nm i]> m.

Lemma collect_arrivals nm order r evs m :
  collectPings (length order + r) (arrivals nm order ++ evs) m = collectPings r evs (foldl (recordPing nm) m order).
Proof. revert m. induction order as [|i order IH]; intros m; [done|]. cbn. apply IH. Qed.

Lemma collect_short nm order r m : (r <= length order)%nat ->
  collectPings r (arrivals nm order) m = foldl (recordPing nm) m (take r order).
Proof.
  revert order m. induction r as [|r IH]; intros order m H; [destruct order; done|]. destruct order as [|i order]; cbn in *; [lia|]. apply IH. lia.
Qed.

Lemma collected_lookup nm order m i :
  foldl (recordPing nm) m order !! i = if decide (i ∈ order) then Some (pingOf nm i) else m !! i.
Proof.
  revert m. induction order as [|k order IH]; intros m; cbn [foldl]; [done|]. rewrite IH. unfold recordPing.
  destruct (decide (i ∈ order)) as [Hi|Hi]; [rewrite decide_True by (by right); done|].
  destruct (decide (i = k)) as [->|Hk]; [rewrite lookup_insert_eq, decide_True by left; done|].
  rewrite lookup_insert_ne by done. rewrite decide_False by (rewrite elem_of_cons; naive_solver). done.
Qed.

Lemma collected_events nm order j :
  collectPings (length order) (pingEvents nm order j) ∅ =
  foldl (recordPing nm) ∅ (if decide (j < length order)%nat then take (pred (length order)) order else order).
Proof.
  unfold pingEvents. destruct (decide (j < length order)%nat) as [Hj|Hj].
  - rewrite <- (take_drop j order) at 1. rewrite length_app, collect_arrivals, length_drop.
    destruct (length order - j)%nat as [|r] eqn:Er; [lia|]. cbn [collectPings].
    rewrite collect_short by (rewrite length_drop; lia). rewrite <- foldl_app. f_equal.
    rewrite take_drop_commute. rewrite <- (take_drop j (take (pred (length order)) order)), take_take. f_equal; [f_equal; lia|].
    f_equal. f_equal. lia.
  - rewrite take_ge by lia. rewrite <- (Nat.add_0_r (length order)), collect_arrivals. done.
Qed.

(** what the status page says of its peers. For every order in which the answers of the
    peers arrive and every moment of the two-second deadline, the page lists all peers in the
    order of the map; each has its measured time, except that when the deadline fires before the
    last answer arrives, exactly the peer that answers last has none: the deadline
    neither ends the wait nor loses any other answer. *)
Theorem peer_pings_exact nm order j :
  order ≡ₚ seq 0 (length (peers nm)) ->
  length (GetPeersWithPing (pingEvents nm order j) nm) = length (peers nm) /\
  forall i p, peers nm !! i = Some p ->
    exists row, GetPeersWithPing (pingEvents nm order j) nm !! i = Some row /\
      pp_NodeID row = pr_NodeID p /\ pp_Address row = pr_Address p /\
      pp_Ping row = if decide ((j < length (peers nm))%nat /\ last order = Some i) then None else measurePeer get p.
Proof.
  intros Hp. assert (Hl : length order = length (peers nm)) by (rewrite Hp; apply length_seq).
  assert (Hd : NoDup order) by (rewrite Hp; apply NoDup_seq).
  unfold GetPeersWithPing. cbv zeta. rewrite <- Hl, collected_events, length_imap. split; [done|]. intros i p Hi.
  rewrite list_lookup_imap, Hi. eexists. split; [reflexivity|]. cbn [pp_NodeID pp_Address pp_Ping]. split_and!; [done..|].
  assert (Hin : i ∈ order) by (rewrite Hp; apply elem_of_seq; apply lookup_lt_Some in Hi; lia).
  assert (Hm : pingOf nm i = measurePeer get p) by (unfold pingOf; by rewrite Hi).
  rewrite collected_lookup, lookup_empty. destruct (decide (j < length order)%nat) as [Hj|Hj].
  - destruct order as [|x order _] using rev_ind; [cbn in Hj; lia|]. rewrite length_app, last_snoc. cbn [length].
    replace (pred (length order + 1)) with (length order) by lia. rewrite take_app_length.
    apply NoDup_app in Hd as (_ & Hx & _). rewrite elem_of_app, list_elem_of_singleton in Hin.
    destruct (decide (i ∈ order)) as [Ho|Ho].
    + rewrite decide_False; [cbn; done|]. intros [_ [= <-]]. apply (Hx _ Ho). by apply list_elem_of_singleton.
    + destruct Hin as [|<-]; [done|]. rewrite decide_True by (split; [rewrite length_app in Hj; cbn in Hj; lia|done]). done.
  - rewrite decide_True by done. cbn. rewrite Hm. rewrite decide_False; [done|]. intros [? _]. lia.
Qed.
End pings.

(** ** The legacy confirmation *)

(** Fees are distributed only for a block that was finalised, and then those of that block. *)
Theorem legacy_confirm_pays_committed {R : GoRange} {CS RS : Type} (h : HandlerEnv CS RS) f mw method myId now d n :
  let '(d', n', reply) := ConfirmBlock h f mw method myId now d n in
  match reply with
  | HttpError _ _ => d' = d
  | HttpOk (b, count) => exists w moved b0 hasBak c,
      ConfirmMempoolToChain (chainEnv h) f mw now (n_world n) = (w, Ok (moved, b0, hasBak)) /\
      FinalizeConfirmedBlock h f b0 (Some <$> moved) hasBak myId (with_world w n) = (n', Ok (b, c)) /\ count = Z.of_nat (length moved) /\
      d' = (if 0 <? b_TotalFees b then (ApplyBlock (b_TotalFees b) d).1 else d)
  end.
Proof.
  unfold ConfirmBlock. destruct (negb _); [done|].
  destruct (ConfirmMempoolToChain _ _ _ _ _) as [w [[[moved b0] hasBak]|e]] eqn:Ec; [|done].
  destruct (FinalizeConfirmedBlock _ _ _ _ _ _ _) as [n1 [[b c]|e]] eqn:Ef; [|done]. by exists w, moved, b0, hasBak, c.
Qed.

(** ** Pages *)

Section pages.
Context {R : GoRange}.

Definition rowsExact (rows : list FeeRow) (seen : gset string) : Prop :=
  NoDup (fr_nodeId <$> rows) /\ forall id, id ∈ seen <-> id ∈ fr_nodeId <$> rows.

Definition earnedRow (e : Earnings) (r : FeeRow) : Prop := (fr_l1Earned r, fr_l2Earned r) = earned e (fr_nodeId r).

Lemma addZeroRows ids rows seen e :
  rowsExact rows seen -> (forall id, id ∈ dom (allNodeEarnings e) -> id ∈ fr_nodeId <$> rows) -> Forall (earnedRow e) rows ->
  let '(rows', seen') := foldl addZeroRow (rows, seen) ids in
  rowsExact rows' seen' /\ Forall (earnedRow e) rows' /\ forall id, id ∈ fr_nodeId <$> rows' <-> id ∈ fr_nodeId <$> rows \/ id ∈ ids.
Proof.
  revert rows seen. induction ids as [|id ids IH]; intros rows seen [Hd Hs] Hdom Hr; cbn [foldl].
  { split_and!; [done|done|]. intros. rewrite elem_of_nil. tauto. }
  unfold addZeroRow at 2. case_bool_decide as Hin.
  - specialize (IH rows seen (conj Hd Hs) Hdom Hr). destruct (foldl addZeroRow (rows, seen) ids) as [rows' seen'].
    destruct IH as (H1 & H2 & H3). split_and!; [done|done|]. intros k. rewrite H3, elem_of_cons. rewrite Hs in Hin. naive_solver.
  - assert (Hnew : id ∉ fr_nodeId <$> rows) by (by rewrite <- Hs).
    assert (Hz : earnedRow e (mkFeeRow id 0 0)).
    { unfold earnedRow, earned. cbn. destruct (allNodeEarnings e !! id) eqn:El; [|done]. destruct Hnew. apply Hdom. by apply elem_of_dom_2 in El. }
    specialize (IH (rows ++ [mkFeeRow id 0 0]) ({[id]} ∪ seen)). destruct (foldl addZeroRow (rows ++ [mkFeeRow id 0 0], {[id]} ∪ seen) ids) as [rows' seen'].
    destruct IH as (H1 & H2 & H3).
    + split; [|intros k; rewrite fmap_app, elem_of_app, elem_of_union, elem_of_singleton, Hs; cbn; rewrite list_elem_of_singleton; tauto].
      rewrite fmap_app. apply NoDup_app. split_and!; [done| |apply NoDup_singleton]. intros k Hk ->%list_elem_of_singleton. done.
    + intros k Hk. rewrite fmap_app, elem_of_app. left. by apply Hdom.
    + apply Forall_app. split; [done|]. by constructor.
    + split_and!; [done|done|]. intros k. rewrite H3, fmap_app, elem_of_app, elem_of_cons. cbn. rewrite list_elem_of_singleton. tauto.
Qed.

(** The page of earnings lists every node that earned, this node and every connected peer,
    each once and with what is recorded for it, which is nothing for the others. *)
Theorem fee_page_exact thisID connected e :
  let rows := feeRows thisID connected e in
  NoDup (fr_nodeId <$> rows) /\ Forall (earnedRow e) rows /\
  forall id, id ∈ fr_nodeId <$> rows <-> id ∈ dom (allNodeEarnings e) \/ id = thisID \/ id ∈ ni_NodeID <$> connected.
Proof.
  unfold feeRows. cbv zeta. set (rows0 := (fun '(id, (l1, l2)) => mkFeeRow id l1 l2) <$> range (allNodeEarnings e)).
  assert (Hk : fr_nodeId <$> rows0 = (range (allNodeEarnings e)).*1).
  { unfold rows0. rewrite <- list_fmap_compose. apply list_fmap_ext. by intros ? [? [? ?]] _. }
  assert (Hdom : forall id, id ∈ fr_nodeId <$> rows0 <-> id ∈ dom (allNodeEarnings e)).
  { intros id. rewrite Hk, elem_of_dom. split.
    - intros ([k v] & -> & H)%list_elem_of_fmap. apply elem_of_range in H. by exists v.
    - intros [v H]. apply list_elem_of_fmap. exists (id, v). split; [done|]. by apply elem_of_range. }
  pose proof (addZeroRows (thisID :: (ni_NodeID <$> connected)) rows0 (list_to_set (fr_nodeId <$> rows0)) e) as H.
  destruct (foldl addZeroRow _ _) as [rows' seen'] eqn:E. cbn [fst]. destruct H as ([Hd _] & Hr & Hin).
  - split; [rewrite Hk, range_perm; apply NoDup_fst_map_to_list|]. intros id. apply elem_of_list_to_set.
  - intros id. apply Hdom.
  - apply Forall_forall. intros r Hr. apply list_elem_of_fmap in Hr as ([id [l1 l2]] & -> & Hr). apply elem_of_range in Hr.
    unfold earnedRow, earned. cbn. by rewrite Hr.
  - split_and!; [done|done|]. intros id. rewrite Hin, Hdom, elem_of_cons. done.
Qed.

(** The status page is "ok" exactly when the websocket server runs, a peer is connected, and there is a
    blockchain whose balance query answers or which has a ledger. *)
Theorem detailed_status_exact ws balance local evs now nm :
  dt_status (GetDetailedStatus ws balance local evs now nm) = "ok" <->
  ws = true /\ GetConnectedNodes nm <> [] /\ exists r ledger, balance = Some (r, ledger) /\ (ledger = true \/ exists b, r = Ok b).
Proof.
  unfold GetDetailedStatus. cbn [dt_status]. unfold overallStatus, statusComponents. cbn [existsb snd].
  destruct ws; cbn; [|naive_solver]. destruct (GetConnectedNodes nm) as [|x l]; cbn; [naive_solver|].
  destruct balance as [[[b|b] [|]]|]; cbn; naive_solver.
Qed.
End pages.

(** ** Witnesses and concrete runs *)

#[local] Existing Instance canonical_range.

Definition peerAt (id : string) : PeerConnection := mkPeer id ("ws://" +:+ id) "h" 1 "" (Some id) None 0.
Definition threePeers : NodesManager :=
  with_connected (list_to_map ((fun id => (id, peerAt id)) <$> ["a"; "b"; "c"])) (NewNodesManager "me" "h" 1 "ws://me").

Lemma peer_pings_exact_witness :
  let get := fun url : string => Some (len url) in
  pp_Ping <$> GetPeersWithPing (pingEvents get threePeers [2; 0; 1]%nat 1) threePeers = [Some 12; None; Some 12] /\
  length (GetPeersWithPing (pingEvents get threePeers [2; 0; 1]%nat 1) threePeers) = 3%nat.
Proof.
  intros get. destruct (peer_pings_exact get threePeers [2; 0; 1]%nat 1) as (Hl & _).
  - change (length (peers threePeers)) with 3%nat. apply (Permutation_cons_append [0; 1]%nat 2%nat).
  - split; [vm_compute; reflexivity|]. rewrite Hl. vm_compute. reflexivity.
Defined.

Definition legacyNode : Node Z (list BlockCommitPayload) :=
  mkNode (mkWorld (set_chainFile "chain.json" (set_pendingBlock [txB] (set_mempool [txA] NewBlockchain))) 100 None None) [] None.

Definition anyDistributor : Distributor := NewDistributor (fun _ => "").

(** When the commit of the legacy confirmation fails, its transactions do not return to the mempool:
    they are appended to the pending block, behind the block that L1 collected. *)
Example legacy_failure_moves_mempool_to_pending :
  let '(_, n', reply) := ConfirmBlock (demoHandler false) (demoFaults WriteOk) id "POST" "me" 7 anyDistributor legacyNode in
  reply = HttpError 500 "rocks commit failed after confirm" /\ mempool (w_bc (n_world n')) = [] /\ pendingBlock (w_bc (n_world n')) = [txB; txA].
Proof. vm_compute. done. Qed.

(** A transaction admitted while Core applies the batch is put in the block without ever having been
    applied: Core's state advanced by one transaction, the block has two. *)
Example legacy_confirm_takes_unapplied :
  let late := fun bc => set_mempool (mempool bc ++ [txB]) bc in
  let '(_, n', reply) := ConfirmBlock (demoHandler true) (demoFaults WriteOk) late "POST" "me" 7 anyDistributor legacyNode in
  (exists b, reply = HttpOk (b, 2) /\ b_TxHashes b = ["hash-a"; "hash-b"]) /\ w_state (n_world n') = 101.
Proof. vm_compute. split; [eexists; done|done]. Qed.

(** A negative capacity sent to the laboratory switch counts as one. *)
Example load_is_clamped :
  (TestSetLoad "POST" "me" (Some (mkLoadBody "" 5 (-3))) ∅).2 = HttpOk (Some (mkLoadReply "me" 5 1 1000000 0)).
Proof. vm_compute. reflexivity. Qed.
