(* ===== verification/AiProxy.v ===== *)
(** * The proxy of the language model (handlers/ai.go), the key page of calls
    (handlers/handlers_e2ee.go) and the report of rewards (rewards/reporter.go)

    The chat route forwards a request to the configured service for whoever names a wallet
    or carries a token, at most thirty a minute; times are nanoseconds. The service itself is
    an argument. *)

From S2P Require Import Prelude GoStd GoText ExplorerRoutes Messaging.
From Stdlib Require Import Ascii Sorting.Sorted.

#[local] Open Scope Z_scope.

(** ** Who asks *)

Record AiHeaders := mkAiHeaders { ah_wallet : string; ah_authorization : string; ah_accept : string }.

Definition aiAuthHeaders (r : AiHeaders) : string * string :=
  let auth := TrimSpace (ah_authorization r) in
  (TrimSpace (ah_wallet r), if HasPrefix (ToLower auth) "bearer " then TrimSpace (str_drop 7 auth) else "").

(** ** The rate *)

Definition aiMinute : Z := 60000000000.
Definition aiRateLimit : nat := 30.

Notation AiRate := (gmap string (list Z)).

Definition aiKey (wallet token : string) : string := if String.eqb wallet "" then token else wallet.

Definition recent (now : Z) (times : list Z) : list Z := filter (fun t => now - aiMinute < t) times.

Definition aiRateLimitAllow (now : Z) (wallet token : string) (rate : AiRate) : AiRate * bool :=
  let key := aiKey wallet token in
  if String.eqb key "" then (rate, false)
  else
  let kept := recent now (default [] (rate !! key)) in
  if (aiRateLimit <=? length kept)%nat then (<[key := kept]> rate, false)
  else (<[key := kept ++ [now]]> rate, true).

(** ** Configuration *)

Definition aiUpstreamURL (getenv : string -> string) : string :=
  let v := getenv "PLATARIUM_AI_UPSTREAM_URL" in if String.eqb v "" then "https://api.openai.com/v1" else v.

Definition aiUpstreamKey (getenv : string -> string) : string :=
  let a := TrimSpace (getenv "PLATARIUM_AI_UPSTREAM_KEY") in
  if String.eqb a "" then TrimSpace (getenv "OPENAI_API_KEY") else a.

Definition aiDefaultModel (getenv : string -> string) : string :=
  let v := getenv "PLATARIUM_AI_DEFAULT_MODEL" in if String.eqb v "" then "gpt-4o-mini" else v.

Definition aiDailyTokenLimit (getenv : string -> string) : Z :=
  let v := getenv "PLATARIUM_AI_DAILY_TOKEN_LIMIT" in
  if String.eqb v "" then 100000 else let '(n, ok) := ParseInt v in if ok && (0 <? n) then n else 100000.

(** [strings.TrimRight] of slashes. *)
Fixpoint trimRightSlash (s : string) : string :=
  match s with
  | EmptyString => EmptyString
  | String c s' => match trimRightSlash s' with
                   | EmptyString => if Ascii.eqb c "/" then EmptyString else String c EmptyString
                   | t => String c t
                   end
  end.

(** ** Routes *)

Record Upstream := mkUpstream { up_url : string; up_authorization : string; up_accept : string; up_body : string }.

(** [body] is [None] when it could not be read; [built] is whether the address makes a request; [service]
    answers with a status and a text, or not at all. *)
Definition AiChatCompletions (getenv : string -> string) (service : Upstream -> option (Z * string)) (built : string -> bool) (method : string) (r : AiHeaders)
    (now : Z) (body : option string) (rate : AiRate) : AiRate * option Upstream * (Z * string) :=
  if negb (String.eqb method "POST") then (rate, None, (405, "method not allowed"))
  else
  let '(wallet, token) := aiAuthHeaders r in
  if String.eqb wallet "" && String.eqb token "" then (rate, None, (401, "missing auth (Authorization or x-platarium-wallet)"))
  else
  let '(rate, ok) := aiRateLimitAllow now wallet token rate in
  if negb ok then (rate, None, (429, "rate limit exceeded"))
  else
  let url := trimRightSlash (aiUpstreamURL getenv) +:+ "/chat/completions" in
  let key := aiUpstreamKey getenv in
  if String.eqb key "" then (rate, None, (503, "AI upstream not configured (PLATARIUM_AI_UPSTREAM_KEY)"))
  else match body with
  | None => (rate, None, (400, "read body"))
  | Some text =>
      if negb (built url) then (rate, None, (500, "build request"))
      else
      let req := mkUpstream url ("Bearer " +:+ key) (ah_accept r) text in
      (rate, Some req, default (502, "upstream error") (service req))
  end.

Notation AiUsage := (gmap string Z).

Definition aiUsageToday (wallet : string) (usage : AiUsage) : Z := if String.eqb wallet "" then 0 else default 0 (usage !! wallet).

(** Wallet, limit, used, remaining, model. *)
Definition AiQuota (getenv : string -> string) (r : AiHeaders) (usage : AiUsage) : string * Z * Z * Z * string :=
  let '(wallet, _) := aiAuthHeaders r in
  let limit := aiDailyTokenLimit getenv in
  let used := aiUsageToday wallet usage in
  let remaining := i64 (limit - used) in
  (wallet, limit, used, if remaining <? 0 then 0 else remaining, aiDefaultModel getenv).

Definition AiModels (getenv : string -> string) : list string := [aiDefaultModel getenv].

Definition GetE2eePubkey (address : string) (ws : option Server) : httpReply (string * string) :=
  let addr := TrimSpace address in
  if String.eqb addr "" then HttpError 400 "address query parameter is required"
  else match ws with
  | None => HttpError 503 "websocket server unavailable"
  | Some s => let pk := LookupE2eePubKey addr s in
              if String.eqb pk "" then HttpError 404 "public key not found for address" else HttpOk (addr, pk)
  end.

(** The report of rewards: its address and what the answer means. The answer is a status with the
    first 4096 bytes of its body. *)
Definition nodeRewardsURL (apiBase : string) : string := apiBase +:+ "/api/contributors/node-rewards".

Definition rewardAnswer (status : Z) (raw : string) : result unit :=
  if (status <? 200) || (300 <=? status)
  then Err ("node-rewards HTTP " +:+ FormatInt status +:+ ": " +:+ (if 200 <? len raw then str_take 200 raw +:+ "…" else raw))
  else Ok ().

Definition ReportNodeReward (post : string -> result (Z * string)) (apiBase : string) : result unit :=
  if String.eqb apiBase "" then Err "contributors API URL not configured"
  else match post (nodeRewardsURL apiBase) with
  | Err e => Err e
  | Ok (status, body) => rewardAnswer status (str_take 4096 body)
  end.

(** ** What the rate guarantees *)

(** The reference: all granted times are kept, and a call passes while fewer than thirty of
    them lie within the last minute. *)
Definition refAllow (now : Z) (wallet token : string) (granted : AiRate) : AiRate * bool :=
  let key := aiKey wallet token in
  if String.eqb key "" then (granted, false)
  else
  let times := default [] (granted !! key) in
  if (length (recent now times) <? aiRateLimit)%nat then (<[key := times ++ [now]]> granted, true) else (granted, false).

Record AiCall := mkAiCall { ac_now : Z; ac_wallet : string; ac_token : string }.

Fixpoint aiRun {A} (allow : Z -> string -> string -> A -> A * bool) (calls : list AiCall) (a : A) : A * list bool :=
  match calls with
  | [] => (a, [])
  | c :: calls => let '(a, ok) := allow (ac_now c) (ac_wallet c) (ac_token c) a in
                  let '(a, oks) := aiRun allow calls a in (a, ok :: oks)
  end.

Definition inOrder (calls : list AiCall) : Prop := StronglySorted Z.le (ac_now <$> calls).

Lemma recent_recent now now' times : now <= now' -> recent now' (recent now times) = recent now' times.
Proof.
  intros H. unfold recent. induction times as [|t times IH]; [done|]. rewrite !filter_cons.
  destruct (decide (now - aiMinute < t)); [rewrite filter_cons; by rewrite IH|]. rewrite IH. by rewrite decide_False by lia.
Qed.

Lemma recent_app now l l' : recent now (l ++ l') = recent now l ++ recent now l'.
Proof. apply filter_app. Qed.

(** From [now] on, both remember the same recent calls. *)
Definition sameRecent (now : Z) (rate granted : AiRate) : Prop :=
  forall now' key, now <= now' -> recent now' (default [] (rate !! key)) = recent now' (default [] (granted !! key)).

Lemma allow_same now wallet token rate granted :
  sameRecent now rate granted ->
  let '(rate', ok) := aiRateLimitAllow now wallet token rate in
  let '(granted', ok') := refAllow now wallet token granted in
  ok = ok' /\ sameRecent now rate' granted'.
Proof.
  intros H. unfold aiRateLimitAllow, refAllow. destruct (String.eqb _ ""); [done|]. set (key := aiKey wallet token).
  rewrite (H now key) by lia. rewrite Nat.leb_antisym.
  destruct (_ <? _)%nat; cbn [negb]; (split; [done|]); intros now' k Hn.
  - destruct (decide (key = k)) as [<-|Hk]; [|rewrite !lookup_insert_ne by done; by apply H].
    rewrite !lookup_insert_eq. cbn [from_option id]. by rewrite !recent_app, recent_recent.
  - destruct (decide (key = k)) as [<-|Hk]; [|rewrite !lookup_insert_ne by done; by apply H].
    rewrite lookup_insert_eq. cbn [from_option id]. by rewrite recent_recent.
Qed.

Lemma run_same calls : forall now rate granted,
  sameRecent now rate granted -> Forall (fun t => now <= t) (ac_now <$> calls) -> inOrder calls ->
  (aiRun aiRateLimitAllow calls rate).2 = (aiRun refAllow calls granted).2.
Proof.
  induction calls as [|c calls IH]; intros now rate granted H Hf Ho; [done|]. unfold inOrder in Ho. rewrite fmap_cons in Hf, Ho.
  inversion Hf; subst. inversion Ho; subst. assert (Hc : sameRecent (ac_now c) rate granted) by (intros n k Hn; apply H; lia).
  pose proof (allow_same (ac_now c) (ac_wallet c) (ac_token c) rate granted Hc) as Ha. cbn [aiRun].
  destruct (aiRateLimitAllow _ _ _ rate) as [rate' ok], (refAllow _ _ _ granted) as [granted' ok']. destruct Ha as [<- Ha].
  specialize (IH (ac_now c) rate' granted' Ha). destruct (aiRun aiRateLimitAllow calls rate'), (aiRun refAllow calls granted'). cbn in *.
  f_equal. by apply IH.
Qed.

Definition boundedRate (rate : AiRate) : Prop := forall key, (length (default [] (rate !! key)) <= aiRateLimit)%nat.

Lemma allow_bounded now wallet token rate : boundedRate rate -> boundedRate (aiRateLimitAllow now wallet token rate).1.
Proof.
  intros H. unfold aiRateLimitAllow. destruct (String.eqb _ ""); [done|].
  destruct (Nat.leb_spec aiRateLimit (length (recent now (default [] (rate !! aiKey wallet token))))) as [Hl|Hl]; intros key; cbn [fst].
  - destruct (decide (aiKey wallet token = key)) as [<-|Hk]; [|rewrite lookup_insert_ne by done; apply H]. rewrite lookup_insert_eq. cbn.
    etransitivity; [apply length_filter|apply H].
  - destruct (decide (aiKey wallet token = key)) as [<-|Hk]; [|rewrite lookup_insert_ne by done; apply H]. rewrite lookup_insert_eq. cbn.
    rewrite length_app. cbn. lia.
Qed.

(** the rate limit of the model proxy equals its definition. For every sequence of calls whose times do not decrease,
    a call passes exactly when it names a wallet or a token and fewer than thirty calls of the
    same key passed within the last minute; forgetting older times changes no verdict,
    and at most thirty times are remembered for a key. *)
Theorem ai_rate_exact calls :
  inOrder calls ->
  (aiRun aiRateLimitAllow calls ∅).2 = (aiRun refAllow calls ∅).2 /\ boundedRate (aiRun aiRateLimitAllow calls ∅).1.
Proof.
  intros Ho. split.
  - destruct calls as [|c calls]; [done|]. apply (run_same _ (ac_now c)); [done| |done]. unfold inOrder in Ho. rewrite fmap_cons in *.
    inversion Ho; subst. constructor; [lia|done].
  - assert (Hb : boundedRate ∅) by (intros key; rewrite lookup_empty; cbn; lia). clear Ho. revert Hb. generalize (∅ : AiRate).
    induction calls as [|c calls IH]; intros rate Hb; [done|]. cbn [aiRun].
    pose proof (allow_bounded (ac_now c) (ac_wallet c) (ac_token c) rate Hb) as Ha. destruct (aiRateLimitAllow _ _ _ rate) as [rate' ok].
    specialize (IH rate' Ha). by destruct (aiRun aiRateLimitAllow calls rate').
Qed.

Lemma ai_rate_exact_witness :
  let calls := ((fun i => mkAiCall i "w" "") <$> seqZ 0 31) ++ [mkAiCall (aiMinute + 1) "w" ""] in
  (aiRun refAllow calls ∅).2 = replicate 30 true ++ [false; true].
Proof.
  intros calls. destruct (ai_rate_exact calls) as [H _].
  - unfold inOrder. apply Sorted_StronglySorted; [intros x y z; lia|]. vm_compute. repeat constructor; discriminate.
  - rewrite <- H. vm_compute. reflexivity.
Defined.

(** The wallet of the header is taken as it is: a caller that changes it for every request is never limited. *)
Example invented_wallets_unlimited :
  (aiRun aiRateLimitAllow ((fun i => mkAiCall 0 ("w" +:+ FormatInt i) "") <$> seqZ 0 100) ∅).2 = replicate 100 true.
Proof. vm_compute. reflexivity. Qed.

(** No code writes the usage, so that the quota page always shows the whole limit as remaining. *)
Lemma quota_never_used getenv r : 0 <= aiDailyTokenLimit getenv < two63 ->
  AiQuota getenv r ∅ = ((aiAuthHeaders r).1, aiDailyTokenLimit getenv, 0, aiDailyTokenLimit getenv, aiDefaultModel getenv).
Proof.
  intros H. unfold AiQuota. destruct (aiAuthHeaders r) as [wallet token]. cbn [fst].
  assert (aiUsageToday wallet ∅ = 0) as -> by (unfold aiUsageToday; rewrite lookup_empty; by destruct (String.eqb wallet "")).
  rewrite Z.sub_0_r, i64_small by (unfold is_i64; lia). by rewrite (proj2 (Z.ltb_ge _ _)) by lia.
Qed.
