(* ===== verification/EconomyFile.v ===== *)
(** * The file and the configuration of the contact economy (contacteconomy/store.go,
    handlers_contact_economy.go)

    The content of the file is the JSON value it holds; reading it back goes through the readers
    of [json.Unmarshal]. Integers are written as their literals. Texts are valid UTF-8, which
    JSON keeps. *)

From S2P Require Import Prelude GoStd GoJson Sha256 ContactEconomy L1Validate CoreRpc ExplorerRoutes.

#[local] Open Scope Z_scope.

(** ** Configuration *)

Definition envBool (getenv : string -> string) (k : string) (def : bool) : bool :=
  let v := TrimSpace (getenv k) in
  if String.eqb v "" then def else String.eqb v "1" || EqualFold v "true" || EqualFold v "yes".

(** [fmt.Sscanf(v, "%d", &n)] into an unsigned number: the leading digits, no sign. *)
Definition scanUint (s : string) : option Z :=
  match parse_digits (takeDigits (skipBlanks s)).1 with
  | Some n => if n <=? maxUint64 then Some n else None
  | None => None
  end.

Definition envU64 (getenv : string -> string) (k : string) (def : Z) : Z :=
  let v := TrimSpace (getenv k) in if String.eqb v "" then def else default def (scanUint v).

Definition envI64 (getenv : string -> string) (k : string) (def : Z) : Z :=
  let v := TrimSpace (getenv k) in
  if String.eqb v "" then def else match Sscanf [FInt] v with Some [n] => n | _ => def end.

Definition EconomyConfigFromEnv (getenv : string -> string) : Config :=
  mkConfig (envBool getenv "PLATARIUM_CONTACT_ECONOMY" true)
    (envU64 getenv "PLATARIUM_CONTACT_MIN_FEE_UPLP" 10000) (envU64 getenv "PLATARIUM_CONTACT_MAX_FEE_UPLP" 100000000)
    (envU64 getenv "PLATARIUM_CONTACT_DEFAULT_UNKNOWN_UPLP" 1000000) (envU64 getenv "PLATARIUM_CONTACT_DEFAULT_VERIFIED_UPLP" 100000)
    (envI64 getenv "PLATARIUM_CONTACT_TIMEOUT_SECS" (30 * 24 * 3600)) (i64 (envU64 getenv "PLATARIUM_CONTACT_BASE_PENDING" 5))
    (envBool getenv "PLATARIUM_CONTACT_GATE_DMS" true).

(** ** Writing *)

Definition omitEmpty (k s : string) : jobj := if String.eqb s "" then [] else [(k, JString s)].

Definition encodePricing (p : PricingAnnounce) : jval :=
  JObject ([("address", JString (pa_Address p)); ("unknownFeeUplp", JUint (pa_UnknownFee p)); ("verifiedFeeUplp", JUint (pa_VerifiedFee p));
            ("blocked", JBool (pa_Blocked p))] ++ omitEmpty "signature" (pa_Signature p) ++ [("updatedAt", JUint (pa_UpdatedAt p))]).

Definition encodeRequest (r : ContactRequest) : jval :=
  JObject ([("requestId", JString (cr_RequestID r)); ("requestIdHash", JString (cr_RequestIDHash r)); ("sender", JString (cr_Sender r));
            ("receiver", JString (cr_Receiver r)); ("senderPublicKey", JString (cr_SenderPubKey r)); ("receiverPublicKey", JString (cr_ReceiverPubKey r));
            ("encryptedPayload", JString (cr_EncryptedPayload r)); ("timestamp", JUint (cr_Timestamp r)); ("expiresAt", JUint (cr_ExpiresAt r));
            ("lockTxHash", JString (cr_LockTxHash r)); ("amountUplp", JUint (cr_AmountUplp r)); ("status", JString (cr_Status r))] ++
           omitEmpty "settleOutcome" (cr_SettleOutcome r) ++ omitEmpty "settleTxHash" (cr_SettleTxHash r)).

Definition encodePair (p : ProtocolContactPair) : jval :=
  JObject [("a", JString (pc_A p)); ("b", JString (pc_B p)); ("establishedAt", JUint (pc_Established p)); ("requestId", JString (pc_RequestID p))].

Definition encodeReputation (r : Reputation) : jval := JObject [("address", JString (rp_Address r)); ("xp", JUint (rp_XP r))].

(** Maps are written in the order of their keys. *)
Definition encodeMap {A} (enc : A -> jval) (m : gmap string A) : jval :=
  JObject (SliceStable keyLess ((fun kv => (kv.1, enc kv.2)) <$> map_to_list m)).

Definition encodeStore (s : Store) : jval :=
  JObject [("requests", encodeMap encodeRequest (st_Requests s)); ("contacts", encodeMap encodePair (st_Contacts s));
           ("pricing", encodeMap encodePricing (st_Pricing s)); ("xp", encodeMap encodeReputation (st_XP s))].

(** The outcome of the two steps of a write: the temporary file, then the rename. *)
Inductive saveOutcome := SaveOk | TmpFails | RenameFails.

Definition EconomyPersist (o : saveOutcome) (s : Store) (file : option jval) : option jval * result unit :=
  match o with
  | SaveOk => (Some (encodeStore s), Ok ())
  | TmpFails => (file, Err "write")
  | RenameFails => (file, Err "rename")
  end.

(** ** Reading *)

Section reading.
Context {C : GoConv}.

Definition decodePricing (v : jval) : option PricingAnnounce :=
  m ← structFields (Some v); a ← field asString "" m "address"; u ← field asUint64 0 m "unknownFeeUplp"; f ← field asUint64 0 m "verifiedFeeUplp";
  b ← field asBool false m "blocked"; s ← field asString "" m "signature"; t ← field asInt64 0 m "updatedAt"; Some (mkPricing a u f b s t).

Definition decodeRequest (v : jval) : option ContactRequest :=
  m ← structFields (Some v);
  i ← field asString "" m "requestId"; h ← field asString "" m "requestIdHash"; s ← field asString "" m "sender"; r ← field asString "" m "receiver";
  sp ← field asString "" m "senderPublicKey"; rp ← field asString "" m "receiverPublicKey"; e ← field asString "" m "encryptedPayload";
  t ← field asInt64 0 m "timestamp"; x ← field asInt64 0 m "expiresAt"; l ← field asString "" m "lockTxHash"; a ← field asUint64 0 m "amountUplp";
  st ← field asString "" m "status"; so ← field asString "" m "settleOutcome"; sh ← field asString "" m "settleTxHash";
  Some (mkReq i h s r sp rp e t x l a st so sh).

Definition decodePair (v : jval) : option ProtocolContactPair :=
  m ← structFields (Some v); a ← field asString "" m "a"; b ← field asString "" m "b"; t ← field asInt64 0 m "establishedAt";
  r ← field asString "" m "requestId"; Some (mkPair a b t r).

Definition decodeReputation (v : jval) : option Reputation :=
  m ← structFields (Some v); a ← field asString "" m "address"; x ← field asUint64 0 m "xp"; Some (mkRep a x).

(** A map: null empties it, each entry of an object is decoded and assigned. *)
Definition asMapOf {A} (dec : jval -> option A) (old : gmap string A) (v : jval) : option (gmap string A) :=
  match v with
  | JNull => Some ∅
  | JObject m => foldl (fun acc kv => M ← acc; a ← dec kv.2; Some (<[kv.1 := a]> M)) (Some old) m
  | _ => None
  end.

Definition decodeStore (cfg : Config) (v : jval) : option Store :=
  m ← structFields (Some v); r ← field (asMapOf decodeRequest) ∅ m "requests"; c ← field (asMapOf decodePair) ∅ m "contacts";
  p ← field (asMapOf decodePricing) ∅ m "pricing"; x ← field (asMapOf decodeReputation) ∅ m "xp"; Some (mkStore cfg r c p x).

(** [load] into the empty store: [None] for no file, [Err] for one that cannot be read; an inner [None] is
    content that is not JSON. *)
Definition EconomyLoad (cfg : Config) (file : result (option (option jval))) : result Store :=
  match file with
  | Err e => Err ("read contact economy: " +:+ e)
  | Ok None => Ok (NewStore cfg)
  | Ok (Some content) => match content ≫= decodeStore cfg with Some s => Ok s | None => Err "parse contact economy" end
  end.

(** [NewStore]; [mkdir] is whether the directory of the file exists or is created. *)
Definition NewEconomyStore (mkdir : bool) (cfg : Config) (file : result (option (option jval))) : result Store :=
  if negb mkdir then Err "create contact economy dir" else EconomyLoad cfg file.

(** The store of the handler, none when it cannot be opened. *)
Definition economyPath (getenv : string -> string) : string :=
  let p := TrimSpace (getenv "PLATARIUM_CONTACT_ECONOMY_FILE") in if String.eqb p "" then "data/contact-economy.json" else p.

Definition ensureContactEconomy (getenv : string -> string) (mkdir : string -> bool) (file : string -> result (option (option jval))) : option Store :=
  match NewEconomyStore (mkdir (economyPath getenv)) (EconomyConfigFromEnv getenv) (file (economyPath getenv)) with Ok s => Some s | Err _ => None end.
End reading.

(** Pricing, minimal fee, maximal fee, timeout. *)
Definition GetContactPricing (address : string) (economy : option Store) : httpReply (PricingAnnounce * Z * Z * Z) :=
  match economy with
  | None => HttpError 503 "contact economy unavailable"
  | Some s =>
      let addr := TrimSpace address in
      if String.eqb addr "" then HttpError 400 "address required"
      else HttpOk (GetPricing addr s, cf_MinFeeUplp (st_cfg s), cf_MaxFeeUplp (st_cfg s), cf_TimeoutSecs (st_cfg s))
  end.

(** ** The round trip *)

Section roundtrip.
Context {C : GoConv}.

Definition pricing_ok (p : PricingAnnounce) : Prop := is_u64 (pa_UnknownFee p) /\ is_u64 (pa_VerifiedFee p) /\ is_i64 (pa_UpdatedAt p).
Definition request_ok (r : ContactRequest) : Prop := is_i64 (cr_Timestamp r) /\ is_i64 (cr_ExpiresAt r) /\ is_u64 (cr_AmountUplp r).
Definition pair_ok (p : ProtocolContactPair) : Prop := is_i64 (pc_Established p).
Definition reputation_ok (r : Reputation) : Prop := is_u64 (rp_XP r).

(** Every integer fits its field. *)
Definition store_ok (s : Store) : Prop :=
  map_Forall (fun _ => request_ok) (st_Requests s) /\ map_Forall (fun _ => pair_ok) (st_Contacts s) /\
  map_Forall (fun _ => pricing_ok) (st_Pricing s) /\ map_Forall (fun _ => reputation_ok) (st_XP s).

Lemma asUint64_literal old n : is_u64 n -> asUint64 old (JUint n) = Some n.
Proof. intros H. unfold is_u64, two64 in H. unfold asUint64, asUnsigned. cbn. by rewrite (proj2 (Z.leb_le _ _)) by (unfold maxUint64; lia). Qed.

Lemma asInt64_literal old n : is_i64 n -> asInt64 old (JUint n) = Some n.
Proof.
  intros H. unfold is_i64, two63 in H. unfold asInt64. cbn. by rewrite !(proj2 (Z.leb_le _ _)) by (unfold minInt64, maxInt64; lia).
Qed.

(** A field that has one entry. *)
Lemma field_one {A} (assign : A -> jval -> option A) zero m tag v x :
  fieldEntries m tag = [v] -> assign zero v = Some x -> field assign zero m tag = Some x.
Proof. unfold field. intros -> H. done. Qed.

Lemma field_none {A} (assign : A -> jval -> option A) zero m tag : fieldEntries m tag = [] -> field assign zero m tag = Some zero.
Proof. unfold field. by intros ->. Qed.

(** Reads the fields of a written object one after the other. *)
Ltac read_field :=
  match goal with |- context [field ?assign ?zero ?m ?tag] =>
    let e := eval vm_compute in (fieldEntries m tag) in
    let H := fresh in assert (H : fieldEntries m tag = e) by (vm_compute; reflexivity);
    lazymatch e with
    | [?v] => erewrite (field_one assign zero m tag v) by (first [exact H | eassumption | reflexivity | by apply asUint64_literal | by apply asInt64_literal])
    | [] => rewrite (field_none assign zero m tag H)
    end; clear H; cbn [mbind option_bind]
  end.

Lemma pricing_roundtrip p : pricing_ok p -> decodePricing (encodePricing p) = Some p.
Proof.
  intros (H1 & H2 & H3). destruct p as [a u f b s t]. cbn in H1, H2, H3. unfold decodePricing, encodePricing, omitEmpty.
  cbn [pa_Address pa_UnknownFee pa_VerifiedFee pa_Blocked pa_Signature pa_UpdatedAt structFields mbind option_bind].
  destruct (String.eqb_spec s "") as [->|_]; cbn [app]; by repeat read_field.
Qed.

Lemma request_roundtrip r : request_ok r -> decodeRequest (encodeRequest r) = Some r.
Proof.
  intros (H1 & H2 & H3). destruct r as [i h s r sp rp e t x l a st so sh]. cbn in H1, H2, H3. unfold decodeRequest, encodeRequest, omitEmpty.
  cbn [cr_RequestID cr_RequestIDHash cr_Sender cr_Receiver cr_SenderPubKey cr_ReceiverPubKey cr_EncryptedPayload cr_Timestamp cr_ExpiresAt cr_LockTxHash
       cr_AmountUplp cr_Status cr_SettleOutcome cr_SettleTxHash structFields mbind option_bind].
  destruct (String.eqb_spec so "") as [->|_], (String.eqb_spec sh "") as [->|_]; cbn [app]; by repeat read_field.
Qed.

Lemma pair_roundtrip p : pair_ok p -> decodePair (encodePair p) = Some p.
Proof.
  intros H. destruct p as [a b t r]. unfold pair_ok in H. cbn in H. unfold decodePair, encodePair.
  cbn [pc_A pc_B pc_Established pc_RequestID structFields mbind option_bind]. by repeat read_field.
Qed.

Lemma reputation_roundtrip r : reputation_ok r -> decodeReputation (encodeReputation r) = Some r.
Proof.
  intros H. destruct r as [a x]. unfold reputation_ok in H. cbn in H. unfold decodeReputation, encodeReputation.
  cbn [rp_Address rp_XP structFields mbind option_bind]. by repeat read_field.
Qed.

Lemma assign_entries {A} (enc : A -> jval) (dec : jval -> option A) (l : list (string * A)) old :
  Forall (fun kv => dec (enc kv.2) = Some kv.2) l ->
  foldl (fun acc kv => M ← acc; a ← dec kv.2; Some (<[kv.1 := a]> M)) (Some old) ((fun kv => (kv.1, enc kv.2)) <$> l) =
  Some (foldl (fun M kv => <[kv.1 := kv.2]> M) old l : gmap string A).
Proof. intros H. revert old. induction H as [|[k v] l Hv H IH]; intros old; [done|]. rewrite fmap_cons. cbn [foldl fst snd] in *. cbn. rewrite Hv. apply IH. Qed.

Lemma foldl_insert_map {A} (l : list (string * A)) : NoDup l.*1 ->
  forall M : gmap string A, foldl (fun M kv => <[kv.1 := kv.2]> M) M l = list_to_map l ∪ M.
Proof.
  induction l as [|[k v] l IH]; intros Hnd M; [cbn; by rewrite map_empty_union|]. rewrite fmap_cons in Hnd. apply NoDup_cons in Hnd as [Hk Hnd].
  cbn [foldl fst snd list_to_map]. rewrite IH by done. cbn. rewrite <- insert_union_l, <- insert_union_r; [done|]. by apply not_elem_of_list_to_map_1.
Qed.

(** Sorting the entries of a map by key is sorting the map and encoding then. *)
Lemma encoded_entries {A} (enc : A -> jval) (m : gmap string A) :
  exists l, l ≡ₚ map_to_list m /\ SliceStable keyLess ((fun kv => (kv.1, enc kv.2)) <$> map_to_list m) = (fun kv => (kv.1, enc kv.2)) <$> l.
Proof.
  pose proof (SliceStable_perm keyLess ((fun kv => (kv.1, enc kv.2)) <$> map_to_list m)) as Hp.
  apply Permutation_map_inv in Hp as (l & Hl & Hp). exists l. by split.
Qed.

(** A map written and read back. *)
Lemma map_roundtrip {A} (enc : A -> jval) (dec : jval -> option A) (ok : A -> Prop) (m : gmap string A) :
  (forall a, ok a -> dec (enc a) = Some a) -> map_Forall (fun _ => ok) m -> asMapOf dec ∅ (encodeMap enc m) = Some m.
Proof.
  intros Hd Hm. destruct (encoded_entries enc m) as (l & Hl & He). unfold encodeMap, asMapOf. rewrite He, assign_entries.
  - rewrite foldl_insert_map by (rewrite Hl; apply NoDup_fst_map_to_list). rewrite (right_id_L ∅ (∪)). f_equal.
    rewrite (list_to_map_proper l (map_to_list m)); [apply list_to_map_to_list|rewrite Hl; apply NoDup_fst_map_to_list|done].
  - apply Forall_forall. intros [k v] Hin. rewrite Hl in Hin. apply elem_of_map_to_list in Hin. by apply Hd, (Hm k).
Qed.

(** C28: the contact economy survives a restart. Whatever the store holds, as long as its integers fit their
    fields, a successful write followed by the load of a new gateway with the same configuration
    yields the same requests, contacts, fee schedules and XP; and a write that fails, at the temporary file or
    at the rename, leaves the previous content, from which the previous store is loaded. *)
Theorem economy_file_roundtrip s s0 o :
  store_ok s -> store_ok s0 ->
  let '(file, r) := EconomyPersist o s (Some (encodeStore s0)) in
  EconomyLoad (st_cfg s) (Ok (Some file)) = Ok (match r with Ok _ => s | Err _ => mkStore (st_cfg s) (st_Requests s0) (st_Contacts s0) (st_Pricing s0) (st_XP s0) end).
Proof.
  assert (H : forall cfg s, store_ok s ->
    decodeStore cfg (encodeStore s) = Some (mkStore cfg (st_Requests s) (st_Contacts s) (st_Pricing s) (st_XP s))).
  { clear. intros cfg s (H1 & H2 & H3 & H4). unfold decodeStore, encodeStore. cbn [structFields mbind option_bind].
    set (r := encodeMap encodeRequest (st_Requests s)). set (c := encodeMap encodePair (st_Contacts s)).
    set (p := encodeMap encodePricing (st_Pricing s)). set (x := encodeMap encodeReputation (st_XP s)).
    assert (Hr : asMapOf decodeRequest ∅ r = Some (st_Requests s)) by (by apply (map_roundtrip _ _ request_ok); [apply request_roundtrip|]).
    assert (Hc : asMapOf decodePair ∅ c = Some (st_Contacts s)) by (by apply (map_roundtrip _ _ pair_ok); [apply pair_roundtrip|]).
    assert (Hp : asMapOf decodePricing ∅ p = Some (st_Pricing s)) by (by apply (map_roundtrip _ _ pricing_ok); [apply pricing_roundtrip|]).
    assert (Hx : asMapOf decodeReputation ∅ x = Some (st_XP s)) by (by apply (map_roundtrip _ _ reputation_ok); [apply reputation_roundtrip|]).
    clearbody r c p x.
    by repeat read_field. }
  intros Hs Hs0. destruct o; unfold EconomyPersist, EconomyLoad; cbn [mbind option_bind]; rewrite H by done; [by destruct s|done|done].
Qed.
End roundtrip.

#[local] Existing Instance zero_conv.

Definition someStore : Store :=
  mkStore (EconomyConfigFromEnv (fun _ => "")) {["r1" := mkReq "r1" "h" "PxA" "PxB" "k1" "k2" "cipher" 5 (-1) "lock" (2 ^ 63) "pending" "" ""]}
    {["pxa|pxb" := mkPair "PxA" "PxB" 7 "r1"]} {["pxb" := mkPricing "PxB" 1000000 100000 false "sig" 7]} {["pxa" := mkRep "PxA" 5]}.

Lemma economy_file_roundtrip_witness :
  let '(file, r) := EconomyPersist RenameFails (NewStore (st_cfg someStore)) (Some (encodeStore someStore)) in
  r = Err "rename" /\ EconomyLoad (st_cfg someStore) (Ok (Some file)) = Ok someStore.
Proof.
  pose proof (economy_file_roundtrip (NewStore (st_cfg someStore)) someStore RenameFails) as H. cbn [EconomyPersist] in *. split; [reflexivity|].
  apply H; unfold store_ok; split_and!; cbn; try apply map_Forall_empty; apply map_Forall_singleton;
    unfold request_ok, pair_ok, pricing_ok, reputation_ok, is_u64, is_i64, two63, two64; cbn; lia.
Defined.

(** The configuration reads the leading digits of a value: a unit behind a number is ignored, and a decimal point
    cuts the number. *)
Example config_reads_prefix :
  let getenv := fun k => if String.eqb k "PLATARIUM_CONTACT_MIN_FEE_UPLP" then "0.5 PLP" else if String.eqb k "PLATARIUM_CONTACT_TIMEOUT_SECS" then "-30d" else "" in
  cf_MinFeeUplp (EconomyConfigFromEnv getenv) = 0 /\ cf_TimeoutSecs (EconomyConfigFromEnv getenv) = -30.
Proof. vm_compute. done. Qed.

(** A file whose content is null is an empty store; a number of the wrong kind is refused. *)
Example odd_files :
  EconomyLoad (st_cfg someStore) (Ok (Some (Some JNull))) = Ok (NewStore (st_cfg someStore)) /\
  EconomyLoad (st_cfg someStore) (Ok (Some (Some (JObject [("xp", JObject [("pxa", JObject [("xp", JString "5")])])])))) = Err "parse contact economy".
Proof. vm_compute. done. Qed.
