(* ===== verification/GatewayInit.v ===== *)
(** * Opening a gateway (handlers.go NewHandler, core/ledger.go, core/rocks_store.go,
    chain_store.go, nodes/identity.go, handlers_sync.go, handlers_deals.go)

    Where the files of a node lie, and what a handler has attached once it is created. Core, the
    file system and the faucet file are arguments; the body of [initChainPersistence] is in
    Startup.

    The files of a node do not collide, and a handler has exactly what its services allow. *)

From S2P Require Import Prelude GoStd GoText GoPath TxPool HttpGates CoreRpc CoreCalls Rewards Faucet Deals AiProxy ExplorerRoutes GoJson RateLimit Rating ContactEconomy EconomyFile ChannelIdentity Nodes.
From Stdlib Require Import Ascii.

#[local] Open Scope Z_scope.

(** ** Paths *)

(** [filepath.Base]: the last non-empty part. *)
Definition PathBase (path : string) : string :=
  match last (filter (fun p => p <> "") (splitSlash path)) with
  | Some p => p
  | None => if String.eqb path "" then "." else "/"
  end.

(** [filepath.Ext] of a base name: from the last dot on. *)
Definition Ext (base : string) : string := let i := LastIndex base "." in if i <? 0 then "" else str_drop (Z.to_nat i) base.

(** [strings.Replace] with a count of one, where the pattern occurs. *)
Definition replaceFirst (s old new : string) : string :=
  let i := Z.to_nat (Index s old) in str_take i s +:+ new +:+ str_drop (i + String.length old) s.

Definition chainBase (base : string) : string :=
  if Contains base "state" then replaceFirst base "state" "chain"
  else let ext := Ext base in str_take (String.length base - String.length ext) base +:+ "-chain" +:+ ext.

Definition ChainFileFromStateFile (statePath : string) : string := PathJoin [PathDir statePath; chainBase (PathBase statePath)].

Definition identityDataDir (getenv : string -> string) : string :=
  let dataDir := TrimSpace (getenv "PLATARIUM_DATA_DIR") in
  if negb (String.eqb dataDir "") then dataDir
  else let sf := TrimSpace (getenv "PLATARIUM_STATE_FILE") in if String.eqb sf "" then "data" else PathDir sf.

Definition IdentityPathForPort (getenv : string -> string) (port : Z) : string :=
  let p := TrimSpace (getenv "PLATARIUM_NODE_IDENTITY_FILE") in
  if negb (String.eqb p "") then p
  else if 0 <? port then PathJoin [identityDataDir getenv; "node_identity_" +:+ FormatInt port +:+ ".json"]
  else PathJoin [identityDataDir getenv; "node_identity.json"].

(** The directory of the durable pool. *)
Definition txPoolDir (getenv : string -> string) (stateFile : string) : string :=
  let dir := getenv "PLATARIUM_TXPOOL_DIR" in
  if negb (String.eqb dir "") then dir else PathJoin [PathDir (ResolveRocksDBPath getenv stateFile); "txpool"].

(** [txpool.Open]; [mkdir] is whether the directory can be created. *)
Definition OpenTxPool (dir : string) (mkdir : bool) : result string :=
  if String.eqb (TrimSpace dir) "" then Err "tx pool directory required" else if mkdir then Ok dir else Err "create tx pool dir".

(** ** Services *)

(** The disk as the constructors meet it. *)
Record Disk := mkDisk { dk_mkdir : string -> bool; dk_missing : string -> bool; dk_stateInit : string -> result unit }.

Definition NewLedgerService (hasCore : bool) (dk : Disk) (stateFile : string) : result string :=
  if negb hasCore then Err "rust core required for ledger service"
  else
  let stateFile := if String.eqb stateFile "" then "data/core-state.json" else stateFile in
  let dir := PathDir stateFile in
  if negb (String.eqb dir ".") && negb (String.eqb dir "") && negb (dk_mkdir dk dir) then Err "create state dir"
  else if dk_missing dk stateFile then match dk_stateInit dk stateFile with Err e => Err e | Ok _ => Ok stateFile end
  else Ok stateFile.

Definition NewRocksStoreClient (hasCore : bool) (dbPath : string) : result string :=
  if negb hasCore then Err "rust core required for rocks store"
  else if String.eqb dbPath "" then Err "rocksdb path required" else Ok dbPath.

Definition faucetNetworkID (getenv : string -> string) : string :=
  let id := TrimSpace (getenv "PLATARIUM_NETWORK_ID") in if String.eqb id "" then "melancholy-testnet" else id.

Definition faucetPath (getenv : string -> string) : string :=
  let p := getenv "PLATARIUM_FAUCET_COOLDOWN_FILE" in if String.eqb p "" then "data/faucet-cooldown.json" else p.

(** [initFaucetCooldownStore]; [file] is the content of a path. *)
Definition initFaucetCooldownStore (getenv : string -> string) (file : string -> result (option (gmap string Z))) : result CooldownStore :=
  NewCooldownStore (faucetCooldownFromEnv getenv) (file (faucetPath getenv)).

Definition OperatorWalletFromEnv (getenv : string -> string) : string := normalizeOperatorWallet (getenv "PLATARIUM_OPERATOR_WALLET").
Definition ContributorsAPIURLFromEnv (getenv : string -> string) : string := trimRightSlash (TrimSpace (getenv "PLATARIUM_CONTRIBUTORS_API_URL")).

(** ** The handler *)

Record Attached := mkAttached {
  at_core : bool;
  at_stateFile : string;                 (* of the environment, else the default *)
  at_ledger : option string;             (* its state file *)
  at_rocks : option string;              (* its path *)
  at_persistent : bool;                  (* whether initChainPersistence ran *)
  at_faucet : option CooldownStore;
  at_faucetAmount : Z;
  at_wallet : string; at_contributors : string; at_networkID : string;
  at_distributor : Distributor; at_registry : Registry;
  at_economy : option ContactEconomy.Store; at_channels : option ChannelStore; at_contactRate : Limiter;
  at_dealStateFile : string
}.

(** The files that stores are read from: whether a directory can be made, and the content of a path. *)
Record StoreFiles := mkFiles {
  sf_faucet : string -> result (option (gmap string Z)); sf_economyDir : string -> bool; sf_economy : string -> result (option (option jval));
  sf_channels : string -> result (option (list ChannelRecord))
}.

Definition ensureChannelIdentity (getenv : string -> string) (file : string -> result (option (list ChannelRecord))) : option ChannelStore :=
  let p := TrimSpace (getenv "PLATARIUM_CHANNEL_IDENTITY_FILE") in
  match NewChannelStore (file (if String.eqb p "" then "data/channel-identity.json" else p)) with Ok s => Some s | Err _ => None end.

(** The callbacks that [RegisterVoteCallbacks] and [RegisterSyncCallbacks] set. *)
Definition RegisterVoteCallbacks : list string :=
  ["l1ProposalCB"; "l1VoteCB"; "l2ProposalCB"; "l2VoteCB"; "l1BlockCollectedCB"; "pendingBlockSyncCB"; "mempoolAddCB"; "dagVertexCB"; "dagCommitCB";
   "l1VoteResultCB"; "l2VoteResultCB"; "feeDistributionCB"; "blockConfirmedCB"; "nodeLoadCB"].

Definition RegisterSyncCallbacks : list string := ["chainHeadCB"; "syncRespondCB"; "syncApplyCB"].

Definition callbackSet (name : string) : bool := bool_decide (name ∈ RegisterVoteCallbacks ++ RegisterSyncCallbacks).

Definition handlerStateFile (getenv : string -> string) : string :=
  let p := getenv "PLATARIUM_STATE_FILE" in if String.eqb p "" then "data/core-state.json" else p.

(** [core] is the outcome of [NewRustCore]. *)
Definition NewHandler {C : GoConv} (getenv : string -> string) (testnet : bool) (core : result unit) (dk : Disk) (files : StoreFiles)
  : result Attached :=
  let stateFile := handlerStateFile getenv in
  match core, testnet with
  | Err e, true => Err e
  | _, _ =>
      let hasCore := match core with Ok _ => true | Err _ => false end in
      let ledger := if hasCore then NewLedgerService hasCore dk stateFile else Err "" in
      match hasCore, ledger, testnet with
      | true, Err e, true => Err e
      | _, _, _ =>
          let ledger := match ledger with Ok p => Some p | Err _ => None end in
          let rocks := if hasCore then match NewRocksStoreClient hasCore (ResolveRocksDBPath getenv stateFile) with Ok p => Some p | Err _ => None end
                       else None in
          Ok (mkAttached hasCore stateFile ledger rocks (bool_decide (is_Some ledger) || bool_decide (is_Some rocks))
                (match initFaucetCooldownStore getenv (sf_faucet files) with Ok s => Some s | Err _ => None end) (faucetAmountFromEnv getenv)
                (OperatorWalletFromEnv getenv) (ContributorsAPIURLFromEnv getenv)
                (let id := getenv "PLATARIUM_NETWORK_ID" in if String.eqb id "" then "melancholy-testnet" else id)
                (NewDistributor getenv) NewRegistry (ensureContactEconomy getenv (sf_economyDir files) (sf_economy files))
                (ensureChannelIdentity getenv (sf_channels files)) (New 40 minute) "")
      end
  end.

(** ** Deals *)

(** The file of the volunteer book, none when it is empty; it is opened at the first use. *)
Definition volunteerFile (a : Attached) : string :=
  if String.eqb (at_dealStateFile a) "" then "" else at_dealStateFile a +:+ ".volunteers.json".

Definition openDeals {R : GoRange} (a : Attached) (file : string -> option persistSnap) : Book :=
  if String.eqb (volunteerFile a) "" then OpenBook None else OpenBook (file (volunteerFile a)).

Definition coreStatePath (a : Attached) : string :=
  if negb (String.eqb (at_dealStateFile a) "") then at_dealStateFile a else default "" (at_ledger a).

(** [escrows] is the content of the state file. *)
(** [LoadCoreEscrows]: [read] is the array escrows_json of the file, [Ok None] when the
    text is no such object; [decode] reads one record. *)
Definition LoadCoreEscrows (read : result (option (list string))) (decode : string -> option CoreEscrow) : result (list CoreEscrow) :=
  match read with
  | Err e => Err e
  | Ok None => Err "json"
  | Ok (Some texts) => foldl (fun acc js => match acc, decode js with Ok out, Some row => Ok (out ++ [row]) | Ok _, None => Err "json" | Err e, _ => Err e end) (Ok []) texts
  end.

Definition ListDeals (a : Attached) (escrows : string -> result (list CoreEscrow)) (address : string) : httpReply (list CoreEscrow) :=
  if String.eqb (coreStatePath a) "" then HttpError 503 "core state unavailable"
  else match escrows (coreStatePath a) with Err e => HttpError 400 e | Ok rows => HttpOk (DealsForAddress rows address) end.

Definition GetDeal (a : Attached) (escrows : string -> result (list CoreEscrow)) (id : string) : httpReply CoreEscrow :=
  if String.eqb (coreStatePath a) "" then HttpError 503 "core state unavailable"
  else match escrows (coreStatePath a) with
  | Err e => HttpError 400 e
  | Ok rows => match DealByID rows id with Some row => HttpOk row | None => HttpError 404 "deal not found" end
  end.

Definition ListVolunteerBriefs {R : GoRange} (address : string) (b : Book) : httpReply (list Brief) :=
  if String.eqb address "" then HttpError 400 "address required" else HttpOk (BriefsFor address b).

Definition GetVolunteerBrief (caseID : string) (b : Book) : httpReply Brief :=
  match BriefOf caseID b with Some br => HttpOk br | None => HttpError 404 "case not found" end.

(** * What opening a gateway guarantees *)

(** ** Parts of paths *)

Lemma noSlash_byte s : noSlash s <-> has_byte slash s = false.
Proof.
  unfold noSlash. induction s as [|c s IH]; [done|]. cbn [splitSlash has_byte]. pose proof (split_nonempty s) as Hn.
  destruct (splitSlash s) as [|p ps] eqn:E; [done|]. rewrite Ascii.eqb_sym. destruct (Ascii.eqb slash c) eqn:Ec; cbn [orb].
  - split; [done|done].
  - rewrite <- IH. split; intros H; [by injection H as -> ->|by injection H as -> ->].
Qed.

Lemma noSlash_app a b : noSlash (a +:+ b) <-> noSlash a /\ noSlash b.
Proof. rewrite !noSlash_byte, has_byte_app. apply orb_false_iff. Qed.

Lemma split_last a b : noSlash b -> splitSlash (a +:+ String slash b) = splitSlash a ++ [b].
Proof.
  intros Hb. induction a as [|c a IH].
  - rewrite (split_append "" b) by done. by rewrite Hb.
  - rewrite str_app_cons. cbn [splitSlash]. rewrite IH. pose proof (split_nonempty a). destruct (splitSlash a) as [|p ps]; [done|]. cbn [app].
    by destruct (Ascii.eqb c slash).
Qed.

Lemma cleanStep_noSlash rooted parts : forall out, Forall noSlash out -> Forall noSlash parts -> Forall noSlash (foldl (cleanStep rooted) out parts).
Proof.
  induction parts as [|p parts IH]; intros out Ho Hp; [done|]. apply Forall_cons in Hp as [Hp Hps]. simpl. apply IH; [|done].
  unfold cleanStep. destruct (_ || _); [done|]. destruct (String.eqb p ".."); [|by constructor].
  destruct Ho as [|last rest Hl Hr]; [destruct rooted; by repeat constructor|]. destruct (String.eqb last ".."); [|done]. by repeat constructor.
Qed.

Lemma PathBase_parts path l base : splitSlash path = l ++ [base] -> base <> "" -> PathBase path = base.
Proof. intros E Hb. unfold PathBase. rewrite E, filter_app, filter_cons_True by done. by rewrite filter_nil, last_snoc. Qed.

Lemma PathBase_Clean path l base : splitSlash path = l ++ [base] -> noSlash base -> plain base -> PathBase (Clean path) = base.
Proof.
  intros E Hs (H1 & H2 & H3). unfold Clean, cleanParts. set (rooted := IsAbs path). rewrite E, foldl_app. cbn [foldl].
  set (acc := foldl (cleanStep rooted) [] l).
  assert (Hacc : Forall noSlash acc).
  { apply cleanStep_noSlash; [done|]. pose proof (split_noSlash path) as H. rewrite E in H. by apply Forall_app in H as [H _]. }
  assert (Hstep : cleanStep rooted acc base = base :: acc).
  { unfold cleanStep. by rewrite (proj2 (String.eqb_neq _ _) H1), (proj2 (String.eqb_neq _ _) H2), (proj2 (String.eqb_neq _ _) H3). }
  rewrite Hstep, reverse_cons. set (parts := reverse acc ++ [base]).
  assert (Hj : splitSlash (joinSlash parts) = parts).
  { apply split_join; [by destruct (reverse acc)|]. apply Forall_app. split; [by apply Forall_reverse|by constructor]. }
  destruct rooted.
  - apply (PathBase_parts _ ("" :: reverse acc)); [|done]. change (String slash (joinSlash parts)) with ("" +:+ String slash (joinSlash parts)).
    by rewrite split_append, Hj.
  - destruct parts as [|x xs] eqn:Ep; [by destruct (reverse acc)|]. rewrite <- Ep in *. by apply (PathBase_parts _ (reverse acc)).
Qed.

Lemma PathBase_join dir base : noSlash base -> plain base -> PathBase (PathJoin [dir; base]) = base.
Proof.
  intros Hs Hp. destruct Hp as (H1 & H2 & H3). unfold PathJoin. destruct (decide (dir = "")) as [->|Hd].
  - rewrite filter_cons_False, filter_cons_True, filter_nil by naive_solver. cbn [joinSlash]. by apply (PathBase_Clean _ []).
  - rewrite !filter_cons_True, filter_nil by done. cbn [joinSlash]. apply (PathBase_Clean _ (splitSlash dir)); [|done|done]. by apply split_last.
Qed.

(** ** The chain file *)

Lemma str_app_inv (a b c : string) : a +:+ b = a +:+ c -> b = c.
Proof. induction a as [|x a IH]; [done|]. rewrite !str_app_cons. intros [= H]. by apply IH. Qed.

Lemma Index_split s p i : index_from i s p <> -1 -> 0 <= i ->
  i <= index_from i s p /\ s = str_take (Z.to_nat (index_from i s p - i)) s +:+ p +:+ str_drop (Z.to_nat (index_from i s p - i) + String.length p) s.
Proof.
  revert i. induction s as [|c s IH]; intros i H Hi; cbn [index_from] in *.
  - destruct (HasPrefix "" p) eqn:E; [|done]. apply prefix_split in E. rewrite Z.sub_diag. cbn. split; [lia|].
    destruct p; [done|]. by destruct (String.length p).
  - destruct (HasPrefix (String c s) p) eqn:E.
    + rewrite Z.sub_diag. split; [lia|]. cbn [Z.to_nat str_take]. apply prefix_split in E. exact E.
    + destruct (IH (i + 1) H ltac:(lia)) as [Hle Hs]. split; [lia|].
      replace (Z.to_nat (index_from (i + 1) s p - i)) with (S (Z.to_nat (index_from (i + 1) s p - (i + 1)))) by lia.
      cbn [str_take str_drop Nat.add]. rewrite str_app_cons. f_equal. exact Hs.
Qed.

Lemma noSlash_parts s n : noSlash s -> noSlash (str_take n s) /\ noSlash (str_drop n s).
Proof. intros H. apply noSlash_app. by rewrite str_take_drop. Qed.

Lemma str_take_length n s : (n <= String.length s)%nat -> String.length (str_take n s) = n.
Proof. revert s. induction n as [|n IH]; intros [|c s] H; cbn in *; [done..|lia|]. f_equal. apply IH. lia. Qed.

Lemma long_plain s : (3 <= String.length s)%nat -> plain s.
Proof. intros H. split_and!; intros ->; cbn in H; lia. Qed.

(** The derived name is another one, and a plain one. *)
Lemma chainBase_other base : noSlash base -> chainBase base <> base /\ noSlash (chainBase base) /\ plain (chainBase base).
Proof.
  intros Hb. unfold chainBase. destruct (Contains base "state") eqn:Ec.
  - unfold Contains in Ec. apply Z.leb_le in Ec. unfold replaceFirst. destruct (Index_split base "state" 0) as [_ Hs]; [unfold Index in Ec; lia|lia|].
    fold (Index base "state") in Hs. rewrite Z.sub_0_r in Hs. set (i := Z.to_nat (Index base "state")) in *. split_and!.
    + intros E. pose proof (eq_trans E Hs) as E2. by apply str_app_inv in E2.
    + rewrite !noSlash_app. split_and!; [by apply noSlash_parts|done|by apply noSlash_parts].
    + apply long_plain. rewrite !str_length_app. cbn. lia.
  - set (ext := Ext base). assert (He : noSlash ext) by (unfold ext, Ext; destruct (_ <? _); [done|by apply noSlash_parts]).
    assert (Hl : (String.length ext <= String.length base)%nat).
    { unfold ext, Ext. destruct (_ <? _); [cbn; lia|]. destruct (str_drop_suffix (Z.to_nat (LastIndex base ".")) base) as [a Ha].
      apply (f_equal String.length) in Ha. rewrite str_length_app in Ha. lia. }
    split_and!.
    + intros E. apply (f_equal String.length) in E. rewrite !str_length_app, str_take_length in E by lia. cbn in E. lia.
    + rewrite !noSlash_app. split_and!; [by apply noSlash_parts|done|done].
    + apply long_plain. rewrite !str_length_app. cbn. lia.
Qed.

Lemma PathBase_noSlash path : PathBase path <> "/" -> noSlash (PathBase path).
Proof.
  unfold PathBase. destruct (last _) as [p|] eqn:E.
  - intros _. apply last_Some in E as [l E]. assert (Hin : p ∈ filter (fun p => p <> "") (splitSlash path)) by (rewrite E; set_solver).
    apply list_elem_of_filter in Hin as [_ Hin]. pose proof (split_noSlash path) as H. rewrite Forall_forall in H. by apply H.
  - destruct (String.eqb path ""); done.
Qed.

(** ** Identity files *)

Lemma identity_name_inj p q :
  0 < p <= maxInt64 -> 0 < q <= maxInt64 ->
  "node_identity_" +:+ FormatInt p +:+ ".json" = "node_identity_" +:+ FormatInt q +:+ ".json" -> p = q.
Proof.
  intros Hp Hq E. apply str_app_inv in E. unfold FormatInt in E. rewrite !(proj2 (Z.ltb_ge _ _)) in E by lia.
  assert (E' : FormatUint p = FormatUint q).
  { pose proof (f_equal String.length E) as Hl. rewrite !str_length_app in Hl.
    pose proof (str_take_app (FormatUint p) ".json") as Hp'. pose proof (str_take_app (FormatUint q) ".json") as Hq'.
    rewrite E in Hp'. replace (String.length (FormatUint p)) with (String.length (FormatUint q)) in Hp' by lia. congruence. }
  pose proof (FormatUint_parse p ltac:(lia)) as H1. rewrite E', FormatUint_parse in H1 by lia. by injection H1.
Qed.

Lemma digits_noSlash s acc n : digits_value acc s = Some n -> has_byte slash s = false.
Proof.
  revert acc. induction s as [|c s IH]; intros acc; [done|]. cbn [digits_value has_byte]. destruct (digit c) eqn:E; [|done].
  intros H. rewrite (IH _ H), orb_false_r. apply Ascii.eqb_neq. intros <-. vm_compute in E. done.
Qed.

Lemma identity_name_plain p : 0 < p -> let name := "node_identity_" +:+ FormatInt p +:+ ".json" in noSlash name /\ plain name.
Proof.
  intros Hp. cbv zeta. split.
  - rewrite !noSlash_app. split_and!; [done| |done]. apply noSlash_byte. unfold FormatInt. rewrite (proj2 (Z.ltb_ge _ _)) by lia.
    destruct (FormatUint_value p ltac:(lia)) as [H _]. exact (digits_noSlash _ _ _ H).
  - apply long_plain. rewrite !str_length_app. cbn. lia.
Qed.

(** the files of a node do not collide. For every state file with a name, the chain file derived from it has another name, so that writing
    the chain never replaces the state of Core; nodes on different ports that share a data directory
    have different identity files, unless one file is named for all; and the directory of the durable
    pool is another one than that of RocksDB, unless RocksDB is itself kept in a directory called txpool. *)
Theorem node_files_apart getenv stateFile :
  PathBase stateFile <> "/" ->
  PathBase (ChainFileFromStateFile stateFile) <> PathBase stateFile /\ ChainFileFromStateFile stateFile <> stateFile /\
  (forall p q, 0 < p <= maxInt64 -> 0 < q <= maxInt64 -> TrimSpace (getenv "PLATARIUM_NODE_IDENTITY_FILE") = "" ->
     IdentityPathForPort getenv p = IdentityPathForPort getenv q -> p = q) /\
  (getenv "PLATARIUM_TXPOOL_DIR" = "" -> PathBase (ResolveRocksDBPath getenv stateFile) <> "txpool" ->
     txPoolDir getenv stateFile <> ResolveRocksDBPath getenv stateFile).
Proof.
  intros Hb. destruct (chainBase_other (PathBase stateFile) (PathBase_noSlash _ Hb)) as (Hne & Hns & Hpl).
  assert (Hc : PathBase (ChainFileFromStateFile stateFile) <> PathBase stateFile) by (unfold ChainFileFromStateFile; by rewrite PathBase_join).
  split_and!; [done|congruence| |].
  - intros p q Hp Hq Hu. unfold IdentityPathForPort. rewrite Hu. cbn [negb String.eqb]. rewrite !(proj2 (Z.ltb_lt _ _)) by lia. intros E.
    apply identity_name_inj; [done|done|]. apply (f_equal PathBase) in E.
    destruct (identity_name_plain p ltac:(lia)), (identity_name_plain q ltac:(lia)). by rewrite !PathBase_join in E.
  - intros Hu Hr E. apply Hr. rewrite <- E. unfold txPoolDir. rewrite Hu. cbn [negb String.eqb]. apply PathBase_join; [done|]. by apply long_plain; cbn; lia.
Qed.

(** ** The handler *)

Lemma rocks_path_nonempty getenv stateFile : ResolveRocksDBPath getenv stateFile <> "".
Proof.
  unfold ResolveRocksDBPath. destruct (String.eqb_spec (getenv "PLATARIUM_ROCKSDB_PATH") "") as [_|Hn]; cbn [negb]; [|done].
  assert (H : forall d, PathJoin [d; "rocksdb"] <> "").
  { intros d E. pose proof (PathBase_join d "rocksdb" eq_refl ltac:(apply long_plain; cbn; lia)) as Hb. rewrite E in Hb. vm_compute in Hb. done. }
  destruct (negb _); apply H.
Qed.

(** what a handler starts with. In test mode it starts exactly when Core is reached and the ledger opens, and otherwise
    always. When it starts it has RocksDB exactly when it has Core, a ledger exactly when Core
    is reached and the state file is there or is initialised, and it restores the chain whenever it has Core; without Core it
    has neither ledger nor RocksDB and keeps nothing. *)
Theorem handler_start_exact {C : GoConv} getenv testnet core dk files :
  let opens := exists p, NewLedgerService true dk (handlerStateFile getenv) = Ok p in
  match NewHandler getenv testnet core dk files with
  | Err _ => testnet = true /\ (core <> Ok () \/ ~ opens)
  | Ok a => (testnet = true -> core = Ok () /\ opens) /\ (at_core a = true <-> core = Ok ()) /\
      (is_Some (at_rocks a) <-> core = Ok ()) /\ (is_Some (at_ledger a) <-> core = Ok () /\ opens) /\
      (at_persistent a = true <-> core = Ok ())
  end.
Proof.
  cbv zeta. unfold NewHandler. destruct core as [[]|e].
  - cbn [NewRocksStoreClient negb]. unfold NewRocksStoreClient. cbn [negb]. rewrite (proj2 (String.eqb_neq _ _) (rocks_path_nonempty getenv _)).
    destruct (NewLedgerService true dk (handlerStateFile getenv)) as [p|e] eqn:El.
    + destruct testnet; cbn; split_and!; naive_solver.
    + destruct testnet; cbn; [split; [done|right; naive_solver]|]. split_and!; try naive_solver; (split; [intros [? ?]; done|intros (? & ? & ?); done]).
  - destruct testnet; cbn; [split; [done|left; done]|]. split_and!; try naive_solver; (split; [intros [? ?]; done|naive_solver]).
Qed.

(** No constructor sets the state file of the deals: the book of volunteers of a started gateway has no file, so that
    it is empty after every start, whatever was on disk. *)
Theorem volunteer_book_forgotten {R : GoRange} {C : GoConv} getenv testnet core dk files a file :
  NewHandler getenv testnet core dk files = Ok a -> volunteerFile a = "" /\ openDeals a file = NewBook.
Proof.
  unfold NewHandler. intros H. assert (Hd : at_dealStateFile a = "") by (repeat case_match; simplify_eq; done).
  assert (Hv : volunteerFile a = "") by (unfold volunteerFile; by rewrite Hd). split; [done|]. unfold openDeals. by rewrite Hv.
Qed.

Lemma node_files_apart_witness :
  ChainFileFromStateFile "data/core-state.json" = "data/core-chain.json" /\
  IdentityPathForPort (fun _ => "") 1813 <> IdentityPathForPort (fun _ => "") 1814 /\ ChainFileFromStateFile "data/ledger.db" <> "data/ledger.db".
Proof.
  destruct (node_files_apart (fun _ => "") "data/ledger.db") as (_ & Hc & Hi & _).
  - vm_compute. discriminate.
  - split; [vm_compute; reflexivity|]. split; [|exact Hc]. intros E. assert (1813 = 1814) as H; [|discriminate H].
    apply Hi; [split; [lia|vm_compute; discriminate]|split; [lia|vm_compute; discriminate]|vm_compute; reflexivity|exact E].
Defined.

(** Every event of a peer that the dispatcher knows finds its callback set. *)
Theorem all_callbacks_set : dispatchEvent callbackSet = dispatchEvent (fun _ => true).
Proof.
  unfold dispatchEvent, callIf.
  repeat match goal with |- context [callbackSet ?n] => change (callbackSet n) with true end. reflexivity.
Qed.

(** The escrows are read all or none: one record that cannot be decoded hides every deal. *)
Lemma load_escrows_all decode texts :
  LoadCoreEscrows (Ok (Some texts)) decode = match mapM decode texts with Some rows => Ok rows | None => Err "json" end.
Proof.
  cbn [LoadCoreEscrows].
  assert (H : forall acc, foldl (fun acc js => match acc, decode js with Ok out, Some row => Ok (out ++ [row]) | Ok _, None => Err "json" | Err e, _ => Err e end) (Ok acc) texts =
            match mapM decode texts with Some rows => Ok (acc ++ rows) | None => Err "json" end).
  { induction texts as [|js texts IH]; intros acc; cbn; [by rewrite app_nil_r|]. destruct (decode js) as [row|].
    - rewrite IH. cbn. destruct (mapM decode texts); cbn; [by rewrite <- app_assoc|done].
    - cbn. clear IH. by induction texts. }
  apply (H []).
Qed.

#[local] Existing Instance zero_conv.

Definition demoDisk (stateInit : result unit) : Disk := mkDisk (fun _ => true) (fun _ => true) (fun _ => stateInit).

(** Outside test mode a ledger that cannot be initialised is left out, and the chain is kept in RocksDB alone. *)
Example start_without_ledger :
  match NewHandler (fun _ => "") false (Ok ()) (demoDisk (Err "init")) (mkFiles (fun _ => Ok None) (fun _ => true) (fun _ => Ok None) (fun _ => Ok None)) with
  | Ok a => at_ledger a = None /\ at_rocks a = Some "data/rocksdb" /\ at_persistent a = true
  | Err _ => False
  end.
Proof. vm_compute. done. Qed.
