(* ===== verification/Program.v ===== *)
(** * The program: start, serving, end (main.go, logger.go, network/tls.go,
    websocket/server.go, core/rust_core.go, core/daemon.go)

    [main] from its flags to its exit, over the settings of HttpGates, the Core daemon
    of Daemon, the handler of GatewayInit and the diagnostic of Doctor. [boot] is the part
    up to the two listener goroutines; the rest is a list of [event]s: the goroutines
    come up or return, peers are dialled, the signal arrives, [main] takes the next
    step of its shutdown. [Outside] is what the outside answers. Whoever ends, a process
    loses its file locks and its connections; a Core that it started stays unless
    [Handler.Close] stopped it.

    A gateway that serves is complete, an orderly end leaves the machine as it was,
    and what another end leaves behind is exactly the Core it started. *)

From S2P Require Import Prelude GoStd GoJson GoText GoPath Sha256 Tx Chain TxPool Votes Voter CoreRpc CoreCalls AutoBlock Doctor Daemon HttpGates GatewayInit ExplorerRoutes Nodes.
From Stdlib Require Import Ascii.

#[local] Open Scope Z_scope.

(** ** logger.go *)

(** The log file with its lines, [None] when it is not open; the lines on the standard
    error stream. *)
Record Logger := mkLogger { lg_file : option (list string); lg_nodeID : string; lg_stderr : list string }.

Definition ellipsis : string := String "226" (String "128" (String "166" "")).

Definition SetNodeID (id : string) (l : Logger) : Logger :=
  mkLogger (lg_file l) (if (8 <? String.length id)%nat then str_take 6 id +:+ ellipsis else id) (lg_stderr l).

Definition printf (line : string) (l : Logger) : Logger := mkLogger (lg_file l) (lg_nodeID l) (lg_stderr l ++ [line]).

(** [existing] is the content of log/gateway.log, [None] when it cannot be opened. *)
Definition logger_init (mkdir : bool) (existing : option (list string)) : Logger :=
  let closed := mkLogger None "" [] in
  if negb mkdir then printf "[gateway] failed to create log dir log" closed
  else match existing with
  | None => printf "[gateway] failed to open log file log/gateway.log" closed
  | Some lines => printf "[gateway] logging to log/gateway.log" (mkLogger (Some lines) "" [])
  end.

(** [ts] is the time as text, [msg] the formatted message. *)
Definition logLine (ts level msg : string) (nodeID : string) : string :=
  ts +:+ " " +:+ level +:+ (if String.eqb nodeID "" then "" else " " +:+ nodeID +:+ " ") +:+ msg.

Definition log_write (level ts msg : string) (l : Logger) : Logger :=
  let l := mkLogger ((fun ls => ls ++ [logLine ts level msg (lg_nodeID l)]) <$> lg_file l) (lg_nodeID l) (lg_stderr l) in
  printf (if String.eqb level "ERROR" then "[ERROR] " +:+ msg else if String.eqb level "WARN" then "[WARN] " +:+ msg else msg) l.

Definition log_Error := log_write "ERROR".
Definition log_Warn := log_write "WARN".
Definition log_Info := log_write "INFO".

Definition log_Close (l : Logger) : Logger := mkLogger None (lg_nodeID l) (lg_stderr l).

(** ** network/tls.go *)

Record TlsConfig := mkTlsConfig { tc_certificates : list string; tc_minVersion : Z; tc_rootCAs : option string }.

Definition VersionTLS12 : Z := 0x0303.

(** [pair] is [tls.LoadX509KeyPair]. *)
Definition LoadServerTLS (pair : string -> string -> result string) (certFile keyFile : string) : result TlsConfig :=
  if String.eqb certFile "" || String.eqb keyFile "" then Err "tls cert and key required"
  else match pair certFile keyFile with
  | Err e => Err ("load tls cert: " +:+ e)
  | Ok cert => Ok (mkTlsConfig [cert] VersionTLS12 None)
  end.

(** [read] is the content of a file, [pem] the pool that it gives. *)
Definition LoadPeerTLS (read : string -> result string) (pem : string -> option string) (caFile : string) : result TlsConfig :=
  let cfg := mkTlsConfig [] VersionTLS12 None in
  if String.eqb caFile "" then Ok cfg
  else match read caFile with
  | Err e => Err ("read peer tls ca: " +:+ e)
  | Ok data =>
      match pem data with
      | None => Err "invalid peer tls ca pem"
      | Some pool => Ok (mkTlsConfig (tc_certificates cfg) (tc_minVersion cfg) (Some pool))
      end
  end.

(** ** The identity file, and peers that are not up *)

(** [NodeIdentity.Save]: whether the directory can be made and the file be written. *)
Definition SaveIdentity (mkdir write : string -> bool) (path : string) (id : NodeIdentity) : result unit :=
  if negb (mkdir (PathDir path)) then Err "mkdir" else if negb (write path) then Err "write" else Ok ().

(** [ConnectToNodeWithRetry] on the outcomes of its attempts: the seconds it sleeps, and
    whether it connects. *)
Fixpoint ConnectToNodeWithRetry (tries : list (result unit)) : Z * bool :=
  match tries with
  | [] => (0, false)
  | Ok _ :: _ => (0, true)
  | Err _ :: rest => let '(slept, ok) := ConnectToNodeWithRetry rest in (5 + slept, ok)
  end.

(** ** The callbacks of the node manager *)

(** Every [Set...] method of nodes.go puts a function into one field; the set of the
    fields that are not nil. *)
Definition setCallback (field : string) (set : gset string) : gset string := {[field]} ∪ set.

Definition NewServerCallbacks : list string := ["getLocalSockets"; "wsMessageHandler"].

Definition setCallbacks (fields : list string) (set : gset string) : gset string := foldl (fun s f => setCallback f s) set fields.

(** ** The process *)

(** main.go's flags. *)
Record Options := mkOptions { op_flags : Flags; op_port : Z; op_ws : Z; op_doctor : bool }.

(** What the outside answers: the random source, the network interfaces, the identity
    file, key generation, directories and files written, the CA file, the start of Core, its handshake
    and ping, the program path, the disk and the files of the stores; what the
    diagnostic finds, and the chain that [initChainPersistence] (Startup) left. *)
Record Outside := mkOutside {
  wd_random : option byteList; wd_addrs : result (list (option IPNet));
  wd_identity : string -> identityRead; wd_generate : result (list Z * list Z); wd_mkdir : string -> bool; wd_write : string -> bool;
  wd_read : string -> result string; wd_pem : string -> option string;
  wd_daemon : DaemonEnv; wd_handshake : string -> result unit; wd_ping : string -> result unit; wd_cli : result string;
  wd_disk : Disk; wd_files : StoreFiles; wd_stores : Attached -> Stores; wd_chain : Attached -> Blockchain
}.

(** What [main] puts into the node manager and the WebSocket server. *)
Record Wiring := mkWiring {
  wr_nodeID : string; wr_nodeAddress : string; wr_restBaseURL : string; wr_peerTLS : option TlsConfig;
  wr_tlsCertFile : string; wr_tlsKeyFile : string; wr_callbacks : gset string
}.

(** [NewNodesManager], before anything is set. *)
Definition newWiring (nodeID host : string) (port : Z) : Wiring := mkWiring nodeID ("ws://" +:+ host +:+ ":" +:+ FormatInt port) "" None "" "" ∅.

Definition SetNodeAddress (address : string) (w : Wiring) : Wiring :=
  mkWiring (wr_nodeID w) address (wr_restBaseURL w) (wr_peerTLS w) (wr_tlsCertFile w) (wr_tlsKeyFile w) (wr_callbacks w).
Definition SetRestBaseURL (url : string) (w : Wiring) : Wiring :=
  mkWiring (wr_nodeID w) (wr_nodeAddress w) url (wr_peerTLS w) (wr_tlsCertFile w) (wr_tlsKeyFile w) (wr_callbacks w).
Definition SetPeerTLSConfig (cfg : option TlsConfig) (w : Wiring) : Wiring :=
  mkWiring (wr_nodeID w) (wr_nodeAddress w) (wr_restBaseURL w) cfg (wr_tlsCertFile w) (wr_tlsKeyFile w) (wr_callbacks w).
Definition SetTLS (certFile keyFile : string) (w : Wiring) : Wiring :=
  mkWiring (wr_nodeID w) (wr_nodeAddress w) (wr_restBaseURL w) (wr_peerTLS w) certFile keyFile (wr_callbacks w).
Definition with_callbacks (cbs : gset string) (w : Wiring) : Wiring :=
  mkWiring (wr_nodeID w) (wr_nodeAddress w) (wr_restBaseURL w) (wr_peerTLS w) (wr_tlsCertFile w) (wr_tlsKeyFile w) cbs.

Inductive listener := NotYet | Serving (tls : bool) | Closed.

(** [Fatal] is exit code 1 with the failed step, [Reported] the exit of --doctor,
    [Returned] the end of [main]. *)
Inductive ending := Fatal (step : string) | Reported (code : Z) | Returned.

(** Where [main] stands: before the listeners, waiting for the signal, or after one of
    the three calls of the shutdown. *)
Inductive stage := Starting | Waiting | WsStopped | RestClosed | HandlerClosed | Ended (how : ending).

Record Process := mkProcess {
  pr_env : gmap string string; pr_tls : TlsSettings; pr_wiring : Wiring; pr_logger : Logger;
  pr_vars : DaemonVars; pr_os : OS; pr_core : option coreMode; pr_conn : bool;
  pr_handler : option Attached; pr_report : option ConsistencyDiagnostic; pr_worker : bool;
  pr_rest : listener; pr_wsl : listener; pr_peers : bool; pr_stage : stage
}.

Definition with_settings env tls wr lg (p : Process) : Process :=
  mkProcess env tls wr lg (pr_vars p) (pr_os p) (pr_core p) (pr_conn p) (pr_handler p) (pr_report p) (pr_worker p) (pr_rest p) (pr_wsl p) (pr_peers p) (pr_stage p).
Definition with_core env v os core conn (p : Process) : Process :=
  mkProcess env (pr_tls p) (pr_wiring p) (pr_logger p) v os core conn (pr_handler p) (pr_report p) (pr_worker p) (pr_rest p) (pr_wsl p) (pr_peers p) (pr_stage p).
Definition with_handler h cbs (p : Process) : Process :=
  mkProcess (pr_env p) (pr_tls p) (with_callbacks cbs (pr_wiring p)) (pr_logger p) (pr_vars p) (pr_os p) (pr_core p) (pr_conn p) (Some h) (pr_report p) (pr_worker p) (pr_rest p) (pr_wsl p) (pr_peers p) (pr_stage p).
Definition with_report r worker (p : Process) : Process :=
  mkProcess (pr_env p) (pr_tls p) (pr_wiring p) (pr_logger p) (pr_vars p) (pr_os p) (pr_core p) (pr_conn p) (pr_handler p) r worker (pr_rest p) (pr_wsl p) (pr_peers p) (pr_stage p).
Definition with_listeners rest ws peers (p : Process) : Process :=
  mkProcess (pr_env p) (pr_tls p) (pr_wiring p) (pr_logger p) (pr_vars p) (pr_os p) (pr_core p) (pr_conn p) (pr_handler p) (pr_report p) (pr_worker p) rest ws peers (pr_stage p).
Definition with_stage s (p : Process) : Process :=
  mkProcess (pr_env p) (pr_tls p) (pr_wiring p) (pr_logger p) (pr_vars p) (pr_os p) (pr_core p) (pr_conn p) (pr_handler p) (pr_report p) (pr_worker p) (pr_rest p) (pr_wsl p) (pr_peers p) s.

(** The end of a process, however it comes: the system takes its locks, its
    connections and its sockets. *)
Definition endProcess (how : ending) (p : Process) : Process :=
  let '(v, os) := releaseDaemonLock (pr_vars p) (pr_os p) in
  with_stage (Ended how) (with_report (pr_report p) false (with_listeners Closed Closed false (with_core (pr_env p) v os (pr_core p) false p))).

(** ** NewRustCore with the daemon it starts *)

Definition rpcMode (getenv : string -> string) : bool :=
  let mode := ToLower (TrimSpace (getenv "PLATARIUM_CORE_MODE")) in String.eqb mode "" || String.eqb mode "rpc".

(** The path is resolved first and passed on, empty when it is not found. *)
Definition openDaemon (w : Outside) (id : Z) (getenv : string -> string) (v : DaemonVars) (os : OS) : DaemonVars * OS * result unit :=
  if rpcMode getenv && autostartOn getenv
  then EnsureCoreDaemon getenv id (match wd_cli w with Ok path => path | Err _ => "" end) (DefaultCoreRPCAddr getenv) (wd_daemon w) v os
  else (v, os, Ok ()).

Definition openRustCore (w : Outside) (id : Z) (p : Process) : Process * result coreMode :=
  let env := EnsureCoreRPCAuthEnv (wd_random w) (pr_env p) in
  let getenv := getenvOf env in
  let '(v, os, r) := openDaemon w id getenv (pr_vars p) (pr_os p) in
  let core := NewRustCore getenv (fun _ => r) (wd_handshake w) (wd_ping w) (wd_cli w) in
  (with_core env v os (match core with Ok m => Some m | Err _ => None end) (match core with Ok (ModeRpc _) => true | _ => false end) p, core).

(** [Mode]. *)
Definition coreModeName (m : coreMode) : string := match m with ModeRpc _ => "rpc" | ModeCli _ => "cli" end.

(** [RustCore.Close] and [Handler.Close]. *)
Definition RustCoreClose (core : option coreMode) (conn : bool) : bool := match core with Some (ModeRpc _) => false | _ => conn end.

Definition HandlerClose (p : Process) : Process :=
  let conn := RustCoreClose (pr_core p) (pr_conn p) in
  let '(v, os) := StopOwnedCoreDaemon (pr_vars p) (pr_os p) in
  with_core (pr_env p) v os (pr_core p) conn p.

(** [StartAutoBlockWorker]: from here on [autoBlockTick] (AutoBlock) runs every half second. *)
Definition StartAutoBlockWorker (p : Process) : Process := with_report (pr_report p) true p.

(** ** From the flags to the listeners *)

Section boot.
Context {C : GoConv}.
Variable w : Outside.
Variable o : Options.

Definition startEnv (env : gmap string string) : gmap string string :=
  EnsureCoreRPCAuthEnv (wd_random w) (testnetEnv (op_flags o) (fileEnv (op_flags o) env)).

(** [NewNodesManager], the addresses, the peer CA and [NewServer] with its TLS files. *)
Definition wireNode (t : TlsSettings) (getenv : string -> string) : result Wiring :=
  let path := IdentityPathForPort getenv (op_ws o) in
  match (LoadOrCreateIdentity (wd_generate w) (SaveIdentity (wd_mkdir w) (wd_write w) path) (wd_identity w path)).1 with
  | Err e => Err ("[NODE] identity load/create failed: " +:+ e)
  | Ok id =>
      let '(address, rest) := announced t (nodeHost getenv (wd_addrs w)) (op_ws o) (op_port o) in
      match (if String.eqb (tl_peerCA t) "" then Ok None
             else match LoadPeerTLS (wd_read w) (wd_pem w) (tl_peerCA t) with Ok cfg => Ok (Some cfg) | Err e => Err e end) with
      | Err e => Err ("Failed to load peer TLS CA: " +:+ e)
      | Ok peerTLS =>
          let nm := newWiring (id_NodeID id) (nodeHost getenv (wd_addrs w)) (op_ws o) in
          let nm := SetPeerTLSConfig peerTLS (SetRestBaseURL rest (SetNodeAddress address nm)) in
          let nm := with_callbacks (setCallbacks NewServerCallbacks (wr_callbacks nm)) nm in
          Ok (if TLSEnabled (tl_wsCert t) (tl_wsKey t) then SetTLS (tl_wsCert t) (tl_wsKey t) nm else nm)
      end
  end.

(** [NewHandler] on the process: Core, then the services, then the callbacks. *)
Definition openHandler (id : Z) (p : Process) : Process * result Attached :=
  let '(p, core) := openRustCore w id p in
  let r := NewHandler (getenvOf (pr_env p)) (fl_testnet (op_flags o)) (match core with Ok _ => Ok () | Err e => Err e end) (wd_disk w) (wd_files w) in
  match r with
  | Err e => (p, Err e)
  | Ok a => (with_handler a (setCallbacks RegisterSyncCallbacks (setCallbacks RegisterVoteCallbacks (wr_callbacks (pr_wiring p)))) p, Ok a)
  end.

(** [main] up to the goroutines of the listeners. *)
Definition boot (id : Z) (p : Process) : Process :=
  let t := tlsSettings (op_flags o) (getenvOf (fileEnv (op_flags o) (pr_env p))) in
  let env := startEnv (pr_env p) in
  match wireNode t (getenvOf env) with
  | Err e => endProcess (Fatal e) p
  | Ok wr =>
      let '(p, r) := openHandler id (with_settings env t wr (SetNodeID (wr_nodeID wr) (pr_logger p)) p) in
      match r with
      | Err e => endProcess (Fatal ("Failed to create handler: " +:+ e)) p
      | Ok a =>
          if op_doctor o then
            let rep := RunDoctorConsistency (wd_stores w a) (Some (wd_chain w a)) in
            endProcess (Reported (doctorExit rep)) (with_report (Some rep) false p)
          else
          with_stage Waiting (if AutoBlockEnabled (getenvOf (pr_env p)) (fl_testnet (op_flags o)) then StartAutoBlockWorker p else p)
      end
  end.
End boot.

(** ** Serving and the shutdown *)

(** [RestReturns] and [WsReturns] carry the error of the blocking call. *)
Inductive event := RestUp | RestReturns (e : string) | WsUp | WsReturns (e : string) | PeersDue | Signal | MainNext.

Definition ErrServerClosed : string := "http: Server closed".

(** A server that was closed answers [ErrServerClosed], also when it never served. *)
Definition serverReturns (l : listener) (e : string) : string := match l with Closed => ErrServerClosed | _ => e end.

Definition comesUp (tls : bool) (l : listener) : listener := match l with NotYet => Serving tls | _ => l end.

(** [Server.Stop]: before [Start] there is no server to close. *)
Definition wsStop (l : listener) : listener := match l with NotYet => NotYet | _ => Closed end.

Definition alive (p : Process) : bool := match pr_stage p with Starting | Ended _ => false | _ => true end.

(** The TLS choice of the REST goroutine and of [Server.Start]. *)
Definition restTLS (p : Process) : bool := TLSEnabled (tl_restCert (pr_tls p)) (tl_restKey (pr_tls p)).
Definition wsTLS (p : Process) : bool :=
  negb (String.eqb (wr_tlsCertFile (pr_wiring p)) "") && negb (String.eqb (wr_tlsKeyFile (pr_wiring p)) "").

(** [Server.Start]. *)
Definition StartWs (p : Process) : Process := with_listeners (pr_rest p) (comesUp (wsTLS p) (pr_wsl p)) (pr_peers p) p.

Definition step (p : Process) (ev : event) : Process :=
  if negb (alive p) then p
  else match ev with
  | RestUp => with_listeners (comesUp (restTLS p) (pr_rest p)) (pr_wsl p) (pr_peers p) p
  | WsUp => StartWs p
  | RestReturns e => if String.eqb (serverReturns (pr_rest p) e) ErrServerClosed then p else endProcess (Fatal ("REST API server error: " +:+ e)) p
  | WsReturns e => if String.eqb (serverReturns (pr_wsl p) e) ErrServerClosed then p else endProcess (Fatal ("WebSocket server error: " +:+ e)) p
  | PeersDue => with_listeners (pr_rest p) (pr_wsl p) true p
  | Signal => match pr_stage p with Waiting => with_stage WsStopped (with_listeners (pr_rest p) (wsStop (pr_wsl p)) (pr_peers p) p) | _ => p end
  | MainNext =>
      match pr_stage p with
      | WsStopped => with_stage RestClosed (with_listeners Closed (pr_wsl p) (pr_peers p) p)
      | RestClosed => with_stage HandlerClosed (HandlerClose p)
      | HandlerClosed => endProcess Returned p
      | _ => p
      end
  end.

Definition run (p : Process) (evs : list event) : Process := foldl step p evs.

(** A process before [main], as [logger_init] leaves it. *)
Definition noTls : TlsSettings := mkTls "" "" "" "" "".
Definition newProcess (env : gmap string string) (lg : Logger) (os : OS) : Process :=
  mkProcess env noTls (mkWiring "" "" "" None "" "" ∅) lg noDaemon os None false None None false NotYet NotYet false Starting.

(** * What a run of the program guarantees *)

(** ** The Core that it starts *)

Lemma default_addr_given getenv : DefaultCoreRPCAddr getenv <> "".
Proof.
  unfold DefaultCoreRPCAddr. destruct (String.eqb_spec (TrimSpace (getenv "PLATARIUM_CORE_RPC_ADDR")) ""); [|done]. cbn [negb].
  destruct (negb _); [done|]. by destruct (negb _).
Qed.

(** With an address given, the environment of the caller plays no part. *)
Lemma ensure_any_env g1 g2 id cli addr e v os : addr <> "" -> EnsureCoreDaemon g1 id cli addr e v os = EnsureCoreDaemon g2 id cli addr e v os.
Proof. intros H. unfold EnsureCoreDaemon. by rewrite (proj2 (String.eqb_neq _ _) H). Qed.

(** What a process holds of the machine it started on: nothing, or one lock and one
    Core. *)
Inductive holds (id : Z) (os0 : OS) (v : DaemonVars) (os : OS) : Prop :=
| HoldsNothing : idle v -> os_locks os = os_locks os0 -> os_procs os = os_procs os0 -> holds id os0 v os
| HoldsCore l pid : os_locks os0 !! l = None -> os_procs os0 !! pid = None -> dv_owned v = true -> dv_cmd v = Some pid -> dv_lock v = Some l ->
    os_locks os = <[l := id]> (os_locks os0) -> os_procs os = <[pid := true]> (os_procs os0) -> holds id os0 v os.

Lemma openDaemon_holds w id getenv os : freshStart (wd_daemon w) os ->
  let '(v', os', _) := openDaemon w id getenv noDaemon os in holds id os v' os'.
Proof.
  intros Hf. unfold openDaemon. destruct (_ && _); [|by constructor].
  pose proof (ensure_outcome getenv id (match wd_cli w with Ok path => path | Err _ => "" end) _ (wd_daemon w) noDaemon os (default_addr_given getenv)
    ltac:(done) Hf) as Ho.
  destruct (EnsureCoreDaemon _ _ _ _ _ _ _) as [[v' os'] r]. destruct Ho; [by constructor|by constructor|by econstructor].
Qed.

(** Stopping gives everything back; a process that just ends gives the lock back. *)
Lemma stop_holds id os0 v os : holds id os0 v os -> let '(v', os') := StopOwnedCoreDaemon v os in
  idle v' /\ os_locks os' = os_locks os0 /\ os_procs os' = os_procs os0.
Proof.
  intros [Hi Hl Hp|l pid Hl0 Hp0 Ho Hc Hlk Hl Hp]; unfold StopOwnedCoreDaemon.
  - destruct Hi as (Ho & ? & ?). by rewrite Ho.
  - rewrite Ho, Hc. set (os1 := if String.eqb _ _ then _ else _).
    assert (H1 : os_locks os1 = os_locks os /\ os_procs os1 = delete pid (os_procs os)).
    { subst os1. destruct (String.eqb _ _); [done|]. destruct (ParseRPCAddr _) as [net dial]. destruct (readDaemonPID _ _) as [cur|]; [|done]. by destruct (cur =? pid). }
    unfold releaseDaemonLock. cbn [with_log with_cmd dv_lock]. rewrite Hlk. destruct H1 as [H1 H2].
    split_and!; [done|cbn; rewrite H1, Hl|cbn; rewrite H2, Hp]; by rewrite delete_insert_id.
Qed.

(** What the end of a process leaves on the machine. *)
Definition leaves (os0 : OS) (how : ending) (os : OS) : Prop :=
  os_locks os = os_locks os0 /\
  (os_procs os = os_procs os0 \/ (how <> Returned /\ exists pid, os_procs os0 !! pid = None /\ os_procs os = <[pid := true]> (os_procs os0))).

Lemma end_leaves id os0 how p : holds id os0 (pr_vars p) (pr_os p) -> (how = Returned -> idle (pr_vars p)) -> leaves os0 how (pr_os (endProcess how p)).
Proof.
  intros Hh Hr. unfold endProcess, releaseDaemonLock. destruct Hh as [(Ho & Hc & Hn) Hl Hp|l pid Hl0 Hp0 Ho Hc Hlk Hl Hp].
  - rewrite Hn. split; [done|by left].
  - rewrite Hlk. split; cbn; [rewrite Hl; by rewrite delete_insert_id|]. right. split; [|by eauto]. intros ->. destruct (Hr eq_refl) as (? & _). congruence.
Qed.

Definition tidy (id : Z) (os0 : OS) (p : Process) : Prop :=
  match pr_stage p with
  | Ended how => leaves os0 how (pr_os p)
  | s => holds id os0 (pr_vars p) (pr_os p) /\ (s = HandlerClosed -> idle (pr_vars p))
  end.

Lemma end_tidy id os0 how p : holds id os0 (pr_vars p) (pr_os p) -> (how = Returned -> idle (pr_vars p)) -> tidy id os0 (endProcess how p).
Proof.
  intros Hh Hr. pose proof (end_leaves id os0 how p Hh Hr) as H. unfold tidy, endProcess in *. by destruct (releaseDaemonLock _ _).
Qed.

Section runs.
Context {C : GoConv}.
Variable w : Outside.
Variable o : Options.
Variable id : Z.

(** Opening the handler touches the machine only through the daemon. *)
Lemma openHandler_machine p : let '(p', _) := openHandler w o id p in
  exists r, openDaemon w id (getenvOf (EnsureCoreRPCAuthEnv (wd_random w) (pr_env p))) (pr_vars p) (pr_os p) = (pr_vars p', pr_os p', r) /\ pr_stage p' = pr_stage p.
Proof.
  unfold openHandler, openRustCore. destruct (openDaemon _ _ _ _ _) as [[v os] r].
  destruct (NewHandler _ _ _ _ _); by exists r.
Qed.

Lemma end_stage how p : pr_stage (endProcess how p) = Ended how.
Proof. unfold endProcess. by destruct (releaseDaemonLock _ _). Qed.

Lemma boot_tidy p : pr_vars p = noDaemon -> freshStart (wd_daemon w) (pr_os p) -> tidy id (pr_os p) (boot w o id p).
Proof.
  intros Hv Hf. unfold boot. destruct (wireNode _ _ _ _) as [wr|e].
  2:{ apply end_tidy; rewrite Hv; [by constructor|done]. }
  set (q := with_settings _ _ _ _ p). pose proof (openHandler_machine q) as Hm. destruct (openHandler w o id q) as [q' r]. destruct Hm as (rd & Hd & Hs).
  pose proof (openDaemon_holds w id (getenvOf (EnsureCoreRPCAuthEnv (wd_random w) (pr_env q))) (pr_os q) Hf) as Hh.
  change (pr_vars q) with (pr_vars p) in Hd. rewrite Hv in Hd. rewrite Hd in Hh.
  destruct r as [a|e]; [|by apply end_tidy]. destruct (op_doctor o); [by apply end_tidy|]. by destruct (AutoBlockEnabled _ _).
Qed.

Lemma step_tidy os0 p ev : tidy id os0 p -> tidy id os0 (step p ev).
Proof.
  intros Ht. unfold step. destruct (alive p) eqn:Ea; [|done]. cbn [negb].
  assert (Hh : holds id os0 (pr_vars p) (pr_os p)) by (unfold tidy, alive in *; by destruct (pr_stage p); try destruct Ht).
  destruct ev; try exact Ht.
  - destruct (String.eqb _ _); [done|]. by apply end_tidy.
  - destruct (String.eqb _ _); [done|]. by apply end_tidy.
  - by destruct (pr_stage p).
  - destruct (pr_stage p) eqn:Es; try done.
    + unfold HandlerClose. pose proof (stop_holds id os0 _ _ Hh) as Hst. destruct (StopOwnedCoreDaemon _ _) as [v os]. destruct Hst as (Hi & Hl & Hp).
      split; [by constructor|done].
    + apply end_tidy; [done|]. intros _. unfold tidy in Ht. rewrite Es in Ht. by apply Ht.
Qed.

Lemma run_tidy os0 evs : forall p, tidy id os0 p -> tidy id os0 (run p evs).
Proof. induction evs as [|ev evs IH]; intros p H; [done|]. cbn. apply IH. by apply step_tidy. Qed.

(** ** The signal *)

Lemma step_ended p ev : alive p = false -> step p ev = p.
Proof. intros H. unfold step. by rewrite H. Qed.

Lemma signal_stage p : pr_stage (step p Signal) = match pr_stage p with Waiting => WsStopped | s => s end.
Proof. unfold step, alive. destruct (pr_stage p) eqn:E; cbn [negb]; by rewrite ?E. Qed.

Lemma next_stage p :
  pr_stage (step p MainNext) = match pr_stage p with WsStopped => RestClosed | RestClosed => HandlerClosed | HandlerClosed => Ended Returned | s => s end.
Proof.
  unfold step, alive. destruct (pr_stage p) eqn:E; cbn [negb]; rewrite ?E; try done. by rewrite end_stage.
Qed.

Lemma signal_ends p : alive p = true -> pr_stage (run p [Signal; MainNext; MainNext; MainNext]) = Ended Returned.
Proof. unfold alive. cbn [run foldl]. rewrite !next_stage, signal_stage. by destruct (pr_stage p). Qed.

(** C13: an orderly end of the program leaves the machine as it was, and any other end
    at most one process more. Whatever the flags, the environment, the answers of the
    outside and the order in which listeners come up and fail, peers are dialled and
    signals arrive: when the process has ended its lock file is free again; after the
    three calls of the shutdown the running processes are those of the start, so
    the Core the gateway started is gone; after a fatal error or --doctor there is at
    most one more, the Core that it started and did not stop. Every process that is
    serving reaches the orderly end when the signal arrives and no listener fails
    meanwhile. *)
Theorem program_ends env lg os evs (Hfresh : freshStart (wd_daemon w) os) :
  let p := run (boot w o id (newProcess env lg os)) evs in
  (forall how, pr_stage p = Ended how -> leaves os how (pr_os p)) /\
  (alive p = true -> let q := run p [Signal; MainNext; MainNext; MainNext] in
     pr_stage q = Ended Returned /\ os_locks (pr_os q) = os_locks os /\ os_procs (pr_os q) = os_procs os).
Proof.
  set (p := run _ evs). assert (Ht : tidy id os p).
  { apply run_tidy. by apply (boot_tidy (newProcess env lg os)). }
  split; [intros how Hs; unfold tidy in Ht; by rewrite Hs in Ht|]. intros Ha q. pose proof (signal_ends p Ha) as Hq. split; [done|].
  pose proof (run_tidy os [Signal; MainNext; MainNext; MainNext] p Ht) as H. fold q in H, Hq. unfold tidy in H. rewrite Hq in H.
  destruct H as [Hl [Hp|[Hn _]]]; by split.
Qed.
End runs.

(** ** What a process has when it serves *)

Definition allCallbacks : list string := NewServerCallbacks ++ RegisterVoteCallbacks ++ RegisterSyncCallbacks.

Lemma setCallbacks_elem fields : forall set name, name ∈ setCallbacks fields set <-> name ∈ fields \/ name ∈ set.
Proof.
  unfold setCallbacks. induction fields as [|f fields IH]; intros set name; cbn [foldl]; [set_solver|]. rewrite IH. unfold setCallback. set_solver.
Qed.

Section serving.
Context {C : GoConv}.
Variable w : Outside.
Variable o : Options.
Variable id : Z.

(** The handler and all callbacks are there, in a test network Core and its ledger too,
    and the announced addresses say what the listeners do. *)
Record complete (p : Process) : Prop := mkComplete {
  cp_noDoctor : op_doctor o = false;
  cp_handler : exists a, pr_handler p = Some a /\ (fl_testnet (op_flags o) = true -> at_core a = true /\ is_Some (at_ledger a));
  cp_callbacks : forall name, name ∈ allCallbacks -> name ∈ wr_callbacks (pr_wiring p);
  cp_ws : HasPrefix (wr_nodeAddress (pr_wiring p)) "wss://" = wsTLS p;
  cp_rest : HasPrefix (wr_restBaseURL (pr_wiring p)) "https://" = restTLS p;
  cp_worker : pr_worker p = AutoBlockEnabled (getenvOf (pr_env p)) (fl_testnet (op_flags o))
}.

(** What runs in a process: a listener, the peer connections, the block worker. *)
Definition active (p : Process) : Prop := (exists b, pr_rest p = Serving b) \/ (exists b, pr_wsl p = Serving b) \/ pr_peers p = true \/ pr_worker p = true.

Definition sound (p : Process) : Prop :=
  (alive p = true -> complete p) /\ (active p -> alive p = true) /\
  (forall b, pr_rest p = Serving b -> b = restTLS p) /\ (forall b, pr_wsl p = Serving b -> b = wsTLS p).

Lemma end_sound how p : sound (endProcess how p).
Proof.
  unfold sound, active, alive, endProcess. destruct (releaseDaemonLock _ _). cbn. split_and!; try done. naive_solver.
Qed.

Lemma wire_announces t getenv wr : wireNode w o t getenv = Ok wr ->
  wr_nodeAddress wr = (announced t (nodeHost getenv (wd_addrs w)) (op_ws o) (op_port o)).1 /\
  wr_restBaseURL wr = (announced t (nodeHost getenv (wd_addrs w)) (op_ws o) (op_port o)).2 /\
  (negb (String.eqb (wr_tlsCertFile wr) "") && negb (String.eqb (wr_tlsKeyFile wr) "") = TLSEnabled (tl_wsCert t) (tl_wsKey t)) /\
  wr_callbacks wr = setCallbacks NewServerCallbacks ∅.
Proof.
  unfold wireNode. destruct ((LoadOrCreateIdentity _ _ _).1) as [i|e]; [|done]. destruct (announced _ _ _ _) as [a r].
  destruct (if String.eqb (tl_peerCA t) "" then _ else _) as [pt|e]; [|done].
  destruct (TLSEnabled (tl_wsCert t) (tl_wsKey t)) eqn:Et; intros [= <-]; by split_and!.
Qed.

Lemma newHandler_testnet getenv core dk files a : NewHandler getenv true core dk files = Ok a -> at_core a = true /\ is_Some (at_ledger a).
Proof.
  unfold NewHandler. destruct core as [[]|e]; [|done]. destruct (NewLedgerService _ _ _) as [p|e]; [|done]. intros [= <-]. by split; [|eexists].
Qed.

(** Opening a handler keeps the wiring but for the callbacks, and starts nothing. *)
Lemma openHandler_wiring p : let '(p', r) := openHandler w o id p in
  (pr_rest p', pr_wsl p', pr_peers p', pr_worker p', pr_tls p') = (pr_rest p, pr_wsl p, pr_peers p, pr_worker p, pr_tls p) /\
  forall a, r = Ok a -> pr_handler p' = Some a /\ (fl_testnet (op_flags o) = true -> at_core a = true /\ is_Some (at_ledger a)) /\
    wr_nodeAddress (pr_wiring p') = wr_nodeAddress (pr_wiring p) /\ wr_restBaseURL (pr_wiring p') = wr_restBaseURL (pr_wiring p) /\
    wr_tlsCertFile (pr_wiring p') = wr_tlsCertFile (pr_wiring p) /\ wr_tlsKeyFile (pr_wiring p') = wr_tlsKeyFile (pr_wiring p) /\
    (forall name, name ∈ wr_callbacks (pr_wiring p') <-> name ∈ RegisterVoteCallbacks ++ RegisterSyncCallbacks \/ name ∈ wr_callbacks (pr_wiring p)).
Proof.
  unfold openHandler, openRustCore. destruct (openDaemon _ _ _ _ _) as [[v os] rd].
  destruct (NewHandler _ _ _ _ _) as [a|e] eqn:En; split; try done. intros ? [= <-].
  split_and!; try done.
  - intros Ht. rewrite Ht in En. by apply newHandler_testnet in En.
  - intros name. cbn [with_handler with_callbacks pr_wiring wr_callbacks]. rewrite !setCallbacks_elem, elem_of_app. tauto.
Qed.

Lemma scheme_of_tls (b : bool) host port : HasPrefix ((if b then "wss" else "ws") +:+ "://" +:+ host +:+ ":" +:+ port) "wss://" = b.
Proof. destruct b; [apply (prefix_of_app "wss://")|done]. Qed.

Lemma rest_scheme_of_tls (b : bool) host port : HasPrefix ((if b then "https://" else "http://") +:+ host +:+ ":" +:+ port) "https://" = b.
Proof. destruct b; [apply (prefix_of_app "https://")|done]. Qed.

Lemma boot_sound p : pr_worker p = false -> pr_rest p = NotYet -> pr_wsl p = NotYet -> pr_peers p = false -> sound (boot w o id p).
Proof.
  intros Hs Hr Hw Hp. unfold boot. destruct (wireNode _ _ _ _) as [wr|e] eqn:Ew; [|apply end_sound].
  set (q := with_settings _ _ _ _ p). pose proof (openHandler_wiring q) as H. destruct (openHandler w o id q) as [q' r]. destruct H as [Hsame Hok].
  destruct r as [a|e]; [|apply end_sound]. destruct (op_doctor o) eqn:Ed; [apply end_sound|].
  destruct (Hok a eq_refl) as (Hh & Ht & Ha & Hb & Hc & Hk & Hcb). injection Hsame as Er Ewl Ep Es Etl. cbn in Er, Ewl, Ep, Es, Etl.
  apply wire_announces in Ew as (W1 & W2 & W3 & W4).
  assert (Hwk : forall b : bool, (if b then StartAutoBlockWorker q' else q') = with_report (pr_report q') b q').
  { intros b. destruct b; [done|]. unfold with_report. destruct q'. cbn in *. congruence. }
  rewrite Hwk. split_and!; try (cbn; congruence).
  intros _. split; try done.
  - by exists a.
  - intros name Hn. apply Hcb. unfold allCallbacks in Hn. apply elem_of_app in Hn as [Hn|Hn]; [right|by left].
    cbn [q with_settings pr_wiring]. rewrite W4. apply setCallbacks_elem. by left.
  - cbn [with_stage with_report pr_wiring]. unfold wsTLS. cbn [with_stage with_report pr_wiring]. rewrite Ha, Hc, Hk. cbn [q with_settings pr_wiring].
    rewrite W3, W1. unfold announced. cbn [fst]. apply scheme_of_tls.
  - unfold restTLS. cbn [with_stage with_report pr_wiring pr_tls]. rewrite Hb, Etl. cbn [q with_settings pr_wiring pr_tls].
    rewrite W2. unfold announced. cbn [snd]. apply rest_scheme_of_tls.
Qed.

Lemma step_sound p ev : sound p -> sound (step p ev).
Proof.
  intros H. unfold step. destruct (alive p) eqn:Ea; [|done]. destruct H as (Hc & Hact & Hr & Hw). specialize (Hc Ea). cbn [negb].
  destruct ev.
  - split_and!; [by intros _; destruct Hc|done| |done]. cbn. destruct (pr_rest p); [by intros b [= <-]|done..].
  - destruct (String.eqb _ _); [by repeat split; try apply Hc|apply end_sound].
  - split_and!; [by intros _; destruct Hc|done|done|]. cbn. destruct (pr_wsl p); [by intros b [= <-]|done..].
  - destruct (String.eqb _ _); [by repeat split; try apply Hc|apply end_sound].
  - split_and!; [by intros _; destruct Hc|done|done|done].
  - destruct (pr_stage p) eqn:Es; try (by split_and!). split_and!; [by intros _; destruct Hc|done|done|]. cbn. by destruct (pr_wsl p).
  - destruct (pr_stage p) eqn:Es; try (by split_and!); [| |apply end_sound].
    + split_and!; [by intros _; destruct Hc|done|done|done].
    + unfold HandlerClose. destruct (StopOwnedCoreDaemon _ _). split_and!; [by intros _; destruct Hc|done|done|done].
Qed.

Lemma run_sound evs : forall p, sound p -> sound (run p evs).
Proof. induction evs as [|ev evs IH]; intros p H; [done|]. cbn. apply IH. by apply step_sound. Qed.

(** With the fields set, the dispatcher drops no event for want of a callback. *)
Lemma dispatch_all (cbs : gset string) : (forall name, name ∈ allCallbacks -> name ∈ cbs) ->
  dispatchEvent (fun name => bool_decide (name ∈ cbs)) = dispatchEvent (fun _ => true).
Proof.
  intros H. unfold dispatchEvent, callIf.
  repeat match goal with |- context [bool_decide (?n ∈ cbs)] => rewrite (bool_decide_eq_true_2 (n ∈ cbs)) by (apply H; apply (bool_decide_unpack _); vm_compute; exact I) end.
  reflexivity.
Qed.

(** C16: nothing of the gateway runs before it is complete. In every run of the program,
    whatever its flags, its environment and what happens to it, a process with a
    listener, peer connections or the block worker was not started with --doctor, has
    its handler (in a test network with Core and a ledger) and every callback, so that
    no event of a peer is dropped for want of one; the scheme of the WebSocket address
    and of the REST address that it announces is the one its listeners speak. *)
Theorem serving_complete env lg os evs :
  let p := run (boot w o id (newProcess env lg os)) evs in
  (active p -> complete p /\ dispatchEvent (fun name => bool_decide (name ∈ wr_callbacks (pr_wiring p))) = dispatchEvent (fun _ => true)) /\
  (forall b, pr_rest p = Serving b -> HasPrefix (wr_restBaseURL (pr_wiring p)) "https://" = b) /\
  (forall b, pr_wsl p = Serving b -> HasPrefix (wr_nodeAddress (pr_wiring p)) "wss://" = b).
Proof.
  set (p := run _ evs). assert (Hs : sound p) by (apply run_sound; by apply boot_sound).
  destruct Hs as (Hc & Hact & Hr & Hw). split_and!.
  - intros Ha. assert (Hp : complete p) by (by apply Hc, Hact). split; [done|]. apply dispatch_all. apply Hp.
  - intros b Hb. rewrite (Hr b Hb). apply Hc, Hact. left. by exists b.
  - intros b Hb. rewrite (Hw b Hb). apply Hc, Hact. right. left. by exists b.
Qed.
End serving.

(** ** Programs on one machine *)

(** The processes share the machine: each acts on its current state. *)
Definition with_os (os : OS) (p : Process) : Process := with_core (pr_env p) (pr_vars p) os (pr_core p) (pr_conn p) p.

Record System := mkSystem { sy_gateways : gmap Z Process; sy_os : OS }.

(** The address of the Core that a program started with these flags and this
    environment uses. *)
Definition coreAddr (w : Outside) (o : Options) (env : gmap string string) : string :=
  DefaultCoreRPCAddr (getenvOf (EnsureCoreRPCAuthEnv (wd_random w) (startEnv w o env))).

Section programs.
Context {C : GoConv}.
Variable addr : string.
Hypothesis addr_given : addr <> "".

(** A program starts and runs up to its listeners, a running one takes a step, other
    processes come and go. *)
Inductive system_step : System -> System -> Prop :=
| SysBoot i w o env lg g os : g !! i = None -> freshStart (wd_daemon w) os -> coreAddr w o env = addr ->
    system_step (mkSystem g os) (let p := boot w o i (newProcess env lg os) in mkSystem (<[i := p]> g) (pr_os p))
| SysEvent i p ev g os : g !! i = Some p ->
    system_step (mkSystem g os) (let p' := step (with_os os p) ev in mkSystem (<[i := p']> g) (pr_os p'))
| SysExit pid g os : system_step (mkSystem g os) (mkSystem g (with_procs (delete pid (os_procs os)) os))
| SysSpawn pid mine g os : os_procs os !! pid = None -> system_step (mkSystem g os) (mkSystem g (with_procs (<[pid := mine]> (os_procs os)) os)).

(** The daemon machine of Daemon that a system shows: the variables of the running
    programs. *)
Definition running (p : Process) : option DaemonVars := if alive p then Some (pr_vars p) else None.
Definition machineOf (s : System) : Machine := mkMachine (omap running (sy_gateways s)) (sy_os s).

Notation machine_steps := (rtc (daemon_step (fun _ => "") addr)).

Lemma machine_join i g os w getenv : g !! i = None -> freshStart (wd_daemon w) os -> DefaultCoreRPCAddr getenv = addr ->
  let '(v, os', _) := openDaemon w i getenv noDaemon os in machine_steps (mkMachine g os) (mkMachine (<[i := v]> g) os').
Proof.
  intros Hi Hf Ha. unfold openDaemon. destruct (_ && _); [|by apply rtc_once, DsJoin]. rewrite Ha, (ensure_any_env getenv (fun _ => "")) by done.
  set (cli := match wd_cli w with Ok path => path | Err _ => "" end).
  pose proof (DsEnsure (fun _ => "") addr i noDaemon cli (wd_daemon w) (<[i := noDaemon]> g) os (lookup_insert_eq _ _ _) ltac:(done) Hf) as Hs.
  destruct (EnsureCoreDaemon _ _ _ _ _ _ _) as [[v os'] r]. rewrite insert_insert_eq in Hs.
  eapply rtc_l; [by apply DsJoin|]. by apply rtc_once.
Qed.

Lemma end_machine how p : alive (endProcess how p) = false /\ pr_os (endProcess how p) = (releaseDaemonLock (pr_vars p) (pr_os p)).2.
Proof. unfold endProcess, alive. by destruct (releaseDaemonLock _ _). Qed.

(** Where a program that was just started stands: ended before it looked for Core, or
    running, or ended with its lock released. *)
Lemma boot_machine w o i p : pr_vars p = noDaemon ->
  let q := boot w o i p in
  (alive q = false /\ pr_os q = pr_os p) \/
  let '(v, os, _) := openDaemon w i (getenvOf (EnsureCoreRPCAuthEnv (wd_random w) (startEnv w o (pr_env p)))) noDaemon (pr_os p) in
  (alive q = true /\ pr_vars q = v /\ pr_os q = os) \/ (alive q = false /\ pr_os q = (releaseDaemonLock v os).2).
Proof.
  intros Hv q. subst q. unfold boot. destruct (wireNode _ _ _ _) as [wr|e].
  2:{ left. pose proof (end_machine (Fatal e) p) as [H1 H2]. split; [done|]. rewrite H2, Hv. done. }
  right. set (q := with_settings _ _ _ _ p). pose proof (openHandler_machine w o i q) as Hm. destruct (openHandler w o i q) as [q' r].
  destruct Hm as (rd & Hd & Hs). cbn [q with_settings pr_vars pr_env pr_os] in Hd. rewrite Hv in Hd. rewrite Hd.
  destruct r as [a|e]; [destruct (op_doctor o)|]; [right; exact (end_machine _ (with_report _ _ q'))|left; by destruct (AutoBlockEnabled _ _)|right; apply end_machine].
Qed.

Lemma running_ended p : alive p = false -> running p = None.
Proof. intros H. unfold running. by rewrite H. Qed.

Lemma running_alive p : alive p = true -> running p = Some (pr_vars p).
Proof. intros H. unfold running. by rewrite H. Qed.

Lemma refine_boot i w o env lg g os : g !! i = None -> freshStart (wd_daemon w) os -> coreAddr w o env = addr ->
  let p := boot w o i (newProcess env lg os) in
  machine_steps (machineOf (mkSystem g os)) (machineOf (mkSystem (<[i := p]> g) (pr_os p))).
Proof.
  intros Hi Hf Ha p. unfold machineOf. cbn [sy_gateways sy_os]. rewrite omap_insert.
  assert (Hi' : omap running g !! i = None) by (by rewrite lookup_omap, Hi).
  pose proof (machine_join i (omap running g) os w _ Hi' Hf Ha) as Hj.
  destruct (boot_machine w o i (newProcess env lg os) eq_refl) as [[Hd Ho]|Hb].
  { fold p in Hd, Ho. rewrite Ho, (running_ended p Hd), delete_id by done. apply rtc_refl. }
  cbn [newProcess pr_env pr_os] in Hb. destruct (openDaemon _ _ _ _ _) as [[v os'] r].
  destruct Hb as [(H1 & H2 & H3)|[H1 H3]]; fold p in H1, H3; rewrite H3; [fold p in H2; by rewrite (running_alive p H1), H2|]. rewrite (running_ended p H1).
  eapply rtc_r; [exact Hj|]. pose proof (DsCrash (fun _ => "") addr i v (<[i := v]> (omap running g)) os' (lookup_insert_eq _ _ _)) as Hc.
  by rewrite delete_insert_eq in Hc.
Qed.

(** What a step of a running program does to the machine: nothing, the stop of its
    Core, or its end. *)
Lemma step_machine p ev : alive p = true ->
  let q := step p ev in
  (alive q = true /\ pr_vars q = pr_vars p /\ pr_os q = pr_os p) \/
  (alive q = true /\ (pr_vars q, pr_os q) = StopOwnedCoreDaemon (pr_vars p) (pr_os p)) \/
  (alive q = false /\ pr_os q = (releaseDaemonLock (pr_vars p) (pr_os p)).2).
Proof.
  intros Ha. unfold step. rewrite Ha. cbn [negb]. destruct ev; try (by left).
  - destruct (String.eqb _ _); [by left|]. right. right. apply end_machine.
  - destruct (String.eqb _ _); [by left|]. right. right. apply end_machine.
  - destruct (pr_stage p) eqn:E; by left.
  - destruct (pr_stage p) eqn:E; try (by left).
    + right. left. unfold HandlerClose. by destruct (StopOwnedCoreDaemon _ _).
    + right. right. apply end_machine.
Qed.

Lemma refine_event i p ev g os : g !! i = Some p ->
  let p' := step (with_os os p) ev in
  machine_steps (machineOf (mkSystem g os)) (machineOf (mkSystem (<[i := p']> g) (pr_os p'))).
Proof.
  intros Hi p'. unfold machineOf. cbn [sy_gateways sy_os]. rewrite omap_insert.
  assert (Hg : omap running g !! i = running p) by (by rewrite lookup_omap, Hi).
  destruct (alive p) eqn:Ea.
  2:{ assert (Hp : p' = with_os os p) by (by apply step_ended). rewrite Hp, (running_ended (with_os os p)), delete_id by (try done; by rewrite Hg, running_ended).
      apply rtc_refl. }
  rewrite running_alive in Hg by done.
  destruct (step_machine (with_os os p) ev Ea) as [(H1 & H2 & H3)|[[H1 H2]|[H1 H3]]]; fold p' in H1.
  - fold p' in H2, H3. rewrite (running_alive p' H1), H2, H3. cbn [with_os with_core pr_vars pr_os]. rewrite insert_id by done. apply rtc_refl.
  - fold p' in H2. rewrite (running_alive p' H1). apply rtc_once. pose proof (DsStop (fun _ => "") addr i (pr_vars p) (omap running g) os Hg) as Hs.
    cbn [with_os with_core pr_vars pr_os] in H2. by rewrite <- H2 in Hs.
  - fold p' in H3. rewrite (running_ended p' H1), H3. apply rtc_once. by apply DsCrash.
Qed.

Lemma refine_step s t : system_step s t -> machine_steps (machineOf s) (machineOf t).
Proof.
  intros [i w o env lg g os Hi Hf Ha|i p ev g os Hi|pid g os|pid mine g os Hn].
  - by apply refine_boot.
  - by apply refine_event.
  - apply rtc_once, DsExit.
  - by apply rtc_once, DsSpawn.
Qed.

Lemma refine_steps s t : rtc system_step s t -> machine_steps (machineOf s) (machineOf t).
Proof. induction 1 as [|x y z Hs Hr IH]; [done|]. etrans; [by apply refine_step|done]. Qed.

(** C12: any number of gateway programs on one machine refine the daemon machine of
    [daemon_step], and so at most one of them owns a Core at an address. Programs
    start with flags and environments of their own, run through their start, serve,
    fail, receive signals and shut down step by step in any order, while other
    processes come and go: every such history is one of the abstract machine; no two
    running programs own a Core at the address they share, the owner holds its lock
    file, and a program that owns none, also one that has ended, holds no lock. *)
Theorem programs_refine_machine os s (Hrun : rtc system_step (mkSystem ∅ (with_locks ∅ os)) s) :
  rtc (daemon_step (fun _ => "") addr) (emptyMachine os) (machineOf s) /\
  (forall i j p q, sy_gateways s !! i = Some p -> sy_gateways s !! j = Some q -> alive p = true -> alive q = true ->
     dv_owned (pr_vars p) = true -> dv_owned (pr_vars q) = true -> i = j) /\
  (forall l i, os_locks (sy_os s) !! l = Some i -> exists p, sy_gateways s !! i = Some p /\ alive p = true /\ dv_owned (pr_vars p) = true).
Proof.
  pose proof (refine_steps _ _ Hrun) as Hm. assert (H0 : machineOf (mkSystem ∅ (with_locks ∅ os)) = emptyMachine os) by (unfold machineOf; cbn; by rewrite omap_empty).
  rewrite H0 in Hm. split; [done|]. apply (reachable_wf _ _ addr_given) in Hm as [H1 H2]. cbn [machineOf mc_gateways mc_os] in H1, H2. split.
  - intros i j p q Hp Hq Ap Aq Op Oq.
    assert (Hl : forall k r, sy_gateways s !! k = Some r -> alive r = true -> dv_owned (pr_vars r) = true -> os_locks (sy_os s) !! sc_lock (sidecarsOf addr) = Some k).
    { intros k r Hk Ha Ho. destruct (H1 k (pr_vars r)) as [(Hn & _)|(_ & _ & _ & ?)]; [|congruence|done]. by rewrite lookup_omap, Hk; cbn; rewrite running_alive. }
    pose proof (Hl i p Hp Ap Op). pose proof (Hl j q Hq Aq Oq). congruence.
  - intros l i Hl. destruct (H2 l i Hl) as (v & Hv & Hk). pose proof (H1 i v Hv) as Hw. rewrite lookup_omap in Hv.
    destruct (sy_gateways s !! i) as [p|]; [|done]. cbn in Hv. unfold running in Hv. destruct (alive p) eqn:Ea; [|done]. simplify_eq. exists p.
    destruct Hw as [(_ & _ & Hn)|(Ho & _)]; [congruence|done].
Qed.
End programs.

(** ** Concrete runs *)

#[local] Existing Instance zero_conv.

Definition demoOutside (handshake : result unit) (pid : Z) : Outside :=
  mkOutside (Some [1; 2]) (Ok []) (fun _ => FileMissing) (Ok ([7], [8])) (fun _ => true) (fun _ => true) (fun _ => Err "no file") (fun _ => None)
    (startOk pid) (fun _ => handshake) (fun _ => Err "no ping") (Ok "cli") (demoDisk (Ok ()))
    (mkFiles (fun _ => Ok None) (fun _ => true) (fun _ => Ok None) (fun _ => Ok None)) (fun _ => mkStores None None (Err "") None) (fun _ => NewBlockchain).

Definition demoOptions (testnet doctor : bool) (cert : string) : Options := mkOptions (mkFlags testnet "" "" cert "" "" "" "") 1812 1813 doctor.
Definition demoEnv : gmap string string := {["PLATARIUM_CORE_RPC_ADDR" := "unix:/run/core.sock"]}.
Definition demoBoot (o : Options) (handshake : result unit) : Process := boot (demoOutside handshake 42) o 1 (newProcess demoEnv (logger_init true (Some [])) noOS).

Lemma demo_fresh handshake pid os : 0 < pid <= maxInt64 -> os_procs os !! pid = None -> freshStart (wd_daemon (demoOutside handshake pid)) os.
Proof. intros H1 H2 p [= <-]. done. Qed.

Lemma program_ends_witness :
  let p := run (demoBoot (demoOptions true false "") (Ok ())) [RestUp; WsUp; PeersDue] in
  alive p = true /\ os_procs (pr_os p) = {[42 := true]} /\ os_procs (pr_os (run p [Signal; MainNext; MainNext; MainNext])) = ∅.
Proof.
  destruct (program_ends (demoOutside (Ok ()) 42) (demoOptions true false "") 1 demoEnv (logger_init true (Some [])) noOS [RestUp; WsUp; PeersDue]) as [_ H].
  - apply demo_fresh; [unfold maxInt64; lia|reflexivity].
  - split; [vm_compute; reflexivity|]. split; [vm_compute; reflexivity|]. destruct H as (_ & _ & H); [vm_compute; reflexivity|]. exact H.
Defined.

Lemma serving_complete_witness :
  let p := run (demoBoot (demoOptions true false "") (Ok ())) [RestUp; WsUp; PeersDue] in
  pr_rest p = Serving false /\ pr_worker p = true /\ exists a, pr_handler p = Some a /\ at_core a = true.
Proof.
  destruct (serving_complete (demoOutside (Ok ()) 42) (demoOptions true false "") 1 demoEnv (logger_init true (Some [])) noOS [RestUp; WsUp; PeersDue]) as [H _].
  split; [vm_compute; reflexivity|]. split; [vm_compute; reflexivity|]. destruct H as [H _].
  - right. right. left. vm_compute. reflexivity.
  - destruct (cp_handler _ _ H) as (a & Ha & Ht). exists a. split; [exact Ha|]. apply Ht. reflexivity.
Defined.

Lemma programs_refine_machine_witness : exists s,
  rtc (system_step "unix:/run/core.sock") (mkSystem ∅ (with_locks ∅ noOS)) s /\
  (exists p, sy_gateways s !! 1 = Some p /\ dv_owned (pr_vars p) = true) /\ rtc (daemon_step (fun _ => "") "unix:/run/core.sock") (emptyMachine noOS) (machineOf s).
Proof.
  set (q := boot (demoOutside (Ok ()) 42) (demoOptions true false "") 1 (newProcess demoEnv (logger_init true (Some [])) (with_locks ∅ noOS))).
  assert (Hr : rtc (system_step "unix:/run/core.sock") (mkSystem ∅ (with_locks ∅ noOS)) (mkSystem (<[1 := q]> ∅) (pr_os q))).
  { apply rtc_once. apply (SysBoot _ 1); [reflexivity|apply demo_fresh; [unfold maxInt64; lia|reflexivity]|vm_compute; reflexivity]. }
  exists (mkSystem (<[1 := q]> ∅) (pr_os q)). split; [exact Hr|].
  destruct (programs_refine_machine "unix:/run/core.sock" ltac:(discriminate) noOS _ Hr) as (H & _). split; [|exact H].
  exists q. split; [reflexivity|vm_compute; reflexivity].
Defined.

(** A port that is taken ends the program with a fatal error: its Core keeps running,
    and its pid file stays. *)
Example port_taken_leaves_core :
  let p := run (demoBoot (demoOptions true false "") (Ok ())) [WsUp; RestReturns "listen tcp 0.0.0.0:1812: bind: address already in use"] in
  (exists e, pr_stage p = Ended (Fatal e)) /\ os_procs (pr_os p) = {[42 := true]} /\ os_locks (pr_os p) = ∅ /\
  readDaemonPID "/run/core.sock.pid" (pr_os p) = Some 42.
Proof. split; [eexists; vm_compute; reflexivity|]. split_and!; vm_compute; reflexivity. Qed.

(** The diagnostic run, too, starts a Core and leaves it. *)
Example doctor_leaves_core :
  let p := demoBoot (demoOptions false true "") (Ok ()) in
  pr_stage p = Ended (Reported 0) /\ os_procs (pr_os p) = {[42 := true]} /\ pr_worker p = false.
Proof. split_and!; vm_compute; reflexivity. Qed.

(** So does a test network whose Core is started and refuses the handshake. *)
Example failed_handshake_leaves_core :
  let p := demoBoot (demoOptions true false "") (Err "token") in
  (exists e, pr_stage p = Ended (Fatal e)) /\ os_procs (pr_os p) = {[42 := true]}.
Proof. split; [eexists|]; vm_compute; reflexivity. Qed.

(** Outside a test network the same gateway runs without Core, and its shutdown stops
    the Core it started. *)
Example failed_handshake_stopped_later :
  let p := demoBoot (demoOptions false false "") (Err "token") in
  pr_core p = None /\ os_procs (pr_os p) = {[42 := true]} /\ os_procs (pr_os (run p [Signal; MainNext; MainNext; MainNext])) = ∅.
Proof. split_and!; vm_compute; reflexivity. Qed.

(** A certificate without its key is ignored: the gateway serves and announces plain
    HTTP. *)
Example certificate_without_key :
  let p := run (demoBoot (demoOptions false false "cert.pem") (Ok ())) [RestUp] in
  pr_rest p = Serving false /\ wr_restBaseURL (pr_wiring p) = "http://localhost:1812".
Proof. split; vm_compute; reflexivity. Qed.

(** A signal that arrives before the WebSocket goroutine ran finds no server to close. *)
Example stop_before_start :
  pr_wsl (run (demoBoot (demoOptions false false "") (Ok ())) [Signal; WsUp; MainNext; MainNext]) = Serving false.
Proof. vm_compute. reflexivity. Qed.

(** ** Peers and the log *)

(** A peer that answers at some attempt is connected after five seconds for each one
    before it; one that never answers is dialled for ever. *)
Lemma retry_connects before rest : Forall (fun r => is_ok r = false) before ->
  ConnectToNodeWithRetry (before ++ Ok () :: rest) = (5 * Z.of_nat (length before), true) /\ ConnectToNodeWithRetry before = (5 * Z.of_nat (length before), false).
Proof.
  induction 1 as [|r before Hr Hb [IH1 IH2]]; [done|]. destruct r as [u|e]; [done|]. cbn. rewrite IH1, IH2. split; f_equal; lia.
Qed.

Lemma SetNodeID_short id l : (String.length (lg_nodeID (SetNodeID id l)) <= 9)%nat.
Proof.
  unfold SetNodeID. cbn [lg_nodeID]. destruct (8 <? String.length id)%nat eqn:E; [|apply Nat.ltb_ge in E; lia].
  apply Nat.ltb_lt in E. rewrite str_length_app, str_take_length by lia. cbn. lia.
Qed.

Definition logAll (entries : list (string * string * string)) (l : Logger) : Logger :=
  foldl (fun l '(level, ts, msg) => log_write level ts msg l) l entries.

(** Every entry is one record at the end of the file, in order and with the node, as
    long as the file is open; the standard error stream has it in any case. *)
Theorem log_appends entries l :
  lg_file (logAll entries l) = (fun ls => ls ++ ((fun '(level, ts, msg) => logLine ts level msg (lg_nodeID l)) <$> entries)) <$> lg_file l /\
  length (lg_stderr (logAll entries l)) = (length (lg_stderr l) + length entries)%nat /\
  lg_file (logAll entries (log_Close l)) = None.
Proof.
  assert (Hn : forall es k, lg_file k = None -> lg_file (logAll es k) = None).
  { induction es as [|[[level ts] msg] es IH]; intros k H; [done|]. apply IH. cbn. by rewrite H. }
  split_and!; [|revert l; induction entries as [|[[level ts] msg] es IH]; intros l; [cbn; lia|]|by apply Hn].
  - revert l. induction entries as [|[[level ts] msg] es IH]; intros l; [cbn; destruct (lg_file l); cbn; by rewrite ?app_nil_r|].
    change (logAll ((level, ts, msg) :: es) l) with (logAll es (log_write level ts msg l)). rewrite IH. cbn. destruct (lg_file l); [|done]. cbn. by rewrite <- app_assoc.
  - change (logAll ((level, ts, msg) :: es) l) with (logAll es (log_write level ts msg l)). rewrite IH. cbn. rewrite length_app. cbn. lia.
Qed.
